(* ===== verification/_CoqProject ===== *)
-Q . S2P
Prelude.v
Triple.v
CString.v
SleepLock.v
Spinlock.v
Bio.v
Layout.v
Log.v
Recovery.v
BlockLayer.v
ProcDefs.v
ProcTable.v
Kalloc.v
Vm.v
Pipe.v
Kbd.v
Fs.v
Console.v
ConsoleSpec.v
FsAlloc.v
FsInode.v
FsFile.v
FsCache.v
FsTrunc.v
FsDir.v
Kernel.v
File.v
SysArg.v
SysArgSpec.v
Proc.v
Exec.v
Sysfile.v
Sysproc.v
Syscall.v
KFrame.v
FileRefs.v
FileCalls.v
OpenSpec.v
Identity.v
UserSys.v
Ufile.v
UfileSpec.v
Uauth.v
UauthSpec.v
Uauthgrp.v
UauthgrpSpec.v
UgroupSpec.v
Mkfs.v
MkfsSpec.v
MkfsImage.v
Umalloc.v
UmallocSpec.v
Grep.v
Uprintf.v
Uprogs.v
UprogsSpec.v
Uwalk.v
Uadmin.v
UadminSpec.v
Ucmds.v
UcmdsSpec.v
Ide.v
IdeSpec.v
Boot.v
BootSpec.v
Mp.v
Apic.v
Segments.v
Sh.v
ShSpec.v
ShRound.v
ShRun.v
ShRunSpec.v
DemoUser.v
DemoShell.v
DemoMkfs.v
DemoBoot.v
Demo.v
DemoKernel.v
DemoTrap.v
