(* ===== verification/Prelude.v ===== *)
(** * Verification of xv6-with-UAC

    A model in Rocq of xv6 with user access control: the kernel under
    [src/kernel], the boot loader, the program [mkfs] that builds the disk, and
    the user library and programs under [src/user].  Every definition follows
    the C function of its name; the theorems are about those definitions.

    ** The program

    At boot [bootmain] reads the kernel from the disk.  The kernel finds the
    processors of the machine, sets up its interrupt controllers, descriptor
    tables and page tables, mounts the file system that [mkfs] built, replays
    its log, and starts the first process.  From then on processes make the
    kernel act through traps: a system call takes its arguments from user
    memory, works on files, pipes, processes or memory, and may sleep until
    another trap wakes it.  Files have an owner, a group and permission bits;
    processes have user and group identities, which the login program [getty]
    takes from [/etc/passwd] and [/etc/group] and which the administration
    programs edit.  The shell runs the other programs.

    ** How code is modelled

    Integers are [Z], with the width of the C type written out where it wraps
    ([u32], [s32], ...).  Memory that is addressed is an array of bytes; a
    pointer into a table is an index, a null pointer [None] or 0.  Strings are
    lists of bytes, with or without the terminator as each file says.

    Code with effects is in the monad [M S A] of this file: from a state [S] it
    returns ([Ok]), calls [panic] ([Panic]), waits on a channel ([Sleep]), or
    does what C leaves undefined or what would not return ([Fault]).  A pass of
    a loop up to its [sleep] is one step, made under the lock the C code holds;
    wake-ups are emitted, and [Kernel] delivers them to the process table.  A
    system call that sleeps ends there: its rest, after the wake-up, is followed
    only where a step relation runs the loop again.  Where the order of steps matters, a step relation interleaves them:
    [sstep] ([Spinlock]), [tstep] ([ProcTable]), [pstep] ([Pipe]), the steps of
    requests and interrupts ([IdeSpec]) and of processes ([ShRunSpec]).

    [wp m Q s] says that [m] returns from [s] and that [Q] then holds: it is
    total correctness, and excludes panics and faults.  [tri] and [rel]
    ([Triple]) speak of the runs that return or sleep; they are used for
    invariants and for what code leaves alone, with the hint database [frame].

    ** The files

    Foundations.  [Prelude]: integers, byte lists, the monad, tactics.
    [Triple]: partial correctness and frames.  [CString]: [kernel/string.c] and
    the strings of [user/ulib.c].

    Locks.  [SleepLock] and [Spinlock]: [kernel/sleeplock.c] and
    [kernel/spinlock.c].  At most one CPU is between [acquire] and [release]
    of a lock, in every interleaving of their instructions.

    Disk.  [Bio]: the buffer cache over the disk of [kernel/memide.c].
    [Ide], [IdeSpec]: the driver [kernel/ide.c]; every request is finished and
    its process woken, also when the disk reports errors, a request without an
    error leaves buffer and disk equal, and the driver simulates the one of
    [Bio], whatever the number of requests.  [Log], [Recovery]: [kernel/log.c]; a
    commit cut short at any of its disk writes is, after recovery, done
    completely or not at all.  [BlockLayer]: what cache and log promise to the
    file system, as a class, and that they keep it.

    File system.  [Layout]: [kernel/fs.h].  [Fs]: the operations of
    [kernel/fs.c] over the class of [BlockLayer].  [FsAlloc], [FsInode],
    [FsFile], [FsCache], [FsTrunc], [FsDir]: allocation, block maps, contents,
    the inode cache, truncation, directories.  A write changes the range of
    the file it names and nothing else in use, in memory and on the disk; a name
    that is linked is found from then on; the last reference to an
    unlinked inode frees its blocks.  [Mkfs], [MkfsSpec], [MkfsImage]:
    [tools/mkfs.c]; the image is a file system that satisfies the invariants
    of the kernel, with the given tree of files.

    Memory.  [Kalloc]: [kernel/kalloc.c] refines a list of free pages.  [Vm]:
    the page directories of [kernel/vm.c] and the translation they define.
    [Segments]: descriptors, gates, task state and control registers; a
    process can enter the kernel by software through the system call gate only.

    Processes.  [ProcDefs], [ProcTable], [Proc]: [kernel/proc.c], first the
    table under its lock, then the calls that use memory and files too.  No CPU
    runs a process another one runs, a zombie has a parent that can collect it,
    and [wait] misses no exit.  [Pipe]: [kernel/pipe.c]; bytes come out in the
    order they went in, and no reader or writer waits for a wake-up that has
    been given, unless a killed process gives up writing.  [Exec]: [kernel/exec.c].

    System calls.  [Kernel]: the shared state and the embedding of the
    components.  [File]: [kernel/file.c].  [SysArg], [SysArgSpec]: arguments in
    user memory; the kernel neither faults nor leaves the memory of the
    process.  [Sysfile], [Sysproc], [Syscall]: the calls, their dispatch and
    [trap].  [KFrame], [FileRefs], [FileCalls]: over every trap, the count of
    an open file is the number of descriptors that name it, up to the
    references on the way in calls that sleep.  [OpenSpec]: a descriptor opened
    without [O_CREATE] grants only what the permission bits grant; with
    [O_CREATE] it grants what the caller asks for, which is a flaw of the code.
    [Identity]: a trap of an unprivileged process changes nobody's identity,
    apart from [fork] and from [exec] of a set-user program.

    Devices and start.  [Kbd], [Console], [ConsoleSpec]: keyboard, console and
    serial output.  [Boot], [BootSpec]: [bootloader/bootmain.c].  [Mp]:
    [kernel/mp.c].  [Apic]: [kernel/lapic.c], [kernel/ioapic.c],
    [kernel/picirq.c], the set-up of the serial port, and the clock.

    User library.  [UserSys]: the system calls the library relies on, as
    classes with their laws.  [Ufile], [UfileSpec], [Uwalk]: [user/ufile.c],
    files of lines and walks through directories.  [Uauth], [UauthSpec],
    [Uadmin], [UadminSpec]: [user/uauth.c], the users.  [Uauthgrp],
    [UauthgrpSpec], [UgroupSpec]: [user/uauthgrp.c], the groups, and the
    attempts of the login program.  Authentication succeeds exactly if the
    first line with that name has that password or none; changing a password or
    adding a user edits the lines meant and no other, and a new user gets the
    home directory; but a new password with colons makes any user the superuser
    ([password_with_colons]).  [Umalloc], [UmallocSpec]:
    [user/umalloc.c]; blocks in use never overlap.  [Uprintf]:
    [user/printf.c].

    User programs.  [Grep]: the matcher against the language an expression
    denotes.  [Uprogs], [UprogsSpec]: [wc], [cat], [echo], [chmod].  [Ucmds],
    [UcmdsSpec]: the administration programs, the programs on files and
    processes, and the whole of [getty].  [Sh], [ShSpec], [ShRound]: the parser
    of the shell, which ends on every line and reads back every printed
    command.  [ShRun], [ShRunSpec]: the shell as trees of system calls; in
    every schedule the programs of a script are started with the arguments and
    descriptors the script asks for, in its order, and all of them are.

    Concrete inputs.  [DemoUser], [DemoShell], [DemoMkfs], [DemoBoot], [Demo],
    [DemoKernel], [DemoTrap] instantiate the classes and parameters with small
    concrete systems and apply the theorems there.

    ** Parameters

    What is not code of the repository is an argument of the definitions, with
    its documented behaviour as laws: the disk controller ([AtaDev],
    [AtaSpec], [AtaPolled]), which may report errors, the interrupt controllers
    ([LocalApic], [IoCtl]), the registers of the clock, which go on between two
    accesses and are undefined during an update ([rtc_chip]), the entry points that the build generates
    ([vectors]), the end of the kernel image ([kend], [kdata]), whether [sbrk]
    succeeds ([grant]), and the bytes C leaves uninitialised ([junk], [past],
    [heap]).  The user programs see the kernel through the classes of
    [UserSys] and of the files that extend it, and the shell through the
    kernel of [ShRunSpec]; these are not derived from the model of the kernel.
    [UserSys] assumes that the disk does not fill up; the walks through
    directories ([Uwalk]) and [chmod] ([UprogsSpec]) are for callers with room
    for the files they open, in directories that everybody may search.

    ** Fuel

    Loops that are not structural take fuel and fault, or return what the
    theorem excludes, when it runs out; since the theorems about them are
    [wp], they prove that the fuel is enough.  Reading and writing a file takes
    a pass per block, with [n/BSIZE+2] passes allowed; scanning a directory a
    pass per entry, with [size/16+1]; fetching a string at most the size of the
    process.  [getline] reads twice per character at most.  Searches in a
    database take more fuel than it has lines, the search for a free number
    more than there are numbers in use.  Digits are bounded by the width of an
    integer.  The walks take the depth of the tree and the size of its
    directories as bounds, the boot loader the number of polls.  The parser of
    the shell runs on the length of the line, and [parsecmd_terminates] shows
    that this is enough for every line.

    ** Not modelled

    - Assembly: [bootasm.S], [entry.S], [entryother.S], [swtch.S],
      [trapasm.S], [usys.S], [initcode.S].  A context switch is the choice of
      the scheduler; kernel stacks other than the trap frame do not appear.
    - [kernel/main.c]: it calls the set-up of the parts in order, and
      [startothers] hands memory to the assembly that starts a processor.
    - What only prints: [procdump], [getcallerpcs], the text of [panic], the
      messages for unexpected traps and those of the user library and of the
      parser of the shell.
    - [init.c], [zombie.c], [writejunk.c], [usertests.c], [forktest.c] and
      [stressfs.c]: programs that start [getty] again and again, or that are
      tests of the system watched from outside.
    - [itoa] of [user/ulib.c], which nothing calls.
    - The locking of the page allocator that starts with [kinit2], and the
      polling of the serial port before a byte is sent.
    - Calls of [switchuvm] inside [growproc] and [exec]: [Segments] models the
      function, on a state of its own. *)

From stdpp Require Export base tactics numbers list list_numbers gmap strings.
From stdpp Require Import options.
#[export] Set Default Goal Selector "1".
#[export] Unset Default Proof Using.
Open Scope Z_scope.

(** ** Machine integers *)

(** [uint], [ushort] and [uchar] arithmetic wraps; [int] and [short] values are
    the two's complement readings of the same bits. *)
Definition u32 (x : Z) : Z := x mod 2 ^ 32.
Definition u16 (x : Z) : Z := x mod 2 ^ 16.
Definition u8 (x : Z) : Z := x mod 2 ^ 8.
Definition s32 (x : Z) : Z := (x + 2 ^ 31) mod 2 ^ 32 - 2 ^ 31.
Definition s16 (x : Z) : Z := (x + 2 ^ 15) mod 2 ^ 16 - 2 ^ 15.
Definition s8 (x : Z) : Z := (x + 2 ^ 7) mod 2 ^ 8 - 2 ^ 7.

(** C truth values: [e] used as a condition. *)
Definition truth (x : Z) : bool := negb (x =? 0).

Lemma u32_small x : 0 <= x < 2 ^ 32 -> u32 x = x.
Proof. intros. by apply Z.mod_small. Qed.

Lemma u32_range x : 0 <= u32 x < 2 ^ 32.
Proof. by apply Z.mod_pos_bound. Qed.

Lemma u8_small x : 0 <= x < 2 ^ 8 -> u8 x = x.
Proof. intros. by apply Z.mod_small. Qed.

Lemma s32_small x : - 2 ^ 31 <= x < 2 ^ 31 -> s32 x = x.
Proof. intros. unfold s32. rewrite Z.mod_small by lia. lia. Qed.

Lemma s16_small x : - 2 ^ 15 <= x < 2 ^ 15 -> s16 x = x.
Proof. intros. unfold s16. rewrite Z.mod_small by lia. lia. Qed.

Lemma s32_u32 x : s32 (u32 x) = s32 x.
Proof. unfold s32, u32. by rewrite Zplus_mod_idemp_l. Qed.

Lemma s16_u16 x : s16 (u16 x) = s16 x.
Proof. unfold s16, u16. by rewrite Zplus_mod_idemp_l. Qed.

Lemma s32_range x : - 2 ^ 31 <= s32 x < 2 ^ 31.
Proof. unfold s32. pose proof (Z.mod_pos_bound (x + 2 ^ 31) (2 ^ 32)). lia. Qed.

(** ** Effects

    Kernel code runs in a state monad with four outcomes: it returns, it calls
    [panic], it goes to sleep on a channel, or it dereferences a pointer that
    is not valid.  A loop whose body ends in [sleep] is re-entered from the
    state it is resumed in, so [Sleep] carries the state at that point.  Code
    also emits the channels it calls [wakeup] on, in order; the process table
    acts on them ([Proc.wakeup]). *)
Inductive chan :=
| ChBuf (i : nat)          (* &bcache.buf[i] *)
| ChBufLock (i : nat)      (* &bcache.buf[i].lock *)
| ChInodeLock (i : nat)    (* &icache.inode[i].lock *)
| ChLog                    (* &log *)
| ChPipeRead (p : Z)       (* &p->nread *)
| ChPipeWrite (p : Z)      (* &p->nwrite *)
| ChTicks                  (* &ticks *)
| ChInput                  (* &input.r *)
| ChProc (i : nat).        (* &ptable.proc[i] *)

#[export] Instance chan_eq_dec : EqDecision chan.
Proof. solve_decision. Defined.

Inductive outcome (S A : Type) : Type :=
| Ok (a : A) (s : S) (w : list chan)
| Panic (msg : string)
| Sleep (c : chan) (s : S) (w : list chan)
| Fault (msg : string).
Arguments Ok {S A} a s w.
Arguments Panic {S A} msg.
Arguments Sleep {S A} c s w.
Arguments Fault {S A} msg.

Definition M (S A : Type) : Type := S -> outcome S A.

Definition ret {S A} (a : A) : M S A := fun s => Ok a s [].

(** Prepend the wake-ups made before. *)
Definition after {S A} (w : list chan) (o : outcome S A) : outcome S A :=
  match o with
  | Ok a s w' => Ok a s (w ++ w')
  | Sleep c s w' => Sleep c s (w ++ w')
  | Panic msg => Panic msg
  | Fault msg => Fault msg
  end.

Definition bind {S A B} (m : M S A) (k : A -> M S B) : M S B :=
  fun s =>
    match m s with
    | Ok a s' w => after w (k a s')
    | Panic msg => Panic msg
    | Sleep c s' w => Sleep c s' w
    | Fault msg => Fault msg
    end.

Definition panic {S A} (msg : string) : M S A := fun _ => Panic msg.
Definition fault {S A} (msg : string) : M S A := fun _ => Fault msg.
Definition sleep_on {S A} (c : chan) : M S A := fun s => Sleep c s [].
Definition wake {S} (c : chan) : M S unit := fun s => Ok tt s [c].
Definition get {S} : M S S := fun s => Ok s s [].
Definition gets {S A} (f : S -> A) : M S A := fun s => Ok (f s) s [].
Definition modify {S} (f : S -> S) : M S unit := fun s => Ok tt (f s) [].

(** Dereference: a value that must be there. *)
Definition deref {S A} (o : option A) (msg : string) : M S A :=
  match o with Some a => ret a | None => fault msg end.

(** Run code of a component inside the state that contains it. *)
Definition zoom {T S A} (getS : T -> S) (setS : S -> T -> T) (m : M S A) : M T A :=
  fun t =>
    match m (getS t) with
    | Ok a s w => Ok a (setS s t) w
    | Panic msg => Panic msg
    | Sleep c s w => Sleep c (setS s t) w
    | Fault msg => Fault msg
    end.

Declare Scope kern_scope.
Delimit Scope kern_scope with kern.

Notation "'let*' x ':=' c1 'in' c2" := (bind c1 (fun x => c2))
  (at level 10, x pattern, c1 at level 100, c2 at level 200) : kern_scope.
Notation "'do*' c1 'in' c2" := (bind c1 (fun _ => c2))
  (at level 10, c1 at level 100, c2 at level 200) : kern_scope.
Notation "'when' b 'then' c" := (if b then c else ret tt)
  (at level 10, b at level 100, c at level 200) : kern_scope.
Open Scope kern_scope.

(** ** Total correctness of monadic code

    [wp m Q s]: from [s], [m] returns, in a state satisfying [Q]. *)
Definition wp {S A} (m : M S A) (Q : A -> S -> Prop) (s : S) : Prop :=
  match m s with Ok a s' _ => Q a s' | _ => False end.

Section wp.
Context {S A B : Type}.
Implicit Types (m : M S A) (Q : A -> S -> Prop).

Lemma wp_ret (a : A) Q s : wp (ret a) Q s <-> Q a s.
Proof. done. Qed.

Lemma wp_bind m (k : A -> M S B) (Q : B -> S -> Prop) s :
  wp (bind m k) Q s <-> wp m (fun a s' => wp (k a) Q s') s.
Proof. unfold wp, bind. destruct (m s) as [a s' w| | |]; try done. by destruct (k a s'). Qed.

Lemma wp_mono m Q Q' s :
  wp m Q s -> (forall a s', Q a s' -> Q' a s') -> wp m Q' s.
Proof. unfold wp. destruct (m s); naive_solver. Qed.

Lemma wp_seq m (k : A -> M S B) Q (Q' : B -> S -> Prop) s :
  wp m Q s -> (forall a s', Q a s' -> wp (k a) Q' s') -> wp (bind m k) Q' s.
Proof. intros Hm Hk. apply wp_bind. by eapply wp_mono. Qed.

Lemma wp_gets {T} (f : S -> T) (Q : T -> S -> Prop) s :
  wp (gets f) Q s <-> Q (f s) s.
Proof. done. Qed.

Lemma wp_get (Q : S -> S -> Prop) s : wp get Q s <-> Q s s.
Proof. done. Qed.

Lemma wp_deref {T} (o : option T) msg a (Q : T -> S -> Prop) s :
  o = Some a -> Q a s -> wp (deref o msg) Q s.
Proof. by intros ->. Qed.

Lemma wp_modify (f : S -> S) (Q : unit -> S -> Prop) s :
  wp (modify f) Q s <-> Q tt (f s).
Proof. done. Qed.

Lemma wp_Ok m Q s : wp m Q s <-> exists a s' w, m s = Ok a s' w /\ Q a s'.
Proof.
  unfold wp. destruct (m s) as [a s' w| | |]; [|by split; [|intros (?&?&?&?&?)]..].
  split; [eauto|by intros (?&?&?&[= -> -> ->]&?)].
Qed.

Lemma wp_wake c (Q : unit -> S -> Prop) s : wp (wake c) Q s <-> Q tt s.
Proof. done. Qed.

Lemma wp_zoom {T} (getS : T -> S) (setS : S -> T -> T) m (Q : A -> T -> Prop) t :
  wp (zoom getS setS m) Q t <-> wp m (fun a s => Q a (setS s t)) (getS t).
Proof. unfold wp, zoom. destruct (m (getS t)); done. Qed.
End wp.

(** [tot Q m s]: from [s], [m] returns, in a state satisfying [Q], or ends the
    program with a message. *)
Definition tot {S A} (Q : A -> S -> Prop) (m : M S A) (s : S) : Prop :=
  match m s with Ok a s' _ => Q a s' | Panic _ => True | _ => False end.

Lemma tot_bind {S A B} (Q : B -> S -> Prop) (m : M S A) (k : A -> M S B) s :
  tot (fun a s' => tot Q (k a) s') m s -> tot Q (bind m k) s.
Proof. unfold tot, bind. destruct (m s) as [a s' w| | |]; try done. by destruct (k a s'). Qed.
Lemma tot_mono {S A} (Q Q' : A -> S -> Prop) (m : M S A) s :
  tot Q m s -> (forall a s', Q a s' -> Q' a s') -> tot Q' m s.
Proof. unfold tot. destruct (m s); auto. Qed.

(** ** Lists of bytes *)

(** The words between occurrences of [sep]. *)
Fixpoint split_on (sep : Z) (l : list Z) : list (list Z) :=
  match l with
  | [] => [[]]
  | c :: l =>
      if c =? sep then [] :: split_on sep l
      else match split_on sep l with
           | w :: ws => (c :: w) :: ws
           | [] => [[c]]
           end
  end.

Abbreviation byte_ok x := (0 <= x < 256) (only parsing).
Abbreviation bytes_ok := (Forall (fun x => 0 <= x < 256)) (only parsing).

(** Overwrite [length new] elements of [old] from index [off] on. *)
Definition splice {A} (off : nat) (new old : list A) : list A :=
  take off old ++ new ++ drop (off + length new) old.

(** The [n] elements from index [off] on. *)
Definition slice {A} (off n : nat) (l : list A) : list A := take n (drop off l).

Section splice.
Context {A : Type}.
Implicit Types l new old : list A.

Lemma length_splice off new old :
  (off + length new <= length old)%nat -> length (splice off new old) = length old.
Proof.
  intros. unfold splice.
  rewrite !length_app, length_take, length_drop. lia.
Qed.

Lemma length_slice off n l :
  (off + n <= length l)%nat -> length (slice off n l) = n.
Proof. intros. unfold slice. rewrite length_take, length_drop. lia. Qed.

Lemma lookup_splice off new old i :
  (off + length new <= length old)%nat ->
  splice off new old !! i =
    if decide (off <= i < off + length new)%nat then new !! (i - off)%nat else old !! i.
Proof.
  intros Hb. unfold splice. case_decide as Hi.
  - rewrite lookup_app_r by (rewrite length_take; lia).
    rewrite length_take, Nat.min_l by lia.
    by rewrite lookup_app_l by lia.
  - destruct (decide (i < off)%nat).
    + rewrite lookup_app_l by (rewrite length_take; lia).
      by rewrite lookup_take_lt by lia.
    + rewrite lookup_app_r by (rewrite length_take; lia).
      rewrite length_take, Nat.min_l by lia.
      rewrite lookup_app_r by lia. rewrite lookup_drop. f_equal. lia.
Qed.

Lemma lookup_slice off n l i :
  slice off n l !! i = if decide (i < n)%nat then l !! (off + i)%nat else None.
Proof.
  unfold slice. case_decide.
  - by rewrite lookup_take_lt, lookup_drop by lia.
  - apply lookup_take_ge. lia.
Qed.

Lemma slice_splice_same off new old n :
  n = length new -> (off + n <= length old)%nat -> slice off n (splice off new old) = new.
Proof.
  intros -> Hb. apply list_eq. intros i.
  rewrite lookup_slice, lookup_splice by lia.
  repeat case_decide; try lia; [f_equal; lia|].
  symmetry. apply lookup_ge_None. lia.
Qed.

Lemma slice_splice_disjoint off n off' new old :
  (off' + length new <= length old)%nat ->
  (off + n <= off' \/ off' + length new <= off)%nat ->
  slice off n (splice off' new old) = slice off n old.
Proof.
  intros Hb Hd. apply list_eq. intros i.
  rewrite !lookup_slice. case_decide; [|done].
  rewrite lookup_splice by lia. case_decide; [lia|done].
Qed.

Lemma slice_full l n : n = length l -> slice 0 n l = l.
Proof. intros ->. unfold slice. rewrite drop_0. by apply take_ge. Qed.

Lemma slice_slice off n off' n' l :
  (off' + n' <= n)%nat -> slice off' n' (slice off n l) = slice (off + off') n' l.
Proof.
  intros. apply list_eq. intros i. rewrite !lookup_slice.
  repeat case_decide; try done; try lia. f_equal. lia.
Qed.

Lemma slice_app off n n' l :
  slice off (n + n') l = slice off n l ++ slice (off + n) n' l.
Proof.
  unfold slice. rewrite <- drop_drop. rewrite <- (take_drop n (take (n + n') (drop off l))).
  rewrite take_take, Nat.min_l by lia. f_equal.
  rewrite skipn_firstn_comm. f_equal. lia.
Qed.

Lemma Forall_slice (P : A -> Prop) off n l : Forall P l -> Forall P (slice off n l).
Proof. intros. unfold slice. by apply Forall_take, Forall_drop. Qed.

Lemma splice_nil off (d : list A) : splice off [] d = d.
Proof. unfold splice. cbn. rewrite Nat.add_0_r. apply take_drop. Qed.

Lemma splice_length_grow off (new old : list A) :
  (off <= length old)%nat -> length (splice off new old) = Nat.max (length old) (off + length new).
Proof. intros. unfold splice. rewrite !length_app, length_take, length_drop. lia. Qed.

Lemma splice_adjacent off off' (a b d : list A) :
  (off <= length d)%nat -> off' = (off + length a)%nat ->
  splice off' b (splice off a d) = splice off (a ++ b) d.
Proof.
  intros Hd ->. unfold splice. rewrite length_app.
  rewrite (app_assoc (take off d)), take_app_length' by (rewrite length_app, length_take; lia).
  rewrite <- !app_assoc. do 3 f_equal. rewrite app_assoc, drop_app_ge by (rewrite length_app, length_take; lia).
  rewrite drop_drop. f_equal. rewrite length_app, length_take. lia.
Qed.

Lemma Forall_splice (P : A -> Prop) off new old :
  Forall P new -> Forall P old -> Forall P (splice off new old).
Proof. intros. unfold splice. rewrite !Forall_app. auto using Forall_take, Forall_drop. Qed.
End splice.

(** ** Little-endian encodings *)

Fixpoint le_bytes (n : nat) (v : Z) : list Z :=
  match n with
  | O => []
  | S n => v mod 256 :: le_bytes n (v / 256)
  end.

Fixpoint le_val (l : list Z) : Z :=
  match l with
  | [] => 0
  | b :: l => b + 256 * le_val l
  end.

Lemma length_le_bytes n v : length (le_bytes n v) = n.
Proof. revert v. induction n; intros; simpl; auto. Qed.

Lemma le_bytes_ok n v : bytes_ok (le_bytes n v).
Proof.
  revert v. induction n as [|n IH]; intros v; simpl; constructor; auto.
  by apply Z.mod_pos_bound.
Qed.

Lemma le_val_bytes n v : le_val (le_bytes n v) = v mod 256 ^ Z.of_nat n.
Proof.
  revert v. induction n as [|n IH]; intros v; simpl; [by rewrite Z.mod_1_r|].
  rewrite IH, Nat2Z.inj_succ, Z.pow_succ_r by lia.
  rewrite Z.rem_mul_r by lia. lia.
Qed.

Lemma le_bytes_val l : bytes_ok l -> le_bytes (length l) (le_val l) = l.
Proof.
  induction 1 as [|b l Hb Hl IH]; simpl; [done|]. f_equal.
  - rewrite Z.mul_comm, Z_mod_plus_full. by apply Z.mod_small.
  - rewrite Z.mul_comm, Z_div_plus_full, Z.div_small by lia. by rewrite Z.add_0_l.
Qed.

Lemma le_val_range l : bytes_ok l -> 0 <= le_val l < 256 ^ Z.of_nat (length l).
Proof.
  induction 1 as [|b l Hb Hl IH]; simpl; [lia|].
  rewrite Nat2Z.inj_succ, Z.pow_succ_r by lia. lia.
Qed.

#[global] Arguments le_bytes : simpl never.
#[global] Arguments le_val : simpl never.

(** A field of [n] bytes at offset [off] of a byte array. *)
Definition get_le (n off : nat) (d : list Z) : Z := le_val (slice off n d).
Definition put_le (n off : nat) (v : Z) (d : list Z) : list Z := splice off (le_bytes n v) d.

Lemma get_put_le_same n off v d :
  (off + n <= length d)%nat -> get_le n off (put_le n off v d) = v mod 256 ^ Z.of_nat n.
Proof.
  intros. unfold get_le, put_le.
  rewrite slice_splice_same by (rewrite ?length_le_bytes; lia). apply le_val_bytes.
Qed.

Lemma get_put_le_ne n off n' off' v d :
  (off' + n' <= length d)%nat -> (off + n <= off' \/ off' + n' <= off)%nat ->
  get_le n off (put_le n' off' v d) = get_le n off d.
Proof.
  intros. unfold get_le, put_le.
  rewrite slice_splice_disjoint by (rewrite ?length_le_bytes; lia). done.
Qed.

Lemma length_put_le n off v d :
  (off + n <= length d)%nat -> length (put_le n off v d) = length d.
Proof. intros. apply length_splice. by rewrite length_le_bytes. Qed.

Lemma put_le_ok n off v d : bytes_ok d -> bytes_ok (put_le n off v d).
Proof. intros. apply Forall_splice; [apply le_bytes_ok|done]. Qed.

(** Bit [i] of a byte, as the code tests it: [x & (1 << i)]. *)
Lemma land_pow2_testbit x i :
  0 <= i -> (Z.land x (2 ^ i) =? 0) = negb (Z.testbit x i).
Proof.
  intros Hi. destruct (Z.testbit x i) eqn:Hb; simpl.
  - apply Z.eqb_neq. intros H0. apply (f_equal (fun z => Z.testbit z i)) in H0.
    rewrite Z.land_spec, Hb, Z.pow2_bits_true, Z.bits_0 in H0 by done. done.
  - apply Z.eqb_eq. apply Z.bits_inj_0. intros j. rewrite Z.land_spec.
    destruct (decide (j = i)) as [->|]; [by rewrite Hb|].
    rewrite Z.pow2_bits_false by lia. by rewrite andb_false_r.
Qed.

(** ** Automation *)

Create HintDb kern discriminated.
Create Rewrite HintDb len.
#[export] Hint Rewrite @length_app @length_take @length_drop @length_replicate
  @length_insert @length_le_bytes @length_fmap : len.
Ltac len := autorewrite with len; try lia.

(** Linear arithmetic with quotients and remainders by constants. *)
Ltac dlia := Z.to_euclidean_division_equations; lia.

(** Unfold one monadic step in the goal. *)
Ltac wp_step :=
  lazymatch goal with
  | |- wp (bind _ _) _ _ => apply wp_bind
  | |- wp (ret _) _ _ => apply wp_ret
  | |- wp (gets _) _ _ => apply wp_gets
  | |- wp get _ _ => apply wp_get
  | |- wp (deref _ _) _ _ => eapply wp_deref; [eassumption|]
  | |- wp (modify _) _ _ => apply wp_modify
  | |- wp (wake _) _ _ => apply wp_wake
  | |- wp (zoom _ _ _) _ _ => apply wp_zoom
  end.

(** Invariants of reachable states. *)
Lemma rtc_preserve {A} (R : relation A) (P : A -> Prop) :
  (forall x y, R x y -> P x -> P y) -> forall x y, rtc R x y -> P x -> P y.
Proof. intros Hstep x y Hxy. induction Hxy; eauto. Qed.

Lemma lookup_set {A} (l : list A) i j x y :
  <[i := x]> l !! j = Some y -> (j = i /\ y = x) \/ (j <> i /\ l !! j = Some y).
Proof.
  intros Hl. destruct (decide (j = i)) as [->|]; [left|right; by rewrite list_lookup_insert_ne in Hl].
  split; [done|]. destruct (decide (i < length l)%nat).
  - rewrite list_lookup_insert_eq in Hl by done. by injection Hl.
  - apply lookup_lt_Some in Hl. rewrite length_insert in Hl. lia.
Qed.

Lemma alter_as_insert {A} (f : A -> A) (l : list A) i x :
  l !! i = Some x -> alter f i l = <[i := f x]> l.
Proof.
  intros Hi. apply list_eq. intros j. destruct (decide (j = i)) as [->|].
  - rewrite list_lookup_alter_eq, Hi. symmetry.
    apply list_lookup_insert_eq. by eapply lookup_lt_Some.
  - by rewrite list_lookup_alter_ne, list_lookup_insert_ne.
Qed.

(** Case analysis on the tests of an executed definition. *)
Ltac case_test :=
  match goal with
  | |- context [if ?b then _ else _] => destruct b eqn:?
  | |- context [match ?x with _ => _ end] => destruct x eqn:?
  end.
