(* ===== verification/Triple.v ===== *)
(** * Partial correctness and frames

    [triz Z P m Q]: if [m] returns from a state satisfying [P], then [Q] holds,
    and if it goes to sleep, [Z]; [tri P m Q] is for code that may sleep in any
    state.
    [rel R m]: a run of [m], up to its return or to a sleep, relates its
    states by the preorder [R].  The tactic [frame] follows the structure of
    monadic code and closes what the hint database [frame] knows. *)

From S2P Require Import Prelude.

Definition triz {S A} (Z : S -> Prop) (P : S -> Prop) (m : M S A) (Q : A -> S -> Prop) : Prop :=
  forall s, P s -> match m s with Ok a s' _ => Q a s' | Sleep _ s' _ => Z s' | _ => True end.
Abbreviation tri := (triz (fun _ => True)).

Definition rel {S A} (R : S -> S -> Prop) (m : M S A) : Prop :=
  forall s, match m s with Ok _ s' _ | Sleep _ s' _ => R s s' | _ => True end.

Section tri.
Context {S A B : Type} {Z : S -> Prop}.
Implicit Types (P : S -> Prop) (m : M S A) (k : A -> M S B).

Lemma tri_bind P m Q k (Q' : B -> S -> Prop) :
  triz Z P m Q -> (forall a, triz Z (Q a) (k a) Q') -> triz Z P (bind m k) Q'.
Proof.
  intros Hm Hk s Hs. specialize (Hm s Hs). unfold bind. destruct (m s) as [a s' w| | |]; try done.
  specialize (Hk a s' Hm). by destruct (k a s').
Qed.

Lemma tri_conseq P P' m (Q Q' : A -> S -> Prop) :
  triz Z P' m Q' -> (forall s, P s -> P' s) -> (forall a s, Q' a s -> Q a s) -> triz Z P m Q.
Proof. intros H HP HQ s Hs. specialize (H s (HP s Hs)). destruct (m s); auto. Qed.

Lemma tri_ret (a : A) P (Q : A -> S -> Prop) : (forall s, P s -> Q a s) -> triz Z P (ret a) Q.
Proof. intros H s Hs. by apply H. Qed.
Lemma tri_stop P (Q : A -> S -> Prop) msg : triz Z P (panic msg) Q /\ triz Z P (fault msg) Q.
Proof. by split. Qed.
Lemma tri_sleep P (Q : A -> S -> Prop) c : (forall s, P s -> Z s) -> triz Z P (sleep_on c) Q.
Proof. intros H s Hs. by apply H. Qed.
Lemma tri_get P (Q : S -> S -> Prop) : (forall s, P s -> Q s s) -> triz Z P get Q.
Proof. intros H s Hs. by apply H. Qed.
Lemma tri_modify P (f : S -> S) (Q : unit -> S -> Prop) :
  (forall s, P s -> Q tt (f s)) -> triz Z P (modify f) Q.
Proof. intros H s Hs. by apply H. Qed.
Lemma tri_deref P (o : option A) msg (Q : A -> S -> Prop) :
  (forall a s, o = Some a -> P s -> Q a s) -> triz Z P (deref o msg) Q.
Proof. intros H. destruct o as [a|]; [|done]. intros s Hs. by apply H. Qed.

(** A fact that does not depend on the state. *)
Lemma tri_pure (X : Prop) P m Q : (X -> triz Z P m Q) -> triz Z (fun s => X /\ P s) m Q.
Proof. intros H s [Hx Hs]. by apply H. Qed.
Lemma tri_exists {X} (P : X -> S -> Prop) m Q :
  (forall x, triz Z (P x) m Q) -> triz Z (fun s => exists x, P x s) m Q.
Proof. intros H s [x Hs]. by apply (H x). Qed.
End tri.

Section rel.
Context {S : Type} (R : S -> S -> Prop) `{!PreOrder R} {A : Type}.

Lemma rel_ret (a : A) : rel R (ret a).
Proof. intros s. cbn. reflexivity. Qed.
Lemma rel_panic msg : rel R (A := A) (panic msg).
Proof. done. Qed.
Lemma rel_fault msg : rel R (A := A) (fault msg).
Proof. done. Qed.
Lemma rel_sleep c : rel R (A := A) (sleep_on c).
Proof. intros s. cbn. reflexivity. Qed.
Lemma rel_get : rel R (get (S := S)).
Proof. intros s. cbn. reflexivity. Qed.
Lemma rel_gets (f : S -> A) : rel R (gets f).
Proof. intros s. cbn. reflexivity. Qed.
Lemma rel_deref (o : option A) msg : rel R (deref o msg).
Proof. destruct o; [apply rel_ret|done]. Qed.
Lemma rel_modify (f : S -> S) : (forall s, R s (f s)) -> rel R (modify f).
Proof. intros H s. apply H. Qed.
Lemma rel_wake c : rel R (wake (S := S) c).
Proof. intros s. cbn. reflexivity. Qed.
Lemma rel_bind {B} (m : M S A) (k : A -> M S B) :
  rel R m -> (forall a, rel R (k a)) -> rel R (bind m k).
Proof.
  intros Hm Hk s. specialize (Hm s). unfold bind. destruct (m s) as [a s' w| |c s' w|]; try done.
  specialize (Hk a s'). destruct (k a s'); cbn; try done; by transitivity s'.
Qed.
End rel.

(** Code that [R] relates keeps an invariant that [R] preserves. *)
Lemma tri_rel {S A} {Z : S -> Prop} (R : S -> S -> Prop) (I : S -> Prop) (m : M S A) :
  rel R m -> (forall s s', R s s' -> I s -> I s') -> (forall s, I s -> Z s) -> triz Z I m (fun _ => I).
Proof. intros Hm HI HZ s Hs. specialize (Hm s). destruct (m s); eauto. Qed.

(** Running the first step. *)
Lemma after_nil {S A} (o : outcome S A) : after [] o = o.
Proof. by destruct o. Qed.
Section run.
Context {S A B : Type}.
Lemma run_ret (a : A) (k : A -> M S B) s : bind (ret a) k s = k a s.
Proof. apply after_nil. Qed.
Lemma run_get (k : S -> M S B) s : bind get k s = k s s.
Proof. apply after_nil. Qed.
Lemma run_modify f (k : unit -> M S B) s : bind (modify f) k s = k tt (f s).
Proof. apply after_nil. Qed.
Lemma run_bind {C} (m : M S A) (k : A -> M S B) (h : B -> M S C) s :
  bind (bind m k) h s = bind m (fun a => bind (k a) h) s.
Proof.
  unfold bind. destruct (m s) as [a s' w| | |]; try done. destruct (k a s') as [b s'' w'| | |]; try done.
  cbn. destruct (h b s''); cbn; try done; by rewrite app_assoc.
Qed.
End run.

(** What [R] preserves can be carried along. *)
Lemma tri_frame {S A} {Z : S -> Prop} (R : S -> S -> Prop) (F P : S -> Prop) (m : M S A) (Q : A -> S -> Prop) :
  triz Z P m Q -> rel R m -> (forall s s', R s s' -> F s -> F s') ->
  triz Z (fun s => P s /\ F s) m (fun a s => Q a s /\ F s).
Proof.
  intros Hm HR HF s [HP Hs]. specialize (Hm s HP). specialize (HR s).
  destruct (m s); try done. split; [done|]. by eapply HF.
Qed.

Create HintDb frame.
#[export] Hint Resolve rel_ret rel_panic rel_fault rel_sleep rel_get rel_gets rel_deref rel_wake : frame.

(** Follow the code; leaves what the hints do not solve. *)
Ltac frame_step :=
  first
    [ solve [eauto with frame nocore]
    | lazymatch goal with |- rel _ (bind _ _) => apply rel_bind; [typeclasses eauto| |intros ?] end
    | progress cbv beta iota zeta
    | case_match ].
Ltac frame := intros; repeat frame_step.
