(* ===== verification/CString.v ===== *)
(** * Strings and raw memory

    [kernel/string.c], the string part of [user/ulib.c] and the [stosb]/[stosl]
    wrappers of [kernel/x86.h].  Routines whose behaviour depends on addresses
    ([memset], [memmove]) work on a byte-addressed memory; the others work on
    the bytes a pointer leads to.  Such a list stands for the memory from the
    pointer on: past its end a read gives the terminating NUL. *)

From S2P Require Import Prelude.

(** ** Memory *)

Definition memory := Z -> Z.

Definition store8 (m : memory) (a v : Z) : memory :=
  fun x => if x =? a then u8 v else m x.

Fixpoint load_bytes (m : memory) (a : Z) (n : nat) : list Z :=
  match n with
  | O => []
  | S n => m a :: load_bytes m (a + 1) n
  end.

Fixpoint store_bytes (m : memory) (a : Z) (l : list Z) : memory :=
  match l with
  | [] => m
  | b :: l => store_bytes (store8 m a b) (a + 1) l
  end.

Definition load32 (m : memory) (a : Z) : Z := le_val (load_bytes m a 4).
Definition store32 (m : memory) (a v : Z) : memory := store_bytes m a (le_bytes 4 v).

(** [rep stosb]: store the low byte of [c], [n] times. *)
Fixpoint stosb (m : memory) (a c : Z) (n : nat) : memory :=
  match n with
  | O => m
  | S n => stosb (store8 m a c) (a + 1) c n
  end.

(** [rep stosl]: store the 32-bit word [w], [n] times. *)
Fixpoint stosl (m : memory) (a w : Z) (n : nat) : memory :=
  match n with
  | O => m
  | S n => stosl (store32 m a w) (a + 4) w n
  end.

Definition memset (m : memory) (dst c n : Z) : memory :=
  if (Z.rem (s32 dst) 4 =? 0) && (n mod 4 =? 0) then
    let c := Z.land c 255 in
    let w := Z.lor (Z.lor (Z.lor (Z.shiftl c 24) (Z.shiftl c 16)) (Z.shiftl c 8)) c in
    stosl m dst w (Z.to_nat (n / 4))
  else stosb m dst c (Z.to_nat n).

Fixpoint copy_up (m : memory) (d s : Z) (n : nat) : memory :=
  match n with
  | O => m
  | S n => copy_up (store8 m d (m s)) (d + 1) (s + 1) n
  end.

Fixpoint copy_down (m : memory) (d s : Z) (n : nat) : memory :=
  match n with
  | O => m
  | S n => copy_down (store8 m (d - 1) (m (s - 1))) (d - 1) (s - 1) n
  end.

Definition memmove (m : memory) (dst src n : Z) : memory :=
  if (src <? dst) && (dst <? src + n)
  then copy_down m (dst + n) (src + n) (Z.to_nat n)
  else copy_up m dst src (Z.to_nat n).

(** The [memmove] user programs are linked with always copies upwards. *)
Definition ulib_memmove (m : memory) (dst src n : Z) : memory :=
  copy_up m dst src (Z.to_nat n).

(** ** Strings *)

(** [*p] and [p + 1]. *)
Definition chr (p : list Z) : Z := hd 0 p.

(** The C string a pointer leads to: the bytes before the first NUL. *)
Fixpoint cstr (p : list Z) : list Z :=
  match p with
  | [] => []
  | c :: p => if c =? 0 then [] else c :: cstr p
  end.

(** The bytes of a string literal. *)
Definition str (s : string) : list Z :=
  (fun c => Z.of_N (Ascii.N_of_ascii c)) <$> String.list_ascii_of_string s.

Fixpoint memcmp (v1 v2 : list Z) (n : nat) : Z :=
  match n with
  | O => 0
  | S n => if negb (chr v1 =? chr v2) then chr v1 - chr v2
           else memcmp (tail v1) (tail v2) n
  end.

Fixpoint strncmp (p q : list Z) (n : nat) : Z :=
  match n with
  | O => 0
  | S n' =>
      if truth (chr p) && (chr p =? chr q)
      then strncmp (tail p) (tail q) n'
      else chr p - chr q
  end.

(** The [n] bytes [strncpy] writes at its destination. *)
Fixpoint strncpy (t : list Z) (n : nat) : list Z :=
  match n with
  | O => []
  | S n' => if truth (chr t) then chr t :: strncpy (tail t) n'
            else 0 :: replicate n' 0
  end.

(** The bytes [safestrcpy] writes: nothing when [n <= 0]. *)
Fixpoint safestrcpy_loop (t : list Z) (n : nat) : list Z :=
  match n with
  | O => [0]                              (* --n > 0 fails: terminate *)
  | S n' => if truth (chr t) then chr t :: safestrcpy_loop (tail t) n'
            else [0; 0]                   (* the NUL, then *s = 0 after it *)
  end.

Definition safestrcpy (t : list Z) (n : Z) : list Z :=
  if n <=? 0 then [] else safestrcpy_loop t (Z.to_nat (n - 1)).

Fixpoint strlen (s : list Z) : Z :=
  match s with
  | [] => 0
  | c :: s => if c =? 0 then 0 else 1 + strlen s
  end.

Fixpoint strcmp (p q : list Z) : Z :=
  match p with
  | [] => 0 - chr q
  | c :: p' =>
      if truth c && (c =? chr q) then strcmp p' (tail q) else c - chr q
  end.

(** [strchr]: the offset of the first occurrence, [None] for a null result. *)
Fixpoint strchr (s : list Z) (c : Z) : option Z :=
  match s with
  | [] => None
  | x :: s => if x =? 0 then None
              else if x =? c then Some 0
              else Z.succ <$> strchr s c
  end.

Definition is_digit (c : Z) : bool := (48 <=? c) && (c <=? 57).

Fixpoint atoi_loop (n : Z) (s : list Z) : Z :=
  match s with
  | [] => n
  | c :: s => if is_digit c then atoi_loop (s32 (n * 10 + c - 48)) s else n
  end.

Definition atoi (s : list Z) : Z := atoi_loop 0 s.

(** [do { digits++; val /= 10; } while (val)]; ten rounds exhaust an [int]. *)
Fixpoint digitcount_loop (fuel : nat) (val : Z) : Z :=
  match fuel with
  | O => 0
  | S fuel => let val := Z.quot val 10 in
              if truth val then 1 + digitcount_loop fuel val else 1
  end.

Definition digitcount (val : Z) : Z := digitcount_loop 11 val.

(** ** Memory theorems *)

Definition mem_ok (m : memory) : Prop := forall x, byte_ok (m x).

Lemma u8_ok x : byte_ok (u8 x).
Proof. by apply Z.mod_pos_bound. Qed.

Lemma store8_ok m a v : mem_ok m -> mem_ok (store8 m a v).
Proof. intros Hm x. unfold store8. case_match; auto using u8_ok. Qed.

Lemma copy_up_spec m d s n x :
  mem_ok m -> d <= s \/ s + Z.of_nat n <= d ->
  copy_up m d s n x =
    if decide (d <= x < d + Z.of_nat n) then m (s + (x - d)) else m x.
Proof.
  revert m d s. induction n as [|n IH]; intros m d s Hm Hd; simpl.
  - case_decide; [lia|done].
  - rewrite IH by (auto using store8_ok; lia). unfold store8.
    repeat case_decide; try lia; repeat case_match; rewrite ?Z.eqb_eq, ?Z.eqb_neq in *;
      try lia; try (f_equal; lia).
    rewrite u8_small by apply Hm. f_equal. lia.
Qed.

Lemma copy_down_spec m d s n x :
  mem_ok m -> s < d ->
  copy_down m d s n x =
    if decide (d - Z.of_nat n <= x < d) then m (s - d + x) else m x.
Proof.
  revert m d s. induction n as [|n IH]; intros m d s Hm Hd; simpl.
  - case_decide; [lia|done].
  - rewrite IH by (auto using store8_ok; lia). unfold store8.
    repeat case_decide; try lia; repeat case_match; rewrite ?Z.eqb_eq, ?Z.eqb_neq in *;
      try lia; try (f_equal; lia).
    rewrite u8_small by apply Hm. f_equal. lia.
Qed.

Lemma memmove_spec m dst src n x :
  mem_ok m -> 0 <= n ->
  memmove m dst src n x =
    if decide (dst <= x < dst + n) then m (src + (x - dst)) else m x.
Proof.
  intros Hm Hn. unfold memmove.
  destruct (Z.ltb_spec src dst), (Z.ltb_spec dst (src + n)); simpl;
    rewrite ?copy_down_spec, ?copy_up_spec, Z2Nat.id by (auto; lia);
    repeat case_decide; try lia; f_equal; lia.
Qed.

(** [memmove] moves the [n] bytes at [src] as they were before the call to
    [dst], whether or not the two ranges overlap, and changes nothing else. *)
Theorem memmove_correct m dst src n x :
  mem_ok m -> 0 <= n ->
  memmove m dst src n x =
    if decide (dst <= x < dst + n) then m (src + (x - dst)) else m x.
Proof. apply memmove_spec. Qed.

Lemma stosb_spec m a c n x :
  stosb m a c n x = if decide (a <= x < a + Z.of_nat n) then u8 c else m x.
Proof.
  revert m a. induction n as [|n IH]; intros m a; simpl.
  - case_decide; [lia|done].
  - rewrite IH. unfold store8.
    repeat case_decide; try lia; case_match; rewrite ?Z.eqb_eq, ?Z.eqb_neq in *; try lia; done.
Qed.

Lemma store_bytes_spec m a l x :
  bytes_ok l ->
  store_bytes m a l x =
    if decide (a <= x < a + Z.of_nat (length l)) then nth (Z.to_nat (x - a)) l 0 else m x.
Proof.
  intros Hl. revert m a. induction Hl as [|b l Hb Hl IH]; intros m a; simpl.
  - case_decide; [lia|done].
  - rewrite IH. unfold store8.
    destruct (Z.eqb_spec x a) as [->|]; repeat case_decide; try lia; try done.
    + rewrite Z.sub_diag. by apply u8_small.
    + replace (Z.to_nat (x - a)) with (S (Z.to_nat (x - (a + 1)))) by lia. done.
Qed.

Lemma length_load_bytes m a n : length (load_bytes m a n) = n.
Proof. revert a. induction n as [|n IH]; intros a; [done|]. cbn. by rewrite IH. Qed.

Lemma lookup_load_bytes m a n i :
  (i < n)%nat -> load_bytes m a n !! i = Some (m (a + Z.of_nat i)).
Proof.
  revert a i. induction n as [|n IH]; intros a i Hi; [lia|]. destruct i as [|i]; cbn [load_bytes].
  - cbn. do 2 f_equal. lia.
  - change ((m a :: load_bytes m (a + 1) n) !! S i) with (load_bytes m (a + 1) n !! i).
    rewrite IH by lia. do 2 f_equal. lia.
Qed.

Lemma load_bytes_ext m m' a n :
  (forall x, a <= x < a + Z.of_nat n -> m' x = m x) -> load_bytes m' a n = load_bytes m a n.
Proof.
  revert a. induction n as [|n IH]; intros a He; [done|]. cbn [load_bytes]. f_equal.
  - apply He. lia.
  - apply IH. intros x Hx. apply He. lia.
Qed.

Lemma load32_ext m m' a : (forall x, a <= x < a + 4 -> m' x = m x) -> load32 m' a = load32 m a.
Proof. intros He. unfold load32. f_equal. by apply load_bytes_ext. Qed.

Lemma load_store_bytes m a l : bytes_ok l -> load_bytes (store_bytes m a l) a (length l) = l.
Proof.
  intros Hl. apply list_eq. intros i. destruct (decide (i < length l)%nat) as [Hi|Hi].
  - rewrite lookup_load_bytes, store_bytes_spec by done. rewrite decide_True by lia.
    replace (Z.to_nat (a + Z.of_nat i - a)) with i by lia.
    destruct (lookup_lt_is_Some_2 l i Hi) as [x Hx]. rewrite Hx. f_equal.
    by apply nth_lookup_Some.
  - rewrite !lookup_ge_None_2; [done|lia|]. rewrite length_load_bytes. lia.
Qed.

Lemma load_store32 m a v : load32 (store32 m a v) a = u32 v.
Proof.
  unfold load32, store32. change 4%nat with (length (le_bytes 4 v)) at 2.
  rewrite load_store_bytes by apply le_bytes_ok. by rewrite le_val_bytes.
Qed.

Lemma store32_other m a v x : ~ (a <= x < a + 4) -> store32 m a v x = m x.
Proof.
  intros Hx. unfold store32. rewrite store_bytes_spec by apply le_bytes_ok.
  by rewrite decide_False by (rewrite length_le_bytes; lia).
Qed.

(** The word [memset] hands to [stosl] is its byte argument, four times. *)
Definition memset_word (c : Z) : Z :=
  Z.lor (Z.lor (Z.lor (Z.shiftl c 24) (Z.shiftl c 16)) (Z.shiftl c 8)) c.

Lemma memset_word_bytes c : byte_ok c -> le_bytes 4 (memset_word c) = [c; c; c; c].
Proof.
  intros Hc.
  assert (Forall (fun c => le_bytes 4 (memset_word c) = [c; c; c; c]) (seqZ 0 256)) as HF.
  { apply (bool_decide_unpack _). by vm_compute. }
  rewrite Forall_forall in HF. apply HF, elem_of_seqZ. lia.
Qed.

Lemma stosl_spec m a c n x :
  byte_ok c ->
  stosl m a (memset_word c) n x =
    if decide (a <= x < a + 4 * Z.of_nat n) then c else m x.
Proof.
  intros Hc. revert m a. induction n as [|n IH]; intros m a; simpl.
  - case_decide; [lia|done].
  - rewrite IH. unfold store32. rewrite memset_word_bytes by done.
    rewrite store_bytes_spec by (repeat constructor; lia). simpl.
    repeat case_decide; try lia; try done.
    assert (x - a = 0 \/ x - a = 1 \/ x - a = 2 \/ x - a = 3) as [-> |[-> |[-> | ->]]] by lia; done.
Qed.

Lemma memset_spec m dst c n x :
  0 <= n ->
  memset m dst c n x = if decide (dst <= x < dst + n) then u8 c else m x.
Proof.
  intros Hn. unfold memset.
  assert (Z.land c 255 = u8 c) as Hland by (apply (Z.land_ones c 8); lia).
  case_match eqn:Hcase.
  - apply andb_true_iff in Hcase as [_ Hmod%Z.eqb_eq].
    change (stosl m dst (memset_word (Z.land c 255)) (Z.to_nat (n / 4)) x = if decide (dst <= x < dst + n) then u8 c else m x).
    rewrite Hland, stosl_spec by apply u8_ok.
    rewrite Z2Nat.id by (apply Z.div_pos; lia).
    rewrite <- (Z_div_exact_full_2 n 4) by lia. done.
  - rewrite stosb_spec, Z2Nat.id by lia. done.
Qed.

(** [memset] fills exactly [dst, dst+n) with the low byte of [c], through the
    word-wise path and through the byte-wise path alike. *)
Theorem memset_correct m dst c n x :
  0 <= n ->
  memset m dst c n x = if decide (dst <= x < dst + n) then u8 c else m x.
Proof. apply memset_spec. Qed.

(** The user-level [memmove] is correct only when it does not copy upwards onto
    its own source. *)
Lemma ulib_memmove_correct m dst src n x :
  mem_ok m -> 0 <= n -> dst <= src \/ src + n <= dst ->
  ulib_memmove m dst src n x =
    if decide (dst <= x < dst + n) then m (src + (x - dst)) else m x.
Proof.
  intros. unfold ulib_memmove. rewrite copy_up_spec; rewrite ?Z2Nat.id by lia; auto.
Qed.

(** ** String theorems *)

Lemma cstr_chr p : chr (cstr p) = chr p.
Proof. destruct p as [|c p]; simpl; [done|]. case_match; [|done]. by rewrite Z.eqb_eq in *. Qed.

Lemma cstr_tail p : chr p <> 0 -> cstr p = chr p :: cstr (tail p).
Proof. destruct p as [|c p]; simpl; [done|]. intros ?. by rewrite (proj2 (Z.eqb_neq c 0)). Qed.

Lemma cstr_nil p : chr p = 0 -> cstr p = [].
Proof. destruct p as [|c p]; simpl; [done|]. intros ->. done. Qed.

Lemma truth_true x : truth x = true <-> x <> 0.
Proof. unfold truth. rewrite negb_true_iff, Z.eqb_neq. done. Qed.

Lemma truth_false x : truth x = false <-> x = 0.
Proof. unfold truth. rewrite negb_false_iff, Z.eqb_eq. done. Qed.

(** [strncmp] says "equal" exactly when the two C strings agree on their
    first [n] characters. *)
Lemma strncmp_eq p q n :
  strncmp p q n = 0 <-> take n (cstr p) = take n (cstr q).
Proof.
  revert p q. induction n as [|n IH]; intros p q; simpl; [done|].
  destruct (truth (chr p)) eqn:Hp; simpl.
  - apply truth_true in Hp. rewrite (cstr_tail p) by done. simpl.
    destruct (Z.eqb_spec (chr p) (chr q)) as [Heq|Hne].
    + rewrite IH, (cstr_tail q) by congruence. simpl. rewrite Heq. split; [by intros ->|by intros [= ->]].
    + split; [lia|]. intros H.
      destruct (decide (chr q = 0)) as [H0|H0].
      * rewrite (cstr_nil q) in H by done. done.
      * rewrite (cstr_tail q) in H by done. simpl in H. congruence.
  - apply truth_false in Hp. rewrite (cstr_nil p), Hp by done. simpl.
    destruct (decide (chr q = 0)) as [H0|H0].
    + rewrite (cstr_nil q), H0 by done. done.
    + rewrite (cstr_tail q) by done. split; [lia|done].
Qed.

(** [strncpy] writes the first [n] characters and pads with NULs. *)
Lemma strncpy_spec t n :
  strncpy t n = take n (cstr t) ++ replicate (n - length (take n (cstr t))) 0.
Proof.
  revert t. induction n as [|n IH]; intros t; simpl; [done|].
  destruct (truth (chr t)) eqn:Ht.
  - apply truth_true in Ht. rewrite (cstr_tail t) by done. simpl. by rewrite IH.
  - apply truth_false in Ht. by rewrite (cstr_nil t) by done.
Qed.

Lemma length_strncpy t n : length (strncpy t n) = n.
Proof. rewrite strncpy_spec. len. Qed.

Lemma strncpy_ok t n : bytes_ok t -> bytes_ok (strncpy t n).
Proof.
  intros Ht. rewrite strncpy_spec. apply Forall_app. split; [|by apply Forall_replicate].
  apply Forall_take. induction Ht as [|c t Hc Ht IH]; [constructor|]. cbn [cstr].
  destruct (c =? 0); by constructor.
Qed.

Lemma cstr_ok_take n p : cstr (take n (cstr p)) = take n (cstr p).
Proof.
  revert p. induction n as [|n IH]; intros p; [done|].
  destruct (decide (chr p = 0)); [by rewrite (cstr_nil p)|].
  rewrite (cstr_tail p) by done. simpl. rewrite IH.
  by rewrite (proj2 (Z.eqb_neq (chr p) 0)).
Qed.

Lemma cstr_id t : Forall (fun c => 0 < c < 256) t -> cstr t = t.
Proof. induction 1 as [|c t Hc Ht IH]; [done|]. cbn [cstr]. destruct (Z.eqb_spec c 0); [lia|]. by rewrite IH. Qed.

Lemma cstr_idem l : cstr (cstr l) = cstr l.
Proof. pose proof (cstr_ok_take (length (cstr l)) l) as H. by rewrite firstn_all in H. Qed.

Lemma cstr_upto l r : 0 ∉ l -> cstr (l ++ 0 :: r) = l.
Proof.
  induction l as [|c l IH]; intros Hz; [done|]. cbn. rewrite (proj2 (Z.eqb_neq c 0)) by (intros ->; apply Hz; by left).
  rewrite IH; [done|]. intros H. apply Hz. by right.
Qed.

Lemma cstr_app_zeros l n : cstr (cstr l ++ replicate n 0) = cstr l.
Proof.
  induction l as [|c l IH]; simpl; [by destruct n|].
  destruct (c =? 0) eqn:E; [by destruct n|]. simpl. by rewrite E, IH.
Qed.

Lemma cstr_strncpy t n : cstr (strncpy t n) = take n (cstr t).
Proof.
  rewrite strncpy_spec, <- (cstr_ok_take n t), cstr_app_zeros. by rewrite !cstr_ok_take.
Qed.

(** [safestrcpy] into a buffer of [n > 0] bytes stays inside it and leaves a
    terminated string: the source, cut to [n - 1] characters. *)
Lemma safestrcpy_loop_spec t n :
  (length (safestrcpy_loop t n) <= S n)%nat /\ cstr (safestrcpy_loop t n) = take n (cstr t).
Proof.
  revert t. induction n as [|n IH]; intros t; simpl; [auto|].
  destruct (truth (chr t)) eqn:Ht.
  - apply truth_true in Ht. destruct (IH (tail t)) as [IH1 IH2].
    rewrite (cstr_tail t) by done. simpl.
    rewrite (proj2 (Z.eqb_neq (chr t) 0)), IH2 by done. auto with lia.
  - apply truth_false in Ht. rewrite (cstr_nil t) by done. simpl. auto with lia.
Qed.

Lemma safestrcpy_correct t n :
  0 < n ->
  Z.of_nat (length (safestrcpy t n)) <= n /\
  cstr (safestrcpy t n) = take (Z.to_nat (n - 1)) (cstr t).
Proof.
  intros Hn. unfold safestrcpy. destruct (Z.leb_spec n 0); [lia|].
  destruct (safestrcpy_loop_spec t (Z.to_nat (n - 1))). split; [lia|done].
Qed.

Lemma strlen_cstr s : strlen s = Z.of_nat (length (cstr s)).
Proof. induction s as [|c s IH]; simpl; [done|]. case_match; [done|]. simpl. lia. Qed.

Lemma strcmp_eq p q : strcmp p q = 0 <-> cstr p = cstr q.
Proof.
  revert q. induction p as [|c p IH]; intros q.
  - simpl. destruct (decide (chr q = 0)) as [H0|H0].
    + rewrite (cstr_nil q) by done. rewrite H0. done.
    + rewrite (cstr_tail q) by done. split; [lia|done].
  - simpl. destruct (truth c) eqn:Hc; simpl.
    + apply truth_true in Hc. rewrite (proj2 (Z.eqb_neq c 0)) by done.
      destruct (Z.eqb_spec c (chr q)) as [Heq|Hne].
      * rewrite IH, (cstr_tail q) by congruence. rewrite Heq. split; [by intros ->|by intros [= ->]].
      * split; [lia|]. destruct (decide (chr q = 0)).
        -- by rewrite (cstr_nil q).
        -- rewrite (cstr_tail q) by done. naive_solver.
    + apply truth_false in Hc as ->. simpl.
      destruct (decide (chr q = 0)) as [H0|H0].
      * rewrite (cstr_nil q), H0 by done. done.
      * rewrite (cstr_tail q) by done. split; [lia|done].
Qed.

(** [memmove_correct] on two overlapping ranges. *)
Lemma memmove_correct_witness :
  memmove (fun x => x mod 256) 10 8 4 12 = (fun x : Z => x mod 256) 10.
Proof.
  rewrite (memmove_correct (fun x => x mod 256) 10 8 4 12).
  - reflexivity.
  - intros x. by apply Z.mod_pos_bound.
  - lia.
Defined.
