(* ===== verification/SleepLock.v ===== *)
(** * Sleep locks

    [kernel/sleeplock.c].  A sleep lock records whether it is held and by which
    process.  Its inner spin lock makes each of the three operations atomic, so
    each is one step here; taking a held lock puts the caller to sleep. *)

From S2P Require Import Prelude.

Record sleeplock := SleepLock { sl_locked : bool; sl_pid : Z }.

Definition initsleeplock : sleeplock := SleepLock false 0.

Section ops.
Context {S : Type} (getl : S -> sleeplock) (setl : sleeplock -> S -> S).

Definition acquiresleep (c : chan) (pid : Z) : M S unit :=
  fun s => if sl_locked (getl s) then Sleep c s []
           else Ok tt (setl (SleepLock true pid) s) [].

Definition releasesleep (c : chan) : M S unit :=
  do* modify (setl (SleepLock false 0)) in wake c.

Definition holdingsleep (pid : Z) : M S bool :=
  gets (fun s => sl_locked (getl s) && (sl_pid (getl s) =? pid)).
End ops.
