(* ===== verification/Spinlock.v ===== *)
(** * Spin locks

    [kernel/spinlock.c].  A CPU has its interrupt flag and the nesting depth of
    [pushcli]; a lock has its [locked] word and the CPU that holds it.  [sstep]
    interleaves the instructions of [acquire] and [release] that touch the lock,
    on any number of CPUs. *)

From S2P Require Import Prelude.

Record cpu := Cpu { c_ncli : Z; c_intena : bool; c_if : bool }.

(** [pushcli] and [popcli] on the CPU that runs them. *)
Definition pushcli : M cpu unit :=
  let* eflags := gets c_if in
  do* modify (fun c => Cpu (c_ncli c) (c_intena c) false) in
  do* modify (fun c => if c_ncli c =? 0 then Cpu (c_ncli c) eflags (c_if c) else c) in
  modify (fun c => Cpu (s32 (c_ncli c + 1)) (c_intena c) (c_if c)).

Definition popcli : M cpu unit :=
  let* c := get in
  if c_if c then panic "popcli - interruptible" else
  do* modify (fun c => Cpu (s32 (c_ncli c - 1)) (c_intena c) (c_if c)) in
  let* c := get in
  if c_ncli c <? 0 then panic "popcli" else
  when (c_ncli c =? 0) && c_intena c then
    modify (fun c => Cpu (c_ncli c) (c_intena c) true).

(** [lk->cpu] is the index of a CPU. *)
Record spinlock := SpinLock { lk_locked : bool; lk_cpu : option nat }.
Definition initlock : spinlock := SpinLock false None.

Definition holding (lk : spinlock) (me : nat) : bool :=
  lk_locked lk && bool_decide (lk_cpu lk = Some me).

(** ** Nesting of pushcli and popcli *)

Fixpoint times (n : nat) (m : M cpu unit) : M cpu unit :=
  match n with O => ret tt | S n => do* m in times n m end.

(** Interrupts are off inside. *)
Definition cpu_ok (c : cpu) : Prop := 0 <= c_ncli c /\ (0 < c_ncli c -> c_if c = false).

Lemma pushcli_spec c (Q : unit -> cpu -> Prop) :
  0 <= c_ncli c < 2 ^ 31 - 1 ->
  Q tt (Cpu (c_ncli c + 1) (if c_ncli c =? 0 then c_if c else c_intena c) false) ->
  wp pushcli Q c.
Proof.
  intros Hn HQ. unfold pushcli. wp_step. wp_step. wp_step. wp_step. wp_step. wp_step. wp_step.
  cbn [c_ncli c_intena c_if]. destruct (c_ncli c =? 0); cbn [c_ncli c_intena c_if];
    by rewrite s32_small by lia.
Qed.

Lemma popcli_spec c (Q : unit -> cpu -> Prop) :
  0 < c_ncli c < 2 ^ 31 -> c_if c = false ->
  Q tt (Cpu (c_ncli c - 1) (c_intena c) ((c_ncli c =? 1) && c_intena c)) ->
  wp popcli Q c.
Proof.
  intros Hn Hi HQ. unfold popcli. wp_step. wp_step. rewrite Hi. wp_step. wp_step. wp_step. wp_step.
  cbn [c_ncli c_intena c_if]. rewrite s32_small by lia. rewrite (proj2 (Z.ltb_ge _ _)) by lia.
  replace (c_ncli c - 1 =? 0) with (c_ncli c =? 1)
    by (destruct (Z.eqb_spec (c_ncli c) 1), (Z.eqb_spec (c_ncli c - 1) 0); lia).
  destruct ((c_ncli c =? 1) && c_intena c); wp_step; by rewrite ?Hi.
Qed.

Lemma times_push n c (Q : unit -> cpu -> Prop) :
  0 <= c_ncli c -> c_ncli c + Z.of_nat (S n) < 2 ^ 31 ->
  Q tt (Cpu (c_ncli c + Z.of_nat (S n)) (if c_ncli c =? 0 then c_if c else c_intena c) false) ->
  wp (times (S n) pushcli) Q c.
Proof.
  revert c. induction n as [|n IH]; intros c H0 Hn HQ; cbn [times].
  - wp_step. apply pushcli_spec; [lia|]. by wp_step.
  - wp_step. apply pushcli_spec; [lia|]. apply IH; cbn [c_ncli c_intena c_if]; [lia|lia|].
    rewrite (proj2 (Z.eqb_neq (c_ncli c + 1) 0)) by lia.
    by replace (c_ncli c + 1 + Z.of_nat (S n)) with (c_ncli c + Z.of_nat (S (S n))) by lia.
Qed.

Lemma times_pop n c (Q : unit -> cpu -> Prop) :
  0 <= c_ncli c - Z.of_nat (S n) -> c_ncli c < 2 ^ 31 -> c_if c = false ->
  Q tt (Cpu (c_ncli c - Z.of_nat (S n)) (c_intena c)
            ((c_ncli c =? Z.of_nat (S n)) && c_intena c)) ->
  wp (times (S n) popcli) Q c.
Proof.
  revert c. induction n as [|n IH]; intros c Hn Hmax Hi HQ; cbn [times].
  - wp_step. apply popcli_spec; [lia|done|]. by wp_step.
  - wp_step. apply popcli_spec; [lia|done|]. apply IH; cbn [c_ncli c_intena c_if]; [lia|lia| |].
    + by rewrite (proj2 (Z.eqb_neq (c_ncli c) 1)) by lia.
    + replace (c_ncli c - 1 - Z.of_nat (S n)) with (c_ncli c - Z.of_nat (S (S n))) by lia.
      replace (c_ncli c - 1 =? Z.of_nat (S n)) with (c_ncli c =? Z.of_nat (S (S n))); [done|].
      destruct (Z.eqb_spec (c_ncli c) (Z.of_nat (S (S n)))), (Z.eqb_spec (c_ncli c - 1) (Z.of_nat (S n))); lia.
Qed.

(** [n] calls of [pushcli] turn interrupts off and the matching [n] calls
    of [popcli] leave the interrupt flag and the depth as they were, whatever
    the depth before. *)
Theorem pushcli_popcli n c :
  cpu_ok c -> c_ncli c + Z.of_nat (S n) < 2 ^ 31 ->
  wp (times (S n) pushcli) (fun _ c1 => c_if c1 = false /\
     wp (times (S n) popcli) (fun _ c2 => c_if c2 = c_if c /\ c_ncli c2 = c_ncli c) c1) c.
Proof.
  intros [H0 Hoff] Hn. apply times_push; [done|done|]. split; [done|].
  apply times_pop; cbn [c_ncli c_intena c_if]; [lia|lia|done|].
  split; [|lia]. destruct (Z.eqb_spec (c_ncli c) 0) as [E|E].
  - rewrite E. cbn [Z.add]. by rewrite Z.eqb_refl.
  - rewrite (proj2 (Z.eqb_neq _ _)) by lia. cbn [andb]. symmetry. apply Hoff. lia.
Qed.

(** A [popcli] without [pushcli] panics. *)
Theorem popcli_unmatched c : c_ncli c = 0 -> c_if c = false -> popcli c = Panic "popcli".
Proof. destruct c as [n i f]. cbn. intros -> ->. done. Qed.

(** ** The lock *)

(** Where a CPU is: outside; spinning in [acquire]; past the [xchg] but before
    [lk->cpu] is set; inside; in [release] with [lk->cpu] cleared. *)
Inductive pc := Out | Spin | Got | In | Rel.

Record spinsys := SpinSys { ss_lock : spinlock; ss_pc : list pc }.

Inductive sstep (s : spinsys) : spinsys -> Prop :=
| ss_enter c :                     (* pushcli; if(holding(lk)) panic *)
    ss_pc s !! c = Some Out -> holding (ss_lock s) c = false ->
    sstep s (SpinSys (ss_lock s) (<[c := Spin]> (ss_pc s)))
| ss_xchg c :                      (* xchg(&lk->locked, 1) *)
    ss_pc s !! c = Some Spin ->
    sstep s (SpinSys (SpinLock true (lk_cpu (ss_lock s)))
               (if lk_locked (ss_lock s) then ss_pc s else <[c := Got]> (ss_pc s)))
| ss_record c :                    (* lk->cpu = mycpu() *)
    ss_pc s !! c = Some Got ->
    sstep s (SpinSys (SpinLock (lk_locked (ss_lock s)) (Some c)) (<[c := In]> (ss_pc s)))
| ss_clear c :                     (* if(!holding(lk)) panic; lk->cpu = 0 *)
    ss_pc s !! c = Some In -> holding (ss_lock s) c = true ->
    sstep s (SpinSys (SpinLock (lk_locked (ss_lock s)) None) (<[c := Rel]> (ss_pc s)))
| ss_unlock c :                    (* movl $0, lk->locked; popcli *)
    ss_pc s !! c = Some Rel ->
    sstep s (SpinSys (SpinLock false (lk_cpu (ss_lock s))) (<[c := Out]> (ss_pc s))).

Definition spin_init (n : nat) : spinsys := SpinSys initlock (replicate n Out).

(** The CPU owns the lock word. *)
Definition owns (p : pc) : bool := match p with Got | In | Rel => true | _ => false end.

Record spin_inv (s : spinsys) : Prop := {
  si_one : forall c d p q, ss_pc s !! c = Some p -> ss_pc s !! d = Some q ->
    owns p = true -> owns q = true -> c = d;
  si_locked : forall c p, ss_pc s !! c = Some p -> owns p = true -> lk_locked (ss_lock s) = true;
  si_free : lk_locked (ss_lock s) = true -> exists c p, ss_pc s !! c = Some p /\ owns p = true;
  si_cpu : forall c, lk_cpu (ss_lock s) = Some c <-> ss_pc s !! c = Some In }.

(** The owner of the lock word moves on. *)
Lemma spin_owner s c p p' cp :
  spin_inv s -> ss_pc s !! c = Some p -> owns p = true -> owns p' = true ->
  (forall a, cp = Some a <-> a = c /\ p' = In) ->
  spin_inv (SpinSys (SpinLock (lk_locked (ss_lock s)) cp) (<[c := p']> (ss_pc s))).
Proof.
  intros [I1 I2 I3 I4] Hc Ho Ho' Hcp.
  assert (Hno : forall a q, ss_pc s !! a = Some q -> a <> c -> owns q = false).
  { intros a q Ha Hne. destruct (owns q) eqn:E; [|done]. by destruct Hne; eapply I1. }
  assert (Hlt : (c < length (ss_pc s))%nat) by (by eapply lookup_lt_Some).
  constructor; cbn [ss_lock ss_pc lk_locked lk_cpu].
  - intros a b q r Ha Hb Hq Hr. apply lookup_set in Ha as [[-> ->]|[Hne Ha]].
    + apply lookup_set in Hb as [[-> ->]|[Hne Hb]]; [done|]. by rewrite (Hno b r Hb Hne) in Hr.
    + by rewrite (Hno a q Ha Hne) in Hq.
  - intros a q Ha Hq. by eapply I2.
  - intros _. exists c, p'. split; [|done]. by apply list_lookup_insert_eq.
  - intros a. rewrite Hcp. destruct (decide (a = c)) as [->|Hne].
    + rewrite list_lookup_insert_eq by done. naive_solver.
    + rewrite list_lookup_insert_ne by done. split; [by intros [? _]|]. intros Ha.
      by specialize (Hno a In Ha Hne).
Qed.

Lemma spin_step s s' : sstep s s' -> spin_inv s -> spin_inv s'.
Proof.
  intros Hs [I1 I2 I3 I4].
  destruct Hs as [c Hc Hh|c Hc|c Hc|c Hc Hh|c Hc].
  - constructor; cbn [ss_lock ss_pc].
    + intros a b p q Ha Hb. apply lookup_set in Ha as [[-> ->]|[_ Ha]]; [done|].
      apply lookup_set in Hb as [[-> ->]|[_ Hb]]; [done|]. by eapply I1.
    + intros a p Ha. apply lookup_set in Ha as [[-> ->]|[_ Ha]]; [done|]. by eapply I2.
    + intros Hl. destruct (I3 Hl) as (a & p & Ha & Hp). exists a, p. split; [|done].
      rewrite list_lookup_insert_ne; [done|]. intros <-. by simplify_eq.
    + intros a. rewrite I4. destruct (decide (a = c)) as [->|]; [|by rewrite list_lookup_insert_ne].
      rewrite list_lookup_insert_eq by (by eapply lookup_lt_Some). rewrite Hc. done.
  - destruct (lk_locked (ss_lock s)) eqn:El.
    + constructor; cbn [ss_lock ss_pc lk_locked lk_cpu]; done.
    + assert (Hno : forall a p, ss_pc s !! a = Some p -> owns p = false).
      { intros a p Ha. destruct (owns p) eqn:E; [|done]. pose proof (I2 a p Ha E). congruence. }
      constructor; cbn [ss_lock ss_pc lk_locked lk_cpu]; try done.
      * intros a b p q Ha Hb Hp Hq. apply lookup_set in Ha as [[-> ->]|[_ Ha]];
          [|by rewrite (Hno a p Ha) in Hp].
        apply lookup_set in Hb as [[-> ->]|[_ Hb]]; [done|by rewrite (Hno b q Hb) in Hq].
      * intros _. exists c, Got. split; [|done]. apply list_lookup_insert_eq. by eapply lookup_lt_Some.
      * intros a. rewrite I4. destruct (decide (a = c)) as [->|]; [|by rewrite list_lookup_insert_ne].
        rewrite list_lookup_insert_eq by (by eapply lookup_lt_Some). rewrite Hc. done.
  - apply (spin_owner s c Got In (Some c)); [by constructor|done|done|done|]. naive_solver.
  - apply (spin_owner s c In Rel None); [by constructor|done|done|done|]. naive_solver.
  - assert (Hno : forall a p, ss_pc s !! a = Some p -> a <> c -> owns p = false).
    { intros a p Ha Hne. destruct (owns p) eqn:E; [|done]. by destruct Hne; eapply I1. }
    constructor; cbn [ss_lock ss_pc lk_locked lk_cpu]; try done.
    + intros a b p q Ha Hb Hp Hq. apply lookup_set in Ha as [[-> ->]|[Hne Ha]]; [done|].
      by rewrite (Hno a p Ha Hne) in Hp.
    + intros a p Ha Hp. apply lookup_set in Ha as [[-> ->]|[Hne Ha]]; [done|].
      by rewrite (Hno a p Ha Hne) in Hp.
    + intros a. rewrite I4. destruct (decide (a = c)) as [->|]; [|by rewrite list_lookup_insert_ne].
      rewrite list_lookup_insert_eq by (by eapply lookup_lt_Some). rewrite Hc. done.
Qed.

(** C39: spin locks exclude: however the CPUs are interleaved, at most one is
    inside, it is the one the lock names, and the checks that would panic in
    [acquire] and [release] never fail for a CPU that pairs them. *)
Theorem spinlock_mutex n s :
  rtc sstep (spin_init n) s ->
  (forall c d, ss_pc s !! c = Some In -> ss_pc s !! d = Some In -> c = d) /\
  (forall c, ss_pc s !! c = Some In -> holding (ss_lock s) c = true) /\
  (forall c, ss_pc s !! c = Some Out -> holding (ss_lock s) c = false).
Proof.
  intros Hs. assert (Hi : spin_inv s).
  { apply (rtc_preserve _ spin_inv spin_step _ _ Hs). constructor; cbn; try done.
    - intros a b p q Ha. by apply lookup_replicate in Ha as [-> _].
    - intros a p Ha. by apply lookup_replicate in Ha as [-> _].
    - intros a. split; [done|]. intros Ha. by apply lookup_replicate in Ha as [? _]. }
  destruct Hi as [I1 I2 _ I4]. split_and!.
  - intros c d Hc Hd. by eapply I1.
  - intros c Hc. unfold holding. rewrite (I2 c In) by done. by rewrite (proj2 (I4 c)), bool_decide_eq_true_2.
  - intros c Hc. unfold holding. destruct (lk_locked (ss_lock s)); [|done]. cbn.
    apply bool_decide_eq_false. intros E. apply I4 in E. by simplify_eq.
Qed.
