(* ===== verification/Bio.v ===== *)
(** * Buffer cache and disk driver

    [kernel/bio.c] over the synchronous driver [kernel/memide.c].  The doubly
    linked LRU list of [bcache] is the list [bc_order] of buffer indices, most
    recently used first.  [dk_trace] records the block writes the disk has
    carried out, in order: a power failure leaves the disk in the state after
    some prefix of them.

    The second half gives the cache its abstract meaning, [bio_rep]: every block
    has one current content, whether or not it is cached. *)

From S2P Require Import Prelude SleepLock.

Definition BSIZE : Z := 512.
Definition NBUF : nat := 30.
Definition B_VALID : Z := 2.
Definition B_DIRTY : Z := 4.
Definition ROOTDEV : Z := 1.
Definition FSSIZE : Z := 4000.

Record buf := Buf {
  b_flags : Z; b_dev : Z; b_blockno : Z; b_lock : sleeplock; b_refcnt : Z;
  b_data : list Z }.

Record bio := Bio {
  bc_buf : list buf;            (* bcache.buf *)
  bc_order : list nat;          (* bcache.head list, most recently used first *)
  dk_size : Z;                  (* disksize *)
  dk_blocks : gmap Z (list Z);  (* memdisk *)
  dk_trace : list (Z * list Z) }.

Definition set_buf (f : list buf -> list buf) (s : bio) : bio :=
  Bio (f (bc_buf s)) (bc_order s) (dk_size s) (dk_blocks s) (dk_trace s).
Definition set_order (f : list nat -> list nat) (s : bio) : bio :=
  Bio (bc_buf s) (f (bc_order s)) (dk_size s) (dk_blocks s) (dk_trace s).

Definition b_with_flags (f : Z) (b : buf) : buf :=
  Buf f (b_dev b) (b_blockno b) (b_lock b) (b_refcnt b) (b_data b).
Definition b_with_lock (l : sleeplock) (b : buf) : buf :=
  Buf (b_flags b) (b_dev b) (b_blockno b) l (b_refcnt b) (b_data b).
Definition b_with_refcnt (r : Z) (b : buf) : buf :=
  Buf (b_flags b) (b_dev b) (b_blockno b) (b_lock b) r (b_data b).
Definition b_with_data (d : list Z) (b : buf) : buf :=
  Buf (b_flags b) (b_dev b) (b_blockno b) (b_lock b) (b_refcnt b) d.

Definition zero_block : list Z := replicate (Z.to_nat BSIZE) 0.
Definition zero_buf : buf := Buf 0 0 0 initsleeplock 0 zero_block.

(** [binit] pushes [bcache.buf[0]], [bcache.buf[1]], ... to the front of the
    list one after the other. *)
Definition binit (dsize : Z) (disk : gmap Z (list Z)) : bio :=
  Bio (replicate NBUF zero_buf)
      (foldl (fun order b => b :: order) [] (seq 0 NBUF))
      dsize disk [].

Section ops.
Variable pid : Z.   (* myproc()->pid *)

Definition upd_buf (i : nat) (f : buf -> buf) : M bio unit :=
  modify (set_buf (alter f i)).

Definition read_buf (i : nat) : M bio buf :=
  let* s := get in deref (bc_buf s !! i) "buf".

Definition buf_lock (i : nat) (s : bio) : sleeplock :=
  match bc_buf s !! i with Some b => b_lock b | None => initsleeplock end.
Definition set_buf_lock (i : nat) (l : sleeplock) : bio -> bio :=
  set_buf (alter (b_with_lock l) i).

(** [memide.c]: synchronise a buffer with the disk. *)
Definition iderw (i : nat) : M bio unit :=
  let* h := holdingsleep (buf_lock i) pid in
  if negb h then panic "iderw: buf not locked" else
  let* b := read_buf i in
  if Z.land (b_flags b) (Z.lor B_VALID B_DIRTY) =? B_VALID
  then panic "iderw: nothing to do" else
  if negb (b_dev b =? 1) then panic "iderw: request not for disk 1" else
  let* s := get in
  if dk_size s <=? b_blockno b then panic "iderw: block out of range" else
  if truth (Z.land (b_flags b) B_DIRTY) then
    do* upd_buf i (fun b => b_with_flags (Z.land (b_flags b) (Z.lnot B_DIRTY)) b) in
    do* modify (fun s =>
          Bio (bc_buf s) (bc_order s) (dk_size s)
              (<[b_blockno b := b_data b]> (dk_blocks s))
              (dk_trace s ++ [(b_blockno b, b_data b)])) in
    upd_buf i (fun b => b_with_flags (Z.lor (b_flags b) B_VALID) b)
  else
    let* d := deref (dk_blocks s !! b_blockno b) "memdisk" in
    do* upd_buf i (b_with_data d) in
    upd_buf i (fun b => b_with_flags (Z.lor (b_flags b) B_VALID) b).

Definition is_block (dev blockno : Z) (bufs : list buf) (i : nat) : bool :=
  match bufs !! i with
  | Some b => (b_dev b =? dev) && (b_blockno b =? blockno)
  | None => false
  end.

Definition is_unused (bufs : list buf) (i : nat) : bool :=
  match bufs !! i with
  | Some b => (b_refcnt b =? 0) && (Z.land (b_flags b) B_DIRTY =? 0)
  | None => false
  end.

Definition bget (dev blockno : Z) : M bio nat :=
  let* s := get in
  match find (is_block dev blockno (bc_buf s)) (bc_order s) with
  | Some i =>
      do* upd_buf i (fun b => b_with_refcnt (u32 (b_refcnt b + 1)) b) in
      do* acquiresleep (buf_lock i) (set_buf_lock i) (ChBufLock i) pid in
      ret i
  | None =>
      match find (is_unused (bc_buf s)) (rev (bc_order s)) with
      | Some i =>
          do* upd_buf i (fun b => Buf 0 dev blockno (b_lock b) 1 (b_data b)) in
          do* acquiresleep (buf_lock i) (set_buf_lock i) (ChBufLock i) pid in
          ret i
      | None => panic "bget: no buffers"
      end
  end.

Definition bread (dev blockno : Z) : M bio nat :=
  let* i := bget dev blockno in
  let* b := read_buf i in
  do* when Z.land (b_flags b) B_VALID =? 0 then iderw i in
  ret i.

Definition bwrite (i : nat) : M bio unit :=
  let* h := holdingsleep (buf_lock i) pid in
  if negb h then panic "bwrite" else
  do* upd_buf i (fun b => b_with_flags (Z.lor (b_flags b) B_DIRTY) b) in
  iderw i.

Definition brelse (i : nat) : M bio unit :=
  let* h := holdingsleep (buf_lock i) pid in
  if negb h then panic "brelse" else
  do* releasesleep (set_buf_lock i) (ChBufLock i) in
  do* upd_buf i (fun b => b_with_refcnt (u32 (b_refcnt b - 1)) b) in
  let* b := read_buf i in
  when b_refcnt b =? 0 then
    modify (set_order (fun order => i :: filter (fun j => j <> i) order)).

(** Reading and overwriting [b->data]. *)
Definition bdata (i : nat) : M bio (list Z) :=
  let* b := read_buf i in ret (b_data b).
Definition bput (i : nat) (d : list Z) : M bio unit := upd_buf i (b_with_data d).
End ops.

(** ** The abstract block store

    What the cache promises: each block of the disk has a current content
    ([v_blocks]), which the process may read and change while it holds the
    block's buffer ([v_held] gives the buffer).  A content that differs from
    the disk is pending (changed and not yet handed to the log) or dirty. *)
Definition block_ok (d : list Z) : Prop := length d = Z.to_nat BSIZE /\ bytes_ok d.

Record bview := BView {
  v_blocks : gmap Z (list Z);
  v_disk : gmap Z (list Z);
  v_held : gmap Z nat;
  v_pend : gset Z;
  v_dirty : gset Z;
  v_trace : list (Z * list Z) }.

Definition v_take (x : Z) (i : nat) (v : bview) : bview :=
  BView (v_blocks v) (v_disk v) (<[x := i]> (v_held v)) (v_pend v) (v_dirty v) (v_trace v).
Definition v_drop (x : Z) (v : bview) : bview :=
  BView (v_blocks v) (v_disk v) (delete x (v_held v)) (v_pend v) (v_dirty v) (v_trace v).
Definition v_put (x : Z) (d : list Z) (v : bview) : bview :=
  BView (<[x := d]> (v_blocks v)) (v_disk v) (v_held v) ({[x]} ∪ v_pend v) (v_dirty v)
        (v_trace v).
Definition v_mark (x : Z) (v : bview) : bview :=
  BView (v_blocks v) (v_disk v) (v_held v) (v_pend v ∖ {[x]}) ({[x]} ∪ v_dirty v)
        (v_trace v).
Definition v_sync (x : Z) (d : list Z) (v : bview) : bview :=
  BView (v_blocks v) (<[x := d]> (v_disk v)) (v_held v) (v_pend v ∖ {[x]})
        (v_dirty v ∖ {[x]}) (v_trace v ++ [(x, d)]).

Section rep.
Variable pid : Z.

Definition buf_rep (dsize : Z) (v : bview) (b : buf) : Prop :=
  if decide (b_dev b = 1) then
    let x := b_blockno b in
    0 <= x < dsize /\
    b_flags b = (if decide (x ∈ v_dirty v) then Z.lor B_VALID B_DIRTY else B_VALID) /\
    b_lock b = (if v_held v !! x is Some _ then SleepLock true pid else SleepLock false 0) /\
    b_refcnt b = (if v_held v !! x is Some _ then 1 else 0) /\
    v_blocks v !! x = Some (b_data b) /\
    (x ∉ v_dirty v -> x ∉ v_pend v -> v_disk v !! x = Some (b_data b))
  else b_flags b = 0 /\ b_lock b = SleepLock false 0 /\ b_refcnt b = 0.

(** Buffer [i] caches block [x]. *)
Definition caches (bufs : list buf) (i : nat) (x : Z) : Prop :=
  exists b, bufs !! i = Some b /\ b_dev b = 1 /\ b_blockno b = x.

Record bio_rep (s : bio) (v : bview) : Prop := {
  br_len : length (bc_buf s) = NBUF;
  br_order : bc_order s ≡ₚ seq 0 NBUF;
  br_disk : dk_blocks s = v_disk v;
  br_trace : dk_trace s = v_trace v;
  br_uniq : forall i j x, caches (bc_buf s) i x -> caches (bc_buf s) j x -> i = j;
  br_bufs : forall i b, bc_buf s !! i = Some b -> buf_rep (dk_size s) v b;
  br_held : forall x i, v_held v !! x = Some i -> caches (bc_buf s) i x;
  br_dirty : forall x, x ∈ v_dirty v -> exists i, caches (bc_buf s) i x;
  br_uncached : forall x, (forall i, ~ caches (bc_buf s) i x) ->
                          v_blocks v !! x = v_disk v !! x;
  br_range : forall x, is_Some (v_disk v !! x) <-> 0 <= x < dk_size s;
  br_blocks : forall x d, v_blocks v !! x = Some d -> block_ok d;
  br_pend : forall x, x ∈ v_pend v -> is_Some (v_held v !! x) }.

Lemma alter_is_insert (f : buf -> buf) i (l : list buf) b :
  l !! i = Some b -> alter f i l = <[i := f b]> l.
Proof.
  intros Hi. apply list_eq. intros j. destruct (decide (i = j)) as [->|].
  - rewrite list_lookup_alter_eq, Hi. rewrite list_lookup_insert_eq; [done|].
    by eapply lookup_lt_Some.
  - by rewrite list_lookup_alter_ne, list_lookup_insert_ne.
Qed.

Lemma caches_update bufs i b b' j x :
  bufs !! i = Some b -> b_dev b' = b_dev b -> b_blockno b' = b_blockno b ->
  caches (<[i := b']> bufs) j x <-> caches bufs j x.
Proof.
  intros Hi Hd Hn. unfold caches. pose proof (lookup_lt_Some _ _ _ Hi).
  destruct (decide (i = j)) as [->|].
  - rewrite list_lookup_insert_eq by done. rewrite Hi.
    split; intros (c & [= <-] & ? & ?); eexists; split; eauto; split; congruence.
  - by rewrite list_lookup_insert_ne.
Qed.

(** The view may change arbitrarily at [x] and not at all elsewhere. *)
Definition same_off (x : Z) (v v' : bview) : Prop :=
  forall y, y <> x ->
    v_blocks v' !! y = v_blocks v !! y /\ v_disk v' !! y = v_disk v !! y /\
    v_held v' !! y = v_held v !! y /\ (y ∈ v_pend v' <-> y ∈ v_pend v) /\
    (y ∈ v_dirty v' <-> y ∈ v_dirty v).

Lemma buf_rep_same dsize x v v' b :
  same_off x v v' -> b_dev b = 1 -> b_blockno b <> x ->
  buf_rep dsize v b -> buf_rep dsize v' b.
Proof.
  unfold buf_rep. intros Hs Hd Hx Hb. case_decide; [|done].
  destruct (Hs _ Hx) as (-> & -> & -> & Hp & Hdy).
  destruct Hb as (? & Hf & ? & ? & ? & ?).
  repeat split; try tauto; try done.
  rewrite Hf. repeat case_decide; tauto.
Qed.

Lemma bio_rep_update s v s' v' i b b' x :
  bio_rep s v -> bc_buf s !! i = Some b -> b_dev b = 1 -> b_blockno b = x ->
  b_dev b' = 1 -> b_blockno b' = x ->
  bc_buf s' = <[i := b']> (bc_buf s) -> bc_order s' ≡ₚ bc_order s ->
  dk_size s' = dk_size s -> dk_blocks s' = v_disk v' -> dk_trace s' = v_trace v' ->
  same_off x v v' -> buf_rep (dk_size s) v' b' ->
  (forall j, v_held v' !! x = Some j -> j = i) ->
  is_Some (v_disk v' !! x) -> block_ok (b_data b') ->
  (x ∈ v_pend v' -> is_Some (v_held v' !! x)) ->
  bio_rep s' v'.
Proof.
  intros H Hi Hd Hx Hd' Hx' Hbuf Hord Hsz Hdk Htr Hs Hb' Hheld Hdisk Hok Hpend.
  pose proof (fun j y => caches_update (bc_buf s) i b b' j y Hi
    ltac:(congruence) ltac:(congruence)) as Hc.
  assert (Hci : caches (bc_buf s) i x) by (by exists b).
  destruct H. constructor; rewrite ?Hbuf, ?Hsz; try done.
  - by rewrite length_insert.
  - by rewrite Hord.
  - intros j k y. rewrite !Hc. eauto.
  - intros j c Hj. destruct (decide (j = i)) as [->|Hne].
    + rewrite list_lookup_insert_eq in Hj by (by eapply lookup_lt_Some). by simplify_eq.
    + rewrite list_lookup_insert_ne in Hj by done.
      pose proof (br_bufs0 _ _ Hj) as Hb. destruct (decide (b_dev c = 1)) as [Hc1|Hc1].
      * eapply buf_rep_same; eauto. intros Heq. apply Hne.
        apply (br_uniq0 j i x); [by exists c|done].
      * unfold buf_rep in *. by rewrite decide_False in *.
  - intros y j Hy. rewrite Hc. destruct (decide (y = x)) as [->|Hne].
    + by rewrite (Hheld j).
    + destruct (Hs y Hne) as (_ & _ & Hh & _). rewrite Hh in Hy. eauto.
  - intros y Hy. setoid_rewrite Hc. destruct (decide (y = x)) as [->|Hne]; [eauto|].
    apply br_dirty0. by apply (Hs y Hne).
  - intros y Hy. setoid_rewrite Hc in Hy. destruct (decide (y = x)) as [->|Hne].
    + by destruct (Hy i).
    + destruct (Hs y Hne) as (-> & -> & _). auto.
  - intros y. destruct (decide (y = x)) as [->|Hne].
    + split; [intros _|done].
      pose proof (br_bufs0 _ _ Hi) as Hb. unfold buf_rep in Hb.
      rewrite decide_True in Hb by done. destruct Hb as [Hb _]. by rewrite Hx in Hb.
    + destruct (Hs y Hne) as (_ & -> & _). auto.
  - intros y d Hy. destruct (decide (y = x)) as [->|Hne].
    + unfold buf_rep in Hb'. rewrite decide_True, Hx' in Hb' by done.
      destruct Hb' as (_ & _ & _ & _ & Hd2 & _). by simplify_eq.
    + destruct (Hs y Hne) as (Hbl & _). rewrite Hbl in Hy. eauto.
  - intros y Hy. destruct (decide (y = x)) as [->|Hne]; [auto|].
    destruct (Hs y Hne) as (_ & _ & -> & Hp & _). apply br_pend0. by apply Hp.
Qed.

Lemma move_front_perm (i : nat) (l : list nat) :
  NoDup l -> i ∈ l -> i :: filter (fun j => j <> i) l ≡ₚ l.
Proof.
  intros Hl Hi. apply NoDup_Permutation.
  - apply NoDup_cons. split; [rewrite list_elem_of_filter; naive_solver|].
    by apply NoDup_filter.
  - done.
  - intros j. rewrite elem_of_cons, list_elem_of_filter.
    destruct (decide (j = i)); naive_solver.
Qed.

Lemma order_move_front s v i b :
  bio_rep s v -> bc_buf s !! i = Some b ->
  i :: filter (fun j => j <> i) (bc_order s) ≡ₚ bc_order s.
Proof.
  intros H Hi. apply move_front_perm.
  - rewrite (br_order _ _ H). apply NoDup_seq.
  - rewrite (br_order _ _ H), elem_of_seq, <- (br_len _ _ H).
    apply lookup_lt_Some in Hi. lia.
Qed.

(** *** Operations on a held buffer *)

Lemma held_buf s v x i :
  bio_rep s v -> v_held v !! x = Some i ->
  exists b, bc_buf s !! i = Some b /\ b_dev b = 1 /\ b_blockno b = x /\
    0 <= x < dk_size s /\
    b_flags b = (if decide (x ∈ v_dirty v) then Z.lor B_VALID B_DIRTY else B_VALID) /\
    b_lock b = SleepLock true pid /\ b_refcnt b = 1 /\
    v_blocks v !! x = Some (b_data b) /\
    (x ∉ v_dirty v -> x ∉ v_pend v -> v_disk v !! x = Some (b_data b)).
Proof.
  intros H Hx. destruct (br_held _ _ H _ _ Hx) as (b & Hb & Hd & Hn).
  exists b. pose proof (br_bufs _ _ H _ _ Hb) as Hr. unfold buf_rep in Hr.
  rewrite decide_True, Hn, Hx in Hr by done. simpl in Hr. naive_solver.
Qed.

Lemma buf_rep_intro dsize v b :
  b_dev b = 1 -> 0 <= b_blockno b < dsize ->
  b_flags b = (if decide (b_blockno b ∈ v_dirty v) then Z.lor B_VALID B_DIRTY else B_VALID) ->
  b_lock b = (if v_held v !! b_blockno b is Some _ then SleepLock true pid
              else SleepLock false 0) ->
  b_refcnt b = (if v_held v !! b_blockno b is Some _ then 1 else 0) ->
  v_blocks v !! b_blockno b = Some (b_data b) ->
  (b_blockno b ∉ v_dirty v -> b_blockno b ∉ v_pend v ->
   v_disk v !! b_blockno b = Some (b_data b)) ->
  buf_rep dsize v b.
Proof. intros. unfold buf_rep. rewrite decide_True by done. done. Qed.

Lemma bdata_spec s v x i :
  bio_rep s v -> v_held v !! x = Some i ->
  wp (bdata i) (fun d s' => s' = s /\ v_blocks v !! x = Some d /\ block_ok d) s.
Proof.
  intros H Hx. destruct (held_buf _ _ _ _ H Hx) as (b & Hb & ? & ? & ? & ? & ? & ? & Hv & _).
  unfold bdata, read_buf, wp, bind, get, deref. rewrite Hb. simpl.
  eauto using br_blocks.
Qed.

Lemma bput_spec s v x i d :
  bio_rep s v -> v_held v !! x = Some i -> block_ok d ->
  wp (bput i d) (fun _ s' => bio_rep s' (v_put x d v) /\ dk_size s' = dk_size s) s.
Proof.
  intros H Hx Hok.
  destruct (held_buf _ _ _ _ H Hx) as (b & Hb & Hd & Hn & Hr & Hf & Hl & Hc & Hv & Hdk).
  split; [|done].
  eapply (bio_rep_update s v _ _ i b (b_with_data d b) x); eauto; simpl.
  - by apply alter_is_insert.
  - apply H.
  - apply H.
  - intros y Hy. simpl. rewrite lookup_insert_ne by done. set_solver.
  - apply buf_rep_intro; simpl; rewrite ?Hn, ?Hx; try done.
    + by rewrite lookup_insert_eq.
    + set_solver.
  - intros j Hj. congruence.
  - by apply (br_range _ _ H).
Qed.

(** [b->flags |= B_DIRTY] on a held buffer. *)
Definition bmark (i : nat) : M bio unit :=
  upd_buf i (fun b => b_with_flags (Z.lor (b_flags b) B_DIRTY) b).

Lemma bmark_spec s v x i :
  bio_rep s v -> v_held v !! x = Some i ->
  wp (bmark i) (fun _ s' => bio_rep s' (v_mark x v) /\ dk_size s' = dk_size s) s.
Proof.
  intros H Hx.
  destruct (held_buf _ _ _ _ H Hx) as (b & Hb & Hd & Hn & Hr & Hf & Hl & Hc & Hv & Hdk).
  split; [|done].
  eapply (bio_rep_update s v _ _ i b (b_with_flags (Z.lor (b_flags b) B_DIRTY) b) x);
    eauto; simpl.
  - by erewrite alter_is_insert.
  - apply H.
  - apply H.
  - intros y Hy. simpl. set_solver.
  - apply buf_rep_intro; simpl; rewrite ?Hn, ?Hx; try done.
    + rewrite Hf. repeat case_decide; try done; set_solver.
    + set_solver.
  - intros j Hj. congruence.
  - by apply (br_range _ _ H).
  - by eapply br_blocks.
Qed.

Lemma brelse_spec s v x i :
  bio_rep s v -> v_held v !! x = Some i -> x ∉ v_pend v ->
  wp (brelse pid i) (fun _ s' => bio_rep s' (v_drop x v) /\ dk_size s' = dk_size s) s.
Proof.
  intros H Hx Hp.
  destruct (held_buf _ _ _ _ H Hx) as (b & Hb & Hd & Hn & Hr & Hf & Hl & Hc & Hv & Hdk).
  set (b' := b_with_refcnt 0 (b_with_lock (SleepLock false 0) b)).
  assert (Hbuf : alter (fun b => b_with_refcnt (u32 (b_refcnt b - 1)) b) i
            (alter (b_with_lock (SleepLock false 0)) i (bc_buf s)) = <[i := b']> (bc_buf s)).
  { rewrite (alter_is_insert _ i (bc_buf s) b Hb).
    erewrite alter_is_insert by (apply list_lookup_insert_eq; by eapply lookup_lt_Some).
    rewrite list_insert_insert_eq. do 2 f_equal. simpl. by rewrite Hc. }
  unfold brelse, holdingsleep, releasesleep, upd_buf, read_buf, wp, bind, gets, get, modify.
  unfold buf_lock at 1. rewrite Hb, Hl. simpl.
  unfold buf_lock. rewrite Hb, Hl, Z.eqb_refl. simpl. rewrite Hbuf.
  rewrite list_lookup_insert_eq by (by eapply lookup_lt_Some). simpl.
  split; [|done].
  eapply (bio_rep_update s v _ _ i b b' x); eauto; simpl.
  - by eapply order_move_front.
  - apply H.
  - apply H.
  - intros y Hy. simpl. by rewrite lookup_delete_ne.
  - apply buf_rep_intro; simpl; rewrite ?Hn, ?lookup_delete_eq; done.
  - intros j Hj. by rewrite lookup_delete_eq in Hj.
  - by apply (br_range _ _ H).
  - by eapply br_blocks.
  - by intros.
Qed.

(** What the driver does with a buffer its caller has locked. *)
Lemma iderw_write s i b :
  bc_buf s !! i = Some b -> b_lock b = SleepLock true pid -> b_dev b = 1 ->
  b_blockno b < dk_size s -> b_flags b = Z.lor B_VALID B_DIRTY ->
  iderw pid i s =
    Ok tt (Bio (<[i := b_with_flags B_VALID b]> (bc_buf s)) (bc_order s) (dk_size s)
               (<[b_blockno b := b_data b]> (dk_blocks s))
               (dk_trace s ++ [(b_blockno b, b_data b)])) [].
Proof.
  intros Hb Hl Hd Hn Hf. pose proof (lookup_lt_Some _ _ _ Hb) as Hlt.
  unfold iderw, holdingsleep, bind, gets. unfold buf_lock. rewrite Hb, Hl, Z.eqb_refl. simpl.
  unfold bind, read_buf, get, bind, deref. rewrite Hb. simpl.
  rewrite Hf, Hd. simpl. unfold bind.
  destruct (Z.leb_spec (dk_size s) (b_blockno b)); [lia|].
  unfold upd_buf, modify, set_buf. simpl.
  rewrite (alter_is_insert _ i (bc_buf s) b) by done.
  erewrite alter_is_insert by (by apply list_lookup_insert_eq).
  rewrite list_insert_insert_eq. simpl. by rewrite Hf.
Qed.

Lemma iderw_read s i b d :
  bc_buf s !! i = Some b -> b_lock b = SleepLock true pid -> b_dev b = 1 ->
  b_blockno b < dk_size s -> b_flags b = 0 -> dk_blocks s !! b_blockno b = Some d ->
  iderw pid i s =
    Ok tt (set_buf (<[i := b_with_flags B_VALID (b_with_data d b)]>) s) [].
Proof.
  intros Hb Hl Hd Hn Hf Hdk. pose proof (lookup_lt_Some _ _ _ Hb) as Hlt.
  unfold iderw, holdingsleep, bind, gets. unfold buf_lock. rewrite Hb, Hl, Z.eqb_refl. simpl.
  unfold bind, read_buf, get, bind, deref. rewrite Hb. simpl.
  rewrite Hf, Hd. simpl. unfold bind.
  destruct (Z.leb_spec (dk_size s) (b_blockno b)); [lia|].
  rewrite Hdk. unfold upd_buf, modify, set_buf, ret. simpl.
  rewrite (alter_is_insert _ i (bc_buf s) b) by done.
  erewrite alter_is_insert by (by apply list_lookup_insert_eq).
  rewrite list_insert_insert_eq. simpl. by rewrite Hf.
Qed.

(** Writing a held buffer through to the disk. *)
Lemma bwrite_spec s v x i d :
  bio_rep s v -> v_held v !! x = Some i -> v_blocks v !! x = Some d ->
  wp (bwrite pid i) (fun _ s' => bio_rep s' (v_sync x d v) /\ dk_size s' = dk_size s) s.
Proof.
  intros H Hx Hxd.
  destruct (held_buf _ _ _ _ H Hx) as (b & Hb & Hd & Hn & Hr & Hf & Hl & Hc & Hv & Hdk).
  pose proof (lookup_lt_Some _ _ _ Hb) as Hlt.
  assert (Hdirty : Z.lor (b_flags b) B_DIRTY = Z.lor B_VALID B_DIRTY) by (rewrite Hf; by case_decide).
  unfold bwrite, holdingsleep. wp_step. wp_step. unfold buf_lock.
  rewrite Hb, Hl, Z.eqb_refl. simpl. unfold upd_buf. wp_step. wp_step.
  unfold wp. erewrite iderw_write;
    [|simpl; erewrite alter_is_insert by done; by apply list_lookup_insert_eq|simpl; first [done|lia]..].
  simpl. erewrite alter_is_insert by done. rewrite list_insert_insert_eq.
  split; [|done].
  eapply (bio_rep_update s v _ _ i b (b_with_flags B_VALID b) x); eauto; simpl.
  - rewrite (br_disk _ _ H). congruence.
  - rewrite (br_trace _ _ H). congruence.
  - intros y Hy. simpl. rewrite lookup_insert_ne by done. set_solver.
  - apply buf_rep_intro; simpl; rewrite ?Hn, ?Hx; try done.
    + rewrite decide_False by set_solver. done.
    + intros. rewrite lookup_insert_eq. congruence.
  - intros j Hj. congruence.
  - by rewrite lookup_insert_eq.
  - by eapply br_blocks.
Qed.

(** *** Getting a buffer *)

Lemma order_elem s v i : bio_rep s v -> i ∈ bc_order s <-> (i < length (bc_buf s))%nat.
Proof. intros H. rewrite (br_order _ _ H), elem_of_seq, (br_len _ _ H). lia. Qed.

Lemma is_block_caches bufs i x : is_block 1 x bufs i = true <-> caches bufs i x.
Proof.
  unfold is_block, caches. destruct (bufs !! i) as [b|]; [|naive_solver].
  rewrite andb_true_iff, !Z.eqb_eq. naive_solver.
Qed.

Lemma find_is_block s v x :
  bio_rep s v ->
  match find (is_block 1 x (bc_buf s)) (bc_order s) with
  | Some i => caches (bc_buf s) i x
  | None => forall i, ~ caches (bc_buf s) i x
  end.
Proof.
  intros H. destruct (find _ _) as [i|] eqn:Hf.
  - apply find_some in Hf as [_ Hf]. by apply is_block_caches.
  - intros i Hc. pose proof (find_none _ _ Hf i) as Hn.
    rewrite (proj2 (is_block_caches _ _ _) Hc) in Hn. apply diff_true_false, Hn.
    apply list_elem_of_In, (order_elem _ _ _ H). destruct Hc as (b & Hb & _).
    by eapply lookup_lt_Some.
Qed.

(** A buffer that cannot be recycled holds a block that is in use. *)
Lemma busy_buf dsize v b :
  buf_rep dsize v b -> (b_refcnt b =? 0) && (Z.land (b_flags b) B_DIRTY =? 0) = false ->
  b_dev b = 1 /\ b_blockno b ∈ dom (v_held v) ∪ v_dirty v.
Proof.
  unfold buf_rep. intros Hb Hu. case_decide as Hd.
  - split; [done|]. destruct Hb as (_ & Hf & _ & Hc & _). apply elem_of_union.
    rewrite elem_of_dom, Hf, Hc in *.
    destruct (v_held v !! b_blockno b); [by left|]. right. by case_decide.
  - destruct Hb as (Hf & _ & Hc). rewrite Hf, Hc in Hu. done.
Qed.

Lemma find_unused s v :
  bio_rep s v -> (size (dom (v_held v) ∪ v_dirty v) < NBUF)%nat ->
  exists i b, find (is_unused (bc_buf s)) (rev (bc_order s)) = Some i /\
    bc_buf s !! i = Some b /\ b_refcnt b = 0 /\ Z.land (b_flags b) B_DIRTY = 0.
Proof.
  intros H Hsz. destruct (find _ _) as [i|] eqn:Hf.
  - apply find_some in Hf as [_ Hf]. unfold is_unused in Hf.
    destruct (bc_buf s !! i) as [b|] eqn:Hb; [|done].
    apply andb_true_iff in Hf as [?%Z.eqb_eq ?%Z.eqb_eq]. eauto 10.
  - exfalso. apply (Nat.lt_irrefl NBUF). eapply Nat.le_lt_trans, Hsz.
    assert (Hall : forall i b, bc_buf s !! i = Some b ->
      b_dev b = 1 /\ b_blockno b ∈ dom (v_held v) ∪ v_dirty v).
    { intros i b Hb. eapply busy_buf; [by eapply (br_bufs _ _ H)|].
      pose proof (find_none _ _ Hf i) as Hn. unfold is_unused in Hn. rewrite Hb in Hn.
      apply Hn. apply in_rev. rewrite rev_involutive.
      apply list_elem_of_In, (order_elem _ _ _ H). by eapply lookup_lt_Some. }
    rewrite <- (br_len _ _ H), <- (length_fmap b_blockno).
    rewrite <- (size_list_to_set (C := gset Z) (b_blockno <$> bc_buf s)).
    + apply subseteq_size. intros x. rewrite elem_of_list_to_set, list_elem_of_fmap.
      intros (b & -> & (i & Hb)%list_elem_of_lookup). by eapply Hall.
    + apply NoDup_alt. intros i j x. rewrite !list_lookup_fmap, !fmap_Some.
      intros (b & Hb & ->) (c & Hc & Hbc).
      apply (br_uniq _ _ H i j (b_blockno b)); eexists; (split; [done|]);
        (split; [by eapply Hall|done]).
Qed.

(** The block a free buffer still caches is neither held nor changed. *)
Lemma free_buf_clean s v i b y :
  bio_rep s v -> bc_buf s !! i = Some b -> b_refcnt b = 0 ->
  Z.land (b_flags b) B_DIRTY = 0 -> caches (bc_buf s) i y ->
  v_held v !! y = None /\ (y ∉ v_dirty v) /\ v_blocks v !! y = v_disk v !! y.
Proof.
  intros H Hb Hrc Hnd (c & Hc & Hc1 & <-). simplify_eq.
  pose proof (br_bufs _ _ H _ _ Hb) as Hr. unfold buf_rep in Hr.
  rewrite decide_True, Hrc in Hr by done. destruct Hr as (_ & Hf & _ & Hh & Hv & Hk).
  assert (v_held v !! b_blockno b = None) as Hnh by (by destruct (v_held v !! b_blockno b)).
  assert (b_blockno b ∉ v_dirty v) as Hndy.
  { intros Hin. rewrite Hf, decide_True in Hnd by done. done. }
  split; [done|]. split; [done|]. rewrite Hv, Hk; [done..|].
  intros Hp%(br_pend _ _ H). rewrite Hnh in Hp. by destruct Hp.
Qed.

Lemma caches_recycle bufs i b x j y :
  (i < length bufs)%nat -> b_dev b = 1 -> b_blockno b = x ->
  caches (<[i := b]> bufs) j y <-> (j = i /\ y = x) \/ (j <> i /\ caches bufs j y).
Proof.
  intros Hlt Hd Hx. unfold caches. destruct (decide (j = i)) as [->|].
  - rewrite list_lookup_insert_eq by done. naive_solver.
  - rewrite list_lookup_insert_ne by done. naive_solver.
Qed.

(** Recycling a free buffer for a block that is not cached. *)
Lemma bio_rep_recycle s v i b b' x d :
  bio_rep s v -> bc_buf s !! i = Some b -> b_refcnt b = 0 ->
  Z.land (b_flags b) B_DIRTY = 0 -> (forall j, ~ caches (bc_buf s) j x) ->
  v_disk v !! x = Some d -> b' = Buf B_VALID 1 x (SleepLock true pid) 1 d ->
  bio_rep (set_buf (<[i := b']>) s) (v_take x i v).
Proof.
  intros H Hb Hrc Hnd Hnc Hd Hb'. pose proof (lookup_lt_Some _ _ _ Hb) as Hlt.
  assert (Hvx : v_blocks v !! x = Some d) by (by rewrite (br_uncached _ _ H x Hnc)).
  assert (Hnew := fun j y => caches_recycle (bc_buf s) i b' x j y Hlt
    ltac:(by rewrite Hb') ltac:(by rewrite Hb')).
  assert (Hold := fun y => free_buf_clean s v i b y H Hb Hrc Hnd).
  assert (Hnh : v_held v !! x = None).
  { destruct (v_held v !! x) as [j|] eqn:E; [|done].
    destruct (Hnc j). by apply (br_held _ _ H). }
  assert (Hndy : x ∉ v_dirty v) by (intros [j Hj]%(br_dirty _ _ H); by destruct (Hnc j)).
  constructor; simpl; try apply H.
  - rewrite length_insert. apply H.
  - intros j k y. rewrite !Hnew. intros [[-> ->]|[? ?]] [[-> ?]|[? ?]]; subst; try done.
    + by destruct (Hnc k).
    + by destruct (Hnc j).
    + by eapply (br_uniq _ _ H).
  - intros j c Hj. destruct (decide (j = i)) as [->|Hne].
    + rewrite list_lookup_insert_eq in Hj by done. simplify_eq. apply buf_rep_intro; simpl.
      all: rewrite ?lookup_insert_eq, ?decide_False by done; try done.
      by apply (br_range _ _ H).
    + rewrite list_lookup_insert_ne in Hj by done.
      pose proof (br_bufs _ _ H _ _ Hj) as Hr. unfold buf_rep in *. case_decide; [|done].
      simpl. rewrite lookup_insert_ne; [done|]. intros ->.
      destruct (Hnc j). by exists c.
  - intros y j Hy. apply Hnew. destruct (decide (y = x)) as [->|Hne].
    + rewrite lookup_insert_eq in Hy. left. naive_solver.
    + rewrite lookup_insert_ne in Hy by done. right.
      pose proof (br_held _ _ H _ _ Hy) as Hc. split; [|done].
      intros ->. by destruct (Hold y Hc) as [Hn _]; rewrite Hn in Hy.
  - intros y Hy. destruct (br_dirty _ _ H _ Hy) as [j Hj]. exists j. apply Hnew.
    right. split; [|done]. intros ->. by destruct (Hold y Hj) as (_ & ? & _).
  - intros y Hy. destruct (is_block 1 y (bc_buf s) i) eqn:Hc.
    { by apply Hold, is_block_caches. }
    apply (br_uncached _ _ H). intros j Hj. destruct (decide (j = i)) as [->|].
    { apply is_block_caches in Hj. congruence. }
    apply (Hy j), Hnew. by right.
  - intros y Hy%(br_pend _ _ H). apply lookup_insert_is_Some'. by right.
Qed.

Lemma bget_hit s v x i b :
  bio_rep s v -> bc_buf s !! i = Some b -> b_dev b = 1 -> b_blockno b = x ->
  v_held v !! x = None ->
  wp (do* upd_buf i (fun b => b_with_refcnt (u32 (b_refcnt b + 1)) b) in
      do* acquiresleep (buf_lock i) (set_buf_lock i) (ChBufLock i) pid in ret i)
     (fun j s' => j = i /\ bio_rep s' (v_take x i v) /\ dk_size s' = dk_size s) s.
Proof.
  intros H Hb Hd Hn Hx. pose proof (lookup_lt_Some _ _ _ Hb) as Hlt.
  pose proof (br_bufs _ _ H _ _ Hb) as Hr. unfold buf_rep in Hr.
  rewrite decide_True, Hn, Hx in Hr by done. simpl in Hr.
  destruct Hr as (Hr & Hf & Hl & Hc & Hv & Hdk).
  wp_step. unfold upd_buf. wp_step. wp_step. unfold acquiresleep, wp, buf_lock. simpl.
  erewrite alter_is_insert by done. rewrite list_lookup_insert_eq by done. simpl.
  rewrite Hl. simpl. split; [done|]. split; [|done].
  eapply (bio_rep_update s v _ _ i b
    (b_with_lock (SleepLock true pid) (b_with_refcnt 1 b)) x); eauto; simpl.
  - rewrite (alter_is_insert _ i (bc_buf s) b) by done.
    erewrite alter_is_insert by (by apply list_lookup_insert_eq).
    rewrite list_insert_insert_eq. by rewrite Hc.
  - apply H.
  - apply H.
  - intros y Hy. simpl. by rewrite lookup_insert_ne.
  - apply buf_rep_intro; simpl; rewrite ?Hn, ?lookup_insert_eq; done.
  - intros j Hj. rewrite lookup_insert_eq in Hj. congruence.
  - by apply (br_range _ _ H).
  - by eapply (br_blocks _ _ H).
  - by rewrite lookup_insert_eq.
Qed.

(** [bread] on a block of the disk that the process does not already hold
    returns its buffer, holding the block's current content, provided the
    block is dirty (hence cached) or some buffer is neither held nor dirty. *)
Lemma bread_spec s v x :
  bio_rep s v -> 0 <= x < dk_size s -> v_held v !! x = None ->
  x ∈ v_dirty v \/ (size (dom (v_held v) ∪ v_dirty v) < NBUF)%nat ->
  wp (bread pid ROOTDEV x)
     (fun i s' => bio_rep s' (v_take x i v) /\ dk_size s' = dk_size s) s.
Proof.
  intros H Hr Hx Hsz. unfold bread, bget, ROOTDEV. wp_step. wp_step.
  unfold get, wp at 1. pose proof (find_is_block s v x H) as Hf.
  destruct (find _ _) as [i|].
  - destruct Hf as (b & Hb & Hd & Hn). eapply wp_mono; [by eapply bget_hit|].
    intros j s' (-> & H' & Hsz'). simpl.
    destruct (held_buf s' _ x i H') as (b' & Hb' & _ & _ & _ & Hf & _).
    { apply lookup_insert_eq. }
    wp_step. unfold read_buf, wp, bind, get, deref. rewrite Hb'. simpl.
    rewrite Hf. by case_decide.
  - destruct Hsz as [[i Hi]%(br_dirty _ _ H)|Hsz]; [by destruct (Hf i)|].
    destruct (find_unused s v H Hsz) as (i & b & -> & Hb & Hrc & Hnd).
    apply (br_range _ _ H) in Hr as Hdk. destruct Hdk as [d Hdk].
    pose proof (lookup_lt_Some _ _ _ Hb) as Hlt.
    assert (Hl : b_lock b = SleepLock false 0).
    { pose proof (br_bufs _ _ H _ _ Hb) as Hbr. unfold buf_rep in Hbr. rewrite Hrc in Hbr.
      case_decide; [|naive_solver]. destruct (v_held v !! b_blockno b); naive_solver. }
    wp_step. unfold upd_buf. wp_step. wp_step. unfold acquiresleep, wp at 1, buf_lock at 1.
    unfold set_buf at 1. simpl. erewrite alter_is_insert by done.
    rewrite list_lookup_insert_eq by done. simpl. rewrite Hl. simpl.
    wp_step. unfold read_buf, wp, bind, get, deref, set_buf_lock, set_buf. simpl.
    rewrite ?(alter_is_insert _ i (bc_buf s) b) by done.
    erewrite alter_is_insert by (by apply list_lookup_insert_eq).
    rewrite list_insert_insert_eq, list_lookup_insert_eq by done. simpl.
    erewrite iderw_read; simpl;
      [|by apply list_lookup_insert_eq|done|done|simpl; lia|done|by rewrite (br_disk _ _ H)].
    unfold set_buf. simpl. rewrite list_insert_insert_eq. split; [|done].
    by apply (bio_rep_recycle s v i b _ x d).
Qed.

(** Just after boot nothing is cached. *)
Lemma binit_rep dsize disk :
  (forall x, is_Some (disk !! x) <-> 0 <= x < dsize) ->
  (forall x d, disk !! x = Some d -> block_ok d) ->
  bio_rep (binit dsize disk) (BView disk disk ∅ ∅ ∅ []).
Proof.
  intros Hr Hok.
  assert (Hnc : forall i x, ~ caches (replicate NBUF zero_buf) i x).
  { intros i x (b & [-> _]%lookup_replicate & ? & _). done. }
  constructor; cbn [bc_buf bc_order dk_blocks dk_trace dk_size binit v_blocks v_disk v_held
    v_pend v_dirty v_trace]; try done.
  - apply (reverse_Permutation (seq 0 NBUF)).
  - intros i j x Hi. by destruct (Hnc i x).
  - intros i b [-> _]%lookup_replicate. unfold buf_rep. by rewrite decide_False.
Qed.
End rep.
