(* ===== verification/Layout.v ===== *)
(** * On-disk layout

    [kernel/fs.h]: the super block, the on-disk inode, the directory entry and
    the arithmetic that places them in blocks.  Structures are decoded from and
    encoded into the bytes of a block the way the i386 ABI lays them out
    (little-endian, natural alignment, [sizeof(struct dinode) = 256]). *)

From S2P Require Import Prelude Bio.

Definition ROOTINO : Z := 1.
Definition NDIRECT : nat := 57.
Definition NINDIRECT : nat := 128.
Definition MAXFILE : Z := 185.
Definition IPB : Z := 2.
Definition BPB : Z := 4096.
Definition DIRSIZ : nat := 14.
Definition DIRENT_SIZE : nat := 16.
Definition DINODE_SIZE : nat := 256.

Record superblock := SuperBlock {
  sb_size : Z; sb_nblocks : Z; sb_ninodes : Z; sb_nlog : Z;
  sb_logstart : Z; sb_inodestart : Z; sb_bmapstart : Z }.

Definition dec_superblock (d : list Z) : superblock :=
  SuperBlock (get_le 4 0 d) (get_le 4 4 d) (get_le 4 8 d) (get_le 4 12 d)
             (get_le 4 16 d) (get_le 4 20 d) (get_le 4 24 d).

Definition IBLOCK (i : Z) (sb : superblock) : Z := u32 (i / IPB + sb_inodestart sb).
Definition BBLOCK (b : Z) (sb : superblock) : Z := u32 (b / BPB + sb_bmapstart sb).

(** [struct dinode]: [short]s are signed, [uid]/[gid] are [int]s. *)
Record dinode := DInode {
  d_type : Z; d_major : Z; d_minor : Z; d_nlink : Z; d_size : Z;
  d_addrs : list Z; d_uid : Z; d_gid : Z; d_mode : Z }.

Definition dec_dinode (d : list Z) : dinode :=
  DInode (s16 (get_le 2 0 d)) (s16 (get_le 2 2 d)) (s16 (get_le 2 4 d)) (s16 (get_le 2 6 d))
         (get_le 4 8 d) ((fun k => get_le 4 (12 + 4 * k) d) <$> seq 0 (S NDIRECT))
         (s32 (get_le 4 244 d)) (s32 (get_le 4 248 d)) (s16 (get_le 2 252 d)).

(** The 254 bytes of the fields; two bytes of padding follow. *)
Definition enc_dinode (di : dinode) : list Z :=
  le_bytes 2 (d_type di) ++ le_bytes 2 (d_major di) ++ le_bytes 2 (d_minor di) ++
  le_bytes 2 (d_nlink di) ++ le_bytes 4 (d_size di) ++
  concat (le_bytes 4 <$> d_addrs di) ++
  le_bytes 4 (d_uid di) ++ le_bytes 4 (d_gid di) ++ le_bytes 2 (d_mode di).

(** Entry [k] of the block seen as an array of [struct dinode]. *)
Definition get_dinode (k : nat) (d : list Z) : dinode :=
  dec_dinode (slice (DINODE_SIZE * k) DINODE_SIZE d).
Definition put_dinode (k : nat) (di : dinode) (d : list Z) : list Z :=
  splice (DINODE_SIZE * k) (enc_dinode di) d.

Record dinode_ok (di : dinode) : Prop := {
  dok_type : - 2 ^ 15 <= d_type di < 2 ^ 15;
  dok_major : - 2 ^ 15 <= d_major di < 2 ^ 15;
  dok_minor : - 2 ^ 15 <= d_minor di < 2 ^ 15;
  dok_nlink : - 2 ^ 15 <= d_nlink di < 2 ^ 15;
  dok_size : 0 <= d_size di < 2 ^ 32;
  dok_len : length (d_addrs di) = S NDIRECT;
  dok_addrs : Forall (fun a => 0 <= a < 2 ^ 32) (d_addrs di);
  dok_uid : - 2 ^ 31 <= d_uid di < 2 ^ 31;
  dok_gid : - 2 ^ 31 <= d_gid di < 2 ^ 31;
  dok_mode : - 2 ^ 15 <= d_mode di < 2 ^ 15 }.

(** [struct dirent]. *)
Record dirent := DirEnt { de_inum : Z; de_name : list Z }.

Definition dec_dirent (d : list Z) : dirent :=
  DirEnt (get_le 2 0 d) (slice 2 DIRSIZ d).
Definition enc_dirent (de : dirent) : list Z :=
  le_bytes 2 (de_inum de) ++ de_name de.

(** ** Round trips *)

Lemma length_concat_le (l : list Z) : length (concat (le_bytes 4 <$> l)) = (4 * length l)%nat.
Proof.
  induction l as [|v l IH]; [done|]. cbn [fmap list_fmap concat length].
  rewrite length_app, length_le_bytes, IH. lia.
Qed.

Lemma length_enc_dinode di :
  length (d_addrs di) = S NDIRECT -> length (enc_dinode di) = 254%nat.
Proof. intros Hl. unfold enc_dinode. len. rewrite length_concat_le, Hl. done. Qed.

Lemma get_le_app_l n off (a b : list Z) :
  (off + n <= length a)%nat -> get_le n off (a ++ b) = get_le n off a.
Proof.
  intros. unfold get_le, slice. rewrite drop_app_le by lia.
  rewrite take_app_le by (len). done.
Qed.

Lemma get_le_app_r n off (a b : list Z) :
  (length a <= off)%nat -> get_le n off (a ++ b) = get_le n (off - length a) b.
Proof. intros. unfold get_le, slice. by rewrite drop_app_ge. Qed.

Lemma get_le_here n v (b : list Z) :
  get_le n 0 (le_bytes n v ++ b) = v mod 256 ^ Z.of_nat n.
Proof.
  unfold get_le, slice. rewrite drop_0, take_app_le by (len).
  rewrite take_ge by (len). apply le_val_bytes.
Qed.

Lemma get_le_concat (l : list Z) k v rest :
  l !! k = Some v -> get_le 4 (4 * k) (concat (le_bytes 4 <$> l) ++ rest) = v mod 2 ^ 32.
Proof.
  revert l. induction k as [|k IH]; intros [|w l] Hk; try done.
  - simpl in Hk. injection Hk as ->. cbn [fmap list_fmap concat].
    rewrite <- app_assoc. replace (4 * 0)%nat with 0%nat by lia. apply get_le_here.
  - simpl in Hk. cbn [fmap list_fmap concat]. rewrite <- app_assoc.
    rewrite get_le_app_r by (len). rewrite length_le_bytes.
    replace (4 * S k - 4)%nat with (4 * k)%nat by lia. by apply IH.
Qed.

(** Peel the fields in front of the one being read. *)
Ltac get_field :=
  repeat (rewrite get_le_app_r by (rewrite ?length_le_bytes; lia);
          rewrite ?length_le_bytes; cbn [Nat.sub]);
  rewrite get_le_here.

Lemma s16_mod v : - 2 ^ 15 <= v < 2 ^ 15 -> s16 (v mod 256 ^ Z.of_nat 2) = v.
Proof. intros. change (v mod 256 ^ Z.of_nat 2) with (u16 v). rewrite s16_u16. by apply s16_small. Qed.

Lemma s32_mod v : - 2 ^ 31 <= v < 2 ^ 31 -> s32 (v mod 256 ^ Z.of_nat 4) = v.
Proof. intros. change (v mod 256 ^ Z.of_nat 4) with (u32 v). rewrite s32_u32. by apply s32_small. Qed.

Lemma u32_mod v : 0 <= v < 2 ^ 32 -> v mod 256 ^ Z.of_nat 4 = v.
Proof. intros. by apply Z.mod_small. Qed.

Lemma dec_enc_dinode di pad :
  dinode_ok di -> dec_dinode (enc_dinode di ++ pad) = di.
Proof.
  intros []. unfold dec_dinode, enc_dinode. rewrite <- !app_assoc.
  destruct di as [ty ma mi nl sz ad ui gi mo]; cbn [d_type d_major d_minor d_nlink d_size
    d_addrs d_uid d_gid d_mode] in *.
  assert (Had : length (concat (le_bytes 4 <$> ad)) = 232%nat)
    by (rewrite length_concat_le, dok_len0; done).
  f_equal.
  1-4: get_field; by apply s16_mod.
  - get_field. by apply u32_mod.
  - apply list_eq. intros k. rewrite list_lookup_fmap.
    destruct (decide (k < 58)%nat) as [Hk|Hk].
    + rewrite lookup_seq_lt by done. cbn [fmap option_fmap option_map].
      rewrite Nat.add_0_l. destruct (lookup_lt_is_Some_2 ad k) as [a Ha].
      { by rewrite dok_len0. }
      rewrite Ha. f_equal.
      do 5 (rewrite get_le_app_r by (rewrite length_le_bytes; lia); rewrite length_le_bytes).
      replace (12 + 4 * k - 2 - 2 - 2 - 2 - 4)%nat with (4 * k)%nat by lia.
      erewrite get_le_concat by done.
      rewrite Forall_lookup in dok_addrs0. apply u32_mod. by eapply dok_addrs0.
    + rewrite lookup_seq_ge by (unfold NDIRECT; lia). simpl. symmetry.
      apply lookup_ge_None. rewrite dok_len0. unfold NDIRECT. lia.
  - do 5 (rewrite get_le_app_r by (rewrite length_le_bytes; lia); rewrite length_le_bytes).
    rewrite get_le_app_r by lia. rewrite Had. get_field. by apply s32_mod.
  - do 5 (rewrite get_le_app_r by (rewrite length_le_bytes; lia); rewrite length_le_bytes).
    rewrite get_le_app_r by lia. rewrite Had. get_field. by apply s32_mod.
  - do 5 (rewrite get_le_app_r by (rewrite length_le_bytes; lia); rewrite length_le_bytes).
    rewrite get_le_app_r by lia. rewrite Had. get_field. by apply s16_mod.
Qed.

Lemma get_put_dinode_same k di d :
  dinode_ok di -> length d = Z.to_nat BSIZE -> (k < 2)%nat ->
  get_dinode k (put_dinode k di d) = di.
Proof.
  intros Hdi Hd Hk. unfold get_dinode, put_dinode.
  pose proof (length_enc_dinode di (dok_len _ Hdi)) as He.
  assert (DINODE_SIZE * k + 256 <= length d)%nat by (rewrite Hd; unfold BSIZE, DINODE_SIZE; lia).
  unfold DINODE_SIZE at 2. change 256%nat with (254 + 2)%nat. rewrite slice_app.
  rewrite slice_splice_same by lia. by apply dec_enc_dinode.
Qed.

Lemma get_put_dinode_ne k j di d :
  dinode_ok di -> length d = Z.to_nat BSIZE -> (k < 2)%nat -> j <> k ->
  get_dinode j (put_dinode k di d) = get_dinode j d.
Proof.
  intros Hdi Hd Hk Hne. unfold get_dinode, put_dinode.
  pose proof (length_enc_dinode di (dok_len _ Hdi)) as He.
  rewrite slice_splice_disjoint; rewrite ?He, ?Hd; unfold BSIZE, DINODE_SIZE in *; [done|lia..].
Qed.

Lemma put_dinode_ok k di d :
  dinode_ok di -> block_ok d -> (k < 2)%nat -> block_ok (put_dinode k di d).
Proof.
  intros Hdi [Hd Hb] Hk. pose proof (length_enc_dinode di (dok_len _ Hdi)) as He. split.
  - unfold put_dinode. rewrite length_splice; [done|].
    rewrite He, Hd. unfold BSIZE, DINODE_SIZE. lia.
  - apply Forall_splice; [|done]. unfold enc_dinode. rewrite !Forall_app.
    repeat split; try apply le_bytes_ok.
    apply Forall_concat, Forall_fmap, Forall_true. intros. apply le_bytes_ok.
Qed.

(** A directory entry survives being written and read back. *)
Lemma dec_enc_dirent de :
  0 <= de_inum de < 2 ^ 16 -> length (de_name de) = DIRSIZ ->
  dec_dirent (enc_dirent de) = de.
Proof.
  intros Hi Hn. unfold dec_dirent, enc_dirent. destruct de as [i n]; cbn [de_inum de_name] in *. f_equal.
  - rewrite get_le_here. by apply Z.mod_small.
  - unfold slice. rewrite drop_app_ge by (len). rewrite length_le_bytes, Nat.sub_diag.
    rewrite drop_0. apply take_ge. by rewrite Hn.
Qed.
