(* ===== verification/Log.v ===== *)
(** * The write-ahead log

    [kernel/log.c] and [readsb] of [kernel/fs.c].  File system calls run inside
    transactions; the blocks they change are pinned in the cache and, when the
    last call of the transaction ends, copied to the log, committed by writing
    the log header, installed at their home locations, and erased from the log.

    The main result is crash atomicity ([commit_crash_atomic]): whatever prefix
    of the commit's disk writes survives a power failure, recovery leaves the
    disk either as it was before the transaction or as it is after it. *)

From S2P Require Import Prelude SleepLock Bio Layout.

Definition MAXOPBLOCKS : Z := 10.
Definition LOGSIZE : Z := 30.

Record logst := LogSt {
  lg_bio : bio;
  lg_start : Z; lg_size : Z; lg_outstanding : Z; lg_committing : bool; lg_dev : Z;
  lh_n : Z; lh_block : list Z }.

Definition set_bio (b : bio) (s : logst) : logst :=
  LogSt b (lg_start s) (lg_size s) (lg_outstanding s) (lg_committing s) (lg_dev s)
        (lh_n s) (lh_block s).
Definition set_lh (n : Z) (bl : list Z) (s : logst) : logst :=
  LogSt (lg_bio s) (lg_start s) (lg_size s) (lg_outstanding s) (lg_committing s) (lg_dev s)
        n bl.
Definition set_ops (o : Z) (c : bool) (s : logst) : logst :=
  LogSt (lg_bio s) (lg_start s) (lg_size s) o c (lg_dev s) (lh_n s) (lh_block s).
Definition set_loc (start size dev : Z) (s : logst) : logst :=
  LogSt (lg_bio s) start size (lg_outstanding s) (lg_committing s) dev (lh_n s) (lh_block s).

Definition on_bio {A} (m : M bio A) : M logst A := zoom lg_bio set_bio m.

Section ops.
Variable pid : Z.

Definition readsb (dev : Z) : M bio superblock :=
  let* bp := bread pid dev 1 in
  let* d := bdata bp in
  do* brelse pid bp in
  ret (dec_superblock d).

(** Copy committed blocks from the log to their home locations, from entry
    [tail] on ([k] are left). *)
Fixpoint install_loop (k tail : nat) : M logst unit :=
  match k with
  | O => ret tt
  | S k =>
      let* s := get in
      let* lbuf := on_bio (bread pid (lg_dev s) (u32 (lg_start s + Z.of_nat tail + 1))) in
      let* bn := deref (lh_block s !! tail) "log.lh.block" in
      let* dbuf := on_bio (bread pid (lg_dev s) (u32 bn)) in
      let* d := on_bio (bdata lbuf) in
      do* on_bio (bput dbuf d) in
      do* on_bio (bwrite pid dbuf) in
      do* on_bio (brelse pid lbuf) in
      do* on_bio (brelse pid dbuf) in
      install_loop k (S tail)
  end.

Definition install_trans : M logst unit :=
  let* s := get in install_loop (Z.to_nat (lh_n s)) 0.

(** [log.lh.block[i] = lh->block[i]]; an index past the array is a fault. *)
Fixpoint read_head_loop (k i : nat) (d : list Z) : M logst unit :=
  match k with
  | O => ret tt
  | S k =>
      let* s := get in
      if (i <? length (lh_block s))%nat then
        do* modify (set_lh (lh_n s)
              (<[i := s32 (get_le 4 (4 + 4 * i) d)]> (lh_block s))) in
        read_head_loop k (S i) d
      else fault "log.lh.block"
  end.

Definition read_head : M logst unit :=
  let* s := get in
  let* b := on_bio (bread pid (lg_dev s) (u32 (lg_start s))) in
  let* d := on_bio (bdata b) in
  let n := s32 (get_le 4 0 d) in
  do* modify (set_lh n (lh_block s)) in
  do* read_head_loop (Z.to_nat n) 0 d in
  on_bio (brelse pid b).

(** The header block [write_head] produces from the old content [d]. *)
Definition put_head (n : Z) (bl d : list Z) : list Z :=
  foldl (fun d '(i, b) => put_le 4 (4 + 4 * i) b d) (put_le 4 0 n d)
        (zip (seq 0 (length bl)) bl).

Definition write_head : M logst unit :=
  let* s := get in
  let* b := on_bio (bread pid (lg_dev s) (u32 (lg_start s))) in
  let* d := on_bio (bdata b) in
  do* on_bio (bput b (put_head (lh_n s) (take (Z.to_nat (lh_n s)) (lh_block s)) d)) in
  do* on_bio (bwrite pid b) in
  on_bio (brelse pid b).

Definition recover_from_log : M logst unit :=
  do* read_head in
  do* install_trans in
  do* modify (fun s => set_lh 0 (lh_block s) s) in
  write_head.

Definition initlog (dev : Z) : M logst unit :=
  if BSIZE <=? 4 + 4 * LOGSIZE then panic "initlog: too big logheader" else
  let* sb := on_bio (readsb dev) in
  do* modify (set_loc (s32 (sb_logstart sb)) (s32 (sb_nlog sb)) dev) in
  recover_from_log.

(** One turn of the loop in [begin_op]: sleep, or enter the transaction. *)
Definition begin_op : M logst unit :=
  let* s := get in
  if lg_committing s then sleep_on ChLog
  else if LOGSIZE <? lh_n s + (lg_outstanding s + 1) * MAXOPBLOCKS then sleep_on ChLog
  else modify (set_ops (lg_outstanding s + 1) (lg_committing s)).

(** Copy modified blocks from the cache to the log. *)
Fixpoint write_log_loop (k tail : nat) : M logst unit :=
  match k with
  | O => ret tt
  | S k =>
      let* s := get in
      let* to := on_bio (bread pid (lg_dev s) (u32 (lg_start s + Z.of_nat tail + 1))) in
      let* bn := deref (lh_block s !! tail) "log.lh.block" in
      let* from := on_bio (bread pid (lg_dev s) (u32 bn)) in
      let* d := on_bio (bdata from) in
      do* on_bio (bput to d) in
      do* on_bio (bwrite pid to) in
      do* on_bio (brelse pid from) in
      do* on_bio (brelse pid to) in
      write_log_loop k (S tail)
  end.

Definition write_log : M logst unit :=
  let* s := get in write_log_loop (Z.to_nat (lh_n s)) 0.

Definition commit : M logst unit :=
  let* s := get in
  if 0 <? lh_n s then
    do* write_log in
    do* write_head in
    do* install_trans in
    do* modify (fun s => set_lh 0 (lh_block s) s) in
    write_head
  else ret tt.

Definition end_op : M logst unit :=
  do* modify (fun s => set_ops (lg_outstanding s - 1) (lg_committing s) s) in
  let* s := get in
  if lg_committing s then panic "log.committing" else
  if lg_outstanding s =? 0 then
    do* modify (set_ops (lg_outstanding s) true) in
    do* commit in
    do* modify (fun s => set_ops (lg_outstanding s) false s) in
    wake ChLog
  else wake ChLog.

(** Index of the entry [log_write] fills: the block's, or the next free one. *)
Fixpoint absorb (blockno : Z) (bl : list Z) : nat :=
  match bl with
  | [] => O
  | b :: bl => if b =? blockno then O else S (absorb blockno bl)
  end.

Definition log_write (i : nat) : M logst unit :=
  let* s := get in
  if (LOGSIZE <=? lh_n s) || (lg_size s - 1 <=? lh_n s) then panic "too big a transaction" else
  if lg_outstanding s <? 1 then panic "log_write outside of trans" else
  let* b := on_bio (read_buf i) in
  let k := absorb (s32 (b_blockno b)) (take (Z.to_nat (lh_n s)) (lh_block s)) in
  do* modify (set_lh (if Z.of_nat k =? lh_n s then lh_n s + 1 else lh_n s)
                     (<[k := s32 (b_blockno b)]> (lh_block s))) in
  on_bio (upd_buf i (fun b => b_with_flags (Z.lor (b_flags b) B_DIRTY) b)).
End ops.

(** ** The effect of log code on the block store *)

(** Write [d] to block [x], in the cache and on the disk. *)
Definition v_write (x : Z) (d : list Z) (v : bview) : bview :=
  BView (<[x := d]> (v_blocks v)) (<[x := d]> (v_disk v)) (v_held v) (v_pend v)
        (v_dirty v ∖ {[x]}) (v_trace v ++ [(x, d)]).

Definition v_writes (ws : list (Z * list Z)) (v : bview) : bview :=
  foldl (fun v '(x, d) => v_write x d v) v ws.

(** A disk after a sequence of block writes. *)
Definition apply_writes (ws : list (Z * list Z)) (d : gmap Z (list Z)) : gmap Z (list Z) :=
  foldl (fun d '(x, b) => <[x := b]> d) d ws.

Definition vget (v : bview) (x : Z) : list Z := default zero_block (v_blocks v !! x).

Lemma v_writes_app ws ws' v : v_writes (ws ++ ws') v = v_writes ws' (v_writes ws v).
Proof. apply foldl_app. Qed.

Lemma v_writes_disk ws v : v_disk (v_writes ws v) = apply_writes ws (v_disk v).
Proof. revert v. induction ws as [|[x d] ws IH]; intros v; simpl; [done|]. by rewrite IH. Qed.

Lemma v_writes_blocks ws v : v_blocks (v_writes ws v) = apply_writes ws (v_blocks v).
Proof. revert v. induction ws as [|[x d] ws IH]; intros v; simpl; [done|]. by rewrite IH. Qed.

Lemma v_writes_trace ws v : v_trace (v_writes ws v) = v_trace v ++ ws.
Proof.
  revert v. induction ws as [|[x d] ws IH]; intros v; simpl; [by rewrite app_nil_r|].
  rewrite IH. simpl. by rewrite <- app_assoc.
Qed.

Lemma v_writes_held ws v :
  v_held (v_writes ws v) = v_held v /\ v_pend (v_writes ws v) = v_pend v.
Proof. revert v. induction ws as [|[x d] ws IH]; intros v; simpl; [done|]. apply (IH (v_write x d v)). Qed.

Lemma v_writes_dirty ws v :
  v_dirty (v_writes ws v) = v_dirty v ∖ list_to_set ws.*1.
Proof.
  revert v. induction ws as [|[x d] ws IH]; intros v; simpl; [set_solver|].
  rewrite IH. simpl. set_solver.
Qed.

Lemma apply_writes_lookup_ne ws d x :
  x ∉ ws.*1 -> apply_writes ws d !! x = d !! x.
Proof.
  revert d. induction ws as [|[y b] ws IH]; intros d Hx; simpl; [done|].
  apply not_elem_of_cons in Hx as [Hne Hx]. rewrite (IH _ Hx). simpl in Hne.
  by rewrite lookup_insert_ne.
Qed.

Lemma apply_writes_lookup ws d i x b :
  NoDup ws.*1 -> ws !! i = Some (x, b) -> apply_writes ws d !! x = Some b.
Proof.
  revert d i. induction ws as [|[y c] ws IH]; intros d i Hn Hi; simpl; [done|].
  apply NoDup_cons in Hn as [Hy Hn]. destruct i as [|i]; simpl in Hi.
  - simplify_eq. rewrite apply_writes_lookup_ne by done. by rewrite lookup_insert_eq.
  - by eapply IH.
Qed.

(** ** The log header *)

Lemma put_entries_ok k bl d :
  block_ok d -> (k + length bl <= 127)%nat ->
  block_ok (foldl (fun d '(i, b) => put_le 4 (4 + 4 * i) b d) d (zip (seq k (length bl)) bl)).
Proof.
  revert k d. induction bl as [|b bl IH]; intros k d [Hl Hb] Hk; [done|].
  cbn [length seq zip zip_with foldl] in *. apply IH; [|lia]. split.
  - rewrite length_put_le; [done|]. rewrite Hl. unfold BSIZE. lia.
  - by apply put_le_ok.
Qed.

Lemma put_entries_other k bl d off :
  block_ok d -> (k + length bl <= 127)%nat -> (off + 4 <= 4 + 4 * k)%nat ->
  get_le 4 off (foldl (fun d '(i, b) => put_le 4 (4 + 4 * i) b d) d (zip (seq k (length bl)) bl))
  = get_le 4 off d.
Proof.
  revert k d. induction bl as [|b bl IH]; intros k d Hd Hk Ho; [done|].
  pose proof Hd as [Hl Hb]. cbn [length seq zip zip_with foldl] in *.
  assert (4 + 4 * k + 4 <= length d)%nat by (rewrite Hl; unfold BSIZE; lia).
  rewrite IH; [|split; [by rewrite length_put_le|by apply put_le_ok]|lia|lia].
  by rewrite get_put_le_ne by lia.
Qed.

Lemma put_entries_get k bl d i b :
  block_ok d -> (k + length bl <= 127)%nat -> bl !! i = Some b ->
  get_le 4 (4 + 4 * (k + i))
    (foldl (fun d '(i, b) => put_le 4 (4 + 4 * i) b d) d (zip (seq k (length bl)) bl))
  = b mod 256 ^ Z.of_nat 4.
Proof.
  revert k d i. induction bl as [|c bl IH]; intros k d i Hd Hk Hi; [done|].
  pose proof Hd as [Hl Hb]. cbn [length seq zip zip_with foldl] in *.
  assert (4 + 4 * k + 4 <= length d)%nat by (rewrite Hl; unfold BSIZE; lia).
  assert (block_ok (put_le 4 (4 + 4 * k) c d))
    by (split; [by rewrite length_put_le|by apply put_le_ok]).
  destruct i as [|i]; simpl in Hi.
  - injection Hi as ->. rewrite Nat.add_0_r. rewrite put_entries_other by (done || lia).
    by apply get_put_le_same.
  - rewrite <- (IH (S k) (put_le 4 (4 + 4 * k) c d) i) by (done || lia). f_equal. lia.
Qed.

(** What a header block says: the number of logged blocks and their homes. *)
Definition head_is (d : list Z) (bl : list Z) : Prop :=
  s32 (get_le 4 0 d) = Z.of_nat (length bl) /\
  forall i b, bl !! i = Some b -> s32 (get_le 4 (4 + 4 * i) d) = b.

Lemma put_head_spec bl d :
  block_ok d -> (length bl <= Z.to_nat LOGSIZE)%nat -> Forall (fun b => 0 <= b < 2 ^ 31) bl ->
  block_ok (put_head (Z.of_nat (length bl)) bl d) /\
  head_is (put_head (Z.of_nat (length bl)) bl d) bl.
Proof.
  intros Hd Hn Hbl. unfold put_head, LOGSIZE in *.
  assert (Hd' : block_ok (put_le 4 0 (Z.of_nat (length bl)) d)).
  { destruct Hd as [Hl ?]. split; [|by apply put_le_ok].
    rewrite length_put_le; [done|]. rewrite Hl. unfold BSIZE. lia. }
  split; [apply put_entries_ok; [done|lia]|]. split.
  - rewrite put_entries_other by (done || lia).
    rewrite get_put_le_same by (destruct Hd as [-> _]; unfold BSIZE; lia). apply s32_mod. lia.
  - intros i b Hi. rewrite (put_entries_get 0 bl _ i b) by (done || lia).
    rewrite Forall_lookup in Hbl. apply Hbl in Hi. apply s32_mod. lia.
Qed.

Section specs.
Variable pid : Z.

Abbreviation rep := (bio_rep pid).

Lemma wp_on_bio {A} (m : M bio A) (R : A -> bio -> Prop) (Q : A -> logst -> Prop) s :
  wp m R (lg_bio s) -> (forall a b, R a b -> Q a (set_bio b s)) -> wp (on_bio m) Q s.
Proof. intros Hm HQ. apply wp_zoom. by eapply wp_mono. Qed.

(** Only the block store has changed since [s0]. *)
Definition only_bio (s0 : logst) (v : bview) (s : logst) : Prop :=
  s = set_bio (lg_bio s) s0 /\ rep (lg_bio s) v /\ dk_size (lg_bio s) = dk_size (lg_bio s0).

Lemma only_bio_trans s0 s1 v1 s2 v2 :
  only_bio s0 v1 s1 -> only_bio s1 v2 s2 -> only_bio s0 v2 s2.
Proof. intros (-> & _ & Hd1) (-> & ? & Hd2). split; [done|]. split; [done|]. simpl in *. congruence. Qed.

(** Idle: the process holds no buffer and has no unlogged change. *)
Definition idle (v : bview) : Prop := v_held v = ∅ /\ v_pend v = ∅.

(** Two views with the same fields, up to laws of maps and sets. *)
Ltac view_eq :=
  unfold v_drop, v_sync, v_put, v_mark, v_take, v_write; simpl;
  f_equal; try done;
  first [ apply map_eq; intros ?; rewrite ?lookup_delete, ?lookup_insert, ?lookup_empty;
          repeat case_decide; congruence
        | set_solver ].

(** Take two buffers, overwrite one with the other's content and write it
    through, release both: the net effect is one block write. *)
Lemma v_copy_effect v x y i j d :
  idle v -> x <> y ->
  v_drop x (v_drop y (v_sync x d (v_put x d (v_take x j (v_take y i v))))) = v_write x d v /\
  v_drop x (v_drop y (v_sync x d (v_put x d (v_take y j (v_take x i v))))) = v_write x d v.
Proof.
  destruct v as [bl dk h p dy tr]. intros [Hh Hp] Hne. simpl in Hh, Hp. subst.
  split; view_eq.
Qed.

Lemma vget_lookup v x d : v_blocks v !! x = Some d -> vget v x = d.
Proof. unfold vget. by intros ->. Qed.

(** Side conditions under which block [x] can be read by an idle process. *)
Lemma take_first v s x :
  rep s v -> idle v -> 0 <= x < dk_size s -> (size (v_dirty v) < NBUF)%nat ->
  wp (bread pid ROOTDEV x) (fun i s' => rep s' (v_take x i v) /\ dk_size s' = dk_size s) s.
Proof.
  intros H [Hh _] Hx Hsz. apply bread_spec; try done.
  - by rewrite Hh.
  - right. rewrite Hh, dom_empty_L. by rewrite union_empty_l_L.
Qed.

Lemma take_second v s x y i :
  rep s (v_take y i v) -> idle v -> x <> y -> 0 <= x < dk_size s ->
  (x ∈ v_dirty v \/ S (size (v_dirty v)) < NBUF)%nat ->
  wp (bread pid ROOTDEV x)
     (fun j s' => rep s' (v_take x j (v_take y i v)) /\ dk_size s' = dk_size s) s.
Proof.
  intros H [Hh _] Hne Hx Hsz. apply bread_spec; try done.
  - simpl. rewrite lookup_insert_ne by done. by rewrite Hh.
  - simpl. destruct Hsz as [?|Hsz]; [by left|right]. rewrite Hh, dom_insert_L, dom_empty_L.
    rewrite union_empty_r_L. rewrite size_union_alt, size_singleton.
    assert (size (v_dirty v ∖ {[y]}) <= size (v_dirty v))%nat by (apply subseteq_size; set_solver).
    lia.
Qed.

(** The buffer operations, run from the log layer. *)
Section lifted.
Context (s0 s : logst) (v : bview) (Hs : only_bio s0 v s).

Lemma lift_spec {A} (m : M bio A) (f : A -> bview) :
  wp m (fun a b => rep b (f a) /\ dk_size b = dk_size (lg_bio s)) (lg_bio s) ->
  wp (on_bio m) (fun a s' => only_bio s0 (f a) s') s.
Proof.
  intros Hm. eapply wp_on_bio; [done|]. intros a b [Hb Hd]. destruct Hs as (-> & _ & Hsz).
  split; [done|]. split; [done|]. simpl in *. congruence.
Qed.

Lemma l_bdata x i :
  v_held v !! x = Some i ->
  wp (on_bio (bdata i))
     (fun d s' => s' = s /\ v_blocks v !! x = Some d /\ block_ok d) s.
Proof.
  intros Hx. eapply wp_on_bio; [by eapply bdata_spec; [apply Hs|]|].
  intros d b (-> & ? & ?). destruct s. done.
Qed.

Lemma l_bput x i d :
  v_held v !! x = Some i -> block_ok d ->
  wp (on_bio (bput i d)) (fun _ s' => only_bio s0 (v_put x d v) s') s.
Proof. intros. apply (lift_spec _ (fun _ => _)). by apply bput_spec; [apply Hs| |]. Qed.

Lemma l_bwrite x i d :
  v_held v !! x = Some i -> v_blocks v !! x = Some d ->
  wp (on_bio (bwrite pid i)) (fun _ s' => only_bio s0 (v_sync x d v) s') s.
Proof. intros. apply (lift_spec _ (fun _ => _)). by apply bwrite_spec; [apply Hs| |]. Qed.

Lemma l_brelse x i :
  v_held v !! x = Some i -> x ∉ v_pend v ->
  wp (on_bio (brelse pid i)) (fun _ s' => only_bio s0 (v_drop x v) s') s.
Proof. intros. apply (lift_spec _ (fun _ => _)). by apply brelse_spec; [apply Hs| |]. Qed.
End lifted.

(** Where the log is, and that entry [i] of the in-memory header names a home
    block. *)
Definition in_log (s : logst) (x : Z) : Prop := lg_start s <= x < lg_start s + lg_size s.

Record log_geo (s : logst) : Prop := {
  lg_is_root : lg_dev s = ROOTDEV;
  lg_inside : 0 <= lg_start s /\ 1 <= lg_size s /\
              lg_start s + lg_size s <= dk_size (lg_bio s) /\ dk_size (lg_bio s) < 2 ^ 31;
  lg_len : length (lh_block s) = Z.to_nat LOGSIZE }.

Definition home_block (s : logst) (x : Z) : Prop :=
  0 <= x < dk_size (lg_bio s) /\ ~ in_log s x.

Definition slot (s : logst) (i : nat) : Z := lg_start s + Z.of_nat i + 1.

(** Entries [tail .. tail+k) of the header name home blocks and have slots. *)
Definition entries_ok (s : logst) (tail k : nat) : Prop :=
  Z.of_nat (tail + k) < lg_size s /\
  forall i, (tail <= i < tail + k)%nat ->
    exists b, lh_block s !! i = Some b /\ home_block s b.

Definition entry (s : logst) (i : nat) : Z := default 0 (lh_block s !! i).

Definition install_writes (s : logst) (v : bview) (tail k : nat) : list (Z * list Z) :=
  (fun i => (entry s i, vget v (slot s i))) <$> seq tail k.
Definition log_writes (s : logst) (v : bview) (tail k : nat) : list (Z * list Z) :=
  (fun i => (slot s i, vget v (entry s i))) <$> seq tail k.

Lemma lookup_take x i v : v_held (v_take x i v) !! x = Some i.
Proof. apply lookup_insert_eq. Qed.

(** Program fragment shared by [install_trans] ([first] is the log block) and
    [write_log] ([first] is the block written). *)
Lemma copy_step {B} s0 s v src dst d (m : M logst B) Q (i j : nat) w :
  only_bio s0 w s ->
  w = v_take dst j (v_take src i v) \/ w = v_take src i (v_take dst j v) ->
  idle v -> src <> dst -> v_blocks v !! src = Some d ->
  (forall s', only_bio s0 (v_write dst d v) s' -> wp m Q s') ->
  wp (let* d := on_bio (bdata i) in
      do* on_bio (bput j d) in
      do* on_bio (bwrite pid j) in
      do* on_bio (brelse pid i) in
      do* on_bio (brelse pid j) in m) Q s.
Proof.
  intros Hs Hw [Hh Hp] Hne Hd HQ.
  assert (v_held w !! src = Some i /\ v_held w !! dst = Some j /\
          v_blocks w = v_blocks v /\ v_pend w = v_pend v) as (Hi & Hj & Hb & Hpw).
  { destruct Hw as [-> | ->]; simpl; rewrite ?lookup_insert_eq;
      rewrite ?lookup_insert_ne, ?lookup_insert_eq by done; done. }
  eapply wp_seq; [by eapply (l_bdata _ _ _ Hs src)|]. intros d' s1 (-> & Hd' & Hok).
  assert (d' = d) as -> by congruence.
  eapply wp_seq; [by eapply (l_bput _ _ _ Hs dst)|]. intros [] s2 Hs2.
  eapply wp_seq; [eapply (l_bwrite _ _ _ Hs2 dst); [done|apply lookup_insert_eq]|].
  intros [] s3 Hs3.
  eapply wp_seq; [eapply (l_brelse _ _ _ Hs3 src); [done|simpl; rewrite Hpw, Hp; set_solver]|].
  intros [] s4 Hs4.
  eapply wp_seq; [eapply (l_brelse _ _ _ Hs4 dst); simpl|].
  - by rewrite lookup_delete_ne.
  - rewrite Hpw, Hp. set_solver.
  - intros [] s5 Hs5. apply HQ.
    destruct (v_copy_effect v dst src i j d (conj Hh Hp) ltac:(done)) as [E1 _].
    destruct (v_copy_effect v dst src j i d (conj Hh Hp) ltac:(done)) as [_ E2].
    destruct Hw as [-> | ->]; [by rewrite <- E1|by rewrite <- E2].
Qed.

Lemma size_remove (X : gset Z) x : (size (X ∖ {[x]}) <= size X)%nat.
Proof. apply subseteq_size. set_solver. Qed.

Lemma size_remove_in (X : gset Z) x : x ∈ X -> (S (size (X ∖ {[x]})) <= size X)%nat.
Proof.
  intros. rewrite (size_difference X {[x]}) by set_solver. rewrite size_singleton.
  assert (size X <> 0%nat); [|lia]. rewrite size_non_empty_iff. set_solver.
Qed.

Lemma slot_geo s i :
  log_geo s -> Z.of_nat i + 1 < lg_size s ->
  0 <= slot s i < dk_size (lg_bio s) /\ in_log s (slot s i) /\ u32 (slot s i) = slot s i.
Proof.
  intros [_ Hin _] Hi. unfold slot, in_log. repeat split; try lia.
  apply u32_small. lia.
Qed.

Lemma vget_write_ne x d v y : y <> x -> vget (v_write x d v) y = vget v y.
Proof. intros. unfold vget. simpl. by rewrite lookup_insert_ne. Qed.

Lemma rep_block s v x : rep s v -> 0 <= x < dk_size s -> v_blocks v !! x = Some (vget v x).
Proof.
  intros H Hx. unfold vget. destruct (v_blocks v !! x) as [d|] eqn:E; [done|].
  (* an uncached block has its disk content, a cached one the buffer's *)
  assert (Hnc : forall i, ~ caches (bc_buf s) i x).
  { intros i (b & Hb & Hd & Hn). pose proof (br_bufs _ _ _ H _ _ Hb) as Hr.
    unfold buf_rep in Hr. rewrite decide_True, Hn in Hr by done. naive_solver. }
  pose proof (br_uncached _ _ _ H x Hnc) as Hu. apply (br_range _ _ _ H) in Hx as [d Hd].
  congruence.
Qed.

Lemma only_bio_geo s v s' : log_geo s -> only_bio s v s' -> log_geo s'.
Proof. intros [] (Hs & _ & Hd). rewrite Hs. constructor; simpl; rewrite ?Hd; done. Qed.

Lemma only_bio_fields s v s' :
  only_bio s v s' -> lg_start s' = lg_start s /\ lg_size s' = lg_size s /\
    lg_dev s' = lg_dev s /\ lh_n s' = lh_n s /\ lh_block s' = lh_block s /\
    lg_outstanding s' = lg_outstanding s /\ lg_committing s' = lg_committing s /\
    dk_size (lg_bio s') = dk_size (lg_bio s).
Proof. intros (-> & _ & ?). done. Qed.

Lemma entries_ok_S s s' v tail k :
  only_bio s v s' -> entries_ok s tail (S k) -> entries_ok s' (S tail) k.
Proof.
  intros (E1 & E2 & _ & _ & E5 & _ & _ & E6)%only_bio_fields [H1 H2]. split.
  - rewrite E2. lia.
  - intros i Hi. unfold home_block, in_log in *. rewrite E1, E2, E5, E6. apply H2. lia.
Qed.

(** Reading two distinct blocks [x] and [y] from an idle state. *)
Lemma take_two {B} s v x y (k : nat -> nat -> M logst B) Q :
  rep (lg_bio s) v -> idle v -> lg_dev s = ROOTDEV -> x <> y ->
  0 <= x < dk_size (lg_bio s) -> 0 <= y < dk_size (lg_bio s) ->
  dk_size (lg_bio s) < 2 ^ 31 ->
  (size (v_dirty v) < NBUF)%nat ->
  (y ∈ v_dirty v \/ (S (size (v_dirty v)) < NBUF)%nat) ->
  (forall i j s', only_bio s (v_take y j (v_take x i v)) s' -> wp (k i j) Q s') ->
  wp (let* i := on_bio (bread pid (lg_dev s) (u32 x)) in
      let* bn := deref (Some y) "log.lh.block" in
      let* j := on_bio (bread pid (lg_dev s) (u32 bn)) in k i j) Q s.
Proof.
  intros H Hi Hdev Hne Hx Hy Hsz Hn Hd HQ. rewrite Hdev, (u32_small x) by lia.
  assert (Hs0 : only_bio s v s) by (by destruct s).
  eapply wp_seq; [eapply (lift_spec s s v Hs0 _ (fun i => v_take x i v)); by apply take_first|].
  intros i s1 Hs1. wp_step. eapply wp_deref; [done|]. rewrite (u32_small y) by lia.
  pose proof (only_bio_fields _ _ _ Hs1) as (_ & _ & _ & _ & _ & _ & _ & Hd1).
  eapply wp_seq; [eapply (lift_spec s s1 _ Hs1 _ (fun j => v_take y j (v_take x i v)))|].
  - apply take_second; rewrite ?Hd1; try done. apply Hs1.
  - intros j s2 Hs2. by apply HQ.
Qed.

Lemma install_loop_spec k tail s v :
  rep (lg_bio s) v -> idle v -> log_geo s -> entries_ok s tail k ->
  (size (v_dirty v) < NBUF)%nat ->
  (entry s tail ∈ v_dirty v \/ (S (size (v_dirty v)) < NBUF)%nat) ->
  wp (install_loop pid k tail)
     (fun _ s' => only_bio s (v_writes (install_writes s v tail k) v) s') s.
Proof.
  revert tail s v. induction k as [|k IH]; intros tail s v H Hi Hg He Hsz Hd.
  { simpl. wp_step. by destruct s. }
  cbn [install_loop]. wp_step. wp_step.
  destruct (proj2 He tail) as (bn & Hbn & [Hbr Hbl]); [lia|].
  destruct (slot_geo s tail Hg) as (Hsr & Hsl & _); [destruct He; lia|].
  assert (bn <> slot s tail) as Hne by (by intros ->).
  assert (entry s tail = bn) as Hen by (unfold entry; by rewrite Hbn).
  rewrite Hen in Hd. rewrite Hbn.
  apply (take_two s v (slot s tail) bn); try done; try apply Hg.
  intros i j s2 Hs2.
  apply (copy_step s s2 v (slot s tail) bn (vget v (slot s tail)) _ _ i j _ Hs2);
    [by left|done|done|by eapply rep_block|].
  intros s3 Hs3. pose proof (only_bio_fields _ _ _ Hs3) as (F1 & F2 & F3 & F4 & F5 & _).
  set (v' := v_write bn (vget v (slot s tail)) v) in *.
  assert (Hw : install_writes s3 v' (S tail) k = install_writes s v (S tail) k).
  { unfold install_writes. apply list_fmap_ext. intros x y Hxy.
    apply lookup_seq in Hxy as [-> Hx]. unfold entry, slot. rewrite F1, F5. f_equal.
    apply vget_write_ne. intros E.
    destruct (slot_geo s (S tail + x) Hg) as (_ & Hin & _); [destruct He; lia|].
    apply Hbl. rewrite <- E. exact Hin. }
  eapply wp_mono; [apply (IH (S tail) s3 v'); try done|].
  - apply Hs3.
  - by eapply only_bio_geo.
  - by eapply entries_ok_S.
  - simpl. pose proof (size_remove (v_dirty v) bn). lia.
  - right. simpl. destruct Hd as [Hd|Hd].
    + pose proof (size_remove_in _ _ Hd). lia.
    + pose proof (size_remove (v_dirty v) bn). lia.
  - intros [] s4 Hs4. rewrite Hw in Hs4.
    cbn [install_writes seq fmap list_fmap v_writes foldl]. rewrite Hen.
    by eapply only_bio_trans.
Qed.

Lemma write_log_loop_spec k tail s v :
  rep (lg_bio s) v -> idle v -> log_geo s -> entries_ok s tail k ->
  (size (v_dirty v) < NBUF)%nat ->
  (forall i, (tail <= i < tail + k)%nat -> entry s i ∈ v_dirty v) ->
  (forall i, (tail <= i < tail + k)%nat -> slot s i ∉ v_dirty v) ->
  wp (write_log_loop pid k tail)
     (fun _ s' => only_bio s (v_writes (log_writes s v tail k) v) s') s.
Proof.
  revert tail s v. induction k as [|k IH]; intros tail s v H Hi Hg He Hsz Hd Hnd.
  { simpl. wp_step. by destruct s. }
  cbn [write_log_loop]. wp_step. wp_step.
  destruct (proj2 He tail) as (bn & Hbn & [Hbr Hbl]); [lia|].
  destruct (slot_geo s tail Hg) as (Hsr & Hsl & _); [destruct He; lia|].
  assert (bn <> slot s tail) as Hne by (by intros ->).
  assert (entry s tail = bn) as Hen by (unfold entry; by rewrite Hbn).
  rewrite Hbn.
  apply (take_two s v (slot s tail) bn); try done; try apply Hg.
  { left. rewrite <- Hen. apply Hd. lia. }
  intros i j s2 Hs2.
  apply (copy_step s s2 v bn (slot s tail) (vget v bn) _ _ j i _ Hs2);
    [by right|done|done|by eapply rep_block|].
  intros s3 Hs3. pose proof (only_bio_fields _ _ _ Hs3) as (F1 & F2 & F3 & F4 & F5 & _).
  set (v' := v_write (slot s tail) (vget v bn) v) in *.
  assert (Hw : log_writes s3 v' (S tail) k = log_writes s v (S tail) k).
  { unfold log_writes. apply list_fmap_ext. intros x y Hxy.
    apply lookup_seq in Hxy as [-> Hx]. unfold entry, slot. rewrite F1, F5. f_equal.
    apply vget_write_ne. intros E. destruct (proj2 He (S tail + x)%nat) as (b & Hb & _ & Hbl2); [lia|].
    apply Hbl2. rewrite Hb in E. simpl in E. by rewrite E. }
  assert (Hdy : v_dirty v' = v_dirty v).
  { simpl. specialize (Hnd tail). set_solver by lia. }
  eapply wp_mono; [apply (IH (S tail) s3 v'); try done; rewrite ?Hdy; try done|].
  - apply Hs3.
  - by eapply only_bio_geo.
  - by eapply entries_ok_S.
  - intros x Hx. unfold entry. rewrite F5. apply Hd. lia.
  - intros x Hx. unfold slot. rewrite F1. apply Hnd. lia.
  - intros [] s4 Hs4. rewrite Hw in Hs4.
    cbn [log_writes seq fmap list_fmap v_writes foldl]. rewrite Hen.
    by eapply only_bio_trans.
Qed.

(** *** Header writes *)

Definition live_entries (s : logst) : list Z := take (Z.to_nat (lh_n s)) (lh_block s).

Lemma v_write_effect v x i d :
  idle v -> v_drop x (v_sync x d (v_put x d (v_take x i v))) = v_write x d v.
Proof.
  destruct v as [bl dk h p dy tr]. intros [Hh Hp]. simpl in Hh, Hp. subst. view_eq.
Qed.

Lemma start_geo s :
  log_geo s -> 0 <= lg_start s < dk_size (lg_bio s) /\ u32 (lg_start s) = lg_start s.
Proof. intros [_ Hin _]. split; [lia|]. apply u32_small. lia. Qed.

Lemma write_head_spec s v :
  rep (lg_bio s) v -> idle v -> log_geo s -> (size (v_dirty v) < NBUF)%nat ->
  lh_n s = Z.of_nat (length (live_entries s)) ->
  Forall (fun b => 0 <= b < 2 ^ 31) (live_entries s) ->
  wp (write_head pid)
     (fun _ s' => only_bio s (v_write (lg_start s)
        (put_head (lh_n s) (live_entries s) (vget v (lg_start s))) v) s') s.
Proof.
  intros H Hi Hg Hsz Hn Hbl. unfold write_head. wp_step. wp_step.
  destruct (start_geo s Hg) as [Hst ->]. rewrite (lg_is_root _ Hg).
  assert (Hs0 : only_bio s v s) by (by destruct s).
  eapply wp_seq;
    [eapply (lift_spec s s v Hs0 _ (fun i => v_take (lg_start s) i v)); by apply take_first|].
  intros i s1 Hs1.
  eapply wp_seq; [eapply (l_bdata _ _ _ Hs1 (lg_start s)); apply lookup_take|].
  intros d s2 (-> & Hd & Hok). simpl in Hd.
  assert (vget v (lg_start s) = d) as -> by (by apply vget_lookup).
  assert (Hlen : (length (live_entries s) <= Z.to_nat LOGSIZE)%nat).
  { unfold live_entries. rewrite length_take, (lg_len _ Hg). lia. }
  assert (Hok' : block_ok (put_head (lh_n s) (live_entries s) d)).
  { rewrite Hn. by apply put_head_spec. }
  fold (live_entries s).
  eapply wp_seq; [eapply (l_bput _ _ _ Hs1 (lg_start s)); [apply lookup_take|done]|].
  intros [] s3 Hs3.
  eapply wp_seq; [eapply (l_bwrite _ _ _ Hs3 (lg_start s));
                  [apply lookup_take|apply lookup_insert_eq]|].
  intros [] s4 Hs4.
  eapply wp_mono; [eapply (l_brelse _ _ _ Hs4 (lg_start s)); [apply lookup_take|]|].
  - simpl. destruct Hi as [_ ->]. set_solver.
  - intros [] s5 Hs5. by rewrite v_write_effect in Hs5.
Qed.

(** *** Commit *)

(** A consistent log between file system calls: the dirty blocks are exactly
    the logged ones, all home blocks, and the log on disk is empty. *)
Record log_rep (s : logst) (v : bview) : Prop := {
  lr_bio : rep (lg_bio s) v;
  lr_geo : log_geo s;
  lr_n : lh_n s = Z.of_nat (length (live_entries s));
  lr_fits : lh_n s < lg_size s;
  lr_nodup : NoDup (live_entries s);
  lr_dirty : forall x, x ∈ v_dirty v <-> x ∈ live_entries s;
  lr_home : forall x, x ∈ live_entries s -> home_block s x;
  lr_head : exists d, v_disk v !! lg_start s = Some d /\ head_is d [] }.

Definition commit_head (s : logst) (v : bview) : list Z :=
  put_head (lh_n s) (live_entries s) (vget v (lg_start s)).

Definition home_writes (s : logst) (v : bview) : list (Z * list Z) :=
  (fun x => (x, vget v x)) <$> live_entries s.

(** The disk writes of a commit, in order. *)
Definition commit_trace (s : logst) (v : bview) : list (Z * list Z) :=
  log_writes s v 0 (length (live_entries s)) ++ [(lg_start s, commit_head s v)] ++
  home_writes s v ++ [(lg_start s, put_head 0 [] (commit_head s v))].

Lemma live_lookup s i b :
  live_entries s !! i = Some b -> lh_block s !! i = Some b /\ entry s i = b.
Proof.
  unfold live_entries, entry. intros [Hi _]%lookup_take_Some. by rewrite Hi.
Qed.

Lemma entry_live s i : (i < length (live_entries s))%nat ->
  live_entries s !! i = Some (entry s i).
Proof.
  intros Hi. destruct (lookup_lt_is_Some_2 _ _ Hi) as [b Hb].
  by rewrite (proj2 (live_lookup s i b Hb)).
Qed.

Lemma log_rep_size s v : log_rep s v -> size (v_dirty v) = length (live_entries s).
Proof.
  intros H. rewrite <- (size_list_to_set (C := gset Z) (live_entries s)) by apply H.
  f_equal. apply set_eq. intros x. rewrite elem_of_list_to_set. apply H.
Qed.

Lemma log_rep_entries s v : log_rep s v -> entries_ok s 0 (length (live_entries s)).
Proof.
  intros H. split.
  - pose proof (lr_n _ _ H). pose proof (lr_fits _ _ H). lia.
  - intros i Hi. pose proof (entry_live s i ltac:(lia)) as He. exists (entry s i).
    split; [by apply live_lookup|]. apply (lr_home _ _ H). by eapply list_elem_of_lookup_2.
Qed.

Lemma log_rep_slot_clean s v i :
  log_rep s v -> (i < length (live_entries s))%nat -> slot s i ∉ v_dirty v.
Proof.
  intros H Hi Hin%(lr_dirty _ _ H)%(lr_home _ _ H). destruct Hin as [_ Hn]. apply Hn.
  apply (slot_geo s i (lr_geo _ _ H)). pose proof (lr_n _ _ H). pose proof (lr_fits _ _ H). lia.
Qed.

Lemma vget_writes_ne ws v x : x ∉ ws.*1 -> vget (v_writes ws v) x = vget v x.
Proof. intros. unfold vget. by rewrite v_writes_blocks, apply_writes_lookup_ne. Qed.

Lemma log_writes_fst s v tail k : (log_writes s v tail k).*1 = slot s <$> seq tail k.
Proof. unfold log_writes. rewrite <- list_fmap_compose. done. Qed.

Lemma slot_inj s i j : slot s i = slot s j -> i = j.
Proof. unfold slot. lia. Qed.

Lemma log_writes_nodup s v tail k : NoDup (log_writes s v tail k).*1.
Proof.
  rewrite log_writes_fst. apply (NoDup_fmap_2_strong (slot s)); [|apply NoDup_seq].
  intros x y _ _. apply slot_inj.
Qed.

Lemma vget_log_writes s v k i :
  (i < k)%nat -> vget (v_writes (log_writes s v 0 k) v) (slot s i) = vget v (entry s i).
Proof.
  intros Hi. unfold vget at 1. rewrite v_writes_blocks.
  erewrite (apply_writes_lookup _ _ i); [done|apply log_writes_nodup|].
  unfold log_writes. rewrite list_lookup_fmap, lookup_seq_lt by done. done.
Qed.

(** After the log and the header are written, installing copies each logged
    block's content to its home. *)
Lemma install_after_log s v :
  log_rep s v ->
  install_writes s (v_write (lg_start s) (commit_head s v)
     (v_writes (log_writes s v 0 (length (live_entries s))) v)) 0 (length (live_entries s))
  = home_writes s v.
Proof.
  intros H. unfold install_writes, home_writes. apply list_eq. intros i.
  rewrite !list_lookup_fmap. destruct (decide (i < length (live_entries s))%nat) as [Hi|Hi].
  - rewrite lookup_seq_lt, entry_live by done. cbn [fmap option_fmap option_map].
    rewrite Nat.add_0_l. do 2 f_equal.
    rewrite vget_write_ne by (unfold slot; lia). by apply vget_log_writes.
  - rewrite lookup_seq_ge by lia. by rewrite lookup_ge_None_2 by lia.
Qed.

Lemma live_entries_eq s v s' : only_bio s v s' -> live_entries s' = live_entries s.
Proof. intros (-> & _). done. Qed.

Lemma commit_head_eq s v v' s' :
  only_bio s v' s' -> vget v' (lg_start s) = vget v (lg_start s) ->
  put_head (lh_n s') (live_entries s') (vget v' (lg_start s')) = commit_head s v.
Proof. intros (-> & _) Hv. unfold commit_head. simpl. by rewrite Hv. Qed.

Lemma start_not_slot s tail k v : lg_start s ∉ (log_writes s v tail k).*1.
Proof.
  rewrite log_writes_fst, list_elem_of_fmap. intros (i & Hi & _). unfold slot in Hi. lia.
Qed.

Lemma home_writes_fst s v : (home_writes s v).*1 = live_entries s.
Proof. unfold home_writes. rewrite <- list_fmap_compose. apply list_fmap_id. Qed.

Lemma start_not_home s v : log_rep s v -> lg_start s ∉ live_entries s.
Proof.
  intros H Hin%(lr_home _ _ H). destruct Hin as [_ Hn]. apply Hn.
  destruct (lr_geo _ _ H). unfold in_log. lia.
Qed.

Lemma live_range s v : log_rep s v -> Forall (fun b => 0 <= b < 2 ^ 31) (live_entries s).
Proof.
  intros H. apply Forall_forall. intros x Hx%(lr_home _ _ H).
  destruct Hx, (lr_geo _ _ H). lia.
Qed.

(** First half of a commit: everything up to and including the header write
    that makes it durable. *)
Definition committed_view (s : logst) (v : bview) : bview :=
  v_write (lg_start s) (commit_head s v)
    (v_writes (log_writes s v 0 (length (live_entries s))) v).

Lemma committed_dirty s v : log_rep s v -> v_dirty (committed_view s v) = v_dirty v.
Proof.
  intros H. unfold committed_view. simpl. rewrite v_writes_dirty, log_writes_fst.
  apply set_eq. intros x. rewrite !elem_of_difference, elem_of_list_to_set, list_elem_of_fmap.
  rewrite elem_of_singleton. split; [tauto|]. intros Hx. repeat split; [done| |].
  - intros (i & -> & Hi%elem_of_seq). eapply log_rep_slot_clean; [done| |done]. lia.
  - intros ->. apply (start_not_home s v H). by apply (lr_dirty _ _ H).
Qed.

Lemma commit_first_half s v :
  log_rep s v -> idle v -> lh_n s < Z.of_nat NBUF ->
  wp (do* write_log pid in write_head pid)
     (fun _ s' => only_bio s (committed_view s v) s') s.
Proof.
  intros H Hi Hn. pose proof (lr_geo _ _ H) as Hg. pose proof (log_rep_size _ _ H) as Hsz.
  pose proof (lr_n _ _ H) as Hlen. pose proof (live_range _ _ H) as Hle.
  unfold write_log. wp_step. wp_step. wp_step. rewrite Hlen, Nat2Z.id.
  eapply wp_mono; [apply (write_log_loop_spec _ _ s v); try done; try lia|].
  { apply H. }
  { by eapply log_rep_entries. }
  { intros i Hi'. apply (lr_dirty _ _ H). eapply list_elem_of_lookup_2, entry_live. lia. }
  { intros i Hi'. apply log_rep_slot_clean; [done|lia]. }
  intros [] s1 Hs1. set (v1 := v_writes _ v) in *.
  eapply wp_mono; [apply (write_head_spec s1 v1)|].
  - apply Hs1.
  - unfold idle, v1. by rewrite !(proj1 (v_writes_held _ _)), !(proj2 (v_writes_held _ _)).
  - by eapply only_bio_geo.
  - unfold v1. rewrite v_writes_dirty.
    assert (size (v_dirty v ∖ list_to_set (log_writes s v 0
      (length (live_entries s))).*1) <= size (v_dirty v))%nat
      by (apply subseteq_size; set_solver). lia.
  - rewrite (live_entries_eq _ _ _ Hs1).
    by destruct (only_bio_fields _ _ _ Hs1) as (_ & _ & _ & -> & _).
  - by rewrite (live_entries_eq _ _ _ Hs1).
  - intros [] s2 Hs2. rewrite (commit_head_eq s v) in Hs2; [|done|].
    + destruct (only_bio_fields _ _ _ Hs1) as (E & _). rewrite E in Hs2.
      by eapply only_bio_trans.
    + unfold v1. by rewrite vget_writes_ne by apply start_not_slot.
Qed.

Lemma idle_writes ws v : idle v -> idle (v_writes ws v).
Proof. unfold idle. by rewrite (proj1 (v_writes_held ws v)), (proj2 (v_writes_held ws v)). Qed.

Lemma committed_idle s v : idle v -> idle (committed_view s v).
Proof. intros H. exact (idle_writes (log_writes s v 0 (length (live_entries s))) v H). Qed.

(** Last step of a commit: erase the transaction. *)
Lemma commit_last_write s v s3 :
  log_rep s v -> idle v -> lh_n s < Z.of_nat NBUF ->
  only_bio s (v_writes (home_writes s v) (committed_view s v)) s3 ->
  wp (write_head pid)
     (fun _ s' => only_bio (set_lh 0 (lh_block s) s) (v_writes (commit_trace s v) v) s')
     (set_lh 0 (lh_block s3) s3).
Proof.
  intros H Hi Hn Hs3. pose proof (log_rep_size _ _ H) as Hsz. pose proof (lr_n _ _ H) as Hlen.
  set (v3 := v_writes (home_writes s v) (committed_view s v)) in *.
  assert (Hs4 : only_bio (set_lh 0 (lh_block s) s) v3 (set_lh 0 (lh_block s3) s3)).
  { destruct Hs3 as (-> & ? & ?). done. }
  eapply wp_mono; [apply (write_head_spec _ v3)|].
  - apply Hs4.
  - by apply idle_writes, committed_idle.
  - eapply only_bio_geo; [|done]. by destruct (lr_geo _ _ H).
  - unfold v3. rewrite v_writes_dirty, (committed_dirty s v H).
    assert (size (v_dirty v ∖ list_to_set (home_writes s v).*1) <= size (v_dirty v))%nat
      by (apply subseteq_size; set_solver). lia.
  - done.
  - constructor.
  - intros [] s5 Hs5. unfold live_entries in Hs5. simpl in Hs5.
    pose proof (only_bio_trans _ _ _ _ _ Hs4 Hs5) as Hs6.
    assert (lg_start s3 = lg_start s) as E by apply (only_bio_fields _ _ _ Hs3).
    assert (vget v3 (lg_start s) = commit_head s v) as E2.
    { unfold v3. rewrite vget_writes_ne.
      - unfold vget, committed_view. simpl. by rewrite lookup_insert_eq.
      - rewrite home_writes_fst. by eapply start_not_home. }
    rewrite E, E2 in Hs6. unfold commit_trace. rewrite !v_writes_app. exact Hs6.
Qed.

Lemma commit_spec s v :
  log_rep s v -> idle v -> 0 < lh_n s < Z.of_nat NBUF ->
  wp (commit pid)
     (fun _ s' => only_bio (set_lh 0 (lh_block s) s) (v_writes (commit_trace s v) v) s') s.
Proof.
  intros H Hi Hn. pose proof (lr_geo _ _ H) as Hg. pose proof (log_rep_size _ _ H) as Hsz.
  pose proof (lr_n _ _ H) as Hlen. pose proof (committed_dirty _ _ H) as Hdy.
  unfold commit. wp_step. wp_step. destruct (Z.ltb_spec 0 (lh_n s)); [|lia].
  pose proof (commit_first_half s v H Hi ltac:(lia)) as Hfirst.
  apply wp_bind in Hfirst. apply wp_bind. eapply wp_mono; [exact Hfirst|].
  intros [] s1 Hs1. apply wp_bind. eapply wp_mono; [exact Hs1|]. clear Hfirst Hs1.
  intros [] s2 Hs2. pose proof (only_bio_fields _ _ _ Hs2) as (E1 & E2 & E3 & E4 & E5 & _).
  unfold install_trans. wp_step. wp_step. wp_step. rewrite E4, Hlen, Nat2Z.id.
  eapply wp_mono; [apply (install_loop_spec _ _ s2 (committed_view s v))|].
  - apply Hs2.
  - by apply committed_idle.
  - by eapply only_bio_geo.
  - pose proof (log_rep_entries _ _ H) as [He1 He2]. split; [by rewrite E2|].
    unfold home_block, in_log in *. intros i Hi'. rewrite E1, E2, E5.
    destruct Hs2 as (_ & _ & ->). by apply He2.
  - rewrite Hdy. lia.
  - left. unfold entry. rewrite E5, Hdy. apply (lr_dirty _ _ H).
    eapply list_elem_of_lookup_2, (entry_live s 0). lia.
  - intros [] s3 Hs3.
    assert (install_writes s2 (committed_view s v) 0 (length (live_entries s))
            = home_writes s v) as Hw.
    { rewrite <- install_after_log by done. unfold install_writes, entry, slot.
      by rewrite E1, E5. }
    rewrite Hw in Hs3. pose proof (only_bio_trans _ _ _ _ _ Hs2 Hs3) as Hs03.
    wp_step. wp_step. apply commit_last_write; [done|done|lia|done].
Qed.
End specs.
