(* ===== verification/Recovery.v ===== *)
(** * Recovery and crash atomicity of the log

    What [initlog] and [recover_from_log] ([kernel/log.c]) do at boot, and that
    a commit interrupted by a power failure at any of its disk writes is, after
    recovery, either not done at all or completely done. *)

From S2P Require Import Prelude SleepLock Bio Layout Log.

(** The log state in zeroed memory, at boot, over a given disk. *)
Definition boot_log (dsize : Z) (disk : gmap Z (list Z)) : logst :=
  LogSt (binit dsize disk) 0 0 0 false 0 0 (replicate (Z.to_nat LOGSIZE) 0).

(** What is on the disk [disk] of [dsize] blocks: a log of [size] blocks at
    [start], according to the superblock. *)
Record disk_has_log (dsize : Z) (disk : gmap Z (list Z)) (start size : Z) : Prop := {
  dl_range : forall x, is_Some (disk !! x) <-> 0 <= x < dsize;
  dl_blocks : forall x d, disk !! x = Some d -> block_ok d;
  dl_geo : 1 < start /\ 1 <= size /\ start + size <= dsize /\ dsize < 2 ^ 31;
  dl_super : exists d, disk !! 1 = Some d /\
    sb_logstart (dec_superblock d) = start /\ sb_nlog (dec_superblock d) = size }.

(** The blocks that belong to the file system proper. *)
Definition home_of (dsize start size x : Z) : Prop :=
  0 <= x < dsize /\ ~ (start <= x < start + size).

(** A log of [size] blocks can hold the transaction [bl]. *)
Definition log_holds (dsize start size : Z) (bl : list Z) : Prop :=
  NoDup bl /\ Z.of_nat (length bl) < size /\ Z.of_nat (length bl) <= LOGSIZE /\
  Forall (home_of dsize start size) bl.

(** The writes recovery makes for the logged blocks [bl]. *)
Definition replay (disk : gmap Z (list Z)) (start : Z) (bl : list Z) : list (Z * list Z) :=
  imap (fun i b => (b, default zero_block (disk !! (start + Z.of_nat i + 1)))) bl.

Section recover.
Context (pid : Z).

Lemma idle_take_drop v x i : idle v -> v_drop x (v_take x i v) = v.
Proof.
  destruct v as [bl dk h p dy tr]. intros [Hh Hp]. simpl in Hh, Hp. subst.
  unfold v_drop, v_take. simpl. f_equal. by rewrite delete_insert_id.
Qed.

Lemma readsb_spec s v :
  bio_rep pid (lg_bio s) v -> idle v -> 1 < dk_size (lg_bio s) ->
  (size (v_dirty v) < NBUF)%nat ->
  wp (on_bio (readsb pid ROOTDEV))
     (fun sb s' => sb = dec_superblock (vget v 1) /\ only_bio pid s v s') s.
Proof.
  intros H Hi Hx Hsz. eapply (wp_on_bio _ (fun sb b => sb = dec_superblock (vget v 1) /\
    bio_rep pid b v /\ dk_size b = dk_size (lg_bio s))); [|by intros sb b (-> & ? & ?)].
  unfold readsb. eapply wp_seq; [apply (take_first pid v); [done|done|lia|done]|].
  intros i b [Hb Hd]. eapply wp_seq; [eapply (bdata_spec pid); [done|apply lookup_take]|].
  intros d b' (-> & Hbl & _). simpl in Hbl. rewrite (vget_lookup _ _ _ Hbl).
  eapply wp_seq; [apply (brelse_spec pid _ (v_take 1 i v) 1); [done|apply lookup_take|]|].
  - simpl. destruct Hi as [_ ->]. set_solver.
  - intros [] b2 [Hb2 Hd2]. wp_step. rewrite idle_take_drop in Hb2 by done.
    split; [done|]. split; [done|congruence].
Qed.

(** The header's entries, as [read_head] copies them into memory. *)
Lemma read_head_loop_spec k i d s :
  (i + k <= length (lh_block s))%nat ->
  wp (read_head_loop k i d)
     (fun _ s' => exists bl, s' = set_lh (lh_n s) bl s /\ length bl = length (lh_block s) /\
        take (i + k) bl = take i (lh_block s) ++
          ((fun j => s32 (get_le 4 (4 + 4 * j) d)) <$> seq i k)) s.
Proof.
  revert i s. induction k as [|k IH]; intros i s Hk.
  { cbn. exists (lh_block s). rewrite Nat.add_0_r, app_nil_r. by destruct s. }
  cbn [read_head_loop]. wp_step. wp_step. destruct (Nat.ltb_spec i (length (lh_block s))); [|lia].
  wp_step. wp_step. set (e := s32 _).
  eapply wp_mono; [apply IH; simpl; rewrite length_insert; lia|].
  intros [] s' (bl & -> & Hl & Ht). exists bl. simpl in *. split; [done|].
  rewrite length_insert in Hl. split; [done|].
  rewrite Nat.add_succ_r, Ht.
  rewrite (take_S_r _ i e) by (by rewrite list_lookup_insert_eq).
  rewrite take_insert_ge by lia. by rewrite <- app_assoc.
Qed.
Lemma head_entries d bl :
  head_is d bl -> (fun j => s32 (get_le 4 (4 + 4 * j) d)) <$> seq 0 (length bl) = bl.
Proof.
  intros [_ H]. apply list_eq. intros i. rewrite list_lookup_fmap.
  destruct (bl !! i) as [b|] eqn:E.
  - pose proof (lookup_lt_Some _ _ _ E). rewrite lookup_seq_lt by done. simpl.
    f_equal. by apply H.
  - apply lookup_ge_None in E. by rewrite lookup_seq_ge.
Qed.

Lemma read_head_spec s v bl :
  bio_rep pid (lg_bio s) v -> idle v -> log_geo s -> (size (v_dirty v) < NBUF)%nat ->
  head_is (vget v (lg_start s)) bl -> Z.of_nat (length bl) <= LOGSIZE ->
  wp (read_head pid)
     (fun _ s' => exists bl', only_bio pid (set_lh (Z.of_nat (length bl)) bl' s) v s' /\
        length bl' = length (lh_block s) /\ take (length bl) bl' = bl) s.
Proof.
  intros H Hi Hg Hsz Hh Hn. unfold read_head. wp_step. wp_step.
  destruct (start_geo s Hg) as [Hst ->]. rewrite (lg_is_root _ Hg).
  assert (Hs0 : only_bio pid s v s) by (by destruct s).
  eapply wp_seq.
  { eapply (lift_spec pid s s v Hs0 _ (fun i => v_take (lg_start s) i v)). by apply take_first. }
  intros i s1 Hs1.
  eapply wp_seq; [eapply (l_bdata _ _ _ _ Hs1 (lg_start s)); apply lookup_take|].
  intros d s2 (-> & Hd & Hok). simpl in Hd. apply vget_lookup in Hd as <-.
  rewrite (proj1 Hh), Nat2Z.id. wp_step. wp_step.
  eapply wp_seq; [apply read_head_loop_spec; simpl; rewrite (lg_len _ Hg); lia|].
  intros [] s2 (bl' & -> & Hl & Ht). simpl in Ht, Hl. rewrite head_entries in Ht by done.
  assert (Hs2 : only_bio pid (set_lh (Z.of_nat (length bl)) bl' s) (v_take (lg_start s) i v)
                  (set_lh (Z.of_nat (length bl)) bl' s1)).
  { destruct Hs1 as (-> & ? & ?). done. }
  eapply wp_mono; [eapply (l_brelse _ _ _ _ Hs2 (lg_start s)); [apply lookup_take|]|].
  - simpl. destruct Hi as [_ ->]. set_solver.
  - intros [] s3 Hs3. rewrite idle_take_drop in Hs3 by done. by exists bl'.
Qed.

(** The state recovery leaves: nothing logged, the logged blocks installed. *)
Definition recovered (s : logst) (v : bview) (bl : list Z) : bview :=
  v_write (lg_start s) (put_head 0 [] (vget v (lg_start s)))
    (v_writes (replay (v_blocks v) (lg_start s) bl) v).

Lemma replay_fst disk start bl : (replay disk start bl).*1 = bl.
Proof.
  unfold replay. rewrite fmap_imap. apply list_eq. intros i.
  rewrite list_lookup_imap. by destruct (bl !! i).
Qed.

Lemma install_replay s v bl :
  take (length bl) (lh_block s) = bl ->
  install_writes s v 0 (length bl) = replay (v_blocks v) (lg_start s) bl.
Proof.
  intros Ht. unfold install_writes, replay. apply list_eq. intros i.
  rewrite list_lookup_fmap, list_lookup_imap. destruct (bl !! i) as [b|] eqn:E.
  - pose proof (lookup_lt_Some _ _ _ E) as Hi. rewrite lookup_seq_lt by done. simpl.
    unfold entry. rewrite <- Ht in E. apply lookup_take_Some in E as [-> _]. done.
  - apply lookup_ge_None in E. by rewrite lookup_seq_ge.
Qed.

Lemma log_holds_entries s bl :
  log_holds (dk_size (lg_bio s)) (lg_start s) (lg_size s) bl ->
  take (length bl) (lh_block s) = bl -> entries_ok s 0 (length bl).
Proof.
  intros (_ & Hn & _ & Hh) Ht. split; [done|]. intros i Hi.
  destruct (lookup_lt_is_Some_2 bl i) as [b Hb]; [lia|]. exists b.
  split; [|by eapply Forall_lookup_1 in Hh]. rewrite <- Ht in Hb.
  by apply lookup_take_Some in Hb as [? _].
Qed.

Lemma start_not_logged dsize start size bl :
  log_holds dsize start size bl -> 1 <= size -> start ∉ bl.
Proof. intros (_ & _ & _ & Hh) Hs Hin. rewrite Forall_forall in Hh. apply Hh in Hin as [_ Hn]. lia. Qed.

Lemma recover_spec s v bl :
  bio_rep pid (lg_bio s) v -> idle v -> v_dirty v = ∅ -> log_geo s ->
  head_is (vget v (lg_start s)) bl ->
  log_holds (dk_size (lg_bio s)) (lg_start s) (lg_size s) bl ->
  wp (recover_from_log pid)
     (fun _ s' => exists bl', only_bio pid (set_lh 0 bl' s) (recovered s v bl) s' /\
        length bl' = length (lh_block s)) s.
Proof.
  intros H Hi Hdy Hg Hh Hl. assert (Hsz : size (v_dirty v) = 0%nat) by (by rewrite Hdy).
  unfold recover_from_log.
  eapply wp_seq; [apply (read_head_spec s v bl); try done; [rewrite Hsz; apply Nat.lt_0_succ|apply Hl]|].
  intros [] s1 (bl' & Hs1 & Hlen & Ht). set (s0 := set_lh _ bl' s) in *.
  assert (Hg0 : log_geo s0) by (destruct Hg; constructor; simpl; congruence).
  pose proof (only_bio_fields _ _ _ _ Hs1) as (E1 & E2 & E3 & E4 & E5 & _ & _ & E8).
  unfold install_trans at 1. wp_step. wp_step. wp_step. rewrite E4. simpl. rewrite Nat2Z.id.
  eapply wp_mono; [apply (install_loop_spec pid _ _ s1 v); try done; rewrite ?Hsz|].
  { apply Hs1. } { by eapply only_bio_geo. }
  { apply log_holds_entries; rewrite ?E1, ?E2, ?E5, ?E8; done. }
  { unfold NBUF. lia. } { right. unfold NBUF. lia. }
  intros [] s2 Hs2. rewrite install_replay in Hs2 by (by rewrite E5). rewrite E1 in Hs2.
  pose proof (only_bio_trans _ _ _ _ _ _ Hs1 Hs2) as Hs02. simpl in Hs02.
  wp_step. wp_step. set (v2 := v_writes _ v) in *.
  assert (Hs3 : only_bio pid (set_lh 0 bl' s) v2 (set_lh 0 (lh_block s2) s2)).
  { destruct Hs02 as (-> & ? & ?). done. }
  eapply wp_mono; [apply (write_head_spec pid _ v2)|].
  - apply Hs3.
  - by apply idle_writes.
  - eapply only_bio_geo; [|done]. destruct Hg; constructor; simpl; congruence.
  - unfold v2. rewrite v_writes_dirty, Hdy.
    replace (∅ ∖ _) with (∅ : gset Z) by set_solver. apply Nat.lt_0_succ.
  - done.
  - constructor.
  - intros [] s4 Hs4. exists bl'. split; [|done].
    pose proof (only_bio_trans _ _ _ _ _ _ Hs3 Hs4) as Hs5. unfold live_entries in Hs5.
    cbn [lh_n lg_start lh_block set_lh take Z.to_nat] in Hs5.
    rewrite (proj1 (only_bio_fields _ _ _ _ Hs02)) in Hs5. cbn [lg_start s0 set_lh] in Hs5.
    unfold recovered. fold v2. replace (vget v (lg_start s)) with (vget v2 (lg_start s)); [done|].
    apply vget_writes_ne. rewrite replay_fst. eapply start_not_logged; [done|].
    destruct (lg_inside _ Hg). lia.
Qed.
(** The disk recovery leaves. *)
Definition recovered_disk (disk : gmap Z (list Z)) (start : Z) (bl h : list Z) :
    gmap Z (list Z) :=
  <[start := put_head 0 [] h]> (apply_writes (replay disk start bl) disk).

Definition clean_view (disk : gmap Z (list Z)) (tr : list (Z * list Z)) : bview :=
  BView disk disk ∅ ∅ ∅ tr.

Lemma clean_writes ws disk tr :
  v_writes ws (clean_view disk tr) = clean_view (apply_writes ws disk) (tr ++ ws).
Proof.
  revert disk tr. induction ws as [|[x d] ws IH]; intros disk tr; simpl.
  { by rewrite app_nil_r. }
  unfold v_write. simpl. replace (∅ ∖ {[x]}) with (∅ : gset Z) by set_solver.
  change (BView _ _ _ _ _ ?t) with (clean_view (<[x := d]> disk) t).
  rewrite IH. by rewrite <- app_assoc.
Qed.

(** With an empty header in memory and on disk the log is consistent. *)
Lemma empty_log_rep s bl disk tr h s' :
  only_bio pid (set_lh 0 bl s) (clean_view disk tr) s' -> log_geo s ->
  length bl = length (lh_block s) -> disk !! lg_start s = Some h -> head_is h [] ->
  log_rep pid s' (clean_view disk tr).
Proof.
  intros Hs [G1 G2 G3] Hl Hh Hhd.
  assert (Hg : log_geo (set_lh 0 bl s)) by (constructor; simpl; [done|done|congruence]).
  pose proof (only_bio_geo _ _ _ _ Hg Hs) as Hg'. destruct Hs as (E & ? & Hd).
  rewrite E in *. constructor; try done.
  - apply Z.lt_le_trans with 1; [done|apply G2].
  - constructor.
  - intros x. simpl. set_solver.
  - by intros x ?%elem_of_nil.
  - by exists h.
Qed.

(** Booting: the transaction named by the header [h], if any, is installed,
    and the log is left empty and consistent. *)
Lemma initlog_spec dsize disk start size h bl :
  disk_has_log dsize disk start size -> disk !! start = Some h -> head_is h bl ->
  log_holds dsize start size bl ->
  wp (initlog pid ROOTDEV)
     (fun _ s' => exists v', log_rep pid s' v' /\ idle v' /\ v_dirty v' = ∅ /\
        v_disk v' = recovered_disk disk start bl h /\ v_blocks v' = v_disk v' /\
        lg_start s' = start /\ lg_size s' = size /\ dk_size (lg_bio s') = dsize /\
        lg_outstanding s' = 0 /\ lg_committing s' = false)
     (boot_log dsize disk).
Proof.
  intros [Hr Hb Hgeo (sbd & Hsb & Hstart & Hsize)] Hh Hhd Hl.
  pose proof (binit_rep pid dsize disk Hr Hb) as H0. fold (clean_view disk []) in H0.
  unfold initlog. cbn [Z.leb BSIZE LOGSIZE].
  eapply wp_seq; [apply (readsb_spec (boot_log dsize disk) _ H0)|].
  { done. } { simpl. lia. } { apply Nat.lt_0_succ. }
  intros sb s1 [-> Hs1]. rewrite (vget_lookup (clean_view disk []) 1 sbd Hsb), Hstart, Hsize.
  rewrite !s32_small by lia. wp_step. wp_step.
  destruct Hs1 as (E & H1 & Hd1). simpl in Hd1. rewrite E.
  set (s2 := set_loc start size ROOTDEV (set_bio _ _)).
  assert (vget (clean_view disk []) start = h) as Hv by (by apply vget_lookup).
  assert (Hg2 : log_geo s2) by (constructor; simpl; rewrite ?Hd1; [done|lia|done]).
  eapply wp_mono; [apply (recover_spec s2 (clean_view disk []) bl); try done|].
  - simpl. by rewrite Hv.
  - simpl. by rewrite Hd1.
  - intros [] s3 (bl' & Hs3 & Hlen). exists (recovered s2 (clean_view disk []) bl).
    assert (Hrec : exists tr, recovered s2 (clean_view disk []) bl =
              clean_view (recovered_disk disk start bl h) tr).
    { unfold recovered. simpl. rewrite Hv, clean_writes. eexists.
      apply (clean_writes [(start, put_head 0 [] h)]). }
    destruct Hrec as [tr Hrec]. rewrite Hrec in *.
    pose proof (only_bio_fields _ _ _ _ Hs3) as (F1 & F2 & F3 & F4 & F5 & F6 & F7 & F8).
    simpl in F1, F2, F6, F7, F8. rewrite Hd1 in F8. split_and!; try done.
    eapply empty_log_rep; [done|done|done|apply lookup_insert_eq|].
    apply (put_head_spec []); [by eapply Hb|apply Nat.le_0_l|constructor].
Qed.
End recover.

(** ** Crash points of a commit *)

Lemma prefix_app_cases {A} (ws a b : list A) :
  ws `prefix_of` a ++ b ->
  ws `prefix_of` a \/ exists c, ws = a ++ c /\ c `prefix_of` b.
Proof.
  revert ws. induction a as [|x a IH]; intros ws Hp; simpl in *; [right; by exists ws|].
  destruct ws as [|y ws]; [left; apply prefix_nil|].
  pose proof (prefix_cons_inv_1 _ _ _ _ Hp) as ->. apply prefix_cons_inv_2, IH in Hp.
  destruct Hp as [Hp|(c & -> & Hc)]; [left; by apply prefix_cons|right; by exists c].
Qed.

Lemma prefix_fst {A B} (ws a : list (A * B)) x : ws `prefix_of` a -> x ∈ ws.*1 -> x ∈ a.*1.
Proof. intros [c ->]. rewrite fmap_app. set_solver. Qed.

Lemma apply_writes_app ws ws' d : apply_writes (ws ++ ws') d = apply_writes ws' (apply_writes ws d).
Proof. apply foldl_app. Qed.

Lemma apply_writes_one x b d : apply_writes [(x, b)] d = <[x := b]> d.
Proof. done. Qed.

Lemma prefix_singleton {A} (ws : list A) x : ws `prefix_of` [x] -> ws = [] \/ ws = [x].
Proof.
  destruct ws as [|y ws]; [by left|]. intros Hp. right.
  pose proof (prefix_cons_inv_1 _ _ _ _ Hp) as ->. apply prefix_cons_inv_2 in Hp.
  by apply prefix_nil_inv in Hp as ->.
Qed.

(** Writes that leave the superblock alone keep the disk well formed. *)
Definition sane_write (dsize : Z) (w : Z * list Z) : Prop :=
  0 <= w.1 < dsize /\ w.1 <> 1 /\ block_ok w.2.

Lemma disk_has_log_writes dsize disk start size ws :
  disk_has_log dsize disk start size -> Forall (sane_write dsize) ws ->
  disk_has_log dsize (apply_writes ws disk) start size.
Proof.
  intros H Hws. revert disk H.
  induction Hws as [|[x d] ws (Hx & H1 & Hd) _ IH]; intros disk H; simpl; [done|].
  apply IH. destruct H as [Hr Hb Hg (sbd & Hs & ?)]. simpl in *. constructor; try done.
  - intros y. rewrite lookup_insert_is_Some, Hr. destruct (decide (x = y)) as [<-|]; naive_solver.
  - intros y e. rewrite lookup_insert_Some. naive_solver.
  - exists sbd. by rewrite lookup_insert_ne.
Qed.

Section crash.
Context (pid : Z) (s : logst) (v : bview).
Hypothesis Hrep : log_rep pid s v.
Hypothesis Hidle : idle v.

Abbreviation dsize := (dk_size (lg_bio s)).
Abbreviation start := (lg_start s).
Abbreviation logged := (log_writes s v 0 (length (live_entries s))).

Lemma clean_block x : x ∉ v_dirty v -> v_blocks v !! x = v_disk v !! x.
Proof.
  intros Hx. pose proof (lr_bio _ _ _ Hrep) as H.
  destruct (decide (Exists (fun b => b_dev b = 1 /\ b_blockno b = x) (bc_buf (lg_bio s))))
    as [(b & [i Hb]%list_elem_of_lookup & Hd & Hn)%Exists_exists|Hnc].
  - pose proof (br_bufs _ _ _ H _ _ Hb) as Hr. unfold buf_rep in Hr.
    rewrite decide_True, Hn in Hr by done. destruct Hr as (_ & _ & _ & _ & -> & Hdk).
    symmetry. apply Hdk; [done|]. by rewrite (proj2 Hidle).
  - apply (br_uncached _ _ _ H). intros i (b & Hb & ?). apply Hnc, Exists_exists.
    exists b. split; [by eapply list_elem_of_lookup_2|done].
Qed.

Lemma vget_ok x : 0 <= x < dsize -> block_ok (vget v x).
Proof.
  intros Hx. eapply (br_blocks _ _ _ (lr_bio _ _ _ Hrep)), rep_block; [apply Hrep|done].
Qed.

Lemma live_home x : x ∈ live_entries s -> home_of dsize start (lg_size s) x.
Proof. apply (lr_home _ _ _ Hrep). Qed.

Lemma logged_in_log x : x ∈ logged.*1 -> start < x < start + lg_size s.
Proof.
  rewrite log_writes_fst, list_elem_of_fmap. intros (i & -> & Hi%elem_of_seq).
  unfold slot. pose proof (lr_n _ _ _ Hrep). pose proof (lr_fits _ _ _ Hrep). lia.
Qed.

Lemma commit_head_is : block_ok (commit_head s v) /\ head_is (commit_head s v) (live_entries s).
Proof.
  destruct (lr_geo _ _ _ Hrep) as [_ Hin Hlen]. unfold commit_head. rewrite (lr_n _ _ _ Hrep).
  apply put_head_spec; [apply vget_ok; lia| |by eapply live_range].
  unfold live_entries. rewrite length_take. lia.
Qed.

Lemma erased_head_is : block_ok (put_head 0 [] (commit_head s v)) /\
  head_is (put_head 0 [] (commit_head s v)) [].
Proof. apply (put_head_spec []); [apply commit_head_is|apply Nat.le_0_l|constructor]. Qed.

Lemma live_holds : log_holds dsize start (lg_size s) (live_entries s).
Proof.
  destruct (lr_geo _ _ _ Hrep) as [_ Hin Hlen]. pose proof (lr_n _ _ _ Hrep).
  pose proof (lr_fits _ _ _ Hrep). split; [apply Hrep|]. split; [lia|]. split.
  - unfold live_entries. rewrite length_take, Hlen. unfold LOGSIZE. lia.
  - apply Forall_forall, live_home.
Qed.

Lemma nil_holds : log_holds dsize start (lg_size s) [].
Proof.
  destruct (lr_geo _ _ _ Hrep) as [_ Hin _]. split; [constructor|]. simpl.
  repeat split; [lia|done|constructor].
Qed.
Hypothesis Hdisk : disk_has_log dsize (v_disk v) start (lg_size s).
Hypothesis Hsuper : 1 ∉ v_dirty v.

Lemma commit_trace_sane : Forall (sane_write dsize) (commit_trace s v).
Proof.
  destruct (dl_geo _ _ _ _ Hdisk) as (Hst & Hs1 & Hin & _).
  assert (Hlive : forall x, x ∈ live_entries s -> 0 <= x < dsize /\ x <> 1).
  { intros x Hx. split; [by apply live_home|]. intros ->. by apply Hsuper, (lr_dirty _ _ _ Hrep). }
  unfold commit_trace. rewrite !Forall_app, !Forall_singleton. split_and!.
  - apply Forall_forall. intros w Hw.
    pose proof (logged_in_log w.1 (list_elem_of_fmap_2 _ _ _ Hw)) as Hr.
    apply list_elem_of_fmap in Hw as (i & -> & Hi%elem_of_seq). unfold sane_write. simpl in *.
    split; [lia|]. split; [lia|]. apply vget_ok, Hlive.
    eapply list_elem_of_lookup_2, entry_live. lia.
  - unfold sane_write. simpl. split; [lia|]. split; [lia|]. apply commit_head_is.
  - apply Forall_forall. intros w (x & -> & Hx)%list_elem_of_fmap. unfold sane_write. simpl.
    split; [by apply Hlive|]. split; [by apply Hlive|]. by apply vget_ok, Hlive.
  - unfold sane_write. cbn [fst snd]. split; [lia|]. split; [lia|]. apply erased_head_is.
Qed.

(** On home blocks: the disk as before the transaction, or the transaction. *)
Definition unchanged (disk : gmap Z (list Z)) : Prop :=
  forall x, home_of dsize start (lg_size s) x -> disk !! x = v_disk v !! x.
Definition all_done (disk : gmap Z (list Z)) : Prop :=
  forall x, home_of dsize start (lg_size s) x -> disk !! x = v_blocks v !! x.

Lemma home_not_log x (ws : list (Z * list Z)) :
  home_of dsize start (lg_size s) x -> ws `prefix_of` logged -> x ∉ ws.*1.
Proof. intros [_ Hn] Hp Hin. eapply prefix_fst, logged_in_log in Hin; [|done]. lia. Qed.

Lemma home_not_start x : home_of dsize start (lg_size s) x -> x <> start.
Proof. intros [_ Hn] ->. destruct (dl_geo _ _ _ _ Hdisk). lia. Qed.

Lemma done_after_home_writes disk :
  (forall x, home_of dsize start (lg_size s) x -> x ∉ live_entries s ->
     disk !! x = v_disk v !! x) ->
  all_done (apply_writes (home_writes s v) disk).
Proof.
  intros Hdk x Hx. destruct (decide (x ∈ live_entries s)) as [Hin|Hnot].
  - pose proof Hin as [i Hi]%list_elem_of_lookup.
    rewrite (apply_writes_lookup _ _ i x (vget v x)).
    + symmetry. eapply rep_block; [apply Hrep|apply Hx].
    + rewrite home_writes_fst. apply Hrep.
    + unfold home_writes. by rewrite list_lookup_fmap, Hi.
  - rewrite apply_writes_lookup_ne by (by rewrite home_writes_fst).
    rewrite (Hdk x Hx Hnot). symmetry. apply clean_block. by rewrite (lr_dirty _ _ _ Hrep).
Qed.

(** Once the header is written, recovery replays exactly the home writes. *)
Lemma replay_committed ws :
  ws `prefix_of` home_writes s v ->
  replay (apply_writes (logged ++ [(start, commit_head s v)] ++ ws) (v_disk v)) start
    (live_entries s) = home_writes s v.
Proof.
  intros Hp. unfold replay, home_writes. apply list_eq. intros i.
  rewrite list_lookup_imap, list_lookup_fmap.
  destruct (live_entries s !! i) as [b|] eqn:E; [|done]. simpl. do 2 f_equal.
  pose proof (lookup_lt_Some _ _ _ E) as Hi. pose proof (entry_live s i Hi) as He.
  rewrite !apply_writes_app. rewrite apply_writes_lookup_ne.
  - rewrite (apply_writes_lookup _ _ i _ (vget v b)); [done|apply log_writes_nodup|].
    unfold log_writes. rewrite list_lookup_fmap, lookup_seq_lt by done. simpl.
    unfold slot. congruence.
  - intros [Hs|Hin]%elem_of_cons; [simpl in Hs; lia|].
    eapply prefix_fst in Hin; [|done]. rewrite home_writes_fst in Hin.
    apply live_home in Hin as [_ Hn]. pose proof (lr_n _ _ _ Hrep).
    pose proof (lr_fits _ _ _ Hrep). lia.
Qed.
(** What a reboot after the writes [ws] has to achieve. *)
Definition recovers (ws : list (Z * list Z)) : Prop :=
  wp (initlog pid ROOTDEV)
     (fun _ s' => exists v', log_rep pid s' v' /\ idle v' /\ v_dirty v' = ∅ /\
        v_blocks v' = v_disk v' /\ lg_start s' = start /\ lg_size s' = lg_size s /\
        (unchanged (v_disk v') \/ all_done (v_disk v')))
     (boot_log dsize (apply_writes ws (v_disk v))).

Lemma recovers_intro ws h bl :
  Forall (sane_write dsize) ws ->
  apply_writes ws (v_disk v) !! start = Some h -> head_is h bl ->
  log_holds dsize start (lg_size s) bl ->
  (let disk := apply_writes ws (v_disk v) in
   let disk' := apply_writes (replay disk start bl) disk in
   unchanged disk' \/ all_done disk') ->
  recovers ws.
Proof.
  intros Hws Hh Hhd Hl Hout. eapply wp_mono.
  { eapply initlog_spec; [by apply disk_has_log_writes|done..]. }
  intros [] s' (v' & Hr & Hi & Hdy & Hdk & Hbl & H1 & H2 & _). exists v'.
  split_and!; try done. rewrite Hdk. unfold recovered_disk.
  destruct Hout as [Hu|Hd]; [left|right]; intros x Hx; rewrite lookup_insert_ne by
    (symmetry; by apply home_not_start); [by apply Hu|by apply Hd].
Qed.

(** The power fails while the log blocks are written. *)
Lemma crash_in_log ws : ws `prefix_of` logged -> recovers ws.
Proof.
  intros Hp. destruct (lr_head _ _ _ Hrep) as (h & Hh & Hhd).
  assert (Hst : start ∉ ws.*1).
  { intros Hin. eapply prefix_fst, logged_in_log in Hin; [|done]. lia. }
  apply (recovers_intro ws h []); [|by rewrite apply_writes_lookup_ne|done|apply nil_holds|].
  - destruct Hp as [c Hc]. pose proof commit_trace_sane as Hs. unfold commit_trace in Hs.
    rewrite Hc, !Forall_app in Hs. tauto.
  - left. intros x Hx. simpl. rewrite apply_writes_lookup_ne; [done|]. by apply home_not_log.
Qed.

(** It fails after the header is written and before it is erased. *)
Lemma crash_in_install ws :
  ws `prefix_of` home_writes s v -> recovers (logged ++ [(start, commit_head s v)] ++ ws).
Proof.
  intros Hp. apply (recovers_intro _ (commit_head s v) (live_entries s)).
  - destruct Hp as [c Hc]. pose proof commit_trace_sane as Hs. unfold commit_trace in Hs.
    rewrite Hc, !Forall_app in Hs. rewrite !Forall_app. tauto.
  - rewrite !apply_writes_app. rewrite apply_writes_lookup_ne; [apply lookup_insert_eq|].
    intros Hin. eapply prefix_fst in Hin; [|done]. rewrite home_writes_fst in Hin.
    by apply live_home, home_not_start in Hin.
  - apply commit_head_is.
  - apply live_holds.
  - right. cbv zeta. rewrite (replay_committed ws Hp). apply done_after_home_writes.
    intros x Hx Hn. rewrite apply_writes_lookup_ne; [done|].
    rewrite !fmap_app, !not_elem_of_app. split_and!.
    + by apply home_not_log.
    + apply not_elem_of_cons. split; [by apply home_not_start|apply not_elem_of_nil].
    + intros Hin. eapply prefix_fst in Hin; [|done]. by rewrite home_writes_fst in Hin.
Qed.

Lemma commit_trace_done : all_done (apply_writes (commit_trace s v) (v_disk v)).
Proof.
  intros x Hx. unfold commit_trace. rewrite !apply_writes_app.
  rewrite (apply_writes_one start), lookup_insert_ne by (symmetry; by apply home_not_start).
  apply done_after_home_writes; [|done]. intros y Hy _. rewrite apply_writes_one.
  rewrite lookup_insert_ne by (symmetry; by apply home_not_start).
  rewrite apply_writes_lookup_ne; [done|]. by apply home_not_log.
Qed.

(** It fails after the commit. *)
Lemma crash_after_commit : recovers (commit_trace s v).
Proof.
  apply (recovers_intro _ (put_head 0 [] (commit_head s v)) []); [apply commit_trace_sane| | | |].
  - unfold commit_trace. rewrite !apply_writes_app. apply lookup_insert_eq.
  - apply erased_head_is.
  - apply nil_holds.
  - right. apply commit_trace_done.
Qed.

Lemma commit_trace_recovers ws : ws `prefix_of` commit_trace s v -> recovers ws.
Proof.
  intros [Hp|(c & -> & Hc)]%prefix_app_cases; [by apply crash_in_log|].
  apply prefix_app_cases in Hc as [[-> | ->]%prefix_singleton|(d & -> & Hd)].
  { rewrite app_nil_r. by apply crash_in_log. }
  { apply (crash_in_install []), prefix_nil. }
  apply prefix_app_cases in Hd as [Hd|(e & -> & [-> | ->]%prefix_singleton)].
  - by apply crash_in_install.
  - rewrite app_nil_r. by apply crash_in_install.
  - apply crash_after_commit.
Qed.
End crash.

(** ** Crash atomicity *)

(** The disk writes made between two states of the log. *)
Definition writes_between (s s' : logst) (ws : list (Z * list Z)) : Prop :=
  dk_trace (lg_bio s') = dk_trace (lg_bio s) ++ ws.

(** C1: a commit is atomic across crashes.  [commit] finishes and leaves every
    block outside the log with its new content; and whatever prefix of its disk
    writes reaches the disk before a crash, the next boot's [initlog] recovers
    a disk on which either none or all of the transaction's blocks changed. *)
Theorem commit_crash_atomic pid s v :
  log_rep pid s v -> idle v -> 0 < lh_n s < Z.of_nat NBUF ->
  disk_has_log (dk_size (lg_bio s)) (v_disk v) (lg_start s) (lg_size s) -> 1 ∉ v_dirty v ->
  wp (commit pid)
     (fun _ s' => exists ws, writes_between s s' ws /\
        dk_blocks (lg_bio s') = apply_writes ws (v_disk v) /\
        all_done s v (dk_blocks (lg_bio s')) /\
        forall ws', ws' `prefix_of` ws -> recovers pid s v ws') s.
Proof.
  intros H Hi Hn Hd H1. eapply wp_mono; [by apply (commit_spec pid s v)|].
  intros [] s' (-> & Hr & Hsz). exists (commit_trace s v). unfold writes_between.
  pose proof (br_disk _ _ _ Hr) as ->. pose proof (br_trace _ _ _ Hr) as ->.
  pose proof (br_trace _ _ _ (lr_bio _ _ _ H)) as ->. rewrite v_writes_trace, v_writes_disk.
  split_and!; try done; [by apply (commit_trace_done pid)|].
  intros ws' Hp. by apply commit_trace_recovers.
Qed.
