(* ===== verification/BlockLayer.v ===== *)
(** * The block layer as the file system sees it

    [kernel/fs.c] works on blocks through [bread], [brelse], [log_write],
    [begin_op] and [end_op].  The classes [BlockOps] and [BlockLayer] state what
    these promise to the file system: inside a transaction each block has a
    current content, which a process reads and changes while it holds the
    block's buffer; a changed block must be logged before its buffer is
    released; a transaction has room for a bounded number of blocks.  The file
    system's theorems are proved against this interface; the buffer cache and
    the log ([Bio], [Log]) implement it. *)

From S2P Require Import Prelude SleepLock Bio Layout Log Recovery.

(** ** The log's operations inside a transaction *)

Section log_ops.
Context (pid : Z).

Lemma absorb_spec x bl :
  (absorb x bl <= length bl)%nat /\
  (absorb x bl = length bl <-> x ∉ bl) /\ (x ∈ bl -> bl !! absorb x bl = Some x).
Proof.
  induction bl as [|b bl (IH1 & IH2 & IH3)]; simpl; [split_and!; [lia|set_solver|set_solver]|].
  destruct (Z.eqb_spec b x) as [->|Hne]; simpl.
  - split_and!; [lia| |done]. split; [done|set_solver].
  - split_and!; [lia| |]; rewrite ?not_elem_of_cons.
    + split; [intros [= E]; split; [done|by apply IH2]|intros [_ E]; f_equal; by apply IH2].
    + intros [?|?]%elem_of_cons; [congruence|auto].
Qed.

(** The header after [log_write]. *)
Lemma absorb_live x n (bl : list Z) :
  (n < length bl)%nat -> NoDup (take n bl) ->
  let k := absorb x (take n bl) in
  let bl' := <[k := x]> bl in
  if decide (x ∈ take n bl) then (k < n)%nat /\ take n bl' = take n bl
  else k = n /\ take (S n) bl' = take n bl ++ [x].
Proof.
  intros Hn Hnd k bl'. destruct (absorb_spec x (take n bl)) as (H1 & H2 & H3).
  assert (Hl : length (take n bl) = n) by (rewrite length_take; lia). fold k in H1, H2, H3.
  case_decide as Hx.
  - assert (k < n)%nat by (rewrite Hl in *; destruct (decide (k = n)); [naive_solver|lia]).
    split; [done|]. specialize (H3 Hx). unfold bl'. apply lookup_take_Some in H3 as [H3 _].
    by rewrite list_insert_id.
  - apply H2 in Hx. rewrite Hl in Hx. split; [done|]. unfold bl'. rewrite Hx.
    rewrite (take_S_r _ n x) by (by apply list_lookup_insert_eq).
    by rewrite take_insert_ge by lia.
Qed.

Lemma log_rep_cong s v v' b :
  log_rep pid s v -> bio_rep pid b v' -> dk_size b = dk_size (lg_bio s) ->
  v_disk v' = v_disk v -> v_dirty v' = v_dirty v -> log_rep pid (set_bio b s) v'.
Proof.
  intros [H1 H2 H3 H4 H5 H6 H7 H8] Hb Hd Hdk Hdy.
  constructor; try done.
  - destruct H2. constructor; simpl; rewrite ?Hd; done.
  - by rewrite Hdy.
  - unfold home_block, in_log in *. simpl. by rewrite Hd.
  - by rewrite Hdk.
Qed.

Lemma log_rep_mark s v x b :
  log_rep pid s v -> home_block s x -> lh_n s < LOGSIZE -> lh_n s < lg_size s - 1 ->
  bio_rep pid b (v_mark x v) -> dk_size b = dk_size (lg_bio s) ->
  let k := absorb x (take (Z.to_nat (lh_n s)) (lh_block s)) in
  log_rep pid (set_bio b (set_lh (if Z.of_nat k =? lh_n s then lh_n s + 1 else lh_n s)
                                 (<[k := x]> (lh_block s)) s)) (v_mark x v).
Proof.
  intros [H1 H2 H3 H4 H5 H6 H7 H8] Hh Hn1 Hn2 Hb Hd k.
  assert (0 <= lh_n s) by lia. pose proof (lg_len _ H2) as Hlen.
  assert (Hk := absorb_live x (Z.to_nat (lh_n s)) (lh_block s)
                  ltac:(rewrite Hlen; lia) H5). cbv zeta in Hk. fold k in Hk.
  assert (Hg : log_geo (set_bio b (set_lh (if Z.of_nat k =? lh_n s then lh_n s + 1 else lh_n s)
            (<[k := x]> (lh_block s)) s))).
  { destruct H2. constructor; simpl; rewrite ?Hd, ?length_insert; done. }
  assert (Hhome : forall y, y = x \/ y ∈ live_entries s -> home_block s y) by naive_solver.
  fold (live_entries s) in Hk. case_decide as Hx.
  - destruct Hk as [Hk1 Hk2]. assert ((Z.of_nat k =? lh_n s) = false) as E by lia.
    rewrite E in *.
    constructor; try done; unfold live_entries at 1; simpl; rewrite ?Hk2; try done.
    + intros y. rewrite elem_of_union, elem_of_singleton, H6. naive_solver.
    + intros y Hy. unfold home_block, in_log. simpl. rewrite Hd. apply (Hhome y). by right.
  - destruct Hk as [Hk1 Hk2]. assert ((Z.of_nat k =? lh_n s) = true) as E by lia.
    rewrite E in *. assert (Z.to_nat (lh_n s + 1) = S (Z.to_nat (lh_n s))) as En by lia.
    constructor; try done; try (unfold live_entries at 1); simpl; rewrite ?En, ?Hk2; try done.
    + rewrite length_app. simpl. lia.
    + lia.
    + apply NoDup_app. split_and!; [done|set_solver|apply NoDup_singleton].
    + intros y. rewrite elem_of_union, elem_of_singleton, H6, elem_of_app, list_elem_of_singleton.
      naive_solver.
    + intros y Hy. unfold home_block, in_log. simpl. rewrite Hd. apply (Hhome y).
      apply elem_of_app in Hy. rewrite list_elem_of_singleton in Hy. naive_solver.
Qed.

Lemma log_write_spec s v x i :
  log_rep pid s v -> v_held v !! x = Some i -> home_block s x ->
  1 <= lg_outstanding s -> lh_n s < LOGSIZE -> lh_n s < lg_size s - 1 ->
  wp (log_write i)
     (fun _ s' => log_rep pid s' (v_mark x v) /\ lg_start s' = lg_start s /\
        lg_size s' = lg_size s /\ lg_outstanding s' = lg_outstanding s /\
        lg_committing s' = lg_committing s /\ dk_size (lg_bio s') = dk_size (lg_bio s)) s.
Proof.
  intros H Hx Hh Ho H1 H2. unfold log_write. wp_step. wp_step.
  destruct (Z.leb_spec LOGSIZE (lh_n s)); [lia|].
  destruct (Z.leb_spec (lg_size s - 1) (lh_n s)); [lia|].
  destruct (Z.ltb_spec (lg_outstanding s) 1); [lia|]. simpl.
  destruct (held_buf _ _ _ _ _ (lr_bio _ _ _ H) Hx) as (b & Hb & Hd & Hn & Hr & _).
  apply wp_bind, (wp_on_bio _ (fun a b' => a = b /\ b' = lg_bio s)).
  { unfold read_buf, wp, bind, get, deref. by rewrite Hb. }
  intros a b' [-> ->]. replace (set_bio (lg_bio s) s) with s by (by destruct s).
  wp_step. wp_step. rewrite Hn. rewrite s32_small by (destruct (lr_geo _ _ _ H); lia).
  eapply wp_on_bio; [exact (bmark_spec pid _ v x i (lr_bio _ _ _ H) Hx)|]. intros [] b' [Hb' Hd'].
  split_and!; try done. by apply log_rep_mark.
Qed.
(** *** The end of a transaction *)

Lemma commit_trace_fst s v :
  (commit_trace s v).*1 = (slot s <$> seq 0 (length (live_entries s))) ++ [lg_start s] ++
    live_entries s ++ [lg_start s].
Proof.
  unfold commit_trace. rewrite !fmap_app, log_writes_fst, home_writes_fst. done.
Qed.

Lemma commit_blocks s v x :
  log_rep pid s v -> idle v -> home_block s x ->
  v_blocks (v_writes (commit_trace s v) v) !! x = v_blocks v !! x.
Proof.
  intros H Hi Hx. rewrite v_writes_blocks. unfold commit_trace. rewrite !apply_writes_app.
  assert (Hst : x <> lg_start s) by 
    (intros ->; destruct Hx as [_ Hn]; apply Hn;
     destruct (lg_inside _ (lr_geo _ _ _ H)); unfold in_log; lia).
  rewrite (apply_writes_one (lg_start s)), lookup_insert_ne by done.
  destruct (decide (x ∈ live_entries s)) as [Hin|Hnot].
  - pose proof Hin as [i Hl]%list_elem_of_lookup.
    rewrite (apply_writes_lookup _ _ i x (vget v x)).
    + symmetry. eapply rep_block; [apply H|apply Hx].
    + rewrite home_writes_fst. apply H.
    + unfold home_writes. by rewrite list_lookup_fmap, Hl.
  - rewrite apply_writes_lookup_ne by (by rewrite home_writes_fst).
    rewrite apply_writes_one, lookup_insert_ne by done.
    rewrite apply_writes_lookup_ne; [done|]. intros Hin.
    eapply logged_in_log in Hin; [|done]. destruct Hx as [_ Hn]. apply Hn. unfold in_log. lia.
Qed.

Lemma commit_log_rep s v s' :
  log_rep pid s v -> idle v ->
  only_bio pid (set_lh 0 (lh_block s) s) (v_writes (commit_trace s v) v) s' ->
  log_rep pid s' (v_writes (commit_trace s v) v) /\
  idle (v_writes (commit_trace s v) v) /\ v_dirty (v_writes (commit_trace s v) v) = ∅.
Proof.
  intros H Hi Hs.
  assert (Hdy : v_dirty (v_writes (commit_trace s v) v) = ∅).
  { rewrite v_writes_dirty, commit_trace_fst. apply set_eq. intros x.
    rewrite elem_of_difference, elem_of_list_to_set, !elem_of_app, (lr_dirty _ _ _ H).
    set_solver. }
  split_and!; [|by apply idle_writes|done].
  assert (Hg : log_geo (set_lh 0 (lh_block s) s)) by (by destruct (lr_geo _ _ _ H)).
  pose proof (only_bio_geo _ _ _ _ Hg Hs) as Hg'.
  destruct Hs as (E & Hr & Hd). rewrite E in *. constructor; try done.
  - simpl. destruct (lg_inside _ Hg) as (_ & ? & _). simpl in *. lia.
  - constructor.
  - intros x. rewrite Hdy. unfold live_entries. simpl. set_solver.
  - by intros x ?%elem_of_nil.
  - eexists. split; [|eapply erased_head_is; done].
    rewrite v_writes_disk. unfold commit_trace. rewrite !apply_writes_app. apply lookup_insert_eq.
Qed.

Lemma end_op_spec s v :
  log_rep pid s v -> idle v -> lh_n s < Z.of_nat NBUF ->
  lg_outstanding s = 1 -> lg_committing s = false ->
  wp (end_op pid)
     (fun _ s' => exists v', log_rep pid s' v' /\ idle v' /\ v_dirty v' = ∅ /\
        (forall x, home_block s x -> v_blocks v' !! x = v_blocks v !! x) /\
        lg_outstanding s' = 0 /\ lg_committing s' = false /\ lg_start s' = lg_start s /\
        lg_size s' = lg_size s /\ dk_size (lg_bio s') = dk_size (lg_bio s)) s.
Proof.
  intros H Hi Hn Ho Hc. unfold end_op. wp_step. wp_step. wp_step. wp_step.
  cbn [lg_outstanding lg_committing set_ops]. rewrite Ho, Hc. change (1 - 1) with 0. cbn [Z.eqb].
  wp_step. wp_step. set (s1 := set_ops _ true _).
  assert (H1 : log_rep pid s1 v).
  { destruct H as [A1 [? ? ?] A3 A4 A5 A6 A7 A8]. by constructor. }
  destruct (decide (lh_n s = 0)) as [Hz|Hz].
  - unfold commit. wp_step. wp_step. wp_step. simpl. rewrite Hz. simpl. wp_step. wp_step.
    exists v. split_and!; try done.
    + destruct H as [A1 [? ? ?] A3 A4 A5 A6 A7 A8]. by constructor.
    + apply set_eq. intros x. rewrite (lr_dirty _ _ _ H). unfold live_entries. rewrite Hz.
      set_solver.
  - wp_step. eapply wp_mono; [apply (commit_spec pid s1 v); try done|].
    { simpl. pose proof (lr_n _ _ _ H). lia. }
    intros [] s2 Hs2. wp_step. destruct (commit_log_rep _ _ _ H1 Hi Hs2) as (H2 & Hi2 & Hdy).
    pose proof (only_bio_fields _ _ _ _ Hs2) as (F1 & F2 & F3 & F4 & F5 & F6 & F7 & F8).
    exists (v_writes (commit_trace s1 v) v). split_and!; try done.
    + destruct H2 as [A1 [? ? ?] A3 A4 A5 A6 A7 A8]. by constructor.
    + intros x Hx. by apply commit_blocks.
Qed.
End log_ops.

(** ** The interface *)

Record lview := LView {
  lv_blocks : gmap Z (list Z);   (* current content of the file system's blocks *)
  lv_held : gmap Z nat;          (* blocks the process holds, and their buffers *)
  lv_pend : gset Z;              (* held blocks changed and not yet logged *)
  lv_logged : gset Z;            (* blocks of the transaction *)
  lv_room : nat;                 (* how many more it may log *)
  lv_op : bool }.                (* is there a transaction? *)

Definition l_take (x : Z) (i : nat) (v : lview) : lview :=
  LView (lv_blocks v) (<[x := i]> (lv_held v)) (lv_pend v) (lv_logged v) (lv_room v)
        (lv_op v).
Definition l_drop (x : Z) (v : lview) : lview :=
  LView (lv_blocks v) (delete x (lv_held v)) (lv_pend v) (lv_logged v) (lv_room v)
        (lv_op v).
Definition l_put (x : Z) (d : list Z) (v : lview) : lview :=
  LView (<[x := d]> (lv_blocks v)) (lv_held v) ({[x]} ∪ lv_pend v) (lv_logged v) (lv_room v)
        (lv_op v).
Definition l_mark (x : Z) (v : lview) : lview :=
  LView (lv_blocks v) (lv_held v) (lv_pend v ∖ {[x]}) ({[x]} ∪ lv_logged v)
        (if decide (x ∈ lv_logged v) then lv_room v else pred (lv_room v)) (lv_op v).

(** Block [x] may be logged. *)
Definition can_log (v : lview) (x : Z) : Prop :=
  lv_op v = true /\ (x ∈ lv_logged v \/ 0 < lv_room v)%nat.

(** Outside of a transaction, and at the start of one. *)
Definition quiet_view (bl : gmap Z (list Z)) : lview := LView bl ∅ ∅ ∅ 0 false.
Definition start_view (bl : gmap Z (list Z)) : lview :=
  LView bl ∅ ∅ ∅ (Z.to_nat MAXOPBLOCKS) true.

Class BlockOps (S : Type) := {
  bl_bread : Z -> Z -> Z -> M S nat;       (* pid, dev, blockno *)
  bl_bdata : nat -> M S (list Z);
  bl_bput : nat -> list Z -> M S unit;
  bl_log_write : nat -> M S unit;
  bl_brelse : Z -> nat -> M S unit;
  bl_begin_op : M S unit;
  bl_end_op : Z -> M S unit }.

Class BlockLayer (S : Type) `{BlockOps S} := {
  (** Process [pid] uses the blocks, with view [v]. *)
  lrep : Z -> S -> lview -> Prop;
  lrep_block_ok : forall pid s v x d,
    lrep pid s v -> lv_blocks v !! x = Some d -> block_ok d;
  bread_law : forall pid s v x,
    lrep pid s v -> is_Some (lv_blocks v !! x) -> lv_held v !! x = None ->
    (size (lv_held v) <= 1)%nat ->
    wp (bl_bread pid ROOTDEV x) (fun i s' => lrep pid s' (l_take x i v)) s;
  bdata_law : forall pid s v x i,
    lrep pid s v -> lv_held v !! x = Some i ->
    wp (bl_bdata i) (fun d s' => s' = s /\ lv_blocks v !! x = Some d) s;
  bput_law : forall pid s v x i d,
    lrep pid s v -> lv_held v !! x = Some i -> block_ok d ->
    wp (bl_bput i d) (fun _ s' => lrep pid s' (l_put x d v)) s;
  log_write_law : forall pid s v x i,
    lrep pid s v -> lv_held v !! x = Some i ->
    can_log v x ->
    wp (bl_log_write i) (fun _ s' => lrep pid s' (l_mark x v)) s;
  brelse_law : forall pid s v x i,
    lrep pid s v -> lv_held v !! x = Some i -> x ∉ lv_pend v ->
    wp (bl_brelse pid i) (fun _ s' => lrep pid s' (l_drop x v)) s;
  begin_op_law : forall pid s bl,
    lrep pid s (quiet_view bl) ->
    wp bl_begin_op (fun _ s' => lrep pid s' (start_view bl)) s;
  end_op_law : forall pid pid' s bl lg room,
    lrep pid s (LView bl ∅ ∅ lg room true) ->
    wp (bl_end_op pid) (fun _ s' => lrep pid' s' (quiet_view bl)) s }.

(** ** The buffer cache and the log implement it *)

#[export] Instance log_block_ops : BlockOps logst := {
  bl_bread pid dev x := on_bio (bread pid dev x);
  bl_bdata i := on_bio (bdata i);
  bl_bput i d := on_bio (bput i d);
  bl_log_write i := log_write i;
  bl_brelse pid i := on_bio (brelse pid i);
  bl_begin_op := begin_op;
  bl_end_op pid := end_op pid }.

(** The file system's part of the blocks. *)
Definition home_blocks (s : logst) (full bl : gmap Z (list Z)) : Prop :=
  forall x d, bl !! x = Some d <-> home_block s x /\ full !! x = Some d.

Record lview_of (s : logst) (w : bview) (v : lview) : Prop := {
  ll_blocks : home_blocks s (v_blocks w) (lv_blocks v);
  ll_held : lv_held v = v_held w;
  ll_pend : lv_pend v = v_pend w;
  ll_logged : lv_logged v = v_dirty w;
  ll_homes : forall x i, lv_held v !! x = Some i -> home_block s x;
  ll_out : lg_outstanding s = (if lv_op v then 1 else 0) /\ lg_committing s = false;
  ll_room : (size (lv_logged v) + lv_room v + 2 <= NBUF)%nat /\
            Z.of_nat (size (lv_logged v) + lv_room v) + 2 <= lg_size s;
  ll_size : MAXOPBLOCKS + 2 <= lg_size s }.

Definition log_lrep (pid : Z) (s : logst) (v : lview) : Prop :=
  exists w, log_rep pid s w /\ lview_of s w v.

Section instance.
Context (pid : Z) (s : logst) (v : lview).

Lemma lview_size w : log_rep pid s w -> lview_of s w v ->
  lh_n s = Z.of_nat (size (lv_logged v)).
Proof. intros H Hv. rewrite (ll_logged _ _ _ Hv), (log_rep_size _ _ _ H). apply H. Qed.

(** An operation of the buffer cache, seen from the interface. *)
Lemma lift_law {A} (m : M bio A) w (f : A -> bview) (g : A -> lview) :
  log_rep pid s w ->
  wp m (fun a b => bio_rep pid b (f a) /\ dk_size b = dk_size (lg_bio s)) (lg_bio s) ->
  (forall a, v_disk (f a) = v_disk w /\ v_dirty (f a) = v_dirty w) ->
  (forall a b, dk_size b = dk_size (lg_bio s) -> lview_of (set_bio b s) (f a) (g a)) ->
  wp (on_bio m) (fun a s' => log_lrep pid s' (g a)) s.
Proof.
  intros H Hm Hf Hg. eapply wp_on_bio; [exact Hm|]. intros a b [Hb Hd].
  exists (f a). split; [|by apply Hg]. destruct (Hf a). by eapply log_rep_cong.
Qed.

Lemma home_set_bio b x : dk_size b = dk_size (lg_bio s) ->
  home_block (set_bio b s) x <-> home_block s x.
Proof. intros Hd. unfold home_block, in_log. simpl. by rewrite Hd. Qed.

Lemma home_blocks_set_bio b full bl : dk_size b = dk_size (lg_bio s) ->
  home_blocks s full bl -> home_blocks (set_bio b s) full bl.
Proof. intros Hd H x d. rewrite home_set_bio by done. apply H. Qed.

Lemma log_bread_law x :
  log_lrep pid s v -> is_Some (lv_blocks v !! x) -> lv_held v !! x = None ->
  (size (lv_held v) <= 1)%nat ->
  wp (bl_bread pid ROOTDEV x) (fun i s' => log_lrep pid s' (l_take x i v)) s.
Proof.
  intros (w & H & Hv) [d Hx] Hn Hsz. pose proof Hx as [Hh _]%(ll_blocks _ _ _ Hv).
  apply (lift_law _ w (fun i => v_take x i w)); [done| |done|].
  - apply bread_spec; [apply H|apply Hh|by rewrite <- (ll_held _ _ _ Hv)|]. right.
    rewrite <- (ll_held _ _ _ Hv), <- (ll_logged _ _ _ Hv).
    assert (size (dom (lv_held v) ∪ lv_logged v) <= size (lv_held v) + size (lv_logged v))%nat.
    { rewrite size_union_alt, size_dom. apply Nat.add_le_mono_l, subseteq_size. set_solver. }
    destruct (ll_room _ _ _ Hv). lia.
  - intros i b Hd. destruct Hv. constructor; simpl; try done.
    + by apply home_blocks_set_bio.
    + congruence.
    + intros y j. rewrite home_set_bio by done.
      intros [[-> _]|[_ ?]]%lookup_insert_Some; [done|]. by eapply ll_homes0.
Qed.

Lemma log_bdata_law x i :
  log_lrep pid s v -> lv_held v !! x = Some i ->
  wp (bl_bdata i) (fun d s' => s' = s /\ lv_blocks v !! x = Some d) s.
Proof.
  intros (w & H & Hv) Hx. eapply wp_on_bio.
  { eapply (bdata_spec pid); [apply H|]. by rewrite <- (ll_held _ _ _ Hv). }
  intros d b (-> & Hd & _). split; [by destruct s|].
  apply (ll_blocks _ _ _ Hv). split; [by eapply ll_homes|done].
Qed.

Lemma log_bput_law x i d :
  log_lrep pid s v -> lv_held v !! x = Some i -> block_ok d ->
  wp (bl_bput i d) (fun _ s' => log_lrep pid s' (l_put x d v)) s.
Proof.
  intros (w & H & Hv) Hx Hd. pose proof (ll_homes _ _ _ Hv _ _ Hx) as Hh.
  apply (lift_law _ w (fun _ => v_put x d w)); [done| |done|].
  - apply bput_spec; [apply H|by rewrite <- (ll_held _ _ _ Hv)|done].
  - intros [] b Hb. destruct Hv as [Hbl ? ? ? Hho ? ? ?]. constructor; simpl; try done.
    + apply home_blocks_set_bio; [done|]. intros y e. rewrite !lookup_insert_Some, (Hbl y e).
      naive_solver.
    + congruence.
    + intros y j Hy. rewrite home_set_bio by done. by eapply Hho.
Qed.

Lemma log_brelse_law x i :
  log_lrep pid s v -> lv_held v !! x = Some i -> x ∉ lv_pend v ->
  wp (bl_brelse pid i) (fun _ s' => log_lrep pid s' (l_drop x v)) s.
Proof.
  intros (w & H & Hv) Hx Hp. pose proof (ll_homes _ _ _ Hv _ _ Hx) as Hh.
  apply (lift_law _ w (fun _ => v_drop x w)); [done| |done|].
  - apply brelse_spec; [apply H| |]; [by rewrite <- (ll_held _ _ _ Hv)|].
    by rewrite <- (ll_pend _ _ _ Hv).
  - intros [] b Hb. destruct Hv as [Hbl ? ? ? Hho ? ? ?]. constructor; simpl; try done.
    + by apply home_blocks_set_bio.
    + congruence.
    + intros y j [_ Hy]%lookup_delete_Some. rewrite home_set_bio by done. by eapply Hho.
Qed.

Lemma log_log_write_law x i :
  log_lrep pid s v -> lv_held v !! x = Some i ->
  can_log v x ->
  wp (bl_log_write i) (fun _ s' => log_lrep pid s' (l_mark x v)) s.
Proof.
  intros (w & H & Hv) Hx [Hop Hr]. pose proof (ll_homes _ _ _ Hv _ _ Hx) as Hh.
  pose proof (lview_size w H Hv) as Hn. pose proof (ll_room _ _ _ Hv) as [R1 R2].
  pose proof (ll_out _ _ _ Hv) as [Ho Hc]. rewrite Hop in Ho. unfold NBUF in R1.
  eapply wp_mono; [apply (log_write_spec pid s w x); try done; try (unfold LOGSIZE; lia)|].
  { by rewrite <- (ll_held _ _ _ Hv). }
  intros [] s' (H' & E1 & E2 & E3 & E4 & E5). exists (v_mark x w). split; [done|].
  assert (Hhome : forall y, home_block s' y <-> home_block s y).
  { intros y. unfold home_block, in_log. by rewrite E1, E2, E5. }
  destruct Hv as [Hbl ? ? Hlg Hho ? ? ?]. constructor; simpl; rewrite ?E2, ?E3, ?E4; try done.
  - intros y e. by rewrite Hhome, (Hbl y e).
  - congruence.
  - congruence.
  - intros y j Hy. rewrite Hhome. by eapply Hho.
  - case_decide as Hin.
    + replace ({[x]} ∪ lv_logged v) with (lv_logged v) by set_solver. unfold NBUF. lia.
    + rewrite size_union by set_solver. rewrite size_singleton. unfold NBUF.
      destruct Hr as [|Hr]; [done|]. lia.
Qed.
End instance.

(** With no buffer held the lock owner does not matter. *)
Lemma log_rep_any_pid pid pid' s w : log_rep pid s w -> idle w -> log_rep pid' s w.
Proof.
  intros [[] ? ? ? ? ? ? ?] [Hh _]. constructor; try done. constructor; try done.
  intros i b Hb. specialize (br_bufs i b Hb). unfold buf_rep in *. rewrite Hh in *. done.
Qed.

Lemma log_rep_ops pid s w o c : log_rep pid s w -> log_rep pid (set_ops o c s) w.
Proof. intros [? [? ? ?] ? ? ? ? ? ?]. by constructor. Qed.

Lemma log_begin_op_law pid s bl :
  log_lrep pid s (quiet_view bl) ->
  wp bl_begin_op (fun _ s' => log_lrep pid s' (start_view bl)) s.
Proof.
  intros (w & H & [Hbl Hh Hp Hlg Hho [Ho Hc] _ Hsz]). simpl in *. unfold begin_op.
  wp_step. wp_step.
  assert (Hn : lh_n s = 0) by (rewrite (lr_n _ _ _ H), <- (log_rep_size _ _ _ H), <- Hlg; done).
  rewrite Hc, Hn, Ho. change (LOGSIZE <? 0 + (0 + 1) * MAXOPBLOCKS) with false. cbv iota.
  exists w. split; [by apply log_rep_ops|]. constructor; try done.
  cbn [lv_logged lv_room start_view]. unfold MAXOPBLOCKS in *. rewrite size_empty. unfold NBUF.
  split; [lia|]. simpl. lia.
Qed.

Lemma log_end_op_law pid pid' s bl lg room :
  log_lrep pid s (LView bl ∅ ∅ lg room true) ->
  wp (bl_end_op pid) (fun _ s' => log_lrep pid' s' (quiet_view bl)) s.
Proof.
  intros (w & H & Hv). pose proof (lview_size _ _ _ _ H Hv) as Hn.
  destruct Hv as [Hbl Hh Hp Hlg _ [Ho Hc] [R1 R2] Hsz]. simpl in *.
  assert (Hi : idle w) by done.
  eapply wp_mono; [apply (end_op_spec pid s w); try done; lia|].
  intros [] s' (w' & H' & Hi' & Hd & Hb & Ho' & Hc' & E1 & E2 & E3). exists w'.
  split; [by eapply log_rep_any_pid|]. destruct Hi' as [Hh' Hp'].
  constructor; cbn [lv_blocks lv_held lv_pend lv_logged lv_room lv_op quiet_view];
    rewrite ?E2; try done.
  - intros x d. rewrite (Hbl x d). unfold home_block, in_log. rewrite E1, E2, E3.
    split; intros [Hx Hxd]; (split; [done|]); specialize (Hb x Hx); congruence.
  - rewrite size_empty. unfold MAXOPBLOCKS, NBUF in *. lia.
Qed.

Lemma log_block_ok pid s v x d :
  log_lrep pid s v -> lv_blocks v !! x = Some d -> block_ok d.
Proof.
  intros (w & H & Hv) [_ Hx]%(ll_blocks _ _ _ Hv). by eapply (br_blocks _ _ _ (lr_bio _ _ _ H)).
Qed.

#[export] Instance log_block_layer : BlockLayer logst := {
  lrep := log_lrep;
  lrep_block_ok := log_block_ok;
  bread_law := log_bread_law;
  bdata_law := log_bdata_law;
  bput_law := log_bput_law;
  log_write_law := log_log_write_law;
  brelse_law := log_brelse_law;
  begin_op_law := log_begin_op_law;
  end_op_law := log_end_op_law }.

(** Between transactions, for any process. *)
Definition lquiet {S} `{BlockLayer S} (s : S) (bl : gmap Z (list Z)) : Prop :=
  forall pid, lrep pid s (quiet_view bl).

(** ** Derived rules for client code *)

(** Change a block and log the change. *)
Definition l_upd (x : Z) (d : list Z) (v : lview) : lview :=
  LView (<[x := d]> (lv_blocks v)) (lv_held v) (lv_pend v) ({[x]} ∪ lv_logged v)
        (if decide (x ∈ lv_logged v) then lv_room v else pred (lv_room v)) (lv_op v).

Section client.
Context {S : Type} `{BlockLayer S} (pid : Z).

Lemma l_drop_take x i v : lv_held v !! x = None -> l_drop x (l_take x i v) = v.
Proof. intros. destruct v. unfold l_drop, l_take. simpl in *. by rewrite delete_insert_id. Qed.

Lemma wp_bread s v x d {A} (k : nat -> M S A) Q :
  lrep pid s v -> lv_blocks v !! x = Some d -> lv_held v !! x = None ->
  (size (lv_held v) <= 1)%nat ->
  (forall i s', lrep pid s' (l_take x i v) -> wp (k i) Q s') ->
  wp (let* i := bl_bread pid ROOTDEV x in k i) Q s.
Proof. intros Hs Hx Hn Hsz HQ. eapply wp_seq; [by apply bread_law|]. done. Qed.

Lemma wp_bdata s v x i d {A} (k : list Z -> M S A) Q :
  lrep pid s (l_take x i v) -> lv_blocks v !! x = Some d ->
  (wp (k d) Q s) -> wp (let* d := bl_bdata i in k d) Q s.
Proof.
  intros Hs Hx HQ. eapply wp_seq; [eapply bdata_law; [done|apply lookup_insert_eq]|].
  simpl. intros d' s' [-> Hd]. congruence.
Qed.

Lemma wp_brelse s v x i (Q : unit -> S -> Prop) :
  lrep pid s (l_take x i v) -> lv_held v !! x = None -> lv_pend v = ∅ ->
  (forall s', lrep pid s' v -> Q tt s') -> wp (bl_brelse pid i) Q s.
Proof.
  intros Hs Hn Hp HQ. eapply wp_mono; [eapply brelse_law; [done|apply lookup_insert_eq|]|].
  - simpl. rewrite Hp. set_solver.
  - intros [] s'. rewrite l_drop_take by done. apply HQ.
Qed.

(** Overwrite a held block, log it and release it. *)
Lemma wp_update s v x i d {A} (k : unit -> M S A) Q :
  lrep pid s (l_take x i v) -> lv_held v !! x = None -> lv_pend v = ∅ -> block_ok d ->
  can_log v x ->
  (forall s', lrep pid s' (l_upd x d v) -> wp (k tt) Q s') ->
  wp (do* bl_bput i d in do* bl_log_write i in let* u := bl_brelse pid i in k u) Q s.
Proof.
  intros Hs Hn Hp Hd Hr HQ.
  eapply wp_seq; [eapply (bput_law pid _ _ x); [done|apply lookup_insert_eq|done]|].
  intros [] s1 H1.
  eapply wp_seq; [eapply (log_write_law pid _ _ x); [done|apply lookup_insert_eq|done]|].
  intros [] s2 H2.
  eapply wp_seq; [eapply (brelse_law pid _ _ x); [done|apply lookup_insert_eq|simpl; set_solver]|].
  intros [] s3 H3. apply HQ. replace (l_upd x d v) with (l_drop x (l_mark x (l_put x d (l_take x i v))));
    [done|]. unfold l_upd, l_drop, l_mark, l_put, l_take. simpl. f_equal.
  - by rewrite delete_insert_id.
  - rewrite Hp. set_solver.
Qed.
End client.
