(* ===== verification/ProcDefs.v ===== *)
(** * Processes: data

    [kernel/proc.h] and the limits of [kernel/param.h].  A pointer to a table
    entry is its index; a null pointer is [None]. *)

From S2P Require Import Prelude.

Definition NPROC : nat := 64.
Definition NOFILE : nat := 16.
Definition NFILE : nat := 100.
Definition NINODE : nat := 50.
Definition NDEV : Z := 10.
Definition MAXARG : nat := 32.
Definition MAXGROUPS : nat := 32.
Definition KSTACKSIZE : Z := 4096.

Inductive procstate := UNUSED | EMBRYO | SLEEPING | RUNNABLE | RUNNING | ZOMBIE.

#[export] Instance procstate_eq_dec : EqDecision procstate.
Proof. solve_decision. Defined.

(** Registers saved on entry to the kernel. *)
Record trapframe := TrapFrame {
  tf_edi : Z; tf_esi : Z; tf_ebp : Z; tf_ebx : Z; tf_edx : Z; tf_ecx : Z; tf_eax : Z;
  tf_es : Z; tf_ds : Z; tf_trapno : Z; tf_err : Z;
  tf_eip : Z; tf_cs : Z; tf_eflags : Z; tf_esp : Z; tf_ss : Z }.

Definition zero_tf : trapframe := TrapFrame 0 0 0 0 0 0 0 0 0 0 0 0 0 0 0 0.

Record proc := Proc {
  p_sz : Z;
  p_pgdir : Z;
  p_kstack : Z;
  p_state : procstate;
  p_pid : Z;
  p_parent : option nat;
  p_tf : trapframe;
  p_chan : option chan;
  p_killed : bool;
  p_ofile : list (option nat);
  p_cwd : option nat;
  p_name : list Z;
  p_uid : Z;
  p_euid : Z;
  p_ngroups : Z;
  p_gids : list Z }.

Definition zero_proc : proc :=
  Proc 0 0 0 UNUSED 0 None zero_tf None false (replicate NOFILE None) None
       (replicate 16 0) 0 0 0 (replicate MAXGROUPS 0).

Definition p_with_sz x p := Proc x (p_pgdir p) (p_kstack p) (p_state p) (p_pid p) (p_parent p)
  (p_tf p) (p_chan p) (p_killed p) (p_ofile p) (p_cwd p) (p_name p) (p_uid p) (p_euid p)
  (p_ngroups p) (p_gids p).
Definition p_with_pgdir x p := Proc (p_sz p) x (p_kstack p) (p_state p) (p_pid p) (p_parent p)
  (p_tf p) (p_chan p) (p_killed p) (p_ofile p) (p_cwd p) (p_name p) (p_uid p) (p_euid p)
  (p_ngroups p) (p_gids p).
Definition p_with_kstack x p := Proc (p_sz p) (p_pgdir p) x (p_state p) (p_pid p) (p_parent p)
  (p_tf p) (p_chan p) (p_killed p) (p_ofile p) (p_cwd p) (p_name p) (p_uid p) (p_euid p)
  (p_ngroups p) (p_gids p).
Definition p_with_state x p := Proc (p_sz p) (p_pgdir p) (p_kstack p) x (p_pid p) (p_parent p)
  (p_tf p) (p_chan p) (p_killed p) (p_ofile p) (p_cwd p) (p_name p) (p_uid p) (p_euid p)
  (p_ngroups p) (p_gids p).
Definition p_with_pid x p := Proc (p_sz p) (p_pgdir p) (p_kstack p) (p_state p) x (p_parent p)
  (p_tf p) (p_chan p) (p_killed p) (p_ofile p) (p_cwd p) (p_name p) (p_uid p) (p_euid p)
  (p_ngroups p) (p_gids p).
Definition p_with_parent x p := Proc (p_sz p) (p_pgdir p) (p_kstack p) (p_state p) (p_pid p) x
  (p_tf p) (p_chan p) (p_killed p) (p_ofile p) (p_cwd p) (p_name p) (p_uid p) (p_euid p)
  (p_ngroups p) (p_gids p).
Definition p_with_tf x p := Proc (p_sz p) (p_pgdir p) (p_kstack p) (p_state p) (p_pid p)
  (p_parent p) x (p_chan p) (p_killed p) (p_ofile p) (p_cwd p) (p_name p) (p_uid p) (p_euid p)
  (p_ngroups p) (p_gids p).
Definition p_with_chan x p := Proc (p_sz p) (p_pgdir p) (p_kstack p) (p_state p) (p_pid p)
  (p_parent p) (p_tf p) x (p_killed p) (p_ofile p) (p_cwd p) (p_name p) (p_uid p) (p_euid p)
  (p_ngroups p) (p_gids p).
Definition p_with_killed x p := Proc (p_sz p) (p_pgdir p) (p_kstack p) (p_state p) (p_pid p)
  (p_parent p) (p_tf p) (p_chan p) x (p_ofile p) (p_cwd p) (p_name p) (p_uid p) (p_euid p)
  (p_ngroups p) (p_gids p).
Definition p_with_ofile x p := Proc (p_sz p) (p_pgdir p) (p_kstack p) (p_state p) (p_pid p)
  (p_parent p) (p_tf p) (p_chan p) (p_killed p) x (p_cwd p) (p_name p) (p_uid p) (p_euid p)
  (p_ngroups p) (p_gids p).
Definition p_with_cwd x p := Proc (p_sz p) (p_pgdir p) (p_kstack p) (p_state p) (p_pid p)
  (p_parent p) (p_tf p) (p_chan p) (p_killed p) (p_ofile p) x (p_name p) (p_uid p) (p_euid p)
  (p_ngroups p) (p_gids p).
Definition p_with_name x p := Proc (p_sz p) (p_pgdir p) (p_kstack p) (p_state p) (p_pid p)
  (p_parent p) (p_tf p) (p_chan p) (p_killed p) (p_ofile p) (p_cwd p) x (p_uid p) (p_euid p)
  (p_ngroups p) (p_gids p).
Definition p_with_ids u e p := Proc (p_sz p) (p_pgdir p) (p_kstack p) (p_state p) (p_pid p)
  (p_parent p) (p_tf p) (p_chan p) (p_killed p) (p_ofile p) (p_cwd p) (p_name p) u e
  (p_ngroups p) (p_gids p).
Definition p_with_groups n g p := Proc (p_sz p) (p_pgdir p) (p_kstack p) (p_state p) (p_pid p)
  (p_parent p) (p_tf p) (p_chan p) (p_killed p) (p_ofile p) (p_cwd p) (p_name p) (p_uid p)
  (p_euid p) n g.
