(* ===== verification/ProcTable.v ===== *)
(** * The process table

    The parts of [kernel/proc.c] that work on [ptable] under its lock: slot
    allocation, sleep and wake-up, the ends of [fork], [exit] and [wait],
    [kill], [yield] and the choice of the scheduler.  Each is one step;
    [tstep] interleaves them on any number of CPUs. *)

From S2P Require Import Prelude ProcDefs.

Record ptab := PTab {
  pt_proc : list proc;
  pt_nextpid : Z;
  pt_initproc : option nat }.

Definition set_procs (l : list proc) (t : ptab) : ptab := PTab l (pt_nextpid t) (pt_initproc t).
Definition upd_proc (i : nat) (f : proc -> proc) : M ptab unit :=
  modify (fun t => set_procs (alter f i (pt_proc t)) t).
Definition read_proc (i : nat) : M ptab proc :=
  let* t := get in deref (pt_proc t !! i) "proc".

(** Wake the processes that sleep on [c]. *)
Definition awaken (c : option chan) (p : proc) : proc :=
  if bool_decide (p_state p = SLEEPING) && bool_decide (p_chan p = c)
  then p_with_state RUNNABLE p else p.
Definition wakeup1 (c : option chan) (l : list proc) : list proc := awaken c <$> l.

Definition wakeup (c : chan) : M ptab unit :=
  modify (fun t => set_procs (wakeup1 (Some c) (pt_proc t)) t).

(** The wake-ups emitted by code, in order. *)
Definition wakeups (w : list chan) (l : list proc) : list proc :=
  foldl (fun l c => wakeup1 (Some c) l) l w.

(** The first slot from [i] on in state UNUSED. *)
Fixpoint unused_slot (l : list proc) (i : nat) : option nat :=
  match l with
  | [] => None
  | p :: l => if bool_decide (p_state p = UNUSED) then Some i else unused_slot l (S i)
  end.

(** The locked part of [allocproc]. *)
Definition alloc_slot : M ptab (option nat) :=
  let* t := get in
  match unused_slot (pt_proc t) 0 with
  | None => ret None
  | Some i =>
      do* upd_proc i (fun p => p_with_pid (pt_nextpid t) (p_with_state EMBRYO p)) in
      do* modify (fun t => PTab (pt_proc t) (s32 (pt_nextpid t + 1)) (pt_initproc t)) in
      ret (Some i)
  end.

(** Going to sleep, and the two ways back. *)
Definition sleep_proc (c : option chan) (p : proc) : proc :=
  p_with_state SLEEPING (p_with_chan c p).
Definition resume_proc (p : proc) : proc := p_with_chan None p.

(** Pass the children of [me] to [init], from slot [j] on ([k] left). *)
Fixpoint reparent (k j me : nat) (init : option nat) (l : list proc) : list proc :=
  match k with
  | O => l
  | S k =>
      match l !! j with
      | Some p =>
          if bool_decide (p_parent p = Some me) then
            let l := <[j := p_with_parent init p]> l in
            let l := if bool_decide (p_state p = ZOMBIE) then wakeup1 (ChProc <$> init) l else l in
            reparent k (S j) me init l
          else reparent k (S j) me init l
      | None => l
      end
  end.

(** The locked part of [exit], up to [sched]. *)
Definition exit_table (me : nat) : M ptab unit :=
  let* p := read_proc me in
  do* modify (fun t => set_procs (wakeup1 (ChProc <$> p_parent p) (pt_proc t)) t) in
  do* modify (fun t => set_procs
        (reparent (length (pt_proc t)) 0 me (pt_initproc t) (pt_proc t)) t) in
  upd_proc me (p_with_state ZOMBIE).

(** The scan of [wait]: the first zombie child, and whether there are
    children. *)
Fixpoint zombie_child (me : nat) (l : list proc) (i : nat) : option nat :=
  match l with
  | [] => None
  | p :: l =>
      if bool_decide (p_parent p = Some me) && bool_decide (p_state p = ZOMBIE) then Some i
      else zombie_child me l (S i)
  end.
Definition havekids (me : nat) (l : list proc) : bool :=
  existsb (fun p => bool_decide (p_parent p = Some me)) l.

(** What [wait] does to the slot it reaps. *)
Definition reap (p : proc) : proc :=
  p_with_state UNUSED (p_with_killed false (p_with_name (<[0%nat := 0]> (p_name p))
    (p_with_parent None (p_with_pid 0 (p_with_kstack 0 p))))).

(** One pass of [wait]: the pid, and the stack and page directory to free. *)
Inductive wait_end := WaitDone (pid kstack pgdir : Z) | WaitFail | WaitSleep.
Definition wait_pass (me : nat) : M ptab wait_end :=
  let* t := get in
  match zombie_child me (pt_proc t) 0 with
  | Some i =>
      let* p := read_proc i in
      do* upd_proc i reap in
      ret (WaitDone (p_pid p) (p_kstack p) (p_pgdir p))
  | None =>
      let* p := read_proc me in
      if negb (havekids me (pt_proc t)) || p_killed p then ret WaitFail
      else ret WaitSleep
  end.

(** The first process with the pid. *)
Fixpoint find_pid (pid : Z) (l : list proc) (i : nat) : option nat :=
  match l with
  | [] => None
  | p :: l => if p_pid p =? pid then Some i else find_pid pid l (S i)
  end.

Definition kill (pid : Z) : M ptab Z :=
  let* t := get in
  match find_pid pid (pt_proc t) 0 with
  | None => ret (-1)
  | Some i =>
      do* upd_proc i (fun p =>
            let p := p_with_killed true p in
            if bool_decide (p_state p = SLEEPING) then p_with_state RUNNABLE p else p) in
      ret 0
  end.

(** ** The functions on tables *)

Lemma wakeup1_lookup c l i :
  wakeup1 c l !! i = awaken c <$> l !! i.
Proof. apply list_lookup_fmap. Qed.

Lemma awaken_parent c p : p_parent (awaken c p) = p_parent p.
Proof. unfold awaken. by case_match. Qed.
Lemma awaken_pid c p : p_pid (awaken c p) = p_pid p.
Proof. unfold awaken. by case_match. Qed.

Lemma awaken_state c p : p_state (awaken c p) =
  if decide (p_state p = SLEEPING /\ p_chan p = c) then RUNNABLE else p_state p.
Proof.
  unfold awaken. destruct (decide (p_state p = SLEEPING)), (decide (p_chan p = c));
    rewrite ?bool_decide_eq_true_2, ?bool_decide_eq_false_2 by done; cbn;
    [by rewrite decide_True|by rewrite decide_False by tauto..].
Qed.

Lemma zombie_child_spec me l k :
  match zombie_child me l k with
  | Some i => (k <= i)%nat /\ exists p, l !! (i - k)%nat = Some p /\ p_parent p = Some me /\ p_state p = ZOMBIE
  | None => forall j p, l !! j = Some p -> p_parent p = Some me -> p_state p <> ZOMBIE
  end.
Proof.
  revert k. induction l as [|p l IH]; intros k; cbn [zombie_child]; [done|].
  destruct (decide (p_parent p = Some me)) as [E1|E1], (decide (p_state p = ZOMBIE)) as [E2|E2];
    rewrite ?(bool_decide_eq_true_2 _ E1), ?(bool_decide_eq_false_2 _ E1),
      ?(bool_decide_eq_true_2 _ E2), ?(bool_decide_eq_false_2 _ E2); cbn [andb].
  { split; [lia|]. rewrite Nat.sub_diag. by exists p. }
  all: specialize (IH (S k)); destruct (zombie_child me l (S k)) as [i|];
    [destruct IH as (Hk & q & Hq & Hp); split; [lia|]; exists q;
     by replace (i - k)%nat with (S (i - S k)) by lia|].
  all: intros [|j] q Hq; [injection Hq as <-; congruence|by eapply IH].
Qed.

(** ** The system of processes and CPUs *)

(** [ts_cpu]: the process each CPU runs. *)
Record tsys := TSys { ts_tab : ptab; ts_cpu : list (option nat) }.

Abbreviation procs s := (pt_proc (ts_tab s)).

(** CPU [c] runs process [i]. *)
Definition runs (s : tsys) (c i : nat) : Prop := ts_cpu s !! c = Some (Some i).

Definition with_procs (s : tsys) (l : list proc) : tsys := TSys (set_procs l (ts_tab s)) (ts_cpu s).
Definition with_cpu (s : tsys) (c : nat) (x : option nat) : tsys :=
  TSys (ts_tab s) (<[c := x]> (ts_cpu s)).

Inductive tstep (s : tsys) : tsys -> Prop :=
| t_run c j p :                       (* scheduler, and sleep after sched *)
    ts_cpu s !! c = Some None -> procs s !! j = Some p -> p_state p = RUNNABLE ->
    tstep s (with_cpu (with_procs s (<[j := resume_proc (p_with_state RUNNING p)]> (procs s))) c (Some j))
| t_yield c i p :
    runs s c i -> procs s !! i = Some p ->
    tstep s (with_cpu (with_procs s (<[i := p_with_state RUNNABLE p]> (procs s))) c None)
| t_sleep c i p ch :                  (* sleep, on anything but a process *)
    runs s c i -> procs s !! i = Some p -> (forall j, ch <> ChProc j) ->
    tstep s (with_cpu (with_procs s (<[i := sleep_proc (Some ch) p]> (procs s))) c None)
| t_wakeup ch :                       (* by a process or an interrupt *)
    tstep s (with_procs s (wakeup1 (Some ch) (procs s)))
| t_alloc c i j t' w :                (* allocproc *)
    runs s c i -> alloc_slot (ts_tab s) = Ok (Some j) t' w ->
    tstep s (TSys t' (ts_cpu s))
| t_fork c i j p :                    (* the end of fork *)
    runs s c i -> procs s !! j = Some p -> p_state p = EMBRYO ->
    tstep s (with_procs s (<[j := p_with_state RUNNABLE (p_with_parent (Some i) p)]> (procs s)))
| t_fail c i j p :                    (* allocproc or fork, out of memory *)
    runs s c i -> procs s !! j = Some p -> p_state p = EMBRYO ->
    tstep s (with_procs s (<[j := p_with_state UNUSED (p_with_kstack 0 p)]> (procs s)))
| t_exit c i t' w :
    runs s c i -> pt_initproc (ts_tab s) <> Some i -> exit_table i (ts_tab s) = Ok tt t' w ->
    tstep s (with_cpu (TSys t' (ts_cpu s)) c None)
| t_wait c i t' w pid ks pg :
    runs s c i -> wait_pass i (ts_tab s) = Ok (WaitDone pid ks pg) t' w ->
    tstep s (TSys t' (ts_cpu s))
| t_wait_sleep c i p t' w :
    runs s c i -> wait_pass i (ts_tab s) = Ok WaitSleep t' w -> procs s !! i = Some p ->
    tstep s (with_cpu (with_procs s (<[i := sleep_proc (Some (ChProc i)) p]> (procs s))) c None)
| t_kill c i pid r t' w :
    runs s c i -> kill pid (ts_tab s) = Ok r t' w ->
    tstep s (TSys t' (ts_cpu s)).

(** A process that can still run. *)
Definition live (p : proc) : Prop :=
  p_state p = SLEEPING \/ p_state p = RUNNABLE \/ p_state p = RUNNING.

Record tinv (init : nat) (s : tsys) : Prop := {
  ti_init : pt_initproc (ts_tab s) = Some init;
  ti_init_live : exists p, procs s !! init = Some p /\ live p;
  (** a CPU runs RUNNING processes, no two CPUs the same one *)
  ti_run : forall c i, runs s c i -> exists p, procs s !! i = Some p /\ p_state p = RUNNING;
  ti_cpu : forall i p, procs s !! i = Some p -> p_state p = RUNNING -> exists c, runs s c i;
  ti_one : forall c d i, runs s c i -> runs s d i -> c = d;
  (** only [wait] sleeps on a process, on its own *)
  ti_chan : forall i j p, procs s !! i = Some p -> p_state p = SLEEPING ->
    p_chan p = Some (ChProc j) -> i = j;
  (** the parent of a process is alive *)
  ti_parent : forall i p, procs s !! i = Some p -> live p \/ p_state p = ZOMBIE -> i <> init ->
    exists q pq, p_parent p = Some q /\ q <> i /\ procs s !! q = Some pq /\ live pq;
  (** nobody sleeps in [wait] with a zombie child *)
  ti_wait : forall i p q pq, procs s !! i = Some p -> p_state p = ZOMBIE -> p_parent p = Some q ->
    procs s !! q = Some pq -> p_state pq = SLEEPING -> p_chan pq <> Some (ChProc q) }.

(** The process changed at most by being woken. *)
Definition woke (p p' : proc) : Prop :=
  p_parent p' = p_parent p /\ p_chan p' = p_chan p /\
  (p_state p' = p_state p \/ (p_state p = SLEEPING /\ p_state p' = RUNNABLE)).
Definition all_woke (l l' : list proc) : Prop :=
  (forall i p, l !! i = Some p -> exists p', l' !! i = Some p' /\ woke p p') /\
  (forall i p', l' !! i = Some p' -> exists p, l !! i = Some p /\ woke p p').

Lemma woke_awaken c p : woke p (awaken c p).
Proof.
  unfold woke. rewrite awaken_parent, awaken_state. unfold awaken. split; [done|].
  split; [by case_match|]. case_decide as E; [right; by destruct E|by left].
Qed.

Lemma all_woke_wakeup1 c l : all_woke l (wakeup1 c l).
Proof.
  split; intros i p Hi.
  - exists (awaken c p). split; [by rewrite wakeup1_lookup, Hi|apply woke_awaken].
  - rewrite wakeup1_lookup in Hi. destruct (l !! i) as [q|]; [|done]. injection Hi as <-.
    exists q. split; [done|apply woke_awaken].
Qed.

Lemma woke_live p p' : woke p p' -> live p' <-> live p.
Proof. unfold woke, live. intros (_ & _ & [->|[-> ->]]); tauto. Qed.

Lemma woke_state p p' st : woke p p' -> p_state p' = st -> st <> RUNNABLE -> p_state p = st.
Proof. intros (_ & _ & [E|[E1 E2]]); congruence. Qed.

(** Waking processes keeps the invariant. *)
Lemma tinv_woke init s l :
  tinv init s -> all_woke (procs s) l -> tinv init (with_procs s l).
Proof.
  intros [I1 I2 I3 I4 I5 I6 I7 I8] [W1 W2]. constructor; cbn [with_procs ts_tab pt_proc set_procs]; try done.
  - destruct I2 as (p & Hp & Hl). destruct (W1 _ _ Hp) as (p' & Hp' & Hw). exists p'.
    split; [done|]. by rewrite (woke_live _ _ Hw).
  - intros c i Hr. destruct (I3 c i Hr) as (p & Hp & Hs). destruct (W1 _ _ Hp) as (p' & Hp' & Hw).
    exists p'. split; [done|]. destruct Hw as (_ & _ & [?|[? ?]]); congruence.
  - intros i p' Hi Hs. destruct (W2 _ _ Hi) as (p & Hp & Hw). apply (I4 i p Hp).
    by eapply woke_state.
  - intros i j p' Hi Hs Hc. destruct (W2 _ _ Hi) as (p & Hp & Hw). eapply I6; [done| |].
    + by eapply woke_state. + destruct Hw as (_ & E & _). congruence.
  - intros i p' Hi Hl Hne. destruct (W2 _ _ Hi) as (p & Hp & Hw).
    destruct (I7 i p Hp) as (q & pq & Hq & Hqi & Hpq & Hlq); [|done|].
    + rewrite (woke_live _ _ Hw) in Hl. destruct Hl as [?|Hz]; [by left|right]. by eapply woke_state.
    + destruct (W1 _ _ Hpq) as (pq' & Hpq' & Hw'). exists q, pq'. split; [|split; [done|split; [done|]]].
      * destruct Hw as (-> & _). done. * by rewrite (woke_live _ _ Hw').
  - intros i p' q pq' Hi Hz Hpar Hq Hs. destruct (W2 _ _ Hi) as (p & Hp & Hw).
    destruct (W2 _ _ Hq) as (pq & Hpq & Hwq). destruct Hwq as (_ & -> & Hst).
    apply (I8 i p q pq Hp); [by eapply woke_state|destruct Hw; congruence|done|].
    destruct Hst as [?|[? ?]]; congruence.
Qed.

(** One process changes, not into a zombie, and possibly a CPU. *)
Lemma tinv_update init s j p p' cpu' :
  tinv init s -> procs s !! j = Some p -> (live p -> live p') -> p_state p' <> ZOMBIE ->
  (live p' -> j <> init -> exists q pq, p_parent p' = Some q /\ q <> j /\ procs s !! q = Some pq /\ live pq) ->
  (p_state p' = SLEEPING -> forall k, p_chan p' = Some (ChProc k) ->
     k = j /\ forall i pi, procs s !! i = Some pi -> p_state pi = ZOMBIE -> p_parent pi <> Some j) ->
  (forall d i, i <> j -> cpu' !! d = Some (Some i) <-> runs s d i) ->
  (forall d, cpu' !! d = Some (Some j) -> p_state p' = RUNNING) ->
  (p_state p' = RUNNING -> exists d, cpu' !! d = Some (Some j)) ->
  (forall c d, cpu' !! c = Some (Some j) -> cpu' !! d = Some (Some j) -> c = d) ->
  tinv init (TSys (set_procs (<[j := p']> (procs s)) (ts_tab s)) cpu').
Proof.
  intros [I1 I2 I3 I4 I5 I6 I7 I8] Hj Hlive Hnz Hpar Hsl Hother Hrun Hcpu Hone.
  assert (Hlt : (j < length (procs s))%nat) by (by eapply lookup_lt_Some).
  assert (Hj' : <[j := p']> (procs s) !! j = Some p') by (by apply list_lookup_insert_eq).
  assert (Hne : forall k, k <> j -> <[j := p']> (procs s) !! k = procs s !! k)
    by (intros k Hk; by apply list_lookup_insert_ne).
  assert (Hlv : forall k pk, procs s !! k = Some pk -> live pk ->
            exists pk', <[j := p']> (procs s) !! k = Some pk' /\ live pk').
  { intros k pk Hk Hl. destruct (decide (k = j)) as [->|]; [|exists pk; by rewrite Hne].
    exists p'. simplify_eq. auto. }
  constructor; cbn [ts_tab pt_proc set_procs ts_cpu runs]; try done.
  - destruct I2 as (pi & Hpi & Hl). by eapply Hlv.
  - intros c i Hc. destruct (decide (i = j)) as [->|Hij]; [exists p'; eauto|].
    rewrite Hne by done. apply (I3 c). by apply Hother.
  - intros i pi Hi Hs. destruct (decide (i = j)) as [->|Hij]; [simplify_eq; auto|].
    rewrite Hne in Hi by done. destruct (I4 _ _ Hi Hs) as (c & Hc). exists c. by apply Hother.
  - intros c d i Hc Hd. destruct (decide (i = j)) as [->|Hij]; [by apply Hone|].
    apply (I5 c d i); by apply Hother.
  - intros i k pi Hi Hs Hc. destruct (decide (i = j)) as [->|Hij].
    + simplify_eq. by destruct (Hsl Hs k Hc).
    + rewrite Hne in Hi by done. by eapply I6.
  - intros i pi Hi Hl Hni. destruct (decide (i = j)) as [->|Hij].
    + simplify_eq. destruct Hl as [Hl|]; [|done]. destruct (Hpar Hl Hni) as (q & pq & Hq & Hqj & Hpq & Hlq).
      destruct (Hlv _ _ Hpq Hlq) as (pq' & ? & ?). eauto 6.
    + rewrite Hne in Hi by done. destruct (I7 _ _ Hi Hl Hni) as (q & pq & Hq & Hqi & Hpq & Hlq).
      destruct (Hlv _ _ Hpq Hlq) as (pq' & ? & ?). eauto 6.
  - intros i pi q pq Hi Hz Hp Hq Hs Hc. destruct (decide (i = j)) as [->|Hij]; [by simplify_eq|].
    rewrite Hne in Hi by done. destruct (decide (q = j)) as [->|Hqj].
    + rewrite Hj' in Hq. simplify_eq. destruct (Hsl Hs j Hc) as [_ Hno]. by apply (Hno i pi).
    + rewrite Hne in Hq by done. by apply (I8 i pi q pq).
Qed.

(** A CPU gives up the process it runs. *)
Lemma cpu_drop s c i :
  runs s c i -> (forall c d i, runs s c i -> runs s d i -> c = d) ->
  let cpu' := <[c := None]> (ts_cpu s) in
  (forall d k, k <> i -> cpu' !! d = Some (Some k) <-> runs s d k) /\
  (forall d, cpu' !! d <> Some (Some i)).
Proof.
  intros Hr Hone cpu'. unfold cpu'. split.
  - intros d k Hk. unfold runs. destruct (decide (d = c)) as [->|Hd].
    + rewrite list_lookup_insert_eq by (by eapply lookup_lt_Some). unfold runs in Hr. rewrite Hr.
      split; [done|]. by intros [= ->].
    + by rewrite list_lookup_insert_ne.
  - intros d Hd. destruct (decide (d = c)) as [->|Hdc].
    + rewrite list_lookup_insert_eq in Hd by (by eapply lookup_lt_Some). done.
    + rewrite list_lookup_insert_ne in Hd by done. apply Hdc. by eapply Hone.
Qed.

(** A running process stops running without exiting: [yield] and [sleep]. *)
Lemma tinv_stop init s c i p p' :
  tinv init s -> runs s c i -> procs s !! i = Some p ->
  p_parent p' = p_parent p -> p_state p' = RUNNABLE \/ p_state p' = SLEEPING ->
  (p_state p' = SLEEPING -> forall k, p_chan p' = Some (ChProc k) ->
     k = i /\ forall i' pi, procs s !! i' = Some pi -> p_state pi = ZOMBIE -> p_parent pi <> Some i) ->
  tinv init (with_cpu (with_procs s (<[i := p']> (procs s))) c None).
Proof.
  intros Hi Hr Hp Hpar Hst Hsl. destruct (cpu_drop s c i Hr (ti_one _ _ Hi)) as [H1 H2].
  destruct (ti_run _ _ Hi _ _ Hr) as (p0 & Hp0 & Hs0). rewrite Hp in Hp0. injection Hp0 as <-.
  apply (tinv_update init s i p p'); try done.
  - unfold live. tauto.
  - intros E. destruct Hst; congruence.
  - intros _ Hne. rewrite Hpar. destruct (ti_parent _ _ Hi i p Hp) as (q & pq & ? & ? & ? & ?);
      [left; unfold live; tauto|done|]. exists q, pq. auto.
  - intros d Hd. by destruct (H2 d).
  - intros E. destruct Hst; congruence.
  - intros d e Hd. by destruct (H2 d).
Qed.

(** Zombie children of a process appear in the scan of [wait]. *)
Lemma wait_sleep_spec i t t' w :
  wait_pass i t = Ok WaitSleep t' w ->
  t' = t /\ forall j p, pt_proc t !! j = Some p -> p_state p = ZOMBIE -> p_parent p <> Some i.
Proof.
  unfold wait_pass, bind, get. cbn. pose proof (zombie_child_spec i (pt_proc t) 0) as Hz.
  destruct (zombie_child i (pt_proc t) 0) as [j|].
  - unfold read_proc, bind, get. cbn. destruct (pt_proc t !! j); done.
  - unfold read_proc, bind, get. cbn. destruct (pt_proc t !! i) as [p|]; [|done]. cbn.
    destruct (negb (havekids i (pt_proc t)) || p_killed p); [done|]. intros [= <- _].
    split; [done|]. intros k q Hk Hs Hp. by eapply (Hz k q).
Qed.

Lemma wait_done_spec i t pid ks pg t' w :
  wait_pass i t = Ok (WaitDone pid ks pg) t' w ->
  exists j p, pt_proc t !! j = Some p /\ p_parent p = Some i /\ p_state p = ZOMBIE /\
    pid = p_pid p /\ t' = set_procs (<[j := reap p]> (pt_proc t)) t.
Proof.
  unfold wait_pass, bind, get. cbn. pose proof (zombie_child_spec i (pt_proc t) 0) as Hz.
  destruct (zombie_child i (pt_proc t) 0) as [j|].
  - destruct Hz as (_ & p & Hp & Hpar & Hs). rewrite Nat.sub_0_r in Hp.
    unfold read_proc, bind, get. cbn. rewrite Hp. cbn. intros [= <- _ _ <- _]. exists j, p.
    split_and!; try done. by rewrite (alter_as_insert _ _ _ _ Hp).
  - unfold read_proc, bind, get. cbn. destruct (pt_proc t !! i) as [p|]; [|done]. cbn.
    by destruct (negb (havekids i (pt_proc t)) || p_killed p).
Qed.

(** The process after [reparent] went over its slot ([b]) or not. *)
Definition adopted (me : nat) (init : option nat) (b : bool) (p p' : proc) : Prop :=
  p_parent p' = (if b && bool_decide (p_parent p = Some me) then init else p_parent p) /\
  p_chan p' = p_chan p /\
  (p_state p' = p_state p \/ (p_state p = SLEEPING /\ p_state p' = RUNNABLE)).

Definition all_adopted (me : nat) (init : option nat) (j : nat) (l l' : list proc) : Prop :=
  length l' = length l /\
  forall i p, l !! i = Some p -> exists p', l' !! i = Some p' /\ adopted me init (j <=? i)%nat p p'.

(** Nobody sleeps on channel [c]. *)
Definition none_on (c : option chan) (l : list proc) : Prop :=
  forall i p, l !! i = Some p -> p_state p = SLEEPING -> p_chan p <> c.

Lemma none_on_wakeup1 c l : none_on c (wakeup1 c l).
Proof.
  intros i p' Hi Hs Hc. rewrite wakeup1_lookup in Hi. destruct (l !! i) as [p|]; [|done].
  injection Hi as <-. rewrite awaken_state in Hs. destruct (woke_awaken c p) as (_ & E & _).
  rewrite E in Hc. case_decide as Hd; [done|]. tauto.
Qed.

(** One slot of [reparent]. *)
Lemma reparent_slot me init l j p :
  l !! j = Some p -> p_parent p = Some me -> init <> Some me ->
  let l1 := <[j := p_with_parent init p]> l in
  let l2 := if bool_decide (p_state p = ZOMBIE) then wakeup1 (ChProc <$> init) l1 else l1 in
  length l2 = length l /\
  (forall i q, l !! i = Some q -> exists q', l2 !! i = Some q' /\
     p_parent q' = (if decide (i = j) then init else p_parent q) /\ p_chan q' = p_chan q /\
     (p_state q' = p_state q \/ (p_state q = SLEEPING /\ p_state q' = RUNNABLE))) /\
  (p_state p = ZOMBIE -> none_on (ChProc <$> init) l2).
Proof.
  intros Hj Hp Hne l1 l2. assert (Hlt : (j < length l)%nat) by (by eapply lookup_lt_Some).
  assert (H1 : forall i q, l !! i = Some q -> exists q1, l1 !! i = Some q1 /\
     p_parent q1 = (if decide (i = j) then init else p_parent q) /\ p_chan q1 = p_chan q /\
     p_state q1 = p_state q).
  { intros i q Hi. unfold l1. destruct (decide (i = j)) as [->|Hij].
    - rewrite list_lookup_insert_eq by done. simplify_eq. by eexists.
    - rewrite list_lookup_insert_ne by done. by eexists. }
  split_and!.
  - unfold l2, l1, wakeup1. destruct (bool_decide _); by rewrite ?length_fmap, length_insert.
  - intros i q Hi. destruct (H1 i q Hi) as (q1 & Hq1 & E1 & E2 & E3). unfold l2.
    destruct (bool_decide _); [|exists q1; auto].
    exists (awaken (ChProc <$> init) q1). split; [by rewrite wakeup1_lookup, Hq1|].
    destruct (woke_awaken (ChProc <$> init) q1) as (-> & -> & Hs). rewrite E1, E2, E3 in *. auto.
  - intros Hz. unfold l2. rewrite bool_decide_eq_true_2 by done. apply none_on_wakeup1.
Qed.

Lemma none_on_woken c (l l' : list proc) : length l' = length l ->
  (forall i p, l !! i = Some p -> exists p', l' !! i = Some p' /\ p_chan p' = p_chan p /\
     (p_state p' = p_state p \/ (p_state p = SLEEPING /\ p_state p' = RUNNABLE))) ->
  none_on c l -> none_on c l'.
Proof.
  intros Hlen Hw Hn i p' Hi Hs. assert (Hlt : (i < length l)%nat) by (rewrite <- Hlen; by eapply lookup_lt_Some).
  destruct (lookup_lt_is_Some_2 _ _ Hlt) as [p Hp]. destruct (Hw i p Hp) as (q & Hq & E & Hst).
  simplify_eq. rewrite E. apply (Hn i p Hp). destruct Hst as [?|[? ?]]; congruence.
Qed.

Lemma reparent_spec k j me init l :
  (j + k = length l)%nat -> init <> Some me ->
  let l' := reparent k j me init l in
  all_adopted me init j l l' /\
  ((exists i p, (j <= i)%nat /\ l !! i = Some p /\ p_parent p = Some me /\ p_state p = ZOMBIE) \/
   none_on (ChProc <$> init) l -> none_on (ChProc <$> init) l').
Proof.
  intros Hjk Hne. revert j l Hjk. induction k as [|k IH]; intros j l Hjk; cbn [reparent].
  { split.
    - split; [done|]. intros i p Hi. exists p. split; [done|]. pose proof (lookup_lt_Some _ _ _ Hi).
      unfold adopted. rewrite (proj2 (Nat.leb_gt _ _)) by lia. cbn. auto.
    - intros [(i & p & Hi & Hp & _)|?]; [|done]. apply lookup_lt_Some in Hp. lia. }
  destruct (lookup_lt_is_Some_2 l j) as [p Hp]; [lia|]. rewrite Hp.
  destruct (decide (p_parent p = Some me)) as [E|E].
  - rewrite bool_decide_eq_true_2 by done.
    destruct (reparent_slot me init l j p Hp E Hne) as (Hlen & Hslot & Hz).
    set (l2 := if bool_decide (p_state p = ZOMBIE) then _ else _) in *.
    destruct (IH (S j) l2) as [[Hlen' Hall] Hnone]; [rewrite Hlen; lia|]. split.
    + split; [congruence|]. intros i q Hi. destruct (Hslot i q Hi) as (q1 & Hq1 & P1 & C1 & S1).
      destruct (Hall i q1 Hq1) as (q2 & Hq2 & P2 & C2 & S2). exists q2. split; [done|].
      unfold adopted. rewrite P2, C2, C1. split; [|split; [done|]].
      * rewrite P1. destruct (decide (i = j)) as [->|Hij].
        -- rewrite Hp in Hi. injection Hi as <-.
           rewrite (proj2 (Nat.leb_gt _ _)), (proj2 (Nat.leb_le _ _)) by lia. cbn.
           by rewrite bool_decide_eq_true_2.
        -- destruct (Nat.leb_spec (S j) i), (Nat.leb_spec j i); try lia; done.
      * destruct S1 as [S1|[? S1]], S2 as [S2|[? S2]]; rewrite ?S1 in *; try tauto; congruence.
    + intros Hc. apply Hnone. destruct Hc as [(i & q & Hi & Hq & Hpar & Hst)|Hc].
      * destruct (decide (i = j)) as [->|Hij]; [right; apply Hz; congruence|]. left.
        destruct (Hslot i q Hq) as (q1 & Hq1 & P1 & C1 & S1). exists i, q1.
        split; [lia|]. split; [done|]. rewrite decide_False in P1 by done. split; [congruence|].
        destruct S1 as [?|[? ?]]; congruence.
      * right. eapply none_on_woken; [done| |done]. intros i q Hq.
        destruct (Hslot i q Hq) as (q1 & Hq1 & _ & C1 & S1). eauto.
  - rewrite bool_decide_eq_false_2 by done.
    destruct (IH (S j) l) as [[Hlen' Hall] Hnone]; [lia|]. split.
    + split; [done|]. intros i q Hi. destruct (Hall i q Hi) as (q2 & Hq2 & P2 & R2). exists q2.
      split; [done|]. split; [|done]. rewrite P2. destruct (decide (i = j)) as [->|Hij].
      * rewrite Hp in Hi. injection Hi as <-. rewrite bool_decide_eq_false_2 by done.
        by rewrite !andb_false_r.
      * destruct (Nat.leb_spec (S j) i), (Nat.leb_spec j i); try lia; done.
    + intros [(i & q & Hi & Hq & Hpar & Hst)|Hc]; apply Hnone; [left|by right].
      exists i, q. split; [|done]. destruct (decide (i = j)) as [->|]; [by simplify_eq|lia].
Qed.

(** The table after [exit]: wake the parent, pass the children on, turn into a
    zombie. *)
Lemma exit_table_spec i init t t' w :
  pt_initproc t = Some init -> init <> i -> exit_table i t = Ok tt t' w ->
  exists p l pi, pt_proc t !! i = Some p /\ l !! i = Some pi /\
    t' = set_procs (<[i := p_with_state ZOMBIE pi]> l) t /\
    all_adopted i (Some init) 0 (pt_proc t) l /\ none_on (ChProc <$> p_parent p) l /\
    ((exists k q, pt_proc t !! k = Some q /\ p_parent q = Some i /\ p_state q = ZOMBIE) ->
       none_on (Some (ChProc init)) l).
Proof.
  intros Hinit Hne. unfold exit_table, read_proc, bind, get. cbn.
  destruct (pt_proc t !! i) as [p|] eqn:Ep; [|done]. cbn. rewrite Hinit. unfold wakeup1 at 1. rewrite length_fmap.
  set (l1 := wakeup1 (ChProc <$> p_parent p) (pt_proc t)).
  assert (Hlen : length l1 = length (pt_proc t)) by apply length_fmap. intros [= <- _].
  destruct (reparent_spec (length (pt_proc t)) 0 i (Some init) l1) as [[Hl Hall] Hz]; [lia|congruence|].
  set (l := reparent _ _ _ _ l1) in *.
  assert (Hall' : forall k q, pt_proc t !! k = Some q -> exists q', l !! k = Some q' /\
            adopted i (Some init) true q q').
  { intros k q Hq. destruct (Hall k (awaken (ChProc <$> p_parent p) q)) as (q' & Hq' & P & C & S).
    - unfold l1. by rewrite wakeup1_lookup, Hq.
    - exists q'. split; [done|]. destruct (woke_awaken (ChProc <$> p_parent p) q) as (E1 & E2 & E3).
      unfold adopted. rewrite P, C, E1, E2. split; [done|]. split; [done|].
      destruct E3 as [E3|[? E3]], S as [S|[? S]]; rewrite ?E3 in *; try tauto; congruence. }
  destruct (Hall' i p Ep) as (pi & Hpi & _). exists p, l, pi. split_and!; try done.
  - by rewrite (alter_as_insert _ _ _ _ Hpi).
  - split; [congruence|done].
  - eapply (none_on_woken _ l1); [done| |apply none_on_wakeup1]. intros k q Hq.
    destruct (Hall k q Hq) as (q' & ? & _ & ? & ?). eauto.
  - intros (k & q & Hq & Hpar & Hst). apply Hz. left. exists k, (awaken (ChProc <$> p_parent p) q).
    split; [lia|]. split; [unfold l1; by rewrite wakeup1_lookup, Hq|].
    rewrite awaken_parent, awaken_state, Hst. split; [done|]. by rewrite decide_False by naive_solver.
Qed.

Lemma adopted_live i init q q' : adopted i init true q q' -> live q' <-> live q.
Proof. unfold adopted, live. intros (_ & _ & [->|[-> ->]]); tauto. Qed.

Lemma adopted_state i init q q' st :
  adopted i init true q q' -> st <> RUNNABLE -> p_state q' = st -> p_state q = st.
Proof. intros (_ & _ & [E|[E1 E2]]); congruence. Qed.

Lemma tinv_exit init s c i t' w :
  tinv init s -> runs s c i -> init <> i -> exit_table i (ts_tab s) = Ok tt t' w ->
  tinv init (with_cpu (TSys t' (ts_cpu s)) c None).
Proof.
  intros Hi Hr Hne He. pose proof Hi as [I1 I2 I3 I4 I5 I6 I7 I8].
  destruct (exit_table_spec i init _ _ _ I1 Hne He) as (p & l & pi & Hp & Hpi & -> & [Hlen Hall] & Hwp & Hwi).
  destruct (cpu_drop s c i Hr I5) as [C1 C2]. set (z := p_with_state ZOMBIE pi) in *.
  assert (Hlt : (i < length l)%nat) by (by eapply lookup_lt_Some).
  assert (Hback : forall k q', <[i := z]> l !! k = Some q' -> k <> i ->
            exists q, procs s !! k = Some q /\ adopted i (Some init) true q q' /\ l !! k = Some q').
  { intros k q' Hk Hki. rewrite list_lookup_insert_ne in Hk by done.
    destruct (lookup_lt_is_Some_2 (procs s) k) as [q Hq]; [rewrite <- Hlen; by eapply lookup_lt_Some|].
    destruct (Hall k q Hq) as (q2 & Hq2 & Ha). simplify_eq. eauto. }
  assert (Hfwd : forall k q, procs s !! k = Some q -> k <> i ->
            exists q', <[i := z]> l !! k = Some q' /\ adopted i (Some init) true q q').
  { intros k q Hk Hki. rewrite list_lookup_insert_ne by done. by apply Hall. }
  assert (Hz : <[i := z]> l !! i = Some z) by (by apply list_lookup_insert_eq).
  assert (Hparz : exists q, p_parent z = Some q /\ p_parent p = Some q /\ q <> i /\
            exists pq, procs s !! q = Some pq /\ live pq).
  { destruct (I3 c i Hr) as (p0 & Hp0 & Hs0). simplify_eq.
    destruct (I7 i p Hp) as (q & pq & Hq & Hqi & Hpq & Hlq); [left; unfold live; auto|done|].
    destruct (Hall i p Hp) as (p1 & Hp1 & E & _). simplify_eq. exists q. split_and!; eauto.
    cbn. rewrite E, Hq. cbn. by rewrite bool_decide_eq_false_2 by congruence. }
  constructor; cbn [with_cpu ts_tab pt_proc set_procs ts_cpu pt_initproc]; try done.
  - destruct I2 as (p0 & Hp0 & Hl0). destruct (Hfwd init p0 Hp0 Hne) as (q' & Hq' & Ha).
    exists q'. split; [done|]. by rewrite (adopted_live _ _ _ _ Ha).
  - intros d k Hk. destruct (decide (k = i)) as [->|Hki]; [by destruct (C2 d)|].
    destruct (I3 d k) as (q & Hq & Hs); [by apply C1|].
    destruct (Hfwd k q Hq Hki) as (q' & Hq' & _ & _ & Hst). exists q'. split; [done|].
    destruct Hst as [?|[? ?]]; congruence.
  - intros k q' Hk Hs. destruct (decide (k = i)) as [->|Hki]; [by simplify_eq|].
    destruct (Hback k q' Hk Hki) as (q & Hq & Ha & _).
    destruct (I4 k q Hq) as (d & Hd); [by eapply adopted_state|]. exists d. by apply C1.
  - intros d e k Hd He'. destruct (decide (k = i)) as [->|Hki]; [by destruct (C2 d)|].
    eapply I5; by apply C1.
  - intros k j q' Hk Hs Hc. destruct (decide (k = i)) as [->|Hki]; [by simplify_eq|].
    destruct (Hback k q' Hk Hki) as (q & Hq & Ha & _). eapply I6; [done|by eapply adopted_state|].
    destruct Ha as (_ & <- & _). done.
  - intros k q' Hk Hl Hki'. destruct (decide (k = i)) as [->|Hki].
    + rewrite Hz in Hk. injection Hk as <-. destruct Hparz as (q & E & _ & Hqi & pq & Hpq & Hlq).
      destruct (Hfwd q pq Hpq Hqi) as (pq' & Hpq' & Ha). exists q, pq'.
      rewrite (adopted_live _ _ _ _ Ha). done.
    + destruct (Hback k q' Hk Hki) as (q & Hq & Ha & _).
      destruct (I7 k q Hq) as (r & pr & Hr' & Hrk & Hpr & Hlr); [|done|].
      { rewrite (adopted_live _ _ _ _ Ha) in Hl. destruct Hl as [?|?]; [by left|right].
        by eapply adopted_state. }
      destruct Ha as (E & _). rewrite Hr' in E. cbn in E. destruct (decide (r = i)) as [->|Hri].
      * rewrite bool_decide_eq_true_2 in E by done. destruct I2 as (p0 & Hp0 & Hl0).
        destruct (Hfwd init p0 Hp0 Hne) as (p0' & Hp0' & Ha0). exists init, p0'.
        rewrite (adopted_live _ _ _ _ Ha0). auto.
      * rewrite bool_decide_eq_false_2 in E by congruence.
        destruct (Hfwd r pr Hpr Hri) as (pr' & Hpr' & Har). exists r, pr'.
        rewrite (adopted_live _ _ _ _ Har). auto.
  - intros k q' r pr' Hk Hst Hpar Hr' Hsl Hch. destruct (decide (r = i)) as [->|Hri]; [by simplify_eq|].
    destruct (Hback r pr' Hr' Hri) as (pr & Hpr & Har & Hlr).
    destruct (decide (k = i)) as [->|Hki].
    + rewrite Hz in Hk. injection Hk as <-. destruct Hparz as (q & E & E2 & _).
      rewrite Hpar in E. injection E as <-. apply (Hwp r pr' Hlr Hsl). by rewrite E2.
    + destruct (Hback k q' Hk Hki) as (q & Hq & Ha & _).
      assert (Hqz : p_state q = ZOMBIE) by (by eapply adopted_state). destruct Ha as (E & _). cbn in E.
      destruct (decide (p_parent q = Some i)) as [Ei|Ei].
      * rewrite bool_decide_eq_true_2, Hpar in E by done. injection E as ->.
        by apply (Hwi ltac:(eauto) init pr' Hlr Hsl).
      * rewrite bool_decide_eq_false_2 in E by done. apply (I8 k q r pr Hq Hqz); [congruence|done| |].
        -- by eapply adopted_state. -- destruct Har as (_ & <- & _). done.
Qed.

Lemma all_woke_insert l i p p' : l !! i = Some p -> woke p p' -> all_woke l (<[i := p']> l).
Proof.
  intros Hi Hw. assert (Hlt : (i < length l)%nat) by (by eapply lookup_lt_Some).
  assert (Hrefl : forall q, woke q q) by (intros q; unfold woke; auto).
  split; intros j q Hj; destruct (decide (j = i)) as [->|Hne].
  - exists p'. rewrite list_lookup_insert_eq by done. by simplify_eq.
  - exists q. by rewrite list_lookup_insert_ne.
  - rewrite list_lookup_insert_eq in Hj by done. exists p. by simplify_eq.
  - rewrite list_lookup_insert_ne in Hj by done. eauto.
Qed.

Lemma unused_slot_spec l k i : unused_slot l k = Some i ->
  (k <= i)%nat /\ exists p, l !! (i - k)%nat = Some p /\ p_state p = UNUSED.
Proof.
  revert k. induction l as [|p l IH]; intros k; cbn [unused_slot]; [done|].
  destruct (decide (p_state p = UNUSED)) as [E|E].
  - rewrite bool_decide_eq_true_2 by done. intros [= <-]. split; [lia|]. rewrite Nat.sub_diag. by exists p.
  - rewrite bool_decide_eq_false_2 by done. intros (Hk & q & Hq & Hs)%IH. split; [lia|]. exists q.
    by replace (i - k)%nat with (S (i - S k)) by lia.
Qed.

Lemma find_pid_spec pid l k i : find_pid pid l k = Some i ->
  (k <= i)%nat /\ exists p, l !! (i - k)%nat = Some p /\ p_pid p = pid.
Proof.
  revert k. induction l as [|p l IH]; intros k; cbn [find_pid]; [done|].
  destruct (Z.eqb_spec (p_pid p) pid) as [E|E].
  - intros [= <-]. split; [lia|]. rewrite Nat.sub_diag. by exists p.
  - intros (Hk & q & Hq & Hs)%IH. split; [lia|]. exists q.
    by replace (i - k)%nat with (S (i - S k)) by lia.
Qed.

Lemma find_pid_first pid l i p :
  l !! i = Some p -> p_pid p = pid ->
  (forall j q, (j < i)%nat -> l !! j = Some q -> p_pid q <> pid) -> find_pid pid l 0 = Some i.
Proof.
  intros Hi Hp Hf. assert (Hgen : forall k, find_pid pid l k = Some (k + i)%nat); [|apply (Hgen 0%nat)].
  revert i Hi Hf. induction l as [|q l IH]; intros i Hi Hf k; [done|]. cbn [find_pid].
  destruct i as [|i].
  - injection Hi as ->. rewrite (proj2 (Z.eqb_eq _ _)) by done. f_equal. lia.
  - rewrite (proj2 (Z.eqb_neq _ _)) by (apply (Hf 0%nat q); [lia|done]).
    rewrite (IH i); [f_equal; lia|done|]. intros j r Hj. apply (Hf (S j)). lia.
Qed.

(** A process that no CPU runs changes, and does not start to run. *)
Lemma tinv_idle_update init s j p p' :
  tinv init s -> procs s !! j = Some p -> p_state p <> RUNNING -> p_state p' <> RUNNING ->
  (live p -> live p') -> p_state p' <> ZOMBIE ->
  (live p' -> j <> init -> exists q pq, p_parent p' = Some q /\ q <> j /\ procs s !! q = Some pq /\ live pq) ->
  p_state p' <> SLEEPING ->
  tinv init (with_procs s (<[j := p']> (procs s))).
Proof.
  intros Hi Hj Hnr Hnr' Hl Hz Hp Hs.
  assert (Hno : forall d, ~ runs s d j).
  { intros d Hd. destruct (ti_run _ _ Hi d j Hd) as (q & Hq & Hst). by simplify_eq. }
  apply (tinv_update init s j p p'); try done.
  - intros d Hd. by destruct (Hno d).
  - intros c d Hd. by destruct (Hno c).
Qed.

Lemma tinv_step init s s' : tstep s s' -> tinv init s -> tinv init s'.
Proof.
  intros Hs Hi. pose proof Hi as [I1 I2 I3 I4 I5 I6 I7 I8].
  destruct Hs as [c j p Hc Hj Hst|c i p Hr Hp|c i p ch Hr Hp Hch|ch|c i j t' w Hr Ha|c i j p Hr Hj Hst|c i j p Hr Hj Hst
    |c i t' w Hr Hne He|c i t' w pid ks pg Hr Hw|c i p t' w Hr Hw Hp|c i pid r t' w Hr Hk].
  - assert (Hno : forall d, ~ runs s d j).
    { intros d Hd. destruct (I3 d j Hd) as (q & Hq & Hq'). simplify_eq. congruence. }
    assert (Hlt : (c < length (ts_cpu s))%nat) by (by eapply lookup_lt_Some).
    assert (Hcj : forall d, <[c := Some j]> (ts_cpu s) !! d = Some (Some j) -> d = c).
    { intros d Hd. destruct (decide (d = c)) as [|Hdc]; [done|].
      rewrite list_lookup_insert_ne in Hd by done. by destruct (Hno d). }
    apply (tinv_update init s j p); try done.
    + unfold live. cbn. auto.
    + intros _ Hji. apply (I7 j p Hj); [left; unfold live; auto|done].
    + intros d i Hij. destruct (decide (d = c)) as [->|Hdc].
      * rewrite list_lookup_insert_eq by done. unfold runs. rewrite Hc. split; [|done]. intros [= ->]. done.
      * by rewrite list_lookup_insert_ne.
    + intros _. exists c. by apply list_lookup_insert_eq.
    + intros d e Hd He. by rewrite (Hcj d Hd), (Hcj e He).
  - apply (tinv_stop init s c i p); try done. by left.
  - apply (tinv_stop init s c i p); try done; [by right|]. intros _ k [= ->]. by destruct (Hch k).
  - apply tinv_woke; [done|]. apply all_woke_wakeup1.
  - unfold alloc_slot, bind, get in Ha. cbn in Ha.
    destruct (unused_slot (pt_proc (ts_tab s)) 0) as [k|] eqn:Eu; [|done]. cbn in Ha. injection Ha as <- <- _.
    apply unused_slot_spec in Eu as (_ & p & Hp & Hst). rewrite Nat.sub_0_r in Hp.
    rewrite (alter_as_insert _ _ _ _ Hp).
    assert (Hx : tinv init (with_procs s
      (<[k := p_with_pid (pt_nextpid (ts_tab s)) (p_with_state EMBRYO p)]> (procs s)))).
    { apply (tinv_idle_update init s k p); try done; try congruence; unfold live; cbn; naive_solver congruence. }
    by destruct Hx; constructor.
  - destruct (I3 c i Hr) as (pi & Hpi & Hsi).
    apply (tinv_idle_update init s j p); try done; try congruence.
    + unfold live. cbn. auto.
    + intros _ _. exists i, pi. split_and!; [done| |done|unfold live; auto]. intros ->. congruence.
  - apply (tinv_idle_update init s j p); try done; try congruence; unfold live; cbn; naive_solver congruence.
  - rewrite I1 in Hne. eapply tinv_exit; [done|done|congruence|done].
  - destruct (wait_done_spec _ _ _ _ _ _ _ Hw) as (j & p & Hp & _ & Hz & _ & ->).
    apply (tinv_idle_update init s j p); try done; try congruence; unfold live; cbn; naive_solver congruence.
  - destruct (wait_sleep_spec _ _ _ _ Hw) as [_ Hno].
    apply (tinv_stop init s c i p); try done; [by right|]. intros _ k [= ->]. by split.
  - unfold kill, bind, get in Hk. cbn in Hk.
    destruct (find_pid pid (pt_proc (ts_tab s)) 0) as [k|] eqn:Ef; cbn in Hk; injection Hk as _ <- _;
      [|by destruct s].
    apply find_pid_spec in Ef as (_ & p & Ep & _). rewrite Nat.sub_0_r in Ep.
    rewrite (alter_as_insert _ _ _ _ Ep). apply tinv_woke; [done|].
    eapply all_woke_insert; [done|]. unfold woke. cbn.
    destruct (decide (p_state p = SLEEPING)) as [E|E];
      rewrite ?bool_decide_eq_true_2, ?bool_decide_eq_false_2 by done; cbn; auto.
Qed.

(** The first process, before the others exist. *)
Definition boot_procs (n : nat) : list proc :=
  p_with_pid 1 (p_with_state RUNNABLE zero_proc) :: replicate n zero_proc.
Definition tsys_init (n ncpu : nat) : tsys :=
  TSys (PTab (boot_procs n) 2 (Some 0%nat)) (replicate ncpu None).

Lemma tinv_init n ncpu : tinv 0 (tsys_init n ncpu).
Proof.
  assert (Hother : forall i p, procs (tsys_init n ncpu) !! i = Some p ->
            (i = 0%nat /\ p_state p = RUNNABLE) \/ p_state p = UNUSED).
  { intros [|i] p Hp; cbn in Hp; [injection Hp as <-; by left|right].
    by apply lookup_replicate in Hp as [-> _]. }
  assert (Hidle : forall c i, ~ runs (tsys_init n ncpu) c i).
  { intros c i Hr. unfold runs in Hr. cbn in Hr. by apply lookup_replicate in Hr as [? _]. }
  constructor; try done.
  - eexists. split; [done|]. unfold live. cbn. auto.
  - intros c i Hr. by destruct (Hidle c i).
  - intros i p Hp Hs. destruct (Hother i p Hp) as [[_ ?]|?]; congruence.
  - intros c d i Hr. by destruct (Hidle c i).
  - intros i j p Hp Hs. destruct (Hother i p Hp) as [[_ ?]|?]; congruence.
  - intros i p Hp Hl Hne. destruct (Hother i p Hp) as [[? _]|?]; [done|]. unfold live in Hl.
    destruct Hl as [[?|[?|?]]|?]; congruence.
  - intros i p q pq Hp Hz. destruct (Hother i p Hp) as [[_ ?]|?]; congruence.
Qed.

Lemma reachable_tinv n ncpu s : rtc tstep (tsys_init n ncpu) s -> tinv 0 s.
Proof. intros Hs. eapply rtc_preserve; [apply tinv_step|done|apply tinv_init]. Qed.

(** C37: however processes are scheduled on the CPUs, no two CPUs run the same
    process, and a process is in state RUNNING exactly while a CPU runs it. *)
Theorem running_exclusive n ncpu s :
  rtc tstep (tsys_init n ncpu) s ->
  (forall c d i, runs s c i -> runs s d i -> c = d) /\
  (forall i p, procs s !! i = Some p -> p_state p = RUNNING <-> exists c, runs s c i).
Proof.
  intros Hs%reachable_tinv. split; [apply Hs|]. intros i p Hp. split; [by apply (ti_cpu _ _ Hs)|].
  intros (c & Hc). destruct (ti_run _ _ Hs c i Hc) as (q & Hq & Hst). congruence.
Qed.

(** C34: [exit] and [wait] lose no wake-up: a process never sleeps in [wait]
    while it has a child that has exited. *)
Theorem wait_no_lost_wakeup n ncpu s i p q pq :
  rtc tstep (tsys_init n ncpu) s ->
  procs s !! i = Some p -> p_state p = ZOMBIE -> p_parent p = Some q -> procs s !! q = Some pq ->
  ~ (p_state pq = SLEEPING /\ p_chan pq = Some (ChProc q)).
Proof. intros Hs%reachable_tinv Hp Hz Hq Hpq [Hsl Hc]. by apply (ti_wait _ _ Hs i p q pq). Qed.

(** C38: a process that has exited can always be reaped: it has a parent that
    is still alive, the first process if its own parent is gone. *)
Theorem zombie_has_live_parent n ncpu s i p :
  rtc tstep (tsys_init n ncpu) s -> procs s !! i = Some p -> p_state p = ZOMBIE ->
  exists q pq, p_parent p = Some q /\ procs s !! q = Some pq /\ live pq.
Proof.
  intros Hs%reachable_tinv Hp Hz. destruct (decide (i = 0%nat)) as [->|Hne].
  - destruct (ti_init_live _ _ Hs) as (p0 & Hp0 & Hl). unfold live in Hl.
    destruct Hl as [?|[?|?]]; congruence.
  - destruct (ti_parent _ _ Hs i p Hp) as (q & pq & ? & _ & ? & ?); [by right|done|]. eauto.
Qed.

(** [kill] reports success on pid 0 as soon as a slot is unused, because
    such a slot has pid 0; the next process to get the slot starts killed. *)
Theorem kill_pid_0_hits_unused t i p :
  pt_proc t !! i = Some p -> p_state p = UNUSED -> p_pid p = 0 ->
  (forall j q, (j < i)%nat -> pt_proc t !! j = Some q -> p_pid q <> 0) ->
  wp (kill 0) (fun r t' => r = 0 /\ exists p', pt_proc t' !! i = Some p' /\
                 p_state p' = UNUSED /\ p_killed p' = true) t.
Proof.
  intros Hp Hs Hpid Hfirst. unfold kill. wp_step. wp_step. rewrite (find_pid_first 0 _ i p Hp Hpid Hfirst).
  wp_step. unfold upd_proc. wp_step. wp_step. split; [done|]. eexists.
  cbn [pt_proc set_procs]. rewrite list_lookup_alter_eq, Hp. cbn. split; [done|].
  rewrite bool_decide_eq_false_2 by (cbn; congruence). done.
Qed.
