(* ===== verification/Kalloc.v ===== *)
(** * Physical memory

    [kernel/kalloc.c] and the constants of [kernel/memlayout.h] and
    [kernel/mmu.h].  Memory is addressed by kernel virtual address; the free
    pages form a linked list through their first words ([struct run]).  The
    refinement theorems relate it to a list of free pages. *)

From S2P Require Import Prelude CString.

Definition EXTMEM : Z := 0x100000.
Definition PHYSTOP : Z := 0xE000000.
Definition DEVSPACE : Z := 0xFE000000.
Definition KERNBASE : Z := 0x80000000.
Definition KERNLINK : Z := 0x80100000.
Definition PGSIZE : Z := 4096.

Definition V2P (a : Z) : Z := u32 (a - KERNBASE).
Definition P2V (a : Z) : Z := u32 (a + KERNBASE).
Definition PGROUNDUP (sz : Z) : Z := Z.land (u32 (sz + PGSIZE - 1)) (Z.lnot (PGSIZE - 1)).
Definition PGROUNDDOWN (a : Z) : Z := Z.land a (Z.lnot (PGSIZE - 1)).

Lemma PGROUNDDOWN_eq a : PGROUNDDOWN a = PGSIZE * (a / PGSIZE).
Proof.
  unfold PGROUNDDOWN. change (PGSIZE - 1) with (Z.ones 12). rewrite <- Z.ldiff_land.
  rewrite Z.ldiff_ones_r by lia. rewrite Z.shiftr_div_pow2, Z.shiftl_mul_pow2 by lia.
  change (2 ^ 12) with PGSIZE. lia.
Qed.

Lemma PGROUNDUP_eq a : 0 <= a -> a + PGSIZE - 1 < 2 ^ 32 ->
  PGROUNDUP a = PGSIZE * ((a + PGSIZE - 1) / PGSIZE).
Proof.
  intros H1 H2. unfold PGROUNDUP. rewrite u32_small by (unfold PGSIZE in *; lia).
  apply PGROUNDDOWN_eq.
Qed.

Record kmem := Kmem { km_mem : memory; km_freelist : Z }.

Section kalloc.
(** [end], the first address after the kernel image, is set by the linker. *)
Context (kend : Z).

Definition kfree (v : Z) : M kmem unit :=
  if truth (v mod PGSIZE) || (v <? kend) || (PHYSTOP <=? V2P v) then panic "kfree" else
  do* modify (fun k => Kmem (memset (km_mem k) v 1 PGSIZE) (km_freelist k)) in
  modify (fun k => Kmem (store32 (km_mem k) v (km_freelist k)) v).

Definition kalloc : M kmem Z :=
  let* r := gets km_freelist in
  do* when negb (r =? 0) then
        modify (fun k => Kmem (km_mem k) (load32 (km_mem k) r)) in
  ret r.

(** Free the pages of [p, vend); [fuel] bounds their number. *)
Fixpoint freerange_loop (fuel : nat) (p vend : Z) : M kmem unit :=
  if u32 (p + PGSIZE) <=? vend then
    match fuel with
    | O => fault "freerange"
    | S fuel => do* kfree p in freerange_loop fuel (u32 (p + PGSIZE)) vend
    end
  else ret tt.

Definition freerange (vstart vend : Z) : M kmem unit :=
  let p := PGROUNDUP vstart in
  freerange_loop (Z.to_nat ((vend - p) / PGSIZE)) p vend.

(** [kinit1] and [kinit2] without their locking. *)
Definition kinit1 (vstart vend : Z) : M kmem unit := freerange vstart vend.
Definition kinit2 (vstart vend : Z) : M kmem unit := freerange vstart vend.

(** ** The free list *)

(** An address [kfree] accepts. *)
Definition page_ok (v : Z) : Prop := v mod PGSIZE = 0 /\ kend <= v /\ V2P v < PHYSTOP.

Fixpoint is_freelist (m : memory) (p : Z) (l : list Z) : Prop :=
  match l with
  | [] => p = 0
  | q :: l => p = q /\ q <> 0 /\ is_freelist m (load32 m q) l
  end.

(** The free pages, in the order of the list. *)
Record kmem_rep (k : kmem) (l : list Z) : Prop := {
  kr_list : is_freelist (km_mem k) (km_freelist k) l;
  kr_ok : Forall page_ok l;
  kr_range : Forall (fun q => 0 < q < 2 ^ 32) l;
  kr_nodup : NoDup l }.

(** An address inside page [q]. *)
Definition in_page (q x : Z) : Prop := q <= x < q + PGSIZE.

Lemma pages_disjoint q q' x :
  q mod PGSIZE = 0 -> q' mod PGSIZE = 0 -> in_page q x -> in_page q' x -> q = q'.
Proof.
  unfold in_page, PGSIZE. intros Hq Hq' H1 H2.
  pose proof (Z.div_mod q 4096 ltac:(lia)). pose proof (Z.div_mod q' 4096 ltac:(lia)). lia.
Qed.

Lemma is_freelist_ext m m' p l :
  (forall q x, q ∈ l -> q <= x < q + 4 -> m' x = m x) -> is_freelist m p l -> is_freelist m' p l.
Proof.
  revert p. induction l as [|q l IH]; intros p He; [done|]. intros (-> & Hq & Hl).
  split; [done|]. split; [done|]. rewrite (load32_ext m m'); [|intros x; apply He; left].
  apply IH; [|done]. intros y x Hy. apply He. by right.
Qed.

(** Changes outside of the free pages do not affect the free list. *)
Lemma kmem_rep_frame m m' p l :
  (forall q x, q ∈ l -> in_page q x -> m' x = m x) -> kmem_rep (Kmem m p) l -> kmem_rep (Kmem m' p) l.
Proof.
  intros He [H1 H2 H3 H4]. constructor; try done. cbn in *.
  eapply is_freelist_ext; [|done]. intros q x Hq Hx. apply (He q); [done|].
  unfold in_page, PGSIZE. lia.
Qed.

Lemma kalloc_spec k l (Q : Z -> kmem -> Prop) :
  kmem_rep k l ->
  match l with
  | [] => Q 0 k
  | q :: l' => forall k', km_mem k' = km_mem k -> kmem_rep k' l' -> Q q k'
  end -> wp kalloc Q k.
Proof.
  intros [H1 H2 H3 H4] HQ. unfold kalloc. wp_step. wp_step. wp_step. destruct l as [|q l].
  - cbn in H1. rewrite H1. cbn [negb Z.eqb]. wp_step. by wp_step.
  - destruct H1 as (Hq & Hne & H1). rewrite Hq. rewrite (proj2 (Z.eqb_neq q 0)) by done. cbn [negb].
    wp_step. wp_step. apply HQ; [done|]. apply NoDup_cons in H4 as [_ H4].
    constructor; try done; [by inversion H2|by inversion H3].
Qed.

Lemma kfree_spec k l v (Q : unit -> kmem -> Prop) :
  kmem_rep k l -> page_ok v -> 0 < v < 2 ^ 32 -> (v ∉ l) ->
  (forall k', kmem_rep k' (v :: l) -> (forall x, ~ in_page v x -> km_mem k' x = km_mem k x) ->
     Q tt k') -> wp (kfree v) Q k.
Proof.
  intros [H1 H2 H3 H4] Hok Hv Hn HQ. pose proof Hok as (Hm & He & Hp). unfold kfree.
  rewrite Hm. cbn [truth Z.eqb negb orb]. rewrite (proj2 (Z.ltb_ge _ _)) by done.
  rewrite (proj2 (Z.leb_gt _ _)) by done. cbn [orb]. wp_step. wp_step. wp_step.
  cbn [km_mem km_freelist].
  assert (Hother : forall x, ~ in_page v x ->
    store32 (memset (km_mem k) v 1 PGSIZE) v (km_freelist k) x = km_mem k x).
  { intros x Hx. unfold in_page, PGSIZE in *. rewrite store32_other by lia.
    rewrite memset_spec by lia. by rewrite decide_False. }
  apply HQ; [|done]. constructor; cbn [km_mem km_freelist]; try (by constructor).
  - split; [done|]. split; [lia|]. rewrite load_store32.
    assert (Hf : u32 (km_freelist k) = km_freelist k).
    { apply u32_small. destruct l as [|q l]; [cbn in H1; lia|].
      destruct H1 as (-> & _). inversion H3; subst. lia. }
    rewrite Hf. eapply is_freelist_ext; [|done]. intros q x Hq Hx. apply Hother. intros Hin.
    rewrite Forall_forall in H2. destruct (H2 q Hq) as (Hqm & _).
    apply Hn. rewrite (pages_disjoint v q x); try done. unfold in_page, PGSIZE. lia.
Qed.

(** The linked list of free pages behaves as a list of distinct pages:
    [kalloc] takes its first page, leaving the content of memory alone, and
    returns 0 exactly when there is none. *)
Theorem kalloc_correct k l :
  kmem_rep k l ->
  wp kalloc (fun r k' => km_mem k' = km_mem k /\ r = hd 0 l /\ (r = 0 <-> l = []) /\
               kmem_rep k' (tail l)) k.
Proof.
  intros Hk. apply (kalloc_spec k l); [done|]. pose proof (kr_range _ _ Hk) as Hr.
  destruct l as [|q l]; [done|]. intros k' Hm Hk'. inversion Hr; subst.
  split; [done|]. split; [done|]. split; [|done]. by split; [lia|].
Qed.

(** A page that is freed is the next one [kalloc] returns, whatever was
    in it; no other page is touched, and the rest of the free list is as
    before. *)
Theorem kfree_kalloc k l v :
  kmem_rep k l -> page_ok v -> 0 < v < 2 ^ 32 -> (v ∉ l) ->
  wp (do* kfree v in kalloc) (fun r k' => r = v /\ kmem_rep k' l /\
    forall x, ~ in_page v x -> km_mem k' x = km_mem k x) k.
Proof.
  intros Hk Hok Hv Hn. wp_step. apply (kfree_spec k l v); try done. intros k1 Hk1 Hm.
  apply (kalloc_spec k1 (v :: l)); [done|]. intros k2 Hm2 Hk2. split; [done|]. split; [done|].
  intros x Hx. rewrite Hm2. by apply Hm.
Qed.

(** [kfree] panics on an address that is not a page of free-able memory. *)
Theorem kfree_bad k v : ~ page_ok v -> kfree v k = Panic "kfree".
Proof.
  intros Hb. unfold kfree, page_ok in *.
  destruct (truth (v mod PGSIZE) || (v <? kend) || (PHYSTOP <=? V2P v)) eqn:E; [done|].
  destruct Hb. apply orb_false_iff in E as [[E1%truth_false E2]%orb_false_iff E3]. lia.
Qed.

(** ** Initialisation *)

(** [n] pages from [p] on. *)
Definition pages (p : Z) (n : nat) : list Z := (fun i => p + PGSIZE * Z.of_nat i) <$> seq 0 n.

Lemma pages_S p n : pages p (S n) = p :: pages (p + PGSIZE) n.
Proof.
  unfold pages. cbn [seq fmap list_fmap]. f_equal; [lia|].
  rewrite <- fmap_S_seq, <- list_fmap_compose. apply list_fmap_ext. intros i x _. cbn. lia.
Qed.

Lemma elem_of_pages p n x :
  x ∈ pages p n <-> exists i, (i < n)%nat /\ x = p + PGSIZE * Z.of_nat i.
Proof.
  unfold pages. rewrite list_elem_of_fmap. split.
  - intros (i & -> & Hi%elem_of_seq). exists i. split; [lia|done].
  - intros (i & Hi & ->). exists i. split; [done|]. apply elem_of_seq. lia.
Qed.

Lemma freerange_loop_spec n p vend k l (Q : unit -> kmem -> Prop) :
  kmem_rep k l -> kend <= p -> p mod PGSIZE = 0 -> KERNBASE <= p ->
  p + PGSIZE * Z.of_nat n <= vend < p + PGSIZE * (Z.of_nat n + 1) -> vend <= KERNBASE + PHYSTOP ->
  (forall q, q ∈ pages p n -> (q ∉ l)) ->
  (forall k', kmem_rep k' (rev (pages p n) ++ l) ->
     (forall x, ~ p <= x < p + PGSIZE * Z.of_nat n -> km_mem k' x = km_mem k x) -> Q tt k') ->
  wp (freerange_loop n p vend) Q k.
Proof.
  revert p k l. induction n as [|n IH]; intros p k l Hk He Hm Hb Hv Hmax Hn HQ;
    unfold KERNBASE, PHYSTOP, PGSIZE in *; cbn [freerange_loop]; unfold PGSIZE; rewrite u32_small by lia.
  { rewrite (proj2 (Z.leb_gt _ _)) by lia. wp_step. by apply HQ. }
  rewrite (proj2 (Z.leb_le _ _)) by lia. wp_step. rewrite pages_S in Hn, HQ.
  apply (kfree_spec k l p); [done| |lia| |].
  - split; [done|]. split; [done|]. unfold V2P, KERNBASE. rewrite u32_small by lia.
    unfold PHYSTOP. lia.
  - apply Hn. left.
  - intros k1 Hk1 Hm1. unfold PGSIZE in Hm1. apply (IH (p + 4096) k1 (p :: l)); try done; try lia.
    + rewrite Z.add_mod, Hm by lia. done.
    + intros q Hq [->|Hql]%elem_of_cons; [|by eapply Hn; [right|]].
      apply elem_of_pages in Hq as (i & _ & E). unfold PGSIZE in E. lia.
    + intros k2 Hk2 Hm2. apply HQ.
      * cbn [rev]. by rewrite <- app_assoc.
      * intros x Hx. rewrite Hm2 by lia. apply Hm1. unfold in_page, PGSIZE. lia.
Qed.

(** Initialisation puts every whole page of the range on the free list,
    each once, and touches no other memory. *)
Theorem freerange_correct k l vstart vend :
  let p := PGROUNDUP vstart in
  let n := Z.to_nat ((vend - p) / PGSIZE) in
  kmem_rep k l -> kend <= vstart -> KERNBASE <= vstart <= vend -> p <= vend <= KERNBASE + PHYSTOP ->
  (forall q, q ∈ l -> q < p \/ vend <= q) ->
  wp (freerange vstart vend) (fun _ k' => kmem_rep k' (rev (pages p n) ++ l) /\
    forall x, ~ p <= x < vend -> km_mem k' x = km_mem k x) k.
Proof.
  intros p n Hk He Hb Hv Hl. unfold freerange. fold p n.
  assert (Hmod : p mod PGSIZE = 0 /\ vstart <= p).
  { unfold p. rewrite PGROUNDUP_eq by (unfold PHYSTOP, KERNBASE, PGSIZE in *; lia).
    rewrite Z.mul_comm, Z_mod_mult. split; [done|]. unfold PGSIZE.
    pose proof (Z.div_mod (vstart + 4096 - 1) 4096 ltac:(lia)).
    pose proof (Z.mod_pos_bound (vstart + 4096 - 1) 4096 ltac:(lia)). lia. }
  assert (Hn : p + PGSIZE * Z.of_nat n <= vend < p + PGSIZE * (Z.of_nat n + 1)).
  { unfold n, PGSIZE. rewrite Z2Nat.id by (apply Z.div_pos; lia).
    pose proof (Z.div_mod (vend - p) 4096 ltac:(lia)).
    pose proof (Z.mod_pos_bound (vend - p) 4096 ltac:(lia)). lia. }
  apply (freerange_loop_spec n p vend k l); try done; try lia.
  - intros q (i & Hi & ->)%elem_of_pages Hq. apply Hl in Hq. unfold PGSIZE in *. lia.
  - intros k' Hk' Hm. split; [done|]. intros x Hx. apply Hm. lia.
Qed.
End kalloc.
