(* ===== verification/Vm.v ===== *)
(** * Virtual memory

    [kernel/vm.c] on the memory of [Kalloc]: page directories and page tables
    are pages, their entries 32-bit words.  The address translation a page
    directory defines is [pt]; the theorems say what [walkpgdir] and
    [mappages] do to it.  Diagnostics printed with [cprintf] are left out;
    the loading of segment and control registers is in [Segments]. *)

From S2P Require Import Prelude CString Kalloc.

Definition PTE_P : Z := 1.
Definition PTE_W : Z := 2.
Definition PTE_U : Z := 4.
Definition PDX (va : Z) : Z := Z.land (Z.shiftr va 22) 1023.
Definition PTX (va : Z) : Z := Z.land (Z.shiftr va 12) 1023.
Definition PGADDR (d t o : Z) : Z := u32 (Z.lor (Z.lor (Z.shiftl d 22) (Z.shiftl t 12)) o).
Definition PTE_ADDR (pte : Z) : Z := Z.land pte (Z.lnot 4095).
Definition PTE_FLAGS (pte : Z) : Z := Z.land pte 4095.
Definition NPDENTRIES : nat := 1024.

Definition present (pte : Z) : bool := truth (Z.land pte PTE_P).

Section vm.
(** [end] and [data], set by the linker. *)
Context (kend kdata : Z).

Definition rd32 (a : Z) : M kmem Z := gets (fun k => load32 (km_mem k) a).
Definition wr32 (a v : Z) : M kmem unit :=
  modify (fun k => Kmem (store32 (km_mem k) a v) (km_freelist k)).
Definition kmemset (a c n : Z) : M kmem unit :=
  modify (fun k => Kmem (memset (km_mem k) a c n) (km_freelist k)).
Definition kmemmove (d s n : Z) : M kmem unit :=
  modify (fun k => Kmem (memmove (km_mem k) d s n) (km_freelist k)).
Definition kstore (a : Z) (l : list Z) : M kmem unit :=
  modify (fun k => Kmem (store_bytes (km_mem k) a l) (km_freelist k)).

(** Address of the entry for [va]; [None] is the null pointer. *)
Definition walkpgdir (pgdir va : Z) (alloc : bool) : M kmem (option Z) :=
  let pde := pgdir + 4 * PDX va in
  let* e := rd32 pde in
  if present e then ret (Some (P2V (PTE_ADDR e) + 4 * PTX va))
  else if negb alloc then ret None
  else
    let* pgtab := kalloc in
    if pgtab =? 0 then ret None else
    do* kmemset pgtab 0 PGSIZE in
    do* wr32 pde (Z.lor (Z.lor (Z.lor (V2P pgtab) PTE_P) PTE_W) PTE_U) in
    ret (Some (pgtab + 4 * PTX va)).

(** The loop of [mappages]; [fuel] bounds the pages left after this one. *)
Fixpoint mappages_loop (fuel : nat) (pgdir a last pa perm : Z) : M kmem Z :=
  let* pte := walkpgdir pgdir a true in
  match pte with
  | None => ret (-1)
  | Some pte =>
      let* e := rd32 pte in
      if present e then panic "remap" else
      do* wr32 pte (Z.lor (Z.lor pa perm) PTE_P) in
      if a =? last then ret 0 else
      match fuel with
      | O => fault "mappages"
      | S fuel => mappages_loop fuel pgdir (u32 (a + PGSIZE)) last (u32 (pa + PGSIZE)) perm
      end
  end.

Definition mappages (pgdir va size pa perm : Z) : M kmem Z :=
  let a := PGROUNDDOWN va in
  let last := PGROUNDDOWN (u32 (va + size - 1)) in
  mappages_loop (Z.to_nat (u32 (last - a) / PGSIZE)) pgdir a last pa perm.

(** Free the user pages of [a, oldsz). *)
Fixpoint deallocuvm_loop (fuel : nat) (pgdir a oldsz : Z) : M kmem unit :=
  if a <? oldsz then
    match fuel with
    | O => fault "deallocuvm"
    | S fuel =>
        let* pte := walkpgdir pgdir a false in
        match pte with
        | None =>
            deallocuvm_loop fuel pgdir
              (u32 (u32 (PGADDR (PDX a + 1) 0 0 - PGSIZE) + PGSIZE)) oldsz
        | Some pte =>
            let* e := rd32 pte in
            do* when present e then
                  (if PTE_ADDR e =? 0 then panic "kfree" else
                   do* kfree kend (P2V (PTE_ADDR e)) in
                   wr32 pte 0) in
            deallocuvm_loop fuel pgdir (u32 (a + PGSIZE)) oldsz
        end
    end
  else ret tt.

Definition deallocuvm (pgdir oldsz newsz : Z) : M kmem Z :=
  if oldsz <=? newsz then ret oldsz else
  do* deallocuvm_loop (S (Z.to_nat (oldsz / PGSIZE))) pgdir (PGROUNDUP newsz) oldsz in
  ret newsz.

(** Free the page-table pages of entries [i ..] ([k] left). *)
Fixpoint free_tables (k : nat) (pgdir : Z) (i : Z) : M kmem unit :=
  match k with
  | O => ret tt
  | S k =>
      let* e := rd32 (pgdir + 4 * i) in
      do* when present e then kfree kend (P2V (PTE_ADDR e)) in
      free_tables k pgdir (i + 1)
  end.

Definition freevm (pgdir : Z) : M kmem unit :=
  if pgdir =? 0 then panic "freevm: no pgdir" else
  do* deallocuvm pgdir KERNBASE 0 in
  do* free_tables NPDENTRIES pgdir 0 in
  kfree kend pgdir.

(** The kernel's mappings. *)
Record kmap_entry := KMap { km_virt : Z; km_start : Z; km_end : Z; km_perm : Z }.
Definition kmap : list kmap_entry :=
  [ KMap KERNBASE 0 EXTMEM PTE_W;
    KMap KERNLINK (V2P KERNLINK) (V2P kdata) 0;
    KMap kdata (V2P kdata) PHYSTOP PTE_W;
    KMap DEVSPACE DEVSPACE 0 PTE_W ].

Fixpoint setupkvm_loop (pgdir : Z) (l : list kmap_entry) : M kmem Z :=
  match l with
  | [] => ret pgdir
  | k :: l =>
      let* r := mappages pgdir (km_virt k) (u32 (km_end k - km_start k)) (km_start k) (km_perm k) in
      if r <? 0 then do* freevm pgdir in ret 0 else setupkvm_loop pgdir l
  end.

Definition setupkvm : M kmem Z :=
  let* pgdir := kalloc in
  if pgdir =? 0 then ret 0 else
  do* kmemset pgdir 0 PGSIZE in
  if DEVSPACE <? P2V PHYSTOP then panic "PHYSTOP too high" else
  setupkvm_loop pgdir kmap.

(** [init]: the [sz] bytes of the program. *)
Definition inituvm (pgdir : Z) (init : list Z) : M kmem unit :=
  if PGSIZE <=? Z.of_nat (length init) then panic "inituvm: more than a page" else
  let* mem := kalloc in
  do* kmemset mem 0 PGSIZE in
  do* mappages pgdir 0 PGSIZE (V2P mem) (Z.lor PTE_W PTE_U) in
  kstore mem init.

Fixpoint allocuvm_loop (fuel : nat) (pgdir a oldsz newsz : Z) : M kmem Z :=
  if a <? newsz then
    match fuel with
    | O => fault "allocuvm"
    | S fuel =>
        let* mem := kalloc in
        if mem =? 0 then do* deallocuvm pgdir newsz oldsz in ret 0 else
        do* kmemset mem 0 PGSIZE in
        let* r := mappages pgdir a PGSIZE (V2P mem) (Z.lor PTE_W PTE_U) in
        if r <? 0 then
          do* deallocuvm pgdir newsz oldsz in
          do* kfree kend mem in ret 0
        else allocuvm_loop fuel pgdir (u32 (a + PGSIZE)) oldsz newsz
    end
  else ret newsz.

Definition allocuvm (pgdir oldsz newsz : Z) : M kmem Z :=
  if KERNBASE <=? newsz then ret 0 else
  if newsz <? oldsz then ret oldsz else
  allocuvm_loop (S (Z.to_nat (newsz / PGSIZE))) pgdir (PGROUNDUP oldsz) oldsz newsz.

Definition clearpteu (pgdir uva : Z) : M kmem unit :=
  let* pte := walkpgdir pgdir uva false in
  match pte with
  | None => panic "clearpteu"
  | Some pte => let* e := rd32 pte in wr32 pte (Z.land e (Z.lnot PTE_U))
  end.

(** Copy the pages of [i, sz) of [pgdir] into [d]. *)
Fixpoint copyuvm_loop (fuel : nat) (pgdir d i sz : Z) : M kmem Z :=
  if i <? sz then
    match fuel with
    | O => fault "copyuvm"
    | S fuel =>
        let* pte := walkpgdir pgdir i false in
        match pte with
        | None => panic "copyuvm: pte should exist"
        | Some pte =>
            let* e := rd32 pte in
            if negb (present e) then panic "copyuvm: page not present" else
            let* mem := kalloc in
            if mem =? 0 then do* freevm d in ret 0 else
            do* kmemmove mem (P2V (PTE_ADDR e)) PGSIZE in
            let* r := mappages d i PGSIZE (V2P mem) (PTE_FLAGS e) in
            if r <? 0 then
              do* kfree kend mem in do* freevm d in ret 0
            else copyuvm_loop fuel pgdir d (u32 (i + PGSIZE)) sz
        end
    end
  else ret d.

Definition copyuvm (pgdir sz : Z) : M kmem Z :=
  let* d := setupkvm in
  if d =? 0 then ret 0 else
  copyuvm_loop (S (Z.to_nat (sz / PGSIZE))) pgdir d 0 sz.

Definition uva2ka (pgdir uva : Z) : M kmem Z :=
  let* pte := walkpgdir pgdir uva false in
  let* pte := deref pte "uva2ka" in
  let* e := rd32 pte in
  if negb (present e) then ret 0 else
  if Z.land e PTE_U =? 0 then ret 0 else
  ret (P2V (PTE_ADDR e)).

Fixpoint copyout_loop (fuel : nat) (pgdir va : Z) (buf : list Z) : M kmem Z :=
  match buf with
  | [] => ret 0
  | _ =>
      match fuel with
      | O => fault "copyout"
      | S fuel =>
          let va0 := PGROUNDDOWN va in
          let* pa0 := uva2ka pgdir va0 in
          if pa0 =? 0 then ret (-1) else
          let n := Nat.min (Z.to_nat (PGSIZE - (va - va0))) (length buf) in
          do* kstore (pa0 + (va - va0)) (take n buf) in
          copyout_loop fuel pgdir (u32 (va0 + PGSIZE)) (drop n buf)
      end
  end.

(** [buf]: the [len] bytes at [p]; they touch at most [len/PGSIZE + 2] pages. *)
Definition copyout (pgdir va : Z) (buf : list Z) : M kmem Z :=
  copyout_loop (Z.to_nat (Z.of_nat (length buf) / PGSIZE) + 2) pgdir va buf.
End vm.

(** ** Page table entries *)

Lemma lor_add x f n : 0 <= n -> x mod 2 ^ n = 0 -> 0 <= f < 2 ^ n -> Z.lor x f = x + f.
Proof.
  intros Hn Hx Hf. pose proof (Z.add_lor_land x f) as E. replace (Z.land x f) with 0 in E; [lia|].
  symmetry. apply Z.bits_inj'. intros i Hi. rewrite Z.land_spec, Z.bits_0.
  destruct (Z.ltb_spec i n) as [Hlt|Hge].
  - replace (Z.testbit x i) with false; [done|]. symmetry.
    rewrite <- (Z.mod_pow2_bits_low x n i) by lia. by rewrite Hx, Z.bits_0.
  - rewrite andb_comm. replace (Z.testbit f i) with false; [done|]. symmetry.
    destruct (Z.eqb_spec f 0) as [->|]; [apply Z.bits_0|].
    apply Z.bits_above_log2; [lia|]. apply Z.log2_lt_pow2; [lia|].
    pose proof (Z.pow_le_mono_r 2 n i ltac:(lia) Hge). lia.
Qed.

Lemma PTE_ADDR_eq e : PTE_ADDR e = PGSIZE * (e / PGSIZE).
Proof. apply PGROUNDDOWN_eq. Qed.

Lemma pte_parts x f : x mod PGSIZE = 0 -> 0 <= f < PGSIZE ->
  Z.lor x f = x + f /\ PTE_ADDR (x + f) = x /\ PTE_FLAGS (x + f) = f.
Proof.
  intros Hx Hf. pose proof (Z.div_mod x PGSIZE ltac:(done)) as Hd. split_and!.
  - by apply (lor_add x f 12).
  - rewrite PTE_ADDR_eq. replace (x + f) with (x / PGSIZE * PGSIZE + f) by lia.
    rewrite Z.div_add_l by done. rewrite (Z.div_small f) by done. lia.
  - unfold PTE_FLAGS. change 4095 with (Z.ones 12). rewrite Z.land_ones by lia.
    change (2 ^ 12) with PGSIZE. rewrite Z.add_mod, Hx by done. rewrite Z.add_0_l, Z.mod_mod by done.
    by apply Z.mod_small.
Qed.

Lemma present_add x f : x mod PGSIZE = 0 -> 0 <= f -> present (x + f) = Z.odd f.
Proof.
  intros Hx Hf. unfold present, PTE_P, truth. change 1 with (Z.ones 1). rewrite Z.land_ones by lia.
  change (2 ^ 1) with 2. rewrite Zmod_odd. replace (Z.odd (x + f)) with (Z.odd f); [by destruct (Z.odd f)|].
  rewrite Z.odd_add. replace (Z.odd x) with false; [by rewrite xorb_false_l|].
  pose proof (Z.div_mod x PGSIZE ltac:(done)) as E. rewrite Hx in E. unfold PGSIZE in E.
  rewrite E, Z.add_0_r, Z.odd_mul. done.
Qed.

Lemma V2P_P2V t : 0 <= t < 2 ^ 32 -> P2V (V2P t) = t.
Proof.
  intros Ht. unfold P2V, V2P, u32. rewrite Zplus_mod_idemp_l.
  replace (t - KERNBASE + KERNBASE) with t by lia. by apply Z.mod_small.
Qed.

Lemma V2P_mod t : t mod PGSIZE = 0 -> V2P t mod PGSIZE = 0.
Proof.
  intros Ht. unfold V2P, u32, KERNBASE, PGSIZE in *.
  rewrite (Z.div_mod t 4096), Ht by lia.
  replace (4096 * (t / 4096) + 0 - 2147483648) with ((t / 4096 - 524288) * 4096) by lia.
  change (2 ^ 32) with (1048576 * 4096). rewrite Z.mul_mod_distr_r by lia. apply Z_mod_mult.
Qed.

Lemma PDX_range va : 0 <= PDX va < 1024.
Proof. unfold PDX. change 1023 with (Z.ones 10). rewrite Z.land_ones by lia. by apply Z.mod_pos_bound. Qed.
Lemma PTX_range va : 0 <= PTX va < 1024.
Proof. unfold PTX. change 1023 with (Z.ones 10). rewrite Z.land_ones by lia. by apply Z.mod_pos_bound. Qed.

(** The two indexes determine the page. *)
Lemma PDX_PTX va : 0 <= va < 2 ^ 32 -> PGROUNDDOWN va = 2 ^ 22 * PDX va + 2 ^ 12 * PTX va.
Proof.
  intros Hva. rewrite PGROUNDDOWN_eq. unfold PDX, PTX, PGSIZE. change 1023 with (Z.ones 10).
  rewrite !Z.land_ones, !Z.shiftr_div_pow2 by lia.
  change (2 ^ 22) with (4096 * 1024). change (2 ^ 12) with 4096. change (2 ^ 10) with 1024.
  rewrite <- Z.div_div by lia.
  rewrite (Z.mod_small (va / 4096 / 1024)).
  - pose proof (Z.div_mod (va / 4096) 1024 ltac:(lia)). lia.
  - split; [apply Z.div_pos; [apply Z.div_pos; lia|lia]|].
    apply Z.div_lt_upper_bound; [lia|]. apply Z.div_lt_upper_bound; lia.
Qed.

(** ** Address translation *)

Definition pde (m : memory) (pgdir i : Z) : Z := load32 m (pgdir + 4 * i).
Definition ptable_of (m : memory) (pgdir i : Z) : Z := P2V (PTE_ADDR (pde m pgdir i)).

(** The entry for [va]; 0 where there is no table. *)
Definition pt (m : memory) (pgdir va : Z) : Z :=
  if present (pde m pgdir (PDX va))
  then load32 m (ptable_of m pgdir (PDX va) + 4 * PTX va) else 0.

Section pt.
Context (kend : Z).

(** A page of memory that is not free. *)
Definition in_use (l : list Z) (q : Z) : Prop :=
  page_ok kend q /\ 0 < q < 2 ^ 32 /\ (q ∉ l).

(** A page directory and its tables are distinct pages in use; [l] is the list
    of free pages. *)
Record pgdir_rep (k : kmem) (pgdir : Z) (l : list Z) : Prop := {
  pr_free : kmem_rep kend k l;
  pr_dir : in_use l pgdir;
  pr_tab : forall i, 0 <= i < 1024 -> present (pde (km_mem k) pgdir i) = true ->
    in_use l (ptable_of (km_mem k) pgdir i) /\ ptable_of (km_mem k) pgdir i <> pgdir;
  pr_inj : forall i j, 0 <= i < 1024 -> 0 <= j < 1024 ->
    present (pde (km_mem k) pgdir i) = true -> present (pde (km_mem k) pgdir j) = true ->
    ptable_of (km_mem k) pgdir i = ptable_of (km_mem k) pgdir j -> i = j }.

Lemma slot_in_page q i x : 0 <= i < 1024 -> q + 4 * i <= x < q + 4 * i + 4 ->
  in_page q x.
Proof. unfold in_page, PGSIZE. lia. Qed.

Lemma page_apart q q' x y : q mod PGSIZE = 0 -> q' mod PGSIZE = 0 -> q <> q' ->
  in_page q x -> in_page q' y -> x <> y.
Proof. intros Hq Hq' Hne Hx Hy ->. apply Hne. by eapply pages_disjoint. Qed.

Lemma in_use_mod l q : in_use l q -> q mod PGSIZE = 0.
Proof. by intros ((? & _) & _). Qed.

(** Memory changed only at one word of page [q]: what other words hold. *)
Lemma word_other m m' q i q' j :
  (forall x, ~ (q + 4 * i <= x < q + 4 * i + 4) -> m' x = m x) ->
  q mod PGSIZE = 0 -> q' mod PGSIZE = 0 -> 0 <= i < 1024 -> 0 <= j < 1024 ->
  q <> q' \/ i <> j -> load32 m' (q' + 4 * j) = load32 m (q' + 4 * j).
Proof.
  intros Hm Hq Hq' Hi Hj Hne. apply load32_ext. intros x Hx. apply Hm. intros Hx'.
  destruct (decide (q = q')) as [->|Hqq]; [|].
  - destruct Hne; [done|]. lia.
  - apply (page_apart q q' x x Hq Hq' Hqq); [by apply (slot_in_page q i)|by apply (slot_in_page q' j)|done].
Qed.

(** Storing a non-directory word of the page tables changes one entry. *)
Lemma pt_store k pgdir l va e :
  pgdir_rep k pgdir l -> present (pde (km_mem k) pgdir (PDX va)) = true ->
  let a := ptable_of (km_mem k) pgdir (PDX va) + 4 * PTX va in
  let k' := Kmem (store32 (km_mem k) a e) (km_freelist k) in
  pgdir_rep k' pgdir l /\
  forall va', pt (km_mem k') pgdir va' =
    if decide (PDX va' = PDX va /\ PTX va' = PTX va) then u32 e else pt (km_mem k) pgdir va'.
Proof.
  intros [R1 R2 R3 R4] Hp a k'. pose proof (PDX_range va) as Hd. pose proof (PTX_range va) as Ht.
  destruct (R3 _ Hd Hp) as [Hu Hne]. set (t := ptable_of (km_mem k) pgdir (PDX va)) in *.
  assert (Hm : forall x, ~ (t + 4 * PTX va <= x < t + 4 * PTX va + 4) -> km_mem k' x = km_mem k x).
  { intros x Hx. by apply store32_other. }
  pose proof (in_use_mod _ _ Hu) as Htm. pose proof (in_use_mod _ _ R2) as Hdm.
  assert (Epde : forall i, 0 <= i < 1024 -> pde (km_mem k') pgdir i = pde (km_mem k) pgdir i).
  { intros i Hi. apply (word_other _ _ t (PTX va)); auto. }
  assert (Etab : forall i, 0 <= i < 1024 -> ptable_of (km_mem k') pgdir i = ptable_of (km_mem k) pgdir i).
  { intros i Hi. unfold ptable_of. by rewrite Epde. }
  split.
  - constructor.
    + apply (kmem_rep_frame kend (km_mem k)); [|by destruct k]. intros q x Hq Hx. apply Hm. intros Hx'.
      assert (Hqm : q mod PGSIZE = 0).
      { pose proof (kr_ok _ _ _ R1) as Hok. rewrite Forall_forall in Hok. by destruct (Hok q Hq). }
      apply (page_apart q t x x Hqm Htm); [intros ->; by apply Hu|done| |done].
      by apply (slot_in_page t (PTX va)).
    + done.
    + intros i Hi. rewrite Epde, Etab by done. by apply R3.
    + intros i j Hi Hj. rewrite !Epde, !Etab by done. by apply R4.
  - intros va'. unfold pt. pose proof (PDX_range va') as Hd'. pose proof (PTX_range va') as Ht'.
    rewrite Epde, Etab by done. destruct (decide (PDX va' = PDX va)) as [E|E].
    + rewrite E, Hp. destruct (decide (PTX va' = PTX va)) as [E2|E2].
      * rewrite decide_True by done. rewrite E2. apply load_store32.
      * rewrite decide_False by tauto. apply (word_other _ _ t (PTX va)); auto.
    + rewrite decide_False by tauto. destruct (present (pde (km_mem k) pgdir (PDX va'))) eqn:Ep; [|done].
      destruct (R3 _ Hd' Ep) as [Hu' _].
      apply (word_other _ _ t (PTX va)); [done|done|by eapply in_use_mod|done|done|].
      left. intros Heq. apply E. symmetry. by apply R4.
Qed.

Definition table_pte (t : Z) : Z := Z.lor (Z.lor (Z.lor (V2P t) PTE_P) PTE_W) PTE_U.

Lemma table_pte_spec t : t mod PGSIZE = 0 -> 0 <= t < 2 ^ 32 ->
  u32 (table_pte t) = table_pte t /\ present (table_pte t) = true /\ P2V (PTE_ADDR (table_pte t)) = t.
Proof.
  intros Hm Hr. pose proof (V2P_mod t Hm) as Hv.
  assert (Hb : 0 <= V2P t < 2 ^ 32) by apply u32_range.
  assert (E : table_pte t = V2P t + 7).
  { unfold table_pte. rewrite <- !Z.lor_assoc. by destruct (pte_parts (V2P t) 7 Hv ltac:(done)). }
  rewrite E. destruct (pte_parts (V2P t) 7 Hv ltac:(done)) as (_ & Ha & _). split_and!.
  - apply u32_small. pose proof (Z.div_mod (V2P t) PGSIZE ltac:(done)). unfold PGSIZE in *. lia.
  - by rewrite present_add.
  - rewrite Ha. by apply V2P_P2V.
Qed.

(** Entering a fresh zeroed table in the directory changes no translation. *)
Lemma pt_new_table k fl pgdir t l i :
  pgdir_rep k pgdir (t :: l) -> kmem_rep kend (Kmem (km_mem k) fl) l -> 0 <= i < 1024 ->
  present (pde (km_mem k) pgdir i) = false ->
  let k' := Kmem (store32 (memset (km_mem k) t 0 PGSIZE) (pgdir + 4 * i) (table_pte t)) fl in
  pgdir_rep k' pgdir l /\ present (pde (km_mem k') pgdir i) = true /\ ptable_of (km_mem k') pgdir i = t /\
  forall va, pt (km_mem k') pgdir va = pt (km_mem k) pgdir va.
Proof.
  intros [R1 R2 R3 R4] Hf Hi Hnp k'.
  assert (Hlist : page_ok kend t /\ 0 < t < 2 ^ 32 /\ (t ∉ l)).
  { pose proof (kr_ok _ _ _ R1) as H1. pose proof (kr_range _ _ _ R1) as H2.
    pose proof (kr_nodup _ _ _ R1) as H3. inversion H1; inversion H2; subst.
    by apply NoDup_cons in H3 as [? _]. }
  assert (Htm : t mod PGSIZE = 0) by apply Hlist.
  pose proof (in_use_mod _ _ R2) as Hdm.
  assert (Hdt : pgdir <> t) by (intros ->; apply R2; left).
  destruct (table_pte_spec t Htm ltac:(lia)) as (Hu & Hp & Ha).
  assert (Hm : forall x, ~ (pgdir + 4 * i <= x < pgdir + 4 * i + 4) -> ~ in_page t x ->
            km_mem k' x = km_mem k x).
  { intros x H1 H2. cbn [km_mem k']. unfold k'. cbn [km_mem]. rewrite store32_other by done.
    rewrite memset_spec by done. by rewrite decide_False by (unfold in_page in H2; lia). }
  assert (Hz : forall j, 0 <= j < 1024 -> load32 (km_mem k') (t + 4 * j) = 0).
  { intros j Hj. transitivity (load32 (fun _ => 0) (t + 4 * j)); [|done]. apply load32_ext.
    intros x Hx. assert (Hin : in_page t x) by (by apply (slot_in_page t j)).
    unfold k'. cbn [km_mem]. rewrite store32_other.
    - rewrite memset_spec by done. by rewrite decide_True.
    - intros Hx'. apply (page_apart pgdir t x x Hdm Htm Hdt); [by apply (slot_in_page _ i)|done|done]. }
  assert (Hword : forall q j, q mod PGSIZE = 0 -> q <> t -> 0 <= j < 1024 -> q <> pgdir \/ j <> i ->
            load32 (km_mem k') (q + 4 * j) = load32 (km_mem k) (q + 4 * j)).
  { intros q j Hq Hqt Hj Hne. apply load32_ext. intros x Hx.
    assert (Hin : in_page q x) by (by apply (slot_in_page q j)). apply Hm.
    - intros Hx'. destruct Hne as [Hne|Hne]; [|destruct (decide (q = pgdir)) as [->|Hq2]; [lia|]];
        eapply (page_apart q pgdir x x Hq Hdm); try done; by apply (slot_in_page _ i).
    - intros Hx'. by apply (page_apart q t x x Hq Htm Hqt). }
  assert (Ei : pde (km_mem k') pgdir i = table_pte t).
  { unfold pde, k'. cbn [km_mem]. by rewrite load_store32. }
  assert (Ej : forall j, 0 <= j < 1024 -> j <> i -> pde (km_mem k') pgdir j = pde (km_mem k) pgdir j).
  { intros j Hj Hji. apply Hword; auto. }
  assert (Eti : ptable_of (km_mem k') pgdir i = t) by (unfold ptable_of; by rewrite Ei).
  assert (Etj : forall j, 0 <= j < 1024 -> j <> i -> ptable_of (km_mem k') pgdir j = ptable_of (km_mem k) pgdir j).
  { intros j Hj Hji. unfold ptable_of. by rewrite Ej. }
  assert (Hold : forall j, 0 <= j < 1024 -> present (pde (km_mem k) pgdir j) = true ->
            in_use l (ptable_of (km_mem k) pgdir j) /\ ptable_of (km_mem k) pgdir j <> pgdir /\
            ptable_of (km_mem k) pgdir j <> t).
  { intros j Hj Hpj. destruct (R3 j Hj Hpj) as [(H1 & H2 & H3) H4]. rewrite not_elem_of_cons in H3.
    destruct H3. done. }
  split; [constructor|].
  - apply (kmem_rep_frame kend (km_mem k)); [|done]. intros q x Hq Hx. apply Hm.
    + intros Hx'. assert (Hqm : q mod PGSIZE = 0).
      { pose proof (kr_ok _ _ _ Hf) as Hok. rewrite Forall_forall in Hok. by destruct (Hok q Hq). }
      apply (page_apart q pgdir x x Hqm Hdm); [|done|by apply (slot_in_page _ i)|done].
      intros ->. apply R2. by right.
    + intros Hx'. assert (Hqm : q mod PGSIZE = 0).
      { pose proof (kr_ok _ _ _ Hf) as Hok. rewrite Forall_forall in Hok. by destruct (Hok q Hq). }
      apply (page_apart q t x x Hqm Htm); [|done|done|done]. intros ->. by apply Hlist.
  - destruct R2 as (H1 & H2 & H3). rewrite not_elem_of_cons in H3. by destruct H3.
  - intros j Hj. destruct (decide (j = i)) as [->|Hji].
    + rewrite Eti. intros _. split; [done|]. auto.
    + rewrite Ej, Etj by done. intros Hpj. by destruct (Hold j Hj Hpj) as (? & ? & _).
  - intros a b Ha' Hb' Hpa Hpb Heq.
    destruct (decide (a = i)) as [->|Hai], (decide (b = i)) as [->|Hbi]; [done| | |].
    + rewrite Eti, Etj in Heq by done. rewrite Ej in Hpb by done.
      destruct (Hold b Hb' Hpb) as (_ & _ & Hne). by symmetry in Heq.
    + rewrite Eti, Etj in Heq by done. rewrite Ej in Hpa by done.
      by destruct (Hold a Ha' Hpa) as (_ & _ & Hne).
    + rewrite !Etj in Heq by done. rewrite !Ej in Hpa, Hpb by done. by apply R4.
  - rewrite Ei. split; [done|]. split; [done|]. intros va. unfold pt.
    pose proof (PDX_range va) as Hd. destruct (decide (PDX va = i)) as [E|E].
    + rewrite E, Ei, Hp, Eti, Hz, Hnp by apply PTX_range. done.
    + rewrite Ej, Etj by done. destruct (present (pde (km_mem k) pgdir (PDX va))) eqn:Ep; [|done].
      destruct (Hold _ Hd Ep) as (H1 & H2 & H3). apply Hword; [by eapply in_use_mod|done|apply PTX_range|auto].
Qed.

(** Address of the entry for [va] in an existing table. *)
Definition pte_addr (k : kmem) (pgdir va : Z) : Z :=
  ptable_of (km_mem k) pgdir (PDX va) + 4 * PTX va.

(** [walkpgdir] with allocation: it finds or makes the table for [va], taking
    at most one free page and changing no translation. *)
Lemma walkpgdir_alloc k pgdir l va (Q : option Z -> kmem -> Prop) :
  pgdir_rep k pgdir l -> l <> [] ->
  (forall k' l', pgdir_rep k' pgdir l' -> (length l <= S (length l'))%nat ->
     (forall x, x ∈ l' -> x ∈ l) ->
     present (pde (km_mem k') pgdir (PDX va)) = true ->
     (forall va', pt (km_mem k') pgdir va' = pt (km_mem k) pgdir va') ->
     Q (Some (pte_addr k' pgdir va)) k') ->
  wp (walkpgdir pgdir va true) Q k.
Proof.
  intros Hr Hl HQ. unfold walkpgdir. wp_step. unfold rd32. wp_step.
  fold (pde (km_mem k) pgdir (PDX va)).
  destruct (present (pde (km_mem k) pgdir (PDX va))) eqn:Ep.
  { wp_step. apply (HQ k l); auto. }
  cbn [negb]. destruct l as [|t l]; [done|]. wp_step.
  apply (kalloc_spec kend k (t :: l)); [apply Hr|]. intros k1 Hm1 Hk1.
  assert (Ht : 0 < t < 2 ^ 32) by (pose proof (kr_range _ _ _ (pr_free _ _ _ Hr)) as H2; by inversion H2).
  rewrite (proj2 (Z.eqb_neq t 0)) by lia. unfold kmemset, wr32. wp_step. wp_step. wp_step. wp_step.
  wp_step. cbn [km_mem km_freelist]. rewrite Hm1. fold (table_pte t).
  destruct (pt_new_table k (km_freelist k1) pgdir t l (PDX va) Hr) as (Hr' & Hp' & Ht' & Hpt);
    [by rewrite <- Hm1; destruct k1|apply PDX_range|done|].
  rewrite <- Ht' at 1. apply (HQ _ l); [done|done| |done|done]. intros x Hx. by right.
Qed.

Lemma PGROUNDDOWN_mod a : a mod PGSIZE = 0 -> PGROUNDDOWN a = a.
Proof. intros Ha. rewrite PGROUNDDOWN_eq. pose proof (Z.div_mod a PGSIZE ltac:(done)). lia. Qed.

Lemma same_page va va' : 0 <= va < 2 ^ 32 -> 0 <= va' < 2 ^ 32 ->
  (PDX va' = PDX va /\ PTX va' = PTX va) <-> PGROUNDDOWN va' = PGROUNDDOWN va.
Proof.
  intros H1 H2. rewrite !PDX_PTX by done. pose proof (PDX_range va). pose proof (PDX_range va').
  pose proof (PTX_range va). pose proof (PTX_range va'). split; [by intros [-> ->]|]. lia.
Qed.

(** The loop of [mappages] over [n + 1] pages that are not mapped. *)
Lemma mappages_loop_spec n k pgdir l va pa perm (Q : Z -> kmem -> Prop) :
  pgdir_rep k pgdir l -> (S n <= length l)%nat -> va mod PGSIZE = 0 -> 0 <= va ->
  va + PGSIZE * Z.of_nat (S n) <= 2 ^ 32 ->
  (forall i, (i <= n)%nat -> present (pt (km_mem k) pgdir (va + PGSIZE * Z.of_nat i)) = false) ->
  (forall k' l', pgdir_rep k' pgdir l' -> (forall x, x ∈ l' -> x ∈ l) ->
     (length l <= S n + length l')%nat ->
     (forall va', 0 <= va' < 2 ^ 32 -> pt (km_mem k') pgdir va' =
        if decide (va <= va' < va + PGSIZE * Z.of_nat (S n))
        then u32 (Z.lor (Z.lor (u32 (pa + (PGROUNDDOWN va' - va))) perm) PTE_P)
        else pt (km_mem k) pgdir va') ->
     Q 0 k') ->
  wp (mappages_loop n pgdir va (va + PGSIZE * Z.of_nat n) (u32 pa) perm) Q k.
Proof.
  revert k l va pa. induction n as [|n IH]; intros k l va pa Hr Hl Hm H0 Hmax Hnp HQ.
  all: assert (Hl0 : l <> []) by (destruct l; [simpl in Hl; lia|done]).
  all: assert (Hva : 0 <= va < 2 ^ 32) by (unfold PGSIZE in *; lia).
  all: assert (Hin : forall va', 0 <= va' < 2 ^ 32 ->
         (PDX va' = PDX va /\ PTX va' = PTX va) <-> va <= va' < va + PGSIZE).
  1, 3: intros va' Hva'; rewrite same_page, (PGROUNDDOWN_mod va Hm), PGROUNDDOWN_eq by done;
    pose proof (Z.div_mod va' PGSIZE ltac:(done)); pose proof (Z.mod_pos_bound va' PGSIZE ltac:(done));
    pose proof (Z.div_mod va PGSIZE ltac:(done)); unfold PGSIZE in *; lia.
  all: cbn [mappages_loop]; wp_step; apply (walkpgdir_alloc k pgdir l va); [done|done|];
    intros k1 l1 Hr1 Hlen1 Hsub1 Hp1 Hpt1; wp_step; unfold rd32 at 1; wp_step.
  all: assert (E : load32 (km_mem k1) (pte_addr k1 pgdir va) = pt (km_mem k) pgdir va)
    by (rewrite <- Hpt1; unfold pt; by rewrite Hp1).
  all: rewrite E; pose proof (Hnp 0%nat ltac:(lia)) as Hnp0; rewrite Z.mul_0_r, Z.add_0_r in Hnp0;
    rewrite Hnp0; wp_step; unfold wr32; wp_step; fold PTE_P.
  all: destruct (pt_store k1 pgdir l1 va (Z.lor (Z.lor (u32 pa) perm) PTE_P) Hr1 Hp1) as [Hr2 Hpt2];
    fold (pte_addr k1 pgdir va) in Hr2, Hpt2.
  - rewrite Z.mul_0_r, Z.add_0_r, Z.eqb_refl. wp_step. apply (HQ _ l1); try done.
    intros va' Hva'. rewrite Hpt2, Hpt1. replace (PGSIZE * Z.of_nat 1) with PGSIZE by done.
    destruct (decide (va <= va' < va + PGSIZE)) as [Hd|Hd].
    + rewrite decide_True by (by apply Hin). do 3 f_equal.
      replace (PGROUNDDOWN va') with va; [f_equal; lia|].
      rewrite <- (PGROUNDDOWN_mod va Hm). symmetry. apply same_page; [done|done|]. by apply Hin.
    + rewrite decide_False by (by rewrite Hin). done.
  - rewrite (proj2 (Z.eqb_neq _ _)) by (unfold PGSIZE; lia).
    rewrite (u32_small (va + PGSIZE)) by (unfold PGSIZE in *; lia).
    replace (u32 (u32 pa + PGSIZE)) with (u32 (pa + PGSIZE)) by (unfold u32; by rewrite Zplus_mod_idemp_l).
    replace (va + PGSIZE * Z.of_nat (S n)) with (va + PGSIZE + PGSIZE * Z.of_nat n) in * by lia.
    apply (IH _ l1); [done|lia|by rewrite Z.add_mod, Hm by done|unfold PGSIZE; lia|unfold PGSIZE in *; lia| |].
    + intros i Hi. rewrite Hpt2, Hpt1. rewrite decide_False.
      * replace (va + PGSIZE + PGSIZE * Z.of_nat i) with (va + PGSIZE * Z.of_nat (S i)) by lia.
        apply Hnp. lia.
      * rewrite Hin; unfold PGSIZE in *; lia.
    + intros k' l' Hr' Hsub' Hlen' Hpt'. apply (HQ k' l'); [done|auto|lia|].
      intros va' Hva'. rewrite Hpt' by done.
      destruct (decide (va + PGSIZE <= va' < va + PGSIZE + PGSIZE * Z.of_nat (S n))) as [Hd|Hd].
      * rewrite decide_True by (unfold PGSIZE in *; lia). do 4 f_equal. lia.
      * rewrite Hpt2, Hpt1. destruct (decide (va <= va' < va + PGSIZE)) as [Hd2|Hd2].
        -- rewrite decide_True by (by apply Hin). rewrite decide_True by (unfold PGSIZE in *; lia).
           do 3 f_equal. replace (PGROUNDDOWN va') with va; [f_equal; lia|].
           rewrite <- (PGROUNDDOWN_mod va Hm). symmetry. apply same_page; [done|done|]. by apply Hin.
        -- rewrite decide_False by (by rewrite Hin). rewrite decide_False by (unfold PGSIZE in *; lia). done.
Qed.

(** [mappages] of an unmapped page-aligned range, with enough free pages
    for the page tables it may need, maps exactly the pages of the range, page
    by page, to consecutive physical pages with the given permissions; every
    other translation stays. *)
Theorem mappages_correct k pgdir l va size pa perm :
  let n := (size - 1) / PGSIZE in
  pgdir_rep k pgdir l -> va mod PGSIZE = 0 -> 0 <= va -> 0 < size -> va + size <= 2 ^ 32 ->
  n < Z.of_nat (length l) ->
  (forall va', va <= va' < va + size -> present (pt (km_mem k) pgdir va') = false) ->
  wp (mappages pgdir va size (u32 pa) perm) (fun r k' => r = 0 /\ exists l',
    pgdir_rep k' pgdir l' /\ (forall x, x ∈ l' -> x ∈ l) /\
    forall va', 0 <= va' < 2 ^ 32 -> pt (km_mem k') pgdir va' =
      if decide (va <= va' < va + PGSIZE * (n + 1))
      then u32 (Z.lor (Z.lor (u32 (pa + (PGROUNDDOWN va' - va))) perm) PTE_P)
      else pt (km_mem k) pgdir va') k.
Proof.
  intros n Hr Hm H0 Hs Hmax Hl Hnp. unfold mappages.
  pose proof (Z.div_mod (size - 1) PGSIZE ltac:(done)) as Hd.
  pose proof (Z.mod_pos_bound (size - 1) PGSIZE ltac:(done)) as Hd2. fold n in Hd.
  pose proof (Z.div_mod va PGSIZE ltac:(done)) as Hv. rewrite Hm in Hv.
  assert (Hn : 0 <= n) by (apply Z.div_pos; [lia|done]).
  assert (Hn2 : va + PGSIZE * (n + 1) <= 2 ^ 32) by (unfold PGSIZE in *; lia).
  rewrite (PGROUNDDOWN_mod va Hm). rewrite (u32_small (va + size - 1)) by lia.
  assert (El : PGROUNDDOWN (va + size - 1) = va + PGSIZE * n).
  { rewrite PGROUNDDOWN_eq. replace (va + size - 1) with ((va / PGSIZE + n) * PGSIZE + (size - 1) mod PGSIZE) by lia.
    rewrite Z.div_add_l by done. rewrite (Z.div_small (_ mod _)) by done. lia. }
  rewrite El. replace (u32 (va + PGSIZE * n - va)) with (PGSIZE * n) by (rewrite u32_small by (unfold PGSIZE in *; lia); lia).
  rewrite Z.mul_comm, Z.div_mul, Z.mul_comm by done. rewrite <- (Z2Nat.id n) at 2 by done.
  apply (mappages_loop_spec (Z.to_nat n) k pgdir l va pa perm); try done; try lia.
  - replace (Z.of_nat (S (Z.to_nat n))) with (n + 1) by lia. done.
  - intros i Hi. apply Hnp. unfold PGSIZE in *. nia.
  - intros k' l' Hr' Hsub _ Hpt. split; [done|]. exists l'. split; [done|]. split; [done|].
    replace (Z.of_nat (S (Z.to_nat n))) with (n + 1) in Hpt by lia. done.
Qed.

(** Mapping a page that is already mapped panics. *)
Theorem mappages_remap k pgdir l va size pa perm :
  pgdir_rep k pgdir l -> va mod PGSIZE = 0 -> 0 <= va < 2 ^ 32 ->
  present (pt (km_mem k) pgdir va) = true -> mappages pgdir va size pa perm k = Panic "remap".
Proof.
  intros Hr Hm Hva Hp. unfold mappages. rewrite (PGROUNDDOWN_mod va Hm).
  assert (Hpd : present (pde (km_mem k) pgdir (PDX va)) = true).
  { unfold pt in Hp. by destruct (present (pde (km_mem k) pgdir (PDX va))). }
  assert (E : forall n last, mappages_loop n pgdir va last pa perm k = Panic "remap"); [|apply E].
  intros n last. unfold pt, ptable_of in Hp. rewrite Hpd in Hp.
  destruct n; cbn [mappages_loop]; unfold walkpgdir, bind, rd32, gets, pde in *; cbn [after app];
    rewrite Hpd; cbn [ret after app]; rewrite Hp; done.
Qed.
End pt.
