(* ===== verification/Pipe.v ===== *)
(** * Pipes

    [kernel/pipe.c].  A pipe is a ring of [PIPESIZE] bytes with 32-bit counters
    that wrap around.  The ring refines a queue of bytes ([pipe_rep]).  Under
    its lock each pass of [pipewrite] or [piperead] up to its return or to its
    next [sleep] is one step; [psys] is the system of processes that read,
    write and close a pipe, or are killed, in any order of such steps. *)

From S2P Require Import Prelude.

Definition PIPESIZE : Z := 512.

Record pipe := Pipe {
  pp_data : list Z;
  pp_nread : Z;
  pp_nwrite : Z;
  pp_readopen : bool;
  pp_writeopen : bool }.

Definition new_pipe : pipe := Pipe (replicate (Z.to_nat PIPESIZE) 0) 0 0 true true.

Definition pipe_full (p : pipe) : bool := pp_nwrite p =? u32 (pp_nread p + PIPESIZE).
Definition pipe_empty (p : pipe) : bool := pp_nread p =? pp_nwrite p.

(** [p->data[p->nwrite++ % PIPESIZE] = c]. *)
Definition pipe_put (c : Z) (p : pipe) : pipe :=
  Pipe (<[Z.to_nat (pp_nwrite p mod PIPESIZE) := c]> (pp_data p)) (pp_nread p)
       (u32 (pp_nwrite p + 1)) (pp_readopen p) (pp_writeopen p).

(** [p->data[p->nread++ % PIPESIZE]]. *)
Definition pipe_head (p : pipe) : Z :=
  default 0 (pp_data p !! Z.to_nat (pp_nread p mod PIPESIZE)).
Definition pipe_drop (p : pipe) : pipe :=
  Pipe (pp_data p) (u32 (pp_nread p + 1)) (pp_nwrite p) (pp_readopen p) (pp_writeopen p).

(** How a pass of [pipewrite] over the bytes still to be written ends. *)
Inductive wend := WDone | WFail | WSleep (rest : list Z).

Fixpoint pipewrite_pass (p : pipe) (killed : bool) (src : list Z) : pipe * wend :=
  match src with
  | [] => (p, WDone)
  | c :: src' =>
      if pipe_full p then
        if negb (pp_readopen p) || killed then (p, WFail) else (p, WSleep src)
      else pipewrite_pass (pipe_put c p) killed src'
  end.

(** The copy loop of [piperead], for at most [n] bytes. *)
Fixpoint piperead_copy (n : nat) (p : pipe) : pipe * list Z :=
  match n with
  | O => (p, [])
  | S n =>
      if pipe_empty p then (p, [])
      else let '(p', l) := piperead_copy n (pipe_drop p) in (p', pipe_head p :: l)
  end.

Inductive rend := RDone (l : list Z) | RFail | RSleep.

Definition piperead_pass (p : pipe) (killed : bool) (n : nat) : pipe * rend :=
  if pipe_empty p && pp_writeopen p then
    if killed then (p, RFail) else (p, RSleep)
  else let '(p', l) := piperead_copy n p in (p', RDone l).

Definition pipeclose_end (p : pipe) (writable : bool) : pipe :=
  if writable then Pipe (pp_data p) (pp_nread p) (pp_nwrite p) (pp_readopen p) false
  else Pipe (pp_data p) (pp_nread p) (pp_nwrite p) false (pp_writeopen p).

(** ** The operations on the pipes of the kernel, by the page they live in *)

Abbreviation pipes := (gmap Z pipe).

(** [src]: the [n] bytes at [addr]; none when [n <= 0]. *)
Definition pipewrite (a : Z) (src : list Z) (n : Z) (killed : bool) : M pipes Z :=
  let* ps := get in
  let* p := deref (ps !! a) "pipewrite" in
  let '(p', e) := pipewrite_pass p killed src in
  do* modify (insert a p') in
  match e with
  | WDone => do* wake (ChPipeRead a) in ret n
  | WFail => ret (-1)
  | WSleep _ => do* wake (ChPipeRead a) in sleep_on (ChPipeWrite a)
  end.

Definition piperead (a n : Z) (killed : bool) : M pipes (Z * list Z) :=
  let* ps := get in
  let* p := deref (ps !! a) "piperead" in
  let '(p', e) := piperead_pass p killed (Z.to_nat n) in
  do* modify (insert a p') in
  match e with
  | RDone l => do* wake (ChPipeWrite a) in ret (Z.of_nat (length l), l)
  | RFail => ret (-1, [])
  | RSleep => sleep_on (ChPipeRead a)
  end.

(** [pipeclose]; the result says whether the page is to be freed. *)
Definition pipeclose (a : Z) (writable : bool) : M pipes bool :=
  let* ps := get in
  let* p := deref (ps !! a) "pipeclose" in
  let p' := pipeclose_end p writable in
  do* modify (insert a p') in
  do* wake (if writable then ChPipeRead a else ChPipeWrite a) in
  if negb (pp_readopen p') && negb (pp_writeopen p') then
    do* modify (delete a) in ret true
  else ret false.

(** ** The ring as a queue *)

Record pipe_rep (p : pipe) (q : list Z) : Prop := {
  pq_len : length (pp_data p) = Z.to_nat PIPESIZE;
  pq_size : Z.of_nat (length q) <= PIPESIZE;
  pq_read : 0 <= pp_nread p < 2 ^ 32;
  pq_write : pp_nwrite p = u32 (pp_nread p + Z.of_nat (length q));
  pq_data : forall j c, q !! j = Some c ->
    pp_data p !! Z.to_nat ((pp_nread p + Z.of_nat j) mod PIPESIZE) = Some c }.

Lemma u32_mod_pipe x : u32 x mod PIPESIZE = x mod PIPESIZE.
Proof.
  unfold u32, PIPESIZE. apply Z.mod_mod_divide. by exists 8388608.
Qed.

Lemma u32_succ x : u32 (u32 x + 1) = u32 (x + 1).
Proof. unfold u32. by rewrite Zplus_mod_idemp_l. Qed.

Lemma new_pipe_rep : pipe_rep new_pipe [].
Proof. by constructor. Qed.

Lemma pipe_full_spec p q : pipe_rep p q -> pipe_full p = bool_decide (Z.of_nat (length q) = PIPESIZE).
Proof.
  intros [H1 H2 H3 H4 H5]. unfold pipe_full. rewrite H4. unfold u32, PIPESIZE in *.
  apply eq_bool_prop_intro. rewrite bool_decide_spec, Is_true_true, Z.eqb_eq. split; [|by intros ->].
  intros E. pose proof (Z.div_mod (pp_nread p + Z.of_nat (length q)) (2 ^ 32) ltac:(lia)).
  pose proof (Z.div_mod (pp_nread p + 512) (2 ^ 32) ltac:(lia)). lia.
Qed.

Lemma pipe_empty_spec p q : pipe_rep p q -> pipe_empty p = bool_decide (q = []).
Proof.
  intros [H1 H2 H3 H4 H5]. unfold pipe_empty. rewrite H4. unfold u32, PIPESIZE in *.
  apply eq_bool_prop_intro. rewrite bool_decide_spec, Is_true_true, Z.eqb_eq. split.
  - intros E. pose proof (Z.div_mod (pp_nread p + Z.of_nat (length q)) (2 ^ 32) ltac:(lia)).
    apply length_zero_iff_nil. lia.
  - intros ->. cbn. rewrite Z.add_0_r. symmetry. by apply Z.mod_small.
Qed.

Lemma pipe_put_rep p q c :
  pipe_rep p q -> Z.of_nat (length q) < PIPESIZE -> pipe_rep (pipe_put c p) (q ++ [c]).
Proof.
  intros [H1 H2 H3 H4 H5] Hl. constructor; cbn [pp_data pp_nread pp_nwrite pipe_put]; try done.
  - by rewrite length_insert.
  - rewrite length_app. cbn. lia.
  - rewrite H4, u32_succ, length_app. cbn. f_equal. lia.
  - intros j d Hj. rewrite H4, u32_mod_pipe.
    assert (Hb : forall x, (Z.to_nat (x mod PIPESIZE) < length (pp_data p))%nat).
    { intros x. rewrite H1. pose proof (Z.mod_pos_bound x PIPESIZE ltac:(done)). unfold PIPESIZE in *. lia. }
    apply lookup_app_Some in Hj as [Hj|[Hj1 Hj2]].
    + pose proof (lookup_lt_Some _ _ _ Hj). rewrite list_lookup_insert_ne; [by apply H5|].
      intros E. apply Z2Nat.inj in E; [|by apply Z.mod_pos_bound..]. unfold PIPESIZE in *.
      pose proof (Z.div_mod (pp_nread p + Z.of_nat (length q)) 512 ltac:(lia)).
      pose proof (Z.div_mod (pp_nread p + Z.of_nat j) 512 ltac:(lia)). lia.
    + destruct (j - length q)%nat as [|n] eqn:En; [|done]. cbn in Hj2. injection Hj2 as ->.
      replace j with (length q) by lia. by apply list_lookup_insert_eq.
Qed.

Lemma pipe_drop_rep p c q : pipe_rep p (c :: q) -> pipe_head p = c /\ pipe_rep (pipe_drop p) q.
Proof.
  intros [H1 H2 H3 H4 H5]. split.
  - unfold pipe_head. specialize (H5 0%nat c eq_refl). rewrite Z.add_0_r in H5. by rewrite H5.
  - cbn [length] in *. constructor; cbn [pp_data pp_nread pp_nwrite pipe_drop]; try done.
    + lia.
    + apply u32_range.
    + rewrite H4. unfold u32. rewrite Zplus_mod_idemp_l. f_equal. lia.
    + intros j d Hj. specialize (H5 (S j) d Hj).
      replace ((u32 (pp_nread p + 1) + Z.of_nat j) mod PIPESIZE)
        with ((pp_nread p + Z.of_nat (S j)) mod PIPESIZE); [done|].
      rewrite <- (u32_mod_pipe (u32 (pp_nread p + 1) + Z.of_nat j)). unfold u32.
      rewrite Zplus_mod_idemp_l. fold (u32 (pp_nread p + 1 + Z.of_nat j)). rewrite u32_mod_pipe.
      f_equal. lia.
Qed.

(** What a pass of [pipewrite] does to the queue: it appends a prefix of the
    bytes; it stops early only on a full pipe. *)
Lemma pipewrite_pass_spec p q killed src p' e :
  pipe_rep p q -> pipewrite_pass p killed src = (p', e) ->
  exists wr rest, src = wr ++ rest /\ pipe_rep p' (q ++ wr) /\
    pp_readopen p' = pp_readopen p /\ pp_writeopen p' = pp_writeopen p /\
    match e with
    | WDone => rest = []
    | WFail => rest <> [] /\ pipe_full p' = true /\ (pp_readopen p = false \/ killed = true)
    | WSleep r => r = rest /\ rest <> [] /\ pipe_full p' = true /\ pp_readopen p = true /\ killed = false
    end.
Proof.
  revert p q. induction src as [|c src IH]; intros p q Hr; cbn [pipewrite_pass].
  { intros [= <- <-]. exists [], []. by rewrite (app_nil_r q). }
  destruct (pipe_full p) eqn:Ef.
  - destruct (pp_readopen p) eqn:Eo, killed; cbn [negb orb]; intros [= <- <-]; exists [], (c :: src);
      rewrite (app_nil_r q); split_and!; auto.
  - intros E. rewrite (pipe_full_spec p q Hr) in Ef. apply bool_decide_eq_false in Ef.
    pose proof (pq_size _ _ Hr). destruct (IH _ (q ++ [c]) (pipe_put_rep p q c Hr ltac:(lia)) E)
      as (wr & rest & -> & Hr' & Ho & Hw & He).
    exists (c :: wr), rest. rewrite <- app_assoc in Hr'. done.
Qed.

Lemma piperead_copy_spec n p q :
  pipe_rep p q ->
  let '(p', l) := piperead_copy n p in
  l = take n q /\ pipe_rep p' (drop n q) /\
  pp_readopen p' = pp_readopen p /\ pp_writeopen p' = pp_writeopen p.
Proof.
  revert p q. induction n as [|n IH]; intros p q Hr; cbn [piperead_copy]; [done|].
  rewrite (pipe_empty_spec p q Hr). destruct q as [|c q]; [done|].
  rewrite bool_decide_eq_false_2 by done.
  destruct (pipe_drop_rep p c q Hr) as [Hh Hr']. specialize (IH _ _ Hr').
  destruct (piperead_copy n (pipe_drop p)) as [p' l]. destruct IH as (-> & Hr2 & Ho & Hw).
  by rewrite Hh.
Qed.

(** What the calls do on the pipe at [a], with the wake-ups they make. *)
Lemma pipewrite_eq a src n killed ps p : ps !! a = Some p ->
  pipewrite a src n killed ps =
    let '(p', e) := pipewrite_pass p killed src in
    match e with
    | WDone => Ok n (<[a := p']> ps) [ChPipeRead a]
    | WFail => Ok (-1) (<[a := p']> ps) []
    | WSleep _ => Sleep (ChPipeWrite a) (<[a := p']> ps) [ChPipeRead a]
    end.
Proof.
  intros Hp. unfold pipewrite. unfold bind at 1, get at 1. unfold deref. rewrite Hp. cbn.
  by destruct (pipewrite_pass p killed src) as [p' []].
Qed.

Lemma piperead_eq a n killed ps p : ps !! a = Some p ->
  piperead a n killed ps =
    let '(p', e) := piperead_pass p killed (Z.to_nat n) in
    match e with
    | RDone l => Ok (Z.of_nat (length l), l) (<[a := p']> ps) [ChPipeWrite a]
    | RFail => Ok (-1, []) (<[a := p']> ps) []
    | RSleep => Sleep (ChPipeRead a) (<[a := p']> ps) []
    end.
Proof.
  intros Hp. unfold piperead. unfold bind at 1, get at 1. unfold deref. rewrite Hp. cbn.
  by destruct (piperead_pass p killed (Z.to_nat n)) as [p' []].
Qed.

Lemma pipeclose_eq a writable ps p : ps !! a = Some p ->
  let p' := pipeclose_end p writable in
  let freed := negb (pp_readopen p') && negb (pp_writeopen p') in
  pipeclose a writable ps =
    Ok freed (if freed then delete a (<[a := p']> ps) else <[a := p']> ps) [if writable then ChPipeRead a else ChPipeWrite a].
Proof.
  intros Hp p' freed. unfold pipeclose. unfold bind at 1, get at 1. unfold deref. rewrite Hp. cbn. fold p' freed. by destruct freed.
Qed.

(** ** Processes on a pipe *)

(** What a process is doing: nothing, writing [n] bytes of which [rest] are left,
    or reading up to [n] bytes. *)
Inductive job := JIdle | JWrite (rest : list Z) (n : Z) | JRead (n : Z).

Record thr := Thr { t_job : job; t_asleep : option chan; t_killed : bool }.

(** The pipe lives in the page [sy_page]; [in], [out]: all bytes that entered
    and left it. *)
Record psys := PSys { sy_page : Z; sy_pipes : pipes; sy_thr : list thr; sy_in : list Z; sy_out : list Z }.

(** A process after the wake-ups [w]. *)
Definition woken (w : list chan) (t : thr) : thr :=
  match t_asleep t with
  | Some c => if decide (c ∈ w) then Thr (t_job t) None (t_killed t) else t
  | None => t
  end.

(** The end that a job uses, if any; [true] is the end for writing. *)
Definition uses (j : job) : option bool :=
  match j with JIdle => None | JWrite _ _ => Some true | JRead _ => Some false end.
Definition end_open (p : pipe) (writable : bool) : bool := if writable then pp_writeopen p else pp_readopen p.

(** How many bytes a pass put into the pipe. *)
Definition moved (p p' : pipe) : nat := Z.to_nat (u32 (pp_nwrite p' - pp_nwrite p)).

(** The calls of the processes, pass by pass: each pass runs under the lock of
    the pipe, and its wake-ups reach the processes asleep on the channel.  A
    process that reads or writes has the pipe open, so that the end it uses is
    not closed meanwhile.  [kill] wakes the process it kills.  [kw] allows
    killed processes to give up writing to a pipe that can be read. *)
Inductive pstep (kw : bool) : psys -> psys -> Prop :=
| ps_start a ps thrs l1 l2 i t p j :
    thrs !! i = Some t -> t_job t = JIdle -> ps !! a = Some p ->
    match j with JIdle => False | JWrite src n => n = Z.of_nat (length src) /\ pp_writeopen p = true | JRead _ => pp_readopen p = true end ->
    pstep kw (PSys a ps thrs l1 l2) (PSys a ps (<[i := Thr j None (t_killed t)]> thrs) l1 l2)
| ps_write a ps thrs l1 l2 i rest n killed p r ps' w p' :
    thrs !! i = Some (Thr (JWrite rest n) None killed) -> ps !! a = Some p ->
    pipewrite a rest n killed ps = Ok r ps' w -> ps' !! a = Some p' ->
    (r = -1 -> pp_readopen p = true -> kw = true) ->
    pstep kw (PSys a ps thrs l1 l2)
      (PSys a ps' (<[i := Thr JIdle None killed]> (woken w <$> thrs)) (l1 ++ take (moved p p') rest) l2)
| ps_write_sleep a ps thrs l1 l2 i rest n killed p c ps' w p' :
    thrs !! i = Some (Thr (JWrite rest n) None killed) -> ps !! a = Some p ->
    pipewrite a rest n killed ps = Sleep c ps' w -> ps' !! a = Some p' ->
    pstep kw (PSys a ps thrs l1 l2)
      (PSys a ps' (<[i := Thr (JWrite (drop (moved p p') rest) n) (Some c) killed]> (woken w <$> thrs)) (l1 ++ take (moved p p') rest) l2)
| ps_read a ps thrs l1 l2 i n killed r l ps' w :
    thrs !! i = Some (Thr (JRead n) None killed) -> piperead a n killed ps = Ok (r, l) ps' w ->
    pstep kw (PSys a ps thrs l1 l2) (PSys a ps' (<[i := Thr JIdle None killed]> (woken w <$> thrs)) l1 (l2 ++ l))
| ps_read_sleep a ps thrs l1 l2 i n killed c ps' w :
    thrs !! i = Some (Thr (JRead n) None killed) -> piperead a n killed ps = Sleep c ps' w ->
    pstep kw (PSys a ps thrs l1 l2) (PSys a ps' (<[i := Thr (JRead n) (Some c) killed]> (woken w <$> thrs)) l1 l2)
| ps_close a ps thrs l1 l2 p writable b ps' w :
    ps !! a = Some p -> end_open p writable = true -> Forall (fun t => uses (t_job t) <> Some writable) thrs ->
    pipeclose a writable ps = Ok b ps' w ->
    pstep kw (PSys a ps thrs l1 l2) (PSys a ps' (woken w <$> thrs) l1 l2)
| ps_kill a ps thrs l1 l2 i t :
    thrs !! i = Some t -> pstep kw (PSys a ps thrs l1 l2) (PSys a ps (<[i := Thr (t_job t) None true]> thrs) l1 l2).

Definition psys_init (a : Z) (n : nat) : psys := PSys a {[ a := new_pipe ]} (replicate n (Thr JIdle None false)) [] [].
Definition preachable (kw : bool) (n : nat) (s : psys) : Prop := exists a, rtc (pstep kw) (psys_init a n) s.

(** A process that sleeps waits on the channel of its end, on a condition that
    does not hold; one that uses the pipe has its end open. *)
Definition thr_ok (kw : bool) (a : Z) (o : option pipe) (q : list Z) (t : thr) : Prop :=
  match t_job t with
  | JIdle => t_asleep t = None
  | JWrite _ _ => exists p, o = Some p /\ pp_writeopen p = true /\
      forall c, t_asleep t = Some c -> c = ChPipeWrite a /\ Z.of_nat (length q) = PIPESIZE /\ pp_readopen p = true
  | JRead _ => exists p, o = Some p /\ pp_readopen p = true /\
      forall c, t_asleep t = Some c -> c = ChPipeRead a /\ (kw = false -> q = [] /\ pp_writeopen p = true)
  end.

(** [q]: the bytes in flight, those that entered and have not left. *)
Record pinv (kw : bool) (s : psys) (q : list Z) : Prop := {
  pi_flow : sy_in s = sy_out s ++ q;
  pi_size : Z.of_nat (length q) <= PIPESIZE;
  pi_rep : forall p, sy_pipes s !! sy_page s = Some p -> pipe_rep p q;
  pi_thr : Forall (thr_ok kw (sy_page s) (sy_pipes s !! sy_page s) q) (sy_thr s) }.

Lemma moved_spec p q wr p' :
  pipe_rep p q -> pipe_rep p' (q ++ wr) -> pp_nread p' = pp_nread p -> moved p p' = length wr.
Proof.
  intros [_ S1 R1 W1 _] [_ S2 R2 W2 _] E. unfold moved. rewrite W1, W2, E, length_app.
  unfold u32. rewrite <- Zminus_mod. rewrite length_app in S2. unfold PIPESIZE in *.
  replace (pp_nread p + Z.of_nat (length q + length wr) - (pp_nread p + Z.of_nat (length q)))
    with (Z.of_nat (length wr)) by lia. rewrite Z.mod_small by lia. lia.
Qed.

Lemma pipewrite_pass_nread p killed src p' e :
  pipewrite_pass p killed src = (p', e) -> pp_nread p' = pp_nread p.
Proof.
  revert p. induction src as [|c src IH]; intros p; cbn [pipewrite_pass]; [by intros [= <- _]|].
  destruct (pipe_full p); [destruct (negb (pp_readopen p) || killed); by intros [= <- _]|].
  intros E. by apply IH in E.
Qed.

Lemma woken_asleep w t c : t_asleep (woken w t) = Some c -> t_asleep t = Some c /\ c ∉ w.
Proof.
  unfold woken. destruct (t_asleep t) as [c'|] eqn:E; [|by rewrite E]. case_decide; [done|].
  rewrite E. by intros [= <-].
Qed.
Lemma woken_job w t : t_job (woken w t) = t_job t.
Proof. unfold woken. destruct (t_asleep t); [by case_decide|done]. Qed.

(** The processes that a step leaves where they are. *)
Lemma others_ok kw a o o' q q' w thrs :
  Forall (thr_ok kw a o q) thrs ->
  (forall p t, o = Some p -> t ∈ thrs -> uses (t_job t) = Some true -> pp_writeopen p = true ->
     exists p', o' = Some p' /\ pp_writeopen p' = true /\
       (ChPipeWrite a ∉ w -> Z.of_nat (length q) = PIPESIZE -> pp_readopen p = true ->
          Z.of_nat (length q') = PIPESIZE /\ pp_readopen p' = true)) ->
  (forall p t, o = Some p -> t ∈ thrs -> uses (t_job t) = Some false -> pp_readopen p = true ->
     exists p', o' = Some p' /\ pp_readopen p' = true /\
       (ChPipeRead a ∉ w -> kw = false -> q = [] -> pp_writeopen p = true -> q' = [] /\ pp_writeopen p' = true)) ->
  Forall (thr_ok kw a o' q') (woken w <$> thrs).
Proof.
  intros Ht Hw Hr. apply Forall_fmap, Forall_forall. intros t Hin. rewrite Forall_forall in Ht. specialize (Ht t Hin).
  unfold thr_ok, compose in *. rewrite woken_job. specialize (Hw) as Hw. destruct (t_job t) as [|rest n|n] eqn:Ej.
  - destruct (t_asleep (woken w t)) as [c|] eqn:E; [|done]. apply woken_asleep in E as [E _]. congruence.
  - destruct Ht as (p & -> & Ho & Hs). destruct (Hw p t eq_refl Hin ltac:(by rewrite Ej) Ho) as (p' & -> & Ho' & Hk). exists p'.
    split_and!; [done|done|]. intros c [Hc Hni]%woken_asleep. destruct (Hs c Hc) as (-> & Hl & Hro). split; [done|]. by apply Hk.
  - destruct Ht as (p & -> & Ho & Hs). destruct (Hr p t eq_refl Hin ltac:(by rewrite Ej) Ho) as (p' & -> & Ho' & Hk). exists p'.
    split_and!; [done|done|]. intros c [Hc Hni]%woken_asleep. destruct (Hs c Hc) as (-> & Hl). split; [done|]. intros E.
    destruct (Hl E). by apply Hk.
Qed.

Lemma write_others kw a p q p' wr w thrs :
  Forall (thr_ok kw a (Some p) q) thrs -> pp_readopen p' = pp_readopen p -> pp_writeopen p' = pp_writeopen p ->
  Z.of_nat (length (q ++ wr)) <= PIPESIZE -> (ChPipeRead a ∉ w -> pp_readopen p = true -> kw = true) ->
  Forall (thr_ok kw a (Some p') (q ++ wr)) (woken w <$> thrs).
Proof.
  intros Ht Ero Ewo Hsz Hk. rewrite length_app in Hsz. eapply others_ok; [exact Ht| |].
  - intros x t [= <-] _ _ Ho. exists p'. split_and!; [done|congruence|]. intros _ Hl Hr. rewrite length_app. split; [lia|congruence].
  - intros x t [= <-] _ _ Ho. exists p'. split_and!; [done|congruence|]. intros Hn E. specialize (Hk Hn Ho). congruence.
Qed.

(** A pass of [pipewrite], however it ends. *)
Lemma write_step kw a ps thrs l1 l2 i rest n killed p q : pinv kw (PSys a ps thrs l1 l2) q ->
  thrs !! i = Some (Thr (JWrite rest n) None killed) -> ps !! a = Some p ->
  forall t' ps' w p',
  (exists r, pipewrite a rest n killed ps = Ok r ps' w /\ (r = -1 -> pp_readopen p = true -> kw = true) /\ t' = Thr JIdle None killed) \/
  (exists c, pipewrite a rest n killed ps = Sleep c ps' w /\ t' = Thr (JWrite (drop (moved p p') rest) n) (Some c) killed) ->
  ps' !! a = Some p' ->
  exists q', pinv kw (PSys a ps' (<[i := t']> (woken w <$> thrs)) (l1 ++ take (moved p p') rest) l2) q'.
Proof.
  intros [I1 I2 I3 I4] Hi Hp t' ps' w p' Hrun Hp'. cbn [sy_in sy_out sy_pipes sy_page sy_thr] in *. specialize (I3 p Hp). rewrite Hp in I4.
  rewrite pipewrite_eq with (p := p) in Hrun by done.
  assert (Hwo : pp_writeopen p = true).
  { rewrite Forall_lookup in I4. destruct (I4 _ _ Hi) as (x & [= <-] & Ho & _). done. }
  destruct (pipewrite_pass p killed rest) as [p1 e] eqn:Hpass.
  destruct (pipewrite_pass_spec _ _ _ _ _ _ I3 Hpass) as (wr & rs & -> & Hr & Ho & Hw & He).
  pose proof (pipewrite_pass_nread _ _ _ _ _ Hpass) as Hn. pose proof (pq_size _ _ Hr) as Hsz.
  assert (E : ps' = <[a := p1]> ps) by (destruct e, Hrun as [(r & [= <- <- <-] & _)|(c & [= <- <- <-] & _)]; done).
  subst ps'. rewrite lookup_insert_eq in Hp'. injection Hp' as <-. rewrite (moved_spec p q wr p1) in * by done.
  rewrite take_app_length in *. rewrite ?drop_app_length in *. exists (q ++ wr).
  constructor; cbn [sy_in sy_out sy_pipes sy_page sy_thr]; [by rewrite I1, app_assoc|done| |].
  { intros x. rewrite lookup_insert_eq. by intros [= <-]. }
  rewrite lookup_insert_eq. apply Forall_insert.
  - apply (write_others kw a p q); try done. intros Hni Hro.
    destruct Hrun as [(r & Hrun & Hk & _)|(c & Hrun & _)]; destruct e; simplify_eq; try (exfalso; apply Hni; by left). by apply Hk.
  - destruct Hrun as [(r & Hrun & Hk & ->)|(c & Hrun & ->)]; [done|]. exists p1. destruct e as [| |rs']; simplify_eq.
    destruct He as (-> & _ & Hf & Hro & _). split_and!; [done|congruence|]. intros c [= <-]. split_and!; [done| |congruence].
    rewrite (pipe_full_spec _ _ Hr) in Hf. by apply bool_decide_eq_true in Hf.
Qed.

(** A pass of [piperead], however it ends. *)
Lemma read_step kw a ps thrs l1 l2 i n killed q : pinv kw (PSys a ps thrs l1 l2) q ->
  thrs !! i = Some (Thr (JRead n) None killed) ->
  forall t' ps' w l,
  (exists r, piperead a n killed ps = Ok (r, l) ps' w /\ t' = Thr JIdle None killed) \/
  (exists c, piperead a n killed ps = Sleep c ps' w /\ t' = Thr (JRead n) (Some c) killed /\ l = []) ->
  exists q', pinv kw (PSys a ps' (<[i := t']> (woken w <$> thrs)) l1 (l2 ++ l)) q'.
Proof.
  intros [I1 I2 I3 I4] Hi t' ps' w l Hrun. cbn [sy_in sy_out sy_pipes sy_page sy_thr] in *.
  assert (Hth : exists p, ps !! a = Some p /\ pp_readopen p = true).
  { pose proof I4 as I4'. rewrite Forall_lookup in I4'. destruct (I4' _ _ Hi) as (x & Hx & Ho & _). eauto. }
  destruct Hth as (p & Hp & Hro). specialize (I3 p Hp). rewrite Hp in I4. rewrite piperead_eq with (p := p) in Hrun by done.
  unfold piperead_pass in Hrun. rewrite (pipe_empty_spec _ _ I3) in Hrun.
  destruct (bool_decide (q = []) && pp_writeopen p) eqn:Ee.
  - apply andb_true_iff in Ee as [Eq%bool_decide_eq_true Ew]. exists q.
    assert (E : ps' = <[a := p]> ps /\ w = [] /\ l = []) by (destruct killed, Hrun as [(r & Hrun & _)|(c & Hrun & _ & ?)]; simplify_eq; done).
    destruct E as (-> & -> & ->). rewrite (app_nil_r l2). constructor; cbn [sy_in sy_out sy_pipes sy_page sy_thr]; try done.
    { intros x. rewrite lookup_insert_eq. by intros [= <-]. }
    rewrite lookup_insert_eq. apply Forall_insert.
    + eapply others_ok; [exact I4| |]; intros x t [= <-] _ _ Ho; eauto.
    + destruct killed, Hrun as [(r & Hrun & ->)|(c & Hrun & -> & _)]; simplify_eq; [done|]. exists p. split_and!; [done..|]. by intros c [= <-].
  - pose proof (piperead_copy_spec (Z.to_nat n) _ _ I3) as Hc. destruct (piperead_copy (Z.to_nat n) p) as [p2 l0].
    destruct Hc as (-> & Hr' & Ho & Hw). destruct Hrun as [(r & [= _ <- <- <-] & ->)|(c & [=] & _)]. exists (drop (Z.to_nat n) q).
    constructor; cbn [sy_in sy_out sy_pipes sy_page sy_thr].
    + by rewrite I1, <- app_assoc, take_drop.
    + rewrite length_drop. lia.
    + intros x. rewrite lookup_insert_eq. by intros [= <-].
    + rewrite lookup_insert_eq. apply Forall_insert; [|done]. eapply others_ok; [exact I4| |]; intros x t [= <-] _ _ Hx.
      * exists p2. split_and!; [done|congruence|]. intros Hni. exfalso. apply Hni. by left.
      * exists p2. split_and!; [done|congruence|]. intros _ _ -> Hwo. by rewrite Hwo in Ee.
Qed.

Lemma pstep_inv kw s s' : pstep kw s s' -> (exists q, pinv kw s q) -> exists q, pinv kw s' q.
Proof.
  intros Hs (q & Hq). destruct Hs as [a ps thrs l1 l2 i t p j Hi Hj Hp Ho|a ps thrs l1 l2 i rest n killed p r ps' w p' Hi Hp E Hp' Hk
    |a ps thrs l1 l2 i rest n killed p c ps' w p' Hi Hp E Hp'|a ps thrs l1 l2 i n killed r l ps' w Hi E|a ps thrs l1 l2 i n killed c ps' w Hi E
    |a ps thrs l1 l2 p writable b ps' w Hp Ho Hf E|a ps thrs l1 l2 i t Hi].
  - exists q. destruct Hq as [I1 I2 I3 I4]. constructor; try done. cbn in *. apply Forall_insert; [done|].
    destruct j as [|src n|n]; [done|destruct Ho|]; (exists p; split_and!; done).
  - eapply write_step; [exact Hq|exact Hi|exact Hp|left; eauto|done].
  - eapply write_step; [exact Hq|exact Hi|exact Hp|right; eauto|done].
  - eapply read_step; [exact Hq|exact Hi|left; eauto].
  - rewrite <- (app_nil_r l2). eapply read_step; [exact Hq|exact Hi|right; eauto].
  - exists q. destruct Hq as [I1 I2 I3 I4]. cbn in I1, I2, I3, I4. rewrite pipeclose_eq with (p := p) in E by done. injection E as _ <- <-.
    specialize (I3 p Hp). rewrite Hp in I4. rewrite Forall_forall in Hf. set (p1 := pipeclose_end p writable) in *.
    assert (Hrep : pipe_rep p1 q) by (unfold p1; destruct I3, writable; by constructor).
    constructor; cbn [sy_in sy_out sy_pipes sy_page sy_thr]; try done.
    { intros x. case_match; [by rewrite lookup_delete_eq|]. rewrite lookup_insert_eq. by intros [= <-]. }
    eapply others_ok; [exact I4| |]; intros x t [= <-] Hin Hu Hx; (destruct writable; [|]); try (by destruct (Hf t Hin));
      exists p1; (assert (Hend : pp_writeopen p1 = true \/ pp_readopen p1 = true) by (cbn; auto));
      (rewrite (proj2 (andb_false_iff _ _)) by (cbn in *; rewrite ?Hx; auto)); rewrite lookup_insert_eq;
      (split_and!; [done|done|]; intros Hni; exfalso; apply Hni; by left).
  - exists q. destruct Hq as [I1 I2 I3 I4]. constructor; try done. cbn in *. apply Forall_insert; [done|].
    rewrite Forall_lookup in I4. specialize (I4 _ _ Hi). unfold thr_ok in *. cbn. destruct (t_job t); [done|..];
      destruct I4 as (p & Hp & Ho & _); exists p; by split_and!.
Qed.

Lemma preachable_inv kw n s : preachable kw n s -> exists q, pinv kw s q.
Proof.
  intros [a Hs]. apply (rtc_preserve _ (fun s => exists q, pinv kw s q) (pstep_inv kw) _ _ Hs). exists [].
  constructor; cbn [sy_in sy_out sy_pipes sy_page sy_thr psys_init]; try done.
  - intros p. rewrite lookup_singleton_eq. intros [= <-]. apply new_pipe_rep.
  - by apply Forall_replicate.
Qed.

(** C35: a pipe delivers its bytes once each and in order, for any number of
    readers and writers in any interleaving, across wrap-around of the ring
    and of its counters: what was read is a prefix of what was written, and at
    most [PIPESIZE] bytes are in flight. *)
Theorem pipe_fifo kw n s :
  preachable kw n s -> exists q, sy_in s = sy_out s ++ q /\ Z.of_nat (length q) <= PIPESIZE.
Proof. intros Hs. destruct (preachable_inv kw n s Hs) as (q & [I1 I2 _ _]). by exists q. Qed.

(** C36: no wake-up on a pipe is lost: a process that sleeps in [pipewrite] has a
    full pipe that can still be read, and one that sleeps in [piperead] an
    empty pipe that can still be written, as long as no killed process has
    given up writing to a pipe that could be read. *)
Theorem pipe_no_lost_wakeup kw n s :
  preachable kw n s ->
  (forall i rest k c killed, sy_thr s !! i = Some (Thr (JWrite rest k) (Some c) killed) ->
     exists p, sy_pipes s !! sy_page s = Some p /\ pipe_full p = true /\ pp_readopen p = true) /\
  (kw = false -> forall i k c killed, sy_thr s !! i = Some (Thr (JRead k) (Some c) killed) ->
     exists p, sy_pipes s !! sy_page s = Some p /\ pipe_empty p = true /\ pp_writeopen p = true).
Proof.
  intros Hs. destruct (preachable_inv kw n s Hs) as (q & [I1 I2 I3 I4]). rewrite Forall_lookup in I4. split.
  - intros i rest k c killed Hi. destruct (I4 _ _ Hi) as (p & Hp & _ & Hc). exists p. split; [done|].
    destruct (Hc c eq_refl) as (_ & Hl & Ho). by rewrite (pipe_full_spec _ _ (I3 p Hp)), bool_decide_eq_true_2.
  - intros Hkw i k c killed Hi. destruct (I4 _ _ Hi) as (p & Hp & _ & Hc). exists p. split; [done|].
    destruct (Hc c eq_refl) as (_ & Hl). destruct (Hl Hkw) as [-> Ho]. by rewrite (pipe_empty_spec _ _ (I3 p Hp)).
Qed.

(** A killed writer can lose a wake-up: it fills the pipe and gives up
    without waking the reader that sleeps on the empty pipe. *)
Theorem killed_writer_loses_wakeup :
  exists s p m c, preachable true 2 s /\ sy_thr s !! 0%nat = Some (Thr (JRead m) (Some c) false) /\
    sy_pipes s !! sy_page s = Some p /\ pipe_full p = true /\ pp_writeopen p = true.
Proof.
  pose (src := replicate 513 65). pose (p1 := fst (pipewrite_pass new_pipe true src)).
  exists (PSys 0 {[ 0 := p1 ]} [Thr (JRead 1) (Some (ChPipeRead 0)) false; Thr JIdle None true]
               (take (moved new_pipe p1) src) []), p1, 1, (ChPipeRead 0).
  split; [|vm_compute; done]. exists 0.
  eapply rtc_l; [apply (ps_start true 0 _ _ _ _ 0 (Thr JIdle None false) new_pipe (JRead 1)); done|].
  eapply rtc_l; [apply (ps_read_sleep true 0 _ _ _ _ 0 1 false (ChPipeRead 0) {[ 0 := new_pipe ]} []); done|].
  eapply rtc_l; [apply (ps_start true 0 _ _ _ _ 1 (Thr JIdle None false) new_pipe (JWrite src 513)); done|].
  eapply rtc_l; [apply (ps_kill true 0 _ _ _ _ 1 (Thr (JWrite src 513) None false)); done|].
  eapply rtc_l; [|apply rtc_refl].
  apply (ps_write true 0 _ [Thr (JRead 1) (Some (ChPipeRead 0)) false; Thr (JWrite src 513) None true] [] [] 1 src 513 true new_pipe
           (-1) {[ 0 := p1 ]} [] p1); [done|done|vm_compute; reflexivity|vm_compute; reflexivity|done].
Qed.
