(* ===== verification/Kbd.v ===== *)
(** * The keyboard

    [kernel/kbd.c] and the key maps of [kernel/kbd.h]: from scan codes to
    characters.  The state is the static variable [shift]; the argument of
    [kbdgetc] is the byte the controller has, if any. *)

From S2P Require Import Prelude.

Definition NO : Z := 0.
Definition SHIFT : Z := 1.
Definition CTL : Z := 2.
Definition ALT : Z := 4.
Definition CAPSLOCK : Z := 8.
Definition NUMLOCK : Z := 16.
Definition SCROLLLOCK : Z := 32.
Definition E0ESC : Z := 64.

Definition KEY_HOME : Z := 0xE0.
Definition KEY_END : Z := 0xE1.
Definition KEY_UP : Z := 0xE2.
Definition KEY_DN : Z := 0xE3.
Definition KEY_LF : Z := 0xE4.
Definition KEY_RT : Z := 0xE5.
Definition KEY_PGUP : Z := 0xE6.
Definition KEY_PGDN : Z := 0xE7.
Definition KEY_INS : Z := 0xE8.
Definition KEY_DEL : Z := 0xE9.

(** [C('A')] is Control-A. *)
Definition C (x : Z) : Z := x - 64.

(** A table of 256 bytes: its first entries and the designated ones. *)
Definition table (first : list Z) (rest : list (Z * Z)) : list Z :=
  foldl (fun t '(i, v) => <[Z.to_nat i := u8 v]> t) (first ++ replicate (Z.to_nat 256 - length first) 0) rest.

Definition shiftcode : list Z :=
  table [] [(0x1D, CTL); (0x2A, SHIFT); (0x36, SHIFT); (0x38, ALT); (0x9D, CTL); (0xB8, ALT)].

Definition togglecode : list Z :=
  table [] [(0x3A, CAPSLOCK); (0x45, NUMLOCK); (0x46, SCROLLLOCK)].

(** The designated entries of the three maps. *)
Definition keypad (enter div : Z) : list (Z * Z) :=
  [(0x9C, enter); (0xB5, div); (0xC8, KEY_UP); (0xD0, KEY_DN); (0xC9, KEY_PGUP); (0xD1, KEY_PGDN);
   (0xCB, KEY_LF); (0xCD, KEY_RT); (0x97, KEY_HOME); (0xCF, KEY_END); (0xD2, KEY_INS);
   (0xD3, KEY_DEL)].

Definition normalmap : list Z := table
  [NO; 0x1B; 49; 50; 51; 52; 53; 54;  55; 56; 57; 48; 45; 61; 8; 9;
   113; 119; 101; 114; 116; 121; 117; 105;  111; 112; 91; 93; 10; NO; 97; 115;
   100; 102; 103; 104; 106; 107; 108; 59;  39; 96; NO; 92; 122; 120; 99; 118;
   98; 110; 109; 44; 46; 47; NO; 42;  NO; 32; NO; NO; NO; NO; NO; NO;
   NO; NO; NO; NO; NO; NO; NO; 55;  56; 57; 45; 52; 53; 54; 43; 49;
   50; 51; 48; 46; NO; NO; NO; NO]
  (keypad 10 47).

Definition shiftmap : list Z := table
  [NO; 27; 33; 64; 35; 36; 37; 94;  38; 42; 40; 41; 95; 43; 8; 9;
   81; 87; 69; 82; 84; 89; 85; 73;  79; 80; 123; 125; 10; NO; 65; 83;
   68; 70; 71; 72; 74; 75; 76; 58;  34; 126; NO; 124; 90; 88; 67; 86;
   66; 78; 77; 60; 62; 63; NO; 42;  NO; 32; NO; NO; NO; NO; NO; NO;
   NO; NO; NO; NO; NO; NO; NO; 55;  56; 57; 45; 52; 53; 54; 43; 49;
   50; 51; 48; 46; NO; NO; NO; NO]
  (keypad 10 47).

Definition ctlmap : list Z := table
  [NO; NO; NO; NO; NO; NO; NO; NO;  NO; NO; NO; NO; NO; NO; NO; NO;
   C 81; C 87; C 69; C 82; C 84; C 89; C 85; C 73;
   C 79; C 80; NO; NO; 13; NO; C 65; C 83;
   C 68; C 70; C 71; C 72; C 74; C 75; C 76; NO;
   NO; NO; NO; C 92; C 90; C 88; C 67; C 86;
   C 66; C 78; C 77; NO; NO; u8 (C 47); NO; NO]
  (keypad 13 (C 47)).

Definition tget (t : list Z) (i : Z) : Z := default 0 (t !! Z.to_nat i).

(** [charcode[shift & (CTL | SHIFT)]]. *)
Definition charcode (k : Z) : list Z :=
  if k =? 0 then normalmap else if k =? 1 then shiftmap else ctlmap.

(** [kbdgetc] with the keyboard's byte: the new [shift] and the result. *)
Definition kbdgetc (shift : Z) (data : option Z) : Z * Z :=
  match data with
  | None => (shift, -1)
  | Some data =>
      if data =? 0xE0 then (Z.lor shift E0ESC, 0) else
      if truth (Z.land data 0x80) then
        let data := if truth (Z.land shift E0ESC) then data else Z.land data 0x7F in
        (Z.land shift (Z.lnot (Z.lor (tget shiftcode data) E0ESC)), 0)
      else
        let '(data, shift) :=
          if truth (Z.land shift E0ESC) then (Z.lor data 0x80, Z.land shift (Z.lnot E0ESC))
          else (data, shift) in
        let shift := Z.lor shift (tget shiftcode data) in
        let shift := Z.lxor shift (tget togglecode data) in
        let c := tget (charcode (Z.land shift (Z.lor CTL SHIFT))) data in
        let c :=
          if truth (Z.land shift CAPSLOCK) then
            if (97 <=? c) && (c <=? 122) then c + (65 - 97)
            else if (65 <=? c) && (c <=? 90) then c + (97 - 65) else c
          else c in
        (shift, c)
  end.

(** The characters of a run of scan codes, as [kbdintr] passes them on. *)
Fixpoint kbd_chars (shift : Z) (codes : list Z) : Z * list Z :=
  match codes with
  | [] => (shift, [])
  | d :: codes =>
      let '(shift, c) := kbdgetc shift (Some d) in
      let '(shift', cs) := kbd_chars shift codes in
      (shift', c :: cs)
  end.

(** ** What the keyboard delivers *)

Lemma check2 (P : Z -> Z -> bool) n m :
  forallb (fun s => forallb (P s) (seqZ 0 m)) (seqZ 0 n) = true ->
  forall s d, 0 <= s < n -> 0 <= d < m -> P s d = true.
Proof.
  rewrite forallb_forall. intros H s d Hs Hd.
  assert (Hin : forall a k, 0 <= a < k -> In a (seqZ 0 k)).
  { intros a k Ha. apply list_elem_of_In, elem_of_seqZ. lia. }
  specialize (H s (Hin _ _ Hs)). rewrite forallb_forall in H. by apply H, Hin.
Qed.

(** Whatever bytes the keyboard sends, [kbdgetc] stays within its tables:
    the modifier word keeps to its seven flags and the result is a byte. *)
Theorem kbdgetc_range shift data :
  0 <= shift < 128 -> 0 <= data < 256 ->
  let '(shift', c) := kbdgetc shift (Some data) in
  (0 <= shift' < 128 /\ 0 <= c < 256) /\
  (length (charcode (Z.land shift' (Z.lor CTL SHIFT))) = 256%nat).
Proof.
  intros Hs Hd.
  pose proof (check2 (fun s d => let '(s', c) := kbdgetc s (Some d) in
    (0 <=? s') && (s' <? 128) && (0 <=? c) && (c <? 256) &&
    (Z.of_nat (length (charcode (Z.land s' (Z.lor CTL SHIFT)))) =? 256)) 128 256) as H.
  specialize (H ltac:(vm_compute; reflexivity) shift data Hs Hd). cbv beta in H.
  destruct (kbdgetc shift (Some data)) as [s' c].
  repeat (apply andb_true_iff in H as [H ?]). lia.
Qed.

(** Pressing a key and letting it go leaves the modifiers as they were,
    up to the key's own: a modifier key is up again, a lock key toggles its
    lock.  (The release code of key 0x60 is the escape prefix.) *)
Theorem kbd_press_release shift key :
  0 <= shift < 64 -> 0 <= key < 128 -> key <> 0x60 ->
  fst (kbd_chars shift [key; Z.lor key 0x80]) =
    Z.lxor (Z.land shift (Z.lnot (tget shiftcode key))) (tget togglecode key).
Proof.
  intros Hs Hd Hne.
  pose proof (check2 (fun s d => (d =? 0x60) ||
    (fst (kbd_chars s [d; Z.lor d 0x80]) =?
     Z.lxor (Z.land s (Z.lnot (tget shiftcode d))) (tget togglecode d))) 64 128) as H.
  specialize (H ltac:(vm_compute; reflexivity) shift key Hs Hd). cbv beta in H. lia.
Qed.

(** The scan codes of the letters, in the order of the rows of the keyboard. *)
Definition letter_keys : list (Z * Z) :=
  zip (seqZ 0x10 10 ++ seqZ 0x1E 9 ++ seqZ 0x2C 7)
      [113; 119; 101; 114; 116; 121; 117; 105; 111; 112;
       97; 115; 100; 102; 103; 104; 106; 107; 108; 122; 120; 99; 118; 98; 110; 109].

(** A letter key gives its capital exactly when one of Shift and Caps Lock
    is on, and its control code with Control, whatever the other modifiers. *)
Theorem kbd_letters shift key c :
  0 <= shift < 64 -> (key, c) ∈ letter_keys ->
  kbdgetc shift (Some key) = (shift,
    if Z.testbit shift 1 then c - 96
    else if xorb (Z.testbit shift 0) (Z.testbit shift 3) then c - 32 else c).
Proof.
  intros Hs Hk.
  assert (H : forallb (fun s => forallb (fun '(key, c) =>
     bool_decide (kbdgetc s (Some key) = (s, if Z.testbit s 1 then c - 96
       else if xorb (Z.testbit s 0) (Z.testbit s 3) then c - 32 else c))) letter_keys) (seqZ 0 64) = true)
    by (vm_compute; reflexivity).
  rewrite forallb_forall in H. specialize (H shift ltac:(apply list_elem_of_In, elem_of_seqZ; lia)).
  rewrite forallb_forall in H. specialize (H (key, c) ltac:(by apply list_elem_of_In)).
  cbv beta iota in H. by apply bool_decide_eq_true in H.
Qed.
