(* ===== verification/Fs.v ===== *)
(** * The file system: operations

    [kernel/fs.c] over the block layer's interface: the block allocator, the
    inode cache, inode contents, directories and path names.  The operations
    are those of the C code, on a state [fs] that holds the block layer, the
    superblock, the inode cache and the state of the devices behind [devsw].
    A pointer into the inode cache is an index.  The process on whose behalf
    the code runs ([myproc()]) is the argument [p].

    Their specifications are in [FsAlloc], [FsInode], [FsFile] and [FsDir]. *)

From S2P Require Import Prelude SleepLock Bio Layout Log BlockLayer CString ProcDefs.

Definition T_DIR : Z := 1.
Definition T_FILE : Z := 2.
Definition T_DEV : Z := 3.

(** In-memory inode; [i_d] is the copy of the disk inode. *)
Record inode := Inode {
  i_dev : Z; i_inum : Z; i_ref : Z; i_lock : sleeplock; i_valid : bool; i_d : dinode }.

Definition i_with_ref r ip := Inode (i_dev ip) (i_inum ip) r (i_lock ip) (i_valid ip) (i_d ip).
Definition i_with_lock l ip := Inode (i_dev ip) (i_inum ip) (i_ref ip) l (i_valid ip) (i_d ip).
Definition i_with_valid b ip := Inode (i_dev ip) (i_inum ip) (i_ref ip) (i_lock ip) b (i_d ip).
Definition i_with_d d ip := Inode (i_dev ip) (i_inum ip) (i_ref ip) (i_lock ip) (i_valid ip) d.

Definition d_with_type x d := DInode x (d_major d) (d_minor d) (d_nlink d) (d_size d)
  (d_addrs d) (d_uid d) (d_gid d) (d_mode d).
Definition d_with_nlink x d := DInode (d_type d) (d_major d) (d_minor d) x (d_size d)
  (d_addrs d) (d_uid d) (d_gid d) (d_mode d).
Definition d_with_size x d := DInode (d_type d) (d_major d) (d_minor d) (d_nlink d) x
  (d_addrs d) (d_uid d) (d_gid d) (d_mode d).
Definition d_with_addrs x d := DInode (d_type d) (d_major d) (d_minor d) (d_nlink d) (d_size d)
  x (d_uid d) (d_gid d) (d_mode d).
Definition d_with_owner u g d := DInode (d_type d) (d_major d) (d_minor d) (d_nlink d) (d_size d)
  (d_addrs d) u g (d_mode d).
Definition d_with_mode x d := DInode (d_type d) (d_major d) (d_minor d) (d_nlink d) (d_size d)
  (d_addrs d) (d_uid d) (d_gid d) x.
Definition d_with_dev ma mi d := DInode (d_type d) ma mi (d_nlink d) (d_size d)
  (d_addrs d) (d_uid d) (d_gid d) (d_mode d).

Definition zero_dinode : dinode := DInode 0 0 0 0 0 (replicate (S NDIRECT) 0) 0 0 0.
Definition zero_inode : inode := Inode 0 0 0 initsleeplock false zero_dinode.

Record fs (B D : Type) := Fs {
  fs_blk : B;
  fs_sb : superblock;
  fs_inode : list inode;
  fs_dev : D }.
Arguments Fs {B D}.
Arguments fs_blk {B D}.
Arguments fs_sb {B D}.
Arguments fs_inode {B D}.
Arguments fs_dev {B D}.

(** The functions behind [devsw[major]]: [read] gets the inode and the count
    and returns its result and the bytes it stored; [write] gets the bytes. *)
Record devfns (S : Type) := DevFns {
  dev_read : option (nat -> Z -> M S (Z * list Z));
  dev_write : option (nat -> list Z -> Z -> M S Z) }.
Arguments DevFns {S}.
Arguments dev_read {S}.
Arguments dev_write {S}.

Definition byte_at (d : list Z) (i : nat) : Z := default 0 (d !! i).

Section fs.
Context {B D : Type} `{BlockOps B} (devsw : Z -> devfns (fs B D)) (p : proc).

Abbreviation F := (M (fs B D)).

Definition set_blk (b : B) (s : fs B D) : fs B D := Fs b (fs_sb s) (fs_inode s) (fs_dev s).
Definition set_inodes (l : list inode) (s : fs B D) : fs B D :=
  Fs (fs_blk s) (fs_sb s) l (fs_dev s).

Definition on_blk {A} (m : M B A) : F A := zoom fs_blk set_blk m.

Definition fbread (dev blockno : Z) : F nat := on_blk (bl_bread (p_pid p) dev blockno).
Definition fbdata (i : nat) : F (list Z) := on_blk (bl_bdata i).
Definition fbput (i : nat) (d : list Z) : F unit := on_blk (bl_bput i d).
Definition flog_write (i : nat) : F unit := on_blk (bl_log_write i).
Definition fbrelse (i : nat) : F unit := on_blk (bl_brelse (p_pid p) i).

(** *** Blocks *)

(** Zero a block. *)
Definition bzero (dev bno : Z) : F unit :=
  let* bp := fbread dev bno in
  do* fbput bp (replicate (Z.to_nat BSIZE) 0) in
  do* flog_write bp in
  fbrelse bp.

(** The inner loop of [balloc]: the first clear bit from [bi] on ([k] left) of
    the bitmap block whose first bit is block [b]. *)
Fixpoint free_bit (k : nat) (d : list Z) (b size : Z) (bi : nat) : option nat :=
  match k with
  | O => None
  | S k =>
      if b + Z.of_nat bi <? size then
        if Z.land (byte_at d (bi / 8)) (2 ^ Z.of_nat (bi mod 8)) =? 0 then Some bi
        else free_bit k d b size (S bi)
      else None
  end.

(** The outer loop; [k] bounds the bitmap blocks still to be looked at. *)
Fixpoint balloc_loop (k : nat) (dev b : Z) : F Z :=
  match k with
  | O => panic "balloc: out of blocks"
  | S k =>
      let* s := get in
      if b <? sb_size (fs_sb s) then
        let* bp := fbread dev (BBLOCK b (fs_sb s)) in
        let* d := fbdata bp in
        match free_bit (Z.to_nat BPB) d b (sb_size (fs_sb s)) 0 with
        | Some bi =>
            do* fbput bp (<[(bi / 8)%nat :=
                   Z.lor (byte_at d (bi / 8)) (2 ^ Z.of_nat (bi mod 8))]> d) in
            do* flog_write bp in
            do* fbrelse bp in
            do* bzero dev (b + Z.of_nat bi) in
            ret (b + Z.of_nat bi)
        | None =>
            do* fbrelse bp in
            balloc_loop k dev (b + BPB)
        end
      else panic "balloc: out of blocks"
  end.

(** Allocate a zeroed disk block.  There are at most [size/BPB + 1] bitmap
    blocks. *)
Definition balloc (dev : Z) : F Z :=
  let* s := get in balloc_loop (S (Z.to_nat (sb_size (fs_sb s) / BPB))) dev 0.

(** Free a disk block. *)
Definition bfree (dev b : Z) : F unit :=
  let* s := get in
  let* bp := fbread dev (BBLOCK b (fs_sb s)) in
  let* d := fbdata bp in
  let bi := Z.to_nat (b mod BPB) in
  let m := 2 ^ Z.of_nat (bi mod 8) in
  if Z.land (byte_at d (bi / 8)) m =? 0 then panic "freeing free block" else
  do* fbput bp (<[(bi / 8)%nat := Z.land (byte_at d (bi / 8)) (Z.lnot m)]> d) in
  do* flog_write bp in
  fbrelse bp.
(** *** Inodes *)

Definition read_inode (ip : nat) : F inode :=
  let* s := get in deref (fs_inode s !! ip) "inode".
Definition upd_inode (ip : nat) (f : inode -> inode) : F unit :=
  modify (fun s => set_inodes (alter f ip (fs_inode s)) s).
Definition upd_d (ip : nat) (f : dinode -> dinode) : F unit :=
  upd_inode ip (fun i => i_with_d (f (i_d i)) i).

Definition inode_lock (ip : nat) (s : fs B D) : sleeplock :=
  match fs_inode s !! ip with Some i => i_lock i | None => initsleeplock end.
Definition set_inode_lock (ip : nat) (l : sleeplock) (s : fs B D) : fs B D :=
  set_inodes (alter (i_with_lock l) ip (fs_inode s)) s.

(** [iinit], after [readsb]: unlocked inodes and the superblock in memory. *)
Definition iinit (dev : Z) : F unit :=
  do* modify (fun s => set_inodes (i_with_lock initsleeplock <$> fs_inode s) s) in
  let* bp := fbread dev 1 in
  let* d := fbdata bp in
  do* fbrelse bp in
  modify (fun s => Fs (fs_blk s) (dec_superblock d) (fs_inode s) (fs_dev s)).

(** One pass over the cache: the entry for (dev, inum), else the first free
    one. *)
Fixpoint iget_loop (dev inum : Z) (l : list inode) (i : nat) (empty : option nat) :
    nat + option nat :=
  match l with
  | [] => inr empty
  | ip :: l =>
      if (0 <? i_ref ip) && (i_dev ip =? dev) && (i_inum ip =? inum) then inl i
      else iget_loop dev inum l (S i)
             (match empty with
              | None => if i_ref ip =? 0 then Some i else None
              | Some e => Some e
              end)
  end.

Definition iget (dev inum : Z) : F nat :=
  let* s := get in
  match iget_loop dev inum (fs_inode s) 0 None with
  | inl ip => do* upd_inode ip (fun i => i_with_ref (i_ref i + 1) i) in ret ip
  | inr None => panic "iget: no inodes"
  | inr (Some ip) =>
      do* upd_inode ip (fun i => Inode dev inum 1 (i_lock i) false (i_d i)) in ret ip
  end.

Definition idup (ip : nat) : F nat :=
  do* upd_inode ip (fun i => i_with_ref (i_ref i + 1) i) in ret ip.

(** Index of an inode within its block. *)
Definition ino_slot (inum : Z) : nat := Z.to_nat (inum mod IPB).

(** [memset(dip, 0, sizeof(struct dinode)); dip->type = type]. *)
Definition clear_dinode (k : nat) (type : Z) (d : list Z) : list Z :=
  put_le 2 (DINODE_SIZE * k) type
    (splice (DINODE_SIZE * k) (replicate DINODE_SIZE 0) d).

Fixpoint ialloc_loop (k : nat) (dev type inum : Z) : F nat :=
  match k with
  | O => panic "ialloc: no inodes"
  | S k =>
      let* s := get in
      if inum <? sb_ninodes (fs_sb s) then
        let* bp := fbread dev (IBLOCK inum (fs_sb s)) in
        let* d := fbdata bp in
        if d_type (get_dinode (ino_slot inum) d) =? 0 then
          do* fbput bp (clear_dinode (ino_slot inum) type d) in
          do* flog_write bp in
          do* fbrelse bp in
          iget dev inum
        else
          do* fbrelse bp in
          ialloc_loop k dev type (inum + 1)
      else panic "ialloc: no inodes"
  end.

Definition ialloc (dev type : Z) : F nat :=
  let* s := get in ialloc_loop (Z.to_nat (sb_ninodes (fs_sb s))) dev type 1.

(** Copy a modified in-memory inode to disk. *)
Definition iupdate (ip : nat) : F unit :=
  let* i := read_inode ip in
  let* s := get in
  let* bp := fbread (i_dev i) (IBLOCK (i_inum i) (fs_sb s)) in
  let* d := fbdata bp in
  do* fbput bp (put_dinode (ino_slot (i_inum i)) (i_d i) d) in
  do* flog_write bp in
  fbrelse bp.

Definition ilock (ip : nat) : F unit :=
  let* i := read_inode ip in
  if i_ref i <? 1 then panic "ilock" else
  do* acquiresleep (inode_lock ip) (set_inode_lock ip) (ChInodeLock ip) (p_pid p) in
  let* i := read_inode ip in
  if i_valid i then ret tt else
  let* s := get in
  let* bp := fbread (i_dev i) (IBLOCK (i_inum i) (fs_sb s)) in
  let* d := fbdata bp in
  do* upd_inode ip (i_with_d (get_dinode (ino_slot (i_inum i)) d)) in
  do* fbrelse bp in
  do* upd_inode ip (i_with_valid true) in
  let* i := read_inode ip in
  when d_type (i_d i) =? 0 then panic "ilock: no type".

Definition iunlock (ip : nat) : F unit :=
  let* i := read_inode ip in
  let* h := holdingsleep (inode_lock ip) (p_pid p) in
  if negb h || (i_ref i <? 1) then panic "iunlock" else
  releasesleep (set_inode_lock ip) (ChInodeLock ip).

(** *** Inode content *)

(** Disk block address of the [bn]th block of inode [ip], allocated if there
    is none. *)
Definition bmap (ip : nat) (bn : Z) : F Z :=
  let* i := read_inode ip in
  let addr_at k := default 0 (d_addrs (i_d i) !! k) in
  if bn <? Z.of_nat NDIRECT then
    let k := Z.to_nat bn in
    if addr_at k =? 0 then
      let* addr := balloc (i_dev i) in
      do* upd_d ip (fun d => d_with_addrs (<[k := addr]> (d_addrs d)) d) in
      ret addr
    else ret (addr_at k)
  else
    let bn := bn - Z.of_nat NDIRECT in
    if bn <? Z.of_nat NINDIRECT then
      let* addr :=
        if addr_at NDIRECT =? 0 then
          let* addr := balloc (i_dev i) in
          do* upd_d ip (fun d => d_with_addrs (<[NDIRECT := addr]> (d_addrs d)) d) in
          ret addr
        else ret (addr_at NDIRECT) in
      let* bp := fbread (i_dev i) addr in
      let* a := fbdata bp in
      let off := (4 * Z.to_nat bn)%nat in
      let* addr :=
        if get_le 4 off a =? 0 then
          let* addr := balloc (i_dev i) in
          let* a := fbdata bp in
          do* fbput bp (put_le 4 off addr a) in
          do* flog_write bp in
          ret addr
        else ret (get_le 4 off a) in
      do* fbrelse bp in
      ret addr
    else panic "bmap: out of range".

(** Free direct blocks [i ..] ([k] left). *)
Fixpoint itrunc_direct (k : nat) (ip i : nat) : F unit :=
  match k with
  | O => ret tt
  | S k =>
      let* n := read_inode ip in
      let a := default 0 (d_addrs (i_d n) !! i) in
      do* when negb (a =? 0) then
            (do* bfree (i_dev n) a in
             upd_d ip (fun d => d_with_addrs (<[i := 0]> (d_addrs d)) d)) in
      itrunc_direct k ip (S i)
  end.

(** Free the blocks listed in the indirect block [a], from entry [j] on. *)
Fixpoint itrunc_indirect (k : nat) (dev : Z) (a : list Z) (j : nat) : F unit :=
  match k with
  | O => ret tt
  | S k =>
      do* when negb (get_le 4 (4 * j) a =? 0) then bfree dev (get_le 4 (4 * j) a) in
      itrunc_indirect k dev a (S j)
  end.

Definition itrunc (ip : nat) : F unit :=
  do* itrunc_direct NDIRECT ip 0 in
  let* n := read_inode ip in
  let ind := default 0 (d_addrs (i_d n) !! NDIRECT) in
  do* when negb (ind =? 0) then
        (let* bp := fbread (i_dev n) ind in
         let* a := fbdata bp in
         do* itrunc_indirect NINDIRECT (i_dev n) a 0 in
         do* fbrelse bp in
         do* bfree (i_dev n) ind in
         upd_d ip (fun d => d_with_addrs (<[NDIRECT := 0]> (d_addrs d)) d)) in
  do* upd_d ip (d_with_size 0) in
  iupdate ip.

(** Drop a reference; free the inode and its content if it was the last one
    and there are no links. *)
Definition iput (ip : nat) : F unit :=
  do* acquiresleep (inode_lock ip) (set_inode_lock ip) (ChInodeLock ip) (p_pid p) in
  let* i := read_inode ip in
  do* when i_valid i && (d_nlink (i_d i) =? 0) && (i_ref i =? 1) then
        (do* itrunc ip in
         do* upd_d ip (d_with_type 0) in
         do* iupdate ip in
         upd_inode ip (i_with_valid false)) in
  do* releasesleep (set_inode_lock ip) (ChInodeLock ip) in
  upd_inode ip (fun i => i_with_ref (i_ref i - 1) i).

Definition iunlockput (ip : nat) : F unit := do* iunlock ip in iput ip.
(** [st->mode]: the type letter and the nine permission letters. *)
Definition mode_string (d : dinode) : list Z :=
  (if d_type d =? T_DIR then 100 else 45) ::
  ((fun i : nat =>
      if truth (Z.land (d_mode d) (2 ^ (9 - Z.of_nat i)))
      then default 0 ([114; 119; 120] !! ((i - 1) mod 3)%nat)
      else 45) <$> seq 1 9).

(** [struct stat] as [stati] fills it; the terminating zero it stores at
    [mode[10]] is one byte past the array. *)
Record stat := Stat {
  st_type : Z; st_dev : Z; st_ino : Z; st_nlink : Z; st_size : Z; st_uid : Z; st_gid : Z;
  st_mode : list Z }.

Definition stati (ip : nat) : F stat :=
  let* i := read_inode ip in
  ret (Stat (d_type (i_d i)) (s32 (i_dev i)) (i_inum i) (d_nlink (i_d i)) (d_size (i_d i))
            (d_uid (i_d i)) (d_gid (i_d i)) (mode_string (i_d i) ++ [0])).

(** The copy loop of [readi]; the result is the bytes moved to [dst]. *)
Fixpoint readi_loop (fuel : nat) (ip : nat) (off n tot : Z) (acc : list Z) : F (list Z) :=
  if tot <? n then
    match fuel with
    | O => fault "readi"
    | S fuel =>
        let* bno := bmap ip (off / BSIZE) in
        let* i := read_inode ip in
        let* bp := fbread (i_dev i) bno in
        let m := Z.min (n - tot) (BSIZE - off mod BSIZE) in
        let* d := fbdata bp in
        do* fbrelse bp in
        readi_loop fuel ip (off + m) n (tot + m)
          (acc ++ slice (Z.to_nat (off mod BSIZE)) (Z.to_nat m) d)
    end
  else ret acc.

(** The blocks touched by [n] bytes are at most [n / BSIZE + 2]. *)
Definition io_fuel (n : Z) : nat := (Z.to_nat (n / BSIZE) + 2)%nat.

Definition readi (ip : nat) (off n : Z) : F (Z * list Z) :=
  let* i := read_inode ip in
  if d_type (i_d i) =? T_DEV then
    let major := d_major (i_d i) in
    if (major <? 0) || (NDEV <=? major) then ret (-1, []) else
    match dev_read (devsw major) with
    | None => ret (-1, [])
    | Some f => f ip (s32 n)
    end
  else
  let size := d_size (i_d i) in
  if (size <? off) || (u32 (off + n) <? off) then ret (-1, []) else
  let n := if size <? u32 (off + n) then size - off else n in
  let* l := readi_loop (io_fuel n) ip off n 0 [] in
  ret (s32 n, l).

Fixpoint writei_loop (fuel : nat) (ip : nat) (src : list Z) (off n tot : Z) : F Z :=
  if tot <? n then
    match fuel with
    | O => fault "writei"
    | S fuel =>
        let* bno := bmap ip (off / BSIZE) in
        let* i := read_inode ip in
        let* bp := fbread (i_dev i) bno in
        let m := Z.min (n - tot) (BSIZE - off mod BSIZE) in
        let* d := fbdata bp in
        do* fbput bp (splice (Z.to_nat (off mod BSIZE))
                             (slice (Z.to_nat tot) (Z.to_nat m) src) d) in
        do* flog_write bp in
        do* fbrelse bp in
        writei_loop fuel ip src (off + m) n (tot + m)
    end
  else ret off.

(** [src] are the bytes at the source address. *)
Definition writei (ip : nat) (src : list Z) (off n : Z) : F Z :=
  let* i := read_inode ip in
  if d_type (i_d i) =? T_DEV then
    let major := d_major (i_d i) in
    if (major <? 0) || (NDEV <=? major) then ret (-1) else
    match dev_write (devsw major) with
    | None => ret (-1)
    | Some f => f ip src (s32 n)
    end
  else
  if (d_size (i_d i) <? off) || (u32 (off + n) <? off) then ret (-1) else
  if MAXFILE * BSIZE <? u32 (off + n) then ret (-1) else
  let* off' := writei_loop (io_fuel n) ip src off n 0 in
  let* i := read_inode ip in
  do* when (0 <? n) && (d_size (i_d i) <? off') then
        (do* upd_d ip (d_with_size off') in iupdate ip) in
  ret (s32 n).

(** *** Directories *)

Definition namecmp (s t : list Z) : Z := strncmp s t DIRSIZ.

Definition DE : Z := 16.   (* sizeof(struct dirent) *)

(** The groups of the process. *)
Definition groups : list Z := take (Z.to_nat (p_ngroups p)) (p_gids p).

(** The execute-permission test of [dirlookup], [sys_chdir] and [exec]. *)
Definition exec_denied (d : dinode) : bool :=
  negb (truth (Z.land (d_mode d) 1)) &&
  (negb (p_euid p =? d_uid d) || negb (truth (Z.land (d_mode d) (2 ^ 6)))) &&
  negb (existsb (fun g => (g =? d_gid d) && truth (Z.land (d_mode d) (2 ^ 3))) groups).

(** Scan the entries of directory [dp] from [off] on. *)
Fixpoint dirlookup_loop (fuel : nat) (dp : nat) (name : list Z) (off : Z) :
    F (option (nat * Z)) :=
  let* i := read_inode dp in
  if off <? d_size (i_d i) then
    match fuel with
    | O => fault "dirlookup"
    | S fuel =>
        let* (r, l) := readi dp off DE in
        if negb (r =? DE) then panic "dirlookup read" else
        let de := dec_dirent l in
        if de_inum de =? 0 then dirlookup_loop fuel dp name (off + DE) else
        if namecmp name (de_name de) =? 0 then
          let* ip := iget (i_dev i) (de_inum de) in
          ret (Some (ip, off))
        else dirlookup_loop fuel dp name (off + DE)
    end
  else ret None.

Definition dir_fuel (size : Z) : nat := S (Z.to_nat (size / DE)).

Definition dirlookup (dp : nat) (name : list Z) : F (option (nat * Z)) :=
  let* i := read_inode dp in
  if negb (d_type (i_d i) =? T_DIR) then panic "dirlookup not DIR" else
  if exec_denied (i_d i) then ret None else
  dirlookup_loop (dir_fuel (d_size (i_d i))) dp name 0.

(** Offset of the first free entry, or the end of the directory. *)
Fixpoint free_dirent (fuel : nat) (dp : nat) (off : Z) : F Z :=
  let* i := read_inode dp in
  if off <? d_size (i_d i) then
    match fuel with
    | O => fault "dirlink"
    | S fuel =>
        let* (r, l) := readi dp off DE in
        if negb (r =? DE) then panic "dirlink read" else
        if de_inum (dec_dirent l) =? 0 then ret off
        else free_dirent fuel dp (off + DE)
    end
  else ret off.

Definition dirlink (dp : nat) (name : list Z) (inum : Z) : F Z :=
  let* r := dirlookup dp name in
  match r with
  | Some (ip, _) => do* iput ip in ret (-1)
  | None =>
      let* i := read_inode dp in
      let* off := free_dirent (dir_fuel (d_size (i_d i))) dp 0 in
      let* r := writei dp (enc_dirent (DirEnt (u16 inum) (strncpy name DIRSIZ))) off DE in
      if negb (r =? DE) then panic "dirlink" else ret 0
  end.

(** *** Paths *)

Fixpoint skip_slashes (path : list Z) : list Z :=
  match path with
  | c :: path' => if c =? 47 then skip_slashes path' else path
  | [] => []
  end.

(** The element at the head of [path], and the rest. *)
Fixpoint path_elem (path : list Z) : list Z * list Z :=
  match path with
  | [] => ([], [])
  | c :: path' =>
      if (c =? 47) || (c =? 0) then ([], path)
      else let '(e, r) := path_elem path' in (c :: e, r)
  end.

(** Next path element (at most [DIRSIZ] bytes of it) and the rest. *)
Definition skipelem (path : list Z) : option (list Z * list Z) :=
  let path := skip_slashes path in
  if chr path =? 0 then None else
  let '(e, r) := path_elem path in
  Some (take DIRSIZ e, skip_slashes r).

Fixpoint namex_loop (fuel : nat) (path : list Z) (parent : bool) (ip : nat) (name : list Z) :
    F (option (nat * list Z)) :=
  match skipelem path with
  | None => if parent then do* iput ip in ret None else ret (Some (ip, name))
  | Some (name, path) =>
      match fuel with
      | O => fault "namex"
      | S fuel =>
          do* ilock ip in
          let* i := read_inode ip in
          if negb (d_type (i_d i) =? T_DIR) then do* iunlockput ip in ret None else
          if parent && (chr path =? 0) then do* iunlock ip in ret (Some (ip, name)) else
          let* next := dirlookup ip name in
          match next with
          | None => do* iunlockput ip in ret None
          | Some (next, _) => do* iunlockput ip in namex_loop fuel path parent next name
          end
      end
  end.

Definition namex (path : list Z) (parent : bool) : F (option (nat * list Z)) :=
  let* ip := if chr path =? 47 then iget ROOTDEV ROOTINO
             else let* cwd := deref (p_cwd p) "cwd" in idup cwd in
  namex_loop (S (length path)) path parent ip [].

Definition namei (path : list Z) : F (option nat) :=
  let* r := namex path false in ret (fst <$> r).

Definition nameiparent (path : list Z) : F (option (nat * list Z)) := namex path true.
End fs.
