(* ===== verification/Console.v ===== *)
(** * The console

    [kernel/console.c] and the output side of [kernel/uart.c]: formatted
    output, the CGA screen, the input line with its editing keys, and the
    console device behind [devsw].

    The state holds the screen memory and cursor, the bytes sent to the serial
    port, the input ring and the keyboard's modifiers.  Reading the cursor
    back from the CRT controller gives the position last written there.  A
    console that has panicked does not return from output: that is a fault. *)

From S2P Require Import Prelude CString SleepLock Bio Layout Log BlockLayer.
From S2P Require Import ProcDefs Fs Kbd.

Definition BACKSPACE : Z := 0x100.
Definition INPUT_BUF : Z := 128.
Definition CONSOLE : Z := 1.

Record input := Input { in_buf : list Z; in_r : Z; in_w : Z; in_e : Z }.

Record console := Cons {
  cn_panicked : bool;
  cn_visible : Z;
  cn_crt : list Z;        (* [crt]: 16-bit cells *)
  cn_pos : Z;             (* cursor register *)
  cn_hasuart : bool;      (* [uart] *)
  cn_serial : list Z;     (* bytes sent to COM1 *)
  cn_input : input;
  cn_shift : Z }.

Definition set_screen crt pos (s : console) : console :=
  Cons (cn_panicked s) (cn_visible s) crt pos (cn_hasuart s) (cn_serial s) (cn_input s) (cn_shift s).
Definition set_serial l (s : console) : console :=
  Cons (cn_panicked s) (cn_visible s) (cn_crt s) (cn_pos s) (cn_hasuart s) l (cn_input s) (cn_shift s).
Definition set_input i (s : console) : console :=
  Cons (cn_panicked s) (cn_visible s) (cn_crt s) (cn_pos s) (cn_hasuart s) (cn_serial s) i (cn_shift s).
Definition set_visible v (s : console) : console :=
  Cons (cn_panicked s) v (cn_crt s) (cn_pos s) (cn_hasuart s) (cn_serial s) (cn_input s) (cn_shift s).
Definition set_shift k (s : console) : console :=
  Cons (cn_panicked s) (cn_visible s) (cn_crt s) (cn_pos s) (cn_hasuart s) (cn_serial s) (cn_input s) k.

Abbreviation C_ := (M console).

(** ** Output *)

Definition uartputc (c : Z) : C_ unit :=
  let* s := get in
  when cn_hasuart s then modify (set_serial (cn_serial s ++ [u8 c])).

Definition blank : Z := Z.lor 32 0x0700.

(** [memmove(crt, crt+80, 2*23*80)] and [memset(crt+pos, 0, 2*(24*80-pos))]. *)
Definition scroll (crt : list Z) (pos : Z) : list Z :=
  let crt := splice 0 (slice 80 (23 * 80) crt) crt in
  splice (Z.to_nat pos) (replicate (Z.to_nat (24 * 80 - pos)) 0) crt.

Definition cgaputc (c : Z) : C_ unit :=
  let* s := get in
  let pos := cn_pos s in
  let '(crt, pos) :=
    if c =? 10 then (cn_crt s, pos + (80 - pos mod 80))
    else if c =? BACKSPACE then (cn_crt s, if 0 <? pos then pos - 1 else pos)
    else (<[Z.to_nat pos := Z.lor (Z.land c 0xff) 0x0700]> (cn_crt s), pos + 1) in
  if (pos <? 0) || (25 * 80 <? pos) then panic "pos under/overflow" else
  let '(crt, pos) :=
    if 24 <=? pos / 80 then (scroll crt (pos - 80), pos - 80) else (crt, pos) in
  modify (set_screen (<[Z.to_nat pos := blank]> crt) pos).

Definition consputc (c : Z) (show : bool) : C_ unit :=
  let* s := get in
  if cn_panicked s then fault "frozen" else
  do* if c =? BACKSPACE then
        do* uartputc 8 in do* uartputc 32 in uartputc 8
      else uartputc c in
  when show then cgaputc c.

Definition putchars (l : list Z) (show : bool) : C_ unit :=
  foldr (fun c k => do* consputc c show in k) (ret tt) l.

Definition digits : list Z :=
  [48; 49; 50; 51; 52; 53; 54; 55; 56; 57; 97; 98; 99; 100; 101; 102].

(** The digits of [x], least significant first; 32 rounds are enough for a
    32-bit word. *)
Fixpoint int_digits (fuel : nat) (x base : Z) : list Z :=
  default 0 (digits !! Z.to_nat (x mod base)) ::
  match fuel with
  | O => []
  | S fuel => if x / base =? 0 then [] else int_digits fuel (x / base) base
  end.

(** The contents of [buf] when it is printed. *)
Definition printint_buf (xx base : Z) (sign : bool) : list Z :=
  let neg := sign && (xx <? 0) in
  let x := if neg then u32 (- xx) else u32 xx in
  int_digits 32 x base ++ (if neg then [45] else []).

(** [buf] has 16 bytes; more than that is a write past its end. *)
Definition printint (xx base : Z) (sign : bool) : C_ unit :=
  let buf := printint_buf xx base sign in
  if (16 <? length buf)%nat then fault "printint: buf" else putchars (rev buf) true.

(** The arguments after the format: words and strings ([None]: null). *)
Inductive carg := AInt (x : Z) | AStr (s : option (list Z)).

Fixpoint cprintf (fmt : list Z) (args : list carg) : C_ unit :=
  match fmt with
  | [] => ret tt
  | c :: fmt =>
      if c =? 0 then ret tt else
      if negb (c =? 37) then do* consputc c true in cprintf fmt args else
      match fmt with
      | [] => ret tt
      | c :: fmt =>
          if c =? 0 then ret tt else
          if c =? 100 then
            match args with
            | AInt x :: args => do* printint (s32 x) 10 true in cprintf fmt args
            | _ => fault "cprintf"
            end
          else if (c =? 120) || (c =? 112) then
            match args with
            | AInt x :: args => do* printint (s32 x) 2 false in cprintf fmt args
            | _ => fault "cprintf"
            end
          else if c =? 115 then
            match args with
            | AStr s :: args =>
                do* putchars (default [40; 110; 117; 108; 108; 41] (cstr <$> s)) true in
                cprintf fmt args
            | _ => fault "cprintf"
            end
          else if c =? 37 then do* consputc 37 true in cprintf fmt args
          else do* consputc 37 true in do* consputc c true in cprintf fmt args
      end
  end.

Definition sys_clrscr : C_ Z :=
  do* modify (fun s => set_screen (splice 0 (replicate (Z.to_nat (24 * 80)) 0) (cn_crt s)) 0 s) in
  ret 0.
Definition sys_hideinp : C_ Z := do* modify (set_visible 0) in ret 0.
Definition sys_showinp : C_ Z := do* modify (set_visible 1) in ret 0.

(** ** Input *)

Definition in_at (i : input) (k : Z) : Z := default 0 (in_buf i !! Z.to_nat (k mod INPUT_BUF)).
Definition set_e (e : Z) (i : input) : input := Input (in_buf i) (in_r i) (in_w i) e.

(** The editing of the input line: the new state, the characters to echo and
    whether a line is ready. *)
Fixpoint kill_line (fuel : nat) (i : input) : input * list Z :=
  if negb (in_e i =? in_w i) && negb (in_at i (u32 (in_e i - 1)) =? 10) then
    match fuel with
    | O => (i, [])
    | S fuel =>
        let '(i, l) := kill_line fuel (set_e (u32 (in_e i - 1)) i) in
        (i, BACKSPACE :: l)
    end
  else (i, []).

Definition edit_key (i : input) (c : Z) : input * list Z * bool :=
  if c =? C 80 then (i, [], false)
  else if c =? C 85 then let '(i, l) := kill_line (Z.to_nat INPUT_BUF) i in (i, l, false)
  else if (c =? C 72) || (c =? 127) then
    if in_e i =? in_w i then (i, [], false) else (set_e (u32 (in_e i - 1)) i, [BACKSPACE], false)
  else if negb (c =? 0) && (u32 (in_e i - in_r i) <? INPUT_BUF) then
    let c := if c =? 13 then 10 else c in
    let e := u32 (in_e i + 1) in
    let i := Input (<[Z.to_nat (in_e i mod INPUT_BUF) := u8 c]> (in_buf i)) (in_r i) (in_w i) e in
    if (c =? 10) || (c =? C 68) || (e =? u32 (in_r i + INPUT_BUF))
    then (Input (in_buf i) (in_r i) e e, [c], true) else (i, [c], false)
  else (i, [], false).

(** [consoleintr] on the characters [getc] returns.  The listing of processes
    that ^P asks for is left out. *)
Fixpoint consoleintr (cs : list Z) : C_ unit :=
  match cs with
  | [] => ret tt
  | c :: cs =>
      let* s := get in
      let '(i, echo, ready) := edit_key (cn_input s) c in
      do* modify (set_input i) in
      do* putchars echo (truth (cn_visible s)) in
      do* when ready then wake ChInput in
      consoleintr cs
  end.

Definition kbdintr (codes : list Z) : C_ unit :=
  let* s := get in
  let '(shift, cs) := kbd_chars (cn_shift s) codes in
  do* modify (set_shift shift) in
  consoleintr cs.

(** [uartgetc] returns the bytes that have arrived, if there is a UART. *)
Definition uartintr (bytes : list Z) : C_ unit :=
  let* s := get in
  consoleintr (if cn_hasuart s then bytes else []).

(** ** The device *)

(** How a run of [consoleread] up to its return or its next [sleep] ends. *)
Inductive cend := CDone (l : list Z) | CFail | CSleep (l : list Z).

(** [l]: the bytes stored so far; [n]: how many are still wanted. *)
Fixpoint consoleread_pass (n : nat) (i : input) (killed : bool) (l : list Z) : input * cend :=
  match n with
  | O => (i, CDone l)
  | S n =>
      if in_r i =? in_w i then (i, if killed then CFail else CSleep l) else
      let c := in_at i (in_r i) in
      let i' := Input (in_buf i) (u32 (in_r i + 1)) (in_w i) (in_e i) in
      if c =? C 68 then (match l with [] => i' | _ => i end, CDone l)
      else if c =? 10 then (i', CDone (l ++ [c]))
      else consoleread_pass n i' killed (l ++ [c])
  end.

Section device.
Context {B : Type} `{BlockOps B} (p : proc).
Abbreviation F := (M (fs B console)).

Definition on_cons {A} (m : C_ A) : F A :=
  zoom fs_dev (fun d s => Fs (fs_blk s) (fs_sb s) (fs_inode s) d) m.

Definition consoleread (ip : nat) (n : Z) : F (Z * list Z) :=
  do* iunlock p ip in
  let* s := get in
  let '(i, e) := consoleread_pass (Z.to_nat n) (cn_input (fs_dev s)) (p_killed p) [] in
  do* on_cons (modify (set_input i)) in
  match e with
  | CDone l => do* ilock p ip in ret (Z.of_nat (length l), l)
  | CFail => do* ilock p ip in ret (-1, [])
  | CSleep _ => sleep_on ChInput
  end.

Definition consolewrite (ip : nat) (buf : list Z) (n : Z) : F Z :=
  do* iunlock p ip in
  do* on_cons (putchars (take (Z.to_nat n) buf) true) in
  do* ilock p ip in
  ret n.

(** [devsw] after [consoleinit]. *)
Definition console_devsw (major : Z) : devfns (fs B console) :=
  if major =? CONSOLE then DevFns (Some consoleread) (Some consolewrite) else DevFns None None.
End device.
