(* ===== verification/ConsoleSpec.v ===== *)
(** * The console: what it guarantees

    Output never runs off the screen and prints numbers correctly where its
    buffer is large enough; the input ring is a queue of finished lines and a
    line being edited. *)

From S2P Require Import Prelude CString Kbd Console.

(** ** The screen *)

(** The cursor is on the screen and the screen memory covers it. *)
Record screen_ok (s : console) : Prop := {
  so_live : cn_panicked s = false;
  so_crt : (25 * 80 < length (cn_crt s))%nat;
  so_pos : 0 <= cn_pos s < 25 * 80 }.

Lemma length_scroll crt pos :
  (25 * 80 < length crt)%nat -> 0 <= pos <= 24 * 80 -> length (scroll crt pos) = length crt.
Proof.
  intros Hl Hp. unfold scroll.
  assert (H1 : length (slice 80 (23 * 80) crt) = (23 * 80)%nat) by (apply length_slice; lia).
  assert (H2 : length (splice 0 (slice 80 (23 * 80) crt) crt) = length crt)
    by (apply length_splice; rewrite H1; lia).
  rewrite length_splice; [done|]. rewrite H2, length_replicate. lia.
Qed.

Lemma cgaputc_spec c s (Q : unit -> console -> Prop) :
  screen_ok s ->
  (forall crt pos, length crt = length (cn_crt s) -> 0 <= pos <= 24 * 80 ->
     crt !! Z.to_nat pos = Some blank -> Q tt (set_screen crt pos s)) ->
  wp (cgaputc c) Q s.
Proof.
  intros [_ Hl Hp] HQ. unfold cgaputc. wp_step. wp_step.
  set (r := if c =? 10 then _ else _).
  assert (Hr : length r.1 = length (cn_crt s) /\ 0 <= r.2 <= 25 * 80).
  { unfold r. pose proof (Z.mod_pos_bound (cn_pos s) 80 ltac:(lia)).
    pose proof (Z.div_mod (cn_pos s) 80 ltac:(lia)).
    destruct (c =? 10); [cbn; split; [done|]; lia|].
    destruct (c =? BACKSPACE); cbn; [split; [done|]; destruct (Z.ltb_spec 0 (cn_pos s)); lia|].
    rewrite length_insert. split; [done|lia]. }
  destruct r as [crt pos]. cbn [fst snd] in Hr. destruct Hr as [Hlen Hpos].
  rewrite (proj2 (Z.ltb_ge pos 0)), (proj2 (Z.ltb_ge (25 * 80) pos)) by lia. cbn [orb].
  destruct (Z.leb_spec 24 (pos / 80)) as [Hge|Hlt].
  - assert (24 * 80 <= pos) by (pose proof (Z.mul_div_le pos 80 ltac:(lia)); lia).
    wp_step. apply HQ; [by rewrite length_insert, length_scroll by lia|lia|].
    apply list_lookup_insert_eq. rewrite length_scroll; lia.
  - assert (pos < 24 * 80) by (pose proof (Z.mul_succ_div_gt pos 80 ltac:(lia)); lia).
    wp_step. apply HQ; [by rewrite length_insert|lia|]. apply list_lookup_insert_eq. lia.
Qed.

(** ** Output *)

Lemma uartputc_spec c s (Q : unit -> console -> Prop) :
  Q tt (if cn_hasuart s then set_serial (cn_serial s ++ [u8 c]) s else s) -> wp (uartputc c) Q s.
Proof. intros HQ. unfold uartputc. wp_step. wp_step. destruct (cn_hasuart s); by wp_step. Qed.

(** What goes to the serial port for a character. *)
Definition serial_of (c : Z) : list Z := if c =? BACKSPACE then [8; 32; 8] else [u8 c].

(** [s'] is [s] after the characters [l] have been sent, shown on the screen
    or not. *)
Record printed (l : list Z) (show : bool) (s s' : console) : Prop := {
  pr_ok : screen_ok s -> screen_ok s';
  pr_serial : cn_serial s' = cn_serial s ++ (if cn_hasuart s then l ≫= serial_of else []);
  pr_screen : show = false -> cn_crt s' = cn_crt s /\ cn_pos s' = cn_pos s;
  pr_input : cn_input s' = cn_input s;
  pr_same : cn_visible s' = cn_visible s /\ cn_hasuart s' = cn_hasuart s /\
            cn_shift s' = cn_shift s }.

Lemma printed_nil show s : printed [] show s s.
Proof. constructor; try done. cbn. destruct (cn_hasuart s); by rewrite app_nil_r. Qed.

Lemma printed_trans l l' show s s' s'' :
  printed l show s s' -> printed l' show s' s'' -> printed (l ++ l') show s s''.
Proof.
  intros [A1 A2 A3 A4 (A5 & A6 & A7)] [B1 B2 B3 B4 (B5 & B6 & B7)]. constructor.
  - auto.
  - rewrite B2, A2, A6, <- app_assoc. destruct (cn_hasuart s); [by rewrite bind_app|done].
  - intros Hs. destruct (A3 Hs), (B3 Hs). split; congruence.
  - congruence.
  - split_and!; congruence.
Qed.

Lemma consputc_spec c show s (Q : unit -> console -> Prop) :
  screen_ok s -> (forall s', screen_ok s' -> printed [c] show s s' -> Q tt s') -> wp (consputc c show) Q s.
Proof.
  intros Hs HQ. pose proof Hs as [Hl Hc Hp]. unfold consputc. wp_step. wp_step. rewrite Hl. wp_step.
  assert (Hu : wp (if c =? BACKSPACE then do* uartputc 8 in do* uartputc 32 in uartputc 8 else uartputc c)
    (fun _ s' => s' = set_serial (cn_serial s ++ if cn_hasuart s then serial_of c else []) s) s).
  { unfold serial_of. destruct (c =? BACKSPACE); [wp_step|];
      repeat (apply uartputc_spec; try wp_step); destruct (cn_hasuart s) eqn:E; cbn;
      repeat (rewrite ?E; cbn); rewrite ?app_nil_r, <- ?app_assoc; by destruct s. }
  eapply wp_mono; [exact Hu|]. intros [] s1 ->.
  assert (Hser : printed [c] show s (set_serial (cn_serial s ++ if cn_hasuart s then serial_of c else []) s)).
  { constructor; try done. cbn. destruct (cn_hasuart s); by rewrite ?app_nil_r. }
  destruct show; [|wp_step; by apply HQ].
  apply cgaputc_spec; [done|]. intros crt pos Hlen Hpos _. cbn in Hlen. apply HQ.
  - constructor; cbn; [done|lia|lia].
  - constructor; cbn; try done; [|destruct (cn_hasuart s); by rewrite ?app_nil_r].
    intros _. constructor; cbn; [done|lia|lia].
Qed.

Lemma putchars_spec l show s (Q : unit -> console -> Prop) :
  screen_ok s -> (forall s', screen_ok s' -> printed l show s s' -> Q tt s') -> wp (putchars l show) Q s.
Proof.
  revert s. induction l as [|c l IH]; intros s Hs HQ; cbn [putchars foldr].
  - wp_step. apply HQ; [done|apply printed_nil].
  - wp_step. apply consputc_spec; [done|]. intros s1 Hs1 H1. apply IH; [done|].
    intros s2 Hs2 H2. apply HQ; [done|]. by apply (printed_trans [c] l _ _ s1).
Qed.

(** Console output never panics: from a cursor on the screen every
    sequence of characters is written, the cursor stays on the screen and
    every byte is sent to the serial port in order. *)
Theorem console_output_safe l show s :
  screen_ok s -> wp (putchars l show) (fun _ s' => screen_ok s' /\ printed l show s s') s.
Proof. intros Hs. by apply putchars_spec. Qed.

(** ** Numbers *)

Definition digit_char (d : Z) : Z := default 0 (digits !! Z.to_nat d).

(** The digits as numbers. *)
Fixpoint digs (fuel : nat) (x base : Z) : list Z :=
  x mod base ::
  match fuel with
  | O => []
  | S fuel => if x / base =? 0 then [] else digs fuel (x / base) base
  end.

Lemma int_digits_digs fuel x base : int_digits fuel x base = digit_char <$> digs fuel x base.
Proof.
  revert x. induction fuel as [|fuel IH]; intros x; cbn [int_digits digs]; [done|].
  destruct (x / base =? 0); [done|]. rewrite IH. done.
Qed.

(** The value of a list of digits, least significant first. *)
Definition digs_val (base : Z) (l : list Z) : Z := foldr (fun d a => d + base * a) 0 l.

Lemma digs_spec fuel x base :
  2 <= base -> 0 <= x < base ^ (Z.of_nat fuel + 1) ->
  digs_val base (digs fuel x base) = x /\ Forall (fun d => 0 <= d < base) (digs fuel x base).
Proof.
  intros Hb. revert x. induction fuel as [|fuel IH]; intros x Hx; cbn [digs digs_val foldr].
  - change (Z.of_nat 0 + 1) with 1 in Hx. rewrite Z.pow_1_r in Hx. rewrite Z.mod_small by lia.
    split; [lia|]. constructor; [lia|constructor].
  - pose proof (Z.mod_pos_bound x base ltac:(lia)). pose proof (Z.div_mod x base ltac:(lia)) as Hd.
    destruct (Z.eqb_spec (x / base) 0) as [E|E].
    + rewrite E in Hd. cbn [foldr]. split; [lia|]. constructor; [lia|constructor].
    + destruct (IH (x / base)) as [IH1 IH2].
      { split; [apply Z.div_pos; lia|]. apply Z.div_lt_upper_bound; [lia|].
        replace (Z.of_nat (S fuel) + 1) with (Z.succ (Z.of_nat fuel + 1)) in Hx by lia.
        rewrite Z.pow_succ_r in Hx by lia. lia. }
      fold (digs_val base (digs fuel (x / base) base)). rewrite IH1. split; [lia|].
      by constructor.
Qed.

(** A number below [base^k] has at most [k] digits, one of at least [base^k]
    has more. *)
Lemma digs_length_le fuel x base k :
  2 <= base -> 0 <= x < base ^ Z.of_nat (S k) -> (length (digs fuel x base) <= S k)%nat.
Proof.
  intros Hb. revert x k. induction fuel as [|fuel IH]; intros x k Hx; cbn [digs length]; [lia|].
  destruct (Z.eqb_spec (x / base) 0) as [E|E]; cbn [length]; [lia|].
  destruct k as [|k].
  - change (Z.of_nat 1) with 1 in Hx. rewrite Z.pow_1_r in Hx. by rewrite Z.div_small in E.
  - apply le_n_S, IH. split; [apply Z.div_pos; lia|]. apply Z.div_lt_upper_bound; [lia|].
    replace (Z.of_nat (S (S k))) with (Z.succ (Z.of_nat (S k))) in Hx by lia.
    rewrite Z.pow_succ_r in Hx by lia. lia.
Qed.

Lemma digs_length_gt fuel x base k :
  2 <= base -> (k <= fuel)%nat -> base ^ Z.of_nat k <= x -> (k < length (digs fuel x base))%nat.
Proof.
  intros Hb. revert x k. induction fuel as [|fuel IH]; intros x k Hk Hx; cbn [digs length]; [lia|].
  destruct k as [|k]; [lia|].
  replace (Z.of_nat (S k)) with (Z.succ (Z.of_nat k)) in Hx by lia. rewrite Z.pow_succ_r in Hx by lia.
  assert (Hdiv : base ^ Z.of_nat k <= x / base) by (apply Z.div_le_lower_bound; lia).
  pose proof (Z.pow_pos_nonneg base (Z.of_nat k) ltac:(lia) ltac:(lia)).
  rewrite (proj2 (Z.eqb_neq _ 0)) by lia. cbn [length].
  specialize (IH (x / base) k ltac:(lia) Hdiv). lia.
Qed.

Lemma digit_char_dec d : 0 <= d < 10 -> digit_char d = 48 + d.
Proof.
  intros Hd. assert (Hall : Forall (fun d => digit_char d = 48 + d) (seqZ 0 10)).
  { apply (bool_decide_unpack _). vm_compute. exact I. }
  rewrite Forall_forall in Hall. apply Hall, elem_of_seqZ. lia.
Qed.

(** What a reader makes of decimal digits. *)
Definition dec_val (l : list Z) : Z := foldl (fun a c => 10 * a + (c - 48)) 0 l.

Lemma dec_val_rev l :
  Forall (fun d => 0 <= d < 10) l -> dec_val (rev (digit_char <$> l)) = digs_val 10 l.
Proof.
  unfold dec_val. intros Hl. induction Hl as [|d l Hd Hl IH]; [done|].
  cbn [fmap list_fmap rev]. rewrite foldl_app, IH. cbn [foldl digs_val foldr].
  rewrite digit_char_dec by done. unfold digs_val. lia.
Qed.

(** A signed decimal number is printed correctly and within the buffer:
    an optional minus sign and digits whose value is the number's magnitude,
    at most 11 characters for any 32-bit argument. *)
Theorem printint_decimal xx :
  -2 ^ 31 <= xx < 2 ^ 31 ->
  let buf := printint_buf xx 10 true in
  (length buf <= 11)%nat /\ exists ds,
    rev buf = (if xx <? 0 then [45] else []) ++ ds /\
    Forall (fun c => is_digit c = true) ds /\ ds <> [] /\ dec_val ds = Z.abs xx.
Proof.
  intros Hx buf. unfold buf, printint_buf. rewrite int_digits_digs. cbn [andb].
  set (x := if xx <? 0 then u32 (- xx) else u32 xx).
  assert (Hxv : x = Z.abs xx) by (unfold x; destruct (Z.ltb_spec xx 0); rewrite u32_small by lia; lia).
  assert (Hx0 : 0 <= x < 10 ^ Z.of_nat 10) by (rewrite Hxv; cbn; lia).
  destruct (digs_spec 32 x 10 ltac:(lia)) as [Hval Hd].
  { assert (10 ^ Z.of_nat 10 <= 10 ^ (Z.of_nat 32 + 1)) by (apply Z.pow_le_mono_r; lia). lia. }
  pose proof (digs_length_le 32 x 10 9 ltac:(lia) Hx0) as Hlen. split.
  - rewrite length_app, length_fmap. destruct (xx <? 0); cbn [length]; lia.
  - exists (rev (digit_char <$> digs 32 x 10)). split_and!.
    + rewrite rev_app_distr. by destruct (xx <? 0).
    + apply Forall_rev, Forall_fmap. eapply Forall_impl; [exact Hd|]. intros d Hd'. cbn.
      cbv beta in Hd'. rewrite digit_char_dec by done. unfold is_digit. apply andb_true_iff. lia.
    + intros E. apply (f_equal length) in E. by rewrite length_rev, length_fmap in E.
    + rewrite dec_val_rev by done. by rewrite Hval.
Qed.

(** [cprintf] prints %x and %p in base 2, which does not fit its 16-byte
    buffer: every value of at least 2^16 overruns it. *)
Theorem printint_binary_overrun xx s :
  2 ^ 16 <= u32 xx -> printint xx 2 false s = Fault "printint: buf".
Proof.
  intros Hx. unfold printint, printint_buf. rewrite int_digits_digs. cbn [andb].
  rewrite app_nil_r, length_fmap.
  pose proof (digs_length_gt 32 (u32 xx) 2 16 ltac:(lia) ltac:(lia) Hx) as Hl.
  apply Nat.ltb_lt in Hl. by rewrite Hl.
Qed.

(** ** The input line

    The ring holds the characters that can be read, [q], and the line being
    edited, [ed]. *)
Record in_rep (i : input) (q ed : list Z) : Prop := {
  ir_len : length (in_buf i) = Z.to_nat INPUT_BUF;
  ir_size : Z.of_nat (length q) + Z.of_nat (length ed) <= INPUT_BUF;
  ir_r : 0 <= in_r i < 2 ^ 32;
  ir_w : in_w i = u32 (in_r i + Z.of_nat (length q));
  ir_e : in_e i = u32 (in_r i + Z.of_nat (length q) + Z.of_nat (length ed));
  ir_data : forall j c, (q ++ ed) !! j = Some c ->
    in_buf i !! Z.to_nat ((in_r i + Z.of_nat j) mod INPUT_BUF) = Some c;
  ir_line : Forall (fun c => c <> 10) ed }.

Definition no_input : input := Input (replicate (Z.to_nat INPUT_BUF) 0) 0 0 0.

Lemma no_input_rep : in_rep no_input [] [].
Proof. by constructor. Qed.

(** What a key does to the line. *)
Definition abs_key (q ed : list Z) (c : Z) : list Z * list Z :=
  if c =? C 80 then (q, ed)
  else if c =? C 85 then (q, [])
  else if (c =? C 72) || (c =? 127) then (q, removelast ed)
  else if negb (c =? 0) && (Z.of_nat (length q) + Z.of_nat (length ed) <? INPUT_BUF) then
    let c := if c =? 13 then 10 else c in
    if (c =? 10) || (c =? C 68) ||
       (Z.of_nat (length q) + Z.of_nat (length ed) + 1 =? INPUT_BUF)
    then (q ++ ed ++ [c], []) else (q, ed ++ [c])
  else (q, ed).

Lemma u32_mod_input x : u32 x mod INPUT_BUF = x mod INPUT_BUF.
Proof. unfold u32, INPUT_BUF. apply Z.mod_mod_divide. by exists 33554432. Qed.

Lemma u32_sub_u32 a b : u32 (u32 a - b) = u32 (a - b).
Proof. unfold u32. by rewrite Zminus_mod_idemp_l. Qed.
Lemma u32_add_u32 a b : u32 (u32 a + b) = u32 (a + b).
Proof. unfold u32. by rewrite Zplus_mod_idemp_l. Qed.

(** Distances on the ring. *)
Lemma u32_inj a b : 0 <= a - b < 2 ^ 32 -> u32 a = u32 b -> a = b.
Proof.
  unfold u32. intros H E. assert (E' : (a - b) mod 2 ^ 32 = 0).
  { rewrite Zminus_mod, E, Z.sub_diag. done. }
  rewrite Z.mod_small in E' by done. lia.
Qed.

Section ring.
Context (i : input) (q ed : list Z) (Hr : in_rep i q ed).

Lemma in_at_spec j c : (q ++ ed) !! j = Some c -> in_at i (u32 (in_r i + Z.of_nat j)) = c.
Proof. intros Hj. unfold in_at. rewrite u32_mod_input. by rewrite (ir_data _ _ _ Hr j c Hj). Qed.

Lemma in_e_w : (in_e i =? in_w i) = bool_decide (ed = []).
Proof.
  destruct Hr as [_ Hs _ Hw He _ _]. unfold INPUT_BUF in Hs. rewrite Hw, He.
  destruct ed as [|c l].
  - cbn. rewrite Z.add_0_r. apply Z.eqb_refl.
  - rewrite bool_decide_eq_false_2 by done. apply Z.eqb_neq. intros E%u32_inj; cbn in *; lia.
Qed.

Lemma in_r_w : (in_r i =? in_w i) = bool_decide (q = []).
Proof.
  destruct Hr as [_ Hs H0 Hw _ _ _]. unfold INPUT_BUF in Hs. rewrite Hw.
  destruct q as [|c l].
  - cbn. rewrite Z.add_0_r, u32_small by done. apply Z.eqb_refl.
  - rewrite bool_decide_eq_false_2 by done. apply Z.eqb_neq. intros E.
    rewrite <- (u32_small (in_r i)) in E at 1 by done. symmetry in E. apply u32_inj in E; cbn in *; lia.
Qed.

Lemma in_used : u32 (in_e i - in_r i) = Z.of_nat (length q) + Z.of_nat (length ed).
Proof.
  destruct Hr as [_ Hs H0 _ He _ _]. unfold INPUT_BUF in Hs. rewrite He, u32_sub_u32.
  rewrite u32_small; lia.
Qed.
End ring.

Lemma in_rep_back i q ed c :
  in_rep i q (ed ++ [c]) -> in_rep (set_e (u32 (in_e i - 1)) i) q ed /\
  in_at i (u32 (in_e i - 1)) = c /\ c <> 10.
Proof.
  intros Hr. pose proof Hr as [H1 H2 H3 H4 H5 H6 H7]. rewrite length_app in H2, H5. cbn [length] in H2, H5.
  assert (He : u32 (in_e i - 1) = u32 (in_r i + Z.of_nat (length q) + Z.of_nat (length ed))).
  { rewrite H5, u32_sub_u32. f_equal. lia. }
  apply Forall_app in H7 as [H7 Hc%Forall_inv]. split; [|split; [|done]].
  - constructor; cbn [set_e in_buf in_r in_w in_e]; try done; [lia|].
    intros j x Hj. apply H6. rewrite app_assoc. by apply lookup_app_l_Some.
  - rewrite He. replace (in_r i + Z.of_nat (length q) + Z.of_nat (length ed))
      with (in_r i + Z.of_nat (length (q ++ ed))) by (rewrite length_app; lia).
    apply (in_at_spec i q (ed ++ [c]) Hr). by rewrite app_assoc, list_lookup_middle.
Qed.

Lemma kill_line_spec fuel i q ed :
  in_rep i q ed -> (length ed <= fuel)%nat ->
  in_rep (fst (kill_line fuel i)) q [] /\ snd (kill_line fuel i) = replicate (length ed) BACKSPACE.
Proof.
  revert i fuel. induction ed as [|c ed IH] using rev_ind; intros i fuel Hr Hf.
  - pose proof (in_e_w _ _ _ Hr) as E. destruct fuel; cbn [kill_line]; rewrite E; done.
  - rewrite length_app in Hf. cbn [length] in Hf. destruct fuel as [|fuel]; [lia|].
    destruct (in_rep_back _ _ _ _ Hr) as (Hb & Hat & Hc). cbn [kill_line].
    rewrite (in_e_w _ _ _ Hr), Hat. rewrite bool_decide_eq_false_2 by (by destruct ed).
    rewrite (proj2 (Z.eqb_neq c 10)) by done. cbn [negb andb].
    destruct (IH _ fuel Hb ltac:(lia)) as [IH1 IH2].
    destruct (kill_line fuel _) as [i' l]. cbn [fst snd] in *. split; [done|]. subst l.
    rewrite length_app, Nat.add_comm. done.
Qed.

(** Storing one more character, as part of the line or with the line. *)
Definition in_store (i : input) (c : Z) : list Z :=
  <[Z.to_nat (in_e i mod INPUT_BUF) := u8 c]> (in_buf i).

Lemma in_store_data i q ed c :
  in_rep i q ed -> Z.of_nat (length q) + Z.of_nat (length ed) < INPUT_BUF -> 0 <= c < 256 ->
  forall j x, (q ++ ed ++ [c]) !! j = Some x ->
    in_store i c !! Z.to_nat ((in_r i + Z.of_nat j) mod INPUT_BUF) = Some x.
Proof.
  intros Hr Hs Hc j x Hj. destruct Hr as [H1 _ _ _ H5 H6 _].
  assert (Hidx : in_e i mod INPUT_BUF = (in_r i + Z.of_nat (length (q ++ ed))) mod INPUT_BUF).
  { rewrite H5, u32_mod_input, length_app. f_equal. lia. }
  unfold in_store. rewrite app_assoc in Hj. apply lookup_app_Some in Hj as [Hj|[Hge Hj]].
  - assert (Hlt : (j < length (q ++ ed))%nat) by (by eapply lookup_lt_Some).
    rewrite list_lookup_insert_ne; [by apply H6|]. rewrite Hidx. rewrite length_app in *.
    unfold INPUT_BUF in *. intros E%Z2Nat.inj; [|apply Z.mod_pos_bound; lia..].
    pose proof (Z.div_mod (in_r i + Z.of_nat j) 128 ltac:(lia)).
    pose proof (Z.div_mod (in_r i + Z.of_nat (length q + length ed)) 128 ltac:(lia)). lia.
  - apply list_lookup_singleton_Some in Hj as [Hz <-].
    assert (j = length (q ++ ed)) as -> by lia. rewrite <- Hidx. unfold u8.
    rewrite (Z.mod_small c) by lia. apply list_lookup_insert_eq. rewrite H1.
    pose proof (Z.mod_pos_bound (in_e i) INPUT_BUF ltac:(done)). lia.
Qed.

Lemma in_rep_push i q ed c :
  in_rep i q ed -> Z.of_nat (length q) + Z.of_nat (length ed) < INPUT_BUF -> 0 <= c < 256 -> c <> 10 ->
  in_rep (Input (in_store i c) (in_r i) (in_w i) (u32 (in_e i + 1))) q (ed ++ [c]).
Proof.
  intros Hr Hs Hc Hn. pose proof (in_store_data _ _ _ _ Hr Hs Hc). destruct Hr as [H1 H2 H3 H4 H5 _ H7].
  constructor; cbn [in_buf in_r in_w in_e]; try done.
  - unfold in_store. by rewrite length_insert.
  - rewrite length_app. cbn. lia.
  - rewrite H5, u32_add_u32, length_app. f_equal. cbn. lia.
  - apply Forall_app. split; [done|]. by constructor.
Qed.

Lemma in_rep_commit i q ed c :
  in_rep i q ed -> Z.of_nat (length q) + Z.of_nat (length ed) < INPUT_BUF -> 0 <= c < 256 ->
  in_rep (Input (in_store i c) (in_r i) (u32 (in_e i + 1)) (u32 (in_e i + 1))) (q ++ ed ++ [c]) [].
Proof.
  intros Hr Hs Hc. pose proof (in_store_data _ _ _ _ Hr Hs Hc). destruct Hr as [H1 H2 H3 H4 H5 _ H7].
  constructor; cbn [in_buf in_r in_w in_e]; rewrite ?app_nil_r; try done.
  - unfold in_store. by rewrite length_insert.
  - rewrite !length_app. cbn. lia.
  - rewrite H5, u32_add_u32, !length_app. f_equal. cbn. lia.
  - rewrite H5, u32_add_u32, !length_app. f_equal. cbn. lia.
Qed.

Lemma console_edit_step i q ed c :
  in_rep i q ed -> 0 <= c < 256 ->
  let '(i', _, ready) := edit_key i c in
  let '(q', ed') := abs_key q ed c in
  in_rep i' q' ed' /\ (ready = true <-> q' <> q).
Proof.
  intros Hr Hc. unfold edit_key, abs_key.
  destruct (c =? C 80); [done|]. destruct (c =? C 85).
  { destruct (kill_line_spec (Z.to_nat INPUT_BUF) i q ed Hr) as [Hk _].
    { pose proof (ir_size _ _ _ Hr). lia. }
    by destruct (kill_line _ i) as [i' l]. }
  destruct ((c =? C 72) || (c =? 127)).
  { rewrite (in_e_w _ _ _ Hr). case_bool_decide as E; [by subst ed|].
    destruct ed as [|x ed _] using rev_ind; [done|]. rewrite removelast_last.
    by destruct (in_rep_back _ _ _ _ Hr) as [? _]. }
  rewrite (in_used _ _ _ Hr). destruct (negb (c =? 0) && _) eqn:E; [|done].
  apply andb_true_iff in E as [_ E%Z.ltb_lt].
  set (c' := if c =? 13 then 10 else c).
  assert (Hc' : 0 <= c' < 256) by (unfold c'; destruct (c =? 13); lia).
  cbn [in_r in_e in_buf in_w]. fold (in_store i c').
  assert (Hfull : (u32 (in_e i + 1) =? u32 (in_r i + INPUT_BUF)) =
                  (Z.of_nat (length q) + Z.of_nat (length ed) + 1 =? INPUT_BUF)).
  { rewrite (ir_e _ _ _ Hr), u32_add_u32. unfold INPUT_BUF in *. apply eq_true_iff_eq. rewrite !Z.eqb_eq.
    split; [|intros Heq; f_equal; lia]. intros Heq. symmetry in Heq. apply u32_inj in Heq; lia. }
  rewrite Hfull. destruct (((c' =? 10) || (c' =? C 68)) || _) eqn:Ec.
  - split; [by apply in_rep_commit|]. split; [|done]. intros _ Heq.
    apply (f_equal length) in Heq. rewrite !length_app in Heq. cbn in Heq. lia.
  - split; [|done]. apply in_rep_push; try done.
    destruct (Z.eqb_spec c' 10); [done|lia].
Qed.

(** The console's input editing refines a pair of lists, the characters
    ready to be read and the line being edited: Backspace drops the last
    character of the line, ^U the whole line, newline, ^D or a full buffer
    hand the line over, and every other key is appended while there is
    room. *)
Theorem console_edit_refines i q ed c :
  in_rep i q ed -> 0 <= c < 256 ->
  let '(i', _, ready) := edit_key i c in
  let '(q', ed') := abs_key q ed c in
  in_rep i' q' ed' /\ (ready = true <-> q' <> q).
Proof. apply console_edit_step. Qed.

(** Reading from the characters that are ready. *)
Fixpoint abs_read (n : nat) (q : list Z) (killed : bool) (l : list Z) : list Z * cend :=
  match n, q with
  | O, _ => (q, CDone l)
  | S _, [] => ([], if killed then CFail else CSleep l)
  | S n, c :: q' =>
      if c =? C 68 then (match l with [] => q' | _ => q end, CDone l)
      else if c =? 10 then (q', CDone (l ++ [c]))
      else abs_read n q' killed (l ++ [c])
  end.

Lemma in_rep_pop i c q ed :
  in_rep i (c :: q) ed ->
  in_at i (in_r i) = c /\ in_rep (Input (in_buf i) (u32 (in_r i + 1)) (in_w i) (in_e i)) q ed.
Proof.
  intros Hr. pose proof Hr as [H1 H2 H3 H4 H5 H6 H7]. cbn [length] in *. split.
  - pose proof (in_at_spec _ _ _ Hr 0 c eq_refl) as E. rewrite Z.add_0_r, u32_small in E; done.
  - constructor; cbn [in_buf in_r in_w in_e]; try done; [lia|apply u32_range|..].
    + rewrite H4, u32_add_u32. f_equal. lia.
    + rewrite H5, <- (Z.add_assoc (u32 _)), u32_add_u32. f_equal. lia.
    + intros j x Hj. specialize (H6 (S j) x Hj). rewrite <- Z.add_mod_idemp_l by done.
      rewrite u32_mod_input, Z.add_mod_idemp_l by done.
      by replace (in_r i + 1 + Z.of_nat j) with (in_r i + Z.of_nat (S j)) by lia.
Qed.

Lemma console_read_step n i q ed killed l :
  in_rep i q ed ->
  let '(i', e) := consoleread_pass n i killed l in
  let '(q', e') := abs_read n q killed l in
  e = e' /\ in_rep i' q' ed.
Proof.
  revert i q l. induction n as [|n IH]; intros i q l Hr; cbn [consoleread_pass abs_read]; [done|].
  rewrite (in_r_w _ _ _ Hr). destruct q as [|c q].
  - rewrite bool_decide_eq_true_2 by done. by destruct killed.
  - rewrite bool_decide_eq_false_2 by done. destruct (in_rep_pop _ _ _ _ Hr) as [-> Hp].
    destruct (c =? C 68); [by destruct l|]. destruct (c =? 10); [done|]. by apply IH.
Qed.

(** A run of [consoleread] refines reading from the list of ready
    characters: it stops after a newline, before a ^D unless it comes first,
    when the caller's buffer is full, or to sleep when nothing is ready. *)
Theorem console_read_refines n i q ed killed l :
  in_rep i q ed ->
  let '(i', e) := consoleread_pass n i killed l in
  let '(q', e') := abs_read n q killed l in
  e = e' /\ in_rep i' q' ed.
Proof. apply console_read_step. Qed.

(** ** Lines *)

Definition edit_keys (i : input) (cs : list Z) : input :=
  foldl (fun i c => fst (fst (edit_key i c))) i cs.

Definition ordinary (c : Z) : Prop := 32 <= c < 127.

(** An ordinary character with room in the line. *)
Lemma abs_key_ordinary q ed c :
  ordinary c -> Z.of_nat (length q) + Z.of_nat (length ed) + 1 < INPUT_BUF ->
  abs_key q ed c = (q, ed ++ [c]).
Proof.
  unfold ordinary. intros Hc Hl. unfold abs_key, C.
  repeat match goal with |- context [ ?a =? ?b ] =>
    first [rewrite (proj2 (Z.eqb_neq a b)) by lia] end.
  rewrite (proj2 (Z.ltb_lt _ _)) by lia. cbn [negb andb orb].
  repeat match goal with |- context [ ?a =? ?b ] => rewrite (proj2 (Z.eqb_neq a b)) by lia end.
  done.
Qed.

Lemma edit_keys_ordinary text i ed :
  in_rep i [] ed -> Forall ordinary text ->
  Z.of_nat (length ed) + Z.of_nat (length text) < INPUT_BUF ->
  in_rep (edit_keys i text) [] (ed ++ text).
Proof.
  revert i ed. induction text as [|c text IH]; intros i ed Hr Ht Hl; [by rewrite app_nil_r|].
  apply Forall_cons in Ht as [Hc Ht]. cbn [length] in Hl. cbn [edit_keys foldl].
  pose proof (console_edit_step i [] ed c Hr ltac:(unfold ordinary in Hc; lia)) as Hs.
  destruct (edit_key i c) as [[i' echo] ready]. rewrite abs_key_ordinary in Hs by (done || cbn; lia).
  destruct Hs as [Hs _]. replace (ed ++ c :: text) with ((ed ++ [c]) ++ text) by (by rewrite <- app_assoc).
  apply IH; [done|done|]. rewrite length_app. cbn. lia.
Qed.

Lemma abs_read_line text n killed l q :
  Forall ordinary text -> (length text < n)%nat ->
  abs_read n (text ++ 10 :: q) killed l = (q, CDone (l ++ text ++ [10])).
Proof.
  revert n l. induction text as [|c text IH]; intros n l Ht Hn; destruct n as [|n]; cbn [length] in Hn; [lia| |lia|].
  - done.
  - apply Forall_cons in Ht as [Hc Ht]. unfold ordinary in Hc. cbn [app abs_read].
    unfold C. rewrite (proj2 (Z.eqb_neq c _)) by lia. rewrite (proj2 (Z.eqb_neq c 10)) by lia.
    rewrite IH by (done || lia). by rewrite <- app_assoc.
Qed.

(** A line typed at the console is what the next read returns: the text
    and a newline, and nothing is left over. *)
Theorem console_line_roundtrip i text n killed :
  in_rep i [] [] -> Forall ordinary text -> Z.of_nat (length text) < INPUT_BUF ->
  (length text < n)%nat ->
  let '(i', e) := consoleread_pass n (edit_keys i (text ++ [13])) killed [] in
  e = CDone (text ++ [10]) /\ in_rep i' [] [].
Proof.
  intros Hr Ht Hl Hn. pose proof (edit_keys_ordinary text i [] Hr Ht Hl) as H1. cbn [app] in H1.
  assert (H2 : in_rep (edit_keys i (text ++ [13])) (text ++ [10]) []).
  { unfold edit_keys. rewrite foldl_app. fold (edit_keys i text). cbn [foldl].
    pose proof (console_edit_step _ [] text 13 H1 ltac:(lia)) as Hs.
    destruct (edit_key (edit_keys i text) 13) as [[i' echo] ready].
    unfold abs_key in Hs. cbn [length] in Hs. rewrite (proj2 (Z.ltb_lt _ _)) in Hs by (cbn; lia).
    by destruct Hs as [Hs _]. }
  pose proof (console_read_step n _ _ _ killed [] H2) as Hs.
  destruct (consoleread_pass n _ killed []) as [i' e].
  rewrite (abs_read_line text n killed [] []) in Hs by done. done.
Qed.

(** ** Hidden input *)

Lemma edit_key_ordinary i q ed c :
  in_rep i q ed -> ordinary c -> Z.of_nat (length q) + Z.of_nat (length ed) + 1 < INPUT_BUF ->
  exists i', edit_key i c = (i', [c], false) /\ in_rep i' q (ed ++ [c]).
Proof.
  intros Hr Hc Hl. pose proof (console_edit_step i q ed c Hr ltac:(unfold ordinary in Hc; lia)) as Hs.
  rewrite abs_key_ordinary in Hs by done. pose proof (in_used _ _ _ Hr) as Hu.
  exists (fst (fst (edit_key i c))). destruct (edit_key i c) as [[i' echo] ready] eqn:E.
  destruct Hs as [Hs Hready]. cbn [fst]. split; [|done]. unfold edit_key, C in E. rewrite Hu in E.
  unfold ordinary in Hc.
  repeat match type of E with context [ c =? ?b ] => rewrite (proj2 (Z.eqb_neq c b)) in E by lia end.
  rewrite (proj2 (Z.ltb_lt _ _)) in E by lia. cbn [negb andb orb] in E.
  destruct (u32 (in_e i + 1) =? _); injection E as <- <- <-; [|done].
  destruct (Hready) as [Hq _]. by specialize (Hq eq_refl).
Qed.

(** With the input hidden, as for a password, typed characters do not
    appear on the screen but are still sent, in clear, to the serial port. *)
Theorem hidden_input_on_serial s ed text :
  screen_ok s -> cn_visible s = 0 -> cn_hasuart s = true -> in_rep (cn_input s) [] ed ->
  Forall ordinary text -> Z.of_nat (length ed) + Z.of_nat (length text) < INPUT_BUF ->
  wp (consoleintr text) (fun _ s' =>
    cn_crt s' = cn_crt s /\ cn_pos s' = cn_pos s /\ cn_serial s' = cn_serial s ++ text /\
    in_rep (cn_input s') [] (ed ++ text)) s.
Proof.
  revert s ed. induction text as [|c text IH]; intros s ed Hs Hv Hu Hr Ht Hl; cbn [consoleintr].
  { wp_step. by rewrite !app_nil_r. }
  apply Forall_cons in Ht as [Hc Ht]. cbn [length] in Hl. wp_step. wp_step.
  destruct (edit_key_ordinary _ _ _ c Hr Hc) as (i' & -> & Hr'); [cbn; lia|].
  wp_step. wp_step. wp_step. rewrite Hv. cbn [truth Z.eqb negb].
  apply putchars_spec; [by destruct Hs; constructor|].
  intros s1 Hs1 [_ P2 P3 P4 (P5 & P6 & P7)]. destruct (P3 eq_refl) as [P8 P9]. cbn in P2, P4, P5, P6, P8, P9.
  wp_step. wp_step. eapply wp_mono; [apply (IH s1 (ed ++ [c])); try done|].
  - congruence.
  - congruence.
  - by rewrite P4.
  - rewrite length_app. cbn. lia.
  - intros [] s2 (Q1 & Q2 & Q3 & Q4). rewrite Q1, Q2, Q3, P2, P8, P9, Hu. cbn.
    unfold serial_of, ordinary, BACKSPACE in *. rewrite (proj2 (Z.eqb_neq c _)) by lia.
    unfold u8. rewrite Z.mod_small by lia. rewrite <- app_assoc in Q4.
    by rewrite <- app_assoc.
Qed.
