(* ===== verification/FsAlloc.v ===== *)
(** * The block allocator

    [balloc], [bfree] and [bzero] of [kernel/fs.c]: the free map records exactly
    the allocated blocks, a new block is free, zeroed and marked, and freeing
    undoes allocating. *)

From S2P Require Import Prelude SleepLock Bio Layout Log BlockLayer CString ProcDefs Fs.

(** ** The free map *)

(** Bit [j] of a bitmap block. *)
Definition bitb (d : list Z) (j : nat) : bool :=
  Z.testbit (byte_at d (j / 8)) (Z.of_nat (j mod 8)).

Definition set_bit (j : nat) (d : list Z) : list Z :=
  <[(j / 8)%nat := Z.lor (byte_at d (j / 8)) (2 ^ Z.of_nat (j mod 8))]> d.
Definition clear_bit (j : nat) (d : list Z) : list Z :=
  <[(j / 8)%nat := Z.land (byte_at d (j / 8)) (Z.lnot (2 ^ Z.of_nat (j mod 8)))]> d.

Lemma bit_index i j : (i / 8 = j / 8)%nat -> (i mod 8 = j mod 8)%nat -> i = j.
Proof.
  intros H1 H2. rewrite (Nat.div_mod_eq i 8), (Nat.div_mod_eq j 8). congruence.
Qed.

Lemma byte_at_insert d k x i :
  (k < length d)%nat -> byte_at (<[k := x]> d) i = if decide (i = k) then x else byte_at d i.
Proof.
  intros Hk. unfold byte_at. case_decide as E.
  - subst. by rewrite list_lookup_insert_eq.
  - by rewrite list_lookup_insert_ne.
Qed.

Lemma bitb_set d j i :
  (j / 8 < length d)%nat -> bitb (set_bit j d) i = (if decide (i = j) then true else bitb d i).
Proof.
  intros Hj. unfold bitb, set_bit. rewrite byte_at_insert by done.
  case_decide as E8; case_decide as E; subst; try done.
  - rewrite Z.lor_spec, Z.pow2_bits_true by lia. apply orb_true_r.
  - rewrite Z.lor_spec, Z.pow2_bits_false, orb_false_r, E8; [done|].
    intros Em. apply E, bit_index; [done|lia].
Qed.

Lemma bitb_clear d j i :
  (j / 8 < length d)%nat -> bitb (clear_bit j d) i = (if decide (i = j) then false else bitb d i).
Proof.
  intros Hj. unfold bitb, clear_bit. rewrite byte_at_insert by done.
  case_decide as E8; case_decide as E; subst; try done.
  - rewrite Z.land_spec, Z.lnot_spec, Z.pow2_bits_true by lia. apply andb_false_r.
  - rewrite Z.land_spec, Z.lnot_spec, Z.pow2_bits_false, E8 by (lia || (intros Em; apply E, bit_index; [done|lia])).
    apply andb_true_r.
Qed.

Lemma bitb_test d j : (Z.land (byte_at d (j / 8)) (2 ^ Z.of_nat (j mod 8)) =? 0) = negb (bitb d j).
Proof. apply land_pow2_testbit. lia. Qed.

Lemma byte_at_ok d i : bytes_ok d -> byte_ok (byte_at d i).
Proof.
  intros Hd. unfold byte_at. destruct (d !! i) as [x|] eqn:E; simpl; [|lia].
  by eapply Forall_lookup_1 in Hd.
Qed.

Lemma bits_byte x : (forall i, 8 <= i -> Z.testbit x i = false) -> 0 <= x -> byte_ok x.
Proof.
  intros Hb Hx. split; [done|]. destruct (decide (x = 0)) as [->|]; [done|].
  apply Z.log2_lt_pow2 with (b := 8); [lia|]. destruct (decide (Z.log2 x < 8)) as [|Hl]; [done|].
  exfalso. assert (Z.testbit x (Z.log2 x) = true) by (apply Z.bit_log2; lia).
  rewrite Hb in *; [done|lia].
Qed.

Lemma byte_bits_high x i : byte_ok x -> 8 <= i -> Z.testbit x i = false.
Proof.
  intros Hx Hi. destruct (decide (x = 0)) as [->|]; [apply Z.bits_0|].
  apply Z.bits_above_log2; [lia|]. assert (Z.log2 x < 8) by (apply Z.log2_lt_pow2; lia). lia.
Qed.

Lemma pow2_byte_bits (k : nat) i : (k < 8)%nat -> 8 <= i -> Z.testbit (2 ^ Z.of_nat k) i = false.
Proof. intros. apply Z.pow2_bits_false. lia. Qed.

Lemma set_bit_ok j d : block_ok d -> block_ok (set_bit j d).
Proof.
  intros [Hl Hb]. split; [unfold set_bit; by rewrite length_insert|].
  apply Forall_insert; [done|]. pose proof (byte_at_ok d (j / 8) Hb) as Hx.
  apply bits_byte; [|apply Z.lor_nonneg; split; [lia|by apply Z.pow_nonneg]].
  intros i Hi. rewrite Z.lor_spec, byte_bits_high, pow2_byte_bits; try done.
  by apply Nat.mod_upper_bound.
Qed.

Lemma clear_bit_ok j d : block_ok d -> block_ok (clear_bit j d).
Proof.
  intros [Hl Hb]. split; [unfold clear_bit; by rewrite length_insert|].
  apply Forall_insert; [done|]. pose proof (byte_at_ok d (j / 8) Hb) as Hx.
  apply bits_byte; [|apply Z.land_nonneg; left; lia].
  intros i Hi. by rewrite Z.land_spec, byte_bits_high.
Qed.

(** Specification of the search for a clear bit. *)
Lemma free_bit_spec k d b size bi :
  match free_bit k d b size bi with
  | Some j => (bi <= j < bi + k)%nat /\ b + Z.of_nat j < size /\ bitb d j = false /\
              forall i, (bi <= i < j)%nat -> bitb d i = true
  | None => forall i, (bi <= i < bi + k)%nat -> b + Z.of_nat i < size -> bitb d i = true
  end.
Proof.
  revert bi. induction k as [|k IH]; intros bi; cbn [free_bit]; [intros; lia|].
  destruct (Z.ltb_spec (b + Z.of_nat bi) size); [|intros; lia].
  rewrite bitb_test. destruct (bitb d bi) eqn:E; cbn [negb]; [|split_and!; try done; intros; lia].
  specialize (IH (S bi)). destruct (free_bit k d b size (S bi)) as [j|].
  - destruct IH as (H1 & H2 & H3 & H4). split_and!; try done; [lia|lia|].
    intros i Hi. destruct (decide (i = bi)) as [->|]; [done|]. apply H4. lia.
  - intros i Hi Hs. destruct (decide (i = bi)) as [->|]; [done|]. apply IH; [lia|done].
Qed.

(** ** Rules for block operations on the file system state *)

Section rules.
Context {B D : Type} `{BlockLayer B} (p : proc).
Implicit Types (s : fs B D) (v : lview).

Definition fsrep (s : fs B D) (v : lview) : Prop := lrep (p_pid p) (fs_blk s) v.

Lemma fsrep_block_ok s v x d : fsrep s v -> lv_blocks v !! x = Some d -> block_ok d.
Proof. apply lrep_block_ok. Qed.

Lemma wp_on_blk {A} (m : M B A) (R : A -> B -> Prop) (Q : A -> fs B D -> Prop) s :
  wp m R (fs_blk s) -> (forall a b, R a b -> Q a (set_blk b s)) -> wp (on_blk m) Q s.
Proof. intros Hm HQ. apply wp_zoom. by eapply wp_mono. Qed.

Lemma fwp_bread s v x d (Q : nat -> fs B D -> Prop) :
  fsrep s v -> lv_blocks v !! x = Some d -> lv_held v !! x = None ->
  (size (lv_held v) <= 1)%nat ->
  (forall i b, fsrep (set_blk b s) (l_take x i v) -> Q i (set_blk b s)) ->
  wp (fbread p ROOTDEV x) Q s.
Proof.
  intros Hs Hx Hn Hsz HQ. eapply wp_on_blk; [by apply bread_law|]. intros i b Hb. by apply HQ.
Qed.

Lemma fwp_bdata s v x i d (Q : list Z -> fs B D -> Prop) :
  fsrep s (l_take x i v) -> lv_blocks v !! x = Some d -> Q d s -> wp (fbdata i) Q s.
Proof.
  intros Hs Hx HQ. eapply wp_on_blk; [eapply bdata_law; [done|apply lookup_insert_eq]|].
  simpl. intros d' b [-> Hd]. replace d' with d by congruence. by destruct s.
Qed.

Lemma fwp_brelse s v x i (Q : unit -> fs B D -> Prop) :
  fsrep s (l_take x i v) -> lv_held v !! x = None -> lv_pend v = ∅ ->
  (forall b, fsrep (set_blk b s) v -> Q tt (set_blk b s)) -> wp (fbrelse p i) Q s.
Proof.
  intros Hs Hn Hp HQ. eapply wp_on_blk; [by apply (wp_brelse _ _ v x _ (fun _ b => lrep (p_pid p) b v))|].
  intros [] b Hb. by apply HQ.
Qed.

(** Overwrite a held block and log it. *)
Lemma fwp_put_log s v x i d {A} (k : unit -> M (fs B D) A) Q :
  fsrep s (l_take x i v) -> lv_pend v = ∅ -> block_ok d ->
  can_log v x ->
  (forall b, fsrep (set_blk b s) (l_take x i (l_upd x d v)) -> wp (k tt) Q (set_blk b s)) ->
  wp (do* fbput i d in let* u := flog_write i in k u) Q s.
Proof.
  intros Hs Hp Hd Hr HQ. apply wp_bind. eapply wp_on_blk.
  { eapply (bput_law (p_pid p)); [exact Hs|apply lookup_insert_eq|exact Hd]. }
  intros [] b1 H1. apply wp_bind. eapply wp_on_blk.
  { eapply (log_write_law (p_pid p) b1); [exact H1|apply lookup_insert_eq|done]. }
  intros [] b2 H2. apply (HQ b2). unfold fsrep. simpl.
  replace (l_take x i (l_upd x d v)) with (l_mark x (l_put x d (l_take x i v))); [done|].
  unfold l_upd, l_mark, l_put, l_take. simpl. f_equal. rewrite Hp. set_solver.
Qed.

(** Overwrite a held block, log it and release it. *)
Lemma fwp_update s v x i d {A} (k : unit -> M (fs B D) A) Q :
  fsrep s (l_take x i v) -> lv_held v !! x = None -> lv_pend v = ∅ -> block_ok d ->
  can_log v x ->
  (forall b, fsrep (set_blk b s) (l_upd x d v) -> wp (k tt) Q (set_blk b s)) ->
  wp (do* fbput i d in do* flog_write i in let* u := fbrelse p i in k u) Q s.
Proof.
  intros Hs Hn Hp Hd Hr HQ. eapply fwp_put_log; [done..|]. intros b1 H1.
  apply wp_bind. eapply fwp_brelse; [done..|]. intros b2 H2. by apply (HQ b2).
Qed.

Lemma fwp_update_last s v x i d (Q : unit -> fs B D -> Prop) :
  fsrep s (l_take x i v) -> lv_held v !! x = None -> lv_pend v = ∅ -> block_ok d ->
  can_log v x ->
  (forall b, fsrep (set_blk b s) (l_upd x d v) -> Q tt (set_blk b s)) ->
  wp (do* fbput i d in do* flog_write i in fbrelse p i) Q s.
Proof.
  intros Hs Hn Hp Hd Hr HQ. eapply fwp_put_log; [done..|]. intros b1 H1.
  eapply fwp_brelse; [done..|]. intros b2 H2. by apply (HQ b2).
Qed.
End rules.

(** ** The allocator's state *)

(** The blocks of the free map. *)
Definition bmset (sb : superblock) : gset Z :=
  list_to_set (seqZ (sb_bmapstart sb) (sb_size sb / BPB + 1)).

(** The inode blocks. *)
Definition iset (sb : superblock) : gset Z :=
  list_to_set (seqZ (sb_inodestart sb) (sb_ninodes sb / IPB + 1)).

Definition bit_no (b : Z) : nat := Z.to_nat (b mod BPB).

(** Is block [b] in use, according to the free map? *)
Definition used (sb : superblock) (bl : gmap Z (list Z)) (b : Z) : bool :=
  match bl !! BBLOCK b sb with
  | Some d => bitb d (bit_no b)
  | None => true
  end.

Record alloc_wf (sb : superblock) (bl : gmap Z (list Z)) : Prop := {
  aw_size : 0 < sb_size sb < 2 ^ 31;
  aw_start : 0 <= sb_bmapstart sb /\ sb_bmapstart sb + sb_size sb < 2 ^ 31;
  aw_inodes : 0 <= sb_inodestart sb /\ 0 < sb_ninodes sb /\
              sb_inodestart sb + sb_ninodes sb < 2 ^ 31;
  aw_bm : forall x, x ∈ bmset sb -> is_Some (bl !! x);
  aw_ib : forall x, x ∈ iset sb -> is_Some (bl !! x) /\ (x ∉ bmset sb);
  aw_ok : forall x d, bl !! x = Some d -> block_ok d;
  aw_free : forall b, 0 <= b < sb_size sb -> used sb bl b = false ->
              is_Some (bl !! b) /\ (b ∉ bmset sb) /\ (b ∉ iset sb) /\ 0 < b }.

(** The process holds at most one buffer, of a block in use. *)
Definition alloc_ready (sb : superblock) (v : lview) : Prop :=
  lv_pend v = ∅ /\ (size (lv_held v) <= 1)%nat /\
  forall x i, lv_held v !! x = Some i -> (x ∉ bmset sb) /\
    (0 <= x < sb_size sb -> used sb (lv_blocks v) x = true).

(** The transaction has room for [n] blocks besides those of the free map. *)
Definition avail (sb : superblock) (v : lview) (n : nat) : Prop :=
  lv_op v = true /\ (n + size (bmset sb ∖ lv_logged v) <= lv_room v)%nat.

Definition block_of (bl : gmap Z (list Z)) (x : Z) : list Z := default zero_block (bl !! x).

(** The free map with block [b] marked or unmarked. *)
Definition mark (sb : superblock) (b : Z) (bl : gmap Z (list Z)) : list Z :=
  set_bit (bit_no b) (block_of bl (BBLOCK b sb)).
Definition unmark (sb : superblock) (b : Z) (bl : gmap Z (list Z)) : list Z :=
  clear_bit (bit_no b) (block_of bl (BBLOCK b sb)).

(** What allocating and freeing block [b] do. *)
Definition l_alloc (sb : superblock) (b : Z) (v : lview) : lview :=
  l_upd b zero_block (l_upd (BBLOCK b sb) (mark sb b (lv_blocks v)) v).
Definition l_free (sb : superblock) (b : Z) (v : lview) : lview :=
  l_upd (BBLOCK b sb) (unmark sb b (lv_blocks v)) v.

Section alloc_lemmas.
Context (sb : superblock).

Lemma elem_of_bmset x :
  x ∈ bmset sb <-> sb_bmapstart sb <= x < sb_bmapstart sb + (sb_size sb / BPB + 1).
Proof. unfold bmset. by rewrite elem_of_list_to_set, elem_of_seqZ. Qed.

Lemma BBLOCK_eq bl b : alloc_wf sb bl -> 0 <= b < sb_size sb ->
  BBLOCK b sb = b / BPB + sb_bmapstart sb.
Proof.
  intros [? ? _ _ _ _ _] Hb. apply u32_small.
  assert (0 <= b / BPB <= b) by (split; [apply Z.div_pos; [lia|done]|apply Z.div_le_upper_bound; unfold BPB; lia]).
  lia.
Qed.

Lemma BBLOCK_bmset bl b : alloc_wf sb bl -> 0 <= b < sb_size sb -> BBLOCK b sb ∈ bmset sb.
Proof.
  intros Hw Hb. rewrite (BBLOCK_eq bl) by done. apply elem_of_bmset.
  assert (0 <= b / BPB) by (apply Z.div_pos; [lia|done]).
  assert (b / BPB <= sb_size sb / BPB) by (apply Z.div_le_mono; [done|lia]). lia.
Qed.

Lemma bit_no_bound b : (bit_no b / 8 < Z.to_nat BSIZE)%nat.
Proof.
  unfold bit_no. assert (0 <= b mod BPB < BPB) by (by apply Z.mod_pos_bound).
  apply Nat.Div0.div_lt_upper_bound. unfold BPB, BSIZE in *. lia.
Qed.

Lemma same_bit b b' bl : alloc_wf sb bl -> 0 <= b < sb_size sb -> 0 <= b' < sb_size sb ->
  BBLOCK b sb = BBLOCK b' sb -> bit_no b = bit_no b' -> b = b'.
Proof.
  intros Hw Hb Hb'. rewrite !(BBLOCK_eq bl) by done. unfold bit_no. intros H1 H2.
  assert (0 <= b mod BPB < BPB /\ 0 <= b' mod BPB < BPB) as [? ?]
    by (split; by apply Z.mod_pos_bound).
  rewrite (Z.div_mod b BPB), (Z.div_mod b' BPB) by done. f_equal; [f_equal|]; lia.
Qed.

Lemma avail_bm v n x d :
  avail sb v n -> x ∈ bmset sb ->
  can_log v x /\ avail sb (l_upd x d v) n.
Proof.
  unfold avail, can_log. intros [Hop Ha] Hx. simpl. rewrite Hop. case_decide as Hin.
  - split; [by auto|]. split; [done|]. by replace (bmset sb ∖ ({[x]} ∪ lv_logged v))
      with (bmset sb ∖ lv_logged v) by set_solver.
  - replace (bmset sb ∖ ({[x]} ∪ lv_logged v)) with ((bmset sb ∖ lv_logged v) ∖ {[x]}) by set_solver.
    rewrite size_difference by set_solver. rewrite size_singleton.
    assert (size (bmset sb ∖ lv_logged v) <> 0)%nat
      by (apply size_non_empty_iff; set_solver). repeat split; try done; [right|]; lia.
Qed.

Lemma avail_any v n x d :
  avail sb v (S n) ->
  can_log v x /\ avail sb (l_upd x d v) n.
Proof.
  unfold avail, can_log. intros [Hop Ha]. simpl. rewrite Hop. split; [split; [done|right; lia]|].
  split; [done|].
  assert (size (bmset sb ∖ ({[x]} ∪ lv_logged v)) <= size (bmset sb ∖ lv_logged v))%nat
    by (apply subseteq_size; set_solver). case_decide; lia.
Qed.

Lemma avail_logged v n x d :
  x ∈ lv_logged v -> avail sb v n -> avail sb (l_upd x d v) n.
Proof.
  unfold avail. intros Hx [Hop Ha]. simpl. rewrite decide_True by done. split; [done|].
  by replace ({[x]} ∪ lv_logged v) with (lv_logged v) by set_solver.
Qed.

Lemma avail_alloc v n b bl :
  alloc_wf sb bl -> 0 <= b < sb_size sb -> avail sb v (S n) -> avail sb (l_alloc sb b v) n.
Proof.
  intros Hw Hb Ha. unfold l_alloc.
  destruct (avail_bm v (S n) (BBLOCK b sb) (mark sb b (lv_blocks v)) Ha) as [_ H1].
  { by eapply BBLOCK_bmset. }
  by apply avail_any.
Qed.

Lemma avail_mono v n n' : avail sb v n -> (n' <= n)%nat -> avail sb v n'.
Proof. unfold avail. intros [? ?] ?. split; [done|lia]. Qed.

(** Only bit [b] of the free map changes. *)
Lemma used_alloc v b b' :
  alloc_wf sb (lv_blocks v) -> 0 <= b < sb_size sb -> 0 <= b' < sb_size sb ->
  b ∉ bmset sb ->
  used sb (lv_blocks (l_alloc sb b v)) b' = (if decide (b' = b) then true else used sb (lv_blocks v) b').
Proof.
  intros Hw Hb Hb' Hn. unfold used, l_alloc, l_upd. cbn [lv_blocks].
  assert (BBLOCK b' sb <> b) as Hne by (intros E; apply Hn; rewrite <- E; by eapply BBLOCK_bmset).
  rewrite lookup_insert_ne by done.
  destruct (decide (BBLOCK b' sb = BBLOCK b sb)) as [E|E].
  - rewrite E, lookup_insert_eq. unfold mark, block_of.
    destruct (aw_bm _ _ Hw (BBLOCK b sb)) as [d Hd]; [by eapply BBLOCK_bmset|]. rewrite Hd.
    simpl. rewrite bitb_set by (rewrite (proj1 (aw_ok _ _ Hw _ _ Hd)); apply bit_no_bound).
    case_decide as E2; case_decide as E3; try done; subst; [|done].
    destruct E3. by eapply same_bit.
  - rewrite lookup_insert_ne by done. case_decide as E2; [by subst|done].
Qed.

Lemma used_free v b b' :
  alloc_wf sb (lv_blocks v) -> 0 <= b < sb_size sb -> 0 <= b' < sb_size sb ->
  used sb (lv_blocks (l_free sb b v)) b' = (if decide (b' = b) then false else used sb (lv_blocks v) b').
Proof.
  intros Hw Hb Hb'. unfold used, l_free, l_upd. cbn [lv_blocks].
  destruct (decide (BBLOCK b' sb = BBLOCK b sb)) as [E|E].
  - rewrite E, lookup_insert_eq. unfold unmark, block_of.
    destruct (aw_bm _ _ Hw (BBLOCK b sb)) as [d Hd]; [by eapply BBLOCK_bmset|]. rewrite Hd.
    simpl. rewrite bitb_clear by (rewrite (proj1 (aw_ok _ _ Hw _ _ Hd)); apply bit_no_bound).
    case_decide as E2; case_decide as E3; try done; subst; [|done].
    destruct E3. by eapply same_bit.
  - rewrite lookup_insert_ne by done. case_decide as E2; [by subst|done].
Qed.
End alloc_lemmas.

Lemma zero_block_ok : block_ok zero_block.
Proof. split; [apply length_replicate|]. apply Forall_replicate. lia. Qed.

(** The blocks of one bitmap block. *)
Lemma group_bits sb bl (q j : nat) :
  alloc_wf sb bl -> Z.of_nat j < BPB -> BPB * Z.of_nat q + Z.of_nat j < sb_size sb ->
  BBLOCK (BPB * Z.of_nat q + Z.of_nat j) sb = BBLOCK (BPB * Z.of_nat q) sb /\
  bit_no (BPB * Z.of_nat q + Z.of_nat j) = j.
Proof.
  intros Hw Hj Hs. unfold BBLOCK, bit_no. rewrite (Z.mul_comm BPB).
  rewrite Z.div_add_l, Z.div_mul, (Z.div_small (Z.of_nat j)) by (unfold BPB in *; lia).
  rewrite (Z.add_comm (Z.of_nat q * BPB)), Z_mod_plus_full, Z.mod_small by lia. split; [f_equal; lia|lia].
Qed.

Lemma group_used sb bl (q j : nat) d :
  alloc_wf sb bl -> Z.of_nat j < BPB -> BPB * Z.of_nat q + Z.of_nat j < sb_size sb ->
  bl !! BBLOCK (BPB * Z.of_nat q) sb = Some d ->
  used sb bl (BPB * Z.of_nat q + Z.of_nat j) = bitb d j.
Proof.
  intros Hw Hj Hs Hd. unfold used. destruct (group_bits sb bl q j Hw Hj Hs) as [-> ->].
  by rewrite Hd.
Qed.

Section alloc.
Context {B D : Type} `{BlockLayer B} (p : proc).
Implicit Types (s : fs B D) (v : lview).

Lemma bzero_spec s v b (Q : unit -> fs B D -> Prop) :
  fsrep p s v -> is_Some (lv_blocks v !! b) -> lv_held v !! b = None ->
  (size (lv_held v) <= 1)%nat -> lv_pend v = ∅ -> can_log v b ->
  (forall bk, fsrep p (set_blk bk s) (l_upd b zero_block v) -> Q tt (set_blk bk s)) ->
  wp (bzero p ROOTDEV b) Q s.
Proof.
  intros Hs [d Hd] Hh Hsz Hp Hr HQ. unfold bzero. wp_step.
  eapply fwp_bread; try done. intros i b1 H1.
  eapply fwp_update_last; [done|done|done|apply zero_block_ok|done|exact (fun b2 H2 => HQ b2 H2)].
Qed.

(** A clear bit was found: mark it and zero the block. *)
Lemma balloc_found s v (q bi : nat) d i (Q : Z -> fs B D -> Prop) :
  let sb := fs_sb s in
  let b := BPB * Z.of_nat q + Z.of_nat bi in
  alloc_wf sb (lv_blocks v) -> alloc_ready sb v -> avail sb v 1 ->
  fsrep p s (l_take (BBLOCK (BPB * Z.of_nat q) sb) i v) ->
  lv_blocks v !! BBLOCK (BPB * Z.of_nat q) sb = Some d ->
  Z.of_nat bi < BPB -> b < sb_size sb -> bitb d bi = false ->
  (forall bk, used sb (lv_blocks v) b = false -> fsrep p (set_blk bk s) (l_alloc sb b v) ->
     Q b (set_blk bk s)) ->
  wp (do* fbput i (set_bit bi d) in
      do* flog_write i in
      do* fbrelse p i in
      do* bzero p ROOTDEV b in
      ret b) Q s.
Proof.
  intros sb b Hw (Hp & Hsz & Hh) Ha Hs Hd Hj Hjs Hjf HQ.
  destruct (group_bits sb _ q bi Hw Hj Hjs) as [Eb En].
  pose proof (group_used sb _ q bi d Hw Hj Hjs Hd) as Hu. fold b in Eb, En, Hu.
  rewrite Hjf in Hu. assert (Hr : 0 <= b < sb_size sb) by (unfold b, BPB in *; lia).
  destruct (aw_free _ _ Hw _ Hr Hu) as (Hsome & Hnb & Hni & Hpos).
  assert (Hin : BBLOCK (BPB * Z.of_nat q) sb ∈ bmset sb) by (rewrite <- Eb; by eapply BBLOCK_bmset).
  assert (Hmark : set_bit bi d = mark sb b (lv_blocks v)).
  { unfold mark, block_of. by rewrite Eb, En, Hd. }
  destruct (avail_bm sb v 1 _ (set_bit bi d) Ha Hin) as [Hr1 Ha1].
  assert (Hnone : lv_held v !! BBLOCK (BPB * Z.of_nat q) sb = None).
  { destruct (lv_held v !! _) as [j|] eqn:E; [|done]. by destruct (Hh _ _ E). }
  eapply fwp_update; try done; [apply set_bit_ok; by eapply (aw_ok _ _ Hw)|].
  intros b2 Hb2. wp_step.
  destruct (avail_any sb _ 0 b zero_block Ha1) as [Hr2 _].
  eapply bzero_spec; try done.
  { simpl. by apply lookup_insert_is_Some'; right. }
  { simpl. destruct (lv_held v !! b) as [j|] eqn:E; [|done].
    destruct (Hh _ _ E) as [_ Hc]. rewrite Hc in Hu by done. done. }
  intros b3 Hb3. wp_step. apply (HQ b3); try done.
  unfold l_alloc. rewrite Eb, <- Hmark. exact Hb3.
Qed.

Lemma balloc_loop_spec k s v q (Q : Z -> fs B D -> Prop) :
  let sb := fs_sb s in
  fsrep p s v -> alloc_wf sb (lv_blocks v) -> alloc_ready sb v -> avail sb v 1 ->
  (exists b, BPB * Z.of_nat q <= b < sb_size sb /\ used sb (lv_blocks v) b = false) ->
  (forall b, 0 <= b < BPB * Z.of_nat q -> used sb (lv_blocks v) b = true) ->
  sb_size sb <= BPB * Z.of_nat (q + k) ->
  (forall b bk, 0 <= b < sb_size sb -> used sb (lv_blocks v) b = false ->
     (forall b', 0 <= b' < b -> used sb (lv_blocks v) b' = true) ->
     fsrep p (set_blk bk s) (l_alloc sb b v) -> Q b (set_blk bk s)) ->
  wp (balloc_loop p k ROOTDEV (BPB * Z.of_nat q)) Q s.
Proof.
  intros sb. revert s v q sb. induction k as [|k IH];
    intros s v q sb Hs Hw (Hp & Hsz & Hh) Ha (b0 & Hb0 & Hf0) Hbelow Hk HQ; [lia|].
  cbn [balloc_loop]. wp_step. wp_step. fold sb.
  destruct (Z.ltb_spec (BPB * Z.of_nat q) (sb_size sb)) as [Hlt|]; [|lia].
  set (bq := BPB * Z.of_nat q) in *. assert (Hq : 0 <= bq < sb_size sb) by (unfold bq, BPB in *; lia).
  pose proof (BBLOCK_bmset sb _ bq Hw Hq) as Hin.
  destruct (aw_bm _ _ Hw _ Hin) as [d Hd]. wp_step.
  assert (Hnone : lv_held v !! BBLOCK bq sb = None).
  { destruct (lv_held v !! BBLOCK bq sb) as [i|] eqn:E; [|done]. by destruct (Hh _ _ E). }
  eapply fwp_bread; try done. intros i b1 H1. wp_step. eapply fwp_bdata; try done.
  pose proof (free_bit_spec (Z.to_nat BPB) d bq (sb_size sb) 0) as Hfb.
  destruct (free_bit _ _ _ _ _) as [bi|].
  - destruct Hfb as (Hj & Hjs & Hjf & Hbefore). assert (Hj' : Z.of_nat bi < BPB) by lia.
    apply (balloc_found (set_blk b1 s) v q bi d i); try done.
    intros b2 Hu H2. apply (HQ (bq + Z.of_nat bi) b2); try done; [lia|].
    intros b' Hb'. destruct (decide (b' < bq)); [apply Hbelow; lia|].
    replace b' with (bq + Z.of_nat (Z.to_nat (b' - bq))) by lia. unfold bq.
    rewrite (group_used sb _ q _ d) by (done || lia). apply Hbefore. lia.
  - wp_step. eapply fwp_brelse; try done. intros b2 H2.
    replace (bq + BPB) with (BPB * Z.of_nat (S q)) by (unfold bq, BPB; lia).
    assert (Hgroup : forall b, bq <= b < BPB * Z.of_nat (S q) -> b < sb_size sb ->
              used sb (lv_blocks v) b = true).
    { intros b Hb Hbs. replace b with (bq + Z.of_nat (Z.to_nat (b - bq))) by lia. unfold bq.
      rewrite (group_used sb _ q _ d) by (done || (unfold BPB in *; lia)).
      apply Hfb; unfold BPB in *; lia. }
    assert (BPB * Z.of_nat (S q) <= b0).
    { destruct (decide (b0 < BPB * Z.of_nat (S q))); [|lia].
      rewrite Hgroup in Hf0 by lia. done. }
    apply (IH (set_blk b2 s) v (S q)); cbn [fs_sb set_blk]; fold sb; try done.
    + exists b0. split; [lia|done].
    + intros b Hb. destruct (decide (b < bq)); [apply Hbelow; lia|].
      apply Hgroup; lia.
    + lia.
Qed.
Lemma balloc_spec s v (Q : Z -> fs B D -> Prop) :
  let sb := fs_sb s in
  fsrep p s v -> alloc_wf sb (lv_blocks v) -> alloc_ready sb v -> avail sb v 1 ->
  (exists b, 0 <= b < sb_size sb /\ used sb (lv_blocks v) b = false) ->
  (forall b bk, 0 <= b < sb_size sb -> used sb (lv_blocks v) b = false ->
     (forall b', 0 <= b' < b -> used sb (lv_blocks v) b' = true) ->
     fsrep p (set_blk bk s) (l_alloc sb b v) -> Q b (set_blk bk s)) ->
  wp (balloc p ROOTDEV) Q s.
Proof.
  intros sb Hs Hw Hr Ha Hf HQ. unfold balloc. wp_step. wp_step. fold sb.
  apply (balloc_loop_spec _ s v 0); try done.
  - intros b Hb. lia.
  - fold sb. pose proof (aw_size _ _ Hw). pose proof (Z.div_mod (sb_size sb) BPB ltac:(done)).
    assert (0 <= sb_size sb mod BPB < BPB) by (by apply Z.mod_pos_bound).
    assert (0 <= sb_size sb / BPB) by (apply Z.div_pos; [lia|done]). unfold BPB in *. lia.
Qed.

Lemma bfree_spec s v b (Q : unit -> fs B D -> Prop) :
  let sb := fs_sb s in
  fsrep p s v -> alloc_wf sb (lv_blocks v) -> alloc_ready sb v -> avail sb v 0 ->
  0 <= b < sb_size sb -> used sb (lv_blocks v) b = true ->
  (forall bk, fsrep p (set_blk bk s) (l_free sb b v) -> Q tt (set_blk bk s)) ->
  wp (bfree p ROOTDEV b) Q s.
Proof.
  intros sb Hs Hw (Hp & Hsz & Hh) Ha Hb Hu HQ. unfold bfree. wp_step. wp_step. fold sb.
  pose proof (BBLOCK_bmset sb _ b Hw Hb) as Hin. destruct (aw_bm _ _ Hw _ Hin) as [d Hd].
  assert (Hnone : lv_held v !! BBLOCK b sb = None).
  { destruct (lv_held v !! _) as [i|] eqn:E; [|done]. by destruct (Hh _ _ E). }
  wp_step. eapply fwp_bread; try done. intros i b1 Hb1. wp_step. eapply fwp_bdata; try done.
  fold (bit_no b). rewrite bitb_test. unfold used in Hu. rewrite Hd in Hu. rewrite Hu.
  cbn [negb]. fold (clear_bit (bit_no b) d).
  assert (Hun : clear_bit (bit_no b) d = unmark sb b (lv_blocks v)).
  { unfold unmark, block_of. by rewrite Hd. }
  destruct (avail_bm sb v 0 _ (clear_bit (bit_no b) d) Ha Hin) as [Hr1 _].
  eapply fwp_update_last; [done|done|done| |done|].
  - apply clear_bit_ok. by eapply (aw_ok _ _ Hw).
  - intros b2 Hb2. apply (HQ b2). unfold l_free. by rewrite <- Hun.
Qed.
End alloc.

(** Allocation keeps the free map well formed; so does freeing a data block. *)
Section alloc_wf_lemmas.
Context (sb : superblock) (v : lview).
Hypothesis Hw : alloc_wf sb (lv_blocks v).

Lemma alloc_blocks_other b x :
  x <> b -> (x ∉ bmset sb) -> 0 <= b < sb_size sb ->
  lv_blocks (l_alloc sb b v) !! x = lv_blocks v !! x.
Proof.
  intros Hx Hn Hb. unfold l_alloc, l_upd. cbn [lv_blocks].
  rewrite lookup_insert_ne by done. rewrite lookup_insert_ne; [done|].
  intros <-. apply Hn. by eapply BBLOCK_bmset.
Qed.

Lemma free_blocks_other b x :
  (x ∉ bmset sb) -> 0 <= b < sb_size sb -> lv_blocks (l_free sb b v) !! x = lv_blocks v !! x.
Proof.
  intros Hn Hb. unfold l_free, l_upd. cbn [lv_blocks]. rewrite lookup_insert_ne; [done|].
  intros <-. apply Hn. by eapply BBLOCK_bmset.
Qed.

Lemma block_of_ok x : x ∈ bmset sb -> block_ok (block_of (lv_blocks v) x).
Proof.
  intros Hx. destruct (aw_bm _ _ Hw _ Hx) as [d Hd]. unfold block_of. rewrite Hd.
  by eapply (aw_ok _ _ Hw).
Qed.

Lemma alloc_wf_alloc b :
  0 <= b < sb_size sb -> used sb (lv_blocks v) b = false ->
  alloc_wf sb (lv_blocks (l_alloc sb b v)).
Proof.
  intros Hb Hu. destruct (aw_free _ _ Hw _ Hb Hu) as (Hsome & Hn & Hni & Hpos).
  pose proof (BBLOCK_bmset sb _ b Hw Hb) as Hbm.
  assert (Hdom : forall x, is_Some (lv_blocks v !! x) -> is_Some (lv_blocks (l_alloc sb b v) !! x)).
  { intros x Hx. unfold l_alloc, l_upd. cbn [lv_blocks].
    apply lookup_insert_is_Some'. right. apply lookup_insert_is_Some'. by right. }
  constructor; try apply Hw.
  - intros x Hx. apply Hdom. by apply (aw_bm _ _ Hw).
  - intros x Hx. destruct (aw_ib _ _ Hw x Hx). auto.
  - intros x d. unfold l_alloc, l_upd. cbn [lv_blocks].
    intros [[_ <-]|[_ [[_ <-]|[_ Hx]]%lookup_insert_Some]]%lookup_insert_Some.
    + apply zero_block_ok.
    + by apply set_bit_ok, block_of_ok.
    + by eapply (aw_ok _ _ Hw).
  - intros b' Hb' Hf. rewrite used_alloc in Hf by done. case_decide; [done|].
    destruct (aw_free _ _ Hw _ Hb' Hf) as (? & ? & ? & ?). auto.
Qed.

Lemma alloc_wf_free b :
  0 < b < sb_size sb -> is_Some (lv_blocks v !! b) -> (b ∉ bmset sb) -> (b ∉ iset sb) ->
  alloc_wf sb (lv_blocks (l_free sb b v)).
Proof.
  intros Hb Hsome Hn Hni. assert (Hb0 : 0 <= b < sb_size sb) by lia.
  pose proof (BBLOCK_bmset sb _ b Hw Hb0) as Hbm.
  assert (Hdom : forall x, is_Some (lv_blocks v !! x) -> is_Some (lv_blocks (l_free sb b v) !! x)).
  { intros x Hx. unfold l_free, l_upd. cbn [lv_blocks]. apply lookup_insert_is_Some'. by right. }
  constructor; try apply Hw.
  - intros x Hx. apply Hdom. by apply (aw_bm _ _ Hw).
  - intros x Hx. destruct (aw_ib _ _ Hw x Hx). auto.
  - intros x d. unfold l_free, l_upd. cbn [lv_blocks].
    intros [[_ <-]|[_ Hx]]%lookup_insert_Some.
    + by apply clear_bit_ok, block_of_ok.
    + by eapply (aw_ok _ _ Hw).
  - intros b' Hb' Hf. rewrite used_free in Hf by done. case_decide as E; [subst; auto with lia|].
    destruct (aw_free _ _ Hw _ Hb' Hf) as (? & ? & ? & ?). auto.
Qed.

Lemma alloc_ready_alloc b :
  0 <= b < sb_size sb -> used sb (lv_blocks v) b = false ->
  alloc_ready sb v -> alloc_ready sb (l_alloc sb b v).
Proof.
  intros Hb Hu (Hp & Hsz & Hh). split; [done|]. split; [done|]. intros x i Hx.
  destruct (Hh x i Hx) as [H1 H2]. split; [done|]. intros Hxs.
  destruct (aw_free _ _ Hw _ Hb Hu) as (_ & Hn & _ & _).
  rewrite used_alloc by done. case_decide; [done|auto].
Qed.
End alloc_wf_lemmas.

(** The free blocks. *)
Definition free_set (sb : superblock) (bl : gmap Z (list Z)) : gset Z :=
  filter (fun b => used sb bl b = false) (list_to_set (seqZ 0 (sb_size sb))).

Lemma elem_of_free_set sb bl b :
  b ∈ free_set sb bl <-> 0 <= b < sb_size sb /\ used sb bl b = false.
Proof.
  unfold free_set. rewrite elem_of_filter, elem_of_list_to_set, elem_of_seqZ, Z.add_0_l. tauto.
Qed.

Lemma free_set_alloc sb v b :
  alloc_wf sb (lv_blocks v) -> 0 <= b < sb_size sb -> used sb (lv_blocks v) b = false ->
  free_set sb (lv_blocks (l_alloc sb b v)) = free_set sb (lv_blocks v) ∖ {[b]}.
Proof.
  intros Hw Hb Hu. destruct (aw_free _ _ Hw _ Hb Hu) as (_ & Hn & _).
  apply set_eq. intros x. rewrite elem_of_difference, elem_of_singleton, !elem_of_free_set.
  split.
  - intros [Hx Hf]. rewrite used_alloc in Hf by done. case_decide; [done|auto].
  - intros [[Hx Hf] Hne]. rewrite used_alloc by done. rewrite decide_False by done. auto.
Qed.

Lemma size_free_alloc sb v b :
  alloc_wf sb (lv_blocks v) -> 0 <= b < sb_size sb -> used sb (lv_blocks v) b = false ->
  size (free_set sb (lv_blocks v)) = S (size (free_set sb (lv_blocks (l_alloc sb b v)))).
Proof.
  intros Hw Hb Hu. rewrite free_set_alloc by done.
  assert (b ∈ free_set sb (lv_blocks v)) by (by apply elem_of_free_set).
  rewrite size_difference by set_solver. rewrite size_singleton.
  assert (size (free_set sb (lv_blocks v)) <> 0)%nat by (apply size_non_empty_iff; set_solver). lia.
Qed.
