(* ===== verification/FsInode.v ===== *)
(** * Inodes and their blocks

    [bmap], [iupdate] and [ilock] of [kernel/fs.c].  An inode is a map from
    block numbers to disk blocks, direct or through its indirect block
    ([addr_of]); [bmap] extends the map without changing what it already maps,
    and the content of the file ([file_block]) stays the same. *)

From S2P Require Import Prelude SleepLock Bio Layout Log BlockLayer CString ProcDefs Fs FsAlloc.

Definition NBLOCKS : nat := 185.   (* MAXFILE *)

(** ** The block map of an inode *)

Definition ind_of (d : dinode) : Z := default 0 (d_addrs d !! NDIRECT).

Definition addr_of (bl : gmap Z (list Z)) (d : dinode) (bn : nat) : Z :=
  if (bn <? NDIRECT)%nat then default 0 (d_addrs d !! bn)
  else if ind_of d =? 0 then 0
  else get_le 4 (4 * (bn - NDIRECT)) (block_of bl (ind_of d)).

Definition file_block (bl : gmap Z (list Z)) (d : dinode) (bn : nat) : list Z :=
  if addr_of bl d bn =? 0 then zero_block else block_of bl (addr_of bl d bn).

(** The disk blocks that belong to the inode. *)
Definition owned (bl : gmap Z (list Z)) (d : dinode) (a : Z) : Prop :=
  a <> 0 /\ (a = ind_of d \/ exists bn, (bn < NBLOCKS)%nat /\ addr_of bl d bn = a).

(** An allocated block of the data area. *)
Record data_blk (sb : superblock) (bl : gmap Z (list Z)) (a : Z) : Prop := {
  db_range : 0 < a < sb_size sb;
  db_used : used sb bl a = true;
  db_some : is_Some (bl !! a);
  db_bm : a ∉ bmset sb;
  db_ino : a ∉ iset sb }.

Record inode_wf (sb : superblock) (bl : gmap Z (list Z)) (d : dinode) : Prop := {
  iw_len : length (d_addrs d) = S NDIRECT;
  iw_data : forall a, owned bl d a -> data_blk sb bl a;
  iw_inj : forall bn bn', (bn < NBLOCKS)%nat -> (bn' < NBLOCKS)%nat ->
    addr_of bl d bn = addr_of bl d bn' -> addr_of bl d bn <> 0 -> bn = bn';
  iw_ind : forall bn, (bn < NBLOCKS)%nat -> addr_of bl d bn <> 0 -> addr_of bl d bn <> ind_of d }.

(** [bl', d'] come from [bl, d] by giving the inode new blocks and changing the
    content of its blocks. *)
Record evolves (sb : superblock) (bl : gmap Z (list Z)) (d : dinode)
    (bl' : gmap Z (list Z)) (d' : dinode) : Prop := {
  ev_same : forall bn, (bn < NBLOCKS)%nat -> addr_of bl d bn <> 0 ->
    addr_of bl' d' bn = addr_of bl d bn;
  ev_frame : forall x, (x ∉ bmset sb) -> ~ owned bl' d' x -> bl' !! x = bl !! x;
  ev_new : forall x, owned bl' d' x -> owned bl d x \/ x ∈ free_set sb bl;
  ev_used : forall x, 0 <= x < sb_size sb -> used sb bl x = true -> used sb bl' x = true;
  ev_own : forall x, owned bl d x -> owned bl' d' x;
  ev_rest : d' = d_with_addrs (d_addrs d') d }.

Lemma evolves_refl sb bl d : evolves sb bl d bl d.
Proof. constructor; auto. by destruct d. Qed.

Lemma evolves_trans sb bl d bl1 d1 bl2 d2 :
  evolves sb bl d bl1 d1 -> evolves sb bl1 d1 bl2 d2 -> evolves sb bl d bl2 d2.
Proof.
  intros [A1 A2 A3 A4 A5 A6] [B1 B2 B3 B4 B5 B6]. constructor; auto.
  - intros bn Hbn Hne. rewrite B1; [by apply A1|done|by rewrite A1].
  - intros x Hx Ho. rewrite B2 by done. apply A2; auto.
  - intros x [Ho|Hf]%B3; [by apply A3|right]. apply elem_of_free_set in Hf as [Hr Hf].
    apply elem_of_free_set. split; [done|]. destruct (used sb bl x) eqn:E; [|done].
    rewrite A4 in Hf; done.
  - rewrite B6, A6. by destruct d.
Qed.

(** What owned blocks look like is not changed by changes elsewhere. *)
Lemma addr_of_cong bl bl' d bn :
  (ind_of d <> 0 -> bl' !! ind_of d = bl !! ind_of d) -> addr_of bl' d bn = addr_of bl d bn.
Proof.
  intros Hi. unfold addr_of. case_match; [done|]. destruct (Z.eqb_spec (ind_of d) 0); [done|].
  unfold block_of. by rewrite Hi.
Qed.

Lemma get_le_zero n off : get_le n off zero_block = 0.
Proof.
  unfold get_le, slice, zero_block. rewrite drop_replicate, take_replicate.
  generalize (n `min` (Z.to_nat BSIZE - off))%nat as k. induction k as [|k IH]; [done|].
  change (le_val (replicate (S k) 0)) with (0 + 256 * le_val (replicate k 0)). by rewrite IH.
Qed.

Lemma block_of_some bl x d : bl !! x = Some d -> block_of bl x = d.
Proof. unfold block_of. by intros ->. Qed.

Definition set_addr (k : nat) (b : Z) (d : dinode) : dinode :=
  d_with_addrs (<[k := b]> (d_addrs d)) d.

Section grow.
Context (sb : superblock) (v : lview) (d : dinode) (b : Z).
Hypothesis Hw : alloc_wf sb (lv_blocks v).
Hypothesis Hi : inode_wf sb (lv_blocks v) d.
Hypothesis Hb : 0 <= b < sb_size sb.
Hypothesis Hfree : used sb (lv_blocks v) b = false.

Abbreviation bl := (lv_blocks v).
Abbreviation bl1 := (lv_blocks (l_alloc sb b v)).

Lemma owned_ne_new a : owned bl d a -> a <> b.
Proof. intros Ha ->. apply (iw_data _ _ _ Hi) in Ha as []. congruence. Qed.

Lemma new_some : bl1 !! b = Some zero_block.
Proof. apply lookup_insert_eq. Qed.

Lemma owned_alloc a : owned bl d a -> bl1 !! a = bl !! a.
Proof.
  intros Ha. pose proof (owned_ne_new a Ha). apply (iw_data _ _ _ Hi) in Ha as [].
  by apply alloc_blocks_other.
Qed.

Lemma new_data_blk : data_blk sb bl1 b.
Proof.
  destruct (aw_free _ _ Hw _ Hb Hfree) as (Hs & Hn & Hni & Hp). constructor; try done.
  - lia.
  - rewrite used_alloc by done. by rewrite decide_True.
  - rewrite new_some. eauto.
Qed.

Lemma old_data_blk a : data_blk sb bl a -> data_blk sb bl1 a.
Proof.
  intros []. destruct (aw_free _ _ Hw _ Hb Hfree) as (Hs & Hn & Hni & Hp). constructor; try done.
  - rewrite used_alloc by (done || lia). by case_decide.
  - unfold l_alloc, l_upd. cbn [lv_blocks].
    apply lookup_insert_is_Some'. right. apply lookup_insert_is_Some'. by right.
Qed.

(** *** Filling in a pointer of the inode *)

Context (k : nat).
Hypothesis Hk : (k <= NDIRECT)%nat.
Hypothesis Hold : d_addrs d !! k = Some 0.

Lemma b_pos : 0 < b.
Proof. by destruct (aw_free _ _ Hw _ Hb Hfree) as (_ & _ & _ & ?). Qed.

Lemma ind_set_addr : ind_of (set_addr k b d) = if decide (k = NDIRECT) then b else ind_of d.
Proof.
  unfold ind_of, set_addr. cbn [d_addrs d_with_addrs]. case_decide as E.
  - subst. rewrite list_lookup_insert_eq; [done|]. rewrite (iw_len _ _ _ Hi). lia.
  - by rewrite list_lookup_insert_ne.
Qed.

Lemma ind_owned : ind_of d <> 0 -> owned bl d (ind_of d).
Proof. intros. split; [done|by left]. Qed.

Lemma addr_set_addr bn :
  addr_of bl1 (set_addr k b d) bn =
    if decide (bn = k /\ (k < NDIRECT)%nat) then b else addr_of bl d bn.
Proof.
  unfold addr_of at 1. destruct (Nat.ltb_spec bn NDIRECT) as [Hlt|Hge].
  - unfold set_addr. cbn [d_addrs d_with_addrs]. case_decide as E.
    + destruct E as [-> _]. rewrite list_lookup_insert_eq; [done|]. rewrite (iw_len _ _ _ Hi). lia.
    + rewrite list_lookup_insert_ne by lia. unfold addr_of.
      by destruct (Nat.ltb_spec bn NDIRECT); [|lia].
  - rewrite decide_False by lia. rewrite ind_set_addr. unfold addr_of.
    destruct (Nat.ltb_spec bn NDIRECT); [lia|]. case_decide as E.
    + pose proof b_pos. destruct (Z.eqb_spec b 0); [lia|].
      rewrite (block_of_some _ _ _ new_some), get_le_zero.
      unfold ind_of. rewrite <- E, Hold. done.
    + destruct (Z.eqb_spec (ind_of d) 0); [done|]. unfold block_of. by rewrite owned_alloc by (by apply ind_owned).
Qed.
Lemma owned_set_addr x : owned bl1 (set_addr k b d) x <-> owned bl d x \/ x = b.
Proof.
  pose proof b_pos as Hp. unfold owned. rewrite ind_set_addr. split.
  - intros [Hx [Ho|(bn & Hbn & Ho)]].
    + case_decide; [by right|]. left. auto.
    + rewrite addr_set_addr in Ho. case_decide; [by right|]. left. eauto.
  - intros [[Hx Ho] | ->].
    + split; [done|]. destruct Ho as [-> |(bn & Hbn & <-)].
      * left. case_decide as E; [|done]. exfalso. apply Hx. unfold ind_of. by rewrite <- E, Hold.
      * right. exists bn. split; [done|]. rewrite addr_set_addr. case_decide as E; [|done].
        exfalso. apply Hx. destruct E as [-> E]. unfold addr_of.
        destruct (Nat.ltb_spec k NDIRECT); [|lia]. by rewrite Hold.
    + split; [lia|]. case_decide as E; [by left|]. right. exists k. split; [unfold NBLOCKS, NDIRECT in *; lia|].
      rewrite addr_set_addr, decide_True; [done|]. lia.
Qed.

Lemma inode_wf_set_addr : inode_wf sb bl1 (set_addr k b d).
Proof.
  pose proof b_pos as Hp. assert (Hnb : forall bn, (bn < NBLOCKS)%nat -> addr_of bl d bn <> b).
  { intros bn Hbn E. assert (owned bl d b) as Ho by (split; [lia|right; eauto]).
    by apply (owned_ne_new b Ho). }
  constructor.
  - unfold set_addr. cbn [d_addrs d_with_addrs]. rewrite length_insert. apply Hi.
  - intros a [Ha | ->]%owned_set_addr; [|by apply new_data_blk].
    by apply old_data_blk, (iw_data _ _ _ Hi).
  - intros bn bn' H1 H2. rewrite !addr_set_addr. repeat case_decide.
    + intros _ _. lia.
    + intros E. by destruct (Hnb bn' H2).
    + intros E. by destruct (Hnb bn H1).
    + by apply (iw_inj _ _ _ Hi).
  - intros bn Hbn. rewrite addr_set_addr, ind_set_addr. repeat case_decide; try done; try lia.
    + intros _ E. destruct (decide (ind_of d = 0)) as [E0|E0]; [lia|].
      by apply (owned_ne_new _ (ind_owned E0)).
    + intros _. by apply Hnb.
    + by apply (iw_ind _ _ _ Hi).
Qed.

Lemma evolves_set_addr : evolves sb bl d bl1 (set_addr k b d).
Proof.
  constructor.
  - intros bn Hbn Hne. rewrite addr_set_addr. case_decide as E; [|done]. exfalso. apply Hne.
    destruct E as [-> E]. unfold addr_of. destruct (Nat.ltb_spec k NDIRECT); [|lia]. by rewrite Hold.
  - intros x Hx Ho. apply alloc_blocks_other; try done. intros ->. apply Ho, owned_set_addr. by right.
  - intros x [Ho | ->]%owned_set_addr; [by left|right]. by apply elem_of_free_set.
  - intros x Hx Hu. destruct (aw_free _ _ Hw _ Hb Hfree) as (_ & Hn & _).
    rewrite used_alloc by done. by case_decide.
  - intros x Ho. apply owned_set_addr. by left.
  - done.
Qed.

Lemma file_set_addr bn :
  (bn < NBLOCKS)%nat -> file_block bl1 (set_addr k b d) bn = file_block bl d bn.
Proof.
  intros Hbn. pose proof b_pos as Hp. unfold file_block. rewrite addr_set_addr.
  case_decide as E.
  - destruct (Z.eqb_spec b 0); [lia|]. rewrite (block_of_some _ _ _ new_some).
    destruct E as [-> E]. unfold addr_of. destruct (Nat.ltb_spec k NDIRECT); [|lia].
    by rewrite Hold.
  - destruct (Z.eqb_spec (addr_of bl d bn) 0); [done|]. unfold block_of.
    rewrite owned_alloc; [done|]. split; [done|right; eauto].
Qed.
End grow.

(** Overwriting a block outside the free map. *)
Lemma used_insert sb bl x d b :
  alloc_wf sb bl -> (x ∉ bmset sb) -> 0 <= b < sb_size sb ->
  used sb (<[x := d]> bl) b = used sb bl b.
Proof.
  intros Hw Hx Hb. unfold used. rewrite lookup_insert_ne; [done|].
  intros ->. apply Hx. by eapply BBLOCK_bmset.
Qed.

Lemma alloc_wf_insert sb bl x d :
  alloc_wf sb bl -> (x ∉ bmset sb) -> block_ok d -> alloc_wf sb (<[x := d]> bl).
Proof.
  intros Hw Hx Hd.
  assert (Hdom : forall y, is_Some (bl !! y) -> is_Some (<[x := d]> bl !! y)).
  { intros y Hy. apply lookup_insert_is_Some'. by right. }
  constructor; try apply Hw.
  - intros y Hy. apply Hdom. by apply (aw_bm _ _ Hw).
  - intros y Hy. destruct (aw_ib _ _ Hw y Hy). auto.
  - intros y e [[_ <-]|[_ He]]%lookup_insert_Some; [done|by eapply (aw_ok _ _ Hw)].
  - intros b Hb Hf. rewrite used_insert in Hf by done.
    destruct (aw_free _ _ Hw _ Hb Hf) as (? & ? & ? & ?). auto.
Qed.

Lemma data_blk_insert sb bl x d a :
  alloc_wf sb bl -> (x ∉ bmset sb) -> data_blk sb bl a -> data_blk sb (<[x := d]> bl) a.
Proof.
  intros Hw Hx []. constructor; try done.
  - rewrite used_insert by (done || lia). done.
  - apply lookup_insert_is_Some'. by right.
Qed.

Section grow_ind.
Context (sb : superblock) (v : lview) (d : dinode) (b : Z) (j : nat).
Hypothesis Hw : alloc_wf sb (lv_blocks v).
Hypothesis Hi : inode_wf sb (lv_blocks v) d.
Hypothesis Hb : 0 <= b < sb_size sb.
Hypothesis Hfree : used sb (lv_blocks v) b = false.
Hypothesis Hind : ind_of d <> 0.
Hypothesis Hj : (j < NINDIRECT)%nat.
Hypothesis Hold : addr_of (lv_blocks v) d (NDIRECT + j) = 0.

Abbreviation bl := (lv_blocks v).
Abbreviation bl1 := (lv_blocks (l_alloc sb b v)).
Definition ind_block : list Z := put_le 4 (4 * j) b (block_of (lv_blocks v) (ind_of d)).
Abbreviation bl2 := (<[ind_of d := ind_block]> bl1).

Lemma ind_data : data_blk sb bl (ind_of d).
Proof. apply (iw_data _ _ _ Hi). by apply ind_owned. Qed.

Lemma ind_some : bl !! ind_of d = Some (block_of bl (ind_of d)) /\
  block_ok (block_of bl (ind_of d)).
Proof.
  destruct (db_some _ _ _ ind_data) as [x Hx]. rewrite (block_of_some _ _ _ Hx).
  split; [done|]. by eapply (aw_ok _ _ Hw).
Qed.

Lemma ind_block_ok : block_ok ind_block.
Proof.
  destruct ind_some as [_ [Hl Hok]]. split; [|by apply put_le_ok].
  unfold ind_block. rewrite length_put_le; [done|]. rewrite Hl. unfold BSIZE, NINDIRECT in *. lia.
Qed.

Lemma addr_grow_ind bn :
  (bn < NBLOCKS)%nat ->
  addr_of bl2 d bn = if decide (bn = NDIRECT + j)%nat then b else addr_of bl d bn.
Proof.
  intros Hbn. destruct ind_some as [Hs [Hl _]]. unfold addr_of.
  destruct (Nat.ltb_spec bn NDIRECT); [rewrite decide_False by lia; done|].
  destruct (Z.eqb_spec (ind_of d) 0); [done|].
  rewrite (block_of_some _ _ _ (lookup_insert_eq _ _ _)). unfold ind_block.
  case_decide as E.
  - subst. replace (NDIRECT + j - NDIRECT)%nat with j by lia. rewrite get_put_le_same.
    + apply Z.mod_small. pose proof (aw_size _ _ Hw). lia.
    + rewrite Hl. unfold BSIZE, NINDIRECT in *. lia.
  - rewrite get_put_le_ne; [done| |lia]. rewrite Hl. unfold BSIZE, NINDIRECT in *. lia.
Qed.

Lemma owned_grow_ind x : owned bl2 d x <-> owned bl d x \/ x = b.
Proof.
  pose proof (b_pos _ _ _ Hw Hb Hfree) as Hp. unfold owned. split.
  - intros [Hx [Ho|(bn & Hbn & Ho)]]; [auto|].
    rewrite addr_grow_ind in Ho by done. case_decide; [by right|]. left. eauto.
  - intros [[Hx Ho] | ->].
    + split; [done|]. destruct Ho as [Ho |(bn & Hbn & <-)]; [by left|].
      right. exists bn. split; [done|]. rewrite addr_grow_ind by done. case_decide as E; [|done].
      by subst.
    + split; [lia|]. right. exists (NDIRECT + j)%nat.
      assert (NDIRECT + j < NBLOCKS)%nat by (unfold NBLOCKS, NDIRECT, NINDIRECT in *; lia).
      split; [done|]. by rewrite addr_grow_ind, decide_True.
Qed.

Lemma bl2_other x : owned bl d x -> x <> ind_of d -> bl2 !! x = bl !! x.
Proof. intros Hx Hne. rewrite lookup_insert_ne by done. by eapply owned_alloc. Qed.

Lemma alloc_wf_grow_ind : alloc_wf sb bl2.
Proof.
  apply alloc_wf_insert; [by apply alloc_wf_alloc|apply ind_data|apply ind_block_ok].
Qed.

Lemma used_grow_ind x : 0 <= x < sb_size sb ->
  used sb bl2 x = if decide (x = b) then true else used sb bl x.
Proof.
  intros Hx. rewrite used_insert; [|by apply alloc_wf_alloc|apply ind_data|done].
  destruct (aw_free _ _ Hw _ Hb Hfree) as (_ & ? & _). by apply used_alloc.
Qed.

Lemma inode_wf_grow_ind : inode_wf sb bl2 d.
Proof.
  pose proof (b_pos _ _ _ Hw Hb Hfree) as Hp.
  assert (Hnb : forall a, owned bl d a -> a <> b) by (intros a; by eapply owned_ne_new).
  assert (Hna : forall bn, (bn < NBLOCKS)%nat -> addr_of bl d bn <> b).
  { intros bn Hbn E. eapply (Hnb b); [|done]. split; [lia|right; eauto]. }
  pose proof (alloc_wf_alloc _ _ Hw _ Hb Hfree) as Hw1.
  constructor.
  - apply Hi.
  - intros a Ha. apply data_blk_insert; [done|apply ind_data|].
    apply owned_grow_ind in Ha as [Ha | ->].
    + by apply old_data_blk, (iw_data _ _ _ Hi).
    + by eapply new_data_blk.
  - intros bn bn' H1 H2. rewrite !addr_grow_ind by done. repeat case_decide.
    + intros _ _. congruence.
    + intros E. by destruct (Hna bn' H2).
    + intros E. by destruct (Hna bn H1).
    + by apply (iw_inj _ _ _ Hi).
  - intros bn Hbn. rewrite addr_grow_ind by done. case_decide.
    + intros _ E. by apply (Hnb (ind_of d)); [apply ind_owned|].
    + by apply (iw_ind _ _ _ Hi).
Qed.

Lemma evolves_grow_ind : evolves sb bl d bl2 d.
Proof.
  constructor.
  - intros bn Hbn Hne. rewrite addr_grow_ind by done. case_decide as E; [|done]. by subst.
  - intros x Hx Ho. rewrite lookup_insert_ne.
    + apply alloc_blocks_other; try done. intros ->. apply Ho, owned_grow_ind. by right.
    + intros <-. apply Ho, owned_grow_ind. left. by apply ind_owned.
  - intros x [Ho | ->]%owned_grow_ind; [by left|right]. by apply elem_of_free_set.
  - intros x Hx Hu. rewrite used_grow_ind by done. by case_decide.
  - intros x Ho. apply owned_grow_ind. by left.
  - by destruct d.
Qed.

Lemma file_grow_ind bn : (bn < NBLOCKS)%nat -> file_block bl2 d bn = file_block bl d bn.
Proof.
  intros Hbn. pose proof (b_pos _ _ _ Hw Hb Hfree) as Hp. unfold file_block.
  rewrite addr_grow_ind by done. case_decide as E.
  - subst. rewrite Hold, Z.eqb_refl. destruct (Z.eqb_spec b 0); [lia|].
    assert (b <> ind_of d).
    { intros Eb. eapply (owned_ne_new sb v d b Hi Hfree (ind_of d)); [by apply ind_owned|done]. }
    unfold block_of. rewrite lookup_insert_ne by done. by rewrite (new_some sb v b).
  - destruct (Z.eqb_spec (addr_of bl d bn) 0) as [|Hne]; [done|]. unfold block_of.
    rewrite bl2_other; [done| |by apply (iw_ind _ _ _ Hi)]. split; [done|right; eauto].
Qed.

Lemma free_grow_ind : size (free_set sb bl) = S (size (free_set sb bl2)).
Proof.
  rewrite (size_free_alloc sb v b Hw Hb Hfree). do 2 f_equal. apply set_eq. intros x.
  rewrite !elem_of_free_set. pose proof (alloc_wf_alloc _ _ Hw _ Hb Hfree) as Hw1.
  split; intros [Hx Hu]; (split; [done|]); rewrite used_insert in *; try done; apply ind_data.
Qed.
End grow_ind.

(** The room that is left after allocating an entry of the indirect block. *)
Lemma avail_upd_ind sb v n b x d :
  alloc_wf sb (lv_blocks v) -> 0 <= b < sb_size sb ->
  avail sb v (S (S n)) \/ (avail sb v (S n) /\ x ∈ lv_logged v) ->
  can_log (l_alloc sb b v) x /\
  avail sb (l_upd x d (l_alloc sb b v)) n.
Proof.
  intros Hw Hb [Ha|[Ha Hx]].
  - apply avail_any. by eapply avail_alloc.
  - assert (Hx' : x ∈ lv_logged (l_alloc sb b v)) by (simpl; set_solver).
    split; [split; [apply Ha|by left]|]. apply avail_logged; [done|]. by eapply avail_alloc.
Qed.

(** ** [bmap] *)

(** What [bmap] achieves: block [bn] is mapped to [a], the rest is as it was.
    It needs room for [n + 2] blocks and leaves room for [n], or for one more
    if the block was there. *)
Record bmapped (sb : superblock) (v : lview) (d : dinode) (bn n : nat) (a : Z)
    (v' : lview) (d' : dinode) : Prop := {
  bm_addr : addr_of (lv_blocks v') d' bn = a;
  bm_nz : a <> 0;
  bm_keep : addr_of (lv_blocks v) d bn <> 0 -> v' = v /\ d' = d;
  bm_alloc : alloc_wf sb (lv_blocks v');
  bm_wf : inode_wf sb (lv_blocks v') d';
  bm_ev : evolves sb (lv_blocks v) d (lv_blocks v') d';
  bm_file : forall bn', (bn' < NBLOCKS)%nat ->
    file_block (lv_blocks v') d' bn' = file_block (lv_blocks v) d bn';
  bm_held : lv_held v' = lv_held v;
  bm_pend : lv_pend v' = lv_pend v;
  bm_avail : avail sb v' (S n) \/ (avail sb v' n /\ a ∈ lv_logged v');
  bm_free : (size (free_set sb (lv_blocks v)) <= size (free_set sb (lv_blocks v')) + 2)%nat }.

Lemma bmapped_present sb v d bn n :
  alloc_wf sb (lv_blocks v) -> inode_wf sb (lv_blocks v) d -> avail sb v (S n) ->
  addr_of (lv_blocks v) d bn <> 0 -> bmapped sb v d bn n (addr_of (lv_blocks v) d bn) v d.
Proof. intros. constructor; auto using evolves_refl with lia. Qed.

Lemma bmapped_grow_ind sb v d b j n :
  alloc_wf sb (lv_blocks v) -> inode_wf sb (lv_blocks v) d -> 0 <= b < sb_size sb ->
  used sb (lv_blocks v) b = false -> ind_of d <> 0 -> (j < NINDIRECT)%nat ->
  addr_of (lv_blocks v) d (NDIRECT + j) = 0 ->
  avail sb (l_upd (ind_of d) (ind_block v d b j) (l_alloc sb b v)) n ->
  bmapped sb v d (NDIRECT + j) n b
    (l_upd (ind_of d) (ind_block v d b j) (l_alloc sb b v)) d.
Proof.
  intros Hw Hi Hb Hu Hind Hj Hold Ha. pose proof (b_pos _ _ _ Hw Hb Hu).
  constructor; cbn [lv_blocks lv_held lv_pend lv_logged l_upd]; try done.
  - rewrite (addr_grow_ind sb v d b j) by (done || (unfold NBLOCKS, NDIRECT, NINDIRECT in *; lia)).
    by rewrite decide_True.
  - lia.
  - by apply alloc_wf_grow_ind.
  - by apply inode_wf_grow_ind.
  - by apply evolves_grow_ind.
  - intros bn' Hbn'. by apply (file_grow_ind sb).
  - right. split; [done|]. simpl. set_solver.
  - rewrite (free_grow_ind sb v d b j Hw Hi Hb Hu Hind). lia.
Qed.

Lemma bmapped_set_addr sb v d b k n :
  alloc_wf sb (lv_blocks v) -> inode_wf sb (lv_blocks v) d -> 0 <= b < sb_size sb ->
  used sb (lv_blocks v) b = false -> (k < NDIRECT)%nat -> d_addrs d !! k = Some 0 ->
  avail sb v (S (S n)) ->
  bmapped sb v d k n b (l_alloc sb b v) (set_addr k b d).
Proof.
  intros Hw Hi Hb Hu Hk Hold Ha. pose proof (b_pos _ _ _ Hw Hb Hu).
  assert (k <= NDIRECT)%nat by lia.
  constructor; try done.
  - rewrite (addr_set_addr sb v d b) by done. by rewrite decide_True.
  - lia.
  - unfold addr_of. rewrite Hold. destruct (Nat.ltb_spec k NDIRECT); [done|lia].
  - by apply alloc_wf_alloc.
  - by apply inode_wf_set_addr.
  - by apply evolves_set_addr.
  - intros bn' Hbn'. by apply (file_set_addr sb).
  - left. by eapply avail_alloc.
  - rewrite (size_free_alloc sb v b Hw Hb Hu). lia.
Qed.

(** Allocating the indirect block, then an entry of it. *)
Lemma bmapped_after_ind sb v d b bn n a v' :
  alloc_wf sb (lv_blocks v) -> inode_wf sb (lv_blocks v) d -> 0 <= b < sb_size sb ->
  used sb (lv_blocks v) b = false -> d_addrs d !! NDIRECT = Some 0 ->
  (NDIRECT <= bn)%nat -> bmapped sb (l_alloc sb b v) (set_addr NDIRECT b d) bn n a v' (set_addr NDIRECT b d) ->
  (size (free_set sb (lv_blocks (l_alloc sb b v))) <= size (free_set sb (lv_blocks v')) + 1)%nat ->
  bmapped sb v d bn n a v' (set_addr NDIRECT b d).
Proof.
  intros Hw Hi Hb Hu Hold Hbn [] Hf. assert (NDIRECT <= NDIRECT)%nat by lia.
  constructor; try done.
  - unfold addr_of, ind_of. rewrite Hold. by destruct (Nat.ltb_spec bn NDIRECT); [lia|].
  - eapply evolves_trans; [|done]. by apply evolves_set_addr.
  - intros bn' Hbn'. rewrite bm_file0 by done. by apply (file_set_addr sb).
  - rewrite (size_free_alloc sb v b Hw Hb Hu). lia.
Qed.

Section bmap.
Context {B D : Type} `{BlockLayer B} (p : proc).
Implicit Types (s : fs B D) (v : lview).

Definition with_d (ip : nat) (d : dinode) (s : fs B D) : fs B D :=
  set_inodes (alter (i_with_d d) ip (fs_inode s)) s.

Lemma with_d_id s ip i : fs_inode s !! ip = Some i -> with_d ip (i_d i) s = s.
Proof.
  intros Hi. unfold with_d. replace (alter (i_with_d (i_d i)) ip (fs_inode s)) with (fs_inode s);
    [by destruct s|].
  apply list_eq. intros j. destruct (decide (j = ip)) as [->|].
  - rewrite list_lookup_alter_eq, Hi. simpl. by destruct i.
  - by rewrite list_lookup_alter_ne.
Qed.

Lemma with_d_lookup s ip i d : fs_inode s !! ip = Some i ->
  fs_inode (with_d ip d s) !! ip = Some (i_with_d d i).
Proof. intros Hi. unfold with_d. simpl. by rewrite list_lookup_alter_eq, Hi. Qed.

Lemma with_d_twice s ip d d' : with_d ip d' (with_d ip d s) = with_d ip d' s.
Proof.
  destruct s as [bk sb l dv]. unfold with_d, set_inodes. cbn [fs_inode fs_blk fs_sb fs_dev].
  f_equal. apply list_eq. intros j. destruct (decide (j = ip)) as [->|].
  - rewrite !list_lookup_alter_eq. by destruct (l !! ip).
  - by rewrite !list_lookup_alter_ne.
Qed.

Lemma wp_upd_d s ip i f (Q : unit -> fs B D -> Prop) :
  fs_inode s !! ip = Some i -> Q tt (with_d ip (f (i_d i)) s) -> wp (upd_d ip f) Q s.
Proof.
  intros Hi HQ. unfold upd_d, upd_inode. wp_step. unfold with_d in HQ.
  replace (alter (fun i => i_with_d (f (i_d i)) i) ip (fs_inode s))
    with (alter (i_with_d (f (i_d i))) ip (fs_inode s)); [done|].
  apply list_eq. intros j. destruct (decide (j = ip)) as [->|].
  - rewrite !list_lookup_alter_eq, Hi. done.
  - by rewrite !list_lookup_alter_ne.
Qed.

Lemma wp_read_inode s ip i (Q : inode -> fs B D -> Prop) :
  fs_inode s !! ip = Some i -> Q i s -> wp (read_inode ip) Q s.
Proof. intros Hi HQ. unfold read_inode. wp_step. wp_step. by eapply wp_deref. Qed.

Lemma free_exists sb bl : (1 <= size (free_set sb bl))%nat ->
  exists b, 0 <= b < sb_size sb /\ used sb bl b = false.
Proof.
  intros Hf. destruct (set_choose_L (free_set sb bl)) as [b Hb].
  - intros E. rewrite E, size_empty in Hf. lia.
  - exists b. by apply elem_of_free_set.
Qed.

(** Allocate a block and make pointer [k] of the inode point to it. *)
Lemma bmap_set_addr s v ip i (k : nat) n (Q : Z -> fs B D -> Prop) :
  let sb := fs_sb s in
  fsrep p s v -> alloc_wf sb (lv_blocks v) -> inode_wf sb (lv_blocks v) (i_d i) ->
  fs_inode s !! ip = Some i -> alloc_ready sb v -> avail sb v (S n) ->
  (1 <= size (free_set sb (lv_blocks v)))%nat -> (k <= NDIRECT)%nat ->
  d_addrs (i_d i) !! k = Some 0 ->
  (forall b bk, 0 <= b < sb_size sb -> used sb (lv_blocks v) b = false ->
     fsrep p (set_blk bk (with_d ip (set_addr k b (i_d i)) s)) (l_alloc sb b v) ->
     Q b (set_blk bk (with_d ip (set_addr k b (i_d i)) s))) ->
  wp (let* addr := balloc p ROOTDEV in
      do* upd_d ip (fun d => d_with_addrs (<[k := addr]> (d_addrs d)) d) in
      ret addr) Q s.
Proof.
  intros sb Hs Hw Hi Hip Hr Ha Hf Hk Hold HQ. wp_step.
  eapply (balloc_spec p s v); try done.
  { eapply avail_mono; [done|lia]. }
  { by apply free_exists. }
  intros b bk Hb Hu _ Hbk. wp_step. eapply wp_upd_d; [done|]. wp_step.
  by apply (HQ b bk).
Qed.
(** The part of [bmap] that works on the indirect block. *)
Lemma bmap_entry s v ip i (j n : nat) (Q : Z -> fs B D -> Prop) :
  let sb := fs_sb s in
  let d := i_d i in
  fsrep p s v -> alloc_wf sb (lv_blocks v) -> inode_wf sb (lv_blocks v) d ->
  fs_inode s !! ip = Some i -> lv_held v = ∅ -> lv_pend v = ∅ -> ind_of d <> 0 ->
  (j < NINDIRECT)%nat ->
  avail sb v (S (S n)) \/ (avail sb v (S n) /\ ind_of d ∈ lv_logged v) ->
  (1 <= size (free_set sb (lv_blocks v)))%nat ->
  (forall a v' bk, fsrep p (set_blk bk s) v' -> bmapped sb v d (NDIRECT + j) n a v' d ->
     (size (free_set sb (lv_blocks v)) <= size (free_set sb (lv_blocks v')) + 1)%nat ->
     Q a (set_blk bk s)) ->
  wp (let* bp := fbread p ROOTDEV (ind_of d) in
      let* a := fbdata bp in
      let off := (4 * j)%nat in
      let* addr :=
        if get_le 4 off a =? 0 then
          let* addr := balloc p ROOTDEV in
          let* a := fbdata bp in
          do* fbput bp (put_le 4 off addr a) in
          do* flog_write bp in
          ret addr
        else ret (get_le 4 off a) in
      do* fbrelse p bp in
      ret addr) Q s.
Proof.
  intros sb d Hs Hw Hi Hip Hh Hp Hind Hj Ha Hf HQ.
  destruct (ind_some sb v d Hw Hi Hind) as [Hsome Hok].
  assert (Hent : addr_of (lv_blocks v) d (NDIRECT + j) = get_le 4 (4 * j) (block_of (lv_blocks v) (ind_of d))).
  { unfold addr_of. destruct (Nat.ltb_spec (NDIRECT + j) NDIRECT); [lia|].
    destruct (Z.eqb_spec (ind_of d) 0); [done|]. do 3 f_equal. lia. }
  assert (Ha1 : avail sb v (S n)).
  { destruct Ha as [Ha|[Ha _]]; eapply avail_mono; try done; lia. }
  wp_step. eapply fwp_bread; [done|done|by rewrite Hh|rewrite Hh; apply Nat.le_0_l|].
  intros bp b1 Hb1. wp_step. eapply fwp_bdata; [done|done|]. cbv zeta. wp_step.
  rewrite <- Hent. destruct (Z.eqb_spec (addr_of (lv_blocks v) d (NDIRECT + j)) 0) as [E|E].
  - wp_step. eapply (balloc_spec p (set_blk b1 s)); [exact Hb1|done| | | |].
    { split; [done|]. simpl. rewrite Hh. split.
      - rewrite map_size_insert, lookup_empty. simpl. done.
      - intros x k [[<- _]|[_ Hx]]%lookup_insert_Some; [|by rewrite lookup_empty in Hx].
        destruct (ind_data sb v d Hi Hind). auto. }
    { exact (avail_mono sb v (S n) 1 Ha1 ltac:(lia)). }
    { by apply free_exists. }
    intros b b2 Hb Hu _ Hb2. change (fs_sb (set_blk b1 s)) with sb in *.
    assert (Hcur : lv_blocks (l_alloc sb b v) !! ind_of d = Some (block_of (lv_blocks v) (ind_of d))).
    { rewrite <- Hsome. eapply owned_alloc; try done. by apply ind_owned. }
    wp_step. eapply (fwp_bdata p (set_blk b2 s) (l_alloc sb b v)); [exact Hb2|exact Hcur|].
    destruct (avail_upd_ind sb v n b (ind_of d) (ind_block v d b j) Hw Hb Ha) as [Hroom Hav].
    eapply (fwp_put_log p (set_blk b2 s) (l_alloc sb b v) (ind_of d)); [exact Hb2|done| |done|].
    { by eapply ind_block_ok. }
    intros b3 Hb3. wp_step. wp_step.
    eapply (fwp_brelse p (set_blk b3 s)); [exact Hb3|by simpl; rewrite Hh|done|].
    intros b4 Hb4. wp_step. apply (HQ b (l_upd (ind_of d) (ind_block v d b j) (l_alloc sb b v)) b4 Hb4).
    + by apply bmapped_grow_ind.
    + cbn [lv_blocks l_upd]. rewrite (free_grow_ind sb v d b j Hw Hi Hb Hu Hind). lia.
  - wp_step. wp_step. eapply fwp_brelse; [done|by rewrite Hh|done|].
    intros b2 Hb2. wp_step. apply (HQ _ v b2 Hb2); [by apply bmapped_present|lia].
Qed.
Lemma empty_ready sb v : lv_held v = ∅ -> lv_pend v = ∅ -> alloc_ready sb v.
Proof.
  intros Hh Hp. split; [done|]. rewrite Hh. split; [apply Nat.le_0_l|].
  intros x i Hx. by rewrite lookup_empty in Hx.
Qed.

Lemma bmap_mapped s v ip i (bn : nat) (Q : Z -> fs B D -> Prop) :
  let sb := fs_sb s in
  let d := i_d i in
  fsrep p s v -> alloc_wf sb (lv_blocks v) -> inode_wf sb (lv_blocks v) d ->
  fs_inode s !! ip = Some i -> i_dev i = ROOTDEV -> lv_held v = ∅ -> lv_pend v = ∅ ->
  (bn < NBLOCKS)%nat -> addr_of (lv_blocks v) d bn <> 0 ->
  (forall bk, fsrep p (set_blk bk s) v -> Q (addr_of (lv_blocks v) d bn) (set_blk bk s)) ->
  wp (bmap p ip (Z.of_nat bn)) Q s.
Proof.
  intros sb d Hs Hw Hi Hip Hdev Hh Hp Hbn Hne HQ.
  unfold bmap. wp_step. eapply wp_read_inode; [done|]. rewrite Hdev. cbv zeta.
  assert (Hs' : set_blk (fs_blk s) s = s) by (by destruct s).
  pose proof Hne as Hne'. unfold addr_of in Hne', HQ.
  destruct (Z.ltb_spec (Z.of_nat bn) (Z.of_nat NDIRECT)), (Nat.ltb_spec bn NDIRECT); try lia.
  - rewrite Nat2Z.id. fold d. destruct (Z.eqb_spec (default 0 (d_addrs d !! bn)) 0); [done|].
    wp_step. rewrite <- Hs'. apply HQ. by rewrite Hs'.
  - destruct (Z.ltb_spec (Z.of_nat bn - Z.of_nat NDIRECT) (Z.of_nat NINDIRECT));
      [|unfold NBLOCKS, NDIRECT, NINDIRECT in *; lia].
    replace (Z.to_nat (Z.of_nat bn - Z.of_nat NDIRECT)) with (bn - NDIRECT)%nat by lia.
    fold (ind_of (i_d i)). fold d. destruct (Z.eqb_spec (ind_of d) 0) as [|Hind]; [done|].
    destruct (ind_some sb v d Hw Hi Hind) as [Hsome Hok].
    wp_step. wp_step. wp_step. eapply fwp_bread; [done|done|by rewrite Hh|rewrite Hh; apply Nat.le_0_l|].
    intros bp b1 Hb1. wp_step. eapply fwp_bdata; [done|done|]. wp_step.
    destruct (Z.eqb_spec (get_le 4 (4 * (bn - NDIRECT)) (block_of (lv_blocks v) (ind_of d))) 0); [done|].
    wp_step. wp_step. eapply fwp_brelse; [done|by rewrite Hh|done|].
    intros b2 Hb2. wp_step. by apply (HQ b2).
Qed.

Lemma addr_lookup sb bl d k : inode_wf sb bl d -> (k <= NDIRECT)%nat ->
  d_addrs d !! k = Some (default 0 (d_addrs d !! k)).
Proof.
  intros Hi Hk. destruct (lookup_lt_is_Some_2 (d_addrs d) k) as [x Hx]; [|by rewrite Hx].
  rewrite (iw_len _ _ _ Hi). lia.
Qed.

Section spec.
Context (s : fs B D) (v : lview) (ip : nat) (i : inode) (bn n : nat).
Context (Q : Z -> fs B D -> Prop).
Abbreviation sb := (fs_sb s).
Abbreviation d := (i_d i).
Hypothesis Hs : fsrep p s v.
Hypothesis Hw : alloc_wf sb (lv_blocks v).
Hypothesis Hi : inode_wf sb (lv_blocks v) d.
Hypothesis Hip : fs_inode s !! ip = Some i.
Hypothesis Hdev : i_dev i = ROOTDEV.
Hypothesis Hh : lv_held v = ∅.
Hypothesis Hp : lv_pend v = ∅.
Hypothesis Ha : avail sb v (S (S n)).
Hypothesis Hf : (2 <= size (free_set sb (lv_blocks v)))%nat.
Hypothesis HQ : forall a v' d' bk,
  fsrep p (set_blk bk (with_d ip d' s)) v' -> bmapped sb v d bn n a v' d' ->
  Q a (set_blk bk (with_d ip d' s)).

Lemma bmap_now a v' bk :
  fsrep p (set_blk bk s) v' -> bmapped sb v d bn n a v' d -> Q a (set_blk bk s).
Proof.
  intros Hbk Hm. rewrite <- (with_d_id s ip i Hip) in Hbk |- *. by apply (HQ a v').
Qed.

Lemma bmap_direct : (bn < NDIRECT)%nat -> wp (bmap p ip (Z.of_nat bn)) Q s.
Proof.
  intros Hbn. unfold bmap. wp_step. eapply wp_read_inode; [done|]. rewrite Hdev. cbv zeta.
  destruct (Z.ltb_spec (Z.of_nat bn) (Z.of_nat NDIRECT)) as [Hlt|Hge]; [|lia].
  rewrite Nat2Z.id. pose proof (addr_lookup _ _ _ bn Hi ltac:(lia)) as Hat.
  assert (Hadd : addr_of (lv_blocks v) d bn = default 0 (d_addrs d !! bn)).
  { unfold addr_of. by destruct (Nat.ltb_spec bn NDIRECT); [|lia]. }
  rewrite <- Hadd in Hat |- *. destruct (Z.eqb_spec (addr_of (lv_blocks v) d bn) 0) as [E|E].
  - rewrite E in Hat. eapply (bmap_set_addr s v ip i bn (S n)); try done; try lia.
    { by apply empty_ready. }
    intros b bk Hb Hu Hbk. apply (HQ b _ _ _ Hbk). by apply bmapped_set_addr.
  - wp_step. assert (Hs' : set_blk (fs_blk s) s = s) by (by destruct s). rewrite <- Hs'.
    apply (bmap_now _ v); [by rewrite Hs'|]. apply bmapped_present; try done.
    eapply avail_mono; [done|lia].
Qed.

Lemma bmap_indirect : (NDIRECT <= bn < NBLOCKS)%nat -> wp (bmap p ip (Z.of_nat bn)) Q s.
Proof.
  intros [Hge Hlt]. unfold bmap. wp_step. eapply wp_read_inode; [done|]. rewrite Hdev. cbv zeta.
  destruct (Z.ltb_spec (Z.of_nat bn) (Z.of_nat NDIRECT)); [lia|].
  assert (Hj : (bn - NDIRECT < NINDIRECT)%nat) by (unfold NBLOCKS, NDIRECT, NINDIRECT in *; lia).
  destruct (Z.ltb_spec (Z.of_nat bn - Z.of_nat NDIRECT) (Z.of_nat NINDIRECT)); [|lia].
  replace (Z.to_nat (Z.of_nat bn - Z.of_nat NDIRECT)) with (bn - NDIRECT)%nat by lia.
  assert (Ebn : bn = (NDIRECT + (bn - NDIRECT))%nat) by lia.
  pose proof (addr_lookup _ _ _ NDIRECT Hi ltac:(lia)) as Hat. fold (ind_of d) in Hat |- *.
  destruct (Z.eqb_spec (ind_of d) 0) as [E|E].
  - rewrite E in Hat. wp_step.
    eapply (bmap_set_addr s v ip i NDIRECT (S n)); try done; try lia; [by apply empty_ready|].
    intros b bk Hb Hu Hbk. set (d1 := set_addr NDIRECT b d) in *.
    assert (Hk : (NDIRECT <= NDIRECT)%nat) by lia.
    assert (Eind : ind_of d1 = b).
    { unfold d1. rewrite (ind_set_addr sb v d b Hi NDIRECT Hk Hat). by rewrite decide_True. }
    pose proof (b_pos _ _ _ Hw Hb Hu) as Hpos. rewrite <- Eind at 1.
    apply (bmap_entry (set_blk bk (with_d ip d1 s)) (l_alloc sb b v) ip (i_with_d d1 i)
             (bn - NDIRECT) n); try done; cbn [i_d i_with_d fs_sb set_blk with_d set_inodes].
    + by apply alloc_wf_alloc.
    + by apply inode_wf_set_addr.
    + by apply with_d_lookup.
    + rewrite Eind. lia.
    + right. split; [by eapply avail_alloc|]. rewrite Eind. simpl. set_solver.
    + pose proof (size_free_alloc sb v b Hw Hb Hu). lia.
    + intros a v' bk' Hbk' Hm Hfr. apply (HQ a v' d1 bk' Hbk'). rewrite <- Ebn in Hm.
      by apply bmapped_after_ind.
  - wp_step. wp_step. eapply (bmap_entry s v ip i (bn - NDIRECT) n); try done; [by left|lia|].
    intros a v' bk Hbk Hm _. rewrite <- Ebn in Hm. by apply (bmap_now a v').
Qed.

Lemma bmap_spec : (bn < NBLOCKS)%nat -> wp (bmap p ip (Z.of_nat bn)) Q s.
Proof.
  intros. destruct (decide (bn < NDIRECT)%nat); [by apply bmap_direct|].
  apply bmap_indirect. lia.
Qed.
End spec.
End bmap.

(** ** Inodes on disk *)

(** The disk inode with number [inum]. *)
Definition dino (sb : superblock) (bl : gmap Z (list Z)) (inum : Z) : dinode :=
  get_dinode (ino_slot inum) (block_of bl (IBLOCK inum sb)).

Lemma dino_cong sb bl bl' inum :
  bl' !! IBLOCK inum sb = bl !! IBLOCK inum sb -> dino sb bl' inum = dino sb bl inum.
Proof. intros E. unfold dino, block_of. by rewrite E. Qed.

Lemma ino_slot_bound inum : (ino_slot inum < 2)%nat.
Proof.
  unfold ino_slot. assert (0 <= inum mod IPB < IPB) by (by apply Z.mod_pos_bound).
  unfold IPB in *. lia.
Qed.

Lemma IBLOCK_iset sb bl inum :
  alloc_wf sb bl -> 0 <= inum < sb_ninodes sb -> IBLOCK inum sb ∈ iset sb.
Proof.
  intros Hw Hr. destruct (aw_inodes _ _ Hw) as (H1 & H2 & H3).
  assert (0 <= inum / IPB) by (apply Z.div_pos; [lia|done]).
  assert (inum / IPB <= sb_ninodes sb / IPB) by (apply Z.div_le_mono; [done|lia]).
  assert (inum / IPB <= inum) by (apply Z.div_le_upper_bound; unfold IPB; lia).
  unfold IBLOCK, iset. rewrite u32_small by lia. rewrite elem_of_list_to_set, elem_of_seqZ. lia.
Qed.

Lemma same_ino sb bl i j :
  alloc_wf sb bl -> 0 <= i < sb_ninodes sb -> 0 <= j < sb_ninodes sb ->
  IBLOCK i sb = IBLOCK j sb -> ino_slot i = ino_slot j -> i = j.
Proof.
  intros Hw Hi Hj. destruct (aw_inodes _ _ Hw) as (H1 & H2 & H3). unfold IBLOCK, ino_slot.
  assert (forall k, 0 <= k < sb_ninodes sb -> 0 <= k / IPB <= k) as Hd.
  { intros k Hk. split; [apply Z.div_pos; [lia|done]|].
    apply Z.div_le_upper_bound; unfold IPB; lia. }
  pose proof (Hd i Hi). pose proof (Hd j Hj). rewrite !u32_small by lia. intros E1 E2.
  assert (0 <= i mod IPB < IPB /\ 0 <= j mod IPB < IPB) as [? ?]
    by (split; by apply Z.mod_pos_bound).
  rewrite (Z.div_mod i IPB), (Z.div_mod j IPB) by done. f_equal; [f_equal|]; lia.
Qed.

(** Changes to blocks the inode does not own, outside the free map. *)
Section other_block.
Context (sb : superblock) (bl : gmap Z (list Z)) (d : dinode) (x : Z) (y : list Z).
Hypothesis Hw : alloc_wf sb bl.
Hypothesis Hi : inode_wf sb bl d.
Hypothesis Hx : ~ owned bl d x.
Hypothesis Hbm : x ∉ bmset sb.

Lemma addr_other bn : addr_of (<[x := y]> bl) d bn = addr_of bl d bn.
Proof.
  apply addr_of_cong. intros Hind. rewrite lookup_insert_ne; [done|].
  intros ->. apply Hx. split; [done|by left].
Qed.

Lemma owned_other a : owned (<[x := y]> bl) d a <-> owned bl d a.
Proof. unfold owned. by setoid_rewrite addr_other. Qed.

Lemma inode_wf_other : inode_wf sb (<[x := y]> bl) d.
Proof.
  constructor.
  - apply Hi.
  - intros a Ha%owned_other. apply data_blk_insert; [done|done|]. by apply (iw_data _ _ _ Hi).
  - intros k k' ? ?. rewrite !addr_other. by apply (iw_inj _ _ _ Hi).
  - intros k ?. rewrite addr_other. by apply (iw_ind _ _ _ Hi).
Qed.

Lemma file_other bn : (bn < NBLOCKS)%nat -> file_block (<[x := y]> bl) d bn = file_block bl d bn.
Proof.
  intros Hbn. unfold file_block. rewrite addr_other.
  destruct (Z.eqb_spec (addr_of bl d bn) 0); [done|]. unfold block_of.
  rewrite lookup_insert_ne; [done|]. intros ->. apply Hx. split; [done|right; eauto].
Qed.
End other_block.

(** An inode none of whose blocks changes. *)
Lemma inode_kept sb bl bl' d :
  inode_wf sb bl d -> (forall x, owned bl d x -> bl' !! x = bl !! x) ->
  (forall x, 0 <= x < sb_size sb -> used sb bl x = true -> used sb bl' x = true) ->
  inode_wf sb bl' d /\ (forall bn, addr_of bl' d bn = addr_of bl d bn) /\
  forall bn, (bn < NBLOCKS)%nat -> file_block bl' d bn = file_block bl d bn.
Proof.
  intros Hi Hsame Hused.
  assert (Haddr : forall bn, addr_of bl' d bn = addr_of bl d bn).
  { intros bn. apply addr_of_cong. intros. apply Hsame. split; [done|by left]. }
  split_and!; [|done|].
  - constructor; try (setoid_rewrite Haddr); try apply Hi.
    intros a Ha. assert (Ho : owned bl d a) by (unfold owned in *; by setoid_rewrite Haddr in Ha).
    pose proof (iw_data _ _ _ Hi a Ho) as []. constructor; try done.
    + apply Hused; [lia|done].
    + by rewrite Hsame.
  - intros bn Hbn. unfold file_block. rewrite Haddr.
    destruct (Z.eqb_spec (addr_of bl d bn) 0); [done|]. unfold block_of.
    rewrite Hsame; [done|]. split; [done|right; eauto].
Qed.

(** The inode blocks are not data blocks. *)
Lemma iblock_not_owned sb bl d x : inode_wf sb bl d -> x ∈ iset sb -> ~ owned bl d x.
Proof. intros Hi Hx Ho. by apply (db_ino _ _ _ (iw_data _ _ _ Hi _ Ho)). Qed.

(** Writing one disk inode leaves the others as they are. *)
Lemma dino_put sb bl i d inum :
  alloc_wf sb bl -> dinode_ok d -> 0 <= i < sb_ninodes sb -> 0 <= inum < sb_ninodes sb ->
  dino sb (<[IBLOCK i sb := put_dinode (ino_slot i) d (block_of bl (IBLOCK i sb))]> bl) inum =
    if decide (inum = i) then d else dino sb bl inum.
Proof.
  intros Hw Hok Hr Hr'. unfold dino. destruct (aw_ib _ _ Hw _ (IBLOCK_iset sb _ _ Hw Hr)) as [[x Hx] _].
  assert (Hl : length (block_of bl (IBLOCK i sb)) = Z.to_nat BSIZE).
  { rewrite (block_of_some _ _ _ Hx). by apply (aw_ok _ _ Hw _ _ Hx). }
  destruct (decide (IBLOCK inum sb = IBLOCK i sb)) as [E|E].
  - rewrite E, (block_of_some _ _ _ (lookup_insert_eq _ _ _)). case_decide as En.
    + subst. apply get_put_dinode_same; [done|done|apply ino_slot_bound].
    + apply get_put_dinode_ne; [done|done|apply ino_slot_bound|]. intros Es. apply En.
      by eapply same_ino.
  - rewrite decide_False by (intros ->; done). unfold block_of. by rewrite lookup_insert_ne.
Qed.

Section iupdate.
Context {B D : Type} `{BlockLayer B} (p : proc).
Implicit Types (s : fs B D) (v : lview).

(** The view after the disk inode of [i] has been updated. *)
Definition l_iupdate (sb : superblock) (i : inode) (v : lview) : lview :=
  let x := IBLOCK (i_inum i) sb in
  l_upd x (put_dinode (ino_slot (i_inum i)) (i_d i) (block_of (lv_blocks v) x)) v.

Lemma iupdate_spec s v ip i (Q : unit -> fs B D -> Prop) :
  let sb := fs_sb s in
  fsrep p s v -> alloc_wf sb (lv_blocks v) -> fs_inode s !! ip = Some i -> i_dev i = ROOTDEV ->
  dinode_ok (i_d i) -> 0 <= i_inum i < sb_ninodes sb -> lv_held v = ∅ -> lv_pend v = ∅ ->
  can_log v (IBLOCK (i_inum i) sb) ->
  (forall bk, fsrep p (set_blk bk s) (l_iupdate sb i v) -> Q tt (set_blk bk s)) ->
  wp (iupdate p ip) Q s.
Proof.
  intros sb Hs Hw Hip Hdev Hok Hr Hh Hp Hc HQ. unfold iupdate. wp_step.
  eapply wp_read_inode; [done|]. wp_step. wp_step. rewrite Hdev. fold sb.
  destruct (aw_ib _ _ Hw _ (IBLOCK_iset sb _ _ Hw Hr)) as [[d Hd] _].
  wp_step. eapply fwp_bread; [done|done|by rewrite Hh|rewrite Hh; apply Nat.le_0_l|].
  intros bp b1 Hb1. wp_step. eapply fwp_bdata; [done|done|].
  eapply fwp_update_last; [done|by rewrite Hh|done| |done|].
  - apply put_dinode_ok; [done|by eapply (aw_ok _ _ Hw)|apply ino_slot_bound].
  - intros b2 Hb2. apply (HQ b2). unfold l_iupdate. by rewrite (block_of_some _ _ _ Hd).
Qed.

(** After the update the disk inode is the one in memory, other disk inodes
    are as before. *)
Lemma dino_iupdate sb i v inum :
  alloc_wf sb (lv_blocks v) -> dinode_ok (i_d i) -> 0 <= i_inum i < sb_ninodes sb ->
  0 <= inum < sb_ninodes sb ->
  dino sb (lv_blocks (l_iupdate sb i v)) inum =
    if decide (inum = i_inum i) then i_d i else dino sb (lv_blocks v) inum.
Proof.
  intros Hw Hok Hr Hr'. by apply dino_put.
Qed.
End iupdate.
