(* ===== verification/FsFile.v ===== *)
(** * Inode contents

    [readi], [writei] and [itrunc] of [kernel/fs.c].  Abstractly a file is an
    array of [MAXFILE*BSIZE] bytes ([fread] reads a range of it); [readi]
    returns a range of that array, [writei] overwrites one and changes nothing
    else, neither in this file nor in any other block in use. *)

From S2P Require Import Prelude SleepLock Bio Layout Log BlockLayer CString ProcDefs Fs FsAlloc.
From S2P Require Import FsInode.

Definition BSZ : nat := 512.

(** [n] bytes of the file from offset [off] on. *)
Definition fbyte (bl : gmap Z (list Z)) (d : dinode) (o : nat) : Z :=
  byte_at (file_block bl d (o / BSZ)) (o mod BSZ).
Definition fread (bl : gmap Z (list Z)) (d : dinode) (off n : nat) : list Z :=
  fbyte bl d <$> seq off n.

Lemma length_fread bl d off n : length (fread bl d off n) = n.
Proof. unfold fread. by rewrite length_fmap, length_seq. Qed.

Lemma fread_app bl d off n n' : fread bl d off (n + n') = fread bl d off n ++ fread bl d (off + n) n'.
Proof. unfold fread. by rewrite seq_app, fmap_app. Qed.

Lemma file_block_ok sb bl d bn :
  alloc_wf sb bl -> inode_wf sb bl d -> (bn < NBLOCKS)%nat -> block_ok (file_block bl d bn).
Proof.
  intros Hw Hi Hbn. unfold file_block. destruct (Z.eqb_spec (addr_of bl d bn) 0) as [|Hne].
  - apply zero_block_ok.
  - destruct (db_some _ _ _ (iw_data _ _ _ Hi (addr_of bl d bn) (conj Hne (or_intror (ex_intro _ bn (conj Hbn eq_refl)))))) as [x Hx].
    rewrite (block_of_some _ _ _ Hx). by eapply (aw_ok _ _ Hw).
Qed.

Lemma div_mod_same off k : (off mod BSZ + k < BSZ)%nat ->
  ((off + k) / BSZ = off / BSZ /\ (off + k) mod BSZ = off mod BSZ + k)%nat.
Proof.
  intros Hk. assert (off = BSZ * (off / BSZ) + off mod BSZ)%nat as E by apply Nat.div_mod_eq.
  assert (H : (off + k = BSZ * (off / BSZ) + (off mod BSZ + k))%nat) by lia. split.
  - symmetry. by apply (Nat.div_unique _ _ _ (off mod BSZ + k)).
  - symmetry. by apply (Nat.mod_unique _ _ (off / BSZ)).
Qed.

(** A range within one block. *)
Lemma fread_block bl d off m :
  (off mod BSZ + m <= BSZ)%nat -> length (file_block bl d (off / BSZ)) = BSZ ->
  slice (off mod BSZ) m (file_block bl d (off / BSZ)) = fread bl d off m.
Proof.
  intros Hm Hl. apply list_eq. intros k. rewrite lookup_slice. unfold fread. rewrite list_lookup_fmap.
  case_decide as Hk.
  - rewrite lookup_seq_lt by done. simpl. unfold fbyte.
    destruct (div_mod_same off k) as [-> ->]; [lia|]. unfold byte_at.
    destruct (lookup_lt_is_Some_2 (file_block bl d (off / BSZ)) (off mod BSZ + k)) as [x Hx]; [lia|].
    by rewrite Hx.
  - by rewrite lookup_seq_ge by lia.
Qed.

Lemma of_nat_div_bsz off : Z.of_nat off / BSIZE = Z.of_nat (off / BSZ).
Proof. by rewrite Nat2Z.inj_div. Qed.
Lemma of_nat_mod_bsz off : Z.of_nat off mod BSIZE = Z.of_nat (off mod BSZ).
Proof. by rewrite Nat2Z.inj_mod. Qed.

(** One turn of the copy loops: [m] bytes, up to the end of the block. *)
Lemma chunk_step off n tot fuel :
  (tot < n)%nat -> (n = tot \/ (n - tot) + off mod BSZ <= S fuel * BSZ)%nat ->
  let m := Nat.min (n - tot) (BSZ - off mod BSZ) in
  (0 < m /\ m <= n - tot /\ off mod BSZ + m <= BSZ /\ off = BSZ * (off / BSZ) + off mod BSZ /\
   off / BSZ <= (off + m) / BSZ /\
   (n = tot + m \/ (n - (tot + m)) + (off + m) mod BSZ <= fuel * BSZ))%nat.
Proof.
  intros Hlt [|Hf] m; [lia|].
  assert (Hmod : (off mod BSZ < BSZ)%nat) by (by apply Nat.mod_upper_bound).
  assert (Hdm : (off = BSZ * (off / BSZ) + off mod BSZ)%nat) by apply Nat.div_mod_eq.
  split_and!; try (unfold m; lia); [by apply Nat.Div0.div_le_mono; lia|].
  destruct (decide (n = tot + m)%nat); [by left|right].
  assert (m = BSZ - off mod BSZ)%nat as E by (unfold m in *; lia).
  replace (off + m)%nat with (0 + (S (off / BSZ)) * BSZ)%nat by lia.
  rewrite Nat.Div0.mod_add. change (0 mod BSZ)%nat with 0%nat. lia.
Qed.

(** The file is mapped on [off, off + n). *)
Definition mapped (bl : gmap Z (list Z)) (d : dinode) (off n : nat) : Prop :=
  forall bn, (off / BSZ <= bn)%nat -> (BSZ * bn < off + n)%nat -> (0 < n)%nat ->
    addr_of bl d bn <> 0.

(** ** Overwriting a block of a file *)

Section write_block.
Context (sb : superblock) (bl : gmap Z (list Z)) (d : dinode) (bn : nat) (x : list Z).
Hypothesis Hw : alloc_wf sb bl.
Hypothesis Hi : inode_wf sb bl d.
Hypothesis Hbn : (bn < NBLOCKS)%nat.
Hypothesis Hne : addr_of bl d bn <> 0.
Hypothesis Hx : block_ok x.

Abbreviation a := (addr_of bl d bn).
Abbreviation bl' := (<[a := x]> bl).

Lemma block_owned : owned bl d a.
Proof. split; [done|]. right. eauto. Qed.

Lemma block_not_bm : a ∉ bmset sb.
Proof. apply (iw_data _ _ _ Hi), block_owned. Qed.

Lemma addr_write k : addr_of bl' d k = addr_of bl d k.
Proof.
  apply addr_of_cong. intros _. rewrite lookup_insert_ne; [done|]. by apply (iw_ind _ _ _ Hi).
Qed.

Lemma owned_write y : owned bl' d y <-> owned bl d y.
Proof. unfold owned. by setoid_rewrite addr_write. Qed.

Lemma alloc_wf_write : alloc_wf sb bl'.
Proof. apply alloc_wf_insert; [done|apply block_not_bm|done]. Qed.

Lemma inode_wf_write : inode_wf sb bl' d.
Proof.
  constructor.
  - apply Hi.
  - intros y Hy%owned_write. apply data_blk_insert; [done|apply block_not_bm|].
    by apply (iw_data _ _ _ Hi).
  - intros k k' ? ?. rewrite !addr_write. by apply (iw_inj _ _ _ Hi).
  - intros k ?. rewrite addr_write. by apply (iw_ind _ _ _ Hi).
Qed.

Lemma evolves_write : evolves sb bl d bl' d.
Proof.
  constructor.
  - intros k _ _. apply addr_write.
  - intros y _ Hy. rewrite lookup_insert_ne; [done|]. intros <-. apply Hy, owned_write, block_owned.
  - intros y Hy%owned_write. by left.
  - intros y Hy Hu. rewrite used_insert by (done || apply block_not_bm). done.
  - intros y Hy. by apply owned_write.
  - by destruct d.
Qed.

Lemma free_set_write : free_set sb bl' = free_set sb bl.
Proof.
  apply set_eq. intros y. rewrite !elem_of_free_set.
  split; intros [Hy Hu]; (split; [done|]);
    rewrite used_insert in * by (done || apply block_not_bm); done.
Qed.

Lemma file_write k :
  (k < NBLOCKS)%nat -> file_block bl' d k = if decide (k = bn) then x else file_block bl d k.
Proof.
  intros Hk. unfold file_block. rewrite addr_write. case_decide as E.
  - subst. destruct (Z.eqb_spec a 0); [done|]. by rewrite (block_of_some _ _ _ (lookup_insert_eq _ _ _)).
  - destruct (Z.eqb_spec (addr_of bl d k) 0); [done|]. unfold block_of.
    rewrite lookup_insert_ne; [done|]. intros E'. apply E. symmetry. by apply (iw_inj _ _ _ Hi).
Qed.
End write_block.

(** The bytes of a file after part of a block has been overwritten. *)
Definition fpatch (f : nat -> Z) (off : nat) (src : list Z) (o : nat) : Z :=
  if decide (off <= o < off + length src)%nat then byte_at src (o - off) else f o.

Lemma byte_at_splice off new old i :
  (off + length new <= length old)%nat ->
  byte_at (splice off new old) i =
    if decide (off <= i < off + length new)%nat then byte_at new (i - off) else byte_at old i.
Proof. intros Hl. unfold byte_at. rewrite lookup_splice by done. by case_decide. Qed.

Lemma fbyte_patch bl d bl' chunk off :
  (off mod BSZ + length chunk <= BSZ)%nat -> (off + length chunk <= NBLOCKS * BSZ)%nat ->
  (0 < length chunk)%nat -> length (file_block bl d (off / BSZ)) = BSZ ->
  (forall k, (k < NBLOCKS)%nat -> file_block bl' d k =
     if decide (k = off / BSZ)%nat then splice (off mod BSZ) chunk (file_block bl d k)
     else file_block bl d k) ->
  forall o, (o < NBLOCKS * BSZ)%nat -> fbyte bl' d o = fpatch (fbyte bl d) off chunk o.
Proof.
  intros Hc Hmax Hpos Hl Hf o Ho.
  assert (Ho1 : (o / BSZ < NBLOCKS)%nat) by (apply Nat.Div0.div_lt_upper_bound; lia).
  pose proof (Nat.div_mod_eq o BSZ). pose proof (Nat.div_mod_eq off BSZ).
  assert (o mod BSZ < BSZ)%nat by (by apply Nat.mod_upper_bound).
  unfold fpatch, fbyte at 1. rewrite Hf by done. case_decide as E.
  - rewrite byte_at_splice by (rewrite E, Hl; done). rewrite E in *.
    repeat case_decide; try lia; [f_equal; lia|]. unfold fbyte. by rewrite E.
  - rewrite decide_False; [done|]. intros Hr. apply E.
    symmetry. apply (Nat.div_unique _ _ _ (o - BSZ * (off / BSZ))); lia.
Qed.

Lemma fpatch_ext f g off src o : f o = g o -> fpatch f off src o = fpatch g off src o.
Proof. unfold fpatch. by case_decide. Qed.

Lemma fpatch_app f off c1 c2 o :
  fpatch (fpatch f off c1) (off + length c1) c2 o = fpatch f off (c1 ++ c2) o.
Proof.
  unfold fpatch, byte_at. rewrite length_app. repeat case_decide; try lia; try done.
  - rewrite lookup_app_r by lia. do 2 f_equal. lia.
  - by rewrite lookup_app_l by lia.
Qed.

(** What writing [src] at offset [off] achieves, leaving room for [r] blocks. *)
Record written (sb : superblock) (v : lview) (d : dinode) (off : nat) (src : list Z) (r : nat)
    (v' : lview) (d' : dinode) : Prop := {
  wr_alloc : alloc_wf sb (lv_blocks v');
  wr_wf : inode_wf sb (lv_blocks v') d';
  wr_keep : mapped (lv_blocks v) d off (length src) -> d' = d;
  wr_ev : evolves sb (lv_blocks v) d (lv_blocks v') d';
  wr_bytes : forall o, (o < NBLOCKS * BSZ)%nat ->
    fbyte (lv_blocks v') d' o = fpatch (fbyte (lv_blocks v) d) off src o;
  wr_mapped : mapped (lv_blocks v') d' off (length src);
  wr_held : lv_held v' = ∅;
  wr_pend : lv_pend v' = ∅;
  wr_avail : avail sb v' r }.

Lemma written_nil sb v d off r :
  alloc_wf sb (lv_blocks v) -> inode_wf sb (lv_blocks v) d -> lv_held v = ∅ -> lv_pend v = ∅ ->
  avail sb v r -> written sb v d off [] r v d.
Proof.
  intros. constructor; auto using evolves_refl.
  - intros o _. unfold fpatch. simpl. by rewrite decide_False by lia.
  - intros bn _ _ Hn. simpl in Hn. lia.
Qed.

Lemma bmapped_block sb v d bn n a v' d' :
  (bn < NBLOCKS)%nat -> bmapped sb v d bn n a v' d' ->
  lv_blocks v' !! a = Some (file_block (lv_blocks v') d' bn) /\
  block_ok (file_block (lv_blocks v') d' bn).
Proof.
  intros Hbn [Ea Hnz _ Hal Hwf _ _ _ _ _ _].
  split; [|by eapply file_block_ok]. rewrite <- Ea in Hnz |- *. unfold file_block.
  destruct (Z.eqb_spec (addr_of (lv_blocks v') d' bn) 0); [done|].
  destruct (db_some _ _ _ (iw_data _ _ _ Hwf _ (block_owned _ _ _ Hbn Hnz))) as [x Hx].
  by rewrite Hx, (block_of_some _ _ _ Hx).
Qed.

Lemma bmapped_can_log sb v d bn n a v' d' x :
  bmapped sb v d bn n a v' d' -> can_log v' a /\ avail sb (l_upd a x v') n.
Proof.
  intros Hm. destruct (bm_avail _ _ _ _ _ _ _ _ Hm) as [Ha|[Ha Hin]]; [by apply avail_any|].
  split; [split; [apply Ha|by left]|by apply avail_logged].
Qed.

(** One block: [bmap] gave block [a], and [chunk] is written to it. *)
Lemma written_step sb v d off chunk rest r n a v1 d1 v2 d2 :
  bmapped sb v d (off / BSZ) n a v1 d1 -> bytes_ok chunk ->
  (0 < length chunk)%nat -> (off mod BSZ + length chunk <= BSZ)%nat ->
  (off + length chunk <= NBLOCKS * BSZ)%nat ->
  let x := splice (off mod BSZ) chunk (file_block (lv_blocks v1) d1 (off / BSZ)) in
  written sb (l_upd a x v1) d1 (off + length chunk) rest r v2 d2 ->
  written sb v d off (chunk ++ rest) r v2 d2.
Proof.
  intros [Ea Hnz Hkeep Hal Hwf Hev Hfile _ _ _ _] Hok Hpos Hfit Hmax x [B1 B2 Bk B3 B4 Bm B5 B6 B7].
  assert (Hbn : (off / BSZ < NBLOCKS)%nat) by (apply Nat.Div0.div_lt_upper_bound; unfold BSZ in *; lia).
  rewrite <- Ea in Hnz. pose proof (file_block_ok _ _ _ _ Hal Hwf Hbn) as [Hlen Hbytes].
  assert (Hx : block_ok x).
  { split; [unfold x; rewrite length_splice; [done|rewrite Hlen; done]|by apply Forall_splice]. }
  constructor; try done.
  - intros Hm. destruct Hkeep as [-> ->].
    { apply Hm; [done| |]; rewrite ?length_app; [|lia].
      pose proof (Nat.div_mod_eq off BSZ). unfold BSZ in *. lia. }
    apply Bk. intros bn Hb1 Hb2 Hb3. cbn [lv_blocks l_upd]. rewrite <- Ea, (addr_write sb) by done.
    apply Hm; rewrite ?length_app; [|lia..]. etransitivity; [|exact Hb1]. apply Nat.Div0.div_le_mono. lia.
  - eapply evolves_trans; [exact Hev|]. eapply evolves_trans; [|exact B3].
    cbn [lv_blocks l_upd]. rewrite <- Ea. by apply evolves_write.
  - intros o Ho. rewrite B4 by done. rewrite <- fpatch_app. apply fpatch_ext. cbn [lv_blocks l_upd].
    rewrite (fbyte_patch (lv_blocks v1) d1 _ chunk off); try done.
    + apply fpatch_ext. unfold fbyte. rewrite Hfile; [done|].
      apply Nat.Div0.div_lt_upper_bound. lia.
    + intros k Hk. rewrite <- Ea. rewrite (file_write sb) by done. case_decide; by subst.
  - intros bn Hb1 Hb2 _. rewrite length_app in Hb2. pose proof (Nat.div_mod_eq off BSZ).
    destruct (decide (bn = off / BSZ)%nat) as [->|Hne].
    + assert (E : addr_of (lv_blocks (l_upd a x v1)) d1 (off / BSZ) = a).
      { cbn [lv_blocks l_upd]. rewrite <- Ea. by eapply addr_write. }
      rewrite (ev_same _ _ _ _ _ B3 _ Hbn); rewrite E; by rewrite <- Ea.
    + apply Bm; [|unfold BSZ in *; lia..]. apply Nat.Div0.div_le_upper_bound. unfold BSZ in *. lia.
Qed.

Lemma drop_chunk (src : list Z) tot m : drop tot src = slice tot m src ++ drop (tot + m) src.
Proof. unfold slice. by rewrite <- drop_drop, take_drop. Qed.

Lemma inode_wf_addrs sb bl d :
  alloc_wf sb bl -> inode_wf sb bl d -> Forall (fun a => 0 <= a < 2 ^ 32) (d_addrs d).
Proof.
  intros Hw Hi. pose proof (aw_size _ _ Hw). apply Forall_lookup. intros k a Hk.
  destruct (decide (a = 0)) as [->|Hne]; [lia|].
  assert (Ho : owned bl d a).
  { split; [done|]. pose proof (lookup_lt_Some _ _ _ Hk) as Hl. rewrite (iw_len _ _ _ Hi) in Hl.
    destruct (decide (k = NDIRECT)) as [->|].
    - left. unfold ind_of. by rewrite Hk.
    - right. exists k. split; [unfold NBLOCKS, NDIRECT in *; lia|]. unfold addr_of.
      destruct (Nat.ltb_spec k NDIRECT); [by rewrite Hk|unfold NDIRECT in *; lia]. }
  destruct (db_range _ _ _ (iw_data _ _ _ Hi _ Ho)). lia.
Qed.

Lemma dinode_ok_addrs sb bl d d' :
  alloc_wf sb bl -> inode_wf sb bl d' -> dinode_ok d -> d' = d_with_addrs (d_addrs d') d ->
  dinode_ok d'.
Proof.
  intros Hw Hi [] E. pose proof (inode_wf_addrs _ _ _ Hw Hi). pose proof (iw_len _ _ _ Hi).
  rewrite E. constructor; done.
Qed.

(** The size does not matter for the block map. *)
Lemma inode_wf_size sb bl d n : inode_wf sb bl d -> inode_wf sb bl (d_with_size n d).
Proof. intros []. by constructor. Qed.

Section file.
Context {B D : Type} `{BlockLayer B} (devsw : Z -> devfns (fs B D)) (p : proc).
Implicit Types (s : fs B D) (v : lview).

Lemma readi_loop_spec fuel s v ip i (off n tot : nat) acc (Q : list Z -> fs B D -> Prop) :
  let sb := fs_sb s in
  let d := i_d i in
  fsrep p s v -> alloc_wf sb (lv_blocks v) -> inode_wf sb (lv_blocks v) d ->
  fs_inode s !! ip = Some i -> i_dev i = ROOTDEV -> lv_held v = ∅ -> lv_pend v = ∅ ->
  (tot <= n)%nat -> mapped (lv_blocks v) d off (n - tot) ->
  (off + (n - tot) <= NBLOCKS * BSZ)%nat -> (n = tot \/ (n - tot) + off mod BSZ <= fuel * BSZ)%nat ->
  (forall bk, fsrep p (set_blk bk s) v ->
     Q (acc ++ fread (lv_blocks v) d off (n - tot)) (set_blk bk s)) ->
  wp (readi_loop p fuel ip (Z.of_nat off) (Z.of_nat n) (Z.of_nat tot) acc) Q s.
Proof.
  intros sb d. revert s off tot acc sb. induction fuel as [|fuel IH];
    intros s off tot acc sb Hs Hw Hi Hip Hdev Hh Hp Htot Hmap Hmax Hfuel HQ.
  { cbn [readi_loop]. destruct (Z.ltb_spec (Z.of_nat tot) (Z.of_nat n)); [lia|]. wp_step.
    replace (n - tot)%nat with 0%nat in HQ by lia. rewrite app_nil_r in HQ.
    replace s with (set_blk (fs_blk s) s) by (by destruct s). apply HQ. by destruct s. }
  cbn [readi_loop]. destruct (Z.ltb_spec (Z.of_nat tot) (Z.of_nat n)) as [Hlt|].
  2: { wp_step. replace (n - tot)%nat with 0%nat in HQ by lia. rewrite app_nil_r in HQ.
       replace s with (set_blk (fs_blk s) s) by (by destruct s). apply HQ. by destruct s. }
  rewrite of_nat_div_bsz, of_nat_mod_bsz.
  destruct (chunk_step off n tot fuel) as (Hm0 & Hm1 & Hm2 & Hdm & Hdiv & Hfu); [lia|lia|].
  set (m := Nat.min (n - tot) (BSZ - off mod BSZ)) in *.
  assert (Hbn : (off / BSZ < NBLOCKS)%nat) by (unfold NBLOCKS, BSZ in *; lia).
  assert (Hne : addr_of (lv_blocks v) d (off / BSZ) <> 0) by (apply Hmap; lia).
  wp_step. eapply bmap_mapped; try done. intros b1 Hb1. wp_step.
  eapply wp_read_inode; [done|]. rewrite Hdev. wp_step.
  assert (Hown : owned (lv_blocks v) d (addr_of (lv_blocks v) d (off / BSZ)))
    by (split; [done|right; eauto]).
  destruct (db_some _ _ _ (iw_data _ _ _ Hi _ Hown)) as [x Hx].
  eapply fwp_bread; [done|done|by rewrite Hh|rewrite Hh; apply Nat.le_0_l|]. intros bp b2 Hb2.
  wp_step. eapply fwp_bdata; [done|done|]. wp_step.
  eapply fwp_brelse; [done|by rewrite Hh|done|]. intros b3 Hb3.
  replace (Z.min (Z.of_nat n - Z.of_nat tot) (BSIZE - Z.of_nat (off mod BSZ))) with (Z.of_nat m)
    by (unfold m, BSIZE, BSZ in *; lia).
  rewrite <- !Nat2Z.inj_add, !Nat2Z.id.
  assert (Ex : x = file_block (lv_blocks v) d (off / BSZ)).
  { unfold file_block. destruct (Z.eqb_spec (addr_of (lv_blocks v) d (off / BSZ)) 0); [done|].
    by rewrite (block_of_some _ _ _ Hx). }
  rewrite Ex, fread_block; [|lia|by destruct (file_block_ok _ _ _ _ Hw Hi Hbn)].
  apply (IH (set_blk b3 s) (off + m)%nat (tot + m)%nat); try done; try lia.
  - intros bn Hb Hb' Hb0. apply Hmap; lia.
  - intros bk Hbk. replace (n - (tot + m))%nat with (n - tot - m)%nat by lia.
    rewrite <- app_assoc, <- fread_app. replace (m + (n - tot - m))%nat with (n - tot)%nat by lia.
    by apply (HQ bk).
Qed.
Lemma writei_end s v ip i (off r : nat) (Q : Z -> fs B D -> Prop) :
  fsrep p s v -> alloc_wf (fs_sb s) (lv_blocks v) -> inode_wf (fs_sb s) (lv_blocks v) (i_d i) ->
  fs_inode s !! ip = Some i -> lv_held v = ∅ -> lv_pend v = ∅ -> avail (fs_sb s) v r ->
  (forall v' d' bk, fsrep p (set_blk bk (with_d ip d' s)) v' ->
     written (fs_sb s) v (i_d i) off [] r v' d' ->
     Q (Z.of_nat off) (set_blk bk (with_d ip d' s))) ->
  wp (ret (Z.of_nat off)) Q s.
Proof.
  intros Hs Hw Hi Hip Hh Hp Ha HQ. wp_step.
  assert (E : set_blk (fs_blk s) (with_d ip (i_d i) s) = s) by (rewrite with_d_id by done; by destruct s).
  rewrite <- E. apply (HQ v); [by rewrite E|]. by apply written_nil.
Qed.

Lemma writei_loop_spec kb fuel s v ip i src (off n tot r : nat) (Q : Z -> fs B D -> Prop) :
  let sb := fs_sb s in
  fsrep p s v -> alloc_wf sb (lv_blocks v) -> inode_wf sb (lv_blocks v) (i_d i) ->
  fs_inode s !! ip = Some i -> i_dev i = ROOTDEV -> lv_held v = ∅ -> lv_pend v = ∅ ->
  (tot <= n)%nat -> length src = n -> bytes_ok src -> (kb <= fuel)%nat ->
  (off + (n - tot) <= NBLOCKS * BSZ)%nat ->
  (n = tot \/ (n - tot) + off mod BSZ <= kb * BSZ)%nat ->
  avail sb v (2 * kb + r) -> (2 * kb <= size (free_set sb (lv_blocks v)))%nat ->
  (forall v' d' bk, fsrep p (set_blk bk (with_d ip d' s)) v' ->
     written sb v (i_d i) off (drop tot src) r v' d' ->
     Q (Z.of_nat (off + (n - tot))) (set_blk bk (with_d ip d' s))) ->
  wp (writei_loop p fuel ip src (Z.of_nat off) (Z.of_nat n) (Z.of_nat tot)) Q s.
Proof.
  intros sb. revert fuel s v i off tot sb. induction kb as [|kb IH];
    intros fuel s v i off tot sb Hs Hw Hi Hip Hdev Hh Hp Htot Hsrc Hok Hfuel Hmax Hkb Ha Hfr HQ.
  { assert (tot = n) as -> by lia. rewrite Nat.sub_diag, Nat.add_0_r, drop_ge in HQ by lia.
    apply (writei_end s v ip i off r); try done. by destruct fuel; cbn [writei_loop]; rewrite Z.ltb_irrefl. }
  destruct fuel as [|fuel]; [lia|]. cbn [writei_loop].
  destruct (Z.ltb_spec (Z.of_nat tot) (Z.of_nat n)) as [Hlt|].
  2: { assert (tot = n) as -> by lia. rewrite Nat.sub_diag, Nat.add_0_r, drop_ge in HQ by lia.
       apply (writei_end s v ip i off r); try done. eapply avail_mono; [done|lia]. }
  rewrite of_nat_div_bsz, of_nat_mod_bsz.
  destruct (chunk_step off n tot kb) as (Hm0 & Hm1 & Hm2 & Hdm & Hdiv & Hfu); [lia|lia|].
  set (m := Nat.min (n - tot) (BSZ - off mod BSZ)) in *.
  assert (Hbn : (off / BSZ < NBLOCKS)%nat) by (unfold NBLOCKS, BSZ in *; lia).
  wp_step. eapply (bmap_spec p s v ip i (off / BSZ) (2 * kb + r)); try done; try lia.
  { by replace (S (S (2 * kb + r))) with (2 * S kb + r)%nat by lia. }
  { fold sb. lia. }
  intros a v1 d1 b1 Hb1 Hm.
  assert (Hip1 : fs_inode (set_blk b1 (with_d ip d1 s)) !! ip = Some (i_with_d d1 i))
    by (by apply with_d_lookup).
  wp_step. eapply wp_read_inode; [exact Hip1|]. cbn [i_dev i_with_d]. rewrite Hdev. wp_step.
  destruct (bmapped_block _ _ _ _ _ _ _ _ Hbn Hm) as [Hx Hxok].
  pose proof (bm_held _ _ _ _ _ _ _ _ Hm) as Hh1. pose proof (bm_pend _ _ _ _ _ _ _ _ Hm) as Hp1.
  rewrite Hh in Hh1. rewrite Hp in Hp1.
  eapply fwp_bread; [done|done|by rewrite Hh1|rewrite Hh1; apply Nat.le_0_l|]. intros bp b2 Hb2.
  wp_step. eapply fwp_bdata; [done|done|].
  replace (Z.min (Z.of_nat n - Z.of_nat tot) (BSIZE - Z.of_nat (off mod BSZ))) with (Z.of_nat m)
    by (unfold m, BSIZE, BSZ in *; lia).
  rewrite <- !Nat2Z.inj_add, !Nat2Z.id.
  set (chunk := slice tot m src). assert (Hcl : length chunk = m) by (apply length_slice; lia).
  assert (Hcok : bytes_ok chunk) by (by apply Forall_slice).
  set (x := splice (off mod BSZ) chunk (file_block (lv_blocks v1) d1 (off / BSZ))).
  destruct (bmapped_can_log _ _ _ _ _ _ _ _ x Hm) as [Hcan Hav].
  assert (Hxnew : block_ok x).
  { destruct Hxok as [Hxl Hxb]. split; [|by apply Forall_splice].
    unfold x. rewrite length_splice; [done|]. rewrite Hxl, Hcl. unfold BSZ, BSIZE in *. lia. }
  eapply fwp_update; [done|by rewrite Hh1|done|done|done|].
  intros b3 Hb3. pose proof Hm as [Ea Hnz _ Hal Hwf _ _ _ _ _ Hfree].
  rewrite <- Ea in Hnz.
  apply (IH fuel (set_blk b3 (with_d ip d1 s)) (l_upd a x v1) (i_with_d d1 i)
           (off + m)%nat (tot + m)%nat); try done; try lia.
  - cbn [lv_blocks l_upd i_d i_with_d]. rewrite <- Ea. by apply alloc_wf_write.
  - cbn [lv_blocks l_upd i_d i_with_d]. rewrite <- Ea. by apply inode_wf_write.
  - cbn [lv_blocks l_upd]. rewrite <- Ea, free_set_write by done. change (fs_sb (set_blk b3 (with_d ip d1 s))) with sb.
    unfold sb in *. lia.
  - intros v2 d2 bk Hbk Hwr. change (with_d ip d2 (set_blk b3 (with_d ip d1 s)))
      with (set_blk b3 (with_d ip d2 (with_d ip d1 s))) in *. rewrite with_d_twice in *.
    replace (off + m + (n - (tot + m)))%nat with (off + (n - tot))%nat by lia.
    apply (HQ v2 d2 bk Hbk). rewrite (drop_chunk src tot m). fold chunk.
    apply (written_step sb v (i_d i) off chunk _ r _ a v1 d1 v2 d2 Hm); rewrite ?Hcl; try done; lia.
Qed.
(** A regular read: the bytes of the file from [off] on, as many as there are. *)
Lemma readi_spec s v ip i (off n : nat) (Q : Z * list Z -> fs B D -> Prop) :
  let sb := fs_sb s in
  let d := i_d i in
  let m := Nat.min n (Z.to_nat (d_size d) - off) in
  fsrep p s v -> alloc_wf sb (lv_blocks v) -> inode_wf sb (lv_blocks v) d ->
  fs_inode s !! ip = Some i -> i_dev i = ROOTDEV -> lv_held v = ∅ -> lv_pend v = ∅ ->
  d_type d <> T_DEV -> Z.of_nat off <= d_size d -> d_size d <= MAXFILE * BSIZE ->
  Z.of_nat n < 2 ^ 31 -> mapped (lv_blocks v) d off m ->
  (forall bk, fsrep p (set_blk bk s) v ->
     Q (Z.of_nat m, fread (lv_blocks v) d off m) (set_blk bk s)) ->
  wp (readi devsw p ip (Z.of_nat off) (Z.of_nat n)) Q s.
Proof.
  intros sb d m Hs Hw Hi Hip Hdev Hh Hp Ht Hoff Hsz Hn Hmap HQ. unfold readi. wp_step.
  eapply wp_read_inode; [done|]. fold d.
  destruct (Z.eqb_spec (d_type d) T_DEV); [done|]. cbv zeta.
  unfold MAXFILE, BSIZE in Hsz. rewrite u32_small by lia.
  destruct (Z.ltb_spec (d_size d) (Z.of_nat off)); [lia|].
  destruct (Z.ltb_spec (Z.of_nat off + Z.of_nat n) (Z.of_nat off)); [lia|]. cbn [orb].
  assert (Em : (if d_size d <? Z.of_nat off + Z.of_nat n then d_size d - Z.of_nat off
                else Z.of_nat n) = Z.of_nat m).
  { unfold m. destruct (Z.ltb_spec (d_size d) (Z.of_nat off + Z.of_nat n)); lia. }
  rewrite Em. wp_step. change 0 with (Z.of_nat 0).
  apply (readi_loop_spec _ s v ip i off m 0); rewrite ?Nat.sub_0_r; try done; try lia.
  - unfold NBLOCKS, BSZ, m in *. lia.
  - right. unfold io_fuel. assert (Hmod : (off mod BSZ < BSZ)%nat) by (by apply Nat.mod_upper_bound).
    change BSIZE with (Z.of_nat BSZ). rewrite <- Nat2Z.inj_div, Nat2Z.id.
    pose proof (Nat.div_mod_eq m BSZ). assert (m mod BSZ < BSZ)%nat by (by apply Nat.mod_upper_bound).
    unfold BSZ in *. lia.
  - intros bk Hbk. wp_step. rewrite s32_small by (unfold m; lia). by apply (HQ bk).
Qed.
(** The size of a file after a write of [n] bytes that ends at [fin]. *)
Definition new_size (d : dinode) (n fin : Z) : Z :=
  if (0 <? n) && (d_size d <? fin) then fin else d_size d.

(** What [writei] guarantees: [src] is in the file at [off], every other byte of
    it is as before, its size has grown if necessary, its disk inode is up to
    date if the size changed, and blocks in use by others are untouched. *)
Record writei_post (sb : superblock) (v : lview) (i : inode) (off : nat) (src : list Z)
    (v' : lview) (d' : dinode) : Prop := {
  wp_alloc : alloc_wf sb (lv_blocks v');
  wp_wf : inode_wf sb (lv_blocks v') d';
  wp_bytes : forall o, (o < NBLOCKS * BSZ)%nat ->
    fbyte (lv_blocks v') d' o = fpatch (fbyte (lv_blocks v) (i_d i)) off src o;
  wp_mapped : mapped (lv_blocks v') d' off (length src);
  wp_size : d_size d' = new_size (i_d i) (Z.of_nat (length src)) (Z.of_nat (off + length src));
  wp_rest : d' = d_with_size (d_size d') (d_with_addrs (d_addrs d') (i_d i));
  wp_same : d_size d' = d_size (i_d i) -> mapped (lv_blocks v) (i_d i) off (length src) -> d' = i_d i;
  wp_dino : forall j, 0 <= j < sb_ninodes sb -> dino sb (lv_blocks v') j =
    if decide (j = i_inum i /\ d_size d' <> d_size (i_d i)) then d' else dino sb (lv_blocks v) j;
  wp_frame : forall x, (x ∉ bmset sb) -> x <> IBLOCK (i_inum i) sb ->
    ~ owned (lv_blocks v) (i_d i) x -> (0 <= x < sb_size sb -> used sb (lv_blocks v) x = true) ->
    lv_blocks v' !! x = lv_blocks v !! x;
  wp_used : forall x, 0 <= x < sb_size sb ->
    used sb (lv_blocks v) x = true -> used sb (lv_blocks v') x = true;
  wp_own : forall x, owned (lv_blocks v') d' x ->
    owned (lv_blocks v) (i_d i) x \/ x ∈ free_set sb (lv_blocks v);
  wp_idle : lv_held v' = ∅ /\ lv_pend v' = ∅;
  wp_keep : forall bn, (bn < NBLOCKS)%nat -> addr_of (lv_blocks v) (i_d i) bn <> 0 ->
    addr_of (lv_blocks v') d' bn = addr_of (lv_blocks v) (i_d i) bn }.

Lemma written_frame sb v d off src r v' d' x :
  written sb v d off src r v' d' -> (x ∉ bmset sb) -> ~ owned (lv_blocks v) d x ->
  (0 <= x < sb_size sb -> used sb (lv_blocks v) x = true) ->
  lv_blocks v' !! x = lv_blocks v !! x.
Proof.
  intros Hwr Hx Ho Hu. apply (ev_frame _ _ _ _ _ (wr_ev _ _ _ _ _ _ _ _ Hwr)); [done|].
  intros Ho'. apply (ev_new _ _ _ _ _ (wr_ev _ _ _ _ _ _ _ _ Hwr)) in Ho' as [?|[Hr Hf]%elem_of_free_set];
    [done|]. rewrite Hu in Hf by done. done.
Qed.

Lemma written_iblock sb v d off src r v' d' j :
  written sb v d off src r v' d' -> 0 <= j < sb_ninodes sb ->
  lv_blocks v' !! IBLOCK j sb = lv_blocks v !! IBLOCK j sb.
Proof.
  intros Hwr Hj. pose proof (wr_alloc _ _ _ _ _ _ _ _ Hwr) as W1.
  pose proof (IBLOCK_iset sb _ _ W1 Hj) as Hin.
  apply (ev_frame _ _ _ _ _ (wr_ev _ _ _ _ _ _ _ _ Hwr)); [by apply (aw_ib _ _ W1)|].
  eapply iblock_not_owned; [apply Hwr|done].
Qed.

(** After the loop, without a change of size. *)
Lemma writei_post_same sb v i off src r v' d' :
  written sb v (i_d i) off src r v' d' ->
  new_size (i_d i) (Z.of_nat (length src)) (Z.of_nat (off + length src)) = d_size (i_d i) ->
  writei_post sb v i off src v' d'.
Proof.
  intros Hwr Hsz. pose proof (ev_rest _ _ _ _ _ (wr_ev _ _ _ _ _ _ _ _ Hwr)) as E.
  assert (Es : d_size d' = d_size (i_d i)) by (rewrite E; done).
  constructor; try apply Hwr.
  - by rewrite Hsz.
  - rewrite Es. etransitivity; [exact E|]. by destruct (i_d i).
  - intros _. apply Hwr.
  - intros j Hj. rewrite decide_False by naive_solver. apply dino_cong. by eapply written_iblock.
  - intros x Hx _. by eapply written_frame.
  - by split; apply Hwr.
Qed.
(** After the loop, with the new size written to the disk inode. *)
Lemma writei_post_grow sb v i off src v1 d1 :
  written sb v (i_d i) off src 1 v1 d1 -> dinode_ok (i_d i) -> 0 <= i_inum i < sb_ninodes sb ->
  (off + length src <= NBLOCKS * BSZ)%nat ->
  (0 < length src)%nat -> d_size (i_d i) < Z.of_nat (off + length src) ->
  let d' := d_with_size (Z.of_nat (off + length src)) d1 in
  dinode_ok d' /\ writei_post sb v i off src (l_iupdate sb (i_with_d d' i) v1) d'.
Proof.
  intros Hwr Hok Hr Hmax Hlen Hgrow d'. pose proof Hwr as [W1 W2 Wk W3 W4 Wm W5 W6 W7].
  pose proof (ev_rest _ _ _ _ _ W3) as E.
  pose proof (dinode_ok_addrs _ _ _ _ W1 W2 Hok E) as Hok1.
  assert (Hok' : dinode_ok d').
  { destruct Hok1. constructor; simpl; try done. unfold NBLOCKS, BSZ in *. lia. }
  split; [done|]. pose proof (IBLOCK_iset sb _ _ W1 Hr) as Hin.
  destruct (aw_ib _ _ W1 _ Hin) as [Hsome Hnb].
  pose proof (iblock_not_owned _ _ _ _ W2 Hin) as Hno.
  assert (Hblk : block_ok (put_dinode (ino_slot (i_inum i)) d' (block_of (lv_blocks v1) (IBLOCK (i_inum i) sb)))).
  { apply put_dinode_ok; [done| |apply ino_slot_bound]. destruct Hsome as [y Hy].
    rewrite (block_of_some _ _ _ Hy). by eapply (aw_ok _ _ W1). }
  constructor; unfold l_iupdate; cbn [lv_blocks l_upd i_inum i_d i_with_d lv_held lv_pend].
  - by apply alloc_wf_insert.
  - apply inode_wf_size. by apply inode_wf_other.
  - intros o Ho. rewrite <- W4 by done. unfold fbyte.
    change (file_block (<[IBLOCK (i_inum i) sb := ?y]> ?b) d' ?k)
      with (file_block (<[IBLOCK (i_inum i) sb := y]> b) d1 k).
    rewrite (file_other sb (lv_blocks v1) d1) by (done || (apply Nat.Div0.div_lt_upper_bound; lia)). done.
  - intros bn Hb1 Hb2 Hb3. change (addr_of ?b d' bn) with (addr_of b d1 bn).
    rewrite (addr_other sb) by done. by apply Wm.
  - unfold new_size. rewrite !(proj2 (Z.ltb_lt _ _)) by lia. done.
  - unfold d'. simpl. rewrite E at 1. by destruct (i_d i).
  - simpl. lia.
  - intros j Hj. rewrite <- (dino_cong sb (lv_blocks v) (lv_blocks v1) j) by (by eapply written_iblock).
    etransitivity; [apply (dino_iupdate sb (i_with_d d' i) v1 j W1 Hok' Hr Hj)|].
    cbn [i_inum i_d i_with_d]. assert (d_size d' <> d_size (i_d i)) by (simpl; lia).
    by destruct (decide (j = i_inum i)) as [Ej|Ej]; [rewrite decide_True|rewrite decide_False by tauto].
  - intros x Hx Hxi Ho Hu. rewrite lookup_insert_ne by done. by eapply written_frame.
  - intros x Hx Hu. rewrite used_insert by done. by apply (ev_used _ _ _ _ _ W3).
  - intros x Hx. apply (ev_new _ _ _ _ _ W3).
    by apply (owned_other sb (lv_blocks v1) d1 (IBLOCK (i_inum i) sb)) in Hx.
  - done.
  - intros bn Hb1 Hb2. change (addr_of ?b d' bn) with (addr_of b d1 bn).
    rewrite (addr_other sb) by done. by apply (ev_same _ _ _ _ _ W3).
Qed.
Lemma writei_spec s v ip i src (off kb : nat) (Q : Z -> fs B D -> Prop) :
  let sb := fs_sb s in
  let n := length src in
  fsrep p s v -> alloc_wf sb (lv_blocks v) -> inode_wf sb (lv_blocks v) (i_d i) ->
  dinode_ok (i_d i) -> fs_inode s !! ip = Some i -> i_dev i = ROOTDEV ->
  0 <= i_inum i < sb_ninodes sb -> lv_held v = ∅ -> lv_pend v = ∅ -> bytes_ok src ->
  d_type (i_d i) <> T_DEV -> Z.of_nat off <= d_size (i_d i) ->
  (off + n <= NBLOCKS * BSZ)%nat -> (n + off mod BSZ <= kb * BSZ)%nat ->
  (kb <= io_fuel (Z.of_nat n))%nat ->
  avail sb v (2 * kb + 1) -> (2 * kb <= size (free_set sb (lv_blocks v)))%nat ->
  (forall v' d' bk, fsrep p (set_blk bk (with_d ip d' s)) v' ->
     writei_post sb v i off src v' d' ->
     Q (Z.of_nat n) (set_blk bk (with_d ip d' s))) ->
  wp (writei devsw p ip src (Z.of_nat off) (Z.of_nat n)) Q s.
Proof.
  intros sb n Hs Hw Hi Hok Hip Hdev Hr Hh Hp Hb Ht Hoff Hmax Hkb Hfuel Ha Hf HQ.
  assert (Hmaxz : Z.of_nat off + Z.of_nat n <= 94720) by (unfold NBLOCKS, BSZ in Hmax; lia).
  unfold writei. wp_step. eapply wp_read_inode; [done|].
  destruct (Z.eqb_spec (d_type (i_d i)) T_DEV); [done|]. cbv zeta. rewrite u32_small by lia.
  destruct (Z.ltb_spec (d_size (i_d i)) (Z.of_nat off)); [lia|].
  destruct (Z.ltb_spec (Z.of_nat off + Z.of_nat n) (Z.of_nat off)); [lia|]. cbn [orb].
  destruct (Z.ltb_spec (MAXFILE * BSIZE) (Z.of_nat off + Z.of_nat n)) as [|_];
    [unfold MAXFILE, BSIZE in *; lia|].
  wp_step. change 0 with (Z.of_nat 0) at 1.
  apply (writei_loop_spec kb (io_fuel (Z.of_nat n)) s v ip i src off n 0 1);
    rewrite ?Nat.sub_0_r; try done; try lia.
  intros v1 d1 b1 Hb1 Hwr. rewrite drop_0 in Hwr.
  assert (Hip1 : fs_inode (set_blk b1 (with_d ip d1 s)) !! ip = Some (i_with_d d1 i))
    by (by apply with_d_lookup).
  wp_step. eapply wp_read_inode; [exact Hip1|]. cbn [i_d i_with_d].
  assert (Es : d_size d1 = d_size (i_d i)).
  { by rewrite (ev_rest _ _ _ _ _ (wr_ev _ _ _ _ _ _ _ _ Hwr)). }
  rewrite Es. wp_step.
  assert (Hn : s32 (Z.of_nat n) = Z.of_nat n) by (apply s32_small; lia).
  destruct ((0 <? Z.of_nat n) && (d_size (i_d i) <? Z.of_nat (off + n))) eqn:Eg.
  - apply andb_true_iff in Eg as [Eg1%Z.ltb_lt Eg2%Z.ltb_lt].
    destruct (writei_post_grow sb v i off src v1 d1 Hwr Hok Hr Hmax) as [Hok' Hpost]; [lia|done|].
    set (d' := d_with_size (Z.of_nat (off + length src)) d1) in *.
    wp_step. eapply wp_upd_d; [exact Hip1|]. cbn [i_d i_with_d]. fold n in d'. fold d'.
    assert (Es2 : with_d ip d' (set_blk b1 (with_d ip d1 s)) = set_blk b1 (with_d ip d' s)).
    { change (with_d ip d' (set_blk b1 (with_d ip d1 s)))
        with (set_blk b1 (with_d ip d' (with_d ip d1 s))). by rewrite with_d_twice. }
    rewrite Es2. pose proof Hwr as [W1 W2 Wk W3 W4 Wm W5 W6 W7].
    eapply (iupdate_spec p (set_blk b1 (with_d ip d' s)) v1 ip (i_with_d d' i)); try done.
    + by apply with_d_lookup.
    + by apply (avail_any sb v1 0 (IBLOCK (i_inum i) sb) [] W7).
    + intros b2 Hb2. wp_step. rewrite Hn. by apply (HQ _ d' b2 Hb2).
  - assert (Hns : new_size (i_d i) (Z.of_nat (length src)) (Z.of_nat (off + length src))
                  = d_size (i_d i)) by (unfold new_size; fold n; by rewrite Eg).
    wp_step. wp_step. rewrite Hn. apply (HQ v1 d1 b1 Hb1). by eapply writei_post_same.
Qed.
(** ** The inode layer as an array of bytes *)

(** Inode [ip], a locked file or directory [i] with its content, between two
    operations on it. *)
Record file_ready (s : fs B D) (v : lview) (ip : nat) (i : inode) : Prop := {
  fr_rep : fsrep p s v;
  fr_alloc : alloc_wf (fs_sb s) (lv_blocks v);
  fr_wf : inode_wf (fs_sb s) (lv_blocks v) (i_d i);
  fr_ok : dinode_ok (i_d i);
  fr_inode : fs_inode s !! ip = Some i;
  fr_dev : i_dev i = ROOTDEV;
  fr_inum : 0 <= i_inum i < sb_ninodes (fs_sb s);
  fr_held : lv_held v = ∅ /\ lv_pend v = ∅;
  fr_type : d_type (i_d i) <> T_DEV;
  fr_size : d_size (i_d i) <= MAXFILE * BSIZE }.

(** [i'] is [i] after a write of [src] at [off]; other inodes that share no
    block with [i] keep their content. *)
Record file_written (sb : superblock) (bl : gmap Z (list Z)) (i : inode) (off : nat)
    (src : list Z) (bl' : gmap Z (list Z)) (i' : inode) : Prop := {
  fw_bytes : forall o, (o < NBLOCKS * BSZ)%nat ->
    fbyte bl' (i_d i') o = fpatch (fbyte bl (i_d i)) off src o;
  fw_mapped : mapped bl' (i_d i') off (length src);
  fw_keep : forall bn, (bn < NBLOCKS)%nat -> addr_of bl (i_d i) bn <> 0 ->
    addr_of bl' (i_d i') bn = addr_of bl (i_d i) bn;
  fw_size : d_size (i_d i') =
    new_size (i_d i) (Z.of_nat (length src)) (Z.of_nat (off + length src));
  fw_meta : i' = i_with_d (d_with_size (d_size (i_d i')) (d_with_addrs (d_addrs (i_d i')) (i_d i))) i;
  fw_disk : forall j, 0 <= j < sb_ninodes sb -> dino sb bl' j =
    if decide (j = i_inum i /\ d_size (i_d i') <> d_size (i_d i)) then i_d i' else dino sb bl j;
  fw_sync : mapped bl (i_d i) 0 (Z.to_nat (d_size (i_d i))) ->
    dino sb bl (i_inum i) = i_d i -> dino sb bl' (i_inum i) = i_d i';
  fw_others : forall d2, inode_wf sb bl d2 -> (forall x, owned bl d2 x -> ~ owned bl (i_d i) x) ->
    inode_wf sb bl' d2 /\
    forall bn, (bn < NBLOCKS)%nat -> file_block bl' d2 bn = file_block bl d2 bn }.

Lemma writei_others sb v i off src v' d' d2 :
  alloc_wf sb (lv_blocks v) -> 0 <= i_inum i < sb_ninodes sb ->
  writei_post sb v i off src v' d' -> inode_wf sb (lv_blocks v) d2 ->
  (forall x, owned (lv_blocks v) d2 x -> ~ owned (lv_blocks v) (i_d i) x) ->
  inode_wf sb (lv_blocks v') d2 /\
  forall bn, (bn < NBLOCKS)%nat -> file_block (lv_blocks v') d2 bn = file_block (lv_blocks v) d2 bn.
Proof.
  intros Hw Hr Hp H2 Hdis.
  assert (Hsame : forall x, owned (lv_blocks v) d2 x -> lv_blocks v' !! x = lv_blocks v !! x).
  { intros x Hx. pose proof (iw_data _ _ _ H2 x Hx) as [Dr Du Ds Db Di].
    apply (wp_frame _ _ _ _ _ _ _ Hp); try done; [|by apply Hdis].
    intros ->. by eapply Di, IBLOCK_iset. }
  destruct (inode_kept sb (lv_blocks v) (lv_blocks v') d2 H2 Hsame) as (? & _ & ?); [|done].
  intros x Hx Hu. by apply (wp_used _ _ _ _ _ _ _ Hp).
Qed.

(** The number of blocks touched by [n] bytes at [off]. *)
Definition touched (off n : nat) : nat := ((off mod BSZ + n + (BSZ - 1)) / BSZ)%nat.

Lemma touched_enough off n : (n + off mod BSZ <= touched off n * BSZ)%nat.
Proof.
  unfold touched. pose proof (Nat.div_mod_eq (off mod BSZ + n + (BSZ - 1)) BSZ).
  assert ((off mod BSZ + n + (BSZ - 1)) mod BSZ < BSZ)%nat by (by apply Nat.mod_upper_bound).
  unfold BSZ in *. lia.
Qed.

Lemma touched_fuel off n : (touched off n <= io_fuel (Z.of_nat n))%nat.
Proof.
  unfold io_fuel, touched. change BSIZE with (Z.of_nat BSZ). rewrite <- Nat2Z.inj_div, Nat2Z.id.
  assert (off mod BSZ < BSZ)%nat by (by apply Nat.mod_upper_bound).
  apply Nat.lt_succ_r, Nat.Div0.div_lt_upper_bound. pose proof (Nat.div_mod_eq n BSZ).
  assert (n mod BSZ < BSZ)%nat by (by apply Nat.mod_upper_bound). unfold BSZ in *. lia.
Qed.

Lemma mapped_within bl d off n m :
  mapped bl d 0 m -> (n = 0 \/ off + n <= m)%nat -> mapped bl d off n.
Proof. intros Hm Hn bn H1 H2 H3. apply Hm; [|lia..]. rewrite Nat.Div0.div_0_l. lia. Qed.

Lemma writei_post_ready s v ip i off src v' d' bk :
  file_ready s v ip i -> (off + length src <= NBLOCKS * BSZ)%nat ->
  fsrep p (set_blk bk (with_d ip d' s)) v' -> writei_post (fs_sb s) v i off src v' d' ->
  file_ready (set_blk bk (with_d ip d' s)) v' ip (i_with_d d' i) /\
  file_written (fs_sb s) (lv_blocks v) i off src (lv_blocks v') (i_with_d d' i).
Proof.
  intros [] Hmax Hs Hp. pose proof Hp as [P1 P2 P3 P4 P5 P6 P7 P8 P9 P10 P11 P12 P13].
  assert (Hsz : d_size d' <= MAXFILE * BSIZE).
  { rewrite P5. unfold new_size. case_match; [|done]. unfold MAXFILE, BSIZE, NBLOCKS, BSZ in *. lia. }
  assert (Hok : dinode_ok d').
  { pose proof (inode_wf_addrs _ _ _ P1 P2). pose proof (iw_len _ _ _ P2).
    assert (0 <= d_size d').
    { rewrite P5. unfold new_size. case_match; [lia|apply (dok_size _ fr_ok0)]. }
    rewrite P6. destruct fr_ok0. constructor; simpl; try done.
    unfold MAXFILE, BSIZE in *. lia. }
  split.
  - constructor; try done.
    + by apply with_d_lookup.
    + cbn [i_d i_with_d]. rewrite P6. done.
  - constructor; try done.
    + cbn [i_d i_with_d]. f_equal. exact P6.
    + intros Hfull Hsync. cbn [i_d i_with_d]. rewrite P8 by done.
      destruct (decide (d_size d' = d_size (i_d i))) as [E|E];
        [rewrite decide_False by tauto|by rewrite decide_True].
      rewrite Hsync. symmetry. apply P7; [done|]. eapply mapped_within; [exact Hfull|].
      revert P5. rewrite E. unfold new_size. destruct (Z.ltb_spec 0 (Z.of_nat (length src))); [|lia].
      destruct (Z.ltb_spec (d_size (i_d i)) (Z.of_nat (off + length src))); simpl; lia.
    + intros d2 Hd2 Hdis. by eapply writei_others.
Qed.

(** [writei] in terms of [file_ready] and [file_written]. *)
Lemma writei_written s v ip i src off :
  file_ready s v ip i -> bytes_ok src -> Z.of_nat off <= d_size (i_d i) ->
  (off + length src <= NBLOCKS * BSZ)%nat ->
  avail (fs_sb s) v (2 * touched off (length src) + 1) ->
  (2 * touched off (length src) <= size (free_set (fs_sb s) (lv_blocks v)))%nat ->
  wp (writei devsw p ip src (Z.of_nat off) (Z.of_nat (length src)))
     (fun r s' => r = Z.of_nat (length src) /\ exists v' i', file_ready s' v' ip i' /\
        file_written (fs_sb s) (lv_blocks v) i off src (lv_blocks v') i' /\
        fs_sb s' = fs_sb s /\ forall jp, jp <> ip -> fs_inode s' !! jp = fs_inode s !! jp) s.
Proof.
  intros Hr Hb Hoff Hmax Ha Hf. pose proof Hr as [].
  eapply (writei_spec s v ip i src off (touched off (length src))); try done.
  - apply fr_held0. - apply fr_held0. - apply touched_enough. - apply touched_fuel.
  - intros v' d' bk Hs' Hp. split; [done|]. exists v', (i_with_d d' i).
    destruct (writei_post_ready _ _ _ _ _ _ _ _ _ Hr Hmax Hs' Hp). split_and!; try done.
    intros jp Hne. unfold with_d. simpl. by rewrite list_lookup_alter_ne.
Qed.

(** C7: [writei] stores [src] in the file at offset [off] and returns its
    length: afterwards byte [o] of the file is [src[o - off]] for [o] in the
    range written and what it was for every other [o]; the size is the larger
    of the old size and the end of the write; nothing else of the inode
    changes, and every other well-formed inode that shares no block with this
    one keeps its blocks and their content.  When the size has changed, the
    inode on the disk is the new one, and no other inode on the disk changes
    ever; so an inode without holes that was up to date on the disk still is.
    It needs [off] to be within the file, the end within the maximum size, and
    room in the log and on the disk for two blocks per block touched and the
    inode. *)
Theorem writei_correct s v ip i src off :
  file_ready s v ip i -> bytes_ok src -> Z.of_nat off <= d_size (i_d i) ->
  (off + length src <= NBLOCKS * BSZ)%nat ->
  avail (fs_sb s) v (2 * touched off (length src) + 1) ->
  (2 * touched off (length src) <= size (free_set (fs_sb s) (lv_blocks v)))%nat ->
  wp (writei devsw p ip src (Z.of_nat off) (Z.of_nat (length src)))
     (fun r s' => r = Z.of_nat (length src) /\ exists v' i', file_ready s' v' ip i' /\
        file_written (fs_sb s) (lv_blocks v) i off src (lv_blocks v') i' /\
        fs_sb s' = fs_sb s /\ forall jp, jp <> ip -> fs_inode s' !! jp = fs_inode s !! jp) s.
Proof. apply writei_written. Qed.

(** What is written is read back: after [writei] of [src] at [off],
    [readi] of as many bytes at [off] returns exactly [src]. *)
Theorem writei_readi s v ip i src off :
  file_ready s v ip i -> bytes_ok src -> Z.of_nat off <= d_size (i_d i) ->
  (off + length src <= NBLOCKS * BSZ)%nat ->
  avail (fs_sb s) v (2 * touched off (length src) + 1) ->
  (2 * touched off (length src) <= size (free_set (fs_sb s) (lv_blocks v)))%nat ->
  wp (let* r := writei devsw p ip src (Z.of_nat off) (Z.of_nat (length src)) in
      let* l := readi devsw p ip (Z.of_nat off) (Z.of_nat (length src)) in
      ret (r, l))
     (fun res s' => res = (Z.of_nat (length src), (Z.of_nat (length src), src))) s.
Proof.
  intros Hr Hb Hoff Hmax Ha Hf. pose proof Hr as []. wp_step.
  eapply (writei_spec s v ip i src off (touched off (length src))); try done;
    [apply fr_held0|apply fr_held0|apply touched_enough|apply touched_fuel|].
  intros v' d' bk Hs' Hp.
  destruct (writei_post_ready _ _ _ _ _ _ _ _ _ Hr Hmax Hs' Hp) as [Hr' [W1 W2 _ W3 W4 _ _ _]].
  wp_step. pose proof Hr' as [Q1 Q2 Q3 Q4 Q5 Q6 Q7 [Q8 Q9] Q10 Q11]. cbn [i_d i_with_d] in *.
  assert (Hle : Z.of_nat (off + length src) <= d_size d' \/ length src = 0%nat).
  { rewrite W3. unfold new_size. destruct (Z.ltb_spec 0 (Z.of_nat (length src))); [|right; lia].
    destruct (Z.ltb_spec (d_size (i_d i)) (Z.of_nat (off + length src))); simpl; lia. }
  assert (Hle0 : Z.of_nat off <= d_size d').
  { rewrite W3. unfold new_size. case_match; lia. }
  assert (Em : Nat.min (length src) (Z.to_nat (d_size d') - off) = length src) by lia.
  eapply readi_spec; try done; cbn [i_d i_with_d]; rewrite ?Em; try done.
  { unfold NBLOCKS, BSZ in *. lia. }
  intros b2 Hb2. wp_step. do 2 f_equal. apply list_eq. intros k. unfold fread.
  rewrite list_lookup_fmap. destruct (src !! k) as [x|] eqn:Ek.
  - pose proof (lookup_lt_Some _ _ _ Ek). rewrite lookup_seq_lt by done. simpl.
    rewrite W1 by lia. unfold fpatch. rewrite decide_True by lia. unfold byte_at.
    replace (off + k - off)%nat with k by lia. by rewrite Ek.
  - apply lookup_ge_None in Ek. by rewrite lookup_seq_ge.
Qed.

(** [writei] refuses, changing nothing, a write that starts beyond the end
    of the file, whose end wraps around, or that would exceed the maximum file
    size. *)
Theorem writei_rejects s ip i src off n :
  fs_inode s !! ip = Some i -> d_type (i_d i) <> T_DEV ->
  d_size (i_d i) < off \/ u32 (off + n) < off \/ MAXFILE * BSIZE < u32 (off + n) ->
  writei devsw p ip src off n s = Ok (-1) s [].
Proof.
  intros Hip Ht Hc. unfold writei, read_inode, bind, get, deref. rewrite Hip. simpl.
  destruct (Z.eqb_spec (d_type (i_d i)) T_DEV); [done|].
  destruct (Z.ltb_spec (d_size (i_d i)) off); [done|].
  destruct (Z.ltb_spec (u32 (off + n)) off); [done|]. simpl.
  destruct (Z.ltb_spec (MAXFILE * BSIZE) (u32 (off + n))) as [|Hle]; [done|].
  unfold MAXFILE, BSIZE in *. lia.
Qed.
End file.
