(* ===== verification/FsCache.v ===== *)
(** * The inode cache

    [iget], [idup], [ilock], [iunlock] and [iput] of [kernel/fs.c].  The cache
    holds at most one referenced entry per disk inode; a locked valid entry is
    the in-memory copy of that disk inode; the last reference to an inode
    without links frees its blocks. *)

From S2P Require Import Prelude SleepLock Bio Layout Log BlockLayer ProcDefs Fs FsAlloc FsInode.

(** The entry stands for disk inode (dev, inum). *)
Definition is_ino (dev inum : Z) (i : inode) : Prop :=
  0 < i_ref i /\ i_dev i = dev /\ i_inum i = inum.

(** Reference counts are counts, and no disk inode has two entries. *)
Record icache_ok (l : list inode) : Prop := {
  ic_ref : forall j i, l !! j = Some i -> 0 <= i_ref i;
  ic_uniq : forall j k i i' dev inum, l !! j = Some i -> l !! k = Some i' ->
    is_ino dev inum i -> is_ino dev inum i' -> j = k }.

(** There is an entry for (dev, inum), or one that is free. *)
Definition icache_room (dev inum : Z) (l : list inode) : Prop :=
  exists j i, l !! j = Some i /\ (is_ino dev inum i \/ i_ref i = 0).

Lemma iget_loop_hit dev inum l k e j :
  iget_loop dev inum l k e = inl j ->
  (k <= j)%nat /\ exists i, l !! (j - k)%nat = Some i /\ is_ino dev inum i.
Proof.
  revert k e. induction l as [|i l IH]; intros k e; [done|]. cbn [iget_loop].
  destruct ((0 <? i_ref i) && (i_dev i =? dev) && (i_inum i =? inum)) eqn:E.
  - intros [= <-]. split; [lia|]. exists i. rewrite Nat.sub_diag. split; [done|].
    apply andb_true_iff in E as [[? ?]%andb_true_iff ?]. unfold is_ino. lia.
  - intros Hg. apply IH in Hg as (Hk & i' & Hi & H'). split; [lia|]. exists i'. split; [|done].
    by replace (j - k)%nat with (S (j - S k)) by lia.
Qed.

Lemma iget_loop_miss dev inum l k e r :
  iget_loop dev inum l k e = inr r ->
  (forall j i, l !! j = Some i -> ~ is_ino dev inum i) /\
  match r with
  | Some j => e = Some j \/
      (e = None /\ (k <= j)%nat /\ exists i, l !! (j - k)%nat = Some i /\ i_ref i = 0)
  | None => e = None /\ forall j i, l !! j = Some i -> i_ref i <> 0
  end.
Proof.
  revert k e. induction l as [|i l IH]; intros k e.
  { cbn [iget_loop]. intros [= ->]. split; [done|]. destruct r; [by left|done]. }
  cbn [iget_loop].
  destruct ((0 <? i_ref i) && (i_dev i =? dev) && (i_inum i =? inum)) eqn:E; [done|].
  intros Hg. apply IH in Hg as [Hno Hr]. clear IH. split.
  - intros [|j] i' Hi; [|by eapply (Hno j)]. injection Hi as ->. intros (? & ? & ?). lia.
  - destruct e as [e|].
    + destruct r; [|by destruct Hr]. left. by destruct Hr as [|(? & ? & ?)].
    + destruct (Z.eqb_spec (i_ref i) 0) as [E0|E0]; destruct r as [j|]; [| | |].
      * right. destruct Hr as [[= <-]|(? & _)]; [|done]. split; [done|]. split; [lia|].
        exists i. by rewrite Nat.sub_diag.
      * by destruct Hr.
      * right. destruct Hr as [?|(_ & ? & i' & ? & ?)]; [done|]. split; [done|]. split; [lia|].
        exists i'. by replace (j - k)%nat with (S (j - S k)) by lia.
      * split; [done|]. intros [|j] i' Hi; [by injection Hi as ->|]. by eapply (proj2 Hr j).
Qed.

(** What [iget] makes of the entry it chose. *)
Definition got (dev inum : Z) (i i' : inode) : Prop :=
  (is_ino dev inum i /\ i' = i_with_ref (i_ref i + 1) i) \/
  (i_ref i = 0 /\ i' = Inode dev inum 1 (i_lock i) false (i_d i)).

Lemma got_ino dev inum i i' : 0 <= i_ref i -> got dev inum i i' -> is_ino dev inum i'.
Proof. intros ? [[(? & ? & ?) ->]|[? ->]]; unfold is_ino; simpl; lia. Qed.

Lemma icache_ok_got l dev inum j i i' :
  icache_ok l -> l !! j = Some i -> got dev inum i i' ->
  (i_ref i = 0 -> forall k i, l !! k = Some i -> ~ is_ino dev inum i) ->
  icache_ok (<[j := i']> l).
Proof.
  intros [Hr Hu] Hj Hg Hno. pose proof (got_ino _ _ _ _ (Hr _ _ Hj) Hg) as Hi'.
  assert (Hlt : (j < length l)%nat) by (by eapply lookup_lt_Some).
  assert (Hother : forall k ik, k <> j -> l !! k = Some ik -> ~ is_ino dev inum ik).
  { intros k ik Hne Hk Hik. destruct Hg as [[Hi _]|[H0 _]]; [|by eapply Hno].
    apply Hne. by eapply Hu. }
  assert (Hid : forall d n, is_ino d n i' -> d = dev /\ n = inum).
  { intros d n (_ & <- & <-). by destruct Hi' as (_ & -> & ->). }
  split.
  - intros k ik. destruct (decide (k = j)) as [->|].
    + rewrite list_lookup_insert_eq by done. intros [= <-]. destruct Hi'. lia.
    + rewrite list_lookup_insert_ne by done. apply Hr.
  - intros k1 k2 i1 i2 d n.
    destruct (decide (k1 = j)) as [->|], (decide (k2 = j)) as [->|];
      rewrite ?list_lookup_insert_eq, ?list_lookup_insert_ne by done; [done| | |by apply Hu].
    + intros [= <-] H2 H1' H2'. apply Hid in H1' as [-> ->]. by destruct (Hother k2 i2).
    + intros H1 [= <-] H1' H2'. apply Hid in H2' as [-> ->]. by destruct (Hother k1 i1).
Qed.

Section cache.
Context {B D : Type} `{BlockLayer B} (p : proc).
Implicit Types (s : fs B D) (v : lview).

Lemma iget_spec s dev inum (Q : nat -> fs B D -> Prop) :
  icache_ok (fs_inode s) -> icache_room dev inum (fs_inode s) ->
  (forall ip i i', fs_inode s !! ip = Some i -> got dev inum i i' ->
     icache_ok (<[ip := i']> (fs_inode s)) ->
     Q ip (set_inodes (<[ip := i']> (fs_inode s)) s)) ->
  wp (iget dev inum) Q s.
Proof.
  intros Hok (j & i0 & Hj & Hroom) HQ. unfold iget. wp_step. wp_step.
  destruct (iget_loop dev inum (fs_inode s) 0 None) as [ip|[ip|]] eqn:E.
  - apply iget_loop_hit in E as (_ & i & Hi & Hino). rewrite Nat.sub_0_r in Hi.
    assert (Hg : got dev inum i (i_with_ref (i_ref i + 1) i)) by (left; done).
    wp_step. unfold upd_inode. wp_step. wp_step.
    rewrite (alter_as_insert _ _ _ _ Hi). apply (HQ ip i _ Hi Hg).
    eapply icache_ok_got; try done. destruct Hino. lia.
  - apply iget_loop_miss in E as (Hno & [?|(_ & _ & i & Hi & Hz)]); [done|].
    rewrite Nat.sub_0_r in Hi.
    assert (Hg : got dev inum i (Inode dev inum 1 (i_lock i) false (i_d i))) by (right; done).
    wp_step. unfold upd_inode. wp_step. wp_step.
    rewrite (alter_as_insert _ _ _ _ Hi). apply (HQ ip i _ Hi Hg).
    by eapply icache_ok_got.
  - apply iget_loop_miss in E as (Hno & _ & Hz). destruct Hroom; [by eapply Hno|by eapply Hz].
Qed.

(** [iget] returns the one entry of the cache for a disk inode: the entry
    it already has, with one more reference, or a fresh invalid one in a free
    slot; other entries are untouched and no inode ends up cached twice. *)
Theorem iget_correct s dev inum :
  icache_ok (fs_inode s) -> icache_room dev inum (fs_inode s) ->
  wp (iget dev inum) (fun ip s' => icache_ok (fs_inode s') /\ fs_blk s' = fs_blk s /\
    (forall jp, jp <> ip -> fs_inode s' !! jp = fs_inode s !! jp) /\
    exists i i', fs_inode s !! ip = Some i /\ fs_inode s' !! ip = Some i' /\
      is_ino dev inum i' /\ i_ref i' = i_ref i + 1 /\
      (is_ino dev inum i -> i_valid i' = i_valid i /\ i_d i' = i_d i) /\
      (i_ref i = 0 -> i_valid i' = false)) s.
Proof.
  intros Hok Hroom. apply iget_spec; [done..|]. intros ip i i' Hi Hg Hok'. split; [done|].
  split; [done|]. cbn [fs_inode set_inodes]. split; [intros jp Hne; by rewrite list_lookup_insert_ne|].
  exists i, i'. split; [done|]. split; [apply list_lookup_insert_eq; by eapply lookup_lt_Some|].
  split; [eapply got_ino; [|done]; by eapply (ic_ref _ Hok)|].
  destruct Hg as [[Hino ->]|[Hz ->]]; simpl; (split_and!; [lia| |]).
  - done. - destruct Hino. lia. - intros [? _]. lia. - done.
Qed.

(** With the cache full of other inodes, [iget] panics. *)
Theorem iget_full s dev inum :
  ~ icache_room dev inum (fs_inode s) -> iget dev inum s = Panic "iget: no inodes".
Proof.
  intros Hno. unfold iget, bind, get. cbn.
  destruct (iget_loop dev inum (fs_inode s) 0 None) as [ip|[ip|]] eqn:E; [| |done]; destruct Hno.
  - apply iget_loop_hit in E as (_ & i & Hi & Hino). exists (ip - 0)%nat, i. eauto.
  - apply iget_loop_miss in E as (_ & [?|(_ & _ & i & Hi & Hz)]); [done|].
    exists (ip - 0)%nat, i. eauto.
Qed.

Lemma wp_upd_inode s ip i f (Q : unit -> fs B D -> Prop) :
  fs_inode s !! ip = Some i -> Q tt (set_inodes (<[ip := f i]> (fs_inode s)) s) ->
  wp (upd_inode ip f) Q s.
Proof. intros Hi HQ. unfold upd_inode. wp_step. by rewrite (alter_as_insert _ _ _ _ Hi). Qed.

(** Taking the lock of an unlocked inode. *)
Lemma wp_take_lock s ip i (Q : unit -> fs B D -> Prop) :
  fs_inode s !! ip = Some i -> sl_locked (i_lock i) = false ->
  Q tt (set_inodes (<[ip := i_with_lock (SleepLock true (p_pid p)) i]> (fs_inode s)) s) ->
  wp (acquiresleep (inode_lock ip) (set_inode_lock ip) (ChInodeLock ip) (p_pid p)) Q s.
Proof.
  intros Hi Hl HQ. unfold wp, acquiresleep, inode_lock. rewrite Hi, Hl. unfold set_inode_lock.
  by rewrite (alter_as_insert _ _ _ _ Hi).
Qed.

Lemma insert_twice (l : list inode) ip i i' : <[ip := i']> (<[ip := i]> l) = <[ip := i']> l.
Proof. apply list_insert_insert_eq. Qed.

(** The entry of a locked valid inode. *)
Definition locked_inode (d : dinode) (i : inode) : inode :=
  Inode (i_dev i) (i_inum i) (i_ref i) (SleepLock true (p_pid p)) true d.

Definition entry_at (ip : nat) (i : inode) s : fs B D := set_inodes (<[ip := i]> (fs_inode s)) s.

Lemma entry_at_lookup ip i j s :
  fs_inode s !! ip = Some j -> fs_inode (entry_at ip i s) !! ip = Some i.
Proof. intros Hj. apply list_lookup_insert_eq. by eapply lookup_lt_Some. Qed.

Lemma entry_at_twice ip i i' s : entry_at ip i' (entry_at ip i s) = entry_at ip i' s.
Proof. unfold entry_at. simpl. unfold set_inodes. simpl. by rewrite insert_twice. Qed.

Lemma ilock_spec s v ip i (Q : unit -> fs B D -> Prop) :
  let sb := fs_sb s in
  let d := if i_valid i then i_d i else dino sb (lv_blocks v) (i_inum i) in
  fsrep p s v -> alloc_wf sb (lv_blocks v) -> fs_inode s !! ip = Some i -> 1 <= i_ref i ->
  sl_locked (i_lock i) = false -> i_dev i = ROOTDEV -> 0 <= i_inum i < sb_ninodes sb ->
  lv_held v = ∅ -> lv_pend v = ∅ -> (i_valid i = false -> d_type d <> 0) ->
  (forall bk, fsrep p (set_blk bk (entry_at ip (locked_inode d i) s)) v ->
     Q tt (set_blk bk (entry_at ip (locked_inode d i) s))) ->
  wp (ilock p ip) Q s.
Proof.
  intros sb d Hs Hw Hi Href Hl Hdev Hr Hh Hp Ht HQ. unfold ilock. wp_step.
  eapply wp_read_inode; [done|]. destruct (Z.ltb_spec (i_ref i) 1); [lia|]. wp_step.
  eapply wp_take_lock; [done|done|]. fold (entry_at ip (i_with_lock (SleepLock true (p_pid p)) i) s).
  set (i1 := i_with_lock _ i). wp_step.
  eapply wp_read_inode; [by eapply entry_at_lookup|]. cbn [i_valid i_with_lock i1].
  destruct (i_valid i) eqn:Ev.
  { wp_step. replace (entry_at ip i1 s) with (set_blk (fs_blk s) (entry_at ip (locked_inode d i) s)).
    - by apply HQ.
    - unfold i1, locked_inode, i_with_lock, d. rewrite Ev. done. }
  wp_step. wp_step. change (i_dev i1) with (i_dev i). change (i_inum i1) with (i_inum i).
  cbn [fs_sb entry_at set_inodes]. rewrite Hdev. fold sb.
  destruct (aw_ib _ _ Hw _ (IBLOCK_iset sb _ _ Hw Hr)) as [[x Hx] _].
  wp_step. eapply fwp_bread; [done|done|by rewrite Hh|rewrite Hh; apply Nat.le_0_l|].
  intros bp b1 Hb1. wp_step. eapply fwp_bdata; [done|done|]. wp_step.
  eapply wp_upd_inode; [by eapply entry_at_lookup|].
  fold (entry_at ip (i_with_d (get_dinode (ino_slot (i_inum i)) x) i1) (set_blk b1 (entry_at ip i1 s))).
  assert (Ed : get_dinode (ino_slot (i_inum i)) x = d).
  { unfold d, dino. by rewrite (block_of_some _ _ _ Hx). }
  rewrite Ed. wp_step. eapply (fwp_brelse p _ v); [exact Hb1|by rewrite Hh|done|].
  intros b2 Hb2. wp_step. eapply wp_upd_inode.
  { eapply (entry_at_lookup ip _ i1). by eapply (entry_at_lookup ip _ i). }
  match goal with |- wp _ _ ?x =>
    assert (Es : x = set_blk b2 (entry_at ip (locked_inode d i) s)) end.
  { unfold entry_at, set_blk, set_inodes, locked_inode, i_with_valid, i_with_d, i1, i_with_lock.
    cbn. by rewrite !insert_twice. }
  rewrite Es. wp_step. eapply wp_read_inode; [by eapply entry_at_lookup|]. cbn [i_d locked_inode].
  destruct (Z.eqb_spec (d_type d) 0); [by destruct Ht|]. wp_step. by apply HQ.
Qed.

(** [ilock] of an unlocked inode leaves it locked by the process and
    valid; an entry that was not valid gets the content of the disk inode. *)
Theorem ilock_correct s v ip i :
  let sb := fs_sb s in
  let d := if i_valid i then i_d i else dino sb (lv_blocks v) (i_inum i) in
  fsrep p s v -> alloc_wf sb (lv_blocks v) -> fs_inode s !! ip = Some i -> 1 <= i_ref i ->
  sl_locked (i_lock i) = false -> i_dev i = ROOTDEV -> 0 <= i_inum i < sb_ninodes sb ->
  lv_held v = ∅ -> lv_pend v = ∅ -> (i_valid i = false -> d_type d <> 0) ->
  wp (ilock p ip) (fun _ s' => fsrep p s' v /\ fs_inode s' = <[ip := locked_inode d i]> (fs_inode s)) s.
Proof. intros. by eapply (ilock_spec s v ip i). Qed.
End cache.
