(* ===== verification/FsTrunc.v ===== *)
(** * Truncation and the end of an inode

    [itrunc] and [iput] of [kernel/fs.c]: the blocks of an inode that lost its
    last link and its last reference go back to the free map, all of them and
    nothing else. *)

From S2P Require Import Prelude SleepLock Bio Layout Log BlockLayer ProcDefs Fs FsAlloc FsInode.
From S2P Require Import FsCache.

(** The view after freeing the blocks of a list, 0 standing for no block. *)
Definition free1 (sb : superblock) (v : lview) (b : Z) : lview :=
  if b =? 0 then v else l_free sb b v.
Definition freed (sb : superblock) (v : lview) (l : list Z) : lview := foldl (free1 sb) v l.

(** The blocks of [l] can be freed, with room for [n] more blocks in the log. *)
Record can_free (sb : superblock) (n : nat) (v : lview) (l : list Z) : Prop := {
  cf_wf : alloc_wf sb (lv_blocks v);
  cf_pend : lv_pend v = ∅;
  cf_size : (size (lv_held v) <= 1)%nat;
  cf_held : forall x i, lv_held v !! x = Some i ->
    (x ∉ bmset sb) /\ (x ∉ l) /\ (0 <= x < sb_size sb -> used sb (lv_blocks v) x = true);
  cf_avail : avail sb v n;
  cf_data : forall b, b ∈ l -> b <> 0 -> data_blk sb (lv_blocks v) b;
  cf_nodup : NoDup (filter (fun b => b <> 0) l) }.

Section freed.
Context (sb : superblock) (n : nat).

Lemma data_blk_free v b a :
  alloc_wf sb (lv_blocks v) -> data_blk sb (lv_blocks v) b -> data_blk sb (lv_blocks v) a ->
  a <> b -> data_blk sb (lv_blocks (l_free sb b v)) a.
Proof.
  intros Hw [Hb _ _ _ _] [H1 H2 H3 H4 H5] Hne. constructor; try done.
  - rewrite used_free by (done || lia). by rewrite decide_False.
  - by rewrite free_blocks_other by (done || lia).
Qed.

Lemma can_free_tail v b l : can_free sb n v (b :: l) -> can_free sb n (free1 sb v b) l.
Proof.
  intros [H1 H2 H3 H4 H5 H6 H7]. unfold free1. destruct (Z.eqb_spec b 0) as [->|Hb].
  - constructor; try done.
    + intros x i Hx. destruct (H4 _ _ Hx) as (? & ? & ?). set_solver.
    + intros a Ha. apply H6. set_solver.
  - assert (Hdb : data_blk sb (lv_blocks v) b) by (apply H6; [set_solver|done]).
    pose proof Hdb as [Hr Hu Hsome Hbm Hino].
    rewrite filter_cons_True in H7 by done. apply NoDup_cons in H7 as [Hnin H7].
    constructor; try done.
    + by apply alloc_wf_free.
    + intros x i Hx. destruct (H4 x i) as (Hx1 & Hx2 & Hx3); [done|]. split; [done|].
      split; [set_solver|]. intros Hrx. rewrite used_free by (done || lia). rewrite Hx3 by done.
      rewrite decide_False; [done|]. set_solver.
    + apply (avail_bm sb v n _ _ H5). apply (BBLOCK_bmset sb (lv_blocks v)); [done|lia].
    + intros a Ha Hne. apply data_blk_free; [done|done| |].
      * apply H6; [set_solver|done].
      * intros ->. apply Hnin. by apply list_elem_of_filter.
Qed.

Lemma freed_ok v l : can_free sb n v l -> can_free sb n (freed sb v l) [].
Proof.
  revert v. induction l as [|b l IH]; intros v Hc; [done|]. apply IH. by apply can_free_tail.
Qed.

Lemma freed_other v l x :
  can_free sb n v l -> (x ∉ bmset sb) -> lv_blocks (freed sb v l) !! x = lv_blocks v !! x.
Proof.
  revert v. induction l as [|b l IH]; intros v Hc Hx; [done|]. cbn [freed foldl].
  change (foldl (free1 sb) ?a l) with (freed sb a l).
  rewrite IH by (done || by apply can_free_tail). unfold free1. destruct (Z.eqb_spec b 0); [done|].
  pose proof (cf_data _ _ _ _ Hc b ltac:(set_solver) ltac:(done)) as [].
  apply free_blocks_other; [apply Hc|done|lia].
Qed.

Lemma freed_used v l x :
  can_free sb n v l -> 0 <= x < sb_size sb ->
  used sb (lv_blocks (freed sb v l)) x =
    if decide (x <> 0 /\ x ∈ l) then false else used sb (lv_blocks v) x.
Proof.
  revert v. induction l as [|b l IH]; intros v Hc Hx.
  { rewrite decide_False; [done|]. set_solver. }
  cbn [freed foldl]. change (foldl (free1 sb) ?a l) with (freed sb a l).
  rewrite IH by (done || by apply can_free_tail). unfold free1.
  destruct (Z.eqb_spec b 0) as [->|Hb].
  - rewrite (decide_ext _ (x <> 0 /\ x ∈ 0 :: l)); [done|]. rewrite elem_of_cons. tauto.
  - pose proof (cf_data _ _ _ _ Hc b ltac:(set_solver) ltac:(done)) as [].
    rewrite used_free by (apply Hc || lia).
    destruct (decide (x = b)) as [->|Hne].
    + rewrite (decide_True (P := b <> 0 /\ b ∈ b :: l)) by (split; [done|left]). by case_decide.
    + rewrite (decide_ext _ (x <> 0 /\ x ∈ b :: l)); [done|]. rewrite elem_of_cons. tauto.
Qed.

Lemma freed_held v l : lv_held (freed sb v l) = lv_held v.
Proof.
  revert v. induction l as [|b l IH]; intros v; [done|]. cbn [freed foldl].
  change (foldl (free1 sb) ?a l) with (freed sb a l). rewrite IH. unfold free1. by case_match.
Qed.

Lemma can_free_l v l l' : can_free sb n v (l ++ l') -> can_free sb n v l.
Proof.
  intros [H1 H2 H3 H4 H5 H6 H7]. constructor; try done.
  - intros x i Hx. destruct (H4 x i Hx) as (? & Hn & ?). rewrite elem_of_app in Hn. tauto.
  - intros b Hb. apply H6. apply elem_of_app. by left.
  - rewrite filter_app in H7. by apply NoDup_app in H7 as [? _].
Qed.

Lemma can_free_r v l l' : can_free sb n v (l ++ l') -> can_free sb n (freed sb v l) l'.
Proof.
  revert v. induction l as [|b l IH]; intros v Hc; [done|]. apply IH. by apply can_free_tail.
Qed.

Lemma freed_app v l l' : freed sb v (l ++ l') = freed sb (freed sb v l) l'.
Proof. apply foldl_app. Qed.

Lemma freed_zeros v k : freed sb v (replicate k 0) = v.
Proof. induction k as [|k IH]; [done|]. exact IH. Qed.

Lemma freed_take v x i l : freed sb (l_take x i v) l = l_take x i (freed sb v l).
Proof.
  revert v. induction l as [|b l IH]; intros v; [done|].
  change (freed sb ?v (b :: l)) with (freed sb (free1 sb v b) l). rewrite <- IH. f_equal.
  unfold free1. by case_match.
Qed.
End freed.

Lemma NoDup_filter_fmap (f : nat -> Z) (l : list nat) :
  NoDup l -> (forall i j, i ∈ l -> j ∈ l -> f i = f j -> f i <> 0 -> i = j) ->
  NoDup (filter (fun b => b <> 0) (f <$> l)).
Proof.
  induction l as [|i l IH]; intros Hnd Hinj; [constructor|]. apply NoDup_cons in Hnd as [Hi Hnd].
  cbn [fmap list_fmap]. assert (IH' : NoDup (filter (fun b => b <> 0) (f <$> l))).
  { apply IH; [done|]. intros a b Ha Hb. apply Hinj; by apply list_elem_of_further. }
  destruct (decide (f i <> 0)) as [Hne|Hz].
  - rewrite filter_cons_True by done. apply NoDup_cons. split; [|done].
    intros [_ (j & Ej & Hj)%list_elem_of_fmap]%list_elem_of_filter. apply Hi.
    rewrite (Hinj i j); [done|left|by apply list_elem_of_further|done|done].
  - by rewrite filter_cons_False by done.
Qed.

(** All the blocks of an inode: the direct ones, those of the indirect block
    and the indirect block. *)
Definition inode_blocks (bl : gmap Z (list Z)) (d : dinode) : list Z :=
  (addr_of bl d <$> seq 0 NBLOCKS) ++ [ind_of d].

Lemma elem_inode_blocks bl d x : x <> 0 -> x ∈ inode_blocks bl d <-> owned bl d x.
Proof.
  intros Hx. unfold inode_blocks, owned. rewrite elem_of_app, list_elem_of_singleton, list_elem_of_fmap.
  split.
  - intros [(bn & -> & Hbn%elem_of_seq)| ->]; (split; [done|]); [right|by left].
    exists bn. split; [lia|done].
  - intros [_ [->|(bn & Hbn & <-)]]; [by right|left]. exists bn. split; [done|].
    apply elem_of_seq. lia.
Qed.

Lemma inode_can_free sb v n d :
  alloc_wf sb (lv_blocks v) -> inode_wf sb (lv_blocks v) d -> lv_held v = ∅ -> lv_pend v = ∅ ->
  avail sb v n -> can_free sb n v (inode_blocks (lv_blocks v) d).
Proof.
  intros Hw Hi Hh Hp Ha. constructor; try done.
  - rewrite Hh. apply Nat.le_0_l.
  - intros x i. by rewrite Hh.
  - intros b Hb Hne. apply (iw_data _ _ _ Hi). by apply elem_inode_blocks.
  - unfold inode_blocks. rewrite filter_app. apply NoDup_app. split_and!.
    + apply NoDup_filter_fmap; [apply NoDup_seq|]. intros i j Hi'%elem_of_seq Hj%elem_of_seq.
      apply (iw_inj _ _ _ Hi); lia.
    + intros x [Hne (bn & -> & Hbn%elem_of_seq)%list_elem_of_fmap]%list_elem_of_filter.
      intros [_ Hx%list_elem_of_singleton]%list_elem_of_filter.
      by apply (iw_ind _ _ _ Hi bn ltac:(lia)) in Hne.
    + destruct (decide (ind_of d <> 0)); [rewrite filter_cons_True by done; apply NoDup_singleton|].
      rewrite filter_cons_False by done. constructor.
Qed.

Lemma l_iupdate_wf sb i v :
  alloc_wf sb (lv_blocks v) -> dinode_ok (i_d i) -> 0 <= i_inum i < sb_ninodes sb ->
  alloc_wf sb (lv_blocks (l_iupdate sb i v)).
Proof.
  intros Hw Hok Hr. pose proof (IBLOCK_iset sb _ _ Hw Hr) as Hin.
  destruct (aw_ib _ _ Hw _ Hin) as [[x Hx] Hnb]. apply alloc_wf_insert; [done|done|].
  rewrite (block_of_some _ _ _ Hx). apply put_dinode_ok; [done| |apply ino_slot_bound].
  by eapply (aw_ok _ _ Hw).
Qed.

Lemma l_iupdate_held sb i v : lv_held (l_iupdate sb i v) = lv_held v.
Proof. done. Qed.
Lemma l_iupdate_pend sb i v : lv_pend (l_iupdate sb i v) = lv_pend v.
Proof. done. Qed.
Lemma l_iupdate_can_log sb i v :
  lv_op v = true -> can_log (l_iupdate sb i v) (IBLOCK (i_inum i) sb).
Proof. intros Ho. split; [done|left]. by apply elem_of_union_l, elem_of_singleton. Qed.

(** An inode without blocks. *)
Definition empty_d (d : dinode) : dinode :=
  d_with_size 0 (d_with_addrs (replicate (S NDIRECT) 0) d).

Lemma empty_d_ok d : dinode_ok d -> dinode_ok (empty_d d).
Proof. intros []. constructor; try done. by apply (Forall_replicate _ (S NDIRECT)). Qed.

Section trunc.
Context {B D : Type} `{BlockLayer B} (p : proc).
Implicit Types (s : fs B D) (v : lview).

Lemma can_free_ready sb n v l : can_free sb n v l -> alloc_ready sb v.
Proof.
  intros Hc. split; [apply Hc|]. split; [apply Hc|]. intros x i Hx.
  by destruct (cf_held _ _ _ _ Hc x i Hx) as (? & _ & ?).
Qed.

Lemma bfree_head s v n b l (Q : unit -> fs B D -> Prop) :
  let sb := fs_sb s in
  fsrep p s v -> can_free sb n v (b :: l) -> b <> 0 ->
  (forall bk, fsrep p (set_blk bk s) (free1 sb v b) -> Q tt (set_blk bk s)) ->
  wp (bfree p ROOTDEV b) Q s.
Proof.
  intros sb Hs Hc Hb HQ. pose proof (cf_data _ _ _ _ Hc b ltac:(set_solver) Hb) as [].
  apply (bfree_spec p s v b); try done.
  - apply Hc. - by eapply can_free_ready.
  - apply (avail_mono sb v n); [apply Hc|lia].
  - fold sb. lia.
  - intros bk Hbk. apply HQ. unfold free1. by destruct (Z.eqb_spec b 0).
Qed.

Definition ind_entries (a : list Z) (j k : nat) : list Z :=
  (fun j => get_le 4 (4 * j) a) <$> seq j k.

Lemma itrunc_indirect_spec k j s v n a (Q : unit -> fs B D -> Prop) :
  let sb := fs_sb s in
  fsrep p s v -> can_free sb n v (ind_entries a j k) ->
  (forall bk, fsrep p (set_blk bk s) (freed sb v (ind_entries a j k)) -> Q tt (set_blk bk s)) ->
  wp (itrunc_indirect p k ROOTDEV a j) Q s.
Proof.
  intros sb. revert s sb j v. induction k as [|k IH]; intros s sb j v Hs Hc HQ; cbn [itrunc_indirect].
  { wp_step. assert (E : set_blk (fs_blk s) s = s) by (by destruct s). rewrite <- E.
    apply HQ. by rewrite E. }
  change (ind_entries a j (S k)) with (get_le 4 (4 * j) a :: ind_entries a (S j) k) in *.
  set (b := get_le 4 (4 * j) a) in *. pose proof (can_free_tail _ _ _ _ _ Hc) as Hc'.
  assert (Hnext : forall bk, fsrep p (set_blk bk s) (free1 sb v b) ->
            wp (itrunc_indirect p k ROOTDEV a (S j)) Q (set_blk bk s)).
  { intros bk Hbk. apply (IH (set_blk bk s) (S j) (free1 sb v b)); [done|done|].
    intros b2 Hb2. by apply (HQ b2). }
  wp_step. destruct (Z.eqb_spec b 0) as [E0|E0]; cbn [negb].
  - wp_step. assert (E : set_blk (fs_blk s) s = s) by (by destruct s). rewrite <- E.
    apply Hnext. rewrite E. unfold free1. by rewrite E0.
  - by eapply (bfree_head s v).
Qed.

(** The direct addresses after clearing [k] of them from [i] on. *)
Definition clear_addrs (i k : nat) (d : dinode) : dinode :=
  d_with_addrs (splice i (replicate k 0) (d_addrs d)) d.
Definition direct_entries (d : dinode) (i k : nat) : list Z := slice i k (d_addrs d).

Lemma clear_addrs_step i k d x :
  d_addrs d !! i = Some x -> (i + S k <= length (d_addrs d))%nat ->
  clear_addrs (S i) k (set_addr i 0 d) = clear_addrs i (S k) d /\
  direct_entries d i (S k) = x :: direct_entries (set_addr i 0 d) (S i) k.
Proof.
  intros Hx Hl. split.
  - unfold clear_addrs, set_addr, d_with_addrs.
    cbn [d_type d_major d_minor d_nlink d_size d_addrs d_uid d_gid d_mode]. f_equal.
    apply list_eq. intros j.
    rewrite !lookup_splice by (rewrite ?length_insert, length_replicate; lia).
    rewrite !length_replicate. destruct (decide (j = i)) as [->|].
    + rewrite decide_False by lia. rewrite decide_True by lia. rewrite Nat.sub_diag. simpl.
      apply list_lookup_insert_eq. lia.
    + rewrite list_lookup_insert_ne by done. repeat case_decide; try lia; [|done].
      rewrite !lookup_replicate_2 by lia. done.
  - unfold direct_entries, set_addr. cbn. unfold slice. rewrite (drop_S _ x i Hx). cbn. f_equal.
    f_equal. by rewrite drop_insert_lt by lia.
Qed.

Lemma with_d_blk ip d b s : with_d ip d (set_blk b s) = set_blk b (with_d ip d s).
Proof. done. Qed.

Lemma itrunc_direct_spec k i s v n ip ino (Q : unit -> fs B D -> Prop) :
  let sb := fs_sb s in
  let d := i_d ino in
  fsrep p s v -> fs_inode s !! ip = Some ino -> i_dev ino = ROOTDEV ->
  (i + k <= length (d_addrs d))%nat -> can_free sb n v (direct_entries d i k) ->
  (forall bk, fsrep p (set_blk bk (with_d ip (clear_addrs i k d) s)) (freed sb v (direct_entries d i k)) ->
     Q tt (set_blk bk (with_d ip (clear_addrs i k d) s))) ->
  wp (itrunc_direct p k ip i) Q s.
Proof.
  intros sb d. revert i s sb v ino d.
  induction k as [|k IH]; intros i s sb v ino d Hs Hip Hdev Hlen Hc HQ; cbn [itrunc_direct].
  { wp_step. assert (E : set_blk (fs_blk s) (with_d ip (clear_addrs i 0 d) s) = s).
    { assert (Ec : clear_addrs i 0 d = i_d ino); [|rewrite Ec, with_d_id by done; by destruct s].
      unfold clear_addrs, splice. cbn [replicate length]. rewrite Nat.add_0_r. cbn [app].
      rewrite take_drop. unfold d. by destruct (i_d ino). }
    rewrite <- E. apply HQ. by rewrite E. }
  wp_step. eapply wp_read_inode; [done|].
  destruct (lookup_lt_is_Some_2 (d_addrs d) i) as [x Hx]; [lia|].
  destruct (clear_addrs_step i k d x Hx Hlen) as [Ec Ed]. rewrite Ed in HQ, Hc.
  fold d. rewrite Hx, Hdev. cbn [default from_option id]. cbv zeta.
  pose proof (can_free_tail _ _ _ _ _ Hc) as Hc'.
  set (d1 := set_addr i 0 d) in *. set (ino1 := i_with_d d1 ino).
  assert (Hnext : forall bk, fsrep p (set_blk bk (with_d ip d1 s)) (free1 sb v x) ->
            wp (itrunc_direct p k ip (S i)) Q (set_blk bk (with_d ip d1 s))).
  { intros bk Hbk. apply (IH (S i) (set_blk bk (with_d ip d1 s)) (free1 sb v x) ino1); try done.
    - by apply with_d_lookup.
    - unfold ino1, d1. cbn. rewrite length_insert. lia.
    - intros b2. rewrite with_d_blk, with_d_twice. change (i_d ino1) with d1. rewrite Ec. apply (HQ b2). }
  assert (Eid : x = 0 -> d1 = d).
  { intros ->. unfold d1, set_addr. rewrite list_insert_id by done. by destruct d. }
  wp_step. destruct (Z.eqb_spec x 0) as [E0|E0]; cbn [negb].
  - wp_step. assert (E : set_blk (fs_blk s) (with_d ip d1 s) = s).
    { rewrite Eid by done. unfold d. rewrite with_d_id by done. by destruct s. }
    rewrite <- E. apply Hnext. rewrite E. unfold free1. by rewrite E0.
  - wp_step. eapply (bfree_head s v n x); try done. intros bk Hbk.
    eapply wp_upd_d; [exact Hip|]. by apply Hnext.
Qed.

Lemma clear_all d : length (d_addrs d) = S NDIRECT ->
  set_addr NDIRECT 0 (clear_addrs 0 NDIRECT d) = d_with_addrs (replicate (S NDIRECT) 0) d.
Proof.
  intros Hl. unfold set_addr, clear_addrs. cbn [d_addrs d_with_addrs]. unfold d_with_addrs.
  cbn [d_type d_major d_minor d_nlink d_size d_addrs d_uid d_gid d_mode]. f_equal.
  apply list_eq. intros j. destruct (decide (j = NDIRECT)) as [->|Hne].
  - rewrite list_lookup_insert_eq; [done|].
    rewrite length_splice by (rewrite length_replicate; lia). lia.
  - rewrite list_lookup_insert_ne by done. rewrite lookup_splice by (rewrite length_replicate; lia).
    rewrite length_replicate. case_decide.
    + rewrite !lookup_replicate_2 by lia. done.
    + rewrite lookup_ge_None_2 by lia. symmetry. apply lookup_replicate_None. lia.
Qed.

Lemma direct_blocks bl d : length (d_addrs d) = S NDIRECT ->
  direct_entries d 0 NDIRECT = addr_of bl d <$> seq 0 NDIRECT.
Proof.
  intros Hl. unfold direct_entries. apply list_eq. intros j. rewrite lookup_slice, list_lookup_fmap.
  case_decide as Hj.
  - rewrite lookup_seq_lt by done. cbn [fmap option_fmap option_map]. unfold addr_of.
    rewrite (proj2 (Nat.ltb_lt _ _)) by done.
    destruct (lookup_lt_is_Some_2 (d_addrs d) (0 + j)) as [x Hx]; [lia|].
    by rewrite Hx.
  - rewrite lookup_seq_ge by lia. done.
Qed.

Lemma indirect_blocks bl d : ind_of d <> 0 ->
  ind_entries (block_of bl (ind_of d)) 0 NINDIRECT = addr_of bl d <$> seq NDIRECT NINDIRECT.
Proof.
  intros Hne. unfold ind_entries. apply list_eq. intros j. rewrite !list_lookup_fmap.
  destruct (decide (j < NINDIRECT)%nat) as [Hj|Hj].
  - rewrite !lookup_seq_lt by done. cbn [fmap option_fmap option_map]. f_equal. unfold addr_of.
    rewrite (proj2 (Nat.ltb_ge _ _)) by lia. destruct (Z.eqb_spec (ind_of d) 0); [done|].
    f_equal. lia.
  - by rewrite !lookup_seq_ge by lia.
Qed.

(** Holding the indirect block while its entries are freed. *)
Lemma can_free_take sb n v l x i :
  can_free sb n v l -> lv_held v = ∅ -> (x ∉ bmset sb) -> (x ∉ l) ->
  used sb (lv_blocks v) x = true -> can_free sb n (l_take x i v) l.
Proof.
  intros [H1 H2 H3 H4 H5 H6 H7] Hh Hx Hl Hu. constructor; try done; cbn [lv_held l_take]; rewrite Hh.
  - rewrite insert_empty, map_size_singleton. lia.
  - intros y j [[<- _]|[_ Hy]]%lookup_insert_Some; [done|by rewrite lookup_empty in Hy].
Qed.

(** The part of [itrunc] that frees the indirect block and what it lists. *)
Lemma itrunc_ind_spec s v n ip i (Q : unit -> fs B D -> Prop) :
  let sb := fs_sb s in
  let d := i_d i in
  let l := ind_entries (block_of (lv_blocks v) (ind_of d)) 0 NINDIRECT ++ [ind_of d] in
  fsrep p s v -> fs_inode s !! ip = Some i -> i_dev i = ROOTDEV -> ind_of d <> 0 ->
  lv_held v = ∅ -> (ind_of d ∉ ind_entries (block_of (lv_blocks v) (ind_of d)) 0 NINDIRECT) ->
  can_free sb n v l ->
  (forall bk, fsrep p (set_blk bk (with_d ip (set_addr NDIRECT 0 d) s)) (freed sb v l) ->
     Q tt (set_blk bk (with_d ip (set_addr NDIRECT 0 d) s))) ->
  wp (let* bp := fbread p (i_dev i) (ind_of d) in
      let* a := fbdata bp in
      do* itrunc_indirect p NINDIRECT (i_dev i) a 0 in
      do* fbrelse p bp in
      do* bfree p (i_dev i) (ind_of d) in
      upd_d ip (fun d => d_with_addrs (<[NDIRECT := 0]> (d_addrs d)) d)) Q s.
Proof.
  intros sb d l Hs Hip Hdev Hne Hh Hnin Hc HQ. rewrite Hdev. unfold l in Hc.
  pose proof (cf_data _ _ _ _ Hc (ind_of d) ltac:(apply elem_of_app; right; left) Hne) as [Hr Hu [a Ha] Hbm _].
  pose proof (can_free_r _ _ _ _ _ Hc) as Hcr. pose proof (can_free_l _ _ _ _ _ Hc) as Hcl.
  pose proof (freed_app sb v (ind_entries (block_of (lv_blocks v) (ind_of d)) 0 NINDIRECT) [ind_of d]) as Eapp.
  rewrite (block_of_some _ _ _ Ha) in *. fold l in Eapp.
  set (v1 := freed sb v (ind_entries a 0 NINDIRECT)) in *.
  wp_step. eapply fwp_bread; [done|done|by rewrite Hh|rewrite Hh; apply Nat.le_0_l|].
  intros bp b1 Hb1. wp_step. eapply fwp_bdata; [done|done|]. wp_step.
  eapply (itrunc_indirect_spec NINDIRECT 0 (set_blk b1 s) (l_take (ind_of d) bp v) n a); [done| |].
  { by apply can_free_take. }
  intros b2 Hb2. rewrite freed_take in Hb2. wp_step.
  assert (Hh1 : lv_held v1 = ∅) by (by unfold v1; rewrite freed_held).
  eapply (fwp_brelse p _ v1); [exact Hb2|by rewrite Hh1|apply Hcr|]. intros b3 Hb3. wp_step.
  eapply (bfree_head (set_blk b3 (set_blk b2 (set_blk b1 s))) v1 n (ind_of d) []); try done.
  intros b4 Hb4. eapply wp_upd_d; [exact Hip|]. apply (HQ b4).
  unfold l. rewrite (block_of_some _ _ _ Ha). rewrite Eapp. exact Hb4.
Qed.

Lemma clear_direct_ind d : ind_of (clear_addrs 0 NDIRECT d) = ind_of d.
Proof.
  unfold ind_of, clear_addrs. cbn [d_addrs d_with_addrs]. unfold splice. rewrite length_replicate.
  change (take 0 (d_addrs d)) with (@nil Z). rewrite app_nil_l.
  rewrite lookup_app_r by (by rewrite length_replicate).
  rewrite length_replicate, Nat.sub_diag, lookup_drop. by rewrite Nat.add_0_r.
Qed.

Lemma inode_blocks_split bl d : length (d_addrs d) = S NDIRECT ->
  inode_blocks bl d = direct_entries d 0 NDIRECT ++ ((addr_of bl d <$> seq NDIRECT NINDIRECT) ++ [ind_of d]).
Proof.
  intros Hl. unfold inode_blocks. rewrite (direct_blocks bl d Hl).
  change NBLOCKS with (NDIRECT + NINDIRECT)%nat. by rewrite seq_app, fmap_app, <- app_assoc.
Qed.

Lemma no_indirect bl d : ind_of d = 0 ->
  (addr_of bl d <$> seq NDIRECT NINDIRECT) ++ [ind_of d] = replicate (S NINDIRECT) 0.
Proof.
  intros E0. rewrite E0. replace (S NINDIRECT) with (NINDIRECT + 1)%nat by lia.
  rewrite replicate_add. f_equal. apply list_eq. intros j. rewrite list_lookup_fmap.
  destruct (decide (j < NINDIRECT)%nat).
  - rewrite lookup_seq_lt, lookup_replicate_2 by done. cbn [fmap option_fmap option_map].
    unfold addr_of. rewrite (proj2 (Nat.ltb_ge _ _)) by lia. by rewrite E0.
  - rewrite lookup_seq_ge by lia. symmetry. apply lookup_replicate_None. lia.
Qed.

(** The view after the blocks of the inode are freed, and the state. *)
Definition all_freed (sb : superblock) (d : dinode) (v : lview) : lview :=
  freed sb v (inode_blocks (lv_blocks v) d).

Lemma itrunc_blocks s v n ip i {A} (m : M (fs B D) A) (Q : A -> fs B D -> Prop) :
  let sb := fs_sb s in
  let d := i_d i in
  fsrep p s v -> inode_wf sb (lv_blocks v) d -> fs_inode s !! ip = Some i -> i_dev i = ROOTDEV ->
  lv_held v = ∅ -> can_free sb n v (inode_blocks (lv_blocks v) d) ->
  (forall bk, let s' := set_blk bk (with_d ip (d_with_addrs (replicate (S NDIRECT) 0) d) s) in
     fsrep p s' (all_freed sb d v) -> wp m Q s') ->
  wp (do* itrunc_direct p NDIRECT ip 0 in
      let* n := read_inode ip in
      let ind := default 0 (d_addrs (i_d n) !! NDIRECT) in
      do* when negb (ind =? 0) then
        (let* bp := fbread p (i_dev n) ind in
         let* a := fbdata bp in
         do* itrunc_indirect p NINDIRECT (i_dev n) a 0 in
         do* fbrelse p bp in
         do* bfree p (i_dev n) ind in
         upd_d ip (fun d => d_with_addrs (<[NDIRECT := 0]> (d_addrs d)) d)) in
      m) Q s.
Proof.
  intros sb d Hs Hi Hip Hdev Hh Hc HQ. pose proof (iw_len _ _ _ Hi) as Hlen. fold d in Hlen.
  rewrite inode_blocks_split in Hc by done.
  pose proof (can_free_l _ _ _ _ _ Hc) as Hcl. pose proof (can_free_r _ _ _ _ _ Hc) as Hcr.
  wp_step. eapply (itrunc_direct_spec NDIRECT 0 s v n ip i); try done; [fold d; lia|].
  fold d sb. intros b1 Hb1. set (d1 := clear_addrs 0 NDIRECT d) in *. set (i1 := i_with_d d1 i).
  assert (Hip1 : fs_inode (set_blk b1 (with_d ip d1 s)) !! ip = Some i1) by (by apply with_d_lookup).
  set (v1 := freed sb v (direct_entries d 0 NDIRECT)) in *.
  wp_step. eapply wp_read_inode; [exact Hip1|]. cbv zeta.
  change (default 0 (d_addrs (i_d i1) !! NDIRECT)) with (ind_of d1).
  assert (Eind : ind_of d1 = ind_of d) by apply clear_direct_ind.
  assert (Eall : all_freed sb d v = freed sb v1 ((addr_of (lv_blocks v) d <$> seq NDIRECT NINDIRECT) ++ [ind_of d])).
  { unfold all_freed. by rewrite inode_blocks_split, freed_app by done. }
  pose proof (clear_all d Hlen) as Eclr. fold d1 in Eclr. wp_step.
  destruct (Z.eqb_spec (ind_of d1) 0) as [E0|E0]; cbn [negb].
  - wp_step. rewrite Eind in E0. rewrite no_indirect, freed_zeros in Eall by done.
    rewrite <- Eclr in HQ. replace (set_addr NDIRECT 0 d1) with d1 in HQ.
    + apply (HQ b1). by rewrite Eall.
    + unfold set_addr. rewrite list_insert_id; [by destruct d1|].
      destruct (d_addrs d1 !! NDIRECT) as [x|] eqn:Ex; [|apply lookup_ge_None in Ex].
      * unfold ind_of in E0, Eind. rewrite Ex in Eind. cbn in Eind. congruence.
      * unfold d1, clear_addrs in Ex. cbn [d_addrs d_with_addrs] in Ex.
        rewrite length_splice in Ex by (rewrite length_replicate; lia). lia.
  - assert (Hne : ind_of d <> 0) by congruence.
    assert (Hdb : data_blk sb (lv_blocks v) (ind_of d)).
    { apply (iw_data _ _ _ Hi). split; [done|by left]. }
    assert (Eb : block_of (lv_blocks v1) (ind_of d) = block_of (lv_blocks v) (ind_of d)).
    { unfold block_of, v1. rewrite (freed_other _ _ _ _ _ Hcl); [done|apply Hdb]. }
    rewrite <- (indirect_blocks (lv_blocks v) d Hne), <- Eb in Eall, Hcr. rewrite <- Eind in *.
    apply (itrunc_ind_spec (set_blk b1 (with_d ip d1 s)) v1 n ip i1); try done.
    + unfold v1. by rewrite freed_held.
    + pose proof (cf_nodup _ _ _ _ Hcr) as Hnd. rewrite filter_app in Hnd.
      apply NoDup_app in Hnd as (_ & Hnd & _). intros Hin. apply (Hnd (ind_of d1)).
      * by apply list_elem_of_filter. * apply list_elem_of_filter. split; [done|left].
    + intros b2. change (i_d i1) with d1. rewrite with_d_blk, with_d_twice, Eclr.
      change (fs_sb (set_blk b1 (with_d ip d1 s))) with sb. rewrite <- Eall. apply (HQ b2).
Qed.

Lemma itrunc_spec s v ip i (Q : unit -> fs B D -> Prop) :
  let sb := fs_sb s in
  let d := i_d i in
  fsrep p s v -> alloc_wf sb (lv_blocks v) -> inode_wf sb (lv_blocks v) d -> dinode_ok d ->
  fs_inode s !! ip = Some i -> i_dev i = ROOTDEV -> 0 <= i_inum i < sb_ninodes sb ->
  lv_held v = ∅ -> lv_pend v = ∅ -> avail sb v 1 ->
  (forall bk, let s' := set_blk bk (with_d ip (empty_d d) s) in
     fsrep p s' (l_iupdate sb (i_with_d (empty_d d) i) (all_freed sb d v)) -> Q tt s') ->
  wp (itrunc p ip) Q s.
Proof.
  intros sb d Hs Hw Hi Hok Hip Hdev Hr Hh Hp Ha HQ.
  pose proof (inode_can_free sb v 1 d Hw Hi Hh Hp Ha) as Hc.
  pose proof (freed_ok _ _ _ _ Hc) as Hc'. unfold itrunc.
  apply (itrunc_blocks s v 1 ip i); try done. fold sb d. intros bk s' Hs'.
  set (d1 := d_with_addrs _ d) in *. wp_step.
  eapply wp_upd_d; [by apply (with_d_lookup s ip i d1)|]. cbn [i_d i_with_d].
  change (d_with_size 0 d1) with (empty_d d). unfold s'. rewrite with_d_blk, with_d_twice.
  apply (iupdate_spec p _ (all_freed sb d v) ip (i_with_d (empty_d d) i)); try done.
  - apply Hc'.
  - by apply (with_d_lookup s ip i).
  - by apply empty_d_ok.
  - unfold all_freed. by rewrite freed_held.
  - apply Hc'.
  - apply (avail_any sb (all_freed sb d v) 0 (IBLOCK (i_inum i) sb) []). apply Hc'.
Qed.

(** What is left of inode [i] after its blocks are freed and [d'] is written
    to its place on disk. *)
Record truncated (sb : superblock) (i : inode) (d' : dinode) (v v' : lview) : Prop := {
  tr_wf : alloc_wf sb (lv_blocks v');
  tr_used : forall x, 0 <= x < sb_size sb -> used sb (lv_blocks v') x = true <->
    used sb (lv_blocks v) x = true /\ ~ owned (lv_blocks v) (i_d i) x;
  tr_dino : forall inum, 0 <= inum < sb_ninodes sb -> dino sb (lv_blocks v') inum =
    if decide (inum = i_inum i) then d' else dino sb (lv_blocks v) inum;
  tr_frame : forall x, (x ∉ bmset sb) -> (x ∉ iset sb) -> lv_blocks v' !! x = lv_blocks v !! x;
  tr_held : lv_held v' = ∅;
  tr_pend : lv_pend v' = ∅;
  tr_log : can_log v' (IBLOCK (i_inum i) sb) }.

Lemma truncated_freed sb i v :
  let d := i_d i in
  let d' := empty_d d in
  alloc_wf sb (lv_blocks v) -> inode_wf sb (lv_blocks v) d -> dinode_ok d ->
  0 <= i_inum i < sb_ninodes sb -> lv_held v = ∅ -> lv_pend v = ∅ -> avail sb v 1 ->
  truncated sb i d' v (l_iupdate sb (i_with_d d' i) (all_freed sb d v)).
Proof.
  intros d d' Hw Hi Hok Hr Hh Hp Ha.
  pose proof (inode_can_free sb v 1 d Hw Hi Hh Hp Ha) as Hc.
  pose proof (freed_ok _ _ _ _ Hc) as Hc'. pose proof (cf_wf _ _ _ _ Hc') as Hw'.
  pose proof (IBLOCK_iset sb _ _ Hw Hr) as Hin. destruct (aw_ib _ _ Hw _ Hin) as [_ Hnb].
  assert (Hok' : dinode_ok d') by (by apply empty_d_ok).
  constructor.
  - by apply l_iupdate_wf.
  - intros x Hx. unfold l_iupdate, l_upd. cbn [lv_blocks i_inum i_with_d].
    rewrite used_insert by done. unfold all_freed. rewrite (freed_used sb 1) by done.
    destruct (decide (x <> 0 /\ x ∈ inode_blocks (lv_blocks v) d)) as [[H1 H2]|Hn].
    + apply elem_inode_blocks in H2; [|done]. by split; [|intros [_ ?]].
    + split; [|by intros [? _]]. intros Hu. split; [done|]. intros Ho. apply Hn.
      assert (x <> 0) by apply Ho. split; [done|]. by apply elem_inode_blocks.
  - intros inum Hinum. rewrite dino_iupdate by done. cbn [i_inum i_with_d i_d].
    case_decide; [done|]. unfold dino, block_of, all_freed. rewrite (freed_other sb 1); [done|done|].
    by apply (aw_ib _ _ Hw), (IBLOCK_iset sb (lv_blocks v)).
  - intros x Hx Hxi. unfold l_iupdate, l_upd. cbn [lv_blocks i_inum i_with_d].
    rewrite lookup_insert_ne by (by intros <-). unfold all_freed. by apply (freed_other sb 1).
  - rewrite l_iupdate_held. unfold all_freed. by rewrite freed_held.
  - rewrite l_iupdate_pend. apply Hc'.
  - apply (l_iupdate_can_log sb (i_with_d d' i)). apply Hc'.
Qed.

(** [itrunc] returns exactly the blocks of the inode to the free map, the
    indirect block included; the inode on disk has no blocks and size 0, and
    other inodes and data blocks are as before. *)
Theorem itrunc_correct s v ip i :
  let sb := fs_sb s in
  let d := i_d i in
  fsrep p s v -> alloc_wf sb (lv_blocks v) -> inode_wf sb (lv_blocks v) d -> dinode_ok d ->
  fs_inode s !! ip = Some i -> i_dev i = ROOTDEV -> 0 <= i_inum i < sb_ninodes sb ->
  lv_held v = ∅ -> lv_pend v = ∅ -> avail sb v 1 ->
  wp (itrunc p ip) (fun _ s' => exists v', fsrep p s' v' /\ truncated sb i (empty_d d) v v' /\
    fs_inode s' = <[ip := i_with_d (empty_d d) i]> (fs_inode s)) s.
Proof.
  intros sb d Hs Hw Hi Hok Hip Hdev Hr Hh Hp Ha. apply (itrunc_spec s v ip i); try done.
  intros bk s' Hs'. eexists. split; [exact Hs'|]. split; [by apply truncated_freed|].
  unfold s', with_d. cbn [fs_inode set_blk set_inodes]. by apply alter_as_insert.
Qed.

(** The last [iupdate] of [iput], on a truncated inode. *)
Lemma truncated_again sb i d' d2 v v' :
  dinode_ok d2 -> 0 <= i_inum i < sb_ninodes sb -> truncated sb i d' v v' ->
  truncated sb i d2 v (l_iupdate sb (i_with_d d2 i) v').
Proof.
  intros Hok Hr [T1 T2 T3 T4 T5 T6 T7].
  pose proof (IBLOCK_iset sb _ _ T1 Hr) as Hin. destruct (aw_ib _ _ T1 _ Hin) as [_ Hnb].
  constructor; try done.
  - by apply l_iupdate_wf.
  - intros x Hx. rewrite <- T2 by done. unfold l_iupdate, l_upd. cbn [lv_blocks i_inum i_with_d].
    by rewrite used_insert.
  - intros inum Hinum. rewrite dino_iupdate by done. cbn [i_inum i_with_d i_d].
    case_decide; [done|]. rewrite T3 by done. by rewrite decide_False.
  - intros x Hx Hxi. unfold l_iupdate, l_upd. cbn [lv_blocks i_inum i_with_d].
    rewrite lookup_insert_ne by (by intros <-). by apply T4.
  - apply (l_iupdate_can_log sb (i_with_d d2 i)). apply T7.
Qed.

Lemma truncated_lock sb l i d v v' :
  truncated sb (i_with_lock l i) d v v' -> truncated sb i d v v'.
Proof. intros []. constructor; done. Qed.

(** The entry that [iput] leaves: free, not valid, unlocked. *)
Definition dead_inode (d : dinode) (i : inode) : inode :=
  Inode (i_dev i) (i_inum i) 0 initsleeplock false d.

Lemma wp_drop_lock s ip i (Q : unit -> fs B D -> Prop) :
  fs_inode s !! ip = Some i ->
  Q tt (entry_at ip (i_with_lock initsleeplock i) s) ->
  wp (releasesleep (set_inode_lock ip) (ChInodeLock ip)) Q s.
Proof.
  intros Hi HQ. unfold releasesleep. wp_step. wp_step. wp_step. unfold set_inode_lock.
  by rewrite (alter_as_insert _ _ _ _ Hi).
Qed.

Lemma with_d_entry s ip i d : fs_inode s !! ip = Some i ->
  with_d ip d s = entry_at ip (i_with_d d i) s.
Proof. intros Hi. unfold with_d, entry_at. by rewrite (alter_as_insert _ _ _ _ Hi). Qed.

(** The end of [iput], on the emptied inode. *)
Lemma iput_end d s ip i (Q : unit -> fs B D -> Prop) :
  let i1 := i_with_d d (i_with_lock (SleepLock true (p_pid p)) i) in
  fs_inode s !! ip = Some i ->
  Q tt (entry_at ip (i_with_ref (i_ref i - 1) (dead_inode d i)) s) ->
  wp (do* upd_inode ip (i_with_valid false) in
      do* releasesleep (set_inode_lock ip) (ChInodeLock ip) in
      upd_inode ip (fun i => i_with_ref (i_ref i - 1) i)) Q (entry_at ip i1 s).
Proof.
  intros i1 Hi HQ. wp_step. eapply wp_upd_inode; [by eapply entry_at_lookup|].
  change (set_inodes (<[ip := ?x]> (fs_inode ?s)) ?s) with (entry_at ip x s). rewrite entry_at_twice.
  wp_step. eapply wp_drop_lock; [by eapply entry_at_lookup|]. rewrite entry_at_twice.
  eapply wp_upd_inode; [by eapply entry_at_lookup|].
  change (set_inodes (<[ip := ?x]> (fs_inode ?s)) ?s) with (entry_at ip x s).
  by rewrite entry_at_twice.
Qed.

(** C33: when the last reference to an inode without links is dropped, [iput]
    frees the blocks of the inode and the inode itself (type 0 on disk), and
    the cache entry becomes free. *)
Theorem iput_last s v ip i :
  let sb := fs_sb s in
  let d := i_d i in
  let d' := d_with_type 0 (empty_d d) in
  fsrep p s v -> alloc_wf sb (lv_blocks v) -> inode_wf sb (lv_blocks v) d -> dinode_ok d ->
  fs_inode s !! ip = Some i -> i_dev i = ROOTDEV -> 0 <= i_inum i < sb_ninodes sb ->
  sl_locked (i_lock i) = false -> i_valid i = true -> d_nlink d = 0 -> i_ref i = 1 ->
  lv_held v = ∅ -> lv_pend v = ∅ -> avail sb v 1 ->
  wp (iput p ip) (fun _ s' => exists v', fsrep p s' v' /\ truncated sb i d' v v' /\
    fs_inode s' = <[ip := dead_inode d' i]> (fs_inode s)) s.
Proof.
  intros sb d d' Hs Hw Hi Hok Hip Hdev Hr Hl Hv Hn Href Hh Hp Ha. unfold iput. wp_step.
  apply (wp_take_lock p s ip i); [done|done|]. set (i1 := i_with_lock _ i). fold (entry_at ip i1 s).
  assert (Hip1 : fs_inode (entry_at ip i1 s) !! ip = Some i1) by (by eapply entry_at_lookup).
  wp_step. eapply wp_read_inode; [exact Hip1|].
  change (i_valid i1) with (i_valid i). change (i_ref i1) with (i_ref i). change (i_d i1) with d.
  rewrite Hv, Hn, Href. change (true && (0 =? 0) && (1 =? 1)) with true.
  wp_step. wp_step. apply (itrunc_spec (entry_at ip i1 s) v ip i1); try done. fold d.
  intros b1 s1 Hs1. change (fs_sb (entry_at ip i1 s)) with sb in Hs1. change (i_d i1) with d in *.
  pose proof (truncated_freed sb i1 v Hw Hi Hok Hr Hh Hp Ha) as Htr. change (i_d i1) with d in Htr.
  set (v1 := l_iupdate _ _ _) in *.
  assert (Hip2 : fs_inode s1 !! ip = Some (i_with_d (empty_d d) i1)) by (by apply with_d_lookup).
  assert (Hok' : dinode_ok d') by (destruct (empty_d_ok d Hok); constructor; done).
  wp_step. eapply wp_upd_d; [exact Hip2|]. cbn [i_d i_with_d]. fold d'. wp_step.
  assert (Hip3 : fs_inode (with_d ip d' s1) !! ip = Some (i_with_d d' i1)).
  { by rewrite (with_d_lookup s1 ip _ d' Hip2). }
  apply (iupdate_spec p (with_d ip d' s1) v1 ip (i_with_d d' i1)); try done; try apply Htr.
  intros b2 Hb2. set (s2 := with_d ip d' s1) in *.
  assert (Es2 : s2 = set_blk b1 (entry_at ip (i_with_d d' i1) s)).
  { unfold s2, s1. rewrite with_d_blk, with_d_twice, (with_d_entry _ _ _ _ Hip1).
    by rewrite entry_at_twice. }
  rewrite Es2 in *. apply (iput_end _ (set_blk b2 (set_blk b1 s)) ip i); [done|].
  eexists. split; [exact Hb2|]. split; [by eapply (truncated_lock sb), truncated_again|].
  cbn [fs_inode set_blk entry_at set_inodes]. rewrite Href. done.
Qed.
End trunc.
