(* ===== verification/FsDir.v ===== *)
(** * Directories and path names

    [dirlookup], [dirlink] and [skipelem] of [kernel/fs.c].  A directory is a
    file whose content is an array of entries; [dirlookup] finds the first entry
    in use with a given name, [dirlink] fills the first free entry. *)

From S2P Require Import Prelude SleepLock Bio Layout Log BlockLayer CString ProcDefs Fs FsAlloc.
From S2P Require Import FsInode FsFile FsCache.

Definition DEN : nat := 16.   (* sizeof(struct dirent) *)

(** Entry [k] of a directory, and all of them. *)
Definition dir_entry (bl : gmap Z (list Z)) (d : dinode) (k : nat) : dirent :=
  dec_dirent (fread bl d (DEN * k) DEN).
Definition dir_entries (bl : gmap Z (list Z)) (d : dinode) : list dirent :=
  dir_entry bl d <$> seq 0 (Z.to_nat (d_size d) / DEN).

Definition is_entry (name : list Z) (e : dirent) : bool :=
  negb (de_inum e =? 0) && (namecmp name (de_name e) =? 0).

(** Index of the first entry from [k] on that satisfies [f]. *)
Fixpoint first_from (f : dirent -> bool) (k : nat) (l : list dirent) : option nat :=
  match l with
  | [] => None
  | e :: l => if f e then Some k else first_from f (S k) l
  end.

(** A directory: whole entries, all of them mapped. *)
Record dir_ok (bl : gmap Z (list Z)) (d : dinode) : Prop := {
  do_type : d_type d = T_DIR;
  do_size : d_size d = Z.of_nat (DEN * (Z.to_nat (d_size d) / DEN));
  do_max : d_size d <= MAXFILE * BSIZE;
  do_mapped : mapped bl d 0 (Z.to_nat (d_size d)) }.

Lemma mapped_sub bl d off n off' n' :
  mapped bl d off n -> (off <= off')%nat -> (off' + n' <= off + n)%nat -> mapped bl d off' n'.
Proof.
  intros Hm H1 H2 bn Hb Hb' Hn. apply Hm; [|lia|lia].
  etransitivity; [|exact Hb]. by apply Nat.Div0.div_le_mono.
Qed.

Section dir.
Context {B D : Type} `{BlockLayer B} (devsw : Z -> devfns (fs B D)) (p : proc).
Implicit Types (s : fs B D) (v : lview).

(** Reading one entry. *)
Lemma read_entry s v dp i (k : nat) (Q : Z * list Z -> fs B D -> Prop) :
  let d := i_d i in
  file_ready p s v dp i -> dir_ok (lv_blocks v) d -> (k < Z.to_nat (d_size d) / DEN)%nat ->
  (forall bk, file_ready p (set_blk bk s) v dp i ->
     Q (DE, fread (lv_blocks v) d (DEN * k) DEN) (set_blk bk s)) ->
  wp (readi devsw p dp (Z.of_nat (DEN * k)) DE) Q s.
Proof.
  intros d Hr [Ht Hs Hmax Hmap] Hk HQ. pose proof Hr as [R1 R2 R3 R4 R5 R6 R7 [R8 R9] R10 R11].
  assert (Hend : (DEN * k + DEN <= Z.to_nat (d_size d))%nat) by (rewrite Hs; unfold DEN in *; lia).
  assert (Em : Nat.min DEN (Z.to_nat (d_size d) - DEN * k) = DEN) by lia.
  change DE with (Z.of_nat DEN). eapply (readi_spec devsw p s v dp i); try done; fold d.
  - lia.
  - rewrite Em. eapply mapped_sub; [done|lia|lia].
  - rewrite Em. intros bk Hbk. apply HQ. destruct Hr. constructor; done.
Qed.

Lemma first_from_seq f bl d k n :
  first_from f k (dir_entry bl d <$> seq k (S n)) =
    if f (dir_entry bl d k) then Some k else first_from f (S k) (dir_entry bl d <$> seq (S k) n).
Proof. done. Qed.

Lemma dir_loop_end s v dp i {A} (m : M (fs B D) A) (a : A) (Q : A -> fs B D -> Prop) :
  let d := i_d i in
  let n := (Z.to_nat (d_size d) / DEN)%nat in
  file_ready p s v dp i -> dir_ok (lv_blocks v) d ->
  (forall bk, file_ready p (set_blk bk s) v dp i -> Q a (set_blk bk s)) ->
  wp (if Z.of_nat (DEN * n) <? d_size d then m else ret a) Q s.
Proof.
  intros d n Hr Hd HQ. destruct (Z.ltb_spec (Z.of_nat (DEN * n)) (d_size d)) as [Hlt|_].
  { rewrite (do_size _ _ Hd) in Hlt. fold n in Hlt. lia. }
  wp_step. assert (E : set_blk (fs_blk s) s = s) by (by destruct s). rewrite <- E. apply HQ.
  by rewrite E.
Qed.

Lemma dirlookup_loop_spec fuel s v dp i name (k : nat) (Q : option (nat * Z) -> fs B D -> Prop) :
  let d := i_d i in
  let n := (Z.to_nat (d_size d) / DEN)%nat in
  file_ready p s v dp i -> dir_ok (lv_blocks v) d -> (k <= n)%nat -> (n <= k + fuel)%nat ->
  (forall bk, file_ready p (set_blk bk s) v dp i ->
     match first_from (is_entry name) k (dir_entry (lv_blocks v) d <$> seq k (n - k)) with
     | Some j => wp (let* ip := iget ROOTDEV (de_inum (dir_entry (lv_blocks v) d j)) in
                     ret (Some (ip, Z.of_nat (DEN * j)))) Q (set_blk bk s)
     | None => Q None (set_blk bk s)
     end) ->
  wp (dirlookup_loop devsw p fuel dp name (Z.of_nat (DEN * k))) Q s.
Proof.
  intros d n. revert s k. induction fuel as [|fuel IH]; intros s k Hr Hd Hk Hfuel HQ;
    cbn [dirlookup_loop]; wp_step; (eapply wp_read_inode; [apply Hr|]); fold d.
  all: destruct (decide (k = n)) as [->|Hne].
  1, 3: apply (dir_loop_end s v dp i); try done; by rewrite Nat.sub_diag in HQ.
  { lia. }
  destruct (Z.ltb_spec (Z.of_nat (DEN * k)) (d_size d)) as [_|Hge].
  2: { rewrite (do_size _ _ Hd) in Hge. fold n in Hge. unfold DEN in *. lia. }
  wp_step. apply (read_entry s v dp i k); [done|done|fold d n; lia|]. intros b1 Hr1.
  cbn [negb]. rewrite Z.eqb_refl. cbn [negb]. change (dec_dirent _) with (dir_entry (lv_blocks v) d k).
  assert (En : (n - k = S (n - S k))%nat) by lia.
  rewrite En in HQ. rewrite first_from_seq in HQ. unfold is_entry at 1 in HQ.
  assert (Hnext : wp (dirlookup_loop devsw p fuel dp name (Z.of_nat (DEN * k) + DE)) Q (set_blk b1 s)
            \/ is_entry name (dir_entry (lv_blocks v) d k) = true).
  { destruct (is_entry name (dir_entry (lv_blocks v) d k)) eqn:Ei; [by right|left].
    replace (Z.of_nat (DEN * k) + DE) with (Z.of_nat (DEN * S k)) by (unfold DEN, DE; lia).
    apply IH; [done|done|lia|lia|]. intros b2 Hr2. specialize (HQ b2 Hr2).
    unfold is_entry in Ei. by rewrite Ei in HQ. }
  unfold is_entry in Hnext. specialize (HQ b1 Hr1). revert Hnext HQ.
  destruct (de_inum (dir_entry (lv_blocks v) d k) =? 0); [by intros [|]|].
  destruct (namecmp name (de_name (dir_entry (lv_blocks v) d k)) =? 0); [|by intros [|]].
  by rewrite (fr_dev _ _ _ _ _ Hr).
Qed.

(** The first entry in use for [name]. *)
Definition dir_find (bl : gmap Z (list Z)) (d : dinode) (name : list Z) : option nat :=
  first_from (is_entry name) 0 (dir_entries bl d).

Lemma dir_fuel_enough d : (Z.to_nat (d_size d) / DEN <= dir_fuel (d_size d))%nat.
Proof.
  unfold dir_fuel, DEN, DE. pose proof (Z.div_mod (d_size d) 16 ltac:(lia)).
  pose proof (Nat.div_mod_eq (Z.to_nat (d_size d)) 16).
  pose proof (Nat.mod_upper_bound (Z.to_nat (d_size d)) 16 ltac:(lia)).
  pose proof (Z.mod_pos_bound (d_size d) 16 ltac:(lia)). lia.
Qed.

Lemma dirlookup_spec s v dp i name (Q : option (nat * Z) -> fs B D -> Prop) :
  let d := i_d i in
  file_ready p s v dp i -> dir_ok (lv_blocks v) d ->
  (forall bk, file_ready p (set_blk bk s) v dp i ->
     match (if exec_denied p d then None else dir_find (lv_blocks v) d name) with
     | Some j => wp (let* ip := iget ROOTDEV (de_inum (dir_entry (lv_blocks v) d j)) in
                     ret (Some (ip, Z.of_nat (DEN * j)))) Q (set_blk bk s)
     | None => Q None (set_blk bk s)
     end) ->
  wp (dirlookup devsw p dp name) Q s.
Proof.
  intros d Hr Hd HQ. unfold dirlookup. wp_step. eapply wp_read_inode; [apply Hr|]. fold d.
  rewrite (do_type _ _ Hd), Z.eqb_refl. cbn [negb]. destruct (exec_denied p d).
  - wp_step. assert (E : set_blk (fs_blk s) s = s) by (by destruct s). rewrite <- E. apply HQ.
    by rewrite E.
  - change 0 with (Z.of_nat (DEN * 0)). apply (dirlookup_loop_spec _ s v dp i name 0); try done.
    + lia.
    + fold d. apply dir_fuel_enough.
    + rewrite Nat.sub_0_r. fold d. apply HQ.
Qed.

(** [dirlookup] returns an entry of the inode cache for the first entry of
    the directory, in directory order, that is in use and has the name, and its
    offset; it returns 0 when there is none, and also when the caller may not
    search the directory. *)
Theorem dirlookup_correct s v dp i name :
  let d := i_d i in
  file_ready p s v dp i -> dir_ok (lv_blocks v) d -> icache_ok (fs_inode s) ->
  (forall inum, icache_room ROOTDEV inum (fs_inode s)) ->
  wp (dirlookup devsw p dp name) (fun r s' => fsrep p s' v /\ icache_ok (fs_inode s') /\
    match (if exec_denied p d then None else dir_find (lv_blocks v) d name) with
    | None => r = None /\ fs_inode s' = fs_inode s
    | Some j => exists ip i', r = Some (ip, Z.of_nat (DEN * j)) /\
        fs_inode s' = <[ip := i']> (fs_inode s) /\
        is_ino ROOTDEV (de_inum (dir_entry (lv_blocks v) d j)) i'
    end) s.
Proof.
  intros d Hr Hd Hic Hroom. apply (dirlookup_spec s v dp i); [done|done|]. intros bk Hbk. fold d.
  destruct (if exec_denied p d then None else dir_find (lv_blocks v) d name) as [j|].
  - wp_step. apply iget_spec; [done|apply Hroom|]. intros ip i0 i1 Hi Hg Hok. wp_step.
    split; [apply Hbk|]. split; [done|]. exists ip, i1. split; [done|]. split; [done|].
    eapply got_ino; [|done]. by eapply (ic_ref _ Hic).
  - split; [apply Hbk|]. done.
Qed.

(** The first free entry, or the end of the directory. *)
Definition free_slot (bl : gmap Z (list Z)) (d : dinode) : nat :=
  default (Z.to_nat (d_size d) / DEN)%nat
    (first_from (fun e => de_inum e =? 0) 0 (dir_entries bl d)).

Lemma free_dirent_loop fuel s v dp i (k : nat) (Q : Z -> fs B D -> Prop) :
  let d := i_d i in
  let n := (Z.to_nat (d_size d) / DEN)%nat in
  file_ready p s v dp i -> dir_ok (lv_blocks v) d -> (k <= n)%nat -> (n <= k + fuel)%nat ->
  (forall bk, file_ready p (set_blk bk s) v dp i ->
     Q (Z.of_nat (DEN * default n (first_from (fun e => de_inum e =? 0) k
          (dir_entry (lv_blocks v) d <$> seq k (n - k))))) (set_blk bk s)) ->
  wp (free_dirent devsw p fuel dp (Z.of_nat (DEN * k))) Q s.
Proof.
  intros d n. revert s k. induction fuel as [|fuel IH]; intros s k Hr Hd Hk Hfuel HQ;
    cbn [free_dirent]; wp_step; (eapply wp_read_inode; [apply Hr|]); fold d.
  all: destruct (decide (k = n)) as [->|Hne].
  1, 3: apply (dir_loop_end s v dp i); try done; by rewrite Nat.sub_diag in HQ.
  { lia. }
  destruct (Z.ltb_spec (Z.of_nat (DEN * k)) (d_size d)) as [_|Hge].
  2: { rewrite (do_size _ _ Hd) in Hge. fold n in Hge. unfold DEN in *. lia. }
  wp_step. apply (read_entry s v dp i k); [done|done|fold d n; lia|]. intros b1 Hr1.
  cbn [negb]. rewrite Z.eqb_refl. cbn [negb].
  change (dec_dirent _) with (dir_entry (lv_blocks v) d k).
  assert (En : (n - k = S (n - S k))%nat) by lia.
  rewrite En in HQ. rewrite first_from_seq in HQ.
  destruct (de_inum (dir_entry (lv_blocks v) d k) =? 0).
  - wp_step. by apply HQ.
  - replace (Z.of_nat (DEN * k) + DE) with (Z.of_nat (DEN * S k)) by (unfold DEN, DE; lia).
    apply IH; [done|done|lia|lia|]. intros b2 Hr2. by apply HQ.
Qed.

Lemma free_dirent_spec s v dp i (Q : Z -> fs B D -> Prop) :
  let d := i_d i in
  file_ready p s v dp i -> dir_ok (lv_blocks v) d ->
  (forall bk, file_ready p (set_blk bk s) v dp i ->
     Q (Z.of_nat (DEN * free_slot (lv_blocks v) d)) (set_blk bk s)) ->
  wp (free_dirent devsw p (dir_fuel (d_size d)) dp 0) Q s.
Proof.
  intros d Hr Hd HQ. change 0 with (Z.of_nat (DEN * 0)).
  apply (free_dirent_loop _ s v dp i 0); try done; [lia|apply dir_fuel_enough|].
  by rewrite Nat.sub_0_r.
Qed.

Lemma first_from_bound f k l j : first_from f k l = Some j ->
  (k <= j < k + length l)%nat /\ exists e, l !! (j - k)%nat = Some e /\ f e = true /\
  forall j' e', (j' < j - k)%nat -> l !! j' = Some e' -> f e' = false.
Proof.
  revert k. induction l as [|e l IH]; intros k; [done|]. cbn [first_from length].
  destruct (f e) eqn:Ef.
  - intros [= <-]. split; [lia|]. exists e. rewrite Nat.sub_diag. split_and!; [done|done|lia].
  - intros (Hb & e' & He & Hf & Hlt)%IH. split; [lia|]. exists e'.
    replace (j - k)%nat with (S (j - S k)) by lia. split_and!; [done|done|].
    intros [|j'] x Hj; [intros [= <-]; done|]. apply Hlt. lia.
Qed.

Lemma first_from_ext f g k l : (forall e, f e = g e) -> first_from f k l = first_from g k l.
Proof. intros E. revert k. induction l as [|e l IH]; intros k; simpl; [done|]. by rewrite E, IH. Qed.

Lemma first_from_none f k l : first_from f k l = None <-> forall e, e ∈ l -> f e = false.
Proof.
  revert k. induction l as [|e l IH]; intros k; cbn [first_from].
  { split; [intros _ e He; by apply not_elem_of_nil in He|done]. }
  destruct (f e) eqn:Ef.
  - split; [done|]. intros Hall. rewrite Hall in Ef; [done|left].
  - rewrite IH. split; intros Hall x.
    + intros [->|Hx]%elem_of_cons; auto.
    + intros Hx. apply Hall. by right.
Qed.

Lemma first_from_app f k l e l' :
  (forall x, x ∈ l -> f x = false) -> f e = true -> first_from f k (l ++ e :: l') = Some (k + length l)%nat.
Proof.
  revert k. induction l as [|x l IH]; intros k Hall Hf; cbn [app first_from length].
  - rewrite Hf. f_equal. lia.
  - rewrite (Hall x) by left. rewrite IH; [f_equal; lia| |done]. intros y Hy. apply Hall. by right.
Qed.

Lemma length_enc_dirent e : length (de_name e) = DIRSIZ -> length (enc_dirent e) = DEN.
Proof. intros Hn. unfold enc_dirent. by rewrite length_app, length_le_bytes, Hn. Qed.

(** The entries after the write of entry [k]. *)
Lemma dir_entry_written sb bl i k e bl' i' j :
  file_written sb bl i (DEN * k) (enc_dirent e) bl' i' ->
  0 <= de_inum e < 2 ^ 16 -> length (de_name e) = DIRSIZ -> (DEN * j + DEN <= NBLOCKS * BSZ)%nat ->
  dir_entry bl' (i_d i') j = if decide (j = k) then e else dir_entry bl (i_d i) j.
Proof.
  intros Hw Hi Hn Hj. pose proof (length_enc_dirent e Hn) as Hlen. unfold dir_entry.
  assert (E : fread bl' (i_d i') (DEN * j) DEN =
    if decide (j = k) then enc_dirent e else fread bl (i_d i) (DEN * j) DEN).
  { apply list_eq. intros o. unfold fread at 1. rewrite list_lookup_fmap.
    destruct (decide (o < DEN)%nat) as [Ho|Ho].
    - rewrite lookup_seq_lt by done. cbn [fmap option_fmap option_map].
      rewrite (fw_bytes _ _ _ _ _ _ _ Hw) by lia. unfold fpatch. rewrite Hlen.
      destruct (decide (j = k)) as [->|Hne].
      + rewrite decide_True by lia. replace (DEN * k + o - DEN * k)%nat with o by lia.
        unfold byte_at. destruct (enc_dirent e !! o) eqn:Eo; [done|].
        apply lookup_ge_None in Eo. lia.
      + rewrite decide_False by (unfold DEN in *; lia). unfold fread.
        rewrite list_lookup_fmap, lookup_seq_lt by done. done.
    - rewrite lookup_seq_ge by lia. symmetry. case_decide; apply lookup_ge_None_2;
        rewrite ?length_fread; lia. }
  rewrite E. case_decide; [by apply dec_enc_dirent|done].
Qed.

Lemma dir_written sb bl i k e bl' i' :
  let d := i_d i in
  let l := dir_entries bl d in
  file_written sb bl i (DEN * k) (enc_dirent e) bl' i' -> dir_ok bl d -> (k <= length l)%nat ->
  0 <= de_inum e < 2 ^ 16 -> length (de_name e) = DIRSIZ -> (DEN * k + DEN <= NBLOCKS * BSZ)%nat ->
  dir_ok bl' (i_d i') /\ dir_entries bl' (i_d i') = take k l ++ e :: drop (S k) l.
Proof.
  intros d l Hw [D1 D2 D3 D4] Hk Hi Hn Hmax. pose proof (length_enc_dirent e Hn) as Hlen.
  assert (Hl : length l = (Z.to_nat (d_size d) / DEN)%nat).
  { unfold l, dir_entries. by rewrite length_fmap, length_seq. }
  pose proof Hw as [_ W2 W3 W4 W5 _]. rewrite Hlen in *. fold d in D2, D3, D4, W3, W4.
  set (n := (Z.to_nat (d_size d) / DEN)%nat) in *.
  assert (Esz : Z.to_nat (d_size (i_d i')) = (DEN * Nat.max n (S k))%nat).
  { rewrite W4. unfold new_size. rewrite (proj2 (Z.ltb_lt _ _)) by (unfold DEN; lia).
    cbn [andb]. fold d.
    destruct (Z.ltb_spec (d_size d) (Z.of_nat (DEN * k + DEN))); unfold DEN in *; lia. }
  assert (En : (Z.to_nat (d_size (i_d i')) / DEN = Nat.max n (S k))%nat).
  { rewrite Esz, Nat.mul_comm. by apply Nat.div_mul. }
  assert (Hmaxn : (DEN * Nat.max n (S k) <= NBLOCKS * BSZ)%nat).
  { unfold MAXFILE, BSIZE, NBLOCKS, BSZ in *. rewrite D2 in D3. unfold DEN in *. lia. }
  split.
  - constructor.
    + by rewrite W5.
    + rewrite En, <- Esz. rewrite W4. unfold new_size. case_match; lia.
    + unfold MAXFILE, BSIZE, NBLOCKS, BSZ in *. lia.
    + rewrite Esz. intros bn _ Hbn _. destruct (decide (BSZ * bn < DEN * n)%nat) as [Hin|Hout].
      * assert (addr_of bl d bn <> 0) by (apply D4; [apply Nat.le_0_l|lia|unfold DEN in *; lia]).
        rewrite W3; [done| |done]. unfold BSZ, NBLOCKS in *. lia.
      * apply W2; [|lia|unfold DEN; lia].
        apply Nat.Div0.div_le_upper_bound. unfold DEN in *. lia.
  - apply list_eq. intros j. unfold dir_entries at 1. rewrite En, list_lookup_fmap.
    destruct (decide (j < Nat.max n (S k))%nat) as [Hj|Hj].
    + rewrite lookup_seq_lt by done. cbn [fmap option_fmap option_map].
      change (0 + j)%nat with j.
      rewrite (dir_entry_written sb bl i k e bl' i' j Hw Hi Hn) by (unfold DEN in *; lia).
      destruct (decide (j = k)) as [->|Hne]; [by rewrite list_lookup_middle by (len)|].
      destruct (decide (j < k)%nat).
      * rewrite lookup_app_l by len. rewrite lookup_take_lt by done. unfold l, dir_entries.
        rewrite list_lookup_fmap, lookup_seq_lt by lia. done.
      * rewrite lookup_app_r by len. rewrite length_take, Nat.min_l by lia.
        replace (j - k)%nat with (S (j - S k)) by lia.
        change ((e :: drop (S k) l) !! S (j - S k)) with (drop (S k) l !! (j - S k)%nat).
        rewrite lookup_drop. replace (S k + (j - S k))%nat with j by lia. unfold l, dir_entries.
        rewrite list_lookup_fmap, lookup_seq_lt by lia. done.
    + rewrite lookup_seq_ge by lia. symmetry. apply lookup_ge_None_2.
      rewrite length_app, length_take, length_cons, length_drop. lia.
Qed.

Lemma free_slot_bound bl d : (free_slot bl d <= length (dir_entries bl d))%nat.
Proof.
  unfold free_slot. destruct (first_from _ _ _) as [j|] eqn:E.
  - apply first_from_bound in E as [E _]. simpl. lia.
  - unfold dir_entries. by rewrite length_fmap, length_seq.
Qed.

(** The entry [dirlink] writes is found under its name. *)
Lemma find_linked name inum k (l : list dirent) :
  (forall e, e ∈ l -> is_entry name e = false) -> u16 inum <> 0 -> (k <= length l)%nat ->
  first_from (is_entry name) 0 (take k l ++ DirEnt (u16 inum) (strncpy name DIRSIZ) :: drop (S k) l)
    = Some k.
Proof.
  intros Hl Hi Hk. rewrite first_from_app.
  - f_equal. len.
  - intros x (j & Hj & _)%elem_of_take. apply Hl. by eapply list_elem_of_lookup_2.
  - unfold is_entry. cbn [de_inum de_name]. rewrite (proj2 (Z.eqb_neq _ _)) by done. cbn [negb andb].
    apply Z.eqb_eq. apply strncmp_eq. by rewrite cstr_strncpy, take_take, Nat.min_id.
Qed.

Lemma entry_one_block k : touched (DEN * k) DEN = 1%nat.
Proof.
  unfold touched, DEN, BSZ. pose proof (Nat.div_mod_eq (16 * k) 512).
  pose proof (Nat.mod_upper_bound (16 * k) 512 ltac:(lia)).
  symmetry. apply (Nat.div_unique _ _ _ ((16 * k) mod 512 + 15)); lia.
Qed.

Lemma enc_dirent_ok e : bytes_ok (de_name e) -> bytes_ok (enc_dirent e).
Proof. intros Hn. unfold enc_dirent. apply Forall_app. split; [apply le_bytes_ok|done]. Qed.

(** Names are compared as strings of at most [DIRSIZ] characters. *)
Definition same_name (nm name : list Z) : bool :=
  bool_decide (take DIRSIZ (cstr nm) = take DIRSIZ (cstr name)).

Lemma is_entry_same nm name e : same_name nm name = true -> is_entry nm e = is_entry name e.
Proof.
  intros E%bool_decide_eq_true. unfold is_entry. f_equal. apply Bool.eq_iff_eq_true.
  unfold namecmp. by rewrite !Z.eqb_eq, !strncmp_eq, E.
Qed.

Lemma first_from_replace f j k x l :
  f x = false -> (k <= length l)%nat -> (forall e, l !! k = Some e -> f e = false) ->
  first_from f j (take k l ++ x :: drop (S k) l) = first_from f j l.
Proof.
  revert j k. induction l as [|e l IH]; intros j [|k] Hx Hk He; simpl in *; rewrite ?Hx; try done; try lia.
  - by rewrite (He e).
  - by rewrite IH by (done || lia).
Qed.

Lemma lookup_replaced {A} k (l : list A) x j : (k <= length l)%nat -> j <> k ->
  (take k l ++ x :: drop (S k) l) !! j = l !! j.
Proof.
  intros Hk Hj. destruct (decide (j < k)%nat).
  - by rewrite lookup_app_l, lookup_take_lt by len.
  - rewrite lookup_app_r by len. rewrite length_take, Nat.min_l by done.
    replace (j - k)%nat with (S (j - S k)) by lia.
    change ((x :: drop (S k) l) !! S (j - S k)) with (drop (S k) l !! (j - S k)%nat). rewrite lookup_drop. f_equal. lia.
Qed.

Lemma free_slot_free bl d e : dir_entries bl d !! free_slot bl d = Some e -> de_inum e = 0.
Proof.
  unfold free_slot. destruct (first_from _ _ _) as [j|] eqn:E; cbn [from_option id].
  - apply first_from_bound in E as (_ & e' & He & Hz & _). rewrite Nat.sub_0_r in He.
    rewrite He. intros [= <-]. by apply Z.eqb_eq.
  - intros He%lookup_lt_Some. unfold dir_entries in He. rewrite length_fmap, length_seq in He. lia.
Qed.

(** Looking [nm] up in the entries after [dirlink] has filled the free slot. *)
Lemma find_after name nm inum bl d :
  let k := free_slot bl d in
  let l := dir_entries bl d in
  dir_find bl d name = None -> u16 inum <> 0 ->
  first_from (is_entry nm) 0 (take k l ++ DirEnt (u16 inum) (strncpy name DIRSIZ) :: drop (S k) l) =
    if same_name nm name then Some k else dir_find bl d nm.
Proof.
  intros k l Hnone Hi. assert (Hk : (k <= length l)%nat) by apply free_slot_bound.
  destruct (same_name nm name) eqn:En.
  - rewrite (first_from_ext _ (is_entry name)) by (intros e; by apply is_entry_same).
    apply find_linked; [by apply (first_from_none _ 0)|done..].
  - apply bool_decide_eq_false in En. unfold dir_find. fold l. rewrite first_from_replace; [done| |done|].
    + unfold is_entry. cbn [de_inum de_name]. apply andb_false_iff. right. apply Z.eqb_neq.
      intros E%strncmp_eq. rewrite cstr_strncpy, take_take, Nat.min_id in E. done.
    + intros e He. assert (Hz : de_inum e = 0) by by eapply free_slot_free.
      unfold is_entry. by rewrite Hz.
Qed.

(** An entry of the inode cache for inode [inum], and the offset of entry [j]. *)
Definition finds (r : option (nat * Z)) (s : fs B D) (found : option (nat * Z)) : Prop :=
  match found with
  | None => r = None
  | Some (j, inum) => exists ip i, r = Some (ip, Z.of_nat (DEN * j)) /\ fs_inode s !! ip = Some i /\
      is_ino ROOTDEV inum i
  end.

Lemma dir_entries_lookup bl d j e : dir_entries bl d !! j = Some e -> e = dir_entry bl d j.
Proof.
  unfold dir_entries. rewrite list_lookup_fmap. destruct (seq _ _ !! j) as [j'|] eqn:E; [|done].
  apply lookup_seq in E as [-> _]. by intros [= <-].
Qed.

Lemma dir_find_lookup bl d nm j : dir_find bl d nm = Some j -> dir_entries bl d !! j = Some (dir_entry bl d j).
Proof.
  intros (_ & e & He & _)%first_from_bound. rewrite Nat.sub_0_r in He.
  rewrite He. f_equal. by eapply dir_entries_lookup.
Qed.

(** [dirlookup] as a function of the directory. *)
Definition looked_up (bl : gmap Z (list Z)) (d : dinode) (nm : list Z) : option (nat * Z) :=
  if exec_denied p d then None
  else (fun j => (j, de_inum (dir_entry bl d j))) <$> dir_find bl d nm.

Lemma dirlookup_finds s v dp i nm :
  file_ready p s v dp i -> dir_ok (lv_blocks v) (i_d i) -> icache_ok (fs_inode s) ->
  (forall n, icache_room ROOTDEV n (fs_inode s)) ->
  wp (dirlookup devsw p dp nm) (fun r s' => finds r s' (looked_up (lv_blocks v) (i_d i) nm)) s.
Proof.
  intros Hr Hd Hic Hroom. apply (dirlookup_spec s v dp i); [done|done|]. intros bk Hbk. unfold looked_up.
  destruct (exec_denied p (i_d i)); [done|]. destruct (dir_find (lv_blocks v) (i_d i) nm) as [j|]; [|done].
  wp_step. apply iget_spec; [done|apply Hroom|]. intros ip i0 i1 Hi Hg Hok. wp_step. exists ip, i1.
  split; [done|]. split; [|eapply got_ino; [|done]; by eapply (ic_ref _ Hic)].
  cbn. apply list_lookup_insert_eq. by eapply lookup_lt_Some.
Qed.

Lemma looked_up_linked bl d bl' d' name nm inum :
  let k := free_slot bl d in
  let l := dir_entries bl d in
  dir_find bl d name = None -> u16 inum <> 0 -> exec_denied p d' = exec_denied p d ->
  dir_entries bl' d' = take k l ++ DirEnt (u16 inum) (strncpy name DIRSIZ) :: drop (S k) l ->
  looked_up bl' d' nm = if exec_denied p d then None
    else if same_name nm name then Some (k, u16 inum)
    else (fun j => (j, de_inum (dir_entry bl d j))) <$> dir_find bl d nm.
Proof.
  intros k l Hnone Hi He El. unfold looked_up. rewrite He. destruct (exec_denied p d); [done|].
  assert (Hk : (k <= length l)%nat) by apply free_slot_bound.
  assert (Ef : dir_find bl' d' nm = if same_name nm name then Some k else dir_find bl d nm)
    by (unfold dir_find at 1; rewrite El; by apply find_after).
  rewrite Ef. destruct (same_name nm name).
  - cbn [fmap option_fmap option_map]. rewrite <- (dir_entries_lookup bl' d' k (DirEnt (u16 inum) (strncpy name DIRSIZ))); [done|].
    rewrite El. by apply list_lookup_middle; len.
  - destruct (dir_find bl d nm) as [j|] eqn:Ej; [|done]. cbn [fmap option_fmap option_map]. do 2 f_equal.
    pose proof (dir_find_lookup _ _ _ _ Ef) as Hj'. pose proof (dir_find_lookup _ _ _ _ Ej) as Hj.
    assert (Hne : j <> k).
    { intros ->. pose proof (free_slot_free bl d _ Hj) as Hz.
      apply first_from_bound in Ej as (_ & e & Hle & Hie & _). rewrite Nat.sub_0_r in Hle.
      rewrite Hj in Hle. injection Hle as <-. unfold is_entry in Hie. by rewrite Hz in Hie. }
    rewrite El, lookup_replaced in Hj' by done. fold l in Hj. congruence.
Qed.

(** An entry of the cache whose identity stays the same. *)
Definition i_same (i i' : inode) : Prop :=
  i_ref i' = i_ref i /\ i_dev i' = i_dev i /\ i_inum i' = i_inum i.

Lemma icache_upd (l l' : list inode) ip i i' :
  l !! ip = Some i -> l' !! ip = Some i' -> (forall jp, jp <> ip -> l' !! jp = l !! jp) -> i_same i i' ->
  icache_ok l -> icache_ok l' /\ forall dev n, icache_room dev n l -> icache_room dev n l'.
Proof.
  intros Hi Hi' Hsame (E1 & E2 & E3) [Hr Hu].
  assert (Hback : forall j x', l' !! j = Some x' -> exists x, l !! j = Some x /\ i_same x x').
  { intros j x' Hj. destruct (decide (j = ip)) as [->|]; [|rewrite Hsame in Hj by done; by exists x'].
    exists i. split; [done|]. by simplify_eq. }
  assert (His : forall x x' dev n, i_same x x' -> is_ino dev n x' <-> is_ino dev n x).
  { intros x x' dev n (F1 & F2 & F3). unfold is_ino. by rewrite F1, F2, F3. }
  split; [split|].
  - intros j x' (x & Hx & F1 & _)%Hback. rewrite F1. by eapply Hr.
  - intros j k x' y' dev n (x & Hx & Fx)%Hback (y & Hy & Fy)%Hback Ix%(His _ _ _ _ Fx) Iy%(His _ _ _ _ Fy).
    by eapply Hu.
  - intros dev n (j & x & Hj & Hx). destruct (decide (j = ip)) as [->|].
    + exists ip, i'. split; [done|]. simplify_eq. rewrite E1. rewrite (His i i') by done. done.
    + exists j, x. by rewrite Hsame.
Qed.

(** C32: [dirlink] of a name that the directory does not have puts the entry in
    the first free slot, or appends it, and the other entries stay.  A
    [dirlookup] after it finds the new inode under that name and under every
    other name what was there before; without the permission to search the
    directory it finds nothing. *)
Theorem dirlink_correct s v dp i name inum :
  let d := i_d i in
  let l := dir_entries (lv_blocks v) d in
  let k := free_slot (lv_blocks v) d in
  file_ready p s v dp i -> dir_ok (lv_blocks v) d -> bytes_ok name -> u16 inum <> 0 ->
  icache_ok (fs_inode s) -> (forall n, icache_room ROOTDEV n (fs_inode s)) ->
  dir_find (lv_blocks v) d name = None -> (DEN * k + DEN <= NBLOCKS * BSZ)%nat ->
  avail (fs_sb s) v 3 -> (2 <= size (free_set (fs_sb s) (lv_blocks v)))%nat ->
  wp (dirlink devsw p dp name inum) (fun r s' => r = 0 /\
    (exists v' i', file_ready p s' v' dp i' /\ dir_ok (lv_blocks v') (i_d i') /\
      dir_entries (lv_blocks v') (i_d i') =
        take k l ++ DirEnt (u16 inum) (strncpy name DIRSIZ) :: drop (S k) l) /\
    forall nm, wp (dirlookup devsw p dp nm) (fun r s'' => finds r s''
      (if exec_denied p d then None
       else if same_name nm name then Some (k, u16 inum)
       else (fun j => (j, de_inum (dir_entry (lv_blocks v) d j))) <$> dir_find (lv_blocks v) d nm)) s') s.
Proof.
  intros d l k Hr Hd Hnm Hi Hic Hroom Hfind Hmax Ha Hf. set (e := DirEnt (u16 inum) (strncpy name DIRSIZ)).
  assert (He : length (enc_dirent e) = DEN) by (apply length_enc_dirent, length_strncpy).
  assert (Hk : (k <= length l)%nat) by apply free_slot_bound.
  unfold dirlink. wp_step. apply (dirlookup_spec s v dp i); [done|done|]. fold d. intros b1 Hr1.
  replace (if exec_denied p d then None else dir_find (lv_blocks v) d name) with (@None nat)
    by (rewrite Hfind; by destruct (exec_denied p d)).
  wp_step. eapply wp_read_inode; [apply Hr1|]. wp_step.
  apply (free_dirent_spec (set_blk b1 s) v dp i); [done|done|]. fold d k. intros b2 Hr2.
  wp_step. fold e. replace DE with (Z.of_nat (length (enc_dirent e))) by (by rewrite He).
  assert (Ht : touched (DEN * k) (length (enc_dirent e)) = 1%nat) by (rewrite He; apply entry_one_block).
  eapply wp_mono; [apply (writei_written devsw p _ v dp i); try done|].
  - apply enc_dirent_ok. by apply strncpy_ok.
  - change (i_d i) with d. rewrite (do_size _ _ Hd). unfold l, dir_entries in Hk.
    rewrite length_fmap, length_seq in Hk. unfold DEN in *. lia.
  - by rewrite He.
  - rewrite Ht. done.
  - rewrite Ht. done.
  - intros r s' (-> & v' & i' & Hr' & Hw & _ & Hsame). rewrite Z.eqb_refl. cbn [negb]. wp_step.
    split; [done|]. destruct (dir_written _ _ _ _ _ _ _ Hw Hd Hk) as [Hd' El];
      [apply Z.mod_pos_bound; lia|apply length_strncpy|done|].
    split; [by exists v', i'|]. intros nm.
    assert (Hm : i_same i i') by (rewrite (fw_meta _ _ _ _ _ _ _ Hw); done).
    destruct (icache_upd _ _ _ _ _ (fr_inode _ _ _ _ _ Hr) (fr_inode _ _ _ _ _ Hr') Hsame Hm Hic) as [Hc1 Hc2].
    assert (Hx : exec_denied p (i_d i') = exec_denied p d) by (rewrite (fw_meta _ _ _ _ _ _ _ Hw); done).
    eapply wp_mono; [apply (dirlookup_finds s' v' dp i' nm); auto|].
    intros r s'' Hfs. by rewrite (looked_up_linked (lv_blocks v) d _ _ name _ inum) in Hfs by done.
Qed.
End dir.

(** ** Paths *)

(** The elements of a path: the nonempty words between slashes. *)
Definition components (path : list Z) : list (list Z) :=
  filter (fun w => w <> []) (split_on 47 (cstr path)).

Lemma components_slash path : components (47 :: path) = components path.
Proof. done. Qed.

Lemma components_slashes path : components (skip_slashes path) = components path.
Proof.
  induction path as [|c path IH]; [done|]. cbn [skip_slashes]. destruct (Z.eqb_spec c 47) as [->|].
  - by rewrite components_slash.
  - done.
Qed.

Lemma skip_slashes_chr path : chr (skip_slashes path) <> 47.
Proof.
  induction path as [|c path IH]; [done|]. cbn [skip_slashes].
  destruct (Z.eqb_spec c 47); done.
Qed.

Lemma components_end path : chr path = 0 -> components path = [].
Proof. intros Hc. unfold components. by rewrite cstr_nil. Qed.

(** Words of a path that starts with [e], followed by a slash or the end. *)
Lemma split_word e l ws :
  Forall (fun c => c <> 47) e -> split_on 47 l = [] :: ws -> split_on 47 (e ++ l) = e :: ws.
Proof.
  intros He Hl. induction He as [|c e Hc He IH]; [done|]. cbn [app split_on]. rewrite IH.
  by destruct (Z.eqb_spec c 47).
Qed.

Lemma path_elem_spec path e r : path_elem path = (e, r) ->
  path = e ++ r /\ Forall (fun c => c <> 47) e /\ cstr path = e ++ cstr r /\
  (chr r = 47 \/ chr r = 0) /\ (e = [] -> chr path = 47 \/ chr path = 0).
Proof.
  revert e r. induction path as [|c path IH]; intros e r; cbn [path_elem].
  { intros [= <- <-]. split_and!; try done; by right. }
  destruct ((c =? 47) || (c =? 0)) eqn:Ec.
  { intros [= <- <-]. apply orb_true_iff in Ec. split_and!; try done.
    - destruct Ec as [->%Z.eqb_eq| ->%Z.eqb_eq]; auto.
    - intros _. destruct Ec as [->%Z.eqb_eq| ->%Z.eqb_eq]; auto. }
  apply orb_false_iff in Ec as [H1%Z.eqb_neq H2%Z.eqb_neq].
  destruct (path_elem path) as [e' r'] eqn:Ep. intros [= <- <-].
  destruct (IH _ _ eq_refl) as (-> & He & Hs & Hr & _). split_and!; try done.
  - by constructor.
  - cbn [app cstr]. rewrite (proj2 (Z.eqb_neq c 0)) by done. by rewrite Hs.
Qed.

Lemma split_rest r : chr r = 47 \/ chr r = 0 ->
  exists ws, split_on 47 (cstr r) = [] :: ws /\ components r = filter (fun w => w <> []) ws.
Proof.
  intros [Hr|Hr].
  - destruct r as [|c r]; [done|]. cbn [chr hd] in Hr. subst c.
    exists (split_on 47 (cstr r)). done.
  - exists []. rewrite components_end by done. by rewrite cstr_nil.
Qed.

(** The calls of [skipelem] enumerate the elements of a path in order, each
    cut to [DIRSIZ] characters, whatever the number of slashes around them; it
    fails exactly when no element is left. *)
Theorem skipelem_correct path :
  match skipelem path with
  | None => components path = []
  | Some (e, r) => exists w, components path = w :: components r /\ e = take DIRSIZ w
  end.
Proof.
  unfold skipelem. pose proof (skip_slashes_chr path) as Hs. rewrite <- (components_slashes path).
  set (q := skip_slashes path) in *. destruct (Z.eqb_spec (chr q) 0) as [E|E]; [by apply components_end|].
  destruct (path_elem q) as [e r] eqn:Ep.
  destruct (path_elem_spec q e r Ep) as (_ & He & Hc & Hr & Hne).
  destruct (split_rest r Hr) as (ws & Hws & Hcr). exists e. split; [|done].
  rewrite components_slashes, Hcr. unfold components.
  rewrite Hc, (split_word _ _ _ He Hws). apply filter_cons_True. intros ->.
  by destruct (Hne eq_refl).
Qed.
