(* ===== verification/Kernel.v ===== *)
(** * The kernel's state

    One record for the state the components of the kernel share, and the
    embedding of each component's code into it.  The wake-ups that a component
    emits are delivered to the process table at once.

    [cur] is the process on whose behalf the code runs ([myproc()]).  User
    memory is reached through the page table of that process, as the processor
    does; an address without a translation is a fault. *)

From S2P Require Import Prelude CString SleepLock Bio Layout Log BlockLayer.
From S2P Require Import ProcDefs ProcTable Kalloc Vm Pipe Fs.

(** [struct file].  A null [ip] is [None], a null [pipe] is 0. *)
Inductive filetype := FD_NONE | FD_PIPE | FD_INODE.

#[export] Instance filetype_eq_dec : EqDecision filetype.
Proof. solve_decision. Defined.

Record file := File {
  f_type : filetype;
  f_ref : Z;
  f_readable : Z;
  f_writable : Z;
  f_pipe : Z;
  f_ip : option nat;
  f_off : Z }.

Definition zero_file : file := File FD_NONE 0 0 0 0 None 0.
Definition f_with_ref r f := File (f_type f) r (f_readable f) (f_writable f) (f_pipe f) (f_ip f) (f_off f).
Definition f_with_type t f := File t (f_ref f) (f_readable f) (f_writable f) (f_pipe f) (f_ip f) (f_off f).
Definition f_with_off o f := File (f_type f) (f_ref f) (f_readable f) (f_writable f) (f_pipe f) (f_ip f) o.

Record kstate (B D : Type) := KState {
  k_fs : fs B D;
  k_file : list file;
  k_pipes : pipes;
  k_mem : kmem;
  k_ptab : ptab;
  k_ticks : Z;
  k_cur : nat }.
Arguments KState {B D}.
Arguments k_fs {B D}.
Arguments k_file {B D}.
Arguments k_pipes {B D}.
Arguments k_mem {B D}.
Arguments k_ptab {B D}.
Arguments k_ticks {B D}.
Arguments k_cur {B D}.

Section kernel.
Context {B D : Type}.
Abbreviation K := (kstate B D).
Implicit Types s : K.

Definition set_fs f s : K :=
  KState f (k_file s) (k_pipes s) (k_mem s) (k_ptab s) (k_ticks s) (k_cur s).
Definition set_files l s : K :=
  KState (k_fs s) l (k_pipes s) (k_mem s) (k_ptab s) (k_ticks s) (k_cur s).
Definition set_pipes ps s : K :=
  KState (k_fs s) (k_file s) ps (k_mem s) (k_ptab s) (k_ticks s) (k_cur s).
Definition set_kmem m s : K :=
  KState (k_fs s) (k_file s) (k_pipes s) m (k_ptab s) (k_ticks s) (k_cur s).
Definition set_ptab t s : K :=
  KState (k_fs s) (k_file s) (k_pipes s) (k_mem s) t (k_ticks s) (k_cur s).
Definition set_ticks n s : K :=
  KState (k_fs s) (k_file s) (k_pipes s) (k_mem s) (k_ptab s) n (k_cur s).

(** Wake-ups reach the process table. *)
Definition wake_all (w : list chan) s : K :=
  set_ptab (set_procs (wakeups w (pt_proc (k_ptab s))) (k_ptab s)) s.
Definition deliver {A} (m : M K A) : M K A := fun s =>
  match m s with
  | Ok a s' w => Ok a (wake_all w s') []
  | Sleep c s' w => Sleep c (wake_all w s') []
  | Panic msg => Panic msg
  | Fault msg => Fault msg
  end.

Definition myproc : M K proc :=
  let* s := get in deref (pt_proc (k_ptab s) !! k_cur s) "myproc".

Definition on_ptab {A} (m : M ptab A) : M K A := deliver (zoom k_ptab set_ptab m).
Definition on_mem {A} (m : M kmem A) : M K A := deliver (zoom k_mem set_kmem m).
Definition on_pipes {A} (m : M pipes A) : M K A := deliver (zoom k_pipes set_pipes m).

(** File system code runs on behalf of the current process. *)
Definition on_fs {A} (m : proc -> M (fs B D) A) : M K A :=
  let* p := myproc in deliver (zoom k_fs set_fs (m p)).

Definition upd_myproc (f : proc -> proc) : M K unit :=
  let* s := get in on_ptab (upd_proc (k_cur s) f).

Definition kbegin_op `{BlockOps B} : M K unit := on_fs (fun _ => on_blk bl_begin_op).
Definition kend_op `{BlockOps B} : M K unit := on_fs (fun p => on_blk (bl_end_op (p_pid p))).

(** ** User memory *)

(** The kernel virtual address behind the user address [va], to read or to
    write.  The kernel runs with CR0.WP set, so that it faults on read-only
    pages too. *)
Definition uaddr (m : memory) (pgdir va : Z) (write : bool) : option Z :=
  let e := pt m pgdir va in
  if present e && (negb write || truth (Z.land e PTE_W))
  then Some (P2V (PTE_ADDR e) + va mod PGSIZE) else None.

(** Bytes [va, va+n) of the address space. *)
Fixpoint uload (m : memory) (pgdir va : Z) (n : nat) : option (list Z) :=
  match n with
  | O => Some []
  | S n =>
      match uaddr m pgdir va false, uload m pgdir (u32 (va + 1)) n with
      | Some a, Some l => Some (m a :: l)
      | _, _ => None
      end
  end.

Fixpoint ustore (m : memory) (pgdir va : Z) (l : list Z) : option memory :=
  match l with
  | [] => Some m
  | c :: l =>
      match uaddr m pgdir va true with
      | Some a => ustore (store8 m a c) pgdir (u32 (va + 1)) l
      | None => None
      end
  end.

Definition uread (va : Z) (n : nat) : M K (list Z) :=
  let* p := myproc in
  let* s := get in
  deref (uload (km_mem (k_mem s)) (p_pgdir p) va n) "page fault".

Definition uwrite (va : Z) (l : list Z) : M K unit :=
  let* p := myproc in
  let* s := get in
  let* m := deref (ustore (km_mem (k_mem s)) (p_pgdir p) va l) "page fault" in
  modify (set_kmem (Kmem m (km_freelist (k_mem s)))).
End kernel.

(** ** The file system from the kernel's side *)

Section kfs.
Context {B D : Type} `{BlockOps B} (devsw : proc -> Z -> devfns (fs B D)).
Abbreviation K := (kstate B D).

Definition kinode (ip : nat) : M K inode := on_fs (fun _ => read_inode ip).
Definition kupd_d (ip : nat) (f : dinode -> dinode) : M K unit := on_fs (fun _ => upd_d ip f).
Definition kilock (ip : nat) : M K unit := on_fs (fun p => ilock p ip).
Definition kiunlock (ip : nat) : M K unit := on_fs (fun p => iunlock p ip).
Definition kiput (ip : nat) : M K unit := on_fs (fun p => iput p ip).
Definition kiunlockput (ip : nat) : M K unit := on_fs (fun p => iunlockput p ip).
Definition kiupdate (ip : nat) : M K unit := on_fs (fun p => iupdate p ip).
Definition kialloc (dev type : Z) : M K nat := on_fs (fun p => ialloc p dev type).
Definition kreadi (ip : nat) (off n : Z) : M K (Z * list Z) :=
  on_fs (fun p => readi (devsw p) p ip off n).
Definition kwritei (ip : nat) (src : list Z) (off n : Z) : M K Z :=
  on_fs (fun p => writei (devsw p) p ip src off n).
Definition knamei (path : list Z) : M K (option nat) := on_fs (fun p => namei (devsw p) p path).
Definition knameiparent (path : list Z) : M K (option (nat * list Z)) :=
  on_fs (fun p => nameiparent (devsw p) p path).
Definition kdirlookup (dp : nat) (name : list Z) : M K (option (nat * Z)) :=
  on_fs (fun p => dirlookup (devsw p) p dp name).
Definition kdirlink (dp : nat) (name : list Z) (inum : Z) : M K Z :=
  on_fs (fun p => dirlink (devsw p) p dp name inum).
End kfs.
