(* ===== verification/File.v ===== *)
(** * Open files

    [kernel/file.c] and [pipealloc] of [kernel/pipe.c]: the table of open
    files shared by the processes.  A pointer into [ftable.file] is an index. *)

From S2P Require Import Prelude CString SleepLock Bio Layout Log BlockLayer.
From S2P Require Import ProcDefs ProcTable Kalloc Vm Pipe Fs Kernel.

Section file.
Context {B D : Type} `{BlockOps B} (devsw : proc -> Z -> devfns (fs B D)) (kend : Z).
Abbreviation K := (kstate B D).

Definition read_file (f : nat) : M K file :=
  let* s := get in deref (k_file s !! f) "file".
Definition upd_file (f : nat) (g : file -> file) : M K unit :=
  modify (fun s => set_files (alter g f (k_file s)) s).

Fixpoint free_file (l : list file) (i : nat) : option nat :=
  match l with
  | [] => None
  | f :: l => if f_ref f =? 0 then Some i else free_file l (S i)
  end.

Definition filealloc : M K (option nat) :=
  let* s := get in
  match free_file (k_file s) 0 with
  | Some f => do* upd_file f (f_with_ref 1) in ret (Some f)
  | None => ret None
  end.

Definition filedup (f : nat) : M K nat :=
  let* x := read_file f in
  if f_ref x <? 1 then panic "filedup" else
  do* upd_file f (f_with_ref (f_ref x + 1)) in
  ret f.

Definition kpipeclose (a : Z) (writable : bool) : M K unit :=
  let* last := on_pipes (pipeclose a writable) in
  when last then on_mem (kfree kend a).

Definition fileclose (f : nat) : M K unit :=
  let* ff := read_file f in
  if f_ref ff <? 1 then panic "fileclose" else
  do* upd_file f (f_with_ref (f_ref ff - 1)) in
  if 0 <? f_ref ff - 1 then ret tt else
  do* upd_file f (fun x => f_with_type FD_NONE (f_with_ref 0 x)) in
  match f_type ff with
  | FD_PIPE => kpipeclose (f_pipe ff) (truth (f_writable ff))
  | FD_INODE =>
      do* kbegin_op in
      let* ip := deref (f_ip ff) "ip" in
      do* kiput ip in
      kend_op
  | FD_NONE => ret tt
  end.

(** [filestat]; the result is what is stored at [st]. *)
Definition filestat (f : nat) : M K (option stat) :=
  let* x := read_file f in
  match f_type x with
  | FD_INODE =>
      let* ip := deref (f_ip x) "ip" in
      do* kilock ip in
      let* st := on_fs (fun _ => stati ip) in
      do* kiunlock ip in
      ret (Some st)
  | _ => ret None
  end.

(** [fileread]: the result and the bytes stored at [addr]. *)
Definition fileread (f : nat) (n : Z) : M K (Z * list Z) :=
  let* x := read_file f in
  if f_readable x =? 0 then ret (-1, []) else
  match f_type x with
  | FD_PIPE =>
      let* p := myproc in
      on_pipes (piperead (f_pipe x) n (p_killed p))
  | FD_INODE =>
      let* ip := deref (f_ip x) "ip" in
      do* kilock ip in
      let* (r, l) := kreadi devsw ip (f_off x) (u32 n) in
      do* when 0 <? r then upd_file f (fun x => f_with_off (u32 (f_off x + r)) x) in
      do* kiunlock ip in
      ret (r, l)
  | FD_NONE => panic "fileread"
  end.

(** Bytes written per transaction. *)
Definition filewrite_max : Z := ((MAXOPBLOCKS - 1 - 1 - 2) / 2) * 512.

(** The loop of [filewrite]: [i] bytes of [src] are written; the value of [i]
    when it ends. *)
Fixpoint filewrite_loop (fuel : nat) (f ip : nat) (src : list Z) (n i : Z) : M K Z :=
  if i <? n then
    match fuel with
    | O => fault "filewrite"
    | S fuel =>
        let n1 := if filewrite_max <? n - i then filewrite_max else n - i in
        do* kbegin_op in
        do* kilock ip in
        let* x := read_file f in
        let* r := kwritei devsw ip (drop (Z.to_nat i) src) (f_off x) n1 in
        do* when 0 <? r then upd_file f (fun x => f_with_off (u32 (f_off x + r)) x) in
        do* kiunlock ip in
        do* kend_op in
        if r <? 0 then ret i else
        if negb (r =? n1) then panic "short filewrite" else
        filewrite_loop fuel f ip src n (i + r)
    end
  else ret i.

(** [src]: the [n] bytes at [addr]. *)
Definition filewrite (f : nat) (src : list Z) (n : Z) : M K Z :=
  let* x := read_file f in
  if f_writable x =? 0 then ret (-1) else
  match f_type x with
  | FD_PIPE =>
      let* p := myproc in
      on_pipes (pipewrite (f_pipe x) src n (p_killed p))
  | FD_INODE =>
      let* ip := deref (f_ip x) "ip" in
      let* i := filewrite_loop (S (Z.to_nat (n / filewrite_max))) f ip src n 0 in
      ret (if i =? n then n else -1)
  | FD_NONE => panic "filewrite"
  end.

(** A page of the allocator holds the new pipe. *)
Definition pipealloc : M K (option (nat * nat)) :=
  let* f0 := filealloc in
  match f0 with
  | None => ret None
  | Some f0 =>
      let* f1 := filealloc in
      match f1 with
      | None => do* fileclose f0 in ret None
      | Some f1 =>
          let* p := on_mem kalloc in
          if p =? 0 then
            do* fileclose f0 in
            do* fileclose f1 in
            ret None
          else
            do* on_pipes (modify (insert p new_pipe)) in
            do* upd_file f0 (fun x => File FD_PIPE (f_ref x) 1 0 p (f_ip x) (f_off x)) in
            do* upd_file f1 (fun x => File FD_PIPE (f_ref x) 0 1 p (f_ip x) (f_off x)) in
            ret (Some (f0, f1))
      end
  end.
End file.
