(* ===== verification/SysArg.v ===== *)
(** * System call arguments

    The first part of [kernel/syscall.c]: the checked access of the kernel to
    the memory of the calling process.  [None] is the result -1.  A string is
    the list of its bytes with the terminating zero. *)

From S2P Require Import Prelude CString SleepLock Bio Layout Log BlockLayer.
From S2P Require Import ProcDefs ProcTable Kalloc Vm Pipe Fs Kernel.

Section sysarg.
Context {B D : Type}.
Abbreviation K := (kstate B D).

Definition fetchint (addr : Z) : M K (option Z) :=
  let* p := myproc in
  if (p_sz p <=? addr) || (p_sz p <? u32 (addr + 4)) then ret None else
  let* l := uread addr 4 in
  ret (Some (s32 (get_le 4 0 l))).

(** Scan for the terminator, [n] bytes at most. *)
Fixpoint fetchstr_loop (n : nat) (s : Z) (acc : list Z) : M K (option (list Z)) :=
  match n with
  | O => ret None
  | S n =>
      let* l := uread s 1 in
      if chr l =? 0 then ret (Some (acc ++ [0]))
      else fetchstr_loop n (s + 1) (acc ++ [chr l])
  end.

Definition fetchstr (addr : Z) : M K (option (list Z)) :=
  let* p := myproc in
  if p_sz p <=? addr then ret None else
  fetchstr_loop (Z.to_nat (p_sz p - addr)) addr [].

Definition argint (n : Z) : M K (option Z) :=
  let* p := myproc in fetchint (u32 (tf_esp (p_tf p) + 4 + 4 * n)).

Definition argptr (n size : Z) : M K (option Z) :=
  let* p := myproc in
  let* i := argint n in
  match i with
  | None => ret None
  | Some i =>
      if (size <? 0) || (p_sz p <=? u32 i) || (p_sz p <? u32 (u32 i + size)) then ret None
      else ret (Some (u32 i))
  end.

Definition argstr (n : Z) : M K (option (list Z)) :=
  let* addr := argint n in
  match addr with
  | None => ret None
  | Some addr => fetchstr (u32 addr)
  end.
End sysarg.

(** Run [k] on the argument, or return -1. *)
Notation "'arg*' x ':=' c1 'in' c2" :=
  (bind c1 (fun o => match o with None => ret (-1) | Some x => c2 end))
  (at level 10, x pattern, c1 at level 100, c2 at level 200) : kern_scope.
