(* ===== verification/SysArgSpec.v ===== *)
(** * The kernel's access to user memory is in bounds

    Whatever numbers a process leaves on its stack, the kernel neither faults
    on its arguments nor reaches memory above the size of the process. *)

From S2P Require Import Prelude Triple CString SleepLock Bio Layout Log BlockLayer.
From S2P Require Import ProcDefs ProcTable Kalloc Vm Pipe Fs Kernel SysArg.

Section args.
Context {B D : Type}.
Abbreviation K := (kstate B D).
Implicit Types (s : K) (p : proc).

(** The memory of process [p], which the kernel may read, is mapped. *)
Definition user_mapped (s : K) (p : proc) : Prop :=
  0 <= p_sz p <= KERNBASE /\
  forall va, 0 <= va < p_sz p -> uaddr (km_mem (k_mem s)) (p_pgdir p) va false <> None.

Definition user_bytes (s : K) (p : proc) (va : Z) (n : nat) : option (list Z) :=
  uload (km_mem (k_mem s)) (p_pgdir p) va n.

Lemma user_bytes_mapped s p va n :
  user_mapped s p -> 0 <= va -> va + Z.of_nat n <= p_sz p ->
  exists l, user_bytes s p va n = Some l /\ length l = n.
Proof.
  intros [Hsz Hm]. unfold user_bytes, KERNBASE in *. revert va. induction n as [|n IH]; intros va H0 Hn; cbn [uload].
  { by exists []. }
  destruct (uaddr _ _ va false) as [a|] eqn:E; [|destruct (Hm va); [lia|done]].
  destruct n as [|n]; [by eexists|].
  destruct (IH (va + 1)) as (l & Hl & Hlen); [lia..|]. unfold u32. rewrite Z.mod_small by lia.
  rewrite Hl. eexists. split; [done|]. cbn. by rewrite Hlen.
Qed.

Section cur.
Context (s : K) (p : proc) (Hp : pt_proc (k_ptab s) !! k_cur s = Some p) (Hm : user_mapped s p).

Lemma run_myproc {A} (k : proc -> M K A) : bind myproc k s = k p s.
Proof. unfold myproc. by rewrite run_bind, run_get, Hp; cbn [deref]; rewrite run_ret. Qed.

Lemma run_uread {A} va n l (k : list Z -> M K A) :
  user_bytes s p va n = Some l -> bind (uread va n) k s = k l s.
Proof.
  intros Hl. unfold uread. rewrite run_bind, run_myproc, run_bind, run_get.
  unfold user_bytes in Hl. rewrite Hl. cbn [deref]. apply run_ret.
Qed.

(** An expression that only reads the state. *)
Lemma run_Ok {A C} (m : M K A) a (k : A -> M K C) : m s = Ok a s [] -> bind m k s = k a s.
Proof. intros E. unfold bind. rewrite E. apply after_nil. Qed.

Lemma fetchint_total addr : 0 <= addr -> exists r, fetchint addr s = Ok r s [].
Proof.
  intros H0. unfold fetchint. rewrite run_myproc. destruct (_ || _) eqn:E; [by eexists|].
  apply orb_false_iff in E as [E1 E2]. apply Z.leb_gt in E1. apply Z.ltb_ge in E2.
  destruct Hm as [Hsz _]. unfold u32, KERNBASE in *. rewrite Z.mod_small in E2 by lia.
  destruct (user_bytes_mapped s p addr 4 Hm) as (l & Hl & _); [lia..|].
  rewrite (run_uread addr 4 l _ Hl). by eexists.
Qed.

Lemma argint_total n : exists r, argint n s = Ok r s [].
Proof. unfold argint. rewrite run_myproc. apply fetchint_total, u32_range. Qed.

Lemma fetchstr_loop_total n addr acc :
  0 <= addr -> addr + Z.of_nat n <= p_sz p ->
  exists r, fetchstr_loop n addr acc s = Ok r s [] /\
    match r with
    | Some l => exists str, l = acc ++ str ++ [0] /\ 0 ∉ str /\ (length str < n)%nat /\
                  user_bytes s p addr (length (str ++ [0])) = Some (str ++ [0])
    | None => True
    end.
Proof.
  revert addr acc. induction n as [|n IH]; intros addr acc H0 Hn; cbn [fetchstr_loop]; [by eexists|].
  destruct (user_bytes_mapped s p addr 1 Hm) as (l & Hl & Hlen); [lia..|].
  destruct l as [|c [|]]; try done. rewrite (run_uread addr 1 [c] _ Hl). cbn [chr hd].
  destruct (Z.eqb_spec c 0) as [->|Hc].
  - eexists. split; [done|]. exists []. split_and!; [done|set_solver|cbn; lia|exact Hl].
  - destruct (IH (addr + 1) (acc ++ [c])) as (r & -> & Hr); [lia..|]. exists r. split; [done|].
    destruct r as [l|]; [|done]. destruct Hr as (str & -> & Hz & Hs & Hb).
    exists (c :: str). rewrite <- app_assoc. split_and!; [done|set_solver|cbn; lia|].
    revert Hl Hb. unfold user_bytes. cbn [length app uload].
    destruct (uaddr _ _ addr false) as [a|]; [|done]. intros [= ->].
    destruct Hm as [Hsz _]. unfold u32, KERNBASE in *. destruct (decide (n = 0)%nat); [lia|].
    rewrite Z.mod_small by lia. by intros ->.
Qed.
End cur.

(** C5: pointer arguments are in bounds.  [argptr] returns, it does not fault
    whatever the stack pointer, and a pointer it accepts leads to [size] bytes
    that all lie below the size of the process and are mapped. *)
Theorem argptr_bounds s p n size :
  pt_proc (k_ptab s) !! k_cur s = Some p -> user_mapped s p -> size < 2 ^ 31 ->
  exists r, argptr n size s = Ok r s [] /\
    match r with
    | Some a => 0 <= size /\ 0 <= a < p_sz p /\ a + size <= p_sz p /\
                exists l, user_bytes s p a (Z.to_nat size) = Some l /\ length l = Z.to_nat size
    | None => True
    end.
Proof.
  intros Hp Hm Hsize. unfold argptr. rewrite (run_myproc s p Hp).
  destruct (argint_total s p Hp Hm n) as [[i|] Hi]; rewrite (run_Ok s _ _ _ Hi); [|by eexists].
  destruct (_ || _) eqn:E; [by eexists|]. eexists. split; [done|].
  apply orb_false_iff in E as [[E1 E2]%orb_false_iff E3].
  apply Z.ltb_ge in E1, E3. apply Z.leb_gt in E2. pose proof Hm as [Hsz _]. unfold KERNBASE in Hsz.
  assert (0 <= u32 i) by apply u32_range. rewrite (u32_small (u32 i + size)) in E3 by lia.
  split_and!; [lia..|]. apply (user_bytes_mapped s p); [done|lia..].
Qed.

(** C6: string arguments are in bounds.  [argstr] returns, it does not fault,
    and a string it accepts is the bytes of the process at some address up to
    and including the first zero, all below the size of the process. *)
Theorem argstr_bounds s p n :
  pt_proc (k_ptab s) !! k_cur s = Some p -> user_mapped s p ->
  exists r, argstr n s = Ok r s [] /\
    match r with
    | Some l => exists a str, l = str ++ [0] /\ 0 ∉ str /\ 0 <= a /\ a + Z.of_nat (length l) <= p_sz p /\
                  user_bytes s p a (length l) = Some l
    | None => True
    end.
Proof.
  intros Hp Hm. unfold argstr.
  destruct (argint_total s p Hp Hm n) as [[i|] Hi]; rewrite (run_Ok s _ _ _ Hi); [|by eexists].
  unfold fetchstr. rewrite (run_myproc s p Hp). destruct (p_sz p <=? u32 i) eqn:E; [by eexists|].
  apply Z.leb_gt in E. assert (0 <= u32 i) by apply u32_range.
  destruct (fetchstr_loop_total s p Hp Hm (Z.to_nat (p_sz p - u32 i)) (u32 i) []) as (r & -> & Hr); [lia..|].
  exists r. split; [done|]. destruct r as [l|]; [|done]. destruct Hr as (str & -> & Hz & Hl & Hb).
  exists (u32 i), str. split_and!; [done|done|done| |done]. rewrite app_nil_l, length_app. cbn. lia.
Qed.
End args.
