(* ===== verification/Proc.v ===== *)
(** * Processes: system calls

    The functions of [kernel/proc.c] that use memory, files and the process
    table together: [allocproc], [userinit], [growproc], [fork], [exit],
    [wait] and [kill].  What they do to the table under its lock is in
    [ProcTable].

    The trap frame of a process is part of its record; the rest of its kernel
    stack (the saved context, [swtch]) is not modelled, nor the calls of
    [switchuvm], which is in [Segments]. *)

From S2P Require Import Prelude CString SleepLock Bio Layout Log BlockLayer.
From S2P Require Import ProcDefs ProcTable Kalloc Vm Pipe Fs Kernel File.

Section proc.
Context {B D : Type} `{BlockOps B} (devsw : proc -> Z -> devfns (fs B D)) (kend kdata : Z).
Abbreviation K := (kstate B D).

Definition allocproc : M K (option nat) :=
  let* np := on_ptab alloc_slot in
  match np with
  | None => ret None
  | Some np =>
      let* ks := on_mem kalloc in
      do* on_ptab (upd_proc np (p_with_kstack ks)) in
      if ks =? 0 then
        do* on_ptab (upd_proc np (p_with_state UNUSED)) in
        ret None
      else ret (Some np)
  end.

Definition SEG_UCODE : Z := 3.
Definition SEG_UDATA : Z := 4.
Definition DPL_USER : Z := 3.
Definition FL_IF : Z := 512.

(** The trap frame of the first process. *)
Definition init_tf : trapframe :=
  let ds := Z.lor (Z.shiftl SEG_UDATA 3) DPL_USER in
  TrapFrame 0 0 0 0 0 0 0 ds ds 0 0 0 (Z.lor (Z.shiftl SEG_UCODE 3) DPL_USER) FL_IF PGSIZE ds.

(** [safestrcpy(p->name, name, sizeof(p->name))]. *)
Definition set_name (name : list Z) (p : proc) : proc :=
  p_with_name (splice 0 (safestrcpy name 16) (p_name p)) p.

(** [initcode]: the bytes of the first program. *)
Definition userinit (initcode : list Z) : M K unit :=
  let* np := allocproc in
  do* on_ptab (modify (fun t => PTab (pt_proc t) (pt_nextpid t) np)) in
  let* np := deref np "userinit" in
  let* pgdir := on_mem (setupkvm kend kdata) in
  do* on_ptab (upd_proc np (p_with_pgdir pgdir)) in
  if pgdir =? 0 then panic "userinit: out of memory?" else
  do* on_mem (inituvm pgdir initcode) in
  do* on_ptab (upd_proc np (fun p => p_with_tf init_tf (p_with_ids 0 0 (p_with_sz PGSIZE p)))) in
  do* on_ptab (upd_proc np (fun p =>
        set_name [105; 110; 105; 116; 99; 111; 100; 101; 0] p)) in
  let* ip := knamei devsw [47; 0] in
  do* on_ptab (upd_proc np (p_with_cwd ip)) in
  on_ptab (upd_proc np (p_with_state RUNNABLE)).

Definition growproc (n : Z) : M K Z :=
  let* p := myproc in
  let sz := p_sz p in
  let* r :=
    if 0 <? n then
      let* sz := on_mem (allocuvm kend (p_pgdir p) sz (u32 (sz + n))) in
      ret (if sz =? 0 then None else Some sz)
    else if n <? 0 then
      let* sz := on_mem (deallocuvm kend (p_pgdir p) sz (u32 (sz + n))) in
      ret (if sz =? 0 then None else Some sz)
    else ret (Some sz) in
  match r with
  | None => ret (-1)
  | Some sz => do* upd_myproc (p_with_sz sz) in ret 0
  end.

(** Duplicate the open files of the parent, [ofile[i..]], into the child. *)
Fixpoint dup_files (np i : nat) (l : list (option nat)) : M K unit :=
  match l with
  | [] => ret tt
  | None :: l => dup_files np (S i) l
  | Some f :: l =>
      let* f := filedup f in
      do* on_ptab (upd_proc np (fun p => p_with_ofile (<[i := Some f]> (p_ofile p)) p)) in
      dup_files np (S i) l
  end.

Definition clear_eax (tf : trapframe) : trapframe :=
  TrapFrame (tf_edi tf) (tf_esi tf) (tf_ebp tf) (tf_ebx tf) (tf_edx tf) (tf_ecx tf) 0
    (tf_es tf) (tf_ds tf) (tf_trapno tf) (tf_err tf) (tf_eip tf) (tf_cs tf) (tf_eflags tf)
    (tf_esp tf) (tf_ss tf).

Definition fork : M K Z :=
  let* s := get in
  let cur := k_cur s in
  let* p := myproc in
  let* np := allocproc in
  match np with
  | None => ret (-1)
  | Some np =>
      let* pgdir := on_mem (copyuvm kend kdata (p_pgdir p) (p_sz p)) in
      do* on_ptab (upd_proc np (p_with_pgdir pgdir)) in
      let* q := on_ptab (read_proc np) in
      if pgdir =? 0 then
        do* on_mem (kfree kend (p_kstack q)) in
        do* on_ptab (upd_proc np (fun q => p_with_state UNUSED (p_with_kstack 0 q))) in
        ret (-1)
      else
        do* on_ptab (upd_proc np (fun q =>
              p_with_groups (p_ngroups p) (p_gids p) (p_with_tf (clear_eax (p_tf p))
                (p_with_ids (p_uid p) (p_euid p) (p_with_parent (Some cur) (p_with_sz (p_sz p) q)))))) in
        do* dup_files np 0 (p_ofile p) in
        let* cwd := deref (p_cwd p) "cwd" in
        let* cwd := on_fs (fun _ => idup cwd) in
        do* on_ptab (upd_proc np (fun q =>
              set_name (p_name p) (p_with_cwd (Some cwd) q))) in
        do* on_ptab (upd_proc np (p_with_state RUNNABLE)) in
        ret (p_pid q)
  end.

(** Close the open files, from descriptor [fd] on ([k] left). *)
Fixpoint close_files (k fd : nat) : M K unit :=
  match k with
  | O => ret tt
  | S k =>
      let* p := myproc in
      do* match p_ofile p !! fd with
          | Some (Some f) =>
              do* fileclose kend f in
              upd_myproc (fun p => p_with_ofile (<[fd := None]> (p_ofile p)) p)
          | _ => ret tt
          end in
      close_files k (S fd)
  end.

(** [exit], up to the switch to the scheduler from which it does not return. *)
Definition exit : M K unit :=
  let* s := get in
  if bool_decide (pt_initproc (k_ptab s) = Some (k_cur s)) then panic "init exiting" else
  do* close_files NOFILE 0 in
  let* p := myproc in
  do* kbegin_op in
  let* cwd := deref (p_cwd p) "cwd" in
  do* kiput cwd in
  do* kend_op in
  do* upd_myproc (p_with_cwd None) in
  on_ptab (exit_table (k_cur s)).

(** [wait], up to its return or its next [sleep]. *)
Definition wait : M K Z :=
  let* s := get in
  let* r := on_ptab (wait_pass (k_cur s)) in
  match r with
  | WaitDone pid kstack pgdir =>
      do* on_mem (kfree kend kstack) in
      do* on_mem (freevm kend pgdir) in
      ret pid
  | WaitFail => ret (-1)
  | WaitSleep => sleep_on (ChProc (k_cur s))
  end.

Definition kkill (pid : Z) : M K Z := on_ptab (kill pid).
End proc.
