(* ===== verification/Exec.v ===== *)
(** * Program loading

    [kernel/exec.c], the ELF structures of [kernel/elf.h] and [loaduvm] of
    [kernel/vm.c].  [argv] is the list of the argument strings, each with its
    terminating zero.  The diagnostic output and the call of [switchuvm]
    (see [Segments]) are left out. *)

From S2P Require Import Prelude CString SleepLock Bio Layout Log BlockLayer.
From S2P Require Import ProcDefs ProcTable Kalloc Vm Pipe Fs Kernel Proc.

Definition ELF_MAGIC : Z := 0x464C457F.
Definition ELF_PROG_LOAD : Z := 1.

Record elfhdr := ElfHdr { e_magic : Z; e_entry : Z; e_phoff : Z; e_phnum : Z }.
Definition ELFHDR_SIZE : Z := 52.
Definition dec_elfhdr (d : list Z) : elfhdr :=
  ElfHdr (get_le 4 0 d) (get_le 4 24 d) (get_le 4 28 d) (get_le 2 44 d).

Record proghdr := ProgHdr { ph_type : Z; ph_off : Z; ph_vaddr : Z; ph_filesz : Z; ph_memsz : Z }.
Definition PROGHDR_SIZE : Z := 32.
Definition dec_proghdr (d : list Z) : proghdr :=
  ProgHdr (get_le 4 0 d) (get_le 4 4 d) (get_le 4 8 d) (get_le 4 16 d) (get_le 4 20 d).

Section exec.
Context {B D : Type} `{BlockOps B} (devsw : proc -> Z -> devfns (fs B D)) (kend kdata : Z).
Abbreviation K := (kstate B D).

(** The loop of [loaduvm], from byte [i] of the segment on. *)
Fixpoint loaduvm_loop (fuel : nat) (pgdir addr : Z) (ip : nat) (offset sz i : Z) : M K Z :=
  if i <? sz then
    match fuel with
    | O => fault "loaduvm"
    | S fuel =>
        let* pte := on_mem (walkpgdir pgdir (u32 (addr + i)) false) in
        match pte with
        | None => panic "loaduvm: address should exist"
        | Some pte =>
            let* e := on_mem (rd32 pte) in
            let n := if sz - i <? PGSIZE then sz - i else PGSIZE in
            let* (r, l) := kreadi devsw ip (u32 (offset + i)) n in
            do* on_mem (kstore (P2V (PTE_ADDR e)) l) in
            if negb (u32 r =? n) then ret (-1)
            else loaduvm_loop fuel pgdir addr ip offset sz (u32 (i + PGSIZE))
        end
    end
  else ret 0.

Definition loaduvm (pgdir addr : Z) (ip : nat) (offset sz : Z) : M K Z :=
  if truth (addr mod PGSIZE) then panic "loaduvm: addr must be page aligned" else
  loaduvm_loop (S (Z.to_nat (sz / PGSIZE))) pgdir addr ip offset sz 0.

(** The program headers from [off] on ([k] left); the size of the image, or
    [None] for [goto bad]. *)
Fixpoint exec_load (k : nat) (pgdir : Z) (ip : nat) (off sz : Z) : M K (option Z) :=
  match k with
  | O => ret (Some sz)
  | S k =>
      let* (r, l) := kreadi devsw ip (u32 off) PROGHDR_SIZE in
      if negb (r =? PROGHDR_SIZE) then ret None else
      let ph := dec_proghdr l in
      if negb (ph_type ph =? ELF_PROG_LOAD) then exec_load k pgdir ip (off + PROGHDR_SIZE) sz else
      if ph_memsz ph <? ph_filesz ph then ret None else
      if u32 (ph_vaddr ph + ph_memsz ph) <? ph_vaddr ph then ret None else
      let* sz := on_mem (allocuvm kend pgdir sz (u32 (ph_vaddr ph + ph_memsz ph))) in
      if sz =? 0 then ret None else
      if truth (ph_vaddr ph mod PGSIZE) then ret None else
      let* r := loaduvm pgdir (ph_vaddr ph) ip (ph_off ph) (ph_filesz ph) in
      if r <? 0 then ret None else
      exec_load k pgdir ip (off + PROGHDR_SIZE) sz
  end.

(** Push the argument strings; the stack pointer and the addresses of the
    strings. *)
Fixpoint push_args (argv : list (list Z)) (argc : nat) (pgdir sp : Z) (acc : list Z) :
    M K (option (Z * list Z)) :=
  match argv with
  | [] => ret (Some (sp, acc))
  | a :: argv =>
      if (MAXARG <=? argc)%nat then ret None else
      let sp := Z.land (u32 (sp - (strlen a + 1))) (Z.lnot 3) in
      let* r := on_mem (copyout pgdir sp (take (Z.to_nat (strlen a + 1)) a)) in
      if r <? 0 then ret None else
      push_args argv (S argc) pgdir sp (acc ++ [sp])
  end.

(** [ustack]: fake return address, argc, argv, the strings, 0. *)
Definition ustack (sp : Z) (args : list Z) : list Z :=
  let argc := Z.of_nat (length args) in
  0xffffffff :: argc :: u32 (sp - (argc + 1) * 4) :: args ++ [0].

(** The name after the last slash of [s]; [last] is the one found so far. *)
Fixpoint last_elem (last s : list Z) : list Z :=
  match s with
  | [] => last
  | c :: s => if c =? 0 then last else if c =? 47 then last_elem s s else last_elem last s
  end.

Definition set_entry (entry sp : Z) (tf : trapframe) : trapframe :=
  TrapFrame (tf_edi tf) (tf_esi tf) (tf_ebp tf) (tf_ebx tf) (tf_edx tf) (tf_ecx tf) (tf_eax tf)
    (tf_es tf) (tf_ds tf) (tf_trapno tf) (tf_err tf) entry (tf_cs tf) (tf_eflags tf) sp (tf_ss tf).

(** The label [bad]. *)
Definition exec_bad (pgdir : Z) (ip : option nat) : M K Z :=
  do* when negb (pgdir =? 0) then on_mem (freevm kend pgdir) in
  do* match ip with
      | Some ip => do* kiunlockput ip in kend_op
      | None => ret tt
      end in
  ret (-1).

(** From the allocation of the stack to the end. *)
Definition exec_stack (path : list Z) (argv : list (list Z)) (pgdir sz entry : Z) (setuid : bool) :
    M K Z :=
  let sz := PGROUNDUP sz in
  let* sz := on_mem (allocuvm kend pgdir sz (u32 (sz + 2 * PGSIZE))) in
  if sz =? 0 then exec_bad pgdir None else
  do* on_mem (clearpteu pgdir (u32 (sz - 2 * PGSIZE))) in
  let* r := push_args argv 0 pgdir sz [] in
  match r with
  | None => exec_bad pgdir None
  | Some (sp, args) =>
      let us := ustack sp args in
      let sp := u32 (sp - Z.of_nat (length us) * 4) in
      let* r := on_mem (copyout pgdir sp (concat (le_bytes 4 <$> us))) in
      if r <? 0 then exec_bad pgdir None else
      do* upd_myproc (set_name (last_elem path path)) in
      let* p := myproc in
      do* upd_myproc (fun p =>
            p_with_ids (p_uid p) (if setuid then 0 else p_uid p)
              (p_with_tf (set_entry entry sp (p_tf p)) (p_with_sz sz (p_with_pgdir pgdir p)))) in
      do* on_mem (freevm kend (p_pgdir p)) in
      ret 0
  end.

Definition exec (path : list Z) (argv : list (list Z)) : M K Z :=
  do* kbegin_op in
  let* ip := knamei devsw path in
  match ip with
  | None => do* kend_op in ret (-1)
  | Some ip =>
      do* kilock ip in
      let* i := kinode ip in
      let* p := myproc in
      if exec_denied p (i_d i) then exec_bad 0 (Some ip) else
      let* (r, l) := kreadi devsw ip 0 ELFHDR_SIZE in
      if negb (r =? ELFHDR_SIZE) then exec_bad 0 (Some ip) else
      let elf := dec_elfhdr l in
      if negb (e_magic elf =? ELF_MAGIC) then exec_bad 0 (Some ip) else
      let* pgdir := on_mem (setupkvm kend kdata) in
      if pgdir =? 0 then exec_bad 0 (Some ip) else
      let* sz := exec_load (Z.to_nat (e_phnum elf)) pgdir ip (e_phoff elf) 0 in
      match sz with
      | None => exec_bad pgdir (Some ip)
      | Some sz =>
          let* i := kinode ip in
          let setuid := truth (Z.land (d_mode (i_d i)) (2 ^ 9)) in
          do* kiunlockput ip in
          do* kend_op in
          exec_stack path argv pgdir sz (e_entry elf) setuid
      end
  end.
End exec.
