(* ===== verification/Sysfile.v ===== *)
(** * System calls on files

    [kernel/sysfile.c].  Each system call takes its arguments from the stack
    of the calling process and returns the value for its %eax. *)

From S2P Require Import Prelude CString SleepLock Bio Layout Log BlockLayer.
From S2P Require Import ProcDefs ProcTable Kalloc Vm Pipe Fs Kernel File SysArg Exec.

Definition O_RDONLY : Z := 4.
Definition O_WRONLY : Z := 2.
Definition O_RDWR : Z := 6.
Definition O_CREATE : Z := 56.
Definition SEEK_SET : Z := 0.
Definition SEEK_CUR : Z := 1.
Definition SEEK_END : Z := 2.

(** The first free descriptor from [fd] on. *)
Fixpoint free_fd (l : list (option nat)) (fd : nat) : option nat :=
  match l with
  | [] => None
  | None :: _ => Some fd
  | Some _ :: l => free_fd l (S fd)
  end.

(** [struct stat] in memory: the runs of bytes [stati] stores.  [mode[10]]
    falls into the padding at the end. *)
Definition enc_stat (st : stat) : list (Z * list Z) :=
  [ (0, le_bytes 2 (st_type st));
    (4, le_bytes 4 (st_dev st) ++ le_bytes 4 (st_ino st) ++ le_bytes 2 (st_nlink st));
    (16, le_bytes 4 (st_size st) ++ le_bytes 4 (st_uid st) ++ le_bytes 4 (st_gid st) ++
         st_mode st) ].
Definition STAT_SIZE : Z := 40.

(** The permission test of [sys_open]. *)
Definition open_denied (p : proc) (d : dinode) (omode : Z) : bool :=
  let ok m := Z.land (d_mode d) m =? m in
  negb (p_euid p =? 0) && negb (ok omode) &&
  (negb (p_euid p =? d_uid d) || negb (ok (s32 (Z.shiftl omode 6)))) &&
  negb (existsb (fun g => (g =? d_gid d) && ok (s32 (Z.shiftl omode 3))) (groups p)).

Section sysfile.
Context {B D : Type} `{BlockOps B} (devsw : proc -> Z -> devfns (fs B D)) (kend kdata : Z).
Abbreviation K := (kstate B D).

Definition argfd (n : Z) : M K (option (nat * nat)) :=
  let* fd := argint n in
  match fd with
  | None => ret None
  | Some fd =>
      if (fd <? 0) || (Z.of_nat NOFILE <=? fd) then ret None else
      let* p := myproc in
      match p_ofile p !! Z.to_nat fd with
      | Some (Some f) => ret (Some (Z.to_nat fd, f))
      | _ => ret None
      end
  end.

Definition set_fd (fd : nat) (f : option nat) : M K unit :=
  upd_myproc (fun p => p_with_ofile (<[fd := f]> (p_ofile p)) p).

Definition fdalloc (f : nat) : M K (option nat) :=
  let* p := myproc in
  match free_fd (p_ofile p) 0 with
  | Some fd => do* set_fd fd (Some f) in ret (Some fd)
  | None => ret None
  end.

Definition sys_dup : M K Z :=
  arg* (_, f) := argfd 0 in
  arg* fd := fdalloc f in
  do* filedup f in
  ret (Z.of_nat fd).

Definition sys_read : M K Z :=
  arg* (_, f) := argfd 0 in
  arg* n := argint 2 in
  arg* p := argptr 1 n in
  let* (r, l) := fileread devsw f n in
  do* uwrite p l in
  ret r.

Definition sys_write : M K Z :=
  arg* (_, f) := argfd 0 in
  arg* n := argint 2 in
  arg* p := argptr 1 n in
  let* src := uread p (Z.to_nat n) in
  filewrite devsw f src n.

Definition sys_close : M K Z :=
  arg* (fd, f) := argfd 0 in
  do* set_fd fd None in
  do* fileclose kend f in
  ret 0.

Fixpoint uwrite_runs (a : Z) (l : list (Z * list Z)) : M K unit :=
  match l with
  | [] => ret tt
  | (off, d) :: l => do* uwrite (u32 (a + off)) d in uwrite_runs a l
  end.

Definition sys_fstat : M K Z :=
  arg* (_, f) := argfd 0 in
  arg* a := argptr 1 STAT_SIZE in
  let* st := filestat f in
  match st with
  | None => ret (-1)
  | Some st => do* uwrite_runs a (enc_stat st) in ret 0
  end.

(** The label [bad] of [sys_link]. *)
Definition link_bad (ip : nat) : M K Z :=
  do* kilock ip in
  do* kupd_d ip (fun d => d_with_nlink (s16 (d_nlink d - 1)) d) in
  do* kiupdate ip in
  do* kiunlockput ip in
  do* kend_op in
  ret (-1).

Definition sys_link : M K Z :=
  arg* old := argstr 0 in
  arg* new := argstr 1 in
  do* kbegin_op in
  let* ip := knamei devsw old in
  match ip with
  | None => do* kend_op in ret (-1)
  | Some ip =>
      do* kilock ip in
      let* i := kinode ip in
      if d_type (i_d i) =? T_DIR then
        do* kiunlockput ip in do* kend_op in ret (-1)
      else
      do* kupd_d ip (fun d => d_with_nlink (s16 (d_nlink d + 1)) d) in
      do* kiupdate ip in
      do* kiunlock ip in
      let* r := knameiparent devsw new in
      match r with
      | None => link_bad ip
      | Some (dp, name) =>
          do* kilock dp in
          let* d := kinode dp in
          let* i := kinode ip in
          let* bad := if negb (i_dev d =? i_dev i) then ret true
                      else let* r := kdirlink devsw dp name (i_inum i) in ret (r <? 0) in
          if bad then do* kiunlockput dp in link_bad ip else
          do* kiunlockput dp in
          do* kiput ip in
          do* kend_op in
          ret 0
      end
  end.

(** The entries of a directory from [off] on are free. *)
Fixpoint isdirempty_loop (fuel : nat) (dp : nat) (off : Z) : M K bool :=
  let* i := kinode dp in
  if off <? d_size (i_d i) then
    match fuel with
    | O => fault "isdirempty"
    | S fuel =>
        let* (r, l) := kreadi devsw dp off DE in
        if negb (r =? DE) then panic "isdirempty: readi" else
        if negb (de_inum (dec_dirent l) =? 0) then ret false
        else isdirempty_loop fuel dp (off + DE)
    end
  else ret true.

Definition isdirempty (dp : nat) : M K bool :=
  let* i := kinode dp in isdirempty_loop (dir_fuel (d_size (i_d i))) dp (2 * DE).

Definition unlink_bad (dp : nat) : M K Z :=
  do* kiunlockput dp in do* kend_op in ret (-1).

Definition sys_unlink : M K Z :=
  arg* path := argstr 0 in
  do* kbegin_op in
  let* r := knameiparent devsw path in
  match r with
  | None => do* kend_op in ret (-1)
  | Some (dp, name) =>
      do* kilock dp in
      if (namecmp name [46; 0] =? 0) || (namecmp name [46; 46; 0] =? 0) then unlink_bad dp else
      let* r := kdirlookup devsw dp name in
      match r with
      | None => unlink_bad dp
      | Some (ip, off) =>
          do* kilock ip in
          let* i := kinode ip in
          if d_nlink (i_d i) <? 1 then panic "unlink: nlink < 1" else
          let isdir := d_type (i_d i) =? T_DIR in
          let* empty := if isdir then isdirempty ip else ret true in
          if negb empty then do* kiunlockput ip in unlink_bad dp else
          let* r := kwritei devsw dp (replicate (Z.to_nat DE) 0) off DE in
          if negb (r =? DE) then panic "unlink: writei" else
          do* when isdir then
                (do* kupd_d dp (fun d => d_with_nlink (s16 (d_nlink d - 1)) d) in kiupdate dp) in
          do* kiunlockput dp in
          do* kupd_d ip (fun d => d_with_nlink (s16 (d_nlink d - 1)) d) in
          do* kiupdate ip in
          do* kiunlockput ip in
          do* kend_op in
          ret 0
      end
  end.

(** [create]: the locked inode, or [None] for the null pointer. *)
Definition create (path : list Z) (type major minor : Z) : M K (option nat) :=
  let* r := knameiparent devsw path in
  match r with
  | None => ret None
  | Some (dp, name) =>
      do* kilock dp in
      let* r := kdirlookup devsw dp name in
      match r with
      | Some (ip, _) =>
          do* kiunlockput dp in
          do* kilock ip in
          let* i := kinode ip in
          if ((type =? T_FILE) && (d_type (i_d i) =? T_FILE)) || (d_type (i_d i) =? T_DEV)
          then ret (Some ip)
          else do* kiunlockput ip in ret None
      | None =>
          let* d := kinode dp in
          let* ip := kialloc (i_dev d) type in
          do* kilock ip in
          let* p := myproc in
          do* kupd_d ip (fun d => d_with_mode 420 (d_with_owner (p_uid p) (p_uid p)
                                   (d_with_nlink 1 (d_with_dev major minor d)))) in
          do* kiupdate ip in
          let* i := kinode ip in
          do* when type =? T_DIR then
                (do* kupd_d dp (fun d => d_with_nlink (s16 (d_nlink d + 1)) d) in
                 do* kupd_d ip (d_with_mode 493) in
                 do* kiupdate dp in
                 let* r1 := kdirlink devsw ip [46; 0] (i_inum i) in
                 if r1 <? 0 then panic "create dots" else
                 let* r2 := kdirlink devsw ip [46; 46; 0] (i_inum d) in
                 when r2 <? 0 then panic "create dots") in
          let* r := kdirlink devsw dp name (i_inum i) in
          if r <? 0 then panic "create: dirlink" else
          do* kiunlockput dp in
          ret (Some ip)
      end
  end.

(** The second half of [sys_open], with the inode locked. *)
Definition open_file (ip : nat) (omode : Z) : M K Z :=
  let fail := do* kiunlockput ip in do* kend_op in ret (-1) in
  let* f := filealloc in
  match f with
  | None => fail
  | Some f =>
      let* fd := fdalloc f in
      match fd with
      | None => do* fileclose kend f in fail
      | Some fd =>
          do* kiunlock ip in
          do* kend_op in
          do* upd_file f (fun x => File FD_INODE (f_ref x) (Z.land omode O_RDONLY)
                                     (Z.land omode O_WRONLY) (f_pipe x) (Some ip) 0) in
          ret (Z.of_nat fd)
      end
  end.

Definition sys_open : M K Z :=
  arg* path := argstr 0 in
  arg* omode := argint 1 in
  do* kbegin_op in
  if truth (Z.land omode O_CREATE) then
    let* ip := create path T_FILE 0 0 in
    match ip with
    | None => do* kend_op in ret (-1)
    | Some ip => open_file ip omode
    end
  else
    let* ip := knamei devsw path in
    match ip with
    | None => do* kend_op in ret (-1)
    | Some ip =>
        do* kilock ip in
        let* i := kinode ip in
        let* p := myproc in
        if open_denied p (i_d i) omode ||
           ((d_type (i_d i) =? T_DIR) && negb (omode =? O_RDONLY)) then
          do* kiunlockput ip in do* kend_op in ret (-1)
        else open_file ip omode
    end.

Definition sys_mkdir : M K Z :=
  do* kbegin_op in
  let* path := argstr 0 in
  let* ip := match path with None => ret None | Some path => create path T_DIR 0 0 end in
  match ip with
  | None => do* kend_op in ret (-1)
  | Some ip => do* kiunlockput ip in do* kend_op in ret 0
  end.

Definition sys_mknod : M K Z :=
  do* kbegin_op in
  let fail := do* kend_op in ret (-1) in
  let* path := argstr 0 in
  match path with
  | None => fail
  | Some path =>
      let* major := argint 1 in
      match major with
      | None => fail
      | Some major =>
          let* minor := argint 2 in
          match minor with
          | None => fail
          | Some minor =>
              let* ip := create path T_DEV (s16 major) (s16 minor) in
              match ip with
              | None => fail
              | Some ip => do* kiunlockput ip in do* kend_op in ret 0
              end
          end
      end
  end.

Definition sys_chdir : M K Z :=
  do* kbegin_op in
  let* path := argstr 0 in
  let* ip := match path with None => ret None | Some path => knamei devsw path end in
  match ip with
  | None => do* kend_op in ret (-1)
  | Some ip =>
      do* kilock ip in
      let* i := kinode ip in
      let* p := myproc in
      if negb (d_type (i_d i) =? T_DIR) || exec_denied p (i_d i) then
        do* kiunlockput ip in do* kend_op in ret (-1)
      else
        do* kiunlock ip in
        let* cwd := deref (p_cwd p) "cwd" in
        do* kiput cwd in
        do* kend_op in
        do* upd_myproc (p_with_cwd (Some ip)) in
        ret 0
  end.

(** Fetch the argument strings, from [uargv[i]] on. *)
Fixpoint fetch_argv (k : nat) (uargv i : Z) (acc : list (list Z)) : M K (option (list (list Z))) :=
  match k with
  | O => ret None
  | S k =>
      let* uarg := fetchint (u32 (uargv + 4 * i)) in
      match uarg with
      | None => ret None
      | Some uarg =>
          if uarg =? 0 then ret (Some acc) else
          let* a := fetchstr (u32 uarg) in
          match a with
          | None => ret None
          | Some a => fetch_argv k uargv (i + 1) (acc ++ [a])
          end
      end
  end.

Definition sys_exec : M K Z :=
  arg* path := argstr 0 in
  arg* uargv := argint 1 in
  arg* argv := fetch_argv MAXARG (u32 uargv) 0 [] in
  exec devsw kend kdata path argv.

Definition sys_pipe : M K Z :=
  arg* a := argptr 0 8 in
  arg* (rf, wf) := pipealloc kend in
  let close := do* fileclose kend rf in do* fileclose kend wf in ret (-1) in
  let* fd0 := fdalloc rf in
  match fd0 with
  | None => close
  | Some fd0 =>
      let* fd1 := fdalloc wf in
      match fd1 with
      | None => do* set_fd fd0 None in close
      | Some fd1 =>
          do* uwrite a (le_bytes 4 (Z.of_nat fd0)) in
          do* uwrite (u32 (a + 4)) (le_bytes 4 (Z.of_nat fd1)) in
          ret 0
      end
  end.

(** The owner is read before the inode is locked; the reference is kept. *)
Definition sys_chmod : M K Z :=
  arg* path := argstr 0 in
  arg* mode := argint 1 in
  do* kbegin_op in
  let* ip := knamei devsw path in
  match ip with
  | None => do* kend_op in ret (-1)
  | Some ip =>
      let* p := myproc in
      let* i := kinode ip in
      if negb (p_euid p =? 0) && negb (d_uid (i_d i) =? p_uid p) then
        do* kend_op in ret (-1)
      else
        do* kilock ip in
        do* kupd_d ip (d_with_mode (s16 mode)) in
        do* kiupdate ip in
        do* kiunlock ip in
        do* kend_op in
        ret 0
  end.

Definition sys_chown : M K Z :=
  arg* path := argstr 0 in
  arg* owner := argint 1 in
  arg* group := argint 2 in
  let* p := myproc in
  if negb (p_euid p =? 0) then ret (-1) else
  do* kbegin_op in
  let* ip := knamei devsw path in
  match ip with
  | None => do* kend_op in ret (-1)
  | Some ip =>
      do* kilock ip in
      do* kupd_d ip (d_with_owner owner group) in
      do* kiupdate ip in
      do* kiunlock ip in
      do* kend_op in
      ret 0
  end.

Definition sys_lseek : M K Z :=
  arg* (_, f) := argfd 0 in
  arg* offset := argint 1 in
  arg* whence := argint 2 in
  let* x := read_file f in
  do* if whence =? SEEK_SET then upd_file f (f_with_off (u32 offset))
      else if whence =? SEEK_CUR then upd_file f (f_with_off (u32 (f_off x + offset)))
      else if whence =? SEEK_END then
        let* ip := deref (f_ip x) "ip" in
        let* i := kinode ip in
        upd_file f (f_with_off (u32 (d_size (i_d i) + offset)))
      else ret tt in
  ret 0.

Definition sys_trim : M K Z :=
  arg* (_, f) := argfd 0 in
  do* kbegin_op in
  let* x := read_file f in
  let* ip := deref (f_ip x) "ip" in
  do* kilock ip in
  do* kupd_d ip (d_with_size (f_off x)) in
  do* kiupdate ip in
  do* kiunlock ip in
  do* kend_op in
  ret 0.
End sysfile.
