(* ===== verification/Sysproc.v ===== *)
(** * System calls on processes

    [kernel/sysproc.c]: identity, memory and time of the calling process.  The
    user and group identities are this kernel's access control. *)

From S2P Require Import Prelude CString SleepLock Bio Layout Log BlockLayer.
From S2P Require Import ProcDefs ProcTable Kalloc Vm Pipe Fs Kernel File SysArg Proc.

Section sysproc.
Context {B D : Type} `{BlockOps B} (kend kdata : Z).
Abbreviation K := (kstate B D).

Definition sys_fork : M K Z := fork kend kdata.
(** Does not return to the caller. *)
Definition sys_exit : M K Z := do* exit kend in ret 0.
Definition sys_wait : M K Z := wait kend.

Definition sys_kill : M K Z := arg* pid := argint 0 in kkill pid.

Definition sys_getpid : M K Z := let* p := myproc in ret (p_pid p).

Definition sys_sbrk : M K Z :=
  arg* n := argint 0 in
  let* p := myproc in
  let addr := s32 (p_sz p) in
  let* r := growproc kend n in
  if r <? 0 then ret (-1) else ret addr.

(** One round of the loop of [sys_sleep]; [n] is compared as unsigned. *)
Definition sleep_pass (ticks0 n : Z) : M K Z :=
  let* s := get in
  let* p := myproc in
  if u32 (k_ticks s - ticks0) <? u32 n then
    if p_killed p then ret (-1) else sleep_on ChTicks
  else ret 0.

Definition sys_sleep : M K Z :=
  arg* n := argint 0 in
  let* s := get in
  sleep_pass (k_ticks s) n.

Definition sys_uptime : M K Z := let* s := get in ret (s32 (k_ticks s)).

Definition sys_getuid : M K Z := let* p := myproc in ret (p_uid p).
Definition sys_geteuid : M K Z := let* p := myproc in ret (p_euid p).

Definition sys_setuid : M K Z :=
  let* p := myproc in
  if p_euid p =? 0 then
    arg* newid := argint 0 in
    do* upd_myproc (p_with_ids newid newid) in
    ret 0
  else ret (-1).

(** Copy [k] group ids from user memory, from index [i] on. *)
Fixpoint read_gids (k : nat) (gids : Z) (i : nat) : M K unit :=
  match k with
  | O => ret tt
  | S k =>
      let* l := uread (u32 (gids + 4 * Z.of_nat i)) 4 in
      do* upd_myproc (fun p => p_with_groups (p_ngroups p)
                                 (<[i := s32 (get_le 4 0 l)]> (p_gids p)) p) in
      read_gids k gids (S i)
  end.

(** The size of the argument is computed in 32 bits.  A negative count makes
    the second loop write in front of [gids]. *)
Definition sys_setgrps : M K Z :=
  let* p := myproc in
  if p_euid p =? 0 then
    arg* ngroups := argint 0 in
    arg* gids := argptr 1 (s32 (u32 (ngroups * 4))) in
    let ng := if Z.of_nat MAXGROUPS <? ngroups then Z.of_nat MAXGROUPS else ngroups in
    do* upd_myproc (fun p => p_with_groups ng (p_gids p) p) in
    do* read_gids (Z.to_nat ng) gids 0 in
    if ng <? 0 then fault "gids" else
    do* upd_myproc (fun p => p_with_groups (p_ngroups p)
          (take (Z.to_nat ng) (p_gids p) ++ replicate (MAXGROUPS - Z.to_nat ng) 0) p) in
    ret 0
  else ret (-1).
End sysproc.
