(* ===== verification/Syscall.v ===== *)
(** * System calls and traps

    The dispatch of [kernel/syscall.c] and [trap] of [kernel/trap.c], over the
    whole kernel with the console as its device.  Interrupts of devices other
    than the timer, the keyboard and the serial port, and the messages printed
    for unexpected traps, are left out. *)

From S2P Require Import Prelude CString SleepLock Bio Layout Log BlockLayer.
From S2P Require Import ProcDefs ProcTable Kalloc Vm Pipe Fs Kbd Console Kernel File SysArg.
From S2P Require Import Proc Exec Sysfile Sysproc.

Section syscall.
Context {B : Type} `{BlockOps B} (kend kdata : Z).
Abbreviation K := (kstate B console).

Definition on_console {A} (m : M console A) : M K A := on_fs (fun _ => on_cons m).

(** [syscalls[]], indexed from 1. *)
Definition syscalls : list (M K Z) :=
  [ sys_fork kend kdata; sys_exit kend; sys_wait kend; sys_pipe kend;
    sys_read console_devsw; sys_kill; sys_exec console_devsw kend kdata; sys_fstat;
    sys_chdir console_devsw; sys_dup; sys_getpid; sys_sbrk kend; sys_sleep; sys_uptime;
    sys_open console_devsw kend; sys_write console_devsw; sys_mknod console_devsw;
    sys_unlink console_devsw; sys_link console_devsw; sys_mkdir console_devsw;
    sys_close kend; sys_getuid; sys_geteuid; sys_setuid; sys_chmod console_devsw;
    sys_chown console_devsw; on_console sys_clrscr; on_console sys_hideinp;
    on_console sys_showinp; sys_lseek; sys_trim; sys_setgrps ].

Definition set_eax (v : Z) (p : proc) : proc :=
  let tf := p_tf p in
  p_with_tf (TrapFrame (tf_edi tf) (tf_esi tf) (tf_ebp tf) (tf_ebx tf) (tf_edx tf) (tf_ecx tf) v
    (tf_es tf) (tf_ds tf) (tf_trapno tf) (tf_err tf) (tf_eip tf) (tf_cs tf) (tf_eflags tf)
    (tf_esp tf) (tf_ss tf)) p.

Definition syscall : M K unit :=
  let* p := myproc in
  let num := s32 (tf_eax (p_tf p)) in
  if (0 <? num) && (num <? 33) then
    let* f := deref (syscalls !! Z.to_nat (num - 1)) "syscalls" in
    let* r := f in
    upd_myproc (set_eax (u32 r))
  else upd_myproc (set_eax (u32 (-1))).

Definition T_IRQ0 : Z := 32.
Definition IRQ_TIMER : Z := 0.
Definition IRQ_KBD : Z := 1.
Definition IRQ_COM1 : Z := 4.
Definition IRQ_IDE : Z := 14.
Definition IRQ_SPURIOUS : Z := 31.
Definition T_SYSCALL : Z := 64.

(** A trap of the current process: [cpu] is the CPU, [dev] the bytes the
    keyboard or the serial port has.  The result says whether the process goes
    on: it may have exited or given up the CPU. *)
Inductive after_trap := Resumed | Exited | Yielded.

Definition exit_if_killed (k : M K after_trap) : M K after_trap :=
  let* p := myproc in
  if p_killed p then do* exit kend in ret Exited else k.

Definition trap_syscall (tf : trapframe) : M K after_trap :=
  exit_if_killed
    (do* upd_myproc (p_with_tf tf) in
     do* syscall in
     let* p := myproc in
     if bool_decide (p_state p = ZOMBIE) then ret Exited
     else exit_if_killed (ret Resumed)).

(** The [switch] on the trap number. *)
Definition trap_irq (trapno cs : Z) (cpu : nat) (dev : list Z) : M K unit :=
  if trapno =? T_IRQ0 + IRQ_TIMER then
    when (cpu =? 0)%nat then
      deliver (do* modify (fun s => set_ticks (u32 (k_ticks s + 1)) s) in wake ChTicks)
  else if (trapno =? T_IRQ0 + IRQ_IDE) || (trapno =? T_IRQ0 + IRQ_IDE + 1) then ret tt
  else if trapno =? T_IRQ0 + IRQ_KBD then on_console (kbdintr dev)
  else if trapno =? T_IRQ0 + IRQ_COM1 then on_console (uartintr dev)
  else if (trapno =? T_IRQ0 + 7) || (trapno =? T_IRQ0 + IRQ_SPURIOUS) then ret tt
  else if Z.land cs 3 =? 0 then panic "trap"
  else upd_myproc (p_with_killed true).

Definition trap (tf : trapframe) (cpu : nat) (dev : list Z) : M K after_trap :=
  if tf_trapno tf =? T_SYSCALL then trap_syscall tf else
  do* trap_irq (tf_trapno tf) (tf_cs tf) cpu dev in
  let user := Z.land (tf_cs tf) 3 =? DPL_USER in
  let check (k : M K after_trap) := if user then exit_if_killed k else k in
  check (
    let* p := myproc in
    if bool_decide (p_state p = RUNNING) && (tf_trapno tf =? T_IRQ0 + IRQ_TIMER) then
      do* upd_myproc (p_with_state RUNNABLE) in ret Yielded
    else ret Resumed).

(** The rest of [trap] when a process that yielded runs again. *)
Definition trap_after_yield (tf : trapframe) : M K after_trap :=
  if Z.land (tf_cs tf) 3 =? DPL_USER then exit_if_killed (ret Resumed) else ret Resumed.
End syscall.
