(* ===== verification/KFrame.v ===== *)
(** * What kernel code leaves alone

    A relation between kernel states that holds across changes of the file
    system, memory, pipes, the clock and across wake-ups is kept by all code
    that does nothing else.  The hint database [frame] knows this code. *)

From S2P Require Import Prelude Triple CString SleepLock Bio Layout Log BlockLayer.
From S2P Require Import ProcDefs ProcTable Kalloc Vm Pipe Fs Kernel File SysArg Exec Sysfile.

Class KFrame {B D} (R : kstate B D -> kstate B D -> Prop) := {
  kf_pre :: PreOrder R;
  kf_fs : forall f s, R s (set_fs f s);
  kf_mem : forall m s, R s (set_kmem m s);
  kf_pipes : forall p s, R s (set_pipes p s);
  kf_ticks : forall n s, R s (set_ticks n s);
  kf_wake : forall w s, R s (wake_all w s) }.

Section kframe.
Context {B D : Type} `{BlockOps B} (devsw : proc -> Z -> devfns (fs B D)) (kend kdata : Z).
Context (R : kstate B D -> kstate B D -> Prop) `{!KFrame R}.

Lemma rel_deliver {A} (m : M (kstate B D) A) : rel R m -> rel R (deliver m).
Proof.
  intros Hm s. specialize (Hm s). unfold deliver. destruct (m s) as [a s' w| |c s' w|]; try done;
    (transitivity s'; [done|apply kf_wake]).
Qed.

Lemma rel_zoom {S A} (g : kstate B D -> S) set (m : M S A) :
  (forall x s, R s (set x s)) -> rel R (zoom g set m).
Proof. intros Hset s. unfold zoom. destruct (m (g s)); try done; apply Hset. Qed.

Lemma rel_on_mem {A} (m : M kmem A) : rel R (on_mem m).
Proof. apply rel_deliver, rel_zoom, kf_mem. Qed.
Lemma rel_on_pipes {A} (m : M pipes A) : rel R (on_pipes m).
Proof. apply rel_deliver, rel_zoom, kf_pipes. Qed.
Lemma rel_myproc : rel R myproc.
Proof. unfold myproc. apply rel_bind; [apply _|apply rel_get, _|]. intros s. apply rel_deref, _. Qed.
Lemma rel_on_fs {A} (m : proc -> M (fs B D) A) : rel R (on_fs m).
Proof.
  apply rel_bind; [apply _|apply rel_myproc|]. intros p. apply rel_deliver, rel_zoom, kf_fs.
Qed.

Lemma rel_uread va n : rel R (uread va n).
Proof.
  unfold uread. apply rel_bind; [apply _|apply rel_myproc|]. intros p.
  apply rel_bind; [apply _|apply rel_get, _|]. intros s. apply rel_deref, _.
Qed.
Lemma rel_uwrite va l : rel R (uwrite va l).
Proof.
  unfold uwrite. apply rel_bind; [apply _|apply rel_myproc|]. intros p.
  apply rel_bind; [apply _|apply rel_get, _|]. intros s.
  apply rel_bind; [apply _|apply rel_deref, _|]. intros m. apply rel_modify. intros s'. apply kf_mem.
Qed.
End kframe.

#[export] Hint Resolve rel_on_mem rel_on_pipes rel_myproc rel_on_fs rel_uread rel_uwrite : frame.
#[export] Hint Extern 0 (KFrame _) => typeclasses eauto : frame.
#[export] Hint Extern 0 (PreOrder _) => typeclasses eauto : frame.

Section kcode.
Context {B D : Type} `{BlockOps B} (devsw : proc -> Z -> devfns (fs B D)) (kend kdata : Z).
Context (R : kstate B D -> kstate B D -> Prop) `{!KFrame R}.

Lemma rel_kbegin_op : rel R kbegin_op.
Proof. unfold kbegin_op. frame. Qed.
#[local] Hint Resolve rel_kbegin_op : frame.
Lemma rel_kend_op : rel R kend_op.
Proof. unfold kend_op. frame. Qed.
#[local] Hint Resolve rel_kend_op : frame.

Lemma rel_fetchint addr : rel R (fetchint addr).
Proof. unfold fetchint. frame. Qed.
#[local] Hint Resolve rel_fetchint : frame.
Lemma rel_fetchstr_loop n x acc : rel R (fetchstr_loop n x acc).
Proof. revert x acc. induction n as [|n IH]; intros x acc; cbn [fetchstr_loop]; frame. Qed.
#[local] Hint Resolve rel_fetchstr_loop : frame.
Lemma rel_fetchstr addr : rel R (fetchstr addr).
Proof. unfold fetchstr. frame. Qed.
#[local] Hint Resolve rel_fetchstr : frame.
Lemma rel_argint n : rel R (argint n).
Proof. unfold argint. frame. Qed.
#[local] Hint Resolve rel_argint : frame.
Lemma rel_argptr n size : rel R (argptr n size).
Proof. unfold argptr. frame. Qed.
#[local] Hint Resolve rel_argptr : frame.
Lemma rel_argstr n : rel R (argstr n).
Proof. unfold argstr. frame. Qed.
#[local] Hint Resolve rel_argstr : frame.
Lemma rel_argfd n : rel R (argfd n).
Proof. unfold argfd. frame. Qed.
#[local] Hint Resolve rel_argfd : frame.
Lemma rel_fetch_argv k u i acc : rel R (fetch_argv k u i acc).
Proof.
  revert i acc. induction k as [|k IH]; intros i acc; cbn [fetch_argv]; frame.
Qed.
#[local] Hint Resolve rel_fetch_argv : frame.
Lemma rel_uwrite_runs a l : rel R (uwrite_runs a l).
Proof. induction l as [|[off d] l IH]; cbn [uwrite_runs]; frame. Qed.
#[local] Hint Resolve rel_uwrite_runs : frame.
Lemma rel_read_file f : rel R (read_file f).
Proof. unfold read_file. frame. Qed.
#[local] Hint Resolve rel_read_file : frame.
End kcode.
#[export] Hint Resolve rel_kbegin_op rel_kend_op rel_fetchint rel_fetchstr rel_argint rel_argptr
  rel_argstr rel_argfd rel_fetch_argv rel_uwrite_runs rel_read_file : frame.
#[export] Hint Unfold kinode kupd_d kilock kiunlock kiput kiunlockput kiupdate kialloc kreadi kwritei
  knamei knameiparent kdirlookup kdirlink : frame.

Section kfile.
Context {B D : Type} `{BlockOps B} (devsw : proc -> Z -> devfns (fs B D)) (kend kdata : Z).
Context (R : kstate B D -> kstate B D -> Prop) `{!KFrame R}.

Lemma rel_kpipeclose a w : rel R (kpipeclose kend a w).
Proof. unfold kpipeclose. frame. Qed.
#[local] Hint Resolve rel_kpipeclose : frame.
Lemma rel_filestat f : rel R (filestat f).
Proof. unfold filestat. frame. Qed.
#[local] Hint Resolve rel_filestat : frame.
Lemma rel_isdirempty_loop n dp off : rel R (isdirempty_loop devsw n dp off).
Proof. revert off. induction n as [|n IH]; intros off; cbn [isdirempty_loop]; frame. Qed.
#[local] Hint Resolve rel_isdirempty_loop : frame.
Lemma rel_isdirempty dp : rel R (isdirempty devsw dp).
Proof. unfold isdirempty. frame. Qed.
#[local] Hint Resolve rel_isdirempty : frame.
Lemma rel_link_bad ip : rel R (link_bad ip).
Proof. unfold link_bad. frame. Qed.
#[local] Hint Resolve rel_link_bad : frame.
Lemma rel_create path type major minor : rel R (create devsw path type major minor).
Proof. unfold create. frame. Qed.
#[local] Hint Resolve rel_create : frame.
End kfile.
#[export] Hint Resolve rel_kpipeclose rel_filestat rel_isdirempty rel_link_bad rel_create : frame.
