(* ===== verification/FileRefs.v ===== *)
(** * Reference counts of open files

    The count of an open file is the number of descriptors that name it, over
    all processes.  System calls move references between the descriptor
    tables and the code that runs, whose balance is [ex]; each leaves the
    balance zero. *)

From S2P Require Import Prelude Triple CString SleepLock Bio Layout Log BlockLayer.
From S2P Require Import ProcDefs ProcTable Kalloc Vm Pipe Fs Kernel File SysArg Proc Exec Sysfile.
From S2P Require Import Sysproc KFrame.

Lemma alter_none {A} (f : A -> A) (l : list A) i : l !! i = None -> alter f i l = l.
Proof.
  intros Hi. apply list_eq. intros j. destruct (decide (j = i)) as [->|].
  - by rewrite list_lookup_alter_eq, Hi.
  - by rewrite list_lookup_alter_ne.
Qed.

(** A slot without a process that can have files open. *)
Definition dead (p : proc) : Prop := p_state p = UNUSED \/ p_state p = ZOMBIE.

#[export] Instance dead_dec p : Decision (dead p).
Proof. unfold dead. apply _. Defined.

(** A change of a process that does not concern its descriptors. *)
Definition calm (p p' : proc) : Prop := p_ofile p' = p_ofile p /\ (dead p' -> dead p).

#[export] Instance calm_preorder : PreOrder calm.
Proof.
  split; [by intros p; split|]. intros p1 p2 p3 [H1 H2] [H3 H4]. split; [congruence|auto].
Qed.

(** Number of descriptors of file [f] in a table of descriptors and in all. *)
Definition cnt (f : nat) (o : list (option nat)) : nat := length (filter (.= Some f) o).
Definition refs (l : list proc) (f : nat) : Z :=
  Z.of_nat (sum_list_with (fun p => cnt f (p_ofile p)) l).

Definition one (o : option nat) (g : nat) : Z := if decide (o = Some g) then 1 else 0.

Lemma one_none g : one None g = 0.
Proof. unfold one. by rewrite decide_False. Qed.

Lemma cnt_insert g o fd old new :
  o !! fd = Some old -> Z.of_nat (cnt g (<[fd := new]> o)) = Z.of_nat (cnt g o) - one old g + one new g.
Proof.
  unfold cnt, one. revert fd. induction o as [|x o IH]; intros fd; [done|].
  destruct fd as [|fd].
  - intros [= ->]. change (<[0%nat := new]> (old :: o)) with (new :: o). rewrite !filter_cons. repeat case_decide; cbn [length]; lia.
  - intros Hx. specialize (IH fd Hx). change (<[S fd := new]> (x :: o)) with (x :: <[fd := new]> o).
    destruct (decide (x = Some g)); [rewrite !filter_cons_True by done|rewrite !filter_cons_False by done];
      cbn [length]; lia.
Qed.

Lemma refs_insert g l i p p' :
  l !! i = Some p ->
  refs (<[i := p']> l) g = refs l g - Z.of_nat (cnt g (p_ofile p)) + Z.of_nat (cnt g (p_ofile p')).
Proof.
  unfold refs. revert i. induction l as [|q l IH]; intros i; [done|].
  destruct i as [|i].
  - intros [= ->]. change (<[0%nat := p']> (p :: l)) with (p' :: l). cbn [sum_list_with]. lia.
  - intros Hi. specialize (IH i Hi). change (<[S i := p']> (q :: l)) with (q :: <[i := p']> l).
    cbn [sum_list_with]. lia.
Qed.

Lemma refs_calm l l' g : Forall2 calm l l' -> refs l' g = refs l g.
Proof.
  unfold refs. induction 1 as [|p p' l l' [E _] _ IH]; cbn [sum_list_with]; [done|]. rewrite E. lia.
Qed.

Section files.
Context {B D : Type} `{BlockOps B} (devsw : proc -> Z -> devfns (fs B D)) (kend kdata : Z) {ex0 : nat -> Z}.
Abbreviation K := (kstate B D).
Abbreviation pl s := (pt_proc (k_ptab s)).

Definition same_ref (x x' : file) : Prop := f_ref x' = f_ref x.
Definition same_files (s s' : K) : Prop :=
  Forall2 same_ref (k_file s) (k_file s') /\ k_cur s' = k_cur s /\ Forall2 calm (pl s) (pl s').

#[export] Instance same_ref_preorder : PreOrder same_ref.
Proof. split; [done|]. unfold same_ref. intros x y z. congruence. Qed.

Lemma calm_awaken c p : calm p (awaken c p).
Proof.
  unfold calm, dead. rewrite awaken_state. unfold awaken. split; [by case_match|].
  case_decide; [by intros [?|?]|done].
Qed.
Lemma calm_wakeups w l : Forall2 calm l (wakeups w l).
Proof.
  unfold wakeups. revert l. induction w as [|c w IH]; intros l; cbn [foldl]; [reflexivity|].
  transitivity (wakeup1 (Some c) l); [|apply IH]. unfold wakeup1.
  apply Forall2_fmap_r, Forall_Forall2_diag, Forall_true. intros p. apply calm_awaken.
Qed.

#[export] Instance same_files_kframe : KFrame same_files.
Proof.
  assert (Hrefl : forall l : list proc, Forall2 calm l l) by reflexivity.
  assert (Hrefl' : forall l : list file, Forall2 same_ref l l) by reflexivity.
  constructor; try (by intros; split_and!).
  - split; [by intros s; split_and!|].
    intros s1 s2 s3 (A1 & A2 & A3) (B1 & B2 & B3). split_and!; [|congruence|by transitivity (pl s2)].
    by transitivity (k_file s2).
  - intros w s. split_and!; try done. apply calm_wakeups.
Qed.

(** [ex]: references held by the code that runs, not by descriptors. *)
Record files_ok (ex : nat -> Z) (s : K) : Prop := {
  fo_len : length (k_file s) = NFILE;
  fo_ref : forall f x, k_file s !! f = Some x -> f_ref x = refs (pl s) f + ex f;
  fo_range : forall i p fd f, pl s !! i = Some p -> p_ofile p !! fd = Some (Some f) -> (f < NFILE)%nat;
  fo_dead : forall i p, pl s !! i = Some p -> dead p -> forall fd f, p_ofile p !! fd <> Some (Some f);
  fo_fds : forall i p, pl s !! i = Some p -> length (p_ofile p) = NOFILE }.

Definition cur_live (s : K) : Prop := exists p, pl s !! k_cur s = Some p /\ ~ dead p.
Definition I (ex : nat -> Z) (s : K) : Prop := files_ok ex s /\ cur_live s.

Definition plus (ex : nat -> Z) (f : nat) (k : Z) : nat -> Z :=
  fun g => ex g + k * one (Some f) g.

(** The balance of a call, from [ex0] at its start: at most two references are
    on the way, also when the process goes to sleep. *)
Definition near (ex : nat -> Z) : Prop := forall g, -2 <= ex g - ex0 g <= 2.
Definition slept (s : K) : Prop := exists ex, near ex /\ files_ok ex s.
Abbreviation trf := (triz slept).

Lemma files_ok_ext ex ex' s : (forall g, ex g = ex' g) -> files_ok ex s -> files_ok ex' s.
Proof. intros E [H1 H2 H3 H4 H5]. constructor; try done. intros f x Hf. rewrite <- E. by apply H2. Qed.
Lemma I_ext ex ex' s : (forall g, ex g = ex' g) -> I ex s -> I ex' s.
Proof. intros E [H1 H2]. split; [by eapply files_ok_ext|done]. Qed.
Lemma plus_plus ex f k k' : k + k' = 0 -> forall g, plus (plus ex f k) f k' g = ex g.
Proof. intros E g. unfold plus. nia. Qed.

Lemma files_ok_calm ex s s' :
  Forall2 same_ref (k_file s) (k_file s') -> Forall2 calm (pl s) (pl s') -> files_ok ex s -> files_ok ex s'.
Proof.
  intros Hf Hp [H1 H2 H3 H4 H5].
  assert (Hlook : forall i p', pl s' !! i = Some p' -> exists p, pl s !! i = Some p /\ calm p p').
  { intros i p' Hi. eapply Forall2_lookup_r in Hp as (p & ? & ?); eauto. }
  constructor.
  - by rewrite <- (Forall2_length _ _ _ Hf).
  - intros f x' Hx'. eapply Forall2_lookup_r in Hf as (x & Hx & Hr); [|exact Hx']. unfold same_ref in Hr.
    rewrite (refs_calm _ _ f Hp), Hr. by apply H2.
  - intros i p' fd f (p & Hi & E & _)%Hlook. rewrite E. by eapply H3.
  - intros i p' (p & Hi & E & Hd)%Hlook Hdd. rewrite E. eapply H4; eauto.
  - intros i p' (p & Hi & E & _)%Hlook. rewrite E. eauto.
Qed.

Lemma I_same ex s s' : same_files s s' -> I ex s -> I ex s'.
Proof.
  intros (Hf & Hc & Hp) [H1 (p & Hi & Hd)]. split; [by eapply files_ok_calm|].
  eapply Forall2_lookup_l in Hp as (p' & Hp' & _ & Hdd); [|exact Hi].
  exists p'. rewrite Hc. split; [done|]. auto.
Qed.

(** Code that does not touch descriptors. *)
Lemma tri_same {A} ex (m : M K A) : near ex -> rel same_files m -> trf (I ex) m (fun _ => I ex).
Proof.
  intros Hn Hm. eapply tri_rel; [done|intros s s'; apply I_same|]. intros s [Hs _]. by exists ex.
Qed.

(** *** The primitives *)

Lemma on_ptab_upd i f (s : K) :
  on_ptab (upd_proc i f) s = Ok tt (set_ptab (set_procs (alter f i (pl s)) (k_ptab s)) s) [].
Proof. done. Qed.

(** Descriptor [fd] of process [i] is [o]. *)
Definition fd_is (i fd : nat) (o : option nat) (s : K) : Prop :=
  exists p, pl s !! i = Some p /\ ~ dead p /\ p_ofile p !! fd = Some o.

(** Changing a descriptor moves a reference. *)
Lemma I_ofile ex s i fd old new :
  I ex s -> fd_is i fd old s -> (forall f, new = Some f -> (f < NFILE)%nat) ->
  I (fun g => ex g + one old g - one new g)
    (set_ptab (set_procs (alter (fun p => p_with_ofile (<[fd := new]> (p_ofile p)) p) i (pl s)) (k_ptab s)) s).
Proof.
  intros [[H1 H2 H3 H4 H5] (q & Hq & Hqd)] (p & Hp & Hd & Hfd) Hnew.
  rewrite (alter_as_insert _ (pl s) i p Hp). set (p' := p_with_ofile _ p).
  assert (Hlook : forall j x, <[i := p']> (pl s) !! j = Some x ->
            (j = i /\ x = p') \/ (j <> i /\ pl s !! j = Some x)) by (intros j x; apply lookup_set).
  split; [constructor|]; cbn [k_file k_ptab set_ptab pt_proc set_procs k_cur].
  - done.
  - intros f x Hx. rewrite (refs_insert f (pl s) i p p' Hp). cbn [p_ofile p' p_with_ofile].
    rewrite (cnt_insert f _ fd old new Hfd), (H2 f x Hx). lia.
  - intros j x fd' f [[-> ->]|[_ Hj]]%Hlook; [|by eapply H3]. cbn. intros Hf.
    apply lookup_set in Hf as [[_ E]|[_ Hf]]; [by apply Hnew|by eapply H3].
  - intros j x [[-> ->]|[_ Hj]]%Hlook; [|by eapply H4]. by intros ?.
  - intros j x [[-> ->]|[_ Hj]]%Hlook; [|by eapply H5]. cbn. rewrite length_insert. by eapply H5.
  - unfold cur_live. cbn [k_ptab set_ptab pt_proc set_procs k_cur].
    destruct (decide (k_cur s = i)) as [E|E].
    + exists p'. rewrite E, list_lookup_insert_eq by (by eapply lookup_lt_Some). done.
    + exists q. by rewrite list_lookup_insert_ne.
Qed.

(** Changing the count of a file. *)
Lemma I_ref ex s f x (g : file -> file) :
  I ex s -> k_file s !! f = Some x ->
  I (plus ex f (f_ref (g x) - f_ref x)) (set_files (alter g f (k_file s)) s).
Proof.
  intros [[H1 H2 H3 H4 H5] Hc] Hx. rewrite (alter_as_insert _ (k_file s) f x Hx).
  split; [constructor|]; cbn [k_file k_ptab set_files]; try done.
  - by rewrite length_insert.
  - intros f' y Hy. unfold plus, one. apply lookup_set in Hy as [[-> ->]|[Hne Hy]].
    + rewrite decide_True by done. rewrite (H2 f x Hx). lia.
    + rewrite decide_False by congruence. rewrite (H2 f' y Hy). lia.
Qed.

Lemma free_file_spec l i : 
  match free_file l i with
  | Some f => (i <= f)%nat /\ exists x, l !! (f - i)%nat = Some x /\ f_ref x = 0
  | None => True
  end.
Proof.
  revert i. induction l as [|x l IH]; intros i; cbn [free_file]; [done|].
  destruct (Z.eqb_spec (f_ref x) 0) as [E|E].
  - split; [lia|]. rewrite Nat.sub_diag. by exists x.
  - specialize (IH (S i)). destruct (free_file l (S i)) as [f|]; [|done]. destruct IH as (Hf & y & Hy & E').
    split; [lia|]. exists y. by replace (f - i)%nat with (S (f - S i)) by lia.
Qed.

Lemma tri_filealloc ex :
  trf (I ex) filealloc (fun r s => match r with
    | Some f => (f < NFILE)%nat /\ I (plus ex f 1) s | None => I ex s end).
Proof.
  intros s Hs. unfold filealloc, get, bind. pose proof (free_file_spec (k_file s) 0) as Hf.
  destruct (free_file (k_file s) 0) as [f|]; [|done]. destruct Hf as (_ & x & Hx & E).
  rewrite Nat.sub_0_r in Hx. cbn. split.
  - destruct Hs as [[Hl _ _ _ _] _]. rewrite <- Hl. by eapply lookup_lt_Some.
  - pose proof (I_ref ex s f x (f_with_ref 1) Hs Hx) as Hr. by rewrite E in Hr.
Qed.

Lemma tri_filedup ex f :
  trf (I ex) (filedup f) (fun r s => (r = f /\ (f < NFILE)%nat) /\ I (plus ex f 1) s).
Proof.
  intros s Hs. unfold filedup, read_file, get, bind, deref. destruct (k_file s !! f) as [x|] eqn:Hx; [|done].
  cbn. destruct (f_ref x <? 1); [done|]. cbn. split.
  { split; [done|]. destruct Hs as [[Hl _ _ _ _] _]. rewrite <- Hl. by eapply lookup_lt_Some. }
  pose proof (I_ref ex s f x (f_with_ref (f_ref x + 1)) Hs Hx) as Hr. cbn in Hr.
  by replace (f_ref x + 1 - f_ref x) with 1 in Hr by lia.
Qed.

Lemma rel_upd_file_same f g : (forall x, f_ref (g x) = f_ref x) -> rel same_files (upd_file f g).
Proof.
  intros Hg. apply rel_modify. intros s. split_and!; cbn; [|done|reflexivity].
  apply Forall2_same_length_lookup. split; [by rewrite length_alter|].
  intros i x x' Hx Hx'. destruct (decide (i = f)) as [->|Hne].
  - rewrite list_lookup_alter_eq, Hx in Hx'. injection Hx' as <-. apply Hg.
  - rewrite list_lookup_alter_ne in Hx' by done. unfold same_ref. congruence.
Qed.

(** What the file named, once it is closed. *)
Definition close_rest (ff : file) : M K unit :=
  match f_type ff with
  | FD_PIPE => kpipeclose kend (f_pipe ff) (truth (f_writable ff))
  | FD_INODE => do* kbegin_op in let* ip := deref (f_ip ff) "ip" in do* kiput ip in kend_op
  | FD_NONE => ret tt
  end.

Lemma fileclose_eq f s x :
  k_file s !! f = Some x -> f_ref x = 1 ->
  fileclose kend f s = close_rest x (set_files (alter (fun y => f_with_type FD_NONE (f_with_ref 0 y)) f
    (alter (f_with_ref 0) f (k_file s))) s).
Proof.
  intros Hx E. unfold fileclose, read_file, upd_file. rewrite run_bind, run_get, Hx. cbn [deref].
  rewrite run_ret, E. change (1 - 1) with 0. change (1 <? 1) with false. cbv iota.
  rewrite run_modify. change (0 <? 0) with false. cbv iota. by rewrite run_modify.
Qed.

Lemma tri_fileclose ex f : near (plus ex f (-1)) -> trf (I ex) (fileclose kend f) (fun _ => I (plus ex f (-1))).
Proof.
  intros Hn s Hs. destruct (k_file s !! f) as [x|] eqn:Hx.
  2:{ unfold fileclose, read_file, get, bind, deref. by rewrite Hx. }
  pose proof (I_ref ex s f x (f_with_ref (f_ref x - 1)) Hs Hx) as H1. cbn [f_ref f_with_ref] in H1.
  replace (f_ref x - 1 - f_ref x) with (-1) in H1 by lia.
  destruct (Z.eqb_spec (f_ref x) 1) as [E|E].
  - rewrite (fileclose_eq f s x Hx E).
    assert (Hr : rel same_files (close_rest x)) by (unfold close_rest; frame).
    apply (tri_same _ _ Hn Hr). rewrite E in H1.
    eapply I_ext; [|refine (I_ref _ _ f (f_with_ref 0 x) (fun y => f_with_type FD_NONE (f_with_ref 0 y)) H1 _)].
    + intros g. unfold plus. cbn. lia.
    + cbn. by rewrite list_lookup_alter_eq, Hx.
  - unfold fileclose, read_file, upd_file. rewrite run_bind, run_get, Hx. cbn [deref]. rewrite run_ret.
    destruct (Z.ltb_spec (f_ref x) 1); [done|]. rewrite run_modify.
    by rewrite (proj2 (Z.ltb_lt 0 (f_ref x - 1))) by lia.
Qed.

(** *** Descriptors *)

(** Code that leaves the descriptors alone, but not the files. *)
Definition same_fds (s s' : K) : Prop := k_cur s' = k_cur s /\ Forall2 calm (pl s) (pl s').

#[export] Instance same_fds_kframe : KFrame same_fds.
Proof.
  assert (Hrefl : forall l : list proc, Forall2 calm l l) by reflexivity.
  constructor; try (by intros; split_and!).
  - split; [by intros s; split_and!|].
    intros s1 s2 s3 (A2 & A3) (B2 & B3). split; [congruence|]. by transitivity (pl s2).
  - intros w s. split; [done|]. apply calm_wakeups.
Qed.

Lemma rel_upd_file f g : rel same_fds (upd_file f g).
Proof. apply rel_modify. intros s. by split. Qed.
Lemma rel_filealloc : rel same_fds filealloc.
Proof. unfold filealloc. frame. apply rel_upd_file. Qed.
Lemma rel_filedup f : rel same_fds (filedup f).
Proof. unfold filedup. frame. apply rel_upd_file. Qed.
Lemma rel_fileclose f : rel same_fds (fileclose kend f).
Proof. unfold fileclose. frame; apply rel_upd_file. Qed.

Lemma fd_is_same i fd o s s' : same_fds s s' -> fd_is i fd o s -> fd_is i fd o s'.
Proof.
  intros [_ Hp] (p & Hi & Hd & Hfd). eapply Forall2_lookup_l in Hp as (p' & Hp' & E & Hdd); [|exact Hi].
  exists p'. rewrite E. split; [done|]. split; [auto|done].
Qed.

(** Descriptor [fd] of the current process. *)
Definition cur_fd (fd : nat) (o : option nat) (s : K) : Prop := fd_is (k_cur s) fd o s.
Lemma cur_fd_same fd o s s' : same_fds s s' -> cur_fd fd o s -> cur_fd fd o s'.
Proof. intros Hs. unfold cur_fd. rewrite (proj1 Hs). by apply fd_is_same. Qed.

Lemma I_fd_valid ex s i fd f : I ex s -> fd_is i fd (Some f) s -> (f < NFILE)%nat.
Proof. intros [[_ _ H3 _ _] _] (p & Hp & _ & Hfd). by eapply H3. Qed.

Lemma tri_upd_fd ex i fd old new :
  (forall f, new = Some f -> (f < NFILE)%nat) ->
  trf (fun s => I ex s /\ fd_is i fd old s)
      (on_ptab (upd_proc i (fun p => p_with_ofile (<[fd := new]> (p_ofile p)) p)))
      (fun _ => I (fun g => ex g + one old g - one new g)).
Proof. intros Hn s [Hs Hfd]. rewrite on_ptab_upd. by apply I_ofile. Qed.

Lemma tri_set_fd ex fd old new :
  (forall f, new = Some f -> (f < NFILE)%nat) ->
  trf (fun s => I ex s /\ cur_fd fd old s) (set_fd fd new)
      (fun _ => I (fun g => ex g + one old g - one new g)).
Proof.
  intros Hn s [Hs Hfd]. unfold set_fd, upd_myproc. rewrite run_get.
  by apply (tri_upd_fd ex (k_cur s) fd old new).
Qed.

Lemma free_fd_spec l i :
  match free_fd l i with
  | Some fd => (i <= fd)%nat /\ l !! (fd - i)%nat = Some None
  | None => True
  end.
Proof.
  revert i. induction l as [|[f|] l IH]; intros i; cbn [free_fd]; [done| |].
  - specialize (IH (S i)). destruct (free_fd l (S i)) as [fd|]; [|done]. destruct IH as [Hle Hl].
    split; [lia|]. by replace (fd - i)%nat with (S (fd - S i)) by lia.
  - split; [lia|]. by rewrite Nat.sub_diag.
Qed.

Lemma tri_myproc {Z} (P : K -> Prop) : triz Z P myproc (fun p s => P s /\ pl s !! k_cur s = Some p).
Proof.
  intros s Hs. unfold myproc. rewrite run_get. destruct (pl s !! k_cur s) as [p|] eqn:E; [|done]. done.
Qed.

Lemma tri_fdalloc ex f :
  (f < NFILE)%nat ->
  trf (I ex) (fdalloc f) (fun r s => match r with
    | Some fd => I (plus ex f (-1)) s /\ cur_fd fd (Some f) s | None => I ex s end).
Proof.
  intros Hf. eapply tri_bind; [apply (tri_myproc (I ex))|]. intros p s [Hs Hp].
  pose proof (free_fd_spec (p_ofile p) 0) as Hfree. destruct (free_fd (p_ofile p) 0) as [fd|]; [|done].
  destruct Hfree as [_ Hfd]. rewrite Nat.sub_0_r in Hfd. destruct Hs as [Ho (q & Hq & Hd)].
  assert (q = p) by congruence. subst q.
  unfold set_fd, upd_myproc. rewrite run_bind, run_get.
  unfold bind. rewrite on_ptab_upd. cbn [after ret app]. split.
  - eapply I_ext; [|apply (I_ofile ex s (k_cur s) fd None (Some f))].
    + intros g. unfold plus. rewrite one_none. lia.
    + split; [done|]. by exists p.
    + by exists p.
    + by intros ? [= <-].
  - exists (p_with_ofile (<[fd := Some f]> (p_ofile p)) p). cbn.
    rewrite list_lookup_alter_eq, Hp. split; [done|]. split; [done|].
    apply list_lookup_insert_eq. by eapply lookup_lt_Some.
Qed.

Lemma fdalloc_none f (s s' : K) w : fdalloc f s = Ok None s' w -> s' = s.
Proof.
  unfold fdalloc, myproc. rewrite run_bind, run_get. destruct (pl s !! k_cur s) as [p|]; [|done].
  cbn [deref]. rewrite run_ret. destruct (free_fd (p_ofile p) 0) as [fd|]; [|by intros [= <- _]].
  unfold set_fd, upd_myproc. rewrite run_bind, run_get. unfold bind. by rewrite on_ptab_upd.
Qed.

(** When there is no descriptor left nothing changes. *)
Lemma tri_fdalloc_or ex f (F : K -> Prop) :
  (f < NFILE)%nat ->
  trf (fun s => I ex s /\ F s) (fdalloc f) (fun r s => match r with
    | Some _ => I (plus ex f (-1)) s | None => I ex s /\ F s end).
Proof.
  intros Hf s [Hs HF]. pose proof (tri_fdalloc ex f Hf s Hs) as Ht.
  destruct (fdalloc f s) as [[fd|] s' w| | |] eqn:E; try done; [by destruct Ht|].
  apply fdalloc_none in E as ->. done.
Qed.

Lemma tri_argfd ex n : near ex ->
  trf (I ex) (argfd n) (fun r s => I ex s /\ match r with
    | Some (fd, f) => cur_fd fd (Some f) s /\ (f < NFILE)%nat | None => True end).
Proof.
  intros Hn. unfold argfd. eapply tri_bind; [apply tri_same, rel_argint, _; done|]. intros [fd|]; [|by intros s Hs].
  destruct ((fd <? 0) || (Z.of_nat NOFILE <=? fd)); [by intros s Hs|].
  eapply tri_bind; [apply (tri_myproc (I ex))|]. intros p s [Hs Hp].
  destruct (p_ofile p !! Z.to_nat fd) as [[f|]|] eqn:E; [|done..]. cbn. split; [done|].
  assert (Hc : cur_fd (Z.to_nat fd) (Some f) s).
  { destruct Hs as [_ (q & Hq & Hd)]. assert (q = p) by congruence. subst q. by exists p. }
  split; [done|]. by eapply I_fd_valid.
Qed.
End files.
