(* ===== verification/FileCalls.v ===== *)
(** * System calls and the reference counts

    Every system call keeps the invariant of [FileRefs]; so does [trap], which
    is all that processes can make the kernel do. *)

From S2P Require Import Prelude Triple CString SleepLock Bio Layout Log BlockLayer.
From S2P Require Import ProcDefs ProcTable Kalloc Vm Pipe Fs Kbd Console Kernel File SysArg.
From S2P Require Import Proc Exec Sysfile Sysproc KFrame FileRefs Syscall.

(** ** The process table *)

Lemma calm_alter (f : proc -> proc) i l :
  (forall p, l !! i = Some p -> calm p (f p)) -> Forall2 calm l (alter f i l).
Proof.
  intros Hf. apply Forall2_same_length_lookup. split; [by rewrite length_alter|].
  intros j p p' Hp Hp'. destruct (decide (j = i)) as [->|Hne].
  - rewrite list_lookup_alter_eq, Hp in Hp'. injection Hp' as <-. by apply Hf.
  - rewrite list_lookup_alter_ne in Hp' by done. assert (p' = p) as -> by congruence. reflexivity.
Qed.

Lemma calm_wakeup1 c l : Forall2 calm l (wakeup1 c l).
Proof.
  unfold wakeup1. apply Forall2_fmap_r, Forall_Forall2_diag, Forall_true. intros p. apply calm_awaken.
Qed.

Lemma calm_reparent k j me init l : Forall2 calm l (reparent k j me init l).
Proof.
  revert j l. induction k as [|k IH]; intros j l; cbn [reparent]; [reflexivity|].
  destruct (l !! j) as [p|] eqn:Hj; [|reflexivity].
  destruct (bool_decide (p_parent p = Some me)); [|apply IH].
  assert (H1 : Forall2 calm l (<[j := p_with_parent init p]> l)).
  { replace (<[j := p_with_parent init p]> l) with (alter (p_with_parent init) j l)
      by (by apply alter_as_insert). apply calm_alter. done. }
  destruct (bool_decide (p_state p = ZOMBIE)).
  - transitivity (<[j := p_with_parent init p]> l); [done|].
    transitivity (wakeup1 (ChProc <$> init) (<[j := p_with_parent init p]> l)); [apply calm_wakeup1|apply IH].
  - transitivity (<[j := p_with_parent init p]> l); [done|apply IH].
Qed.

(** Code on the table that leaves the descriptors alone. *)
Definition tcalm (t t' : ptab) : Prop := Forall2 calm (pt_proc t) (pt_proc t').

#[export] Instance tcalm_preorder : PreOrder tcalm.
Proof.
  split; [intros t; unfold tcalm; reflexivity|]. unfold tcalm. intros t1 t2 t3 H1 H2.
  by transitivity (pt_proc t2).
Qed.

Lemma rel_upd_proc i f : (forall p, calm p (f p)) -> rel tcalm (upd_proc i f).
Proof. intros Hf. apply rel_modify. intros t. apply calm_alter. auto. Qed.
Lemma rel_read_proc i : rel tcalm (read_proc i).
Proof. unfold read_proc. frame. Qed.

Lemma unused_slot_cases l i :
  match unused_slot l i with
  | Some j => (i <= j)%nat /\ exists p, l !! (j - i)%nat = Some p /\ p_state p = UNUSED
  | None => True
  end.
Proof. destruct (unused_slot l i) eqn:E; [by apply unused_slot_spec|done]. Qed.

Lemma rel_wait_pass me : rel tcalm (wait_pass me).
Proof.
  intros t. unfold wait_pass. rewrite run_get. pose proof (zombie_child_spec me (pt_proc t) 0) as Hz.
  destruct (zombie_child me (pt_proc t) 0) as [i|].
  - destruct Hz as (_ & p & Hp & _ & Hs). rewrite Nat.sub_0_r in Hp. unfold read_proc.
    rewrite run_bind, run_get, Hp. cbn [deref]. rewrite run_ret. unfold upd_proc. rewrite run_modify. cbn.
    apply calm_alter. intros q Hq. assert (q = p) as -> by congruence. split; [done|]. intros _. by right.
  - unfold read_proc. rewrite run_bind, run_get. destruct (pt_proc t !! me) as [p|]; [|done].
    cbn [deref]. rewrite run_ret. destruct (negb _ || _); cbn; reflexivity.
Qed.

Lemma rel_kill pid : rel tcalm (kill pid).
Proof.
  unfold kill. apply rel_bind; [apply _|apply rel_get, _|]. intros t. destruct (find_pid _ _ _); [|apply rel_ret, _].
  apply rel_bind; [apply _| |intros; apply rel_ret, _]. apply rel_upd_proc. intros p.
  split; [by case_match|]. unfold dead. case_match; cbn; [by intros [?|?]|done].
Qed.

Section calls.
Context {B : Type} `{BlockOps B} (kend kdata : Z) {ex0 : nat -> Z}.
Abbreviation K := (kstate B console).
Abbreviation pl s := (pt_proc (k_ptab s)).
Abbreviation same := (same_files (B := B) (D := console)).

Lemma rel_on_ptab {A} (m : M ptab A) : rel tcalm m -> rel same (on_ptab m).
Proof.
  intros Hm. apply rel_deliver; [apply _|]. intros s. specialize (Hm (k_ptab s)). unfold zoom.
  destruct (m (k_ptab s)); try done; (split_and!; [reflexivity|done|done]).
Qed.
Lemma rel_upd_myproc f : (forall p, calm p (f p)) -> rel same (upd_myproc f).
Proof.
  intros Hf. apply rel_bind; [apply _|apply rel_get, _|]. intros s. by apply rel_on_ptab, rel_upd_proc.
Qed.
#[local] Hint Resolve rel_on_ptab rel_upd_proc rel_read_proc rel_wait_pass rel_kill rel_upd_myproc
  rel_upd_file_same : frame.
#[local] Hint Extern 2 (calm _ _) => (split; [done|]; intros [?|?]; first [by left | by right | done]) : frame.
#[local] Hint Extern 2 (forall _ : proc, calm _ _) =>
  (intros ?; split; [done|]; intros [?|?]; first [by left | by right | done]) : frame.
#[local] Hint Extern 2 (forall _ : file, f_ref _ = f_ref _) => done : frame.

(** *** Calls that leave the descriptors alone *)

Lemma same_fileread f n : rel same (fileread console_devsw f n).
Proof. unfold fileread. frame. Qed.
Lemma same_filewrite f src n : rel same (filewrite console_devsw f src n).
Proof.
  unfold filewrite. frame. generalize 0. induction (S _) as [|k IH]; intros i; cbn [filewrite_loop]; frame.
Qed.
#[local] Hint Resolve same_fileread same_filewrite : frame.
Lemma same_read : rel same (sys_read console_devsw).
Proof. unfold sys_read. frame. Qed.
Lemma same_write : rel same (sys_write console_devsw).
Proof. unfold sys_write. frame. Qed.
Lemma same_fstat : rel same sys_fstat.
Proof. unfold sys_fstat. frame. Qed.
Lemma same_link : rel same (sys_link console_devsw).
Proof. unfold sys_link. frame. Qed.
Lemma same_unlink : rel same (sys_unlink console_devsw).
Proof. unfold sys_unlink, unlink_bad. frame. Qed.
Lemma same_mkdir : rel same (sys_mkdir console_devsw).
Proof. unfold sys_mkdir. frame. Qed.
Lemma same_mknod : rel same (sys_mknod console_devsw).
Proof. unfold sys_mknod. frame. Qed.
Lemma same_chdir : rel same (sys_chdir console_devsw).
Proof. unfold sys_chdir. frame. Qed.
Lemma same_chmod : rel same (sys_chmod console_devsw).
Proof. unfold sys_chmod. frame. Qed.
Lemma same_chown : rel same (sys_chown console_devsw).
Proof. unfold sys_chown. frame. Qed.
Lemma same_lseek : rel same sys_lseek.
Proof. unfold sys_lseek. frame. Qed.
Lemma same_trim : rel same sys_trim.
Proof. unfold sys_trim. frame. Qed.

Lemma same_growproc n : rel same (growproc kend n).
Proof. unfold growproc. frame. Qed.
Lemma same_wait : rel same (wait kend).
Proof. unfold wait. frame. Qed.
Lemma same_read_gids k g i : rel same (read_gids k g i).
Proof. revert i. induction k as [|k IH]; intros i; cbn [read_gids]; frame. Qed.
#[local] Hint Resolve same_growproc same_wait same_read_gids : frame.
Lemma same_sbrk : rel same (sys_sbrk kend).
Proof. unfold sys_sbrk. frame. Qed.
Lemma same_kill : rel same sys_kill.
Proof. unfold sys_kill, kkill. frame. Qed.
Lemma same_sleep : rel same sys_sleep.
Proof. unfold sys_sleep, sleep_pass. frame. Qed.
Lemma same_setuid : rel same sys_setuid.
Proof. unfold sys_setuid. frame. Qed.
Lemma same_setgrps : rel same sys_setgrps.
Proof. unfold sys_setgrps. frame. Qed.
Lemma same_getters : rel same sys_getpid /\ rel same sys_uptime /\ rel same sys_getuid /\ rel same sys_geteuid.
Proof. unfold sys_getpid, sys_uptime, sys_getuid, sys_geteuid. split_and!; frame. Qed.

Lemma same_loaduvm pgdir addr ip off sz : rel same (loaduvm console_devsw pgdir addr ip off sz).
Proof.
  unfold loaduvm. frame. generalize 0. induction (S _) as [|k IH]; intros i; cbn [loaduvm_loop]; frame.
Qed.
#[local] Hint Resolve same_loaduvm : frame.
Lemma same_exec_load k pgdir ip off sz : rel same (exec_load console_devsw kend k pgdir ip off sz).
Proof. revert off sz. induction k as [|k IH]; intros off sz; cbn [exec_load]; frame. Qed.
Lemma same_push_args argv argc pgdir sp acc : rel same (push_args argv argc pgdir sp acc).
Proof. revert argc sp acc. induction argv as [|a argv IH]; intros argc sp acc; cbn [push_args]; frame. Qed.
Lemma same_exec_bad pgdir ip : rel same (exec_bad kend pgdir ip).
Proof. unfold exec_bad. frame. Qed.
#[local] Hint Resolve same_exec_load same_push_args same_exec_bad : frame.
Lemma same_exec path argv : rel same (exec console_devsw kend kdata path argv).
Proof. unfold exec, exec_stack. frame. Qed.
#[local] Hint Resolve same_exec : frame.
Lemma same_sysexec : rel same (sys_exec console_devsw kend kdata).
Proof. unfold sys_exec. frame. Qed.

(** *** Calls that move references *)

Abbreviation I := (I (B := B) (D := console)).
Abbreviation near := (near (ex0 := ex0)).
Abbreviation trf := (triz (slept (B := B) (D := console) (ex0 := ex0))).

(** Code that leaves the balance as it is, whatever references are on the way,
    and at its start. *)
Abbreviation keeps m := (forall ex, near ex -> trf (I ex) m (fun _ => I ex)).
Abbreviation keeps0 m := (trf (I ex0) m (fun _ => I ex0)).

Ltac balance :=
  let g := fresh "g" in
  intros g; repeat match goal with H : FileRefs.near _ |- _ => specialize (H g) end;
  unfold plus in *; rewrite ?one_none in *; unfold one in *; repeat case_decide; lia.

Lemma near_start : near ex0.
Proof. balance. Qed.
#[local] Hint Resolve near_start : core.

Lemma keeps_same {A} (m : M K A) : rel same m -> keeps m.
Proof. intros Hm ex Hn. by apply tri_same. Qed.

(** The balance after a reference has gone in and out. *)
Lemma tri_balance {A} P (m : M K A) ex ex' :
  (forall g, ex' g = ex g) -> trf P m (fun _ => I ex') -> trf P m (fun _ => I ex).
Proof. intros E Hm. eapply tri_conseq; [exact Hm|done|]. intros a s. by apply I_ext. Qed.

Lemma keeps_dup : keeps0 sys_dup.
Proof.
  unfold sys_dup. eapply tri_bind; [by apply tri_argfd|]. intros [[fd f]|]; [|by intros s [? _]].
  eapply tri_bind.
  { eapply tri_conseq; [|intros s Hs; exact Hs|intros a s Hs; exact Hs].
    intros s (Hs & _ & Hf). revert s Hs. by apply tri_fdalloc. }
  intros [fd'|]; [|by intros s Hs]. eapply tri_bind.
  { eapply tri_conseq; [apply (tri_filedup (plus ex0 f (-1)) f)|by intros s [? _]|intros a s Hs; exact Hs]. }
  intros f'. apply tri_ret. intros s [_ Hs]. eapply I_ext; [|exact Hs]. by apply plus_plus.
Qed.

Lemma keeps_close : keeps0 (sys_close kend).
Proof.
  unfold sys_close. eapply tri_bind; [by apply tri_argfd|]. intros [[fd f]|]; [|by intros s [? _]].
  eapply tri_bind.
  { eapply tri_conseq; [apply (tri_set_fd ex0 fd (Some f) None)|by intros s (? & ? & _)|intros a s Hs; exact Hs].
    done. }
  intros []. eapply tri_bind; [apply tri_fileclose; balance|]. intros []. apply tri_ret. intros s Hs.
  eapply I_ext; [|exact Hs]. intros g. unfold plus. rewrite one_none. lia.
Qed.

Lemma keeps_fail ip : keeps (do* kiunlockput ip in do* kend_op in ret (-1)).
Proof. apply keeps_same. frame. Qed.

Lemma keeps_open_file ip omode : keeps0 (open_file kend ip omode).
Proof.
  unfold open_file. eapply tri_bind; [apply tri_filealloc|]. intros [f|]; [|by apply keeps_fail].
  apply tri_pure. intros Hf. eapply tri_bind; [by apply tri_fdalloc|]. intros [fd|].
  - eapply tri_conseq with (P' := I (plus (plus ex0 f 1) f (-1))); [|by intros s [? _]|intros a s Hs; exact Hs].
    apply (tri_balance _ _ ex0 (plus (plus ex0 f 1) f (-1))); [by apply plus_plus|].
    assert (Hk : keeps (do* kiunlock ip in do* kend_op in
      do* upd_file f (fun x => File FD_INODE (f_ref x) (Z.land omode O_RDONLY)
                        (Z.land omode O_WRONLY) (f_pipe x) (Some ip) 0) in ret (Z.of_nat fd)))
      by (apply keeps_same; frame). apply Hk. balance.
  - eapply tri_bind; [apply tri_fileclose; balance|]. intros [].
    apply (tri_balance _ _ ex0 (plus (plus ex0 f 1) f (-1))); [by apply plus_plus|]. apply keeps_fail. balance.
Qed.

Lemma keeps_open : keeps0 (sys_open console_devsw kend).
Proof.
  unfold sys_open.
  repeat first
    [ apply keeps_open_file
    | by apply keeps_fail
    | lazymatch goal with |- triz _ _ (bind _ _) _ =>
        eapply tri_bind; [apply keeps_same; [solve [frame]|done]|intros ?] end
    | apply keeps_same; [solve [frame]|done]
    | case_match ].
Qed.

(** Give back two references. *)
Lemma tri_close2 f0 f1 :
  trf (I (plus (plus ex0 f0 1) f1 1)) (do* fileclose kend f0 in do* fileclose kend f1 in ret (-1))
      (fun _ => I ex0).
Proof.
  eapply tri_bind; [apply tri_fileclose; balance|]. intros []. eapply tri_bind; [apply tri_fileclose; balance|]. intros [].
  apply tri_ret. intros s Hs. eapply I_ext; [|exact Hs]. intros g. unfold plus. lia.
Qed.

Lemma tri_pipealloc :
  trf (I ex0) (pipealloc kend) (fun r s => match r with
    | Some (f0, f1) => ((f0 < NFILE)%nat /\ (f1 < NFILE)%nat) /\ I (plus (plus ex0 f0 1) f1 1) s
    | None => I ex0 s end).
Proof.
  unfold pipealloc. eapply tri_bind; [apply tri_filealloc|]. intros [f0|]; [|by intros s Hs].
  apply tri_pure. intros Hf0. eapply tri_bind; [apply tri_filealloc|]. intros [f1|].
  2:{ eapply tri_bind; [apply tri_fileclose; balance|]. intros []. apply tri_ret. intros s Hs.
      eapply I_ext; [|exact Hs]. by apply plus_plus. }
  apply tri_pure. intros Hf1. eapply tri_bind; [apply tri_same; [balance|apply rel_on_mem, _]|]. intros p.
  destruct (p =? 0).
  - eapply tri_bind; [apply tri_fileclose; balance|]. intros []. eapply tri_bind; [apply tri_fileclose; balance|]. intros [].
    apply tri_ret. intros s Hs. eapply I_ext; [|exact Hs]. intros g. unfold plus. lia.
  - do 3 (eapply tri_bind; [apply keeps_same; [frame|balance]|intros []]). apply tri_ret. by intros s Hs.
Qed.

Lemma keeps_pipe : keeps0 (sys_pipe kend).
Proof.
  unfold sys_pipe. eapply tri_bind; [apply keeps_same; [frame|done]|]. intros [a|]; [|by intros s Hs].
  eapply tri_bind; [apply tri_pipealloc|]. intros [[rf wf]|]; [|by intros s Hs]. apply tri_pure. intros [Hr Hw].
  eapply tri_bind; [by apply tri_fdalloc|]. intros [fd0|]; [|apply tri_close2].
  eapply tri_bind; [by apply tri_fdalloc_or|]. intros [fd1|].
  - apply (tri_balance _ _ ex0 (plus (plus (plus (plus ex0 rf 1) wf 1) rf (-1)) wf (-1)));
      [intros g; unfold plus; lia|]. apply keeps_same; [frame|balance].
  - eapply tri_bind; [by apply (tri_set_fd _ fd0 (Some rf) None)|]. intros [].
    eapply tri_conseq; [apply (tri_close2 rf wf)| |by intros].
    intros s Hs. eapply I_ext; [|exact Hs]. intros g. unfold plus. rewrite one_none. lia.
Qed.

(** *** fork *)

(** Process [np], not the current one, has no file from descriptor [i] on. *)
Definition np_free (np i : nat) (s : K) : Prop :=
  np <> k_cur s /\ exists p, pl s !! np = Some p /\ ~ dead p /\
    forall j, (i <= j < NOFILE)%nat -> p_ofile p !! j = Some None.

Lemma np_free_same np i s s' : same_fds s s' -> np_free np i s -> np_free np i s'.
Proof.
  intros [Hc Hp] (Hne & p & Hi & Hd & Hf).
  eapply Forall2_lookup_l in Hp as (p' & Hp' & E & Hdd); [|exact Hi].
  split; [congruence|]. exists p'. rewrite E. split; [done|]. split; [auto|done].
Qed.

Lemma same_same_fds {A} (m : M K A) : rel same m -> rel same_fds m.
Proof. intros Hm s. specialize (Hm s). destruct (m s); try done; by destruct Hm as (_ & ? & ?). Qed.

(** Quiet code keeps both. *)
Lemma tri_carry {A} ex np i (m : M K A) :
  near ex -> rel same m -> trf (fun s => I ex s /\ np_free np i s) m (fun _ s => I ex s /\ np_free np i s).
Proof.
  intros Hn Hm. eapply tri_frame; [by apply tri_same|by apply same_same_fds|]. intros s s'. apply np_free_same.
Qed.

Lemma files_ok_bury ex (s : K) i f :
  files_ok ex s ->
  (forall p, pl s !! i = Some p -> p_ofile (f p) = p_ofile p /\
     forall fd g, p_ofile p !! fd <> Some (Some g)) ->
  files_ok ex (set_ptab (set_procs (alter f i (pl s)) (k_ptab s)) s).
Proof.
  intros [H1 H2 H3 H4 H5] Hf. destruct (pl s !! i) as [p|] eqn:Hp.
  2:{ rewrite (alter_none _ _ _ Hp). by constructor. }
  destruct (Hf p eq_refl) as [E Hno]. rewrite (alter_as_insert _ (pl s) i p Hp).
  assert (Hlook : forall j x, <[i := f p]> (pl s) !! j = Some x ->
            (j = i /\ x = f p) \/ (j <> i /\ pl s !! j = Some x)) by (intros j x; apply lookup_set).
  constructor; cbn [k_file k_ptab set_ptab pt_proc set_procs]; try done.
  - intros g x Hx. rewrite (refs_insert g _ i p (f p) Hp), E, (H2 g x Hx). lia.
  - intros j x fd g [[-> ->]|[_ Hj]]%Hlook; [rewrite E; by eapply H3|by eapply H3].
  - intros j x [[-> ->]|[_ Hj]]%Hlook; [by rewrite E|by eapply H4].
  - intros j x [[-> ->]|[_ Hj]]%Hlook; [rewrite E; by eapply H5|by eapply H5].
Qed.

Lemma np_free_none ex np s p :
  I ex s -> np_free np 0 s -> pl s !! np = Some p -> forall fd g, p_ofile p !! fd <> Some (Some g).
Proof.
  intros [[_ _ _ _ H5] _] (_ & q & Hq & _ & Hf) Hp fd g Hfd. assert (q = p) by congruence. subst q.
  assert (Hlt : (fd < NOFILE)%nat) by (rewrite <- (H5 np p Hp); by eapply lookup_lt_Some).
  specialize (Hf fd ltac:(lia)). congruence.
Qed.

Lemma tri_bury ex np f :
  (forall p, p_ofile (f p) = p_ofile p) ->
  trf (fun s => I ex s /\ np_free np 0 s) (on_ptab (upd_proc np f)) (fun _ => I ex).
Proof.
  intros Hf s [Hs Hn]. rewrite on_ptab_upd. split.
  - apply files_ok_bury; [apply Hs|]. intros p Hp. split; [done|]. by eapply np_free_none.
  - destruct Hs as [_ (q & Hq & Hd)]. destruct Hn as [Hne _]. exists q. cbn.
    by rewrite list_lookup_alter_ne.
Qed.

Lemma tri_alloc_slot ex :
  trf (I ex) (on_ptab alloc_slot) (fun r s => match r with
    | Some np => I ex s /\ np_free np 0 s | None => I ex s end).
Proof.
  intros s Hs. unfold on_ptab, deliver, zoom, alloc_slot. rewrite run_get.
  pose proof (unused_slot_cases (pl s) 0) as Hu. destruct (unused_slot (pl s) 0) as [np|].
  2:{ cbn. eapply I_same; [|exact Hs]. split_and!; cbn; [reflexivity|done|reflexivity]. }
  destruct Hu as (_ & p & Hp & Hst). rewrite Nat.sub_0_r in Hp. unfold upd_proc. rewrite !run_modify. cbn.
  set (f := fun p => p_with_pid (pt_nextpid (k_ptab s)) (p_with_state EMBRYO p)).
  assert (Hdead : dead p) by (by left).
  assert (Hsame : forall t', pt_proc t' = alter f np (pl s) -> same s (wake_all [] (set_ptab t' s))).
  { intros t' Ht'. split_and!; cbn; [reflexivity|done|]. rewrite Ht'. apply calm_alter. intros q _.
    split; [done|]. by intros [?|?]. }
  split; [eapply I_same; [|exact Hs]; by apply Hsame|].
  destruct Hs as [[_ _ _ H4 H5] (q & Hq & Hd)]. split.
  - cbn. intros E. assert (q = p) by congruence. by subst q.
  - exists (f p). cbn. rewrite list_lookup_alter_eq, Hp. split; [done|]. split; [by intros [?|?]|].
    intros j Hj. cbn. destruct (lookup_lt_is_Some_2 (p_ofile p) j) as [[g|] Hg].
    + rewrite (H5 np p Hp). lia.
    + by destruct (H4 np p Hp Hdead j g).
    + done.
Qed.

Lemma tri_allocproc :
  trf (I ex0) allocproc (fun r s => match r with
    | Some np => I ex0 s /\ np_free np 0 s | None => I ex0 s end).
Proof.
  unfold allocproc. eapply tri_bind; [apply tri_alloc_slot|]. intros [np|]; [|by intros s Hs].
  eapply tri_bind; [apply tri_carry; [done|frame]|]. intros ks.
  eapply tri_bind; [apply tri_carry; [done|frame]|]. intros []. destruct (ks =? 0); [|by intros s Hs].
  eapply tri_bind; [by apply tri_bury|]. intros []. by intros s Hs.
Qed.

Lemma tri_dup_step ex np i f :
  (f < NFILE)%nat -> (i < NOFILE)%nat ->
  trf (fun s => I ex s /\ np_free np i s)
      (on_ptab (upd_proc np (fun p => p_with_ofile (<[i := Some f]> (p_ofile p)) p)))
      (fun _ s => I (plus ex f (-1)) s /\ np_free np (S i) s).
Proof.
  intros Hf Hi s [Hs Hn]. rewrite on_ptab_upd. destruct Hn as (Hne & p & Hp & Hd & Hfree). split.
  - eapply I_ext; [|apply (I_ofile ex s np i None (Some f) Hs)].
    + intros g. unfold plus. rewrite one_none. lia.
    + exists p. split_and!; [done|done|]. apply Hfree. lia.
    + by intros ? [= <-].
  - split; [done|]. eexists. cbn. rewrite list_lookup_alter_eq, Hp. split; [done|]. split; [done|].
    intros j Hj. cbn. rewrite list_lookup_insert_ne by lia. apply Hfree. lia.
Qed.

Lemma tri_dup_files ex np i l :
  (i + length l <= NOFILE)%nat ->
  trf (fun s => I ex s /\ np_free np i s) (dup_files np i l) (fun _ => I ex).
Proof.
  revert i. induction l as [|[f|] l IH]; intros i Hl; cbn [dup_files length] in *.
  - apply tri_ret. by intros s [? _].
  - eapply tri_bind.
    { eapply tri_frame; [apply (tri_filedup ex f)|apply rel_filedup|]. intros s s'. apply (np_free_same np i). }
    intros f'. eapply tri_conseq with (P' := fun s => (f' = f /\ (f < NFILE)%nat) /\
                 (I (plus ex f 1) s /\ np_free np i s)); [|intros s; tauto|intros a s Hs; exact Hs].
    apply tri_pure. intros [-> Hf]. eapply tri_bind; [apply tri_dup_step; [done|lia]|]. intros [].
    eapply tri_conseq; [apply (IH (S i)); lia| |by intros]. intros s [Hs Hn]. split; [|done].
    eapply I_ext; [|exact Hs]. by apply plus_plus.
  - eapply tri_conseq; [apply (IH (S i)); lia| |by intros]. intros s (Hs & Hne & p & Hp & Hd & Hf).
    split; [done|]. split; [done|]. exists p. split_and!; try done. intros j Hj. apply Hf. lia.
Qed.

Lemma keeps_fork : keeps0 (fork kend kdata).
Proof.
  unfold fork. eapply tri_bind; [apply keeps_same; [frame|done]|]. intros s0.
  eapply tri_bind; [apply (tri_myproc (I ex0))|]. intros p.
  eapply tri_conseq with (P' := fun s => length (p_ofile p) = NOFILE /\ I ex0 s); [| |intros a s Hs; exact Hs].
  2:{ intros s [Hs Hp]. split; [|done]. destruct Hs as [[_ _ _ _ H5] _]. by eapply H5. }
  apply tri_pure. intros Hlen. eapply tri_bind; [apply tri_allocproc|]. intros [np|]; [|by intros s Hs].
  do 3 (eapply tri_bind; [apply tri_carry; [done|frame]|intros ?]).
  case_match.
  - eapply tri_bind; [apply tri_carry; [done|frame]|intros ?]. eapply tri_bind; [by apply tri_bury|].
    intros []. by intros s Hs.
  - eapply tri_bind; [apply tri_carry; [done|frame]|intros []].
    eapply tri_bind; [apply tri_dup_files; lia|intros []]. apply keeps_same; [frame|done].
Qed.

(** *** exit *)

(** The current process has no file below descriptor [k]. *)
Definition cur_closed (k : nat) (s : K) : Prop :=
  forall p j f, pl s !! k_cur s = Some p -> (j < k)%nat -> p_ofile p !! j <> Some (Some f).

Lemma cur_closed_same k s s' : same_fds s s' -> cur_closed k s -> cur_closed k s'.
Proof.
  intros [Hc Hp] Hcl p' j f Hp' Hj. rewrite Hc in Hp'.
  eapply Forall2_lookup_r in Hp as (p & Hpp & E & _); [|exact Hp']. rewrite E. by eapply Hcl.
Qed.

Lemma tri_close_fd ex fd f p :
  near (plus ex f (-1)) -> p_ofile p !! fd = Some (Some f) ->
  trf (fun s => (I ex s /\ cur_closed fd s) /\ pl s !! k_cur s = Some p)
      (do* fileclose kend f in upd_myproc (fun p => p_with_ofile (<[fd := None]> (p_ofile p)) p))
      (fun _ s => I ex s /\ cur_closed (S fd) s).
Proof.
  intros Hn Hfd. eapply tri_bind with (Q := fun _ s => I (plus ex f (-1)) s /\ (cur_closed fd s /\ cur_fd fd (Some f) s)).
  { eapply tri_conseq with (P' := fun s => I ex s /\ (cur_closed fd s /\ cur_fd fd (Some f) s));
      [|intros s [[Hs Hcl] Hp]; split_and!; try done|intros a s Hs; exact Hs].
    - eapply tri_frame; [by apply tri_fileclose|apply rel_fileclose|]. intros s s' Hss [H1 H2].
      split; [by eapply cur_closed_same|by eapply cur_fd_same].
    - destruct Hs as [_ (q & Hq & Hd)]. assert (q = p) by congruence. subst q. by exists p. }
  intros [] s (Hs & Hcl & Hc). unfold upd_myproc. rewrite run_get, on_ptab_upd. split.
  - eapply I_ext; [|apply (I_ofile _ s (k_cur s) fd (Some f) None Hs Hc); done].
    intros g. unfold plus. rewrite one_none. lia.
  - intros p' j g Hp' Hj. cbn in Hp'. rewrite list_lookup_alter_eq in Hp'.
    destruct (pl s !! k_cur s) as [q|] eqn:Hq; [|done]. injection Hp' as <-. cbn.
    destruct (decide (j = fd)) as [->|Hne].
    + intros E. assert (Hlt : (fd < length (p_ofile q))%nat).
      { apply lookup_lt_Some in E. by rewrite length_insert in E. }
      by rewrite list_lookup_insert_eq in E.
    + rewrite list_lookup_insert_ne by done. apply (Hcl q); [done|lia].
Qed.

Lemma tri_close_files k fd :
  trf (fun s => I ex0 s /\ cur_closed fd s) (close_files kend k fd)
      (fun _ s => I ex0 s /\ cur_closed (fd + k) s).
Proof.
  revert fd. induction k as [|k IH]; intros fd; cbn [close_files].
  { apply tri_ret. intros s. by rewrite Nat.add_0_r. }
  eapply tri_bind; [apply (tri_myproc (fun s => I ex0 s /\ cur_closed fd s))|]. intros p.
  eapply tri_bind with (Q := fun _ s => I ex0 s /\ cur_closed (S fd) s).
  2:{ intros []. rewrite Nat.add_succ_r. apply IH. }
  assert (Hskip : (forall f, p_ofile p !! fd <> Some (Some f)) ->
    trf (fun s => (I ex0 s /\ cur_closed fd s) /\ pl s !! k_cur s = Some p) (ret tt)
        (fun _ s => I ex0 s /\ cur_closed (S fd) s)).
  { intros Hno. apply tri_ret. intros s [[Hs Hcl] Hp]. split; [done|]. intros q j f Hq Hj.
    assert (q = p) by congruence. subst q. destruct (decide (j = fd)) as [->|]; [by apply Hno|].
    apply (Hcl p); [done|lia]. }
  destruct (p_ofile p !! fd) as [[f|]|] eqn:Hfd; [apply tri_close_fd; [balance|done]|by apply Hskip..].
Qed.

(** Code does not change which process runs. *)
Definition same_cur (s s' : K) : Prop := k_cur s' = k_cur s.
#[export] Instance same_cur_kframe : KFrame same_cur.
Proof.
  constructor; try done. split; [done|]. unfold same_cur. intros s1 s2 s3. congruence.
Qed.
Lemma same_fds_cur {A} (m : M K A) : rel same_fds m -> rel same_cur m.
Proof. intros Hm s. specialize (Hm s). destruct (m s); try done; apply Hm. Qed.
Lemma cur_upd_myproc f : rel same_cur (upd_myproc f).
Proof. intros s. unfold upd_myproc. rewrite run_get, on_ptab_upd. done. Qed.
Lemma cur_close_files k fd : rel same_cur (close_files kend k fd).
Proof.
  revert fd. induction k as [|k IH]; intros fd; cbn [close_files]; frame;
    [apply same_fds_cur, rel_fileclose|apply cur_upd_myproc].
Qed.

(** The state of [exit] once the files are closed. *)
Definition exiting (ex : nat -> Z) (c : nat) (s : K) : Prop :=
  I ex s /\ (cur_closed NOFILE s /\ k_cur s = c).

Lemma tri_exiting {A} ex c (m : M K A) : near ex -> rel same m -> trf (exiting ex c) m (fun _ => exiting ex c).
Proof.
  intros Hn Hm. eapply tri_frame; [by apply tri_same|by apply same_same_fds|]. intros s s' Hs [H1 H2].
  split; [by eapply cur_closed_same|]. destruct Hs. congruence.
Qed.

(** The current process has exited. *)
Definition gone (ex : nat -> Z) (s : K) : Prop :=
  files_ok ex s /\ exists p, pl s !! k_cur s = Some p /\ p_state p = ZOMBIE.

Lemma tri_exit_table ex c : trf (exiting ex c) (on_ptab (exit_table c)) (fun _ => gone ex).
Proof.
  intros s (Hs & Hcl & Hc). unfold on_ptab, deliver, zoom, exit_table, read_proc, upd_proc.
  rewrite run_bind, run_get. destruct (pl s !! c) as [p|] eqn:Hp; [|done]. cbn [deref].
  rewrite run_ret, !run_modify. cbn.
  set (l1 := wakeup1 _ (pl s)). set (l2 := reparent _ _ _ _ l1).
  assert (Hcalm : Forall2 calm (pl s) l2).
  { transitivity l1; [apply calm_wakeup1|apply calm_reparent]. }
  set (s2 := set_ptab (set_procs l2 (k_ptab s)) s). split.
  2:{ cbn. rewrite Hc, list_lookup_alter_eq.
      eapply Forall2_lookup_l in Hcalm as (q & -> & _); [|exact Hp]. by eexists. }
  apply (files_ok_bury ex s2 c (p_with_state ZOMBIE)).
  { eapply (files_ok_calm ex s); [reflexivity|done|apply Hs]. }
  intros p2 Hp2. split; [done|]. intros fd g. change (pl s2) with l2 in Hp2.
  destruct Hs as [[_ _ _ _ H5] _].
  eapply Forall2_lookup_r in Hcalm as (q & Hq & E & _); [|exact Hp2]. rewrite E. intros Hfd.
  apply (Hcl q fd g); [congruence| |done].
  rewrite <- (H5 c q Hq). by eapply lookup_lt_Some.
Qed.

(** After [exit] the process is a zombie without files. *)
Lemma tri_exit : trf (I ex0) (exit kend) (fun _ => gone ex0).
Proof.
  intros s0 Hs0. unfold exit. rewrite run_get. destruct (bool_decide _); [done|].
  assert (Hgo : trf (exiting ex0 (k_cur s0)) (let* p := myproc in do* kbegin_op in
      let* cwd := deref (p_cwd p) "cwd" in do* kiput cwd in do* kend_op in
      do* upd_myproc (p_with_cwd None) in on_ptab (exit_table (k_cur s0))) (fun _ => gone ex0)).
  { do 6 (eapply tri_bind; [apply tri_exiting; [done|frame]|intros ?]). apply tri_exit_table. }
  apply (tri_bind (fun s => (I ex0 s /\ cur_closed 0 s) /\ k_cur s = k_cur s0)
    (close_files kend NOFILE 0) (fun _ => exiting ex0 (k_cur s0))); [|intros []; exact Hgo|].
  - eapply tri_conseq; [eapply (tri_frame same_cur); [apply (tri_close_files NOFILE 0)|apply cur_close_files|]
                       |intros s Hs; exact Hs|].
    + intros s s' E H1. unfold same_cur in E. congruence.
    + intros [] s [[H1 H2] H3]. done.
  - split_and!; try done. intros p j f _ Hj. lia.
Qed.

(** *** The whole interface *)

Definition J (ex : nat -> Z) (s : K) : Prop := I ex s \/ gone ex s.

Lemma tri_J {A} (m : M K A) : keeps0 m -> trf (I ex0) m (fun _ => J ex0).
Proof. intros Hm. eapply tri_conseq; [apply Hm|by intros|]. intros a s Hs. by left. Qed.

Lemma tri_sysexit : trf (I ex0) (sys_exit kend) (fun _ => J ex0).
Proof. eapply tri_bind; [apply tri_exit|]. intros []. apply tri_ret. intros s Hs. by right. Qed.

Lemma syscalls_keep : Forall (fun f => trf (I ex0) f (fun _ => J ex0)) (syscalls kend kdata).
Proof.
  destruct same_getters as (H1 & H2 & H3 & H4).
  unfold syscalls.
  repeat (apply Forall_cons; split;
    [first [exact (tri_sysexit) | apply tri_J;
       first [exact keeps_fork | exact keeps_pipe | exact keeps_dup | exact keeps_open | exact keeps_close
             | apply keeps_same; [|done]; first [exact same_wait | exact same_read | exact same_kill
                 | exact same_sysexec | exact same_fstat | exact same_chdir | exact H1 | exact same_sbrk
                 | exact same_sleep | exact H2 | exact same_write | exact same_mknod | exact same_unlink
                 | exact same_link | exact same_mkdir | exact H3 | exact H4 | exact same_setuid
                 | exact same_chmod | exact same_chown | exact same_lseek | exact same_trim
                 | exact same_setgrps | unfold on_console; solve [frame]]]]|]).
  apply Forall_nil_2.
Qed.

Lemma tri_set_eax v : trf (J ex0) (upd_myproc (set_eax v)) (fun _ => J ex0).
Proof.
  intros s [Hs|[Hs (p & Hp & Hz)]].
  - assert (Hr : rel same (upd_myproc (set_eax v))) by frame. pose proof (keeps_same _ Hr ex0 near_start s Hs) as Ht.
    destruct (upd_myproc (set_eax v) s); try done. by left.
  - unfold upd_myproc. rewrite run_get, on_ptab_upd. right. split.
    + eapply (files_ok_calm ex0 s); [reflexivity| |done]. apply calm_alter. intros q _. by split.
    + cbn. rewrite list_lookup_alter_eq, Hp. by eexists.
Qed.

Lemma tri_syscall : trf (I ex0) (syscall kend kdata) (fun _ => J ex0).
Proof.
  unfold syscall. eapply tri_bind; [apply keeps_same; [frame|done]|]. intros p. case_match.
  - eapply tri_bind with (Q := fun f s => (f ∈ syscalls kend kdata) /\ I ex0 s).
    { apply tri_deref. intros f s Hf Hs. split; [|done]. by eapply list_elem_of_lookup_2. }
    intros f. apply tri_pure. intros Hf. pose proof (syscalls_keep) as Hall.
    rewrite Forall_forall in Hall. eapply tri_bind; [by apply Hall|]. intros r. apply tri_set_eax.
  - eapply tri_conseq; [apply tri_set_eax|intros s Hs; by left|by intros].
Qed.

Lemma tri_exit_if_killed (k : M K after_trap) :
  trf (I ex0) k (fun _ => J ex0) -> trf (I ex0) (exit_if_killed kend k) (fun _ => J ex0).
Proof.
  intros Hk. unfold exit_if_killed. eapply tri_bind; [apply keeps_same; [frame|done]|]. intros p. case_match; [|done].
  eapply tri_bind; [apply tri_exit|]. intros []. apply tri_ret. intros s Hs. by right.
Qed.

Lemma tri_trap tf cpu dev : trf (I ex0) (trap kend kdata tf cpu dev) (fun _ => J ex0).
Proof.
  unfold trap. case_match.
  - unfold trap_syscall. apply tri_exit_if_killed.
    eapply tri_bind; [apply keeps_same; [frame|done]|]. intros [].
    eapply tri_bind; [apply tri_syscall|]. intros [].
    eapply tri_bind; [apply (tri_myproc (J ex0))|]. intros p. case_bool_decide as Hz.
    + apply tri_ret. by intros s [Hs _].
    + eapply tri_conseq; [apply (tri_exit_if_killed (ret Resumed)); apply tri_ret; intros s Hs; by left| |by intros].
      intros s [[Hs|[_ (q & Hq & Hqz)]] Hp]; [done|]. congruence.
  - eapply tri_bind with (Q := fun _ => I ex0).
    { apply keeps_same; [|done]. unfold trap_irq, on_console. frame.
      apply rel_deliver; [apply _|]. frame. apply rel_modify. intros s. apply kf_ticks. }
    intros []. assert (Hy : trf (I ex0) (let* p := myproc in
      if bool_decide (p_state p = RUNNING) && (tf_trapno tf =? T_IRQ0 + IRQ_TIMER)
      then do* upd_myproc (p_with_state RUNNABLE) in ret Yielded else ret Resumed) (fun _ => J ex0)).
    { apply tri_J, keeps_same; [frame|done]. }
    cbv zeta. case_match; [by apply tri_exit_if_killed|done].
Qed.

End calls.

(** C2: reference counting of open files is exact.  The count of every open file
    is the number of descriptors, over all processes, that name it, but for the
    references [held] by calls that have gone to sleep; unused and exited
    processes have no descriptors.  Whatever system call or other trap a
    process makes, this is so with the same [held] when the trap returns; when
    it goes to sleep instead, at most two references to a file are on the way
    in it. *)
Theorem trap_files_inv {B} `{BlockOps B} kend kdata held tf cpu dev (s : kstate B console) :
  files_ok held s -> cur_live s ->
  match trap kend kdata tf cpu dev s with
  | Ok _ s' _ => files_ok held s'
  | Sleep _ s' _ => exists held', files_ok held' s' /\ forall f, -2 <= held' f - held f <= 2
  | Panic _ | Fault _ => True
  end.
Proof.
  intros Hs Hc. pose proof (tri_trap (ex0 := held) kend kdata tf cpu dev s (conj Hs Hc)) as Ht.
  destruct (trap kend kdata tf cpu dev s); try done.
  - destruct Ht as [[Ht _]|[Ht _]]; done.
  - destruct Ht as (ex & Hn & Ht). by exists ex.
Qed.
