(* ===== verification/OpenSpec.v ===== *)
(** * Opening a file asks for permission

    A descriptor that [open] returns, without creating the file, is readable
    or writable only if the permission bits of the file grant it to the
    caller. *)

From S2P Require Import Prelude Triple CString SleepLock Bio Layout Log BlockLayer.
From S2P Require Import ProcDefs ProcTable Kalloc Vm Pipe Fs Kernel File SysArg.
From S2P Require Import Proc Exec Sysfile KFrame FileRefs SysArgSpec.

(** The classes of users of a file: others, its group, its owner. *)
Definition in_class (p : proc) (d : dinode) (k : Z) : Prop :=
  (k = 0) \/ (k = 1 /\ d_gid d ∈ groups p) \/ (k = 2 /\ p_euid p = d_uid d).

(** Permission [b] (2 to read, 1 to write, 0 to execute): the superuser has
    it, and the members of a class whose bit is set. *)
Definition granted (p : proc) (d : dinode) (b : Z) : Prop :=
  p_euid p = 0 \/ exists k, in_class p d k /\ Z.testbit (d_mode d) (b + 3 * k) = true.

Lemma land_subset m x b : (Z.land m x =? x) = true -> Z.testbit x b = true -> Z.testbit m b = true.
Proof.
  intros E%Z.eqb_eq Hb. rewrite <- E, Z.land_spec in Hb. by apply andb_true_iff in Hb as [? _].
Qed.

Lemma testbit_s32_shl x k b :
  0 <= b < 3 -> 0 <= k <= 6 -> Z.testbit x b = true -> Z.testbit (s32 (Z.shiftl x k)) (b + k) = true.
Proof.
  intros Hb Hk Hx. unfold s32.
  rewrite <- (Z.mod_pow2_bits_low _ 31) by lia.
  rewrite Zminus_mod, (Z.mod_same (2 ^ 31)), Z.sub_0_r, Zmod_mod by lia.
  change (2 ^ 32) with (2 ^ 31 * 2). rewrite Z.rem_mul_r by lia. 
  rewrite Z.mul_comm, Z_mod_plus_full, Zmod_mod, <- Zplus_mod_idemp_r, Z.mod_same, Z.add_0_r by lia.
  rewrite Z.mod_pow2_bits_low by lia. by rewrite Z.shiftl_spec, Z.add_simpl_r by lia.
Qed.

Lemma open_granted p d omode b :
  open_denied p d omode = false -> 0 <= b < 3 -> Z.testbit omode b = true -> granted p d b.
Proof.
  unfold open_denied, granted. intros E Hb Hx.
  destruct (Z.eqb_spec (p_euid p) 0) as [|_]; [by left|right]. cbn [negb andb] in E.
  destruct (_ =? omode) eqn:E0.
  { exists 0. split; [by left|]. rewrite Z.add_0_r. by eapply land_subset. }
  cbn [negb andb] in E. apply andb_false_iff in E as [E|E].
  - apply orb_false_iff in E as [E1 E2]. apply negb_false_iff in E1, E2. exists 2.
    split; [right; right; split; [done|by apply Z.eqb_eq]|]. eapply land_subset; [exact E2|].
    by apply testbit_s32_shl.
  - apply negb_false_iff, existsb_exists in E as (g & Hg & [E1 E2]%andb_true_iff). exists 1.
    apply Z.eqb_eq in E1 as ->. split; [right; left; split; [done|by apply list_elem_of_In]|].
    eapply land_subset; [exact E2|]. by apply testbit_s32_shl.
Qed.

Section open.
Context {B D : Type} `{BlockOps B} (devsw : proc -> Z -> devfns (fs B D)) (kend : Z).
Abbreviation K := (kstate B D).
Abbreviation pl s := (pt_proc (k_ptab s)).

(** The contents of in-memory inode [ip]. *)
Definition data_of (ip : nat) (s : K) : option dinode := i_d <$> fs_inode (k_fs s) !! ip.

(** The caller with its open files, the open files and the contents of the
    inode stay. *)
Definition settled_proc (p p' : proc) : Prop :=
  p_euid p' = p_euid p /\ groups p' = groups p /\ p_ofile p' = p_ofile p.
Definition settled (ip : nat) (s s' : K) : Prop :=
  k_cur s' = k_cur s /\ k_file s' = k_file s /\ data_of ip s' = data_of ip s /\
  Forall2 settled_proc (pl s) (pl s').

#[export] Instance settled_proc_preorder : PreOrder settled_proc.
Proof. split; [done|]. unfold settled_proc. intros x y z (C1 & C2 & C3) (D1 & D2 & D3). split_and!; congruence. Qed.
#[export] Instance settled_preorder ip : PreOrder (settled ip).
Proof.
  split; [intros s; by split_and!|].
  intros s1 s2 s3 (A1 & A2 & A3 & A4) (B1 & B2 & B3 & B4). split_and!; [congruence..|]. by transitivity (pl s2).
Qed.

Lemma settled_awaken c p : settled_proc p (awaken c p).
Proof. unfold awaken. by destruct (_ && _). Qed.
Lemma settled_wake ip w s : settled ip s (wake_all w s).
Proof.
  split_and!; [done..|]. cbn. unfold wakeups. generalize (pl s). induction w as [|c w IH]; intros l; cbn [foldl]; [done|].
  transitivity (wakeup1 (Some c) l); [|apply IH]. apply Forall2_fmap_r, Forall_Forall2_diag, Forall_true.
  intros p. apply settled_awaken.
Qed.

Lemma settled_deliver ip {A} (m : M K A) : rel (settled ip) m -> rel (settled ip) (deliver m).
Proof.
  intros Hm s. specialize (Hm s). unfold deliver. destruct (m s) as [a s' w| |c s' w|]; try done;
    (transitivity s'; [done|apply settled_wake]).
Qed.

Lemma settled_on_fs ip {A} (m : proc -> M (fs B D) A) :
  (forall p, rel (fun f f' => i_d <$> fs_inode f' !! ip = i_d <$> fs_inode f !! ip) (m p)) ->
  rel (settled ip) (on_fs m).
Proof.
  intros Hm. apply rel_bind; [apply _|unfold myproc; frame|]. intros p. apply settled_deliver. intros s. unfold zoom.
  specialize (Hm p (k_fs s)). destruct (m p (k_fs s)); try done; by split_and!.
Qed.

Lemma settled_unlock ip : rel (settled ip) (do* kiunlock ip in kend_op).
Proof.
  apply rel_bind; [apply _| |intros []]; apply settled_on_fs; intros p s.
  - unfold iunlock, read_inode. rewrite run_bind, run_get. destruct (fs_inode s !! ip) as [i|] eqn:E; [|done].
    cbn [deref]. rewrite run_ret. unfold holdingsleep, gets, bind. cbn. destruct (_ || _); [done|]. cbn.
    by rewrite list_lookup_alter_eq, E.
  - unfold on_blk, zoom. by destruct (bl_end_op _ _).
Qed.

(** The caller may open inode [ip] with [omode]. *)
Definition permitted (omode : Z) (ip : nat) (s : K) : Prop :=
  exists p d, pl s !! k_cur s = Some p /\ data_of ip s = Some d /\ open_denied p d omode = false.

Lemma open_denied_settled p p' d omode :
  settled_proc p p' -> open_denied p' d omode = open_denied p d omode.
Proof. intros (E1 & E2 & _). unfold open_denied. by rewrite E1, E2. Qed.

Definition has_fd (fd f : nat) (s : K) : Prop :=
  exists p, pl s !! k_cur s = Some p /\ p_ofile p !! fd = Some (Some f).
Definition is_file (f : nat) (s : K) : Prop := is_Some (k_file s !! f).

Lemma settled_keeps omode ip fd f s s' :
  settled ip s s' -> permitted omode ip s /\ is_file f s /\ has_fd fd f s ->
  permitted omode ip s' /\ is_file f s' /\ has_fd fd f s'.
Proof.
  intros (Hc & Hf & Hd & Hp) ((p & d & H1 & H2 & H3) & H4 & (q & H5 & H6)).
  assert (q = p) by congruence. subst q.
  eapply Forall2_lookup_l in Hp as (p' & Hp' & Hs); [|exact H1]. unfold permitted, is_file, has_fd.
  rewrite Hc, Hf, Hd. split_and!; [|done|].
  - exists p', d. split_and!; [done..|]. by rewrite (open_denied_settled p p').
  - exists p'. split; [done|]. by destruct Hs as (_ & _ & ->).
Qed.

Lemma tri_filealloc_permitted omode ip :
  tri (permitted omode ip) filealloc (fun r s => match r with
    | Some f => permitted omode ip s /\ is_file f s | None => True end).
Proof.
  intros s Hs. unfold filealloc. rewrite run_get. pose proof (free_file_spec (k_file s) 0) as Hf.
  destruct (free_file (k_file s) 0) as [f|]; [|done]. destruct Hf as (_ & x & Hx & _).
  rewrite Nat.sub_0_r in Hx. unfold upd_file. rewrite run_modify. cbn. split; [done|].
  unfold is_file. cbn. rewrite list_lookup_alter_eq, Hx. by eexists.
Qed.

Lemma tri_fdalloc_permitted omode ip f :
  tri (fun s => permitted omode ip s /\ is_file f s) (fdalloc f) (fun r s => match r with
    | Some fd => permitted omode ip s /\ is_file f s /\ has_fd fd f s | None => True end).
Proof.
  eapply tri_bind; [apply tri_myproc|]. intros p s [[(q & d & Hq & Hd & Hok) Hf] Hp].
  assert (q = p) by congruence. subst q.
  pose proof (free_fd_spec (p_ofile p) 0) as Hfree. destruct (free_fd (p_ofile p) 0) as [fd|]; [|done].
  destruct Hfree as [_ Hfd]. rewrite Nat.sub_0_r in Hfd.
  unfold set_fd, upd_myproc. rewrite run_bind, run_get. unfold bind. rewrite on_ptab_upd. cbn [after ret app].
  set (p' := p_with_ofile (<[fd := Some f]> (p_ofile p)) p).
  assert (Hp' : alter (fun p => p_with_ofile (<[fd := Some f]> (p_ofile p)) p) (k_cur s) (pl s) !! k_cur s = Some p')
    by (by rewrite list_lookup_alter_eq, Hp).
  split_and!; [by exists p', d|done|]. exists p'. split; [done|]. cbn.
  apply list_lookup_insert_eq. by eapply lookup_lt_Some.
Qed.

(** What [open] leaves behind. *)
Definition opened (omode : Z) (fd : nat) (s : K) : Prop :=
  exists p f x ip d, pl s !! k_cur s = Some p /\ p_ofile p !! fd = Some (Some f) /\
    k_file s !! f = Some x /\ f_type x = FD_INODE /\ f_ip x = Some ip /\ f_off x = 0 /\
    f_readable x = Z.land omode O_RDONLY /\ f_writable x = Z.land omode O_WRONLY /\
    data_of ip s = Some d /\ open_denied p d omode = false.

Definition fd_opened (omode r : Z) (s : K) : Prop := 0 <= r -> opened omode (Z.to_nat r) s.

Lemma tri_fail {A} P (m : M K A) omode : tri P (bind m (fun _ => ret (-1))) (fd_opened omode).
Proof.
  eapply tri_bind with (Q := fun _ _ => True); [intros s _; by destruct (m s)|].
  intros a. apply tri_ret. intros s _ Hr. lia.
Qed.
Lemma tri_fail2 {A C} P (m : M K A) (m' : M K C) omode :
  tri P (bind m (fun _ => bind m' (fun _ => ret (-1)))) (fd_opened omode).
Proof.
  eapply tri_bind with (Q := fun _ _ => True); [|intros a; apply tri_fail]. intros s _. by destruct (m s).
Qed.

Lemma tri_open_file omode ip :
  tri (permitted omode ip) (open_file kend ip omode) (fd_opened omode).
Proof.
  unfold open_file. eapply tri_bind; [apply tri_filealloc_permitted|]. intros [f|]; [|apply tri_fail2].
  eapply tri_bind; [apply tri_fdalloc_permitted|]. intros [fd|].
  2:{ eapply tri_bind with (Q := fun _ _ => True); [|intros a; apply tri_fail2].
      intros s _. by destruct (fileclose kend f s). }
  intros s Hs. rewrite <- run_bind. revert s Hs.
  eapply tri_bind with (Q := fun _ s => permitted omode ip s /\ is_file f s /\ has_fd fd f s).
  { intros s Hs. pose proof (settled_unlock ip s) as Hr. destruct (bind (kiunlock ip) _ s); try done.
    by eapply settled_keeps. }
  intros [] s ((p & d & Hp & Hd & Hok) & [x Hx] & (q & Hq & Hfd)). assert (q = p) by congruence. subst q.
  unfold upd_file. rewrite run_modify. intros _. rewrite Nat2Z.id.
  eexists p, f, _, ip, d. cbn. rewrite list_lookup_alter_eq, Hx. split_and!; done.
Qed.

Lemma tri_any {A} P (m : M K A) : tri P m (fun _ _ => True).
Proof. intros s _. by destruct (m s). Qed.

Lemma tri_kinode ip : tri (fun _ => True) (kinode ip) (fun i s => data_of ip s = Some (i_d i)).
Proof.
  intros s _. unfold kinode, on_fs, myproc. rewrite run_bind, run_get.
  destruct (pl s !! k_cur s) as [p|]; [|done]. cbn [deref]. rewrite run_ret. unfold deliver, zoom, read_inode.
  rewrite run_get. unfold data_of. destruct (fs_inode (k_fs s) !! ip) as [i|] eqn:E; [|done].
  cbn. by rewrite E.
Qed.

(** [sys_open] once the arguments are there and nothing is to be created. *)
Lemma tri_open_path path omode P :
  tri P (do* kbegin_op in let* ip := knamei devsw path in
    match ip with
    | None => do* kend_op in ret (-1)
    | Some ip =>
        do* kilock ip in
        let* i := kinode ip in
        let* p := myproc in
        if open_denied p (i_d i) omode || ((d_type (i_d i) =? T_DIR) && negb (omode =? O_RDONLY)) then
          do* kiunlockput ip in do* kend_op in ret (-1)
        else open_file kend ip omode
    end) (fd_opened omode).
Proof.
  eapply tri_bind; [apply tri_any|]. intros []. eapply tri_bind; [apply tri_any|].
  intros [ip|]; [|apply tri_fail]. eapply tri_bind; [apply tri_any|]. intros [].
  eapply tri_bind; [apply tri_kinode|]. intros i. eapply tri_bind; [apply tri_myproc|]. intros p.
  destruct (_ || _) eqn:E; [apply tri_fail2|]. apply orb_false_iff in E as [E _].
  eapply tri_conseq; [apply tri_open_file| |intros a s Hs; exact Hs]. intros s [Hd Hp]. by exists p, (i_d i).
Qed.

(** Fetching arguments does not change the state. *)
Lemma pure_argstr n : rel eq (argstr (B := B) (D := D) n).
Proof.
  assert (Hl : forall k a acc, rel eq (fetchstr_loop (B := B) (D := D) k a acc)).
  { induction k as [|k IH]; intros a acc; cbn [fetchstr_loop]; unfold uread, myproc; frame. }
  unfold argstr, argint, fetchint, fetchstr, uread, myproc. frame.
Qed.

Lemma bit_land x b : 0 <= b -> Z.land x (2 ^ b) <> 0 -> Z.testbit x b = true.
Proof.
  intros Hb Hx. destruct (Z.testbit x b) eqn:E; [done|]. destruct Hx. apply Z.bits_inj'. intros n Hn.
  rewrite Z.land_spec, Z.bits_0, Z.pow2_bits_eqb by lia. destruct (Z.eqb_spec b n) as [->|]; [by rewrite E|].
  apply andb_false_r.
Qed.

(** C4: opening a file needs permission.  When [open], called without
    [O_CREATE], returns a descriptor, it names an open file on an inode such
    that the file is readable only if the inode's permission bits grant
    reading to the caller, as owner, through one of its groups or as anybody,
    or the caller is the superuser, and the same for writing. *)
Theorem open_authorized s omode fd s' w :
  argint 1 s = Ok (Some omode) s [] -> Z.land omode O_CREATE = 0 ->
  sys_open devsw kend s = Ok fd s' w -> 0 <= fd ->
  exists p f x ip d, pl s' !! k_cur s' = Some p /\ p_ofile p !! Z.to_nat fd = Some (Some f) /\
    k_file s' !! f = Some x /\ f_ip x = Some ip /\ data_of ip s' = Some d /\
    (f_readable x <> 0 -> granted p d 2) /\ (f_writable x <> 0 -> granted p d 1).
Proof.
  intros Hom Hcr E Hfd. cut (opened omode (Z.to_nat fd) s').
  { intros (p & f & x & ip & d & H1 & H2 & H3 & _ & H5 & _ & H7 & H8 & H9 & Hok). exists p, f, x, ip, d.
    split_and!; try done; rewrite ?H7, ?H8; intros Hb; (eapply open_granted; [exact Hok|lia|]);
      apply bit_land; done. }
  cut (tri (fun s0 => s0 = s) (sys_open devsw kend) (fd_opened omode)).
  { intros Ht. specialize (Ht s eq_refl). rewrite E in Ht. by apply Ht. }
  unfold sys_open. eapply tri_bind with (Q := fun _ s0 => s0 = s).
  { intros s0 ->. pose proof (pure_argstr 0 s) as Hp. by destruct (argstr 0 s). }
  intros [path|]; [|by apply tri_ret; intros ? _ ?; lia].
  intros s0 ->. rewrite (run_Ok s _ _ _ Hom), Hcr.
  by apply (tri_open_path path omode (fun _ => True)).
Qed.

(** *** With [O_CREATE] *)

(** The inode that a path names, locked, as [create] looks it up. *)
Definition names_inode (path : list Z) : M K (option nat) :=
  let* r := knameiparent devsw path in
  match r with
  | None => ret None
  | Some (dp, name) =>
      do* kilock dp in
      let* r := kdirlookup devsw dp name in
      match r with
      | None => ret None
      | Some (ip, _) => do* kiunlockput dp in do* kilock ip in ret (Some ip)
      end
  end.

Definition cur_free_fd (s : K) : Prop := exists p, pl s !! k_cur s = Some p /\ is_Some (free_fd (p_ofile p) 0).

Lemma kinode_runs ip d (s : K) p : pl s !! k_cur s = Some p -> data_of ip s = Some d ->
  exists i, kinode ip s = Ok i s [] /\ i_d i = d.
Proof.
  intros Hp Hd. unfold kinode, on_fs, myproc. rewrite run_bind, run_get, Hp. cbn [deref]. rewrite run_ret.
  unfold deliver, zoom, read_inode. rewrite run_get. unfold data_of in Hd.
  destruct (fs_inode (k_fs s) !! ip) as [i|] eqn:E; [|done]. injection Hd as <-. exists i. split; [|done].
  cbn. by destruct s as [? ? ? ? [] ? ?].
Qed.

Lemma run_seq {A C} (m : M K A) (k : A -> M K C) s a s' w b s'' w' :
  m s = Ok a s' w -> k a s' = Ok b s'' w' -> bind m k s = Ok b s'' (w ++ w').
Proof. intros E1 E2. unfold bind. by rewrite E1, E2. Qed.
Lemma run_seq_inv {A C} (m : M K A) (k : A -> M K C) s b s'' w'' :
  bind m k s = Ok b s'' w'' -> exists a s' w w', m s = Ok a s' w /\ k a s' = Ok b s'' w'.
Proof. unfold bind. destruct (m s) as [a s' w| | |]; try done. destruct (k a s') eqn:E; try done. intros [= <- <- <-]. eauto 10. Qed.

(** [create] returns the file when there is one. *)
Lemma create_existing path t ip t1 w p d :
  names_inode path t = Ok (Some ip) t1 w -> pl t1 !! k_cur t1 = Some p -> data_of ip t1 = Some d -> d_type d = T_FILE ->
  exists w', create devsw path T_FILE 0 0 t = Ok (Some ip) t1 w'.
Proof.
  intros (r & s1 & w1 & w2 & E1 & E)%run_seq_inv Hp Hd Ht. destruct r as [[dp name]|]; [|done].
  apply run_seq_inv in E as ([] & s2 & w3 & w4 & E2 & (r & s3 & w5 & w6 & E3 & E)%run_seq_inv).
  destruct r as [[ip' off]|]; [|done].
  apply run_seq_inv in E as ([] & s4 & w7 & w8 & E4 & ([] & s5 & w9 & w10 & E5 & E)%run_seq_inv).
  injection E as -> -> _. destruct (kinode_runs ip d t1 p Hp Hd) as (i & Ei & <-).
  eexists. unfold create. eapply run_seq; [exact E1|]. cbv beta iota. eapply run_seq; [exact E2|]. eapply run_seq; [exact E3|].
  cbv beta iota. eapply run_seq; [exact E4|]. eapply run_seq; [exact E5|]. eapply run_seq; [exact Ei|]. by rewrite Ht.
Qed.

Lemma tri_filealloc_free ip d :
  tri (fun s => data_of ip s = Some d /\ cur_free_fd s /\ is_Some (free_file (k_file s) 0)) filealloc
    (fun r s => exists f, r = Some f /\ data_of ip s = Some d /\ cur_free_fd s /\ is_file f s).
Proof.
  intros s (Hd & Hp & [f Ef]). unfold filealloc. rewrite run_get. pose proof (free_file_spec (k_file s) 0) as Hf.
  rewrite Ef in *. destruct Hf as (_ & x & Hx & _). rewrite Nat.sub_0_r in Hx. unfold upd_file. rewrite run_modify.
  exists f. split_and!; [done..|]. unfold is_file. cbn. rewrite list_lookup_alter_eq, Hx. by eexists.
Qed.

Lemma tri_fdalloc_free ip d f :
  tri (fun s => data_of ip s = Some d /\ cur_free_fd s /\ is_file f s) (fdalloc f)
    (fun r s => exists fd, r = Some fd /\ data_of ip s = Some d /\ is_file f s /\ has_fd fd f s).
Proof.
  eapply tri_bind; [apply tri_myproc|]. intros p s [(Hd & (q & Hq & [fd Efd]) & Hf) Hp].
  assert (q = p) by congruence. subst q. pose proof (free_fd_spec (p_ofile p) 0) as Hfree. rewrite Efd in *.
  destruct Hfree as [_ Hfd]. rewrite Nat.sub_0_r in Hfd.
  unfold set_fd, upd_myproc. rewrite run_bind, run_get. unfold bind. rewrite on_ptab_upd. cbn [after ret app].
  exists fd. split_and!; [done..|]. exists (p_with_ofile (<[fd := Some f]> (p_ofile p)) p). cbn.
  rewrite list_lookup_alter_eq, Hp. split; [done|]. cbn. apply list_lookup_insert_eq. by eapply lookup_lt_Some.
Qed.

(** A descriptor of the inode with the access that [omode] asks for. *)
Definition has_access (omode : Z) (ip : nat) (d : dinode) (r : Z) (s : K) : Prop :=
  0 <= r /\ exists p f x, pl s !! k_cur s = Some p /\ p_ofile p !! Z.to_nat r = Some (Some f) /\
    k_file s !! f = Some x /\ f_type x = FD_INODE /\ f_ip x = Some ip /\ data_of ip s = Some d /\
    f_readable x = Z.land omode O_RDONLY /\ f_writable x = Z.land omode O_WRONLY.

Lemma tri_open_file_free omode ip d :
  tri (fun s => data_of ip s = Some d /\ cur_free_fd s /\ is_Some (free_file (k_file s) 0)) (open_file kend ip omode) (has_access omode ip d).
Proof.
  unfold open_file. eapply tri_bind; [apply tri_filealloc_free|]. intros o s (f & -> & Hs). revert s Hs.
  eapply tri_bind; [apply tri_fdalloc_free|]. intros o s (fd & -> & Hs). rewrite <- run_bind. revert s Hs.
  eapply tri_bind with (Q := fun _ s => data_of ip s = Some d /\ is_file f s /\ has_fd fd f s).
  { intros s (Hd & Hf & (q & Hq & Hfd)). pose proof (settled_unlock ip s) as Hr. destruct (bind (kiunlock ip) _ s); try done.
    destruct Hr as (Hc & Hk & Hdd & Hp). eapply Forall2_lookup_l in Hp as (p' & Hp' & (_ & _ & Ho)); [|exact Hq].
    unfold is_file, has_fd. rewrite Hc, Hk, Hdd. split_and!; [done..|]. exists p'. by rewrite Ho. }
  intros [] s (Hd & [x Hx] & (p & Hp & Hfd)). unfold upd_file. rewrite run_modify.
  split; [lia|]. rewrite Nat2Z.id. eexists p, f, _. cbn. rewrite list_lookup_alter_eq, Hx. split_and!; done.
Qed.

(** C40: opening a file that exists with [O_CREATE] needs no permission: whatever
    the owner and the permission bits of the file and whoever the caller is, a
    call that returns has given the caller a descriptor with the access it
    asked for, as long as there are a free entry in the table of open files and
    a free descriptor. *)
Theorem open_create_unchecked s path omode ip d p s1 w1 r s' w :
  argstr 0 s = Ok (Some path) s [] -> argint 1 s = Ok (Some omode) s [] -> Z.land omode O_CREATE <> 0 ->
  (do* kbegin_op in names_inode path) s = Ok (Some ip) s1 w1 -> data_of ip s1 = Some d -> d_type d = T_FILE ->
  pl s1 !! k_cur s1 = Some p -> is_Some (free_fd (p_ofile p) 0) -> is_Some (free_file (k_file s1) 0) ->
  sys_open devsw kend s = Ok r s' w ->
  has_access omode ip d r s'.
Proof.
  intros Hpath Hom Hcr Hn Hd Ht Hp Hfd Hff. unfold sys_open. rewrite (run_Ok s _ _ _ Hpath), (run_Ok s _ _ _ Hom).
  apply run_seq_inv in Hn as ([] & s0 & w0 & w2 & Eb & En).
  destruct (create_existing _ _ _ _ _ p d En Hp Hd Ht) as (w3 & Ec).
  intros ([] & s0' & w4 & w5 & Eb' & E)%run_seq_inv. rewrite Eb in Eb'. injection Eb' as <- <-.
  rewrite (proj2 (truth_true _) Hcr) in E. apply run_seq_inv in E as (o & s1' & w6 & w7 & Ec' & E).
  rewrite Ec in Ec'. injection Ec' as <- <- _. pose proof (tri_open_file_free omode ip d s1) as Htri. rewrite E in Htri.
  apply Htri. split_and!; [done| |done]. by exists p.
Qed.
End open.
