(* ===== verification/Identity.v ===== *)
(** * Who a process is

    The kernel's access control rests on the user and group identities of
    processes.  A trap of an unprivileged process leaves the identities of all
    processes as they are, except that [fork] gives the child those of its
    parent and [exec] may change the effective user of the caller. *)

From S2P Require Import Prelude Triple CString SleepLock Bio Layout Log BlockLayer.
From S2P Require Import ProcDefs ProcTable Kalloc Vm Pipe Fs Kbd Console Kernel File SysArg.
From S2P Require Import Proc Exec Sysfile Sysproc Syscall KFrame FileRefs FileCalls.

Definition same_id (p p' : proc) : Prop :=
  p_uid p' = p_uid p /\ p_euid p' = p_euid p /\ p_ngroups p' = p_ngroups p /\ p_gids p' = p_gids p.

(** [exec] makes the effective user the real one, or the superuser. *)
Definition exec_id (p p' : proc) : Prop :=
  p_uid p' = p_uid p /\ p_ngroups p' = p_ngroups p /\ p_gids p' = p_gids p /\
  (p_euid p' = p_uid p \/ p_euid p' = 0).

#[export] Instance same_id_preorder : PreOrder same_id.
Proof.
  split; [done|]. intros p1 p2 p3 (A1 & A2 & A3 & A4) (B1 & B2 & B3 & B4). split_and!; congruence.
Qed.

(** How slot [i] may change while process [cur] runs: the slots [N] may become
    children of [p0], and if [X] the running process may execute a program. *)
Section id_step.
Context (N : nat -> Prop) (p0 : proc) (X : Prop).

Definition id_step (cur i : nat) (q q' : proc) : Prop :=
  same_id q q' \/ (N i /\ i <> cur /\ same_id p0 q') \/ (X /\ i = cur /\ exec_id q q').

#[export] Instance id_step_preorder cur i : PreOrder (id_step cur i).
Proof.
  split; [intros q; by left|].
  intros q1 q2 q3 [A|[A|A]] [B|[B|B]]; unfold id_step, same_id, exec_id in *; intuition congruence.
Qed.

Definition ids_kept (cur : nat) (l l' : list proc) : Prop :=
  length l' = length l /\
  forall i q q', l !! i = Some q -> l' !! i = Some q' -> id_step cur i q q'.

#[export] Instance ids_kept_preorder cur : PreOrder (ids_kept cur).
Proof.
  split.
  - intros l. split; [done|]. intros i q q' H1 H2. assert (q' = q) as -> by congruence. reflexivity.
  - intros l1 l2 l3 [L1 H1] [L2 H2]. split; [lia|]. intros i q q' Hq Hq'.
    destruct (lookup_lt_is_Some_2 l2 i) as [q2 Hq2]; [apply lookup_lt_Some in Hq; lia|].
    transitivity q2; eauto.
Qed.

Lemma ids_alter cur f i l : (forall p, id_step cur i p (f p)) -> ids_kept cur l (alter f i l).
Proof.
  intros Hf. split; [by rewrite length_alter|].
  intros j p p' Hp Hp'. destruct (decide (j = i)) as [->|Hne].
  - rewrite list_lookup_alter_eq, Hp in Hp'. injection Hp' as <-. apply Hf.
  - rewrite list_lookup_alter_ne in Hp' by done. assert (p' = p) as -> by congruence. reflexivity.
Qed.

Lemma ids_wakeup1 cur c l : ids_kept cur l (wakeup1 c l).
Proof.
  split; [apply length_fmap|]. intros i q q' Hq. rewrite wakeup1_lookup, Hq. intros [= <-]. left.
  unfold awaken. by destruct (_ && _).
Qed.
Lemma ids_wakeups cur w l : ids_kept cur l (wakeups w l).
Proof.
  unfold wakeups. revert l. induction w as [|c w IH]; intros l; cbn [foldl]; [reflexivity|].
  transitivity (wakeup1 (Some c) l); [apply ids_wakeup1|apply IH].
Qed.
Lemma ids_reparent cur k j me init l : ids_kept cur l (reparent k j me init l).
Proof.
  revert j l. induction k as [|k IH]; intros j l; cbn [reparent]; [reflexivity|].
  destruct (l !! j) as [p|] eqn:Hj; [|reflexivity].
  destruct (bool_decide (p_parent p = Some me)); [|apply IH].
  assert (H1 : ids_kept cur l (<[j := p_with_parent init p]> l)).
  { replace (<[j := p_with_parent init p]> l) with (alter (p_with_parent init) j l)
      by (by apply alter_as_insert). apply ids_alter. by left. }
  etransitivity; [exact H1|]. destruct (bool_decide (p_state p = ZOMBIE)); [|apply IH].
  etransitivity; [apply ids_wakeup1|apply IH].
Qed.

(** On the process table. *)
Definition tids (cur : nat) (t t' : ptab) : Prop := ids_kept cur (pt_proc t) (pt_proc t').
#[export] Instance tids_preorder cur : PreOrder (tids cur).
Proof. split; [intros t|intros t1 t2 t3 H1 H2]; unfold tids in *; [reflexivity|by transitivity (pt_proc t2)]. Qed.

Lemma tids_upd cur i f : (forall p, id_step cur i p (f p)) -> rel (tids cur) (upd_proc i f).
Proof. intros Hf. apply rel_modify. intros t. by apply ids_alter. Qed.
Lemma tids_read cur i : rel (tids cur) (read_proc i).
Proof. unfold read_proc. frame. Qed.
End id_step.

#[export] Hint Resolve tids_upd tids_read : frame.
#[export] Hint Extern 2 (id_step _ _ _ _ _ _ _) => (left; first [done | by case_match]) : frame.
#[export] Hint Extern 2 (forall _ : proc, id_step _ _ _ _ _ _ _) =>
  (intros ?; left; first [done | by case_match]) : frame.

Section ids.
Context {B : Type} `{BlockOps B} (kend kdata : Z).
Abbreviation K := (kstate B console).
Abbreviation pl s := (pt_proc (k_ptab s)).
Context (N : nat -> Prop) (p0 : proc) (X : Prop).
Abbreviation tids := (tids N p0 X).
Abbreviation ids_kept := (ids_kept N p0 X).
Abbreviation id_step := (id_step N p0 X).

Lemma tids_wait_pass cur me : rel (tids cur) (wait_pass me).
Proof. unfold wait_pass. frame. Qed.
Lemma tids_kill cur pid : rel (tids cur) (kill pid).
Proof. unfold kill. frame. Qed.
Lemma tids_alloc cur : rel (tids cur) alloc_slot.
Proof. unfold alloc_slot. frame. apply rel_modify. intros t. unfold Identity.tids. cbn. reflexivity. Qed.
Lemma tids_exit cur me : rel (tids cur) (exit_table me).
Proof.
  unfold exit_table. frame; apply rel_modify; intros t; [apply ids_wakeup1|apply ids_reparent].
Qed.

Definition same_ids (s s' : K) : Prop := k_cur s' = k_cur s /\ ids_kept (k_cur s) (pl s) (pl s').

#[export] Instance same_ids_kframe : KFrame same_ids.
Proof.
  assert (Hrefl : forall cur l, ids_kept cur l l) by reflexivity.
  constructor; try (by intros; split; [done|apply Hrefl]).
  - split; [by intros s; split|]. intros s1 s2 s3 [A1 A2] [B1 B2]. split; [congruence|].
    rewrite A1 in B2. by transitivity (pl s2).
  - intros w s. split; [done|]. apply ids_wakeups.
Qed.

Lemma ids_on_ptab {A} (m : M ptab A) : (forall cur, rel (tids cur) m) -> rel same_ids (on_ptab m).
Proof.
  intros Hm. apply rel_deliver; [apply _|]. intros s. specialize (Hm (k_cur s) (k_ptab s)). unfold zoom.
  destruct (m (k_ptab s)); done.
Qed.
Lemma ids_upd_myproc f : (forall p cur, id_step cur cur p (f p)) -> rel same_ids (upd_myproc f).
Proof.
  intros Hf s. unfold upd_myproc. rewrite run_get, on_ptab_upd. split; [done|]. cbn. by apply ids_alter.
Qed.
Lemma ids_upd_myproc_same f : (forall p, same_id p (f p)) -> rel same_ids (upd_myproc f).
Proof. intros Hf. apply ids_upd_myproc. intros. by left. Qed.
Lemma ids_upd_file f g : rel same_ids (upd_file f g).
Proof. apply rel_modify. intros s. split; [done|]. cbn. reflexivity. Qed.
#[local] Hint Resolve ids_on_ptab ids_upd_myproc_same ids_upd_file tids_wait_pass tids_kill tids_alloc tids_exit : frame.
#[local] Hint Extern 2 (forall _ : proc, same_id _ _) => (intros ?; first [done | by case_match]) : frame.

Lemma ids_filealloc : rel same_ids filealloc.
Proof. unfold filealloc. frame. Qed.
Lemma ids_filedup f : rel same_ids (filedup f).
Proof. unfold filedup. frame. Qed.
Lemma ids_fileclose f : rel same_ids (fileclose kend f).
Proof. unfold fileclose. frame. Qed.
Lemma ids_fileread f n : rel same_ids (fileread console_devsw f n).
Proof. unfold fileread. frame. Qed.
Lemma ids_filewrite f src n : rel same_ids (filewrite console_devsw f src n).
Proof.
  unfold filewrite. frame. generalize 0. induction (S _) as [|k IH]; intros i; cbn [filewrite_loop]; frame.
Qed.
Lemma ids_set_fd fd f : rel same_ids (set_fd fd f).
Proof. unfold set_fd. frame. Qed.
#[local] Hint Resolve ids_filealloc ids_filedup ids_fileclose ids_fileread ids_filewrite ids_set_fd : frame.
Lemma ids_fdalloc f : rel same_ids (fdalloc f).
Proof. unfold fdalloc. frame. Qed.
Lemma ids_pipealloc : rel same_ids (pipealloc kend).
Proof. unfold pipealloc. frame. Qed.
#[local] Hint Resolve ids_fdalloc ids_pipealloc : frame.
Lemma ids_open_file ip m : rel same_ids (open_file kend ip m).
Proof. unfold open_file. frame. Qed.
Lemma ids_allocproc : rel same_ids allocproc.
Proof. unfold allocproc. frame. Qed.
Lemma ids_dup_files np i l : rel same_ids (dup_files np i l).
Proof. revert i. induction l as [|[f|] l IH]; intros i; cbn [dup_files]; frame. Qed.
Lemma ids_close_files k fd : rel same_ids (close_files kend k fd).
Proof. revert fd. induction k as [|k IH]; intros fd; cbn [close_files]; frame. Qed.
Lemma ids_growproc n : rel same_ids (growproc kend n).
Proof. unfold growproc. frame. Qed.
#[local] Hint Resolve ids_open_file ids_allocproc ids_dup_files ids_close_files ids_growproc : frame.
Lemma ids_exit : rel same_ids (exit kend).
Proof. unfold exit. frame. Qed.
Lemma ids_wait : rel same_ids (wait kend).
Proof. unfold wait. frame. Qed.
#[local] Hint Resolve ids_exit ids_wait : frame.

Lemma ids_loaduvm pgdir addr ip off sz : rel same_ids (loaduvm console_devsw pgdir addr ip off sz).
Proof.
  unfold loaduvm. frame. generalize 0. induction (S _) as [|k IH]; intros i; cbn [loaduvm_loop]; frame.
Qed.
#[local] Hint Resolve ids_loaduvm : frame.
Lemma ids_exec_load k pgdir ip off sz : rel same_ids (exec_load console_devsw kend k pgdir ip off sz).
Proof. revert off sz. induction k as [|k IH]; intros off sz; cbn [exec_load]; frame. Qed.
Lemma ids_push_args argv argc pgdir sp acc : rel same_ids (push_args argv argc pgdir sp acc).
Proof. revert argc sp acc. induction argv as [|a argv IH]; intros argc sp acc; cbn [push_args]; frame. Qed.
Lemma ids_exec_bad pgdir ip : rel same_ids (exec_bad kend pgdir ip).
Proof. unfold exec_bad. frame. Qed.
#[local] Hint Resolve ids_exec_load ids_push_args ids_exec_bad : frame.
Lemma ids_exec path argv : X -> rel same_ids (exec console_devsw kend kdata path argv).
Proof.
  intros HX. assert (Hx : forall pgdir sz tf setuid, rel same_ids (upd_myproc (fun p =>
            p_with_ids (p_uid p) (if setuid : bool then 0 else p_uid p)
              (p_with_tf (tf p) (p_with_sz sz (p_with_pgdir pgdir p)))))).
  { intros pgdir sz tf setuid. apply ids_upd_myproc. intros p cur. right. right. split_and!; [done..|].
    unfold exec_id. cbn. destruct setuid; tauto. }
  unfold exec, exec_stack. frame.
Qed.
#[local] Hint Resolve ids_exec : frame.

(** *** System calls *)

(** All but [fork], [exec], [setuid] and [setgrps]. *)
Definition plain (k : nat) : Prop := k <> 0%nat /\ k <> 6%nat /\ k <> 23%nat /\ k <> 31%nat.
Lemma ids_plain k f : syscalls kend kdata !! k = Some f -> plain k -> rel same_ids f.
Proof.
  intros Hf (H0 & H6 & H23 & H31).
  do 32 (destruct k as [|k]; [first [done | injection Hf as <-;
    unfold sys_exit, sys_wait, sys_pipe, sys_read, sys_kill, kkill, sys_fstat, sys_chdir, sys_dup, sys_getpid,
      sys_sbrk, sys_sleep, sleep_pass, sys_uptime, sys_open, sys_write, sys_mknod, sys_unlink, unlink_bad,
      sys_link, sys_mkdir, sys_close, sys_getuid, sys_geteuid, sys_chmod, sys_chown, on_console,
      sys_lseek, sys_trim; solve [frame]]|]). done.
Qed.

Lemma tri_ids {A} s0 (Q : K -> Prop) (m : M K A) :
  (forall s, Q s -> same_ids s0 s) -> rel same_ids m -> tri Q m (fun _ s => same_ids s0 s).
Proof.
  intros HQ Hm s Hs. specialize (Hm s). destruct (m s); try done. transitivity s; [by apply HQ|done].
Qed.

(** The state at the start of a system call of an unprivileged process: slots
    outside [N] are in use, and the caller is as [p0]. *)
Definition calling (s0 s : K) : Prop :=
  same_ids s0 s /\ (forall i q, pl s !! i = Some q -> p_state q = UNUSED -> N i) /\
  exists p, pl s !! k_cur s = Some p /\ p_state p <> UNUSED /\ p_euid p <> 0 /\ same_id p0 p.

Lemma tri_unprivileged s0 (m : M K Z) :
  tri (calling s0) (let* p := myproc in if p_euid p =? 0 then m else ret (-1)) (fun _ s => same_ids s0 s).
Proof.
  eapply tri_bind; [apply (tri_myproc (calling s0))|]. intros p s [(Hs & _ & q & Hq & _ & He & _) Hp].
  assert (q = p) by congruence. subst q. apply Z.eqb_neq in He. by rewrite He.
Qed.

Definition new_slot (s0 : K) (r : option nat) : Prop :=
  match r with Some np => N np /\ np <> k_cur s0 | None => True end.

Lemma tri_alloc_new s0 :
  tri (calling s0) (on_ptab alloc_slot) (fun r s => new_slot s0 r /\ same_ids s0 s).
Proof.
  intros s (Hs & HN & p & Hp & Hst & _). unfold on_ptab.
  pose proof (ids_on_ptab alloc_slot tids_alloc s) as Hr. unfold on_ptab in Hr. revert Hr.
  unfold deliver, zoom, alloc_slot. rewrite run_get.
  pose proof (unused_slot_cases (pl s) 0) as Hu. destruct (unused_slot (pl s) 0) as [np|].
  - destruct Hu as (_ & q & Hq & Hqs). rewrite Nat.sub_0_r in Hq. unfold upd_proc. rewrite !run_modify. cbn.
    intros Hr. split; [|by transitivity s]. split; [by eapply HN|]. intros ->. destruct Hs as [Hc _]. congruence.
  - cbn. intros Hr. split; [done|by transitivity s].
Qed.

Abbreviation going s0 m := (tri (same_ids s0) m (fun _ s => same_ids s0 s)).

Lemma going_rel {A} s0 (m : M K A) : rel same_ids m -> going s0 m.
Proof. by apply tri_ids. Qed.

(** Giving the child its identity. *)
Lemma going_child s0 np p f :
  new_slot s0 (Some np) -> same_id p0 p -> (forall q, same_id p (f q)) ->
  going s0 (on_ptab (upd_proc np f)).
Proof.
  intros [HN Hne] Hp Hf s Hs. rewrite on_ptab_upd. transitivity s; [done|]. split; [done|]. cbn. apply ids_alter.
  destruct Hs as [Hc _]. intros q. right. left. split_and!; [done|congruence|by transitivity p].
Qed.

Lemma tri_alloc_child s0 : tri (calling s0) allocproc (fun r s => new_slot s0 r /\ same_ids s0 s).
Proof.
  unfold allocproc. eapply tri_bind; [apply tri_alloc_new|]. intros [np|]; [|by apply tri_ret].
  apply tri_pure. intros Hnp. do 2 (eapply tri_bind; [apply going_rel; frame|intros ?]). case_match.
  - eapply tri_bind; [apply going_rel; frame|intros []]. by apply tri_ret.
  - by apply tri_ret.
Qed.

Lemma tri_fork s0 : tri (calling s0) (fork kend kdata) (fun _ s => same_ids s0 s).
Proof.
  unfold fork. eapply tri_bind; [apply (tri_get _ (fun _ => calling s0)); by intros|]. intros s1.
  eapply tri_bind; [apply (tri_myproc (calling s0))|]. intros p.
  eapply tri_conseq with (P' := fun s => same_id p0 p /\ calling s0 s); [| |intros a s Hs; exact Hs].
  2:{ intros s [Hs Hp]. split; [|done]. destruct Hs as (_ & _ & q & Hq & _ & _ & Hid). congruence. }
  apply tri_pure. intros Hid. eapply tri_bind; [apply tri_alloc_child|].
  intros [np|]; apply tri_pure; intros Hnp; [|by apply tri_ret].
  do 3 (eapply tri_bind; [apply going_rel; frame|intros ?]).
  case_match; [apply going_rel; frame|]. eapply tri_bind; [by apply (going_child s0 np p)|intros []].
  apply going_rel. frame.
Qed.

Lemma tri_set_tf s0 tf :
  tri (calling s0) (upd_myproc (p_with_tf tf)) (fun _ s => calling s0 s /\
    forall p, pl s !! k_cur s = Some p -> p_tf p = tf).
Proof.
  intros s (Hs & HN & p & Hp & Hrest). unfold upd_myproc, calling. rewrite run_get, on_ptab_upd.
  split_and!.
  - transitivity s; [done|]. split; [done|]. cbn. apply ids_alter. by left.
  - intros i q. cbn. destruct (decide (i = k_cur s)) as [->|Hne].
    + rewrite list_lookup_alter_eq, Hp. intros [= <-]. by destruct Hrest.
    + rewrite list_lookup_alter_ne by done. apply HN.
  - exists (p_with_tf tf p). cbn. by rewrite list_lookup_alter_eq, Hp.
  - cbn. intros q. rewrite list_lookup_alter_eq, Hp. by intros [= <-].
Qed.

(** The number of the system call, while [exec] needs [X]. *)
Lemma tri_ids_syscall s0 k f :
  (k = 6%nat -> X) -> syscalls kend kdata !! k = Some f -> tri (calling s0) f (fun _ s => same_ids s0 s).
Proof.
  intros HX Hf. assert (Hs0 : forall s, calling s0 s -> same_ids s0 s) by (by intros s [? _]).
  destruct (decide (plain k)) as [Hk|Hk]; [apply tri_ids; [done|by eapply ids_plain]|].
  assert (k = 0 \/ k = 6 \/ k = 23 \/ k = 31)%nat as [->|[->|[->| ->]]] by (unfold plain in Hk; lia);
    injection Hf as <-.
  - apply tri_fork.
  - apply tri_ids; [done|]. pose proof (HX eq_refl) as HX'. unfold sys_exec. frame.
  - apply tri_unprivileged.
  - apply tri_unprivileged.
Qed.

Lemma tri_ids_call s0 tf :
  (s32 (tf_eax tf) = 7 -> X) ->
  tri (calling s0) (do* upd_myproc (p_with_tf tf) in syscall kend kdata) (fun _ s => same_ids s0 s).
Proof.
  intros HX. eapply tri_bind; [apply tri_set_tf|]. intros []. unfold syscall.
  eapply tri_bind; [apply tri_myproc|]. intros p.
  eapply tri_conseq with (P' := fun s => p_tf p = tf /\ calling s0 s); [| |intros a s Hs; exact Hs].
  2:{ intros s [[Hs Htf] Hp]. split; [by apply Htf|done]. }
  apply tri_pure. intros ->. case_match.
  - eapply tri_bind with (Q := fun f s => syscalls kend kdata !! Z.to_nat (s32 (tf_eax tf) - 1) = Some f /\ calling s0 s).
    { apply tri_deref. by intros. }
    intros f. apply tri_pure. intros Hf. eapply tri_bind; [eapply tri_ids_syscall; [|exact Hf]|].
    + intros E. apply HX. lia.
    + intros r. apply going_rel. frame.
  - apply tri_ids; [by intros s [? _]|]. frame.
Qed.

Lemma ids_exit_if_killed k : rel same_ids k -> rel same_ids (exit_if_killed kend k).
Proof. intros Hk. unfold exit_if_killed. frame. Qed.

Lemma tri_ids_trap s0 tf cpu dev :
  (tf_trapno tf = T_SYSCALL -> s32 (tf_eax tf) = 7 -> X) ->
  tri (calling s0) (trap kend kdata tf cpu dev) (fun _ s => same_ids s0 s).
Proof.
  intros HX. unfold trap. case_match eqn:E.
  - unfold trap_syscall, exit_if_killed at 1. eapply tri_bind; [apply (tri_myproc (calling s0))|]. intros p.
    case_match; [apply tri_ids; [by intros s [[? _] _]|frame]|].
    intros s [Hs _]. rewrite <- run_bind. revert s Hs. eapply tri_bind; [apply tri_ids_call|]; [|intros []].
    + apply HX. by apply Z.eqb_eq.
    + apply going_rel. frame. apply ids_exit_if_killed. frame.
  - apply tri_ids; [by intros s [? _]|]. apply rel_bind; [apply _| |].
    + unfold trap_irq, on_console. frame. apply rel_deliver; [apply _|]. frame. apply rel_modify.
      intros s. apply kf_ticks.
    + intros []. cbv zeta. case_match; [apply ids_exit_if_killed|]; frame.
Qed.
End ids.

(** C3: only [exec] gives privileges.  A trap of a process that is not
    privileged leaves the user and group identities of every process as they
    were, except that a child it makes has its own identity, and that when the
    trap is the system call [exec] the caller's effective user may become its
    real user or the superuser. *)
Theorem trap_identity {B} `{BlockOps B} kend kdata tf cpu dev (s : kstate B console) a s' w p i q q' :
  pt_proc (k_ptab s) !! k_cur s = Some p -> p_state p = RUNNING -> p_euid p <> 0 ->
  trap kend kdata tf cpu dev s = Ok a s' w ->
  pt_proc (k_ptab s) !! i = Some q -> pt_proc (k_ptab s') !! i = Some q' ->
  same_id q q' \/
  (p_state q = UNUSED /\ same_id p q') \/
  (tf_trapno tf = T_SYSCALL /\ s32 (tf_eax tf) = 7 /\ i = k_cur s /\ exec_id q q').
Proof.
  intros Hp Hst He E Hq Hq'.
  set (N := fun i => exists q, pt_proc (k_ptab s) !! i = Some q /\ p_state q = UNUSED).
  set (X := tf_trapno tf = T_SYSCALL /\ s32 (tf_eax tf) = 7).
  assert (Hc : calling N p X s s).
  { split; [reflexivity|]. split; [intros j r Hr Hu; by exists r|]. exists p. split_and!; [done|congruence|done..]. }
  pose proof (tri_ids_trap kend kdata N p X s tf cpu dev (fun H1 H2 => conj H1 H2) s Hc) as Ht.
  rewrite E in Ht. destruct Ht as (_ & _ & Hk).
  destruct (Hk i q q' Hq Hq') as [?|[([r [Hr Hu]] & _ & ?)|([? ?] & ? & ?)]]; [by left| |by right; right].
  right. left. split; [|done]. congruence.
Qed.
