(* ===== verification/UserSys.v ===== *)
(** * What user programs get from the kernel

    The system calls that the user library builds on, as an interface, with
    what it relies on: regular files are sequences of bytes with names,
    descriptors are positions in them.  Writing assumes that the disk does not
    fill up. *)

From S2P Require Import Prelude CString.

Class UserSys (W : Type) := {
  us_open : list Z -> Z -> M W Z;
  us_close : Z -> M W Z;
  us_read : Z -> Z -> M W (Z * list Z);      (* the result and the bytes stored *)
  us_write : Z -> list Z -> M W Z;
  us_lseek : Z -> Z -> Z -> M W Z;
  us_trim : Z -> M W Z;
  us_unlink : list Z -> M W Z;
  us_chdir : list Z -> M W Z;
  us_mkdir : list Z -> M W Z;
  us_chown : list Z -> Z -> Z -> M W Z;
  us_getuid : M W Z }.

Record dirinfo := DirInfo { di_uid : Z; di_gid : Z; di_mode : Z }.

(** Files by number, their names, the descriptors as file and offset, which
    opens of files the kernel permits (none where a directory is), the real and
    the effective user of the process, and the directories it can reach, by
    their absolute paths; the path of the root directory is empty. *)
Record uview := UView {
  uv_name : gmap (list Z) nat;
  uv_data : gmap nat (list Z);
  uv_fd : gmap Z (nat * Z);
  uv_may : list Z -> Z -> bool;
  uv_uid : Z;
  uv_euid : Z;
  uv_dir : gmap (list Z) dirinfo }.

Definition uv_set_fd (fd : Z) (f : nat) (off : Z) (v : uview) : uview :=
  UView (uv_name v) (uv_data v) (<[fd := (f, off)]> (uv_fd v)) (uv_may v) (uv_uid v) (uv_euid v) (uv_dir v).
Definition uv_close (fd : Z) (v : uview) : uview :=
  UView (uv_name v) (uv_data v) (delete fd (uv_fd v)) (uv_may v) (uv_uid v) (uv_euid v) (uv_dir v).
Definition uv_store (f : nat) (d : list Z) (v : uview) : uview :=
  UView (uv_name v) (<[f := d]> (uv_data v)) (uv_fd v) (uv_may v) (uv_uid v) (uv_euid v) (uv_dir v).
Definition uv_bind (path : list Z) (f : nat) (v : uview) : uview :=
  UView (<[path := f]> (uv_name v)) (uv_data v) (uv_fd v) (uv_may v) (uv_uid v) (uv_euid v) (uv_dir v).
Definition uv_unbind (path : list Z) (v : uview) : uview :=
  UView (delete path (uv_name v)) (uv_data v) (uv_fd v) (uv_may v) (uv_uid v) (uv_euid v) (uv_dir v).

(** The bytes at an offset, and storing bytes there. *)
Definition bytes_at (off n : Z) (d : list Z) : list Z := take (Z.to_nat n) (drop (Z.to_nat off) d).

Definition u_RDONLY : Z := 4.
Definition u_RDWR : Z := 6.
Definition u_CREATE : Z := 56.
Definition u_SEEK_SET : Z := 0.
Definition u_SEEK_END : Z := 2.

Class UserSysSpec (W : Type) `{UserSys W} := {
  us_rep : W -> uview -> Prop;

  (** A file that exists: if it may not be opened, -1. *)
  us_open_old : forall w v path f mode,
    us_rep w v -> uv_name v !! path = Some f -> mode = u_RDONLY \/ mode = u_RDWR ->
    wp (us_open path mode) (fun fd w' =>
      if uv_may v path mode
      then 0 <= fd /\ uv_fd v !! fd = None /\ us_rep w' (uv_set_fd fd f 0 v)
      else fd = -1 /\ us_rep w' v) w;
  (** A new file. *)
  us_open_new : forall w v path,
    us_rep w v -> uv_name v !! path = None -> uv_may v path (Z.lor u_CREATE u_RDWR) = true ->
    wp (us_open path (Z.lor u_CREATE u_RDWR)) (fun fd w' =>
      exists f, 0 <= fd /\ uv_fd v !! fd = None /\ uv_data v !! f = None /\
        us_rep w' (uv_set_fd fd f 0 (uv_bind path f (uv_store f [] v)))) w;
  us_close_spec : forall w v fd f off,
    us_rep w v -> uv_fd v !! fd = Some (f, off) ->
    wp (us_close fd) (fun r w' => r = 0 /\ us_rep w' (uv_close fd v)) w;
  (** Past the end [read] fails, as [readi] does. *)
  us_read_spec : forall w v fd f off d n,
    us_rep w v -> uv_fd v !! fd = Some (f, off) -> uv_data v !! f = Some d -> 0 <= off -> 0 < n ->
    wp (us_read fd n) (fun '(r, l) w' =>
      if off <=? Z.of_nat (length d)
      then l = bytes_at off n d /\ r = Z.of_nat (length l) /\
           us_rep w' (uv_set_fd fd f (off + Z.of_nat (length l)) v)
      else r = -1 /\ l = [] /\ us_rep w' v) w;
  us_write_spec : forall w v fd f off d l,
    us_rep w v -> uv_fd v !! fd = Some (f, off) -> uv_data v !! f = Some d ->
    0 <= off <= Z.of_nat (length d) ->
    wp (us_write fd l) (fun r w' => r = Z.of_nat (length l) /\
      us_rep w' (uv_set_fd fd f (off + Z.of_nat (length l))
        (uv_store f (take (Z.to_nat off) d ++ l ++ drop (Z.to_nat off + length l) d) v))) w;
  us_seek_set : forall w v fd f off n,
    us_rep w v -> uv_fd v !! fd = Some (f, off) -> 0 <= n ->
    wp (us_lseek fd n u_SEEK_SET) (fun _ w' => us_rep w' (uv_set_fd fd f n v)) w;
  us_seek_end : forall w v fd f off d,
    us_rep w v -> uv_fd v !! fd = Some (f, off) -> uv_data v !! f = Some d ->
    wp (us_lseek fd 0 u_SEEK_END) (fun _ w' => us_rep w' (uv_set_fd fd f (Z.of_nat (length d)) v)) w;
  us_trim_spec : forall w v fd f off d,
    us_rep w v -> uv_fd v !! fd = Some (f, off) -> uv_data v !! f = Some d ->
    0 <= off <= Z.of_nat (length d) ->
    wp (us_trim fd) (fun _ w' => us_rep w' (uv_store f (take (Z.to_nat off) d) v)) w;
  us_unlink_spec : forall w v path f,
    us_rep w v -> uv_name v !! path = Some f ->
    wp (us_unlink path) (fun _ w' => us_rep w' (uv_unbind path v)) w;
  us_chdir_spec : forall w v path,
    us_rep w v -> wp (us_chdir path) (fun r w' => r <= 0 /\ us_rep w' v) w;
  us_getuid_spec : forall w v,
    us_rep w v -> wp us_getuid (fun r w' => r = uv_uid v /\ us_rep w' v) w }.
