(* ===== verification/Ufile.v ===== *)
(** * Files of lines

    [getline], [addline] and [changeline] of [user/ufile.c], which read and
    edit the user and group databases a line at a time, and
    [findstrinsetdivsep].

    Buffers that C leaves uninitialised hold arbitrary bytes: [junk] the local
    buffer of [getline] and [past] the byte behind it, which its loop reads
    before anything is stored there; [heap] fresh memory of [malloc]. *)

From S2P Require Import Prelude CString UserSys.

Definition BUFSIZE : nat := 128.

Section ufile.
Context {W : Type} `{UserSys W} (junk : list Z) (past : Z) (heap : nat -> Z).

Definition malloc_bytes (n : nat) : list Z := heap <$> seq 0 n.

(** [realloc]: sizes are multiplied by [sizeof(ptr)], so that the copy reads
    beyond the old block, whose neighbours hold arbitrary bytes. *)
Definition realloc_bytes (ptr : list Z) (originalbytes nbytes : nat) : list Z :=
  let n := ((originalbytes + nbytes) * 4)%nat in
  take n ptr ++ (heap <$> seq (length ptr) (n - length ptr)).

Definition store_at (l : list Z) (i : nat) (c : Z) : M W (list Z) :=
  if (i <? length l)%nat then ret (<[i := c]> l) else fault "buffer overrun".

(** The loop: [buf[i..n]] is unread, [line[..lineptr]] is done. *)
Fixpoint getline_loop (fuel : nat) (fd : Z) (buf : list Z) (i n : nat) (line : list Z)
    (linesize lineptr : nat) (offset : Z) : M W (Z * (list Z * nat * Z)) :=
  match fuel with
  | O => fault "fuel"
  | S fuel =>
      let c := if (i <? BUFSIZE)%nat then nth i buf 0 else past in
      if c =? 10 then
        let* line := store_at line lineptr 0 in
        ret (0, (line, linesize, offset + Z.of_nat (S lineptr)))
      else if (n <=? i)%nat then
        let* (r, l) := us_read fd (Z.of_nat BUFSIZE) in
        if r <=? 0 then
          if (lineptr =? 0)%nat then ret (-1, (line, linesize, offset)) else
          let* line := store_at line lineptr 0 in
          ret (0, (line, linesize, offset + Z.of_nat (S lineptr)))
        else
          let n := length l in
          let buf := l ++ drop n buf in
          let buf := if (n <? BUFSIZE)%nat then <[n := 0]> buf else buf in
          getline_loop fuel fd buf 0 n line linesize lineptr offset
      else
        let '(line, linesize) :=
          if (linesize <=? lineptr + 2)%nat
          then (realloc_bytes line linesize linesize, (linesize * 2)%nat) else (line, linesize) in
        let* line := store_at line lineptr c in
        getline_loop fuel fd buf (S i) n line linesize (S lineptr) offset
  end.

Definition getline (fuel : nat) (fd : Z) (line : list Z) (linesize : nat) (offset : Z) :
    M W (Z * (list Z * nat * Z)) :=
  do* us_lseek fd offset u_SEEK_SET in
  getline_loop fuel fd junk 0 0 line linesize 0 offset.

Definition addline (fd : Z) (line : list Z) : M W Z :=
  do* us_lseek fd 0 u_SEEK_END in
  do* us_write fd [10] in
  do* us_write fd line in
  ret 0.

(** Copy from [src] to [dst] until [read] gives nothing; [n], [buf] are the
    result of the last [read].  Returns the number of bytes copied. *)
Fixpoint copy_rest (fuel : nat) (src dst : Z) (n : Z) (buf : list Z) (total : Z) : M W Z :=
  if 0 <? n then
    match fuel with
    | O => fault "fuel"
    | S fuel =>
        do* us_write dst buf in
        let* (n', buf') := us_read src (Z.of_nat BUFSIZE) in
        copy_rest fuel src dst n' buf' (total + n)
    end
  else ret total.

Definition tempfile (file : list Z) : list Z := file ++ [116; 109; 112].

Definition changeline (fuel : nat) (fd : Z) (line : list Z) (file : list Z) (offset oldlength : Z) :
    M W (Z * Z) :=
  let* fdtemp := us_open (tempfile file) (Z.lor u_CREATE u_RDWR) in
  let newsize := offset - oldlength - 1 in
  do* us_lseek fd offset u_SEEK_SET in
  let* (n, buf) := us_read fd (Z.of_nat BUFSIZE) in
  do* us_write fdtemp line in
  do* when 0 <? n then (do* us_write fdtemp [10] in ret tt) in
  do* copy_rest fuel fd fdtemp n buf 0 in
  let offset := newsize + Z.of_nat (length line) + 1 in
  do* us_lseek fdtemp 0 u_SEEK_SET in
  do* us_lseek fd newsize u_SEEK_SET in
  let* (n, buf) := us_read fdtemp (Z.of_nat BUFSIZE) in
  let* copied := copy_rest fuel fdtemp fd n buf 0 in
  do* us_lseek fd (newsize + copied) u_SEEK_SET in
  do* us_trim fd in
  do* us_close fdtemp in
  do* us_unlink (tempfile file) in
  ret (0, offset).
End ufile.

(** The length of the segment at [p], its separator included. *)
Definition segment_length (p : list Z) (sep : Z) : Z :=
  match strchr p sep with Some n => n + 1 | None => strlen p + 1 end.

Definition NOTFOUND : Z := -1.

Fixpoint findstr_loop (fuel : nat) (str set : list Z) (sep : Z) (length i : Z) : Z :=
  if i <? length then
    match fuel with
    | O => NOTFOUND
    | S fuel =>
        let p := drop (Z.to_nat i) set in
        let n := segment_length p sep in
        if strcmp (safestrcpy p n) str =? 0 then i
        else findstr_loop fuel str set sep length (i + n)
    end
  else NOTFOUND.

(** Every segment is at least one byte long. *)
Definition findstrinsetdivsep (str set : list Z) (sep : Z) : Z :=
  findstr_loop (Z.to_nat (strlen set)) str set sep (strlen set) 0.
