(* ===== verification/UfileSpec.v ===== *)
(** * Reading and editing a file of lines

    [getline] returns the line at the offset, and [changeline] replaces it. *)

From S2P Require Import Prelude CString UserSys Ufile.

(** The first line of some bytes. *)
Fixpoint first_line (l : list Z) : list Z :=
  match l with
  | [] => []
  | c :: l => if c =? 10 then [] else c :: first_line l
  end.

Section spec.
Context {W : Type} `{UserSysSpec W} (junk : list Z) (past : Z) (heap : nat -> Z).

(** Reading from descriptor [fd] of file [f] moves its offset only. *)
Definition reading (w : W) (v : uview) (fd : Z) (f : nat) : Prop :=
  exists off, us_rep w (uv_set_fd fd f off v).

Lemma uv_set_fd_twice fd f off off' v : uv_set_fd fd f off (uv_set_fd fd f off' v) = uv_set_fd fd f off v.
Proof. unfold uv_set_fd. cbn. by rewrite insert_insert_eq. Qed.
Lemma uv_set_fd_lookup fd f off v : uv_fd (uv_set_fd fd f off v) !! fd = Some (f, off).
Proof. apply lookup_insert_eq. Qed.

(** The unread part of the buffer and of the file. *)
Definition unread (buf : list Z) (i n : nat) (d : list Z) (off : Z) : list Z :=
  take (n - i) (drop i buf) ++ drop (Z.to_nat off) d.

Definition line_done (r : Z * (list Z * nat * Z)) (acc R : list Z) (offset : Z) : Prop :=
  let '(code, (line, linesize, offset')) := r in
  (linesize <= length line)%nat /\ (BUFSIZE <= linesize)%nat /\
  if decide (acc ++ R = []) then code = -1 /\ offset' = offset
  else code = 0 /\ offset' = offset + Z.of_nat (S (length (acc ++ first_line R))) /\
       exists tl, line = (acc ++ first_line R) ++ 0 :: tl.

Lemma store_end (acc tl : list Z) c w (Q : list Z -> W -> Prop) :
  tl <> [] -> Q (acc ++ c :: tail tl) w -> wp (store_at (acc ++ tl) (length acc) c) Q w.
Proof.
  intros Ht HQ. unfold store_at. rewrite length_app. destruct tl as [|x tl]; [done|].
  assert (E : (length acc <? length acc + length (x :: tl))%nat = true) by (apply Nat.ltb_lt; cbn; lia).
  rewrite E. apply wp_ret. by rewrite insert_app_r_alt, Nat.sub_diag by lia.
Qed.

Lemma unread_cons buf i n d off :
  (i < n)%nat -> (n <= length buf)%nat -> unread buf i n d off = nth i buf 0 :: unread buf (S i) n d off.
Proof.
  intros Hi Hn. unfold unread. destruct (lookup_lt_is_Some_2 buf i) as [c Hc]; [lia|].
  rewrite (drop_S _ _ _ Hc), (nth_lookup_Some _ _ _ _ Hc).
  replace (n - i)%nat with (S (n - S i)) by lia. done.
Qed.
Lemma unread_end buf n d off : unread buf n n d off = drop (Z.to_nat off) d.
Proof. unfold unread. by rewrite Nat.sub_diag. Qed.

Lemma line_done_cons r acc c R offset :
  c <> 10 -> line_done r (acc ++ [c]) R offset -> line_done r acc (c :: R) offset.
Proof.
  intros Hc. apply Z.eqb_neq in Hc. destruct r as [code [[line linesize] offset']]. unfold line_done.
  cbn [first_line]. rewrite Hc, <- !app_assoc. cbn [app].
  done.
Qed.

(** Ending a line. *)
Lemma getline_end w v fd f acc tl linesize offset R :
  reading w v fd f -> (length acc + 1 < linesize)%nat -> (linesize <= length (acc ++ tl))%nat ->
  (BUFSIZE <= linesize)%nat -> first_line R = [] -> acc ++ R <> [] ->
  wp (let* line := store_at (acc ++ tl) (length acc) 0 in
      ret (0, (line, linesize, offset + Z.of_nat (S (length acc)))))
     (fun r w' => reading w' v fd f /\ line_done r acc R offset) w.
Proof.
  intros Hw Ha Hl Hb HR Hne. apply wp_bind. rewrite length_app in Hl. destruct tl as [|x tl]; [cbn in Hl; lia|].
  apply store_end; [done|]. apply wp_ret. split; [done|]. unfold line_done. rewrite HR, app_nil_r.
  rewrite length_app. cbn [tail length] in *. split_and!; [lia|done|]. case_decide; [done|]. eauto.
Qed.

(** Room for one more character. *)
Lemma realloc_room acc tl linesize :
  (length acc + 1 < linesize)%nat -> (linesize <= length (acc ++ tl))%nat -> (BUFSIZE <= linesize)%nat ->
  exists tl' linesize',
    (if (linesize <=? length acc + 2)%nat
     then (realloc_bytes heap (acc ++ tl) linesize linesize, (linesize * 2)%nat) else (acc ++ tl, linesize))
      = (acc ++ tl', linesize') /\
    (length acc + 2 < linesize')%nat /\ (linesize' <= length (acc ++ tl'))%nat /\ (BUFSIZE <= linesize')%nat.
Proof.
  intros Ha Hl Hb. destruct (Nat.leb_spec linesize (length acc + 2)) as [E|E]; [|by exists tl, linesize].
  unfold realloc_bytes. rewrite take_app, (take_ge acc) by lia.
  rewrite <- app_assoc. eexists _, _. split; [done|]. rewrite !length_app, length_fmap, length_seq, length_take in *.
  unfold BUFSIZE in *. lia.
Qed.

Lemma bytes_at_rest off n d :
  bytes_at off n d ++ drop (Z.to_nat off + length (bytes_at off n d)) d = drop (Z.to_nat off) d.
Proof.
  unfold bytes_at. rewrite <- drop_drop. set (L := drop (Z.to_nat off) d). rewrite length_take.
  destruct (Nat.le_ge_cases (Z.to_nat n) (length L)).
  - rewrite Nat.min_l by done. apply take_drop.
  - rewrite Nat.min_r, take_ge, drop_all, app_nil_r by done. done.
Qed.

(** The buffer after a [read]. *)
Definition refilled (l buf : list Z) : list Z :=
  let buf := l ++ drop (length l) buf in
  if (length l <? BUFSIZE)%nat then <[length l := 0]> buf else buf.

Lemma refilled_take l buf : (length l <= length buf)%nat -> take (length l) (refilled l buf) = l.
Proof.
  intros Hl. unfold refilled. case_match; [rewrite take_insert_ge by lia|]; by rewrite take_app_length.
Qed.
Lemma length_refilled l buf :
  (length l <= BUFSIZE)%nat -> length buf = BUFSIZE -> length (refilled l buf) = BUFSIZE.
Proof. intros Hl Hb. unfold refilled. case_match; len. Qed.

Lemma refilled_guard l buf :
  length buf = BUFSIZE -> past <> 10 ->
  (if (length l <? BUFSIZE)%nat then nth (length l) (refilled l buf) 0 else past) <> 10.
Proof.
  intros Hb Hp. unfold refilled. destruct (Nat.ltb_spec (length l) BUFSIZE); [|done].
  rewrite (nth_lookup_Some _ _ _ 0); [done|]. apply list_lookup_insert_eq. len.
Qed.

Lemma unread_refilled buf off d :
  let l := bytes_at off (Z.of_nat BUFSIZE) d in
  0 <= off -> length buf = BUFSIZE ->
  unread (refilled l buf) 0 (length l) d (off + Z.of_nat (length l)) = drop (Z.to_nat off) d.
Proof.
  intros l Hoff Hb. unfold unread. rewrite drop_0, Nat.sub_0_r, refilled_take.
  - replace (Z.to_nat (off + Z.of_nat (length l))) with (Z.to_nat off + length l)%nat by lia. apply bytes_at_rest.
  - rewrite Hb. unfold l, bytes_at. len.
Qed.

(** The state of the loop. *)
Record reading_line (v : uview) (fd : Z) (f : nat) (d : list Z) (w : W) (buf : list Z) (i n : nat) (off : Z)
    (acc tl : list Z) (linesize : nat) : Prop := {
  rl_rep : us_rep w (uv_set_fd fd f off v);
  rl_data : uv_data v !! f = Some d;
  rl_off : 0 <= off;
  rl_buf : length buf = BUFSIZE;
  rl_in : (i <= n <= BUFSIZE)%nat;
  rl_guard : (if (n <? BUFSIZE)%nat then nth n buf 0 else past) <> 10;
  rl_past : past <> 10;
  rl_room : (length acc + 1 < linesize)%nat;
  rl_line : (linesize <= length (acc ++ tl))%nat;
  rl_size : (BUFSIZE <= linesize)%nat }.

Definition loop_done v fd f acc R offset (r : Z * (list Z * nat * Z)) (w' : W) : Prop :=
  reading w' v fd f /\ line_done r acc R offset.

(** A round at the end of the buffer. *)
Lemma getline_read v fd f d offset fuel w buf n off acc tl linesize :
  reading_line v fd f d w buf n n off acc tl linesize ->
  (forall w' buf' m off', (0 < m)%nat -> reading_line v fd f d w' buf' 0 m off' acc tl linesize ->
     unread buf' 0 m d off' = drop (Z.to_nat off) d ->
     wp (getline_loop past heap fuel fd buf' 0 m (acc ++ tl) linesize (length acc) offset)
        (loop_done v fd f acc (drop (Z.to_nat off) d) offset) w') ->
  wp (getline_loop past heap (S fuel) fd buf n n (acc ++ tl) linesize (length acc) offset)
     (loop_done v fd f acc (drop (Z.to_nat off) d) offset) w.
Proof.
  intros [Hw Hd Hoff Hbuf Hi Hg Hpast Ha Hl Hb] IH. cbn [getline_loop].
  pose proof Hg as Hc. apply Z.eqb_neq in Hc. rewrite Hc, Nat.leb_refl. apply wp_bind.
  eapply wp_mono; [by apply (us_read_spec _ _ fd f off d _ Hw); [apply uv_set_fd_lookup|..]|].
  intros [r l] w'. rewrite uv_set_fd_twice. intros Hr.
  assert (Hw' : reading w' v fd f) by (destruct (off <=? _); destruct Hr as (_ & _ & ?); by eexists).
  destruct (Z.leb_spec r 0) as [Hr0|Hr0].
  - assert (ER : drop (Z.to_nat off) d = []).
    { apply nil_length_inv. rewrite length_drop. destruct (Z.leb_spec off (Z.of_nat (length d))); [|lia].
      destruct Hr as (-> & -> & _). unfold bytes_at, BUFSIZE in Hr0. rewrite length_take, length_drop in Hr0. lia. }
    rewrite ER. destruct (Nat.eqb_spec (length acc) 0) as [E0|E0].
    + apply wp_ret. split; [done|]. apply nil_length_inv in E0 as ->. by split_and!.
    + apply getline_end; try done. rewrite app_nil_r. by intros ->.
  - destruct (Z.leb_spec off (Z.of_nat (length d))); [|lia]. destruct Hr as (El & -> & Hw'').
    assert (Hlen : (0 < length l <= BUFSIZE)%nat) by (subst l; unfold bytes_at in *; rewrite length_take in *; lia).
    apply (IH w' (refilled l buf) (length l) (off + Z.of_nat (length l))); [lia| |].
    + constructor; try done; [lia|apply length_refilled; [lia|done]|lia|by apply refilled_guard].
    + subst l. by apply unread_refilled.
Qed.

(** A round that takes a character from the buffer. *)
Lemma getline_take v fd f d offset fuel w buf i n off acc tl linesize :
  reading_line v fd f d w buf i n off acc tl linesize -> (i < n)%nat ->
  (forall c tl' linesize', c = nth i buf 0 ->
     reading_line v fd f d w buf (S i) n off (acc ++ [c]) tl' linesize' ->
     wp (getline_loop past heap fuel fd buf (S i) n ((acc ++ [c]) ++ tl') linesize' (length (acc ++ [c])) offset)
        (loop_done v fd f (acc ++ [c]) (unread buf (S i) n d off) offset) w) ->
  wp (getline_loop past heap (S fuel) fd buf i n (acc ++ tl) linesize (length acc) offset)
     (loop_done v fd f acc (unread buf i n d off) offset) w.
Proof.
  intros HI Hin IH. pose proof HI as [Hw Hd Hoff Hbuf Hi Hg Hpast Ha Hl Hb].
  rewrite unread_cons by lia. set (c := nth i buf 0) in *. cbn [getline_loop].
  rewrite (proj2 (Nat.ltb_lt i BUFSIZE)) by lia. fold c. destruct (Z.eqb_spec c 10) as [Ec|Ec].
  - apply getline_end; try done; [by exists off|by cbn [first_line]; rewrite Ec|by destruct acc].
  - rewrite (proj2 (Nat.leb_gt n i)) by lia.
    destruct (realloc_room acc tl linesize Ha Hl Hb) as (tl' & linesize' & -> & H1 & H2 & H3).
    apply wp_bind. apply store_end; [intros ->; rewrite app_nil_r in H2; lia|].
    replace (acc ++ c :: tail tl') with ((acc ++ [c]) ++ tail tl') by (by rewrite <- app_assoc).
    replace (S (length acc)) with (length (acc ++ [c])) by (rewrite length_app; cbn; lia).
    eapply wp_mono; [apply IH; [done|]|].
    + rewrite length_app in H2. constructor; try done; [lia|len; cbn; lia|].
      rewrite !length_app. cbn. destruct tl'; cbn in *; lia.
    + intros r w' [Hr Hdone]. split; [done|]. by apply line_done_cons.
Qed.

Lemma getline_loop_spec v fd f d offset fuel : forall w buf i n off acc tl linesize,
  reading_line v fd f d w buf i n off acc tl linesize ->
  (2 * length (unread buf i n d off) + (if decide (i = n) then 2 else 1) <= fuel)%nat ->
  wp (getline_loop past heap fuel fd buf i n (acc ++ tl) linesize (length acc) offset)
     (loop_done v fd f acc (unread buf i n d off) offset) w.
Proof.
  induction fuel as [|fuel IH]; intros w buf i n off acc tl linesize HI Hf; [case_decide; lia|].
  case_decide as E.
  - subst i. rewrite unread_end in *. apply (getline_read v fd f d offset fuel w buf n off acc tl linesize HI).
    intros w' buf' m off' Hm HI' E. rewrite <- E. apply IH; [done|]. rewrite E. case_decide; lia.
  - assert (i < n)%nat by (destruct HI; lia).
    apply (getline_take v fd f d offset fuel w buf i n off acc tl linesize HI); [done|].
    intros c tl' linesize' Hc HI'. apply IH; [done|].
    rewrite (unread_cons buf i) in Hf by (destruct HI; lia). cbn [length] in Hf. case_decide; lia.
Qed.

(** [getline] reads one line.  Given that the byte its loop reads from the
    uninitialised buffer, and the one behind the buffer, is not a newline, it
    returns -1 at the end of the file; elsewhere it returns the bytes up to
    the next newline or the end of the file, terminated, however long the line
    is, and moves the offset past them. *)
Theorem getline_correct w v fd f off d line linesize offset fuel :
  us_rep w v -> uv_fd v !! fd = Some (f, off) -> uv_data v !! f = Some d -> 0 <= offset ->
  length junk = BUFSIZE -> nth 0 junk 0 <> 10 -> past <> 10 ->
  (BUFSIZE <= linesize <= length line)%nat -> (2 * length d + 2 <= fuel)%nat ->
  wp (getline junk past heap fuel fd line linesize offset)
     (loop_done v fd f [] (drop (Z.to_nat offset) d) offset) w.
Proof.
  intros Hw Hfd Hd Ho Hj Hj0 Hp Hl Hf. unfold getline. apply wp_bind.
  eapply wp_mono; [by apply (us_seek_set w v fd f off offset Hw Hfd)|]. intros ? w' Hw'.
  rewrite <- (unread_end junk 0). apply (getline_loop_spec v fd f d offset fuel w' junk 0 0 offset [] line).
  - constructor; unfold BUFSIZE in *; first [done | exact Hj0 | cbn [length app]; lia].
  - rewrite unread_end, length_drop. case_decide; lia.
Qed.

(** *** Copying *)

(** Descriptors [s] of file [fs] and [t] of file [ft], whose contents is [dt]. *)
Definition cp_view (v : uview) (s : Z) (fs : nat) (os : Z) (t : Z) (ft : nat) (ot : Z) (dt : list Z) : uview :=
  uv_set_fd s fs os (uv_set_fd t ft ot (uv_store ft dt v)).

Section copy.
Context (v : uview) (s : Z) (fs : nat) (t : Z) (ft : nat) (ds : list Z).
Context (Hst : s <> t) (Hf : fs <> ft) (Hds : uv_data v !! fs = Some ds).

Lemma cp_s os ot dt : uv_fd (cp_view v s fs os t ft ot dt) !! s = Some (fs, os).
Proof. apply lookup_insert_eq. Qed.
Lemma cp_t os ot dt : uv_fd (cp_view v s fs os t ft ot dt) !! t = Some (ft, ot).
Proof. cbn. rewrite lookup_insert_ne by done. apply lookup_insert_eq. Qed.
Lemma cp_ds os ot dt : uv_data (cp_view v s fs os t ft ot dt) !! fs = Some ds.
Proof. cbn. by rewrite lookup_insert_ne. Qed.
Lemma cp_dt os ot dt : uv_data (cp_view v s fs os t ft ot dt) !! ft = Some dt.
Proof. apply lookup_insert_eq. Qed.
Lemma cp_seek_s os os' ot dt : uv_set_fd s fs os' (cp_view v s fs os t ft ot dt) = cp_view v s fs os' t ft ot dt.
Proof. apply uv_set_fd_twice. Qed.
Lemma cp_seek_t os ot ot' dt : uv_set_fd t ft ot' (cp_view v s fs os t ft ot dt) = cp_view v s fs os t ft ot' dt.
Proof.
  unfold cp_view, uv_set_fd. cbn. f_equal. rewrite insert_insert_ne by done. by rewrite insert_insert_eq.
Qed.
Lemma cp_store os ot dt dt' : uv_store ft dt' (cp_view v s fs os t ft ot dt) = cp_view v s fs os t ft ot dt'.
Proof. unfold cp_view, uv_store, uv_set_fd. cbn. by rewrite insert_insert_eq. Qed.

(** The result of a [read] at [os] when [rest] is left: the end, or bytes. *)
Definition chunk (n : Z) (buf : list Z) (os : Z) (rest : list Z) : Prop :=
  (n <= 0 /\ buf = [] /\ rest = []) \/
  (0 < n /\ n = Z.of_nat (length buf) /\ 0 <= os <= Z.of_nat (length ds) /\ buf ++ drop (Z.to_nat os) ds = rest).

(** A [read] of [k] bytes is short only at the end. *)
Lemma cp_read_n w os ot dt k :
  us_rep w (cp_view v s fs os t ft ot dt) -> 0 <= os -> 0 < k ->
  wp (us_read s k) (fun '(n, buf) w' => exists os',
    us_rep w' (cp_view v s fs os' t ft ot dt) /\ chunk n buf os' (drop (Z.to_nat os) ds) /\
    0 <= os' /\ (length buf = Z.to_nat k \/ drop (Z.to_nat os') ds = []) /\ (length buf <= Z.to_nat k)%nat) w.
Proof.
  intros Hw Ho Hk. eapply wp_mono; [by apply (us_read_spec w _ s fs os ds _ Hw (cp_s _ _ _) (cp_ds _ _ _))|].
  intros [n buf] w' Hr. destruct (Z.leb_spec os (Z.of_nat (length ds))).
  - destruct Hr as (El & -> & Hw'). rewrite cp_seek_s in Hw'. exists (os + Z.of_nat (length buf)). split; [done|].
    assert (Hlen : length buf = Nat.min (Z.to_nat k) (length ds - Z.to_nat os)) by (subst buf; unfold bytes_at; len).
    split_and!; [|lia| |lia].
    + destruct (decide (length buf = 0%nat)); [left; split_and!; [lia|by apply nil_length_inv|apply nil_length_inv; len]|].
      right. split_and!; [lia..|].
      replace (Z.to_nat (os + Z.of_nat (length buf))) with (Z.to_nat os + length buf)%nat by lia.
      subst buf. apply bytes_at_rest.
    + destruct (decide (length buf = Z.to_nat k)); [by left|right]. apply drop_ge. lia.
  - destruct Hr as (-> & -> & Hw'). exists os. split; [done|]. split_and!; [|lia|right; apply drop_ge; lia|cbn; lia].
    left. split_and!; [lia|done|]. apply drop_ge. lia.
Qed.

Lemma cp_read w os ot dt :
  us_rep w (cp_view v s fs os t ft ot dt) -> 0 <= os ->
  wp (us_read s (Z.of_nat BUFSIZE)) (fun '(n, buf) w' => exists os',
    us_rep w' (cp_view v s fs os' t ft ot dt) /\ chunk n buf os' (drop (Z.to_nat os) ds)) w.
Proof.
  intros Hw Ho. eapply wp_mono; [by apply (cp_read_n w os ot dt (Z.of_nat BUFSIZE))|].
  intros [n buf] w' (os' & ? & ? & _). eauto.
Qed.

Lemma copy_rest_spec fuel : forall w os ot dt n buf rest total,
  us_rep w (cp_view v s fs os t ft ot dt) -> chunk n buf os rest -> 0 <= ot <= Z.of_nat (length dt) ->
  (length rest <= fuel)%nat ->
  wp (copy_rest fuel s t n buf total) (fun r w' => exists os', r = total + Z.of_nat (length rest) /\
    us_rep w' (cp_view v s fs os' t ft (ot + Z.of_nat (length rest)) (splice (Z.to_nat ot) rest dt))) w.
Proof.
  induction fuel as [|fuel IH]; intros w os ot dt n buf rest total Hw Hc Hot Hfuel; cbn [copy_rest];
    destruct Hc as [(Hn & -> & ->)|(Hn & En & Hos & <-)];
    rewrite ?(proj2 (Z.ltb_ge 0 n)), ?(proj2 (Z.ltb_lt 0 n)) by done.
  1, 3: apply wp_ret; exists os; cbn; by rewrite splice_nil, !Z.add_0_r.
  1: rewrite length_app in Hfuel; lia.
  rewrite length_app in Hfuel. apply wp_bind.
  eapply wp_mono; [by apply (us_write_spec w _ t ft ot dt buf Hw (cp_t os ot dt) (cp_dt os ot dt))|].
  intros r w1 [_ Hw1]. rewrite cp_store, cp_seek_t in Hw1. fold (splice (Z.to_nat ot) buf dt) in Hw1.
  apply wp_bind. eapply wp_mono; [apply (cp_read w1 os _ _ Hw1); lia|]. intros [n' buf'] w2 (os2 & Hw2 & Hc2).
  eapply wp_mono; [apply (IH w2 _ _ _ _ _ _ _ Hw2 Hc2)|].
  - rewrite splice_length_grow by lia. lia.
  - lia.
  - intros r' w' (os' & -> & Hw'). exists os'. rewrite length_app. split; [lia|].
    rewrite splice_adjacent in Hw' by lia. by rewrite Nat2Z.inj_add, Z.add_assoc.
Qed.
End copy.

(** *** Replacing a line *)

(** The same files but for the contents of [f] and new files without a name. *)
Record edited (v : uview) (fd : Z) (f : nat) (new : list Z) (v' : uview) : Prop := {
  ed_name : uv_name v' = uv_name v;
  ed_may : uv_may v' = uv_may v;
  ed_uid : uv_uid v' = uv_uid v;
  ed_fd : exists off, uv_fd v' = <[fd := (f, off)]> (uv_fd v);
  ed_data : uv_data v' !! f = Some new;
  ed_rest : forall g x, g <> f -> uv_data v !! g = Some x -> uv_data v' !! g = Some x;
  ed_euid : uv_euid v' = uv_euid v;
  ed_dir : uv_dir v' = uv_dir v }.

(** What [changeline] writes from the start of the line on. *)
Definition new_tail (line rest : list Z) : list Z :=
  line ++ match rest with [] => [] | _ => 10 :: rest end.

Lemma new_tail_length line offset (d : list Z) fuel :
  (length line + length d + 1 <= fuel)%nat -> (length (new_tail line (drop offset d)) <= fuel)%nat.
Proof.
  intros Hf. unfold new_tail. rewrite length_app. pose proof (length_drop d offset) as E.
  destruct (drop offset d); cbn in *; lia.
Qed.

Lemma cp_swap v s fs os t ft ot dt ds :
  s <> t -> fs <> ft -> uv_data v !! fs = Some ds ->
  cp_view v s fs os t ft ot dt = cp_view (uv_store ft dt v) t ft ot s fs os ds.
Proof.
  intros Hst Hf Hd. unfold cp_view, uv_set_fd, uv_store. cbn. f_equal.
  - symmetry. apply insert_id. by rewrite lookup_insert_ne.
  - by rewrite insert_insert_ne.
Qed.

Section change.
Context (v : uview) (fd : Z) (f : nat) (d : list Z) (t : Z) (ft : nat).
Context (Hst : fd <> t) (Hf : f <> ft) (Hd : uv_data v !! f = Some d).

(** The first half: the new line and what follows go to the temporary file. *)
Lemma change_out w os offset line fuel {A} (k : M W A) Q :
  us_rep w (cp_view v fd f os t ft 0 []) -> 0 <= offset -> (length d <= fuel)%nat ->
  (forall w' os' ot', us_rep w' (cp_view v fd f os' t ft ot' (new_tail line (drop (Z.to_nat offset) d))) -> wp k Q w') ->
  wp (do* us_lseek fd offset u_SEEK_SET in
      let* (n, buf) := us_read fd (Z.of_nat BUFSIZE) in
      do* us_write t line in
      do* when 0 <? n then (do* us_write t [10] in ret tt) in
      do* copy_rest fuel fd t n buf 0 in k) Q w.
Proof.
  intros Hw Ho Hfuel Hk. apply wp_bind.
  eapply wp_mono; [by apply (us_seek_set w _ fd f os offset Hw (cp_s _ _ _ _ _ _ _ _))|]. intros ? w1 Hw1.
  rewrite cp_seek_s in Hw1. apply wp_bind. eapply wp_mono; [by apply (cp_read v fd f t ft d Hf Hd w1 _ _ _ Hw1)|].
  intros [n buf] w2 (os2 & Hw2 & Hc). set (rest := drop (Z.to_nat offset) d) in *.
  assert (Hrest : (length rest <= fuel)%nat) by (unfold rest; len). apply wp_bind.
  eapply wp_mono; [by apply (us_write_spec w2 _ t ft 0 [] line Hw2); [apply cp_t|apply cp_dt|]|].
  intros ? w3 [_ Hw3]. rewrite cp_store, cp_seek_t in Hw3 by done. cbn [take drop app] in Hw3.
  rewrite take_nil, drop_nil, app_nil_l, app_nil_r in Hw3. apply wp_bind.
  destruct (Z.ltb_spec 0 n) as [Hn|Hn].
  - apply wp_bind. eapply wp_mono; [apply (us_write_spec w3 _ t ft (0 + Z.of_nat (length line)) line [10] Hw3); [by apply cp_t|apply cp_dt|lia]|].
    intros ? w4 [_ Hw4]. rewrite cp_store, cp_seek_t in Hw4 by done. apply wp_ret. apply wp_ret.
    rewrite Z.add_0_l, Nat2Z.id, firstn_all, drop_ge, app_nil_r in Hw4 by lia. apply wp_bind.
    eapply wp_mono; [apply (copy_rest_spec v fd f t ft d Hst Hf Hd fuel w4 _ _ _ _ _ rest 0 Hw4 Hc); [len; cbn; lia|done]|].
    intros r w' (os' & _ & Hw'). eapply Hk. unfold new_tail.
    replace (line ++ match rest with [] => [] | _ => 10 :: rest end)
      with (splice (Z.to_nat (Z.of_nat (length line) + 1)) rest (line ++ [10])); [exact Hw'|].
    unfold splice. rewrite take_ge, drop_ge, app_nil_r, <- app_assoc by (len; cbn; lia).
    destruct Hc as [(? & _)|(_ & Eb & _ & Er)]; [lia|]. destruct rest; [|done].
    apply app_nil in Er as [-> _]. cbn in Eb. lia.
  - destruct Hc as [(_ & -> & Er)|(? & _)]; [|lia]. rewrite Er in *. apply wp_ret. apply wp_bind.
    eapply wp_mono; [apply (copy_rest_spec v fd f t ft d Hst Hf Hd fuel w3 _ _ _ _ _ [] 0 Hw3); [by left|lia|cbn; lia]|].
    intros r w' (os' & _ & Hw'). rewrite splice_nil in Hw'. unfold new_tail in Hk. rewrite app_nil_r in Hk. eauto.
Qed.

(** The second half: they come back at [newsize], and the file ends there. *)
Lemma change_back w os ot newsize T fuel {A} (k : M W A) Q :
  us_rep w (cp_view v fd f os t ft ot T) -> 0 <= newsize <= Z.of_nat (length d) -> (length T <= fuel)%nat ->
  (forall w' os' ot', us_rep w' (cp_view (uv_store ft T v) t ft ot' fd f os' (take (Z.to_nat newsize) d ++ T)) -> wp k Q w') ->
  wp (do* us_lseek t 0 u_SEEK_SET in
      do* us_lseek fd newsize u_SEEK_SET in
      let* (n, buf) := us_read t (Z.of_nat BUFSIZE) in
      let* copied := copy_rest fuel t fd n buf 0 in
      do* us_lseek fd (newsize + copied) u_SEEK_SET in
      do* us_trim fd in k) Q w.
Proof.
  intros Hw Hns Hfuel Hk. rewrite (cp_swap v fd f os t ft ot T d Hst Hf Hd) in Hw. set (v1 := uv_store ft T v) in *.
  assert (Hv1 : uv_data v1 !! ft = Some T) by apply lookup_insert_eq. assert (Hts : t <> fd) by done.
  assert (Hff : ft <> f) by done. apply wp_bind.
  eapply wp_mono; [by apply (us_seek_set w _ t ft ot 0 Hw (cp_s _ _ _ _ _ _ _ _))|]. intros ? w1 Hw1.
  rewrite cp_seek_s in Hw1. apply wp_bind.
  eapply wp_mono; [apply (us_seek_set w1 _ fd f os newsize Hw1 (cp_t _ _ _ _ _ Hts _ _ _)); lia|]. intros ? w2 Hw2.
  rewrite cp_seek_t in Hw2 by done. apply wp_bind.
  eapply wp_mono; [by apply (cp_read v1 t ft fd f T Hff Hv1 w2 _ _ _ Hw2)|]. intros [n buf] w3 (os3 & Hw3 & Hc).
  apply wp_bind. eapply wp_mono.
  { by apply (copy_rest_spec v1 t ft fd f T Hts Hff Hv1 fuel w3 _ _ _ _ _ _ 0 Hw3 Hc). }
  intros r w4 (os4 & -> & Hw4). rewrite drop_0 in Hw4 |- *. apply wp_bind.
  eapply wp_mono; [apply (us_seek_set w4 _ fd f _ (newsize + (0 + Z.of_nat (length T))) Hw4 (cp_t _ _ _ _ _ Hts _ _ _)); lia|].
  intros ? w5 Hw5. rewrite cp_seek_t in Hw5 by done. apply wp_bind.
  eapply wp_mono; [apply (us_trim_spec w5 _ fd f _ _ Hw5 (cp_t _ _ _ _ _ Hts _ _ _) (cp_dt _ _ _ _ _ _ _ _))|].
  - rewrite splice_length_grow; lia.
  - intros ? w6 Hw6. rewrite cp_store in Hw6. eapply Hk.
    replace (take _ (splice _ _ _)) with (take (Z.to_nat newsize) d ++ T) in Hw6; [exact Hw6|].
    unfold splice. rewrite (app_assoc (take _ d)), take_app_length'; [done|]. len.
Qed.
End change.

(** [changeline] replaces a line.  When the line at [start] is
    [oldlength] bytes long and [offset] is behind it, the file afterwards has
    the new line in its place, everything before and after as it was, and no
    trailing newline is kept when nothing follows; the temporary file is
    gone. *)
Theorem changeline_correct w v fd f off d file line start oldlength fuel :
  us_rep w v -> uv_fd v !! fd = Some (f, off) -> uv_data v !! f = Some d ->
  uv_name v !! tempfile file = None -> uv_may v (tempfile file) (Z.lor u_CREATE u_RDWR) = true ->
  0 <= start <= Z.of_nat (length d) -> 0 <= oldlength ->
  (length line + length d + 1 <= fuel)%nat ->
  let offset := start + oldlength + 1 in
  wp (changeline fuel fd line file offset oldlength) (fun '(code, offset') w' =>
    code = 0 /\ offset' = start + Z.of_nat (length line) + 1 /\
    exists v', us_rep w' v' /\
      edited v fd f (take (Z.to_nat start) d ++ new_tail line (drop (Z.to_nat offset) d)) v') w.
Proof.
  intros Hw Hfd Hd Hn Hmay Hst Hol Hfuel offset. unfold changeline. apply wp_bind.
  eapply wp_mono; [by apply (us_open_new w v _ Hw Hn Hmay)|]. intros t w1 (ft & Ht & Htfd & Hft & Hw1).
  assert (Hne : fd <> t) by congruence. assert (Hf : f <> ft) by congruence.
  set (v1 := uv_bind (tempfile file) ft v). assert (Hd1 : uv_data v1 !! f = Some d) by done.
  assert (E1 : uv_set_fd t ft 0 (uv_bind (tempfile file) ft (uv_store ft [] v)) = cp_view v1 fd f off t ft 0 []).
  { unfold cp_view, uv_set_fd, uv_store, uv_bind. cbn. f_equal. symmetry. apply insert_id.
    by rewrite lookup_insert_ne. }
  rewrite E1 in Hw1. cbv zeta. replace (offset - oldlength - 1) with start by lia.
  apply (change_out v1 fd f d t ft Hne Hf Hd1 w1 off offset line fuel _ _ Hw1); [lia..|].
  intros w2 os2 ot2 Hw2.
  apply (change_back v1 fd f d t ft Hne Hf Hd1 w2 os2 ot2 start _ fuel _ _ Hw2); [done|apply new_tail_length; lia|].
  intros w3 os3 ot3 Hw3. apply wp_bind.
  eapply wp_mono; [by apply (us_close_spec w3 _ t ft ot3 Hw3 (cp_s _ _ _ _ _ _ _ _))|]. intros ? w4 [_ Hw4].
  apply wp_bind. eapply wp_mono; [by apply (us_unlink_spec w4 _ (tempfile file) ft Hw4), lookup_insert_eq|].
  intros ? w5 Hw5. apply wp_ret. split_and!; [done|done|]. eexists. split; [exact Hw5|].
  constructor; try done; cbn.
  - by rewrite delete_insert_id.
  - exists os3. rewrite delete_insert_id; [done|]. by rewrite lookup_insert_ne.
  - apply lookup_insert_eq.
  - intros g x Hg Hx. rewrite !lookup_insert_ne by congruence. done.
Qed.
End spec.
