(* ===== verification/Uauth.v ===== *)
(** * Users

    [user/uauth.c]: the user database [/etc/passwd], a line per user, six
    fields separated by colons.

    Strings are their bytes without the terminator; [None] is the null
    pointer.  [adduser] and [changeuser], which need the group database and the
    walks over directories, are in [Uadmin]. *)

From S2P Require Import Prelude CString UserSys Ufile.

Definition COLON : Z := 58.
Definition passwdfile : list Z := [47; 101; 116; 99; 47; 112; 97; 115; 115; 119; 100].

Definition RESERVED : Z := -2.
Definition NOPERMS : Z := -1000.
Definition AUTHFAIL : Z := -200.

Record user_t := User {
  u_username : list Z;
  u_password : option (list Z);
  u_uid : Z;
  u_gid : Z;
  u_fullname : list Z;
  u_homedir : list Z }.

Definition u_with_password p (u : user_t) : user_t :=
  User (u_username u) p (u_uid u) (u_gid u) (u_fullname u) (u_homedir u).

Definition opt_str (o : option (list Z)) : list Z := default [] o.

Definition getuserlength (usr : user_t) : Z :=
  strlen (u_username usr) + 2 + match u_password usr with Some p => strlen p | None => 0 end +
  (digitcount (u_uid usr) + 1) + (digitcount (u_gid usr) + 1) + (strlen (u_fullname usr) + 1) +
  strlen (u_homedir usr).

(** The field at [p] and what is behind it. *)
Definition segment (p : list Z) : list Z := cstr (safestrcpy p (segment_length p COLON)).
Definition next_segment (p : list Z) : list Z := drop (Z.to_nat (segment_length p COLON)) p.

(** [user(line)]; a line with fewer fields makes it read what is behind the
    terminator. *)
Definition user (line : list Z) : user_t :=
  let p1 := next_segment line in
  let p2 := next_segment p1 in
  let p3 := next_segment p2 in
  let p4 := next_segment p3 in
  let p5 := next_segment p4 in
  User (segment line)
    (if 1 <? segment_length p1 COLON then Some (segment p1) else None)
    (atoi (segment p2)) (atoi (segment p3)) (segment p4) (segment p5).

Section uauth.
Context {W : Type} `{UserSys W} (junk : list Z) (past : Z) (heap : nat -> Z) (fuel : nat).

(** [strncpy(line + i, s, n)] into a local array. *)
Definition put_str (line : list Z) (i : nat) (s : list Z) (n : nat) : M W (list Z) :=
  if (i + n <=? length line)%nat then ret (splice i (strncpy s n) line) else fault "buffer overrun".
Definition put_char (line : list Z) (i : nat) (c : Z) : M W (list Z) := store_at line i c.

(** [do { s[n--] = '0' + temp % 10; temp /= 10; } while(cond)], at most the
    ten digits of an [int]. *)
Fixpoint put_digits (k : nat) (more : Z -> bool) (s : list Z) (n : Z) (temp : Z) : M W (list Z) :=
  match k with
  | O => fault "digits"
  | S k =>
      if n <? 0 then fault "buffer overrun" else
      let* s := store_at s (Z.to_nat n) (48 + Z.rem temp 10) in
      let temp := Z.quot temp 10 in
      if more temp then put_digits k more s (n - 1) temp else ret s
  end.

Definition number (more : Z -> bool) (x : Z) : M W (list Z) :=
  let n := digitcount x in
  put_digits 11 more (malloc_bytes heap (Z.to_nat n)) (n - 1) x.

Definition writeuser (fd : Z) (usr : user_t) (offset oldlength : Z) : M W (Z * Z) :=
  let line := malloc_bytes heap (Z.to_nat (getuserlength usr)) in
  let n := Z.to_nat (strlen (u_username usr)) in
  let i := n in
  let* line := put_str line 0 (u_username usr) n in
  let* line := put_char line i COLON in
  let i := S i in
  let* (line, i) :=
    match u_password usr with
    | Some p => let n := Z.to_nat (strlen p) in
                let* line := put_str line i p n in ret (line, (i + n)%nat)
    | None => ret (line, i)
    end in
  let* line := put_char line i COLON in
  let i := S i in
  let* uidstring := number (fun temp => 0 <? temp) (u_uid usr) in
  let* line := put_str line i uidstring (length uidstring) in
  let i := (i + length uidstring)%nat in
  let* line := put_char line i COLON in
  let i := S i in
  let* gidstring := number (fun temp => negb (temp =? 0)) (u_gid usr) in
  let* line := put_str line i gidstring (length gidstring) in
  let i := (i + length gidstring)%nat in
  let* line := put_char line i COLON in
  let i := S i in
  let n := Z.to_nat (strlen (u_fullname usr)) in
  let* line := put_str line i (u_fullname usr) n in
  let i := (i + n)%nat in
  let* line := put_char line i COLON in
  let i := S i in
  let n := Z.to_nat (strlen (u_homedir usr)) in
  let* line := put_str line i (u_homedir usr) n in
  if oldlength <=? 0 then
    let* r := addline fd line in ret (r, offset)
  else changeline fuel fd line passwdfile offset oldlength.

(** [finduserbyuid] and [finduserbyname]: read lines until a user passes the
    test.  The result carries the last user read. *)
Fixpoint find_user (k : nat) (fd : Z) (test : user_t -> bool) (line : list Z) (linesize : nat)
    (usr : option user_t) (offset : Z) : M W (Z * option user_t * Z) :=
  match k with
  | O => fault "fuel"
  | S k =>
      let* (code, (line, linesize, offset)) := getline junk past heap fuel fd line linesize offset in
      if negb (code =? 0) then ret (NOTFOUND, usr, offset) else
      let u := user line in
      if test u then ret (0, Some u, offset)
      else find_user k fd test line linesize (Some u) offset
  end.

Definition finduserbyuid (fd uid : Z) (usr : option user_t) (offset : Z) : M W (Z * option user_t * Z) :=
  find_user fuel fd (fun u => u_uid u =? uid) (malloc_bytes heap BUFSIZE) BUFSIZE usr offset.

Definition finduserbyname (fd : Z) (username : list Z) (usr : option user_t) (offset : Z) :
    M W (Z * option user_t * Z) :=
  find_user fuel fd (fun u => strcmp (u_username u) username =? 0)
    (malloc_bytes heap BUFSIZE) BUFSIZE usr offset.

(** The result and [*uid], if it is set. *)
Definition authuid (username pwd : list Z) : M W (Z * option Z) :=
  let* fd := us_open passwdfile u_RDONLY in
  if fd <? 0 then ret (NOPERMS, None) else
  let* (code, usr, _) := finduserbyname fd username None 0 in
  do* us_close fd in
  if code <? 0 then ret (code, None) else
  let* usr := deref usr "usr" in
  if match u_password usr with Some p => negb (strcmp p pwd =? 0) | None => false end
  then ret (AUTHFAIL, None)
  else
    let* code := us_chdir (u_homedir usr) in
    ret (code, Some (u_uid usr)).

Definition getuidforname (username : list Z) : M W (Z * option Z) :=
  let* fd := us_open passwdfile u_RDONLY in
  if fd <? 0 then ret (NOPERMS, None) else
  let* (code, usr, _) := finduserbyname fd username None 0 in
  do* us_close fd in
  let* usr := deref usr "usr" in
  ret (code, Some (u_uid usr)).

(** The result and the name copied to [*username]. *)
Definition getusername (uid : Z) : M W (Z * option (list Z)) :=
  let* fd := us_open passwdfile u_RDONLY in
  if fd <? 0 then ret (NOPERMS, None) else
  let* (code, usr, _) := finduserbyuid fd uid None 0 in
  do* us_close fd in
  if code <? 0 then ret (code, None) else
  let* usr := deref usr "usr" in
  ret (0, Some (cstr (safestrcpy (u_username usr) (strlen (u_username usr) + 1)))).

Definition changepass (username oldpwd newpwd : list Z) : M W Z :=
  let* fd := us_open passwdfile u_RDWR in
  if fd <? 0 then ret NOPERMS else
  let* (code, usr, offset) := finduserbyname fd username None 0 in
  if code <? 0 then do* us_close fd in ret NOTFOUND else
  let* uid := us_getuid in
  let* usr := deref usr "usr" in
  if negb (uid =? 0) &&
     (negb (u_uid usr =? uid) ||
      match u_password usr with Some p => negb (strcmp p oldpwd =? 0) | None => false end)
  then do* us_close fd in ret NOPERMS
  else
    let oldlength := getuserlength usr in
    let usr := u_with_password (Some (cstr (safestrcpy newpwd (strlen newpwd + 1)))) usr in
    let* (code, _) := writeuser fd usr offset oldlength in
    do* us_close fd in
    ret code.
End uauth.
