(* ===== verification/UauthSpec.v ===== *)
(** * The user database is what it says

    Lines print and parse back, the functions of [uauth.c] find the first
    matching user of the database, and a password change replaces one line. *)

From S2P Require Import Prelude CString UserSys Ufile UfileSpec Uauth.

(** ** Numbers *)

(** Decimal digits, [k] at most. *)
Fixpoint dec (k : nat) (n : Z) : list Z :=
  match k with
  | O => []
  | S k => if n <? 10 then [48 + n] else dec k (n / 10) ++ [48 + n mod 10]
  end.

Lemma pow10_S k : 10 ^ Z.of_nat (S k) = 10 * 10 ^ Z.of_nat k.
Proof. rewrite Nat2Z.inj_succ, Z.pow_succ_r by lia. done. Qed.

Lemma dec_digit k n : 0 <= n -> Forall (fun c => 48 <= c <= 57) (dec k n).
Proof.
  revert n. induction k as [|k IH]; intros n Hn; cbn [dec]; [constructor|].
  destruct (Z.ltb_spec n 10); [repeat constructor; lia|]. apply Forall_app. split; [apply IH; dlia|].
  repeat constructor; dlia.
Qed.

Lemma digitcount_dec k n :
  0 <= n < 10 ^ Z.of_nat k -> (0 < k)%nat -> digitcount_loop k n = Z.of_nat (length (dec k n)).
Proof.
  revert n. induction k as [|k IH]; intros n Hn Hk; [lia|]. cbn [digitcount_loop dec]. rewrite pow10_S in Hn.
  rewrite Z.quot_div_nonneg by lia. destruct (Z.ltb_spec n 10).
  - rewrite Z.div_small by lia. done.
  - assert (Hq : 0 < n / 10 < 10 ^ Z.of_nat k) by (split; [apply Z.div_str_pos|apply Z.div_lt_upper_bound]; lia).
    rewrite (proj2 (truth_true _)) by lia. rewrite IH; [|lia|destruct k; [cbn in Hq|]; lia].
    rewrite length_app. cbn. lia.
Qed.

Lemma atoi_loop_app a l l' :
  Forall (fun c => 48 <= c <= 57) l -> atoi_loop a (l ++ l') = atoi_loop (atoi_loop a l) l'.
Proof.
  intros Hl. revert a. induction Hl as [|c l Hc Hl IH]; intros a; cbn [app atoi_loop]; [done|].
  unfold is_digit. rewrite (proj2 (Z.leb_le 48 c)), (proj2 (Z.leb_le c 57)) by lia. apply IH.
Qed.

Lemma atoi_loop_digit n c : 48 <= c <= 57 -> atoi_loop n [c] = s32 (n * 10 + c - 48).
Proof.
  intros Hc. cbn [atoi_loop]. unfold is_digit. by rewrite (proj2 (Z.leb_le 48 c)), (proj2 (Z.leb_le c 57)) by lia.
Qed.

Lemma atoi_dec k n : 0 <= n < 10 ^ Z.of_nat k -> (0 < k)%nat -> n < 2 ^ 31 -> atoi (dec k n) = n.
Proof.
  unfold atoi. revert n. induction k as [|k IH]; intros n Hn Hk H31; [lia|]. cbn [dec]. rewrite pow10_S in Hn.
  destruct (Z.ltb_spec n 10).
  - rewrite atoi_loop_digit by lia. rewrite s32_small by lia. lia.
  - assert (Hq : 0 < n / 10 < 10 ^ Z.of_nat k) by (split; [apply Z.div_str_pos|apply Z.div_lt_upper_bound]; lia).
    assert (0 < k)%nat by (destruct k; [cbn in Hq|]; lia).
    rewrite atoi_loop_app by (apply dec_digit; lia). rewrite IH by (first [done|dlia]).
    rewrite atoi_loop_digit by dlia. rewrite s32_small by dlia. dlia.
Qed.

Definition int_ok (n : Z) : Prop := 0 <= n < 2 ^ 31.
Definition dec_int (n : Z) : list Z := dec 11 n.

Lemma int_pow n : int_ok n -> 0 <= n < 10 ^ Z.of_nat 11.
Proof. unfold int_ok. cbn. lia. Qed.

(** ** Lines *)

Definition print_user (u : user_t) : list Z :=
  u_username u ++ COLON :: opt_str (u_password u) ++ COLON :: dec_int (u_uid u) ++ COLON ::
  dec_int (u_gid u) ++ COLON :: u_fullname u ++ COLON :: u_homedir u.

(** Fields hold no separator; strings hold no terminator. *)
Definition field_ok (l : list Z) : Prop := Forall (fun c => c <> 0 /\ c <> 10 /\ c <> COLON) l.
Definition str_ok (l : list Z) : Prop := Forall (fun c => c <> 0) l.

Lemma field_str l : field_ok l -> str_ok l.
Proof. intros Hl. eapply Forall_impl; [exact Hl|]. by intros c (? & _). Qed.
Lemma cstr_str_ok l : str_ok (cstr l).
Proof. induction l as [|c l IH]; cbn; [constructor|]. destruct (Z.eqb_spec c 0); by constructor. Qed.

Record user_ok (u : user_t) : Prop := {
  uo_name : field_ok (u_username u);
  uo_pass : forall p, u_password u = Some p -> field_ok p /\ p <> [];
  uo_uid : int_ok (u_uid u);
  uo_gid : int_ok (u_gid u);
  uo_full : field_ok (u_fullname u);
  uo_home : field_ok (u_homedir u) }.

(** What [writeuser] can print. *)
Record user_str (u : user_t) : Prop := {
  us_name : str_ok (u_username u);
  us_pass : str_ok (opt_str (u_password u));
  us_uid : int_ok (u_uid u);
  us_gid : int_ok (u_gid u);
  us_full : str_ok (u_fullname u);
  us_home : str_ok (u_homedir u) }.

Lemma field_ok_dec n : int_ok n -> field_ok (dec_int n).
Proof.
  intros Hn. eapply Forall_impl; [apply dec_digit; apply Hn|]. unfold COLON. intros c Hc. cbn in Hc. lia.
Qed.
Lemma field_ok_pass u : user_ok u -> field_ok (opt_str (u_password u)).
Proof. intros Hu. destruct (u_password u) eqn:E; [by apply (uo_pass u Hu)|constructor]. Qed.

Lemma user_ok_str u : user_ok u -> user_str u.
Proof. intros Hu. pose proof (field_ok_pass u Hu). destruct Hu. constructor; by try apply field_str. Qed.

Lemma strchr_colon l r : field_ok l -> strchr (l ++ COLON :: r) COLON = Some (Z.of_nat (length l)).
Proof.
  intros Hl. induction Hl as [|c l (H0 & _ & H58) Hl IH]; [done|]. cbn [app strchr length].
  apply Z.eqb_neq in H0, H58. rewrite H0, H58, IH. cbn. f_equal. lia.
Qed.
Lemma strchr_end l r : field_ok l -> strchr (l ++ 0 :: r) COLON = None.
Proof.
  intros Hl. induction Hl as [|c l (H0 & _ & H58) Hl IH]; [done|]. cbn [app strchr].
  apply Z.eqb_neq in H0, H58. by rewrite H0, H58, IH.
Qed.
Lemma strlen_end l r : field_ok l -> strlen (l ++ 0 :: r) = Z.of_nat (length l).
Proof.
  intros Hl. induction Hl as [|c l (H0 & _) Hl IH]; [done|]. cbn [app strlen length].
  apply Z.eqb_neq in H0. rewrite H0, IH. lia.
Qed.
Lemma strlen_str l : str_ok l -> strlen l = Z.of_nat (length l).
Proof.
  intros Hl. induction Hl as [|c l H0 Hl IH]; [done|]. cbn [strlen length].
  apply Z.eqb_neq in H0. rewrite H0, IH. lia.
Qed.
Lemma cstr_str l : str_ok l -> cstr l = l.
Proof. intros Hl. induction Hl as [|c l H0 Hl IH]; [done|]. cbn. apply Z.eqb_neq in H0. by rewrite H0, IH. Qed.
Lemma cstr_length l : (length (cstr l) <= length l)%nat.
Proof. induction l as [|c l IH]; cbn; [lia|]. destruct (c =? 0); cbn; lia. Qed.
Lemma strlen_field l : field_ok l -> strlen l = Z.of_nat (length l).
Proof. intros Hl. by apply strlen_str, field_str. Qed.
Lemma cstr_field l : field_ok l -> cstr l = l.
Proof. intros Hl. induction Hl as [|c l (H0 & _) Hl IH]; [done|]. cbn. apply Z.eqb_neq in H0. by rewrite H0, IH. Qed.
Lemma copy_field l r : field_ok l -> cstr (safestrcpy (l ++ r) (Z.of_nat (length l) + 1)) = l.
Proof.
  intros Hl. unfold safestrcpy. rewrite (proj2 (Z.leb_gt _ 0)) by lia.
  rewrite Z.add_simpl_r, Nat2Z.id. induction Hl as [|c l (H0 & _) Hl IH]; [done|].
  cbn [app safestrcpy_loop length chr hd tail]. rewrite (proj2 (truth_true c)) by done. cbn [cstr].
  apply Z.eqb_neq in H0. by rewrite H0, IH.
Qed.

(** One field, with what follows. *)
Lemma segment_colon l r :
  field_ok l -> segment_length (l ++ COLON :: r) COLON = Z.of_nat (length l) + 1 /\
    segment (l ++ COLON :: r) = l /\ next_segment (l ++ COLON :: r) = r.
Proof.
  intros Hl. unfold segment, next_segment, segment_length. rewrite strchr_colon by done.
  split_and!; [done|by apply copy_field|].
  replace (Z.to_nat (Z.of_nat (length l) + 1)) with (length (l ++ [COLON])) by (rewrite length_app; cbn; lia).
  replace (l ++ COLON :: r) with ((l ++ [COLON]) ++ r) by (by rewrite <- app_assoc). apply drop_app_length.
Qed.
Lemma segment_last l r : field_ok l -> segment (l ++ 0 :: r) = l.
Proof.
  intros Hl. unfold segment, segment_length. rewrite strchr_end, strlen_end by done. by apply copy_field.
Qed.

Lemma user_fields u rest :
  (forall l, field_ok l -> segment (l ++ rest) = l) -> user_ok u -> user (print_user u ++ rest) = u.
Proof.
  intros Hlast Hu. pose proof Hu as [H1 H2 H3 H4 H5 H6]. pose proof (field_ok_pass u Hu) as Hp.
  pose proof (field_ok_dec _ H3) as Hd3. pose proof (field_ok_dec _ H4) as Hd4.
  unfold print_user. rewrite <- !app_assoc; cbn [app]; rewrite <- !app_assoc; cbn [app].
  rewrite <- !app_assoc; cbn [app]; rewrite <- !app_assoc; cbn [app]; rewrite <- !app_assoc; cbn [app].
  unfold user.
  repeat match goal with |- context [next_segment (?l ++ COLON :: ?r)] =>
    rewrite (proj2 (proj2 (segment_colon l r ltac:(assumption)))) end.
  rewrite !(fun l r H => proj1 (proj2 (segment_colon l r H))) by done. rewrite Hlast by done.
  unfold dec_int. rewrite !atoi_dec by (first [by apply int_pow|apply H3|apply H4|lia]).
  rewrite (proj1 (segment_colon _ _ Hp)). destruct u as [n [p|] uid gid fn hd]; cbn in *; [|done].
  destruct (H2 p eq_refl) as [_ Hne]. destruct p; [done|]. rewrite (proj2 (Z.ltb_lt 1 _)); [done|]. cbn. lia.
Qed.

Lemma user_print u tl : user_ok u -> user (print_user u ++ 0 :: tl) = u.
Proof. apply user_fields. intros l Hl. by apply segment_last. Qed.

(** What follows the home directory after a colon is not read. *)
Lemma user_print_more u r : user_ok u -> user (print_user u ++ COLON :: r) = u.
Proof. apply user_fields. intros l Hl. by apply segment_colon. Qed.

Lemma getuserlength_print u : user_str u -> getuserlength u = Z.of_nat (length (print_user u)).
Proof.
  intros Hu. pose proof Hu as [H1 H2 H3 H4 H5 H6]. unfold getuserlength, print_user, digitcount, dec_int.
  rewrite !digitcount_dec by (first [by apply int_pow|lia]). rewrite !strlen_str by done.
  assert (E : match u_password u with Some p => strlen p | None => 0 end = Z.of_nat (length (opt_str (u_password u)))).
  { destruct (u_password u) as [p|] eqn:E; [|done]. by apply strlen_str. }
  rewrite E. rewrite !length_app. cbn [length]. rewrite !length_app. cbn [length]. rewrite !length_app. cbn [length].
  rewrite !length_app. cbn [length]. rewrite !length_app. cbn [length]. lia.
Qed.

(** ** The database *)

(** Strings separated by [sep]. *)
Fixpoint join (sep : Z) (ls : list (list Z)) : list Z :=
  match ls with
  | [] => []
  | [l] => l
  | l :: ls => l ++ sep :: join sep ls
  end.
Abbreviation unlines := (join 10).

Definition no_nl (l : list Z) : Prop := Forall (fun c => c <> 10) l.

Lemma first_line_app l r : no_nl l -> first_line (l ++ 10 :: r) = l.
Proof. intros Hl. induction Hl as [|c l Hc Hl IH]; [done|]. cbn. apply Z.eqb_neq in Hc. by rewrite Hc, IH. Qed.
Lemma first_line_all l : no_nl l -> first_line l = l.
Proof. intros Hl. induction Hl as [|c l Hc Hl IH]; [done|]. cbn. apply Z.eqb_neq in Hc. by rewrite Hc, IH. Qed.

Lemma first_line_unlines l ls : no_nl l -> first_line (unlines (l :: ls)) = l.
Proof. intros Hl. destruct ls; [by apply first_line_all|by apply first_line_app]. Qed.
Lemma drop_join sep l ls : drop (S (length l)) (join sep (l :: ls)) = join sep ls.
Proof.
  destruct ls as [|l' ls]; [apply drop_ge; cbn; lia|].
  change (join sep (l :: l' :: ls)) with (l ++ sep :: join sep (l' :: ls)).
  rewrite cons_middle, app_assoc. apply drop_app_length'. rewrite length_app. cbn. lia.
Qed.

(** The lines before one of them, each with its newline. *)
Definition before (ls : list (list Z)) : list Z := concat ((.++ [10]) <$> ls).

Lemma unlines_app ls1 l ls2 :
  unlines (ls1 ++ l :: ls2) = before ls1 ++ unlines (l :: ls2).
Proof.
  induction ls1 as [|l1 ls1 IH]; [done|]. cbn [app]. change (before (l1 :: ls1)) with ((l1 ++ [10]) ++ before ls1).
  rewrite <- !app_assoc, <- IH. by destruct ls1.
Qed.

Definition passwd_lines (us : list user_t) : list (list Z) := print_user <$> us.
Definition passwd (us : list user_t) : list Z := unlines (passwd_lines us).

Lemma field_no_nl l : field_ok l -> no_nl l.
Proof. intros Hl. eapply Forall_impl; [exact Hl|]. by intros c (_ & ? & _). Qed.

Lemma print_no_nl u : user_ok u -> no_nl (print_user u).
Proof.
  intros Hu. pose proof Hu as [H1 _ H3 H4 H5 H6]. pose proof (field_ok_pass u Hu) as H2. unfold print_user, no_nl.
  apply field_ok_dec, field_no_nl in H3, H4. apply field_no_nl in H1, H2, H5, H6.
  repeat (first [apply Forall_app; split; [assumption|] | apply Forall_cons; split; [done|] | assumption]).
Qed.
Lemma print_not_nil u : print_user u <> [].
Proof. unfold print_user. intros E. by apply app_nil in E as [_ ?]. Qed.

(** Search in lines from offset [o] on: the entry and the offset behind its
    line. *)
Section find_line.
Context {A : Type} (print : A -> list Z).
Implicit Types (test : A -> bool) (l : list A).

Fixpoint find_line test l (o : Z) : option (A * Z) :=
  match l with
  | [] => None
  | x :: l =>
      let o := o + Z.of_nat (S (length (print x))) in
      if test x then Some (x, o) else find_line test l o
  end.

Lemma find_at_Some test l o x o' :
  find_line test l o = Some (x, o') -> exists l1 l2, l = l1 ++ x :: l2 /\ test x = true /\
    Forall (fun x => test x = false) l1 /\
    o' = o + Z.of_nat (length (before (print <$> l1))) + Z.of_nat (length (print x)) + 1.
Proof.
  revert o. induction l as [|y l IH]; intros o; cbn [find_line]; [done|]. destruct (test y) eqn:E.
  - intros [= <- <-]. exists [], l. split_and!; [done..|]. cbn. lia.
  - intros (l1 & l2 & -> & Ht & Hall & ->)%IH. exists (y :: l1), l2. split_and!; [done|done|by constructor|].
    change (before (print <$> (y :: l1))) with ((print y ++ [10]) ++ before (print <$> l1)).
    rewrite !length_app. cbn. lia.
Qed.
Lemma find_at_None test l o : find_line test l o = None -> Forall (fun x => test x = false) l.
Proof.
  revert o. induction l as [|x l IH]; intros o; cbn [find_line]; [done|]. destruct (test x) eqn:E; [done|].
  intros Hn%IH. by constructor.
Qed.
Lemma find_at_absent test l o : Forall (fun x => test x = false) l -> find_line test l o = None.
Proof. intros Hall. revert o. induction Hall as [|x l E Hall IH]; intros o; cbn [find_line]; [done|]. by rewrite E. Qed.
Lemma find_at_here test l1 x l2 o :
  Forall (fun x => test x = false) l1 -> test x = true ->
  find_line test (l1 ++ x :: l2) o = Some (x, o + Z.of_nat (length (before (print <$> l1))) + Z.of_nat (length (print x)) + 1).
Proof.
  intros Hall Hx. revert o. induction Hall as [|y l1 E Hall IH]; intros o; cbn [app find_line]; [rewrite Hx; cbn; do 2 f_equal; lia|].
  rewrite E, IH. change (before (print <$> (y :: l1))) with ((print y ++ [10]) ++ before (print <$> l1)).
  rewrite !length_app. cbn. do 2 f_equal. lia.
Qed.
Lemma find_at_ext test test' l o :
  Forall (fun x => test x = test' x) l -> find_line test l o = find_line test' l o.
Proof.
  intros Hall. revert o. induction Hall as [|x l E Hall IH]; intros o; cbn [find_line]; [done|]. by rewrite E, IH.
Qed.
Lemma find_at_find test l o : fst <$> find_line test l o = find test l.
Proof. revert o. induction l as [|x l IH]; intros o; cbn [find_line find]; [done|]. by destruct (test x). Qed.
End find_line.
Abbreviation find_at := (find_line print_user).

(** A line replaced, as [changeline] does it. *)
Lemma unlines_replace ls1 l ls2 l' :
  Forall (fun l => l <> []) ls2 ->
  let d := unlines (ls1 ++ l :: ls2) in
  let start := length (before ls1) in
  take start d ++ new_tail l' (drop (start + length l + 1) d) = unlines (ls1 ++ l' :: ls2).
Proof.
  intros Hne d start. unfold d, start. rewrite !unlines_app. rewrite take_app_length. f_equal. rewrite drop_app_ge by lia.
  replace (_ + _ + 1 - _)%nat with (S (length l)) by lia.
  rewrite drop_join. unfold new_tail. destruct ls2 as [|l2 ls2]; [by rewrite app_nil_r|].
  assert (Hn : unlines (l2 :: ls2) <> []).
  { apply Forall_cons in Hne as [Hl2 _]. destruct ls2; cbn; [done|]. intros E. by apply app_nil in E as [_ ?]. }
  destruct (unlines (l2 :: ls2)) eqn:E; [done|]. by rewrite <- E.
Qed.
Lemma before_length ls1 l ls2 : (length (before ls1) + length l <= length (unlines (ls1 ++ l :: ls2)))%nat.
Proof. rewrite unlines_app, length_app. apply Nat.add_le_mono_l. destruct ls2; cbn; [lia|]. rewrite length_app. lia. Qed.

Lemma unlines_length_le ls1 l l' ls2 k :
  (length l' <= length l + k)%nat -> (length (unlines (ls1 ++ l' :: ls2)) <= length (unlines (ls1 ++ l :: ls2)) + k)%nat.
Proof. intros Hl. rewrite !unlines_app, !length_app. destruct ls2; cbn; rewrite ?length_app; cbn [length]; lia. Qed.

Section build.
Context {W : Type} (heap : nat -> Z).

(** *** Building a line *)

(** A buffer of [N] bytes that begins with [P]. *)
Definition built (P line : list Z) (N : nat) : Prop := exists R, line = P ++ R /\ length line = N.

Lemma strncpy_str l : str_ok l -> strncpy l (length l) = l.
Proof.
  intros Hl. induction Hl as [|c l Hz Hl IH]; [done|]. cbn [length strncpy chr hd tail].
  by rewrite (proj2 (truth_true c)), IH.
Qed.

Lemma put_str_built P line N s i n w (Q : list Z -> W -> Prop) :
  built P line N -> i = length P -> n = length s -> str_ok s -> (length P + length s <= N)%nat ->
  (forall line', built (P ++ s) line' N -> Q line' w) -> wp (put_str line i s n) Q w.
Proof.
  intros (R & -> & HN) -> -> Hs Hle HQ. unfold put_str. rewrite HN.
  rewrite (proj2 (Nat.leb_le _ N)) by lia. apply wp_ret, HQ. rewrite strncpy_str by done.
  rewrite length_app in HN. exists (drop (length s) R). unfold splice. rewrite take_app_length, drop_app_add'.
  - rewrite <- app_assoc. split; [done|]. len.
  - done.
Qed.

Lemma put_char_built P line N c i w (Q : list Z -> W -> Prop) :
  built P line N -> i = length P -> (length P < N)%nat ->
  (forall line', built (P ++ [c]) line' N -> Q line' w) -> wp (put_char line i c) Q w.
Proof.
  intros (R & -> & HN) -> Hlt HQ. rewrite length_app in HN. destruct R as [|x R]; [cbn in HN; lia|].
  apply store_end; [done|]. apply HQ. exists R. rewrite <- app_assoc. cbn. split; [done|].
  rewrite length_app. cbn. cbn in HN. lia.
Qed.

Lemma put_digits_spec k more (a b : list Z) x w (Q : list Z -> W -> Prop) :
  (forall y, 0 <= y -> more y = negb (y =? 0)) -> 0 <= x < 10 ^ Z.of_nat k -> (0 < k)%nat ->
  length a = length (dec k x) -> Q (dec k x ++ b) w ->
  wp (put_digits k more (a ++ b) (Z.of_nat (length a) - 1) x) Q w.
Proof.
  intros Hm. revert a b x. induction k as [|k IH]; intros a b x Hx Hk Ha HQ; [lia|].
  rewrite pow10_S in Hx. cbn [put_digits dec] in *.
  assert (Hq : 0 <= x / 10 < 10 ^ Z.of_nat k) by dlia.
  rewrite Z.rem_mod_nonneg, Z.quot_div_nonneg by lia.
  assert (Hsplit : exists a' y, a = a' ++ [y]).
  { destruct a as [|y a' _] using rev_ind; [|by exists a', y]. destruct (x <? 10); [done|].
    rewrite length_app in Ha. cbn in Ha. lia. }
  destruct Hsplit as (a' & y & ->). rewrite length_app in *. cbn [length] in *.
  rewrite (proj2 (Z.ltb_ge _ 0)) by lia. replace (Z.to_nat (Z.of_nat (length a' + 1) - 1)) with (length a') by lia.
  rewrite <- app_assoc. apply wp_bind, store_end; [done|]. cbn [app tail]. rewrite Hm by lia.
  destruct (Z.ltb_spec x 10).
  - rewrite Z.div_small, Z.mod_small in * by lia. cbn in Ha. cbn [Z.eqb negb]. apply wp_ret.
    by destruct a'; [|cbn in Ha; lia].
  - rewrite (proj2 (Z.eqb_neq (x / 10) 0)) by dlia. cbn [negb].
    replace (Z.of_nat (length a' + 1) - 1 - 1) with (Z.of_nat (length a') - 1) by lia.
    rewrite length_app in Ha. cbn in Ha.
    apply IH; [done|destruct k; [cbn in Hq; dlia|lia]|lia|]. by rewrite <- app_assoc in HQ.
Qed.

Lemma number_spec more x w (Q : list Z -> W -> Prop) :
  (forall y, 0 <= y -> more y = negb (y =? 0)) -> int_ok x -> Q (dec_int x) w ->
  wp (number heap more x) Q w.
Proof.
  intros Hm Hx HQ. pose proof (int_pow x Hx). unfold number, digitcount, malloc_bytes.
  rewrite digitcount_dec by (first [done|lia]). rewrite Nat2Z.id.
  set (a := heap <$> seq 0 (length (dec 11 x))).
  assert (Ha : length a = length (dec 11 x)) by (unfold a; by rewrite length_fmap, length_seq).
  rewrite <- (app_nil_r a), <- Ha. apply put_digits_spec; [done|done|lia|done|]. by rewrite app_nil_r.
Qed.

Lemma built_full P line N : built P line N -> length P = N -> line = P.
Proof.
  intros (R & -> & HN) HP. rewrite length_app in HN. assert (E : R = []) by (apply nil_length_inv; lia).
  rewrite E. apply app_nil_r.
Qed.

End build.

Ltac built_side := rewrite ?length_app; cbn [length]; lia.
Ltac built_str := apply wp_bind; eapply put_str_built; [eassumption|built_side|built_side|by (assumption || (apply field_str; assumption))|built_side|];
  let line := fresh "line" in intros line ?; cbv beta zeta.
Ltac built_char := apply wp_bind; eapply put_char_built; [eassumption|built_side|built_side|];
  let line := fresh "line" in intros line ?; cbv beta zeta.

Section auth.
Context {W : Type} `{UserSysSpec W} (junk : list Z) (past : Z) (heap : nat -> Z) (fuel : nat).

(** [writeuser] fills its line exactly. *)
Lemma writeuser_line fd u offset oldlength w Q :
  user_str u ->
  wp (if oldlength <=? 0 then let* r := addline fd (print_user u) in ret (r, offset)
      else changeline fuel fd (print_user u) passwdfile offset oldlength) Q w ->
  wp (writeuser heap fuel fd u offset oldlength) Q w.
Proof.
  intros Hu HQ. pose proof Hu as [Hn Hp Hi Hg Hf Hh].
  pose proof (field_ok_dec _ Hi) as Hdi. pose proof (field_ok_dec _ Hg) as Hdg.
  unfold writeuser. rewrite getuserlength_print by done. rewrite !strlen_str, !Nat2Z.id by done.
  set (N := length (print_user u)).
  assert (HN : N = (length (u_username u) + S (length (opt_str (u_password u)) + S (length (dec_int (u_uid u)) +
    S (length (dec_int (u_gid u)) + S (length (u_fullname u) + S (length (u_homedir u)))))))%nat).
  { unfold N, print_user. repeat (rewrite length_app; cbn [length]). lia. }
  assert (H1 : built [] (malloc_bytes heap N) N).
  { eexists. split; [done|]. unfold malloc_bytes. by rewrite length_fmap, length_seq. }
  built_str. built_char. apply wp_bind. set (P := ([] ++ u_username u) ++ [COLON]) in *.
  assert (HP : length P = S (length (u_username u))) by (unfold P; rewrite !length_app; cbn; lia).
  apply (wp_mono _ (fun '(line, i) w' => w' = w /\ built (P ++ opt_str (u_password u)) line N /\
     i = length (P ++ opt_str (u_password u)))).
  { destruct (u_password u) as [p|] eqn:Ep; cbn [opt_str default from_option id] in *.
    - rewrite strlen_str, Nat2Z.id by done. built_str. apply wp_ret. split_and!; [done|done|built_side].
    - apply wp_ret. rewrite app_nil_r. split_and!; [done|done|built_side]. }
  intros [line1 i1] ? (-> & Hb1 & ->). built_char.
  apply wp_bind, number_spec; [by intros y Hy; destruct (Z.ltb_spec 0 y), (Z.eqb_spec y 0); lia|done|]. built_str. built_char.
  apply wp_bind, number_spec; [done|done|]. built_str. built_char. built_str. built_char. built_str.
  match goal with Hb : built _ ?l N |- wp (if _ then _ else changeline _ _ ?l _ _ _) _ _ => apply built_full in Hb; [|built_side]; rewrite Hb end.
  unfold P in *. unfold print_user in HQ. rewrite <- !app_assoc. exact HQ.
Qed.

(** *** Searching *)

Context (Hjunk : length junk = BUFSIZE) (Hjunk0 : nth 0 junk 0 <> 10) (Hpast : past <> 10).

(** [getline] on a file of lines. *)
Lemma getline_next w v fd f d line linesize o l ls :
  reading w v fd f -> uv_data v !! f = Some d -> 0 <= o -> drop (Z.to_nat o) d = unlines (l :: ls) ->
  no_nl l -> l <> [] -> (2 * length d + 2 <= fuel)%nat -> (BUFSIZE <= linesize <= length line)%nat ->
  wp (getline junk past heap fuel fd line linesize o) (fun r w' => reading w' v fd f /\
    exists tl linesize' o', r = (0, (l ++ 0 :: tl, linesize', o')) /\
      (BUFSIZE <= linesize' <= length (l ++ 0%Z :: tl))%nat /\
      o' = o + Z.of_nat (S (length l)) /\ drop (Z.to_nat o') d = unlines ls) w.
Proof.
  intros [off Hw] Hd Ho Hdrop Hl Hne Hf Hsize.
  eapply wp_mono; [apply (getline_correct junk past heap w _ fd f off d line linesize o fuel Hw); try done;
    apply uv_set_fd_lookup|].
  rewrite Hdrop. intros [code [[line' linesize'] o']] w' [[off' Hw'] (Hl1 & Hl2 & Hdone)].
  rewrite uv_set_fd_twice in Hw'. split; [by exists off'|].
  rewrite !app_nil_l, first_line_unlines in Hdone by done. case_decide as En.
  { destruct ls; [done|]. by apply app_nil in En as [? _]. }
  destruct Hdone as (-> & -> & tl & ->). exists tl, linesize'. eexists. split_and!; [done..|].
  rewrite Z2Nat.inj_add, Nat2Z.id, <- drop_drop, Hdrop by lia. apply drop_join.
Qed.

Lemma getline_eof w v fd f d line linesize o :
  reading w v fd f -> uv_data v !! f = Some d -> 0 <= o -> drop (Z.to_nat o) d = [] ->
  (2 * length d + 2 <= fuel)%nat -> (BUFSIZE <= linesize <= length line)%nat ->
  wp (getline junk past heap fuel fd line linesize o) (fun r w' => reading w' v fd f /\ r.1 = -1) w.
Proof.
  intros [off Hw] Hd Ho Hdrop Hf Hsize.
  eapply wp_mono; [apply (getline_correct junk past heap w _ fd f off d line linesize o fuel Hw); try done;
    apply uv_set_fd_lookup|].
  rewrite Hdrop. intros [code [[line' linesize'] o']] w' [[off' Hw'] (_ & _ & -> & _)].
  rewrite uv_set_fd_twice in Hw'. split; [by exists off'|done].
Qed.

(** What a search returns. *)
Definition found {A} (v : uview) (fd : Z) (f : nat) (o : option (A * Z))
    (r : Z * option A * Z) (w' : W) : Prop :=
  reading w' v fd f /\
  match o with
  | Some (u, o') => r = (0, Some u, o')
  | None => r.1.1 = NOTFOUND
  end.

(** A line that reads as user [u]. *)
Record line_ok (l : list Z) (u : user_t) : Prop := {
  lo_nl : no_nl l;
  lo_ne : l <> [];
  lo_user : forall tl, user (l ++ 0 :: tl) = u;
  lo_name : field_ok (u_username u);
  lo_pass : forall p, u_password u = Some p -> field_ok p }.

Lemma line_ok_print u : user_ok u -> line_ok (print_user u) u.
Proof.
  intros Hu. constructor; [by apply print_no_nl|apply print_not_nil|intros tl; by apply user_print|apply Hu|].
  intros p Hp. by apply (uo_pass u Hu).
Qed.

(** The search in a file of lines that read as users: [print] gives the line
    of an entry and [val] the user it reads as. *)
Section search.
Context {A : Type} (print : A -> list Z) (val : A -> user_t).

Lemma find_user_lines v fd f d test us : forall k w line linesize usr o,
  reading w v fd f -> uv_data v !! f = Some d -> 0 <= o -> drop (Z.to_nat o) d = unlines (print <$> us) ->
  Forall (fun a => line_ok (print a) (val a)) us -> (length us < k)%nat -> (2 * length d + 2 <= fuel)%nat ->
  (BUFSIZE <= linesize <= length line)%nat ->
  wp (find_user junk past heap fuel k fd test line linesize usr o)
     (found v fd f (prod_map val id <$> find_line print (fun a => test (val a)) us o)) w.
Proof using All.
  induction us as [|u us IH]; intros [|k] w line linesize usr o Hw Hd Ho Hdrop Hus Hk Hf Hl; cbn [length] in Hk; try lia;
    cbn [find_user find_line]; apply wp_bind.
  - eapply wp_mono; [by apply (getline_eof w v fd f d)|]. intros [code [[line' linesize'] o']] w' [Hw' Hc].
    cbn in Hc. subst code. apply wp_ret. by split.
  - apply Forall_cons in Hus as [[L1 L2 L3 _ _] Hus]. eapply wp_mono.
    { by apply (getline_next w v fd f d line linesize o (print u) (print <$> us)). }
    intros r w' (Hw' & tl & linesize' & o' & -> & Hl' & -> & Hdrop'). cbn [Z.eqb negb]. rewrite L3.
    destruct (test (val u)); [by apply wp_ret|]. apply IH; try done; lia.
Qed.
End search.

Lemma find_user_spec v fd f d test us k w line linesize usr o :
  reading w v fd f -> uv_data v !! f = Some d -> 0 <= o -> drop (Z.to_nat o) d = passwd us ->
  Forall user_ok us -> (length us < k)%nat -> (2 * length d + 2 <= fuel)%nat ->
  (BUFSIZE <= linesize <= length line)%nat ->
  wp (find_user junk past heap fuel k fd test line linesize usr o) (found v fd f (find_at test us o)) w.
Proof using All.
  intros. eapply wp_mono; [apply (find_user_lines print_user id v fd f d test us); try done|].
  - eapply Forall_impl; [done|]. apply line_ok_print.
  - intros r w'. change (find_line print_user _ us o) with (find_at test us o). by destruct (find_at test us o) as [[u o']|].
Qed.

Definition has_name (name : list Z) (u : user_t) : bool := bool_decide (u_username u = cstr name).
(** The password is right, or the user has none. *)
Definition may_login (pwd : list Z) (u : user_t) : bool :=
  match u_password u with Some p => bool_decide (p = cstr pwd) | None => true end.

Lemma strcmp_test (p q : list Z) : field_ok p -> (strcmp p q =? 0) = bool_decide (p = cstr q).
Proof.
  intros Hp. pose proof (strcmp_eq p q) as E. rewrite (cstr_field p) in E by done.
  destruct (Z.eqb_spec (strcmp p q) 0) as [Es|Es]; case_bool_decide; naive_solver.
Qed.

Lemma login_test pwd u :
  (forall p, u_password u = Some p -> field_ok p) ->
  match u_password u with Some p => negb (strcmp p pwd =? 0) | None => false end = negb (may_login pwd u).
Proof.
  intros Hu. unfold may_login. destruct (u_password u) as [p|] eqn:E; [|done]. by rewrite strcmp_test by auto.
Qed.

Lemma finduserbyname_lines {A} (print : A -> list Z) val w v fd f us name usr :
  reading w v fd f -> uv_data v !! f = Some (unlines (print <$> us)) -> Forall (fun a => line_ok (print a) (val a)) us ->
  (2 * length (unlines (print <$> us)) + 2 <= fuel)%nat -> (length us < fuel)%nat ->
  wp (finduserbyname junk past heap fuel fd name usr 0)
     (found v fd f (prod_map val id <$> find_line print (fun a => has_name name (val a)) us 0)) w.
Proof using All.
  intros Hw Hd Hus Hf Hk. unfold finduserbyname.
  rewrite (find_at_ext print (fun a => has_name name (val a)) (fun a => strcmp (u_username (val a)) name =? 0)).
  - by apply (find_user_lines print val v fd f (unlines (print <$> us)) (fun u => strcmp (u_username u) name =? 0)).
  - eapply Forall_impl; [exact Hus|]. intros u Hu. unfold has_name. by rewrite strcmp_test by apply Hu.
Qed.

Lemma finduserbyname_spec w v fd f us name usr :
  reading w v fd f -> uv_data v !! f = Some (passwd us) -> Forall user_ok us ->
  (2 * length (passwd us) + 2 <= fuel)%nat -> (length us < fuel)%nat ->
  wp (finduserbyname junk past heap fuel fd name usr 0) (found v fd f (find_at (has_name name) us 0)) w.
Proof using All.
  intros Hw Hd Hus Hf Hk. eapply wp_mono; [apply (finduserbyname_lines print_user id w v fd f us); try done|].
  - eapply Forall_impl; [done|]. apply line_ok_print.
  - intros r w'. change (find_line print_user _ us 0) with (find_at (has_name name) us 0).
    by destruct (find_at (has_name name) us 0) as [[u o']|].
Qed.

(** Descriptors come and go. *)
Lemma close_reading w v fd f (Q : Z -> W -> Prop) :
  reading w v fd f -> uv_fd v !! fd = None -> (forall r w', us_rep w' v -> Q r w') -> wp (us_close fd) Q w.
Proof.
  intros [off Hw] Hfd HQ. eapply wp_mono; [by apply (us_close_spec w _ fd f off Hw), lookup_insert_eq|].
  intros r w' [_ Hw']. apply HQ. replace v with (uv_close fd (uv_set_fd fd f off v)); [done|].
  unfold uv_close, uv_set_fd. cbn. destruct v. cbn in *. by rewrite delete_insert_id.
Qed.

Lemma authuid_lines {A} (print : A -> list Z) val w v f us username pwd :
  us_rep w v -> uv_name v !! passwdfile = Some f -> uv_data v !! f = Some (unlines (print <$> us)) ->
  Forall (fun a => line_ok (print a) (val a)) us ->
  (2 * length (unlines (print <$> us)) + 2 <= fuel)%nat -> (length us < fuel)%nat ->
  wp (authuid junk past heap fuel username pwd) (fun r w' => us_rep w' v /\
    if uv_may v passwdfile u_RDONLY then
      match find (fun a => has_name username (val a)) us with
      | Some a => if may_login pwd (val a) then r.2 = Some (u_uid (val a)) else r = (AUTHFAIL, None)
      | None => r = (NOTFOUND, None)
      end
    else r = (NOPERMS, None)) w.
Proof using All.
  intros Hw Hn Hd Hus Hf Hk. unfold authuid. apply wp_bind.
  eapply wp_mono; [apply (us_open_old w v passwdfile f u_RDONLY Hw Hn); by left|].
  intros fd w1 Hopen. destruct (uv_may v passwdfile u_RDONLY); [|destruct Hopen as [-> Hw1]; by apply wp_ret].
  destruct Hopen as (Hfd & Hfree & Hw1). rewrite (proj2 (Z.ltb_ge fd 0)) by done. apply wp_bind.
  eapply wp_mono; [apply (finduserbyname_lines print val w1 v fd f us username None); try done; by exists 0|].
  intros [[code usr] o'] w2 [Hw2 Hr]. apply wp_bind. apply (close_reading w2 v fd f _ Hw2 Hfree). intros _ w3 Hw3.
  rewrite <- (find_at_find print (fun a => has_name username (val a)) us 0).
  destruct (find_line print _ us 0) as [[a o]|] eqn:E; cbn [fmap option_fmap option_map fst prod_map] in *.
  - injection Hr as -> -> ->. cbn [Z.ltb]. apply find_at_Some in E as (us1 & us2 & -> & _).
    apply Forall_app in Hus as [_ [Hu _]%Forall_cons]. apply wp_bind, (wp_deref _ _ (val a)); [done|].
    rewrite login_test by apply Hu. destruct (may_login pwd (val a)); cbn [negb]; [|by apply wp_ret].
    apply wp_bind. eapply wp_mono; [by apply (us_chdir_spec w3 v _ Hw3)|]. intros code w4 [_ Hw4]. by apply wp_ret.
  - cbn in Hr. subst code. by apply wp_ret.
Qed.

Lemma authuid_spec w v f us username pwd :
  us_rep w v -> uv_name v !! passwdfile = Some f -> uv_data v !! f = Some (passwd us) -> Forall user_ok us ->
  (2 * length (passwd us) + 2 <= fuel)%nat -> (length us < fuel)%nat ->
  wp (authuid junk past heap fuel username pwd) (fun r w' => us_rep w' v /\
    if uv_may v passwdfile u_RDONLY then
      match find (has_name username) us with
      | Some u => if may_login pwd u then r.2 = Some (u_uid u) else r = (AUTHFAIL, None)
      | None => r = (NOTFOUND, None)
      end
    else r = (NOPERMS, None)) w.
Proof using All.
  intros Hw Hn Hd Hus Hf Hk. apply (authuid_lines print_user id w v f us); try done.
  eapply Forall_impl; [done|]. apply line_ok_print.
Qed.

(** C23: logging in needs the password.  [authuid] gives the user id of the
    first user with the name, and only if that user has no password or the
    one given is it; the files stay as they are.  Otherwise it says that the
    user is unknown, that the password is wrong or that the database cannot
    be read. *)
Theorem authuid_correct w v f us username pwd :
  us_rep w v -> uv_name v !! passwdfile = Some f -> uv_data v !! f = Some (passwd us) -> Forall user_ok us ->
  (2 * length (passwd us) + 2 <= fuel)%nat -> (length us < fuel)%nat ->
  wp (authuid junk past heap fuel username pwd) (fun r w' => us_rep w' v /\
    if uv_may v passwdfile u_RDONLY then
      match find (has_name username) us with
      | Some u => if may_login pwd u then r.2 = Some (u_uid u) else r = (AUTHFAIL, None)
      | None => r = (NOTFOUND, None)
      end
    else r = (NOPERMS, None)) w.
Proof. apply authuid_spec. Qed.

(** *** Changing a password *)

(** Only the contents of file [f] differ, and files without a name. *)
Record rewritten (v : uview) (f : nat) (new : list Z) (v' : uview) : Prop := {
  rw_name : uv_name v' = uv_name v;
  rw_may : uv_may v' = uv_may v;
  rw_uid : uv_uid v' = uv_uid v;
  rw_fd : uv_fd v' = uv_fd v;
  rw_data : uv_data v' !! f = Some new;
  rw_rest : forall g x, g <> f -> uv_data v !! g = Some x -> uv_data v' !! g = Some x;
  rw_euid : uv_euid v' = uv_euid v;
  rw_dir : uv_dir v' = uv_dir v }.

(** Writing a user over its line. *)
Lemma writeuser_change w v fd f off us1 u us2 u' :
  let us := us1 ++ u :: us2 in
  let offset := Z.of_nat (length (before (passwd_lines us1))) + Z.of_nat (length (print_user u)) + 1 in
  us_rep w v -> uv_fd v !! fd = Some (f, off) -> uv_data v !! f = Some (passwd us) ->
  user_ok u -> user_str u' ->
  uv_name v !! tempfile passwdfile = None -> uv_may v (tempfile passwdfile) (Z.lor u_CREATE u_RDWR) = true ->
  (length (print_user u') + length (passwd us) + 1 <= fuel)%nat ->
  wp (writeuser heap fuel fd u' offset (getuserlength u)) (fun r w' => r.1 = 0 /\
    exists v', us_rep w' v' /\ edited v fd f (passwd (us1 ++ u' :: us2)) v') w.
Proof.
  intros us offset Hw Hfd Hd Hu Hu' Htn Htm Hf. apply writeuser_line; [done|]. rewrite getuserlength_print by (by apply user_ok_str).
  rewrite (proj2 (Z.leb_gt _ 0)) by (pose proof (print_not_nil u); destruct (print_user u); cbn; [done|lia]).
  pose proof (before_length (passwd_lines us1) (print_user u) (passwd_lines us2)) as Hlen.
  assert (E : passwd us = unlines (passwd_lines us1 ++ print_user u :: passwd_lines us2)) by (unfold us, passwd, passwd_lines; by rewrite fmap_app).
  rewrite <- E in Hlen. eapply wp_mono; [apply (changeline_correct w v fd f off (passwd us) passwdfile (print_user u')
    (Z.of_nat (length (before (passwd_lines us1)))) (Z.of_nat (length (print_user u))) fuel); try done; lia|].
  intros [code o'] w' (-> & _ & v' & Hw' & Hed). split; [done|]. exists v'. split; [done|].
  rewrite Nat2Z.id in Hed. replace (Z.to_nat _) with
    (length (before (passwd_lines us1)) + length (print_user u) + 1)%nat in Hed by lia.
  rewrite E, unlines_replace in Hed by (apply Forall_fmap, Forall_true, print_not_nil).
  unfold passwd, passwd_lines. by rewrite fmap_app.
Qed.

Lemma copy_str l : field_ok l -> cstr (safestrcpy l (strlen l + 1)) = l.
Proof. intros Hl. rewrite strlen_field by done. rewrite <- (app_nil_r l) at 1. by apply copy_field. Qed.

Lemma copy_any l : cstr (safestrcpy l (strlen l + 1)) = cstr l.
Proof.
  rewrite strlen_cstr. destruct (safestrcpy_correct l (Z.of_nat (length (cstr l)) + 1)) as [_ ->]; [lia|].
  apply take_ge. lia.
Qed.

Lemma user_str_password u p : user_ok u -> str_ok p -> user_str (u_with_password (Some p) u).
Proof. intros [H1 H2 H3 H4 H5 H6]%user_ok_str Hp. by constructor. Qed.

Lemma print_password_length u p :
  (length (print_user (u_with_password (Some p) u)) <= length (print_user u) + length p)%nat.
Proof. unfold print_user. cbn. repeat (rewrite length_app; cbn [length]). lia. Qed.

(** The caller may change the password of [u]. *)
Definition may_change (v : uview) (oldpwd : list Z) (u : user_t) : bool :=
  (uv_uid v =? 0) || ((u_uid u =? uv_uid v) && may_login oldpwd u).

Lemma changepass_spec w v f us username oldpwd newpwd :
  us_rep w v -> uv_name v !! passwdfile = Some f -> uv_data v !! f = Some (passwd us) -> Forall user_ok us ->
  uv_name v !! tempfile passwdfile = None -> uv_may v (tempfile passwdfile) (Z.lor u_CREATE u_RDWR) = true ->
  (length us < fuel)%nat -> (2 * length (passwd us) + length newpwd + 2 <= fuel)%nat ->
  wp (changepass junk past heap fuel username oldpwd newpwd) (fun code w' =>
    if uv_may v passwdfile u_RDWR then
      match find (has_name username) us with
      | Some u =>
          if may_change v oldpwd u
          then code = 0 /\ exists us1 us2 v', us = us1 ++ u :: us2 /\ Forall (fun u => has_name username u = false) us1 /\
                 us_rep w' v' /\ rewritten v f (passwd (us1 ++ u_with_password (Some (cstr newpwd)) u :: us2)) v'
          else code = NOPERMS /\ us_rep w' v
      | None => code = NOTFOUND /\ us_rep w' v
      end
    else code = NOPERMS /\ us_rep w' v) w.
Proof using All.
  intros Hw Hn Hd Hus Htn Htm Hk Hf. unfold changepass. apply wp_bind.
  eapply wp_mono; [apply (us_open_old w v passwdfile f u_RDWR Hw Hn); by right|].
  intros fd w1 Hopen. destruct (uv_may v passwdfile u_RDWR); [|destruct Hopen as [-> Hw1]; by apply wp_ret].
  destruct Hopen as (Hfd & Hfree & Hw1). rewrite (proj2 (Z.ltb_ge fd 0)) by done. apply wp_bind.
  eapply wp_mono; [apply (finduserbyname_spec w1 v fd f us username None); try done; [by exists 0|lia]|].
  intros [[code usr] o'] w2 [Hw2 Hr].
  rewrite <- (find_at_find print_user (has_name username) us 0).
  destruct (find_at (has_name username) us 0) as [[u o]|] eqn:E; cbn [fmap option_fmap option_map fst].
  2:{ cbn in Hr. subst code. apply wp_bind, (close_reading w2 v fd f _ Hw2 Hfree). intros _ w3 Hw3. by apply wp_ret. }
  injection Hr as -> -> ->. cbn [Z.ltb]. apply find_at_Some in E as (us1 & us2 & -> & _ & Hfirst & ->).
  pose proof Hus as [_ [Hu _]%Forall_cons]%Forall_app. apply wp_bind. destruct Hw2 as [off2 Hw2].
  eapply wp_mono; [by apply (us_getuid_spec w2 _ Hw2)|]. intros uid w3 [-> Hw3]. cbn [uv_uid uv_set_fd].
  apply wp_bind, (wp_deref _ _ u); [done|]. rewrite login_test by (intros p Hp; by apply (uo_pass u Hu)).
  rewrite <- negb_andb, <- negb_orb. fold (may_change v oldpwd u). destruct (may_change v oldpwd u); cbn [negb].
  2:{ apply wp_bind, (close_reading w3 v fd f); [by exists off2|done|]. intros _ w4 Hw4. by apply wp_ret. }
  rewrite copy_any. pose proof (cstr_str_ok newpwd) as Hnew. pose proof (cstr_length newpwd) as Hnl.
  set (u' := u_with_password (Some (cstr newpwd)) u). apply wp_bind.
  pose proof (before_length (passwd_lines us1) (print_user u) (passwd_lines us2)) as Hb.
  pose proof (print_password_length u (cstr newpwd)) as Hlen. fold u' in Hlen.
  assert (Ep : passwd (us1 ++ u :: us2) = unlines (passwd_lines us1 ++ print_user u :: passwd_lines us2)) by (unfold passwd, passwd_lines; by rewrite fmap_app).
  rewrite <- Ep in Hb. clear Ep.
  eapply wp_mono.
  { apply (writeuser_change w3 _ fd f off2 us1 u us2 u' Hw3); try done;
      [apply uv_set_fd_lookup|by apply user_str_password|lia]. }
  intros [code o2] w4 (Hcode & v' & Hw4 & [E1 E2 E3 [off' E4] E5 E6]). cbn in Hcode. subst code. apply wp_bind.
  eapply wp_mono; [apply (us_close_spec w4 v' fd f off' Hw4); rewrite E4; apply lookup_insert_eq|].
  intros r w5 [_ Hw5]. apply wp_ret. split; [done|]. exists us1, us2, (uv_close fd v'). split_and!; [done|done|done|].
  constructor; try done. cbn. rewrite E4. cbn. by rewrite insert_insert_eq, delete_insert_id.
Qed.

(** C24: a password change touches one field of the text.  [changepass] refuses
    unless the caller is the superuser or the user named, with the old
    password; then the file afterwards is the one before, with the characters
    of the new password, whatever they are, in the place of the old one in the
    first line of that user.  A password that is a field, without colons and
    newlines, is so the password of that user afterwards. *)
Theorem changepass_correct w v f us username oldpwd newpwd :
  us_rep w v -> uv_name v !! passwdfile = Some f -> uv_data v !! f = Some (passwd us) -> Forall user_ok us ->
  uv_name v !! tempfile passwdfile = None -> uv_may v (tempfile passwdfile) (Z.lor u_CREATE u_RDWR) = true ->
  (length us < fuel)%nat -> (2 * length (passwd us) + length newpwd + 2 <= fuel)%nat ->
  wp (changepass junk past heap fuel username oldpwd newpwd) (fun code w' =>
    if uv_may v passwdfile u_RDWR then
      match find (has_name username) us with
      | Some u =>
          if may_change v oldpwd u
          then code = 0 /\ exists us1 us2 v', us = us1 ++ u :: us2 /\ Forall (fun u => has_name username u = false) us1 /\
                 us_rep w' v' /\ rewritten v f (passwd (us1 ++ u_with_password (Some (cstr newpwd)) u :: us2)) v'
          else code = NOPERMS /\ us_rep w' v
      | None => code = NOTFOUND /\ us_rep w' v
      end
    else code = NOPERMS /\ us_rep w' v) w.
Proof using All. apply changepass_spec. Qed.

(** *** A password with colons *)

(** The fields of [x] from the password to the home directory, as one string. *)
Definition forged (x : user_t) : list Z :=
  opt_str (u_password x) ++ COLON :: dec_int (u_uid x) ++ COLON :: dec_int (u_gid x) ++ COLON ::
  u_fullname x ++ COLON :: u_homedir x.

Lemma forged_str x : user_ok x -> str_ok (forged x).
Proof.
  intros Hx. pose proof (field_ok_pass x Hx) as H2. destruct Hx as [H1 _ H3 H4 H5 H6].
  apply field_ok_dec, field_str in H3, H4. apply field_str in H1, H2, H5, H6. unfold forged, str_ok.
  repeat (first [apply Forall_app; split; [assumption|] | apply Forall_cons; split; [done|] | assumption]).
Qed.

(** The line of [u] with that string as its password reads as [x]. *)
Lemma forged_line u x : user_ok u -> user_ok x -> u_username x = u_username u -> u_password x <> None ->
  line_ok (print_user (u_with_password (Some (forged x)) u)) x.
Proof.
  intros Hu Hx En Hp.
  set (rest := COLON :: dec_int (u_uid u) ++ COLON :: dec_int (u_gid u) ++ COLON :: u_fullname u ++ COLON :: u_homedir u).
  assert (E : print_user (u_with_password (Some (forged x)) u) = print_user x ++ rest).
  { unfold print_user, forged, rest. cbn [u_with_password u_username u_password u_uid u_gid u_fullname u_homedir].
    change (opt_str (Some ?l)) with l. rewrite En. repeat (rewrite <- app_assoc; cbn [app]). done. }
  assert (Hr : no_nl rest).
  { pose proof Hu as [_ _ H3 H4 H5 H6]. apply field_ok_dec, field_no_nl in H3, H4. apply field_no_nl in H5, H6. unfold rest, no_nl.
    repeat (first [apply Forall_app; split; [assumption|] | apply Forall_cons; split; [done|] | assumption]). }
  rewrite E. constructor.
  - apply Forall_app. split; [by apply print_no_nl|done].
  - intros En'. apply app_nil in En' as [? _]. by eapply print_not_nil.
  - intros tl. rewrite <- app_assoc. unfold rest. cbn [app]. by apply user_print_more.
  - apply Hx.
  - intros p Hp'. by apply (uo_pass x Hx).
Qed.

(** C29: a new password is not checked for separators, and so any user can become
    any other: whoever may change the password of [u] can give a string as the
    new password after which the first part of it logs in, under the same name,
    as the user number of their choice, the superuser's for example. *)
Theorem password_with_colons w v f us username oldpwd u x :
  us_rep w v -> uv_name v !! passwdfile = Some f -> uv_data v !! f = Some (passwd us) -> Forall user_ok us ->
  uv_name v !! tempfile passwdfile = None -> uv_may v (tempfile passwdfile) (Z.lor u_CREATE u_RDWR) = true ->
  uv_may v passwdfile u_RDWR = true -> uv_may v passwdfile u_RDONLY = true ->
  find (has_name username) us = Some u -> may_change v oldpwd u = true ->
  user_ok x -> u_username x = u_username u -> u_password x <> None ->
  (length us < fuel)%nat -> (2 * length (passwd us) + 2 * length (forged x) + 2 <= fuel)%nat ->
  wp (do* changepass junk past heap fuel username oldpwd (forged x) in
      authuid junk past heap fuel username (opt_str (u_password x)))
    (fun r _ => r.2 = Some (u_uid x)) w.
Proof using All.
  intros Hw Hn Hd Hus Htn Htm Hrw Hrd Hfind Hmay Hx En Hp Hk Hf. apply wp_bind.
  eapply wp_mono; [apply (changepass_spec w v f us); try done; lia|]. rewrite Hrw, Hfind, Hmay.
  intros _ w1 (_ & us1 & us2 & v' & -> & Hfirst & Hw1 & [E1 E2 _ _ E5 _]).
  assert (Ec : cstr (forged x) = forged x) by (by apply cstr_str, forged_str). rewrite Ec in E5.
  set (u' := u_with_password (Some (forged x)) u) in *.
  apply Forall_app in Hus as [Hus1 [Hu Hus2]%Forall_cons].
  set (l := ((fun u => (print_user u, u)) <$> us1) ++ (print_user u', x) :: ((fun u => (print_user u, u)) <$> us2)).
  assert (El : passwd (us1 ++ u' :: us2) = unlines (fst <$> l)).
  { unfold passwd, passwd_lines, l. rewrite !fmap_app, !fmap_cons. by rewrite <- !list_fmap_compose. }
  assert (Hlen : (length (passwd (us1 ++ u' :: us2)) <= length (passwd (us1 ++ u :: us2)) + length (forged x))%nat).
  { unfold passwd, passwd_lines. rewrite !fmap_app, !fmap_cons. apply unlines_length_le. apply print_password_length. }
  assert (Hname : has_name username x = true).
  { apply find_some in Hfind as [_ Hh]. unfold has_name in *. by rewrite En. }
  eapply wp_mono; [apply (authuid_lines fst snd w1 v' f l)|].
  - done.
  - by rewrite E1.
  - by rewrite <- El.
  - unfold l. apply Forall_app. split; [|constructor; [by apply forged_line|]]; apply Forall_fmap.
    + eapply Forall_impl; [exact Hus1|]. apply line_ok_print.
    + eapply Forall_impl; [exact Hus2|]. apply line_ok_print.
  - rewrite <- El. lia.
  - unfold l. rewrite length_app in *. cbn [length] in *. rewrite !length_fmap. lia.
  - cbn beta. rewrite E2, Hrd. intros r w2 [_ Hr].
    assert (Ef : find (fun a => has_name username a.2) l = Some (print_user u', x)).
    { unfold l. clear -Hfirst Hname. induction Hfirst as [|y us1 Hy _ IH]; cbn; [by rewrite Hname|by rewrite Hy]. }
    rewrite Ef in Hr. cbn in Hr. destruct (u_password x) as [p|] eqn:Epx; [|done]. unfold may_login in Hr. rewrite Epx in Hr.
    cbn in Hr. rewrite (cstr_field p) in Hr by (by apply (uo_pass x Hx)). by rewrite bool_decide_true in Hr.
Qed.
End auth.
