(* ===== verification/Uauthgrp.v ===== *)
(** * Groups

    [user/uauthgrp.c]: the group database [/etc/group], a line per group with
    its name, number and members separated by commas; and the login program
    [user/getty.c], which turns both databases into the identity of a shell.

    A string is its bytes up to the terminator. *)

From S2P Require Import Prelude CString UserSys Ufile Uauth.

Definition COMMA : Z := 44.
Definition groupfile : list Z := [47; 101; 116; 99; 47; 103; 114; 111; 117; 112].
Definition EXISTS : Z := 1.
Definition UNKNOWN : Z := -666.

Record group_t := Group {
  g_groupname : list Z;
  g_gid : Z;
  g_users : option (list Z) }.

Definition g_with_users u (g : group_t) : group_t := Group (g_groupname g) (g_gid g) u.

Definition getgrouplength (grp : group_t) : Z :=
  strlen (g_groupname grp) + 1 + (digitcount (g_gid grp) + 1) +
  match g_users grp with Some u => strlen u | None => 0 end.

(** Copies of the attributes. *)
Definition groupfromattr (groupname : list Z) (gid : Z) (users : option (list Z)) : group_t :=
  Group (cstr (safestrcpy groupname (strlen groupname + 1))) gid
        ((fun u => cstr (safestrcpy u (strlen u + 1))) <$> users).

Definition group (line : list Z) : group_t :=
  let p1 := next_segment line in
  let p2 := next_segment p1 in
  Group (segment line) (atoi (segment p1))
    (if 1 <? segment_length p2 COLON then Some (segment p2) else None).

(** Append [username] to the members.  A member in first place is not noticed:
    its index is 0. *)
Definition addusertogroup (username : list Z) (grp : group_t) : Z * group_t :=
  match g_users grp with
  | None => (0, g_with_users (Some (cstr (safestrcpy username (strlen username + 1)))) grp)
  | Some users =>
      let code := findstrinsetdivsep username users COMMA in
      if 0 <? code then (EXISTS, grp)
      else if (code <? 0) && negb (code =? NOTFOUND) then (code, grp)
      else
        let n := Z.to_nat (strlen users) in
        (0, g_with_users (Some (strncpy users n ++ COMMA :: cstr (safestrcpy username (strlen username + 1)))) grp)
  end.

Section uauthgrp.
Context {W : Type} `{UserSys W} (junk : list Z) (past : Z) (heap : nat -> Z) (fuel : nat).

(** [users] without the [n] bytes from [code] on. *)
Definition cut_user (users : list Z) (length code n : Z) : list Z :=
  let '(n, code) := if 0 <? code then (n + 1, code - 1) else (n, code) in
  let newUsers := malloc_bytes heap (Z.to_nat (length - n + 1)) in
  let newUsers := splice 0 (strncpy users (Z.to_nat code)) newUsers in
  let end_ := code + n + 1 in
  cstr (splice (Z.to_nat code) (safestrcpy (drop (Z.to_nat end_) users) (length - end_ + 1)) newUsers).

Definition removeuserfromgroup (username : list Z) (grp : group_t) : M W (Z * group_t) :=
  let* users := deref (g_users grp) "users" in
  let code := findstrinsetdivsep username users COMMA in
  if code <? 0 then ret (code, grp) else
  let length := strlen users in
  match strchr (drop (Z.to_nat code) users) COMMA with
  | Some n => ret (0, g_with_users (Some (cut_user users length code n)) grp)
  | None =>
      let n := length - code in
      if length <=? n then ret (0, g_with_users None grp)
      else ret (0, g_with_users (Some (cut_user users length code n)) grp)
  end.

Definition writegroup (fd : Z) (grp : group_t) (offset oldlength : Z) : M W (Z * Z) :=
  let line := malloc_bytes heap (Z.to_nat (getgrouplength grp)) in
  let n := Z.to_nat (strlen (g_groupname grp)) in
  let i := n in
  let* line := put_str line 0 (g_groupname grp) n in
  let* line := put_char line i COLON in
  let i := S i in
  let* gidstring := number heap (fun temp => negb (temp =? 0)) (g_gid grp) in
  let* line := put_str line i gidstring (length gidstring) in
  let i := (i + length gidstring)%nat in
  let* line := put_char line i COLON in
  let i := S i in
  let* line :=
    match g_users grp with
    | Some u => put_str line i u (Z.to_nat (strlen u))
    | None => ret line
    end in
  if oldlength <=? 0 then
    let* r := addline fd line in ret (r, offset)
  else changeline fuel fd line groupfile offset oldlength.

(** [findgroupbyname] and [findgroupbygid]. *)
Fixpoint find_group (k : nat) (fd : Z) (test : group_t -> bool) (line : list Z) (linesize : nat)
    (grp : option group_t) (offset : Z) : M W (Z * option group_t * Z) :=
  match k with
  | O => fault "fuel"
  | S k =>
      let* (code, (line, linesize, offset)) := getline junk past heap fuel fd line linesize offset in
      if negb (code =? 0) then ret (NOTFOUND, grp, offset) else
      let g := group line in
      if test g then ret (0, Some g, offset)
      else find_group k fd test line linesize (Some g) offset
  end.

Definition findgroupbyname (fd : Z) (groupname : list Z) (grp : option group_t) (offset : Z) :
    M W (Z * option group_t * Z) :=
  find_group fuel fd (fun g => strcmp (g_groupname g) groupname =? 0)
    (malloc_bytes heap BUFSIZE) BUFSIZE grp offset.

Definition findgroupbygid (fd gid : Z) (grp : option group_t) (offset : Z) : M W (Z * option group_t * Z) :=
  find_group fuel fd (fun g => g_gid g =? gid) (malloc_bytes heap BUFSIZE) BUFSIZE grp offset.

Definition getgroupname (gid : Z) : M W (Z * option (list Z)) :=
  let* fd := us_open groupfile u_RDONLY in
  if fd <? 0 then ret (NOPERMS, None) else
  let* (code, grp, _) := findgroupbygid fd gid None 0 in
  do* us_close fd in
  if negb (code =? 0) then ret (code, None) else
  let* grp := deref grp "grp" in
  ret (0, Some (cstr (safestrcpy (g_groupname grp) (strlen (g_groupname grp) + 1)))).

Definition getgidforname (groupname : list Z) : M W (Z * option Z) :=
  let* fd := us_open groupfile u_RDONLY in
  if fd <? 0 then ret (NOPERMS, None) else
  let* (code, grp, _) := findgroupbyname fd groupname None 0 in
  do* us_close fd in
  let* grp := deref grp "grp" in
  ret (code, Some (g_gid grp)).

Fixpoint updateusername_loop (k : nat) (fd : Z) (username newUsername : list Z) (line : list Z)
    (linesize : nat) (offset : Z) : M W unit :=
  match k with
  | O => fault "fuel"
  | S k =>
      let* (code, (line, linesize, offset)) := getline junk past heap fuel fd line linesize offset in
      if negb (code =? 0) then ret tt else
      let grp := group line in
      match g_users grp with
      | None => updateusername_loop k fd username newUsername line linesize offset
      | Some _ =>
          let oldlength := getgrouplength grp in
          let* (code, grp) := removeuserfromgroup username grp in
          let grp := if 0 <=? code then snd (addusertogroup newUsername grp) else grp in
          let* (_, offset) := writegroup fd grp offset oldlength in
          updateusername_loop k fd username newUsername line linesize offset
      end
  end.

Definition updateusername (username newUsername : list Z) : M W Z :=
  let* fd := us_open groupfile u_RDWR in
  if fd <? 0 then ret NOPERMS else
  do* updateusername_loop fuel fd username newUsername (malloc_bytes heap BUFSIZE) BUFSIZE 0 in
  do* us_close fd in
  ret 0.

(** The first free number from [availablegid] on. *)
Fixpoint free_gid (k : nat) (fd availablegid : Z) (grp : option group_t) : M W Z :=
  match k with
  | O => fault "fuel"
  | S k =>
      let* (code, grp, _) := findgroupbygid fd availablegid grp 0 in
      if code =? 0 then
        do* us_lseek fd 0 u_SEEK_SET in
        free_gid k fd (s32 (availablegid + 1)) grp
      else ret availablegid
  end.

(** The result and the new value of [availablegid]. *)
Definition addgroup (group : list Z) (gid availablegid : Z) : M W (Z * Z) :=
  let* fd := us_open groupfile u_RDWR in
  if fd <? 0 then ret (NOPERMS, availablegid) else
  let* (code, grp, offset) := findgroupbyname fd group None 0 in
  if code =? 0 then do* us_close fd in ret (RESERVED, availablegid) else
  do* us_lseek fd 0 u_SEEK_SET in
  let* r :=
    if gid =? 0 then
      let* g := free_gid fuel fd availablegid grp in ret (Some (g, s32 (g + 1)))
    else
      let* (code, _, _) := findgroupbygid fd gid grp 0 in
      ret (if code =? 0 then None else Some (gid, availablegid)) in
  match r with
  | None => do* us_close fd in ret (RESERVED, availablegid)
  | Some (gid, availablegid) =>
      let* (code, _) := writegroup fd (groupfromattr group gid None) 0 0 in
      do* us_close fd in
      ret (code, availablegid)
  end.

(** The loop meant to remove the user from other groups: it runs as long as
    [getline] fails. *)
Fixpoint drop_groups (k : nat) (fd : Z) (username groups : list Z) (line : list Z) (linesize : nat)
    (offset : Z) : M W Z :=
  match k with
  | O => fault "fuel"
  | S k =>
      let* (code, (line, linesize, offset)) := getline junk past heap fuel fd line linesize offset in
      if code =? 0 then ret offset else
      let grp := group line in
      do* when findstrinsetdivsep (g_groupname grp) groups COMMA =? NOTFOUND then
        (let* _ := removeuserfromgroup username grp in ret tt) in
      drop_groups k fd username groups line linesize offset
  end.

(** Add the user to each group of the list, from index [i] on. *)
Fixpoint add_groups (k : nat) (fd : Z) (username groups : list Z) (length i : Z) (grp : option group_t) :
    M W unit :=
  if i <? length then
    match k with
    | O => fault "fuel"
    | S k =>
        let p := drop (Z.to_nat i) groups in
        let n := segment_length p COMMA in
        let group := cstr (safestrcpy p n) in
        do* us_lseek fd 0 u_SEEK_SET in
        let* (code, grp, offset) := findgroupbyname fd group grp 0 in
        if code <? 0 then add_groups k fd username groups length (i + n) None else
        let* grp := deref grp "grp" in
        let oldlength := getgrouplength grp in
        let grp := snd (addusertogroup username grp) in
        let* _ := writegroup fd grp offset oldlength in
        add_groups k fd username groups length (i + n) None
    end
  else ret tt.

Definition changegroups (username groups : list Z) (flag : Z) : M W Z :=
  let* fd := us_open groupfile u_RDWR in
  if fd <? 0 then ret NOPERMS else
  do* when negb (flag =? 1) then
    (let* _ := drop_groups fuel fd username groups (malloc_bytes heap BUFSIZE) BUFSIZE 0 in ret tt) in
  do* add_groups fuel fd username groups (strlen groups) 0 None in
  do* us_close fd in
  ret 0.

(** The numbers of the groups of [username], behind [gids]. *)
Fixpoint getgids_loop (k : nat) (fd : Z) (username : list Z) (gids : list Z) (line : list Z)
    (linesize : nat) (offset : Z) : M W (list Z) :=
  match k with
  | O => fault "fuel"
  | S k =>
      let* (code, (line, linesize, offset)) := getline junk past heap fuel fd line linesize offset in
      if negb (code =? 0) then ret gids else
      let grp := group line in
      match g_users grp with
      | None => getgids_loop k fd username gids line linesize offset
      | Some users =>
          let gids := if 0 <=? findstrinsetdivsep username users COMMA
                      then gids ++ [g_gid grp] else gids in
          getgids_loop k fd username gids line linesize offset
      end
  end.

Definition getgids (username : list Z) (gids : list Z) : M W (Z * list Z) :=
  let* fd := us_open groupfile u_RDONLY in
  if fd <? 0 then ret (NOPERMS, gids) else
  let* gids := getgids_loop fuel fd username gids (malloc_bytes heap BUFSIZE) BUFSIZE 0 in
  do* us_close fd in
  ret (0, gids).

(** ** user/getty.c *)

(** The line typed, without its last character. *)
Definition typed (buf : list Z) : list Z := cstr (safestrcpy buf (strlen buf)).

(** One attempt, with the two lines typed: the result, the user if it is set,
    and the groups.  The test [authuid < 0] compares the address of the
    function, and fails. *)
Definition getty (userbuf passbuf : list Z) (uid : option Z) (gids : list Z) :
    M W (Z * option Z * list Z) :=
  let username := typed userbuf in
  let password := typed passbuf in
  let* (success, uid') := authuid junk past heap fuel username password in
  let uid := match uid' with Some u => Some u | None => uid end in
  let* (_, gids) := getgids username gids in
  ret (success, uid, gids).

(** The loop of [main]: attempts until one succeeds; then the user and the
    groups given to [setuid] and [setgrps]. *)
Fixpoint login (attempts : list (list Z * list Z)) (uid : option Z) (gids : list Z) :
    M W (option (option Z * list Z)) :=
  match attempts with
  | [] => ret None
  | (userbuf, passbuf) :: attempts =>
      let* (success, uid, gids) := getty userbuf passbuf uid gids in
      if success =? 0 then ret (Some (uid, gids)) else login attempts uid gids
  end.
End uauthgrp.
