(* ===== verification/UauthgrpSpec.v ===== *)
(** * The groups of a login

    [getgids] collects the groups that have the user as a member.  The login
    program collects those of every name that was tried. *)

From S2P Require Import Prelude CString UserSys Ufile UfileSpec Uauth UauthSpec Uauthgrp.

(** ** Member lists *)

Definition name_ok (l : list Z) : Prop := field_ok l /\ Forall (fun c => c <> COMMA) l /\ l <> [].

Lemma strchr_comma l r : name_ok l -> strchr (l ++ COMMA :: r) COMMA = Some (Z.of_nat (length l)).
Proof.
  intros (Hf & Hc & _). induction l as [|c l IH]; [done|]. apply Forall_cons in Hf as [(H0 & _) Hf].
  apply Forall_cons in Hc as [Hc1 Hc]. cbn [app strchr length]. apply Z.eqb_neq in H0, Hc1.
  rewrite H0, Hc1, IH by done. cbn. f_equal. lia.
Qed.
Lemma strchr_no_comma l : name_ok l -> strchr l COMMA = None.
Proof.
  intros (Hf & Hc & _). induction l as [|c l IH]; [done|]. apply Forall_cons in Hf as [(H0 & _) Hf].
  apply Forall_cons in Hc as [Hc1 Hc]. cbn [strchr]. apply Z.eqb_neq in H0, Hc1. by rewrite H0, Hc1, IH.
Qed.

(** The first of some names. *)
Lemma first_name l ls :
  name_ok l -> segment_length (join COMMA (l :: ls)) COMMA = Z.of_nat (length l) + 1 /\
    cstr (safestrcpy (join COMMA (l :: ls)) (Z.of_nat (length l) + 1)) = l.
Proof.
  intros Hl. pose proof Hl as (Hf & _). unfold segment_length. destruct ls as [|l' ls].
  - change (join COMMA [l]) with l. rewrite strchr_no_comma, strlen_field by done. split; [done|].
    rewrite <- (app_nil_r l) at 1. by apply copy_field.
  - change (join COMMA (l :: l' :: ls)) with (l ++ COMMA :: join COMMA (l' :: ls)).
    rewrite strchr_comma by done. split; [done|]. by apply copy_field.
Qed.

Lemma join_ok ls : Forall name_ok ls -> field_ok (join COMMA ls).
Proof.
  intros Hls. induction Hls as [|l ls (Hl & _) Hls IH]; [constructor|]. destruct ls as [|l' ls]; [done|].
  apply Forall_app. split; [done|]. by constructor.
Qed.

Lemma findstr_spec str set names : forall k i,
  Forall name_ok names -> 0 <= i -> drop (Z.to_nat i) set = join COMMA names ->
  (length names <= k)%nat ->
  0 <= findstr_loop k str set COMMA (Z.of_nat (length set)) i <-> cstr str ∈ names.
Proof.
  induction names as [|l names IH]; intros k i Hn Hi Hdrop Hk.
  - assert (Hlen : Z.of_nat (length set) <= i).
    { pose proof (length_drop set (Z.to_nat i)) as E. rewrite Hdrop in E. cbn in E. lia. }
    assert (E : findstr_loop k str set COMMA (Z.of_nat (length set)) i = NOTFOUND).
    { destruct k; cbn [findstr_loop]; by rewrite (proj2 (Z.ltb_ge i _)). }
    rewrite E. unfold NOTFOUND. split; [lia|]. by intros ?%not_elem_of_nil.
  - apply Forall_cons in Hn as [Hl Hn]. pose proof Hl as (Hf & _ & Hne).
    destruct k as [|k]; cbn [length] in Hk; [lia|]. cbn [findstr_loop].
    assert (Hlt : i < Z.of_nat (length set)).
    { pose proof (length_drop set (Z.to_nat i)) as E. rewrite Hdrop in E.
      assert (0 < length (join COMMA (l :: names)))%nat; [|lia].
      destruct names; [|cbn; rewrite length_app]; destruct l; cbn; done || lia. }
    rewrite (proj2 (Z.ltb_lt i _)), Hdrop by done. destruct (first_name l names Hl) as [-> Ecopy].
    assert (Ecmp : (strcmp (safestrcpy (join COMMA (l :: names)) (Z.of_nat (length l) + 1)) str =? 0) =
              bool_decide (l = cstr str)).
    { pose proof (strcmp_eq (safestrcpy (join COMMA (l :: names)) (Z.of_nat (length l) + 1)) str) as E.
      rewrite Ecopy in E. destruct (Z.eqb_spec (strcmp (safestrcpy (join COMMA (l :: names)) (Z.of_nat (length l) + 1)) str) 0);
        case_bool_decide; naive_solver. }
    rewrite Ecmp, elem_of_cons. case_bool_decide as E; [split; [by left|lia]|].
    rewrite IH; [naive_solver|done|lia| |lia].
    replace (Z.to_nat (i + (Z.of_nat (length l) + 1))) with (Z.to_nat i + S (length l))%nat by lia.
    rewrite <- drop_drop, Hdrop. apply drop_join.
Qed.

Lemma names_count names : Forall name_ok names -> (length names <= length (join COMMA names))%nat.
Proof.
  intros Hn. induction Hn as [|l names (_ & _ & Hne) Hn IH]; [done|]. destruct l as [|c l]; [done|].
  destruct names as [|l' names]; [cbn; lia|].
  change (join COMMA ((c :: l) :: l' :: names)) with ((c :: l) ++ COMMA :: join COMMA (l' :: names)).
  rewrite length_app. cbn [length] in *. lia.
Qed.

(** [findstrinsetdivsep] decides membership. *)
Lemma findstr_member str names :
  Forall name_ok names -> (0 <=? findstrinsetdivsep str (join COMMA names) COMMA) = bool_decide (cstr str ∈ names).
Proof.
  intros Hn. unfold findstrinsetdivsep. rewrite strlen_field by (by apply join_ok).
  pose proof (findstr_spec str (join COMMA names) names (length (join COMMA names)) 0 Hn) as E.
  rewrite Nat2Z.id. specialize (E ltac:(lia) eq_refl (names_count names Hn)).
  case_bool_decide; [apply Z.leb_le|apply Z.leb_gt]; [by apply E|]. apply Z.nle_gt. by rewrite E.
Qed.

(** ** The database *)

(** A group with its members as a list. *)
Record members := Members { m_name : list Z; m_gid : Z; m_users : list (list Z) }.

Record members_ok (g : members) : Prop := {
  mo_name : field_ok (m_name g);
  mo_gid : int_ok (m_gid g);
  mo_users : Forall name_ok (m_users g) }.

Definition print_group (g : members) : list Z :=
  m_name g ++ COLON :: dec_int (m_gid g) ++ COLON :: join COMMA (m_users g).

Definition to_group (g : members) : group_t :=
  Group (m_name g) (m_gid g) (match m_users g with [] => None | us => Some (join COMMA us) end).

Lemma group_print g tl : members_ok g -> group (print_group g ++ 0 :: tl) = to_group g.
Proof.
  intros [H1 H2 H3]. pose proof (field_ok_dec _ H2) as Hd. pose proof (join_ok _ H3) as Hj.
  unfold print_group, group. repeat (rewrite <- app_assoc; cbn [app]).
  rewrite (proj2 (proj2 (segment_colon (m_name g) _ H1))), (proj2 (proj2 (segment_colon (dec_int (m_gid g)) _ Hd))).
  rewrite (proj1 (proj2 (segment_colon (m_name g) _ H1))), (proj1 (proj2 (segment_colon (dec_int (m_gid g)) _ Hd))).
  rewrite segment_last by done. unfold dec_int. rewrite atoi_dec by (first [by apply int_pow|apply H2|lia]).
  unfold to_group, segment_length. rewrite strchr_end, strlen_end by done. pose proof (names_count _ H3) as Hc.
  destruct (m_users g) as [|u us]; [done|]. cbn [length] in Hc. rewrite (proj2 (Z.ltb_lt 1 _)); [done|]. lia.
Qed.

Lemma print_group_no_nl g : members_ok g -> no_nl (print_group g).
Proof.
  intros [H1 H2 H3]. apply field_ok_dec, field_no_nl in H2. apply field_no_nl in H1. apply join_ok, field_no_nl in H3.
  unfold print_group, no_nl.
  repeat (first [apply Forall_app; split; [assumption|] | apply Forall_cons; split; [done|] | assumption]).
Qed.
Lemma print_group_not_nil g : print_group g <> [].
Proof. unfold print_group. intros E. by apply app_nil in E as [_ ?]. Qed.

Definition group_lines (gs : list members) : list (list Z) := print_group <$> gs.

(** The groups a user is a member of. *)
Definition groups_of (name : list Z) (gs : list members) : list Z :=
  m_gid <$> filter (fun g => name ∈ m_users g) gs.

Section grp.
Context {W : Type} `{UserSysSpec W} (junk : list Z) (past : Z) (heap : nat -> Z) (fuel : nat).
Context (Hjunk : length junk = BUFSIZE) (Hjunk0 : nth 0 junk 0 <> 10) (Hpast : past <> 10).

Lemma getgids_loop_spec v fd f d name gs : forall k w line linesize gids o,
  reading w v fd f -> uv_data v !! f = Some d -> 0 <= o -> drop (Z.to_nat o) d = unlines (group_lines gs) ->
  Forall members_ok gs -> (length gs < k)%nat -> (2 * length d + 2 <= fuel)%nat ->
  (BUFSIZE <= linesize <= length line)%nat ->
  wp (getgids_loop junk past heap fuel k fd name gids line linesize o)
     (fun r w' => reading w' v fd f /\ r = gids ++ groups_of (cstr name) gs) w.
Proof.
  induction gs as [|g gs IH]; intros [|k] w line linesize gids o Hw Hd Ho Hdrop Hgs Hk Hf Hl; cbn [length] in Hk; try lia;
    cbn [getgids_loop]; apply wp_bind.
  - eapply wp_mono; [by apply (getline_eof junk past heap fuel Hjunk Hjunk0 Hpast w v fd f d)|].
    intros [code [[line' linesize'] o']] w' [Hw' Hc]. cbn in Hc. subst code. apply wp_ret. by rewrite app_nil_r.
  - apply Forall_cons in Hgs as [Hg Hgs]. eapply wp_mono.
    { apply (getline_next junk past heap fuel Hjunk Hjunk0 Hpast w v fd f d line linesize o (print_group g) (group_lines gs));
        try done; [by apply print_group_no_nl|apply print_group_not_nil]. }
    intros r w' (Hw' & tl & linesize' & o' & -> & Hl' & -> & Hdrop'). cbn [Z.eqb negb]. rewrite group_print by done.
    assert (E : groups_of (cstr name) (g :: gs) =
              (if decide (cstr name ∈ m_users g) then [m_gid g] else []) ++ groups_of (cstr name) gs).
    { unfold groups_of. rewrite filter_cons. by case_decide. }
    rewrite E, app_assoc. unfold to_group. cbn [g_users g_gid].
    destruct (m_users g) as [|u us] eqn:Eu.
    + rewrite decide_False by (apply not_elem_of_nil). rewrite app_nil_r. apply IH; try done; lia.
    + rewrite <- Eu, findstr_member by apply Hg. rewrite Eu.
      replace (if bool_decide (cstr name ∈ u :: us) then gids ++ [m_gid g] else gids)
        with (gids ++ (if decide (cstr name ∈ u :: us) then [m_gid g] else [])).
      * apply IH; try done; lia.
      * case_bool_decide; case_decide; try done. by rewrite app_nil_r.
Qed.

(** The two databases, readable. *)
Record databases (v : uview) (us : list user_t) (gs : list members) : Prop := {
  db_passwd : exists f, uv_name v !! passwdfile = Some f /\ uv_data v !! f = Some (passwd us);
  db_group : exists f, uv_name v !! groupfile = Some f /\ uv_data v !! f = Some (unlines (group_lines gs));
  db_users : Forall user_ok us;
  db_groups : Forall members_ok gs;
  db_may : uv_may v passwdfile u_RDONLY = true /\ uv_may v groupfile u_RDONLY = true;
  db_fuel : (2 * length (passwd us) + 2 <= fuel /\ length us < fuel /\
             2 * length (unlines (group_lines gs)) + 2 <= fuel /\ length gs < fuel)%nat }.

Lemma getgids_spec w v us gs name gids :
  us_rep w v -> databases v us gs ->
  wp (getgids junk past heap fuel name gids)
     (fun r w' => us_rep w' v /\ r = (0, gids ++ groups_of (cstr name) gs)) w.
Proof.
  intros Hw [_ (f & Hn & Hd) _ Hgs [_ Hmay] (_ & _ & Hf & Hk)]. unfold getgids. apply wp_bind.
  eapply wp_mono; [apply (us_open_old w v groupfile f u_RDONLY Hw Hn); by left|]. rewrite Hmay.
  intros fd w1 (Hfd & Hfree & Hw1). rewrite (proj2 (Z.ltb_ge fd 0)) by done. apply wp_bind.
  eapply wp_mono.
  { apply (getgids_loop_spec v fd f (unlines (group_lines gs)) name gs fuel w1); try done; by exists 0. }
  intros r w2 [Hw2 ->]. apply wp_bind. apply (close_reading w2 v fd f _ Hw2 Hfree). intros _ w3 Hw3. by apply wp_ret.
Qed.

Definition groups_tried (gs : list members) (attempts : list (list Z * list Z)) : list Z :=
  concat ((fun a => groups_of (typed a.1) gs) <$> attempts).

Lemma cstr_typed buf : cstr (typed buf) = typed buf.
Proof. unfold typed. pose proof (cstr_app_zeros (safestrcpy buf (strlen buf)) 0) as E. by rewrite app_nil_r in E. Qed.

Lemma getty_spec w v us gs userbuf passbuf uid gids :
  us_rep w v -> databases v us gs ->
  wp (getty junk past heap fuel userbuf passbuf uid gids) (fun r w' => us_rep w' v /\
    exists code uid', r = (code, uid', gids ++ groups_of (typed userbuf) gs) /\
      (code = 0 -> exists u, find (has_name (typed userbuf)) us = Some u /\ may_login (typed passbuf) u = true /\
         uid' = Some (u_uid u))) w.
Proof.
  intros Hw Hdb. pose proof Hdb as [(f & Hn & Hd) _ Hus _ [Hmay _] (Hf & Hk & _)]. unfold getty. apply wp_bind.
  eapply wp_mono; [by apply (authuid_spec junk past heap fuel Hjunk Hjunk0 Hpast w v f us)|].
  intros [code uid'] w1 [Hw1 Hr]. apply wp_bind. eapply wp_mono; [by apply (getgids_spec w1 v us gs)|].
  intros r w2 [Hw2 ->]. apply wp_ret. split; [done|]. eexists _, _. rewrite cstr_typed. split; [done|].
  intros ->. rewrite Hmay in Hr. destruct (find (has_name (typed userbuf)) us) as [u|]; [|done]. exists u.
  destruct (may_login (typed passbuf) u); [|done]. cbn in Hr. by subst uid'.
Qed.

Lemma login_spec v us gs attempts : databases v us gs -> forall w uid gids,
  us_rep w v ->
  wp (login junk past heap fuel attempts uid gids) (fun r w' => us_rep w' v /\
    match r with
    | Some (uid, gids') => exists failed userbuf passbuf rest u,
        attempts = failed ++ (userbuf, passbuf) :: rest /\
        find (has_name (typed userbuf)) us = Some u /\ may_login (typed passbuf) u = true /\
        uid = Some (u_uid u) /\ gids' = gids ++ groups_tried gs (failed ++ [(userbuf, passbuf)])
    | None => True
    end) w.
Proof.
  intros Hdb. induction attempts as [|[ub pb] attempts IH]; intros w uid gids Hw; cbn [login]; [by apply wp_ret|].
  apply wp_bind. eapply wp_mono; [by apply (getty_spec w v us gs ub pb uid gids)|].
  intros r w1 (Hw1 & code & uid' & -> & Hok). destruct (Z.eqb_spec code 0) as [E|E].
  - apply wp_ret. split; [done|]. destruct (Hok E) as (u & Hu & Hl & ->). exists [], ub, pb, attempts, u.
    split_and!; [done..|]. unfold groups_tried. cbn. by rewrite app_nil_r.
  - eapply wp_mono; [by apply IH|]. intros [[uid2 gids2]|] w2 [Hw2 Hr]; [|done]. split; [done|].
    destruct Hr as (failed & ub2 & pb2 & rest & u & -> & Hu & Hl & -> & ->). exists ((ub, pb) :: failed), ub2, pb2, rest, u.
    split_and!; [done..|]. unfold groups_tried. cbn. by rewrite app_assoc.
Qed.

(** C30: what a login grants.  The shell gets the user id of an account whose
    password was typed, but its groups are those of every name tried since
    the prompt appeared: a failed attempt under another name adds the groups
    of that account. *)
Theorem login_grants w v us gs attempts :
  us_rep w v -> databases v us gs ->
  wp (login junk past heap fuel attempts None []) (fun r w' => us_rep w' v /\
    match r with
    | Some (uid, gids) => exists failed userbuf passbuf rest u,
        attempts = failed ++ (userbuf, passbuf) :: rest /\
        find (has_name (typed userbuf)) us = Some u /\ may_login (typed passbuf) u = true /\
        uid = Some (u_uid u) /\ gids = groups_tried gs (failed ++ [(userbuf, passbuf)])
    | None => True
    end) w.
Proof. intros Hw Hdb. by apply (login_spec v us gs attempts Hdb w None []). Qed.
End grp.
