(* ===== verification/UgroupSpec.v ===== *)
(** * Editing the group database

    [addgroup] appends a line to [/etc/group], and [changegroups] adds a user to
    the line of a group, on top of [addline] and [changeline]. *)

From S2P Require Import Prelude CString UserSys Ufile UfileSpec Uauth UauthSpec Uauthgrp UauthgrpSpec.

Abbreviation groups_file gs := (unlines (group_lines gs)).

Lemma getgrouplength_print g : members_ok g -> getgrouplength (to_group g) = Z.of_nat (length (print_group g)).
Proof.
  intros [H1 H2 H3]. unfold getgrouplength, to_group, digitcount. cbn [g_groupname g_gid g_users].
  rewrite strlen_field, (digitcount_dec 11) by (first [done|by apply int_pow|lia]). fold (dec_int (m_gid g)).
  assert (E : match (match m_users g with [] => None | us => Some (join COMMA us) end) with Some u => strlen u | None => 0 end =
              Z.of_nat (length (join COMMA (m_users g)))).
  { destruct (m_users g) as [|u us] eqn:Eu; [done|]. rewrite <- Eu in *. apply strlen_field, join_ok, H3. }
  rewrite E. unfold print_group. repeat (rewrite length_app; cbn [length]). lia.
Qed.

Section group_edit.
Context {W : Type} `{UserSysSpec W} (junk : list Z) (past : Z) (heap : nat -> Z) (fuel : nat).

(** [writegroup] fills its line exactly. *)
Lemma writegroup_line fd g offset oldlength w Q :
  members_ok g ->
  wp (if oldlength <=? 0 then let* r := addline fd (print_group g) in ret (r, offset)
      else changeline fuel fd (print_group g) groupfile offset oldlength) Q w ->
  wp (writegroup heap fuel fd (to_group g) offset oldlength) Q w.
Proof.
  intros Hg HQ. pose proof Hg as [Hn Hi Hu]. pose proof (field_ok_dec _ Hi) as Hd. pose proof (join_ok _ Hu) as Hj.
  unfold writegroup. rewrite getgrouplength_print by done. cbn [g_groupname g_gid g_users to_group].
  rewrite strlen_field, !Nat2Z.id by done. set (N := length (print_group g)).
  assert (HN : N = (length (m_name g) + S (length (dec_int (m_gid g)) + S (length (join COMMA (m_users g)))))%nat).
  { unfold N, print_group. repeat (rewrite length_app; cbn [length]). lia. }
  assert (H1 : built [] (malloc_bytes heap N) N).
  { eexists. split; [done|]. unfold malloc_bytes. by rewrite length_fmap, length_seq. }
  built_str. built_char. apply wp_bind, number_spec; [done|done|]. built_str. built_char. apply wp_bind.
  match goal with Hb : built ?P ?l N |- wp (match _ with Some _ => put_str ?l _ _ _ | None => _ end) _ _ =>
    apply (wp_mono _ (fun line w' => w' = w /\ built (P ++ join COMMA (m_users g)) line N)) end.
  { destruct (m_users g) as [|u us] eqn:Eu; [apply wp_ret; by rewrite app_nil_r|]. rewrite <- Eu in *.
    rewrite strlen_field, Nat2Z.id by done. eapply put_str_built; [eassumption|built_side|done|by apply field_str|built_side|]. done. }
  intros line' ? [-> Hb]. apply built_full in Hb; [|built_side]. rewrite Hb.
  unfold print_group in HQ. cbn [app] in HQ |- *. rewrite <- !app_assoc. exact HQ.
Qed.

(** A write at the end of a file. *)
Lemma write_end w v fd f d l :
  us_rep w (uv_set_fd fd f (Z.of_nat (length d)) v) -> uv_data v !! f = Some d ->
  wp (us_write fd l) (fun _ w' => us_rep w' (uv_set_fd fd f (Z.of_nat (length (d ++ l))) (uv_store f (d ++ l) v))) w.
Proof.
  intros Hw Hd. eapply wp_mono; [apply (us_write_spec w _ fd f _ d l Hw (uv_set_fd_lookup _ _ _ _) Hd); lia|].
  intros r w' [_ Hw']. rewrite Nat2Z.id, take_ge, drop_ge, app_nil_r in Hw' by lia.
  rewrite length_app, Nat2Z.inj_add. unfold uv_set_fd, uv_store in *. cbn in *. by rewrite insert_insert_eq in Hw'.
Qed.

Lemma addline_spec w v fd f off d line :
  us_rep w (uv_set_fd fd f off v) -> uv_data v !! f = Some d ->
  wp (addline fd line) (fun r w' => r = 0 /\ exists off', us_rep w' (uv_set_fd fd f off' (uv_store f (d ++ 10 :: line) v))) w.
Proof.
  intros Hw Hd. unfold addline. apply wp_bind.
  eapply wp_mono; [by apply (us_seek_end w _ fd f off d Hw (uv_set_fd_lookup _ _ _ _))|]. cbn beta. intros _ w1 Hw1.
  rewrite uv_set_fd_twice in Hw1. apply wp_bind. eapply wp_mono; [by apply (write_end w1 v fd f d [10])|]. cbn beta. intros _ w2 Hw2.
  apply wp_bind. eapply wp_mono; [apply (write_end w2 _ fd f (d ++ [10]) line Hw2), lookup_insert_eq|]. cbn beta. intros _ w3 Hw3.
  apply wp_ret. split; [done|]. eexists. rewrite <- app_assoc in Hw3. unfold uv_store in *. cbn in Hw3. rewrite insert_insert_eq in Hw3. exact Hw3.
Qed.

(** Closing a descriptor behind an edit. *)
Lemma close_edited w v fd f new v' (Q : Z -> W -> Prop) :
  us_rep w v' -> uv_fd v !! fd = None -> edited v fd f new v' ->
  (forall r w' v'', us_rep w' v'' -> rewritten v f new v'' -> Q r w') -> wp (us_close fd) Q w.
Proof.
  intros Hw Hfree [E1 E2 E3 [off E4] E5 E6] HQ.
  eapply wp_mono; [apply (us_close_spec w v' fd f off Hw); rewrite E4; apply lookup_insert_eq|].
  intros r w' [_ Hw']. apply (HQ r w' _ Hw'). constructor; try done. cbn. by rewrite E4, delete_insert_id.
Qed.
Lemma appended_edited v fd f off d : edited v fd f d (uv_set_fd fd f off (uv_store f d v)).
Proof.
  constructor; try done; cbn; [by exists off|apply lookup_insert_eq|]. intros g x Hg Hx. by rewrite lookup_insert_ne.
Qed.

Lemma unlines_snoc ls l : ls <> [] -> unlines (ls ++ [l]) = unlines ls ++ 10 :: l.
Proof.
  intros Hne. induction ls as [|l1 ls IH]; [done|]. destruct ls as [|l2 ls]; [done|].
  change (unlines ((l1 :: l2 :: ls) ++ [l])) with (l1 ++ 10 :: unlines ((l2 :: ls) ++ [l])).
  rewrite IH by done. change (unlines (l1 :: l2 :: ls)) with (l1 ++ 10 :: unlines (l2 :: ls)). by rewrite <- app_assoc.
Qed.

(** ** Searching *)

Context (Hjunk : length junk = BUFSIZE) (Hjunk0 : nth 0 junk 0 <> 10) (Hpast : past <> 10).

Definition as_group (o : option (members * Z)) : option (group_t * Z) := prod_map to_group id <$> o.

Lemma find_group_spec v fd f d (test : group_t -> bool) gs : forall k w line linesize grp o,
  reading w v fd f -> uv_data v !! f = Some d -> 0 <= o -> drop (Z.to_nat o) d = groups_file gs ->
  Forall members_ok gs -> (length gs < k)%nat -> (2 * length d + 2 <= fuel)%nat ->
  (BUFSIZE <= linesize <= length line)%nat ->
  wp (find_group junk past heap fuel k fd test line linesize grp o)
    (found v fd f (as_group (find_line print_group (fun g => test (to_group g)) gs o))) w.
Proof using All.
  induction gs as [|g gs IH]; intros [|k] w line linesize grp o Hw Hd Ho Hdrop Hgs Hk Hf Hl; cbn [length] in Hk; try lia;
    cbn [find_group find_line]; apply wp_bind.
  - eapply wp_mono; [by apply (getline_eof junk past heap fuel Hjunk Hjunk0 Hpast w v fd f d)|].
    intros [code [[line' linesize'] o']] w' [Hw' Hc]. cbn in Hc. subst code. apply wp_ret. by split.
  - apply Forall_cons in Hgs as [Hg Hgs]. eapply wp_mono.
    { apply (getline_next junk past heap fuel Hjunk Hjunk0 Hpast w v fd f d line linesize o (print_group g) (group_lines gs));
        try done; [by apply print_group_no_nl|apply print_group_not_nil]. }
    intros r w' (Hw' & tl & linesize' & o' & -> & Hl' & -> & Hdrop'). cbn [Z.eqb negb]. rewrite group_print by done.
    destruct (test (to_group g)); [by apply wp_ret|]. apply IH; try done; lia.
Qed.

Definition named (name : list Z) (g : members) : bool := bool_decide (m_name g = cstr name).

Lemma findgroupbyname_spec w v fd f gs name grp :
  reading w v fd f -> uv_data v !! f = Some (groups_file gs) -> Forall members_ok gs ->
  (2 * length (groups_file gs) + 2 <= fuel)%nat -> (length gs < fuel)%nat ->
  wp (findgroupbyname junk past heap fuel fd name grp 0) (found v fd f (as_group (find_line print_group (named name) gs 0))) w.
Proof using All.
  intros Hw Hd Hgs Hf Hk. unfold findgroupbyname.
  rewrite (find_at_ext print_group (named name) (fun g => strcmp (g_groupname (to_group g)) name =? 0)).
  - apply (find_group_spec v fd f (groups_file gs) (fun g => strcmp (g_groupname g) name =? 0)); done.
  - eapply Forall_impl; [exact Hgs|]. intros g Hg. unfold named. by rewrite strcmp_test by apply Hg.
Qed.
Lemma findgroupbygid_spec w v fd f gs gid grp :
  reading w v fd f -> uv_data v !! f = Some (groups_file gs) -> Forall members_ok gs ->
  (2 * length (groups_file gs) + 2 <= fuel)%nat -> (length gs < fuel)%nat ->
  wp (findgroupbygid junk past heap fuel fd gid grp 0)
    (found v fd f (as_group (find_line print_group (fun g => m_gid g =? gid) gs 0))) w.
Proof using All.
  intros. by apply (find_group_spec v fd f (groups_file gs) (fun g => g_gid g =? gid)).
Qed.

(** ** Adding a group *)

(** Seeking keeps a descriptor of [f] open. *)
Lemma seek_reading w v fd f n (Q : Z -> W -> Prop) :
  reading w v fd f -> 0 <= n -> (forall r w', reading w' v fd f -> Q r w') -> wp (us_lseek fd n u_SEEK_SET) Q w.
Proof.
  intros [off Hw] Hn HQ. eapply wp_mono; [by apply (us_seek_set w _ fd f off n Hw (uv_set_fd_lookup _ _ _ _))|].
  intros r w' Hw'. apply HQ. exists n. by rewrite uv_set_fd_twice in Hw'.
Qed.

Lemma addgroup_spec w v f gs name gid availablegid :
  us_rep w v -> uv_name v !! groupfile = Some f -> uv_data v !! f = Some (groups_file gs) ->
  uv_may v groupfile u_RDWR = true -> Forall members_ok gs -> gs <> [] ->
  (2 * length (groups_file gs) + 2 <= fuel)%nat -> (length gs < fuel)%nat ->
  field_ok name -> int_ok gid -> gid <> 0 -> Forall (fun g => m_name g <> name /\ m_gid g <> gid) gs ->
  wp (addgroup junk past heap fuel name gid availablegid) (fun r w' => r.1 = 0 /\
    exists v', us_rep w' v' /\ rewritten v f (groups_file (gs ++ [Members name gid []])) v') w.
Proof using All.
  intros Hw Hn Hd Hmay Hgs Hne Hf Hk Hname Hgid Hnz Hfresh. unfold addgroup. apply wp_bind.
  eapply wp_mono; [apply (us_open_old w v groupfile f u_RDWR Hw Hn); by right|]. rewrite Hmay.
  intros fd w1 (Hfd & Hfree & Hw1). rewrite (proj2 (Z.ltb_ge fd 0)) by done. apply wp_bind.
  eapply wp_mono; [apply (findgroupbyname_spec w1 v fd f gs name None); try done; by exists 0|].
  intros [[code grp] o] w2 [Hw2 Hr]. rewrite find_at_absent in Hr.
  2:{ eapply Forall_impl; [exact Hfresh|]. intros g [Hg _]. unfold named. rewrite cstr_field by done. by apply bool_decide_eq_false. }
  cbn in Hr. subst code. cbn [Z.eqb NOTFOUND]. apply wp_bind, (seek_reading w2 v fd f 0 _ Hw2); [lia|]. intros _ w3 Hw3.
  rewrite (proj2 (Z.eqb_neq gid 0)) by done. apply wp_bind, wp_bind.
  eapply wp_mono; [by apply (findgroupbygid_spec w3 v fd f gs gid grp)|].
  intros [[code grp'] o'] w4 [[off4 Hw4] Hr]. rewrite find_at_absent in Hr.
  2:{ eapply Forall_impl; [exact Hfresh|]. intros g [_ Hg]. by apply Z.eqb_neq. }
  cbn in Hr. subst code. cbn [Z.eqb NOTFOUND]. apply wp_ret, wp_bind.
  assert (Eg : groupfromattr name gid None = to_group (Members name gid [])) by (unfold groupfromattr; by rewrite copy_str).
  rewrite Eg. apply writegroup_line; [by constructor|]. cbn [Z.leb Z.compare]. apply wp_bind.
  eapply wp_mono; [by apply (addline_spec w4 v fd f off4 (groups_file gs))|]. intros r w5 (-> & off5 & Hw5). apply wp_ret, wp_bind.
  eapply (close_edited w5 v fd f _ _ _ Hw5 Hfree (appended_edited _ _ _ _ _)). intros r w6 v6 Hw6 Hrw. apply wp_ret.
  split; [done|]. exists v6. split; [done|]. unfold group_lines in *. rewrite fmap_app. cbn [fmap list_fmap].
  rewrite unlines_snoc; [done|]. by destruct gs.
Qed.

(** ** Adding a user to a group *)

Lemma edited_set_fd v fd f off new v' : edited (uv_set_fd fd f off v) fd f new v' -> edited v fd f new v'.
Proof.
  intros [E1 E2 E3 [o E4] E5 E6]. constructor; try done. exists o. rewrite E4. cbn. by rewrite insert_insert_eq.
Qed.

Definition m_with_users us (g : members) : members := Members (m_name g) (m_gid g) us.

(** The line of [g] is replaced. *)
Lemma writegroup_change w v fd f off gs1 g gs2 g' :
  let gs := gs1 ++ g :: gs2 in
  let offset := Z.of_nat (length (before (group_lines gs1))) + Z.of_nat (length (print_group g)) + 1 in
  us_rep w (uv_set_fd fd f off v) -> uv_data v !! f = Some (groups_file gs) -> members_ok g -> members_ok g' ->
  uv_name v !! tempfile groupfile = None -> uv_may v (tempfile groupfile) (Z.lor u_CREATE u_RDWR) = true ->
  (length (print_group g') + length (groups_file gs) + 1 <= fuel)%nat ->
  wp (writegroup heap fuel fd (to_group g') offset (getgrouplength (to_group g))) (fun r w' => r.1 = 0 /\
    exists v', us_rep w' v' /\ edited v fd f (groups_file (gs1 ++ g' :: gs2)) v') w.
Proof.
  intros gs offset Hw Hd Hg Hg' Htn Htm Hf. apply writegroup_line; [done|]. rewrite getgrouplength_print by done.
  rewrite (proj2 (Z.leb_gt _ 0)) by (pose proof (print_group_not_nil g); destruct (print_group g); cbn; [done|lia]).
  pose proof (before_length (group_lines gs1) (print_group g) (group_lines gs2)) as Hlen.
  assert (E : groups_file gs = unlines (group_lines gs1 ++ print_group g :: group_lines gs2)) by (unfold gs, group_lines; by rewrite fmap_app).
  rewrite <- E in Hlen. eapply wp_mono; [apply (changeline_correct w _ fd f off (groups_file gs) groupfile (print_group g')
    (Z.of_nat (length (before (group_lines gs1)))) (Z.of_nat (length (print_group g))) fuel Hw (uv_set_fd_lookup _ _ _ _)); try done; lia|].
  intros [code o'] w' (-> & _ & v' & Hw' & Hed). split; [done|]. exists v'. split; [done|]. apply edited_set_fd in Hed.
  rewrite Nat2Z.id in Hed. replace (Z.to_nat _) with
    (length (before (group_lines gs1)) + length (print_group g) + 1)%nat in Hed by lia.
  rewrite E, unlines_replace in Hed by (apply Forall_fmap, Forall_true, print_group_not_nil).
  unfold group_lines. by rewrite fmap_app.
Qed.

(** The first loop of [changegroups] ends at once. *)
Lemma drop_groups_spec w v fd f gs username groups :
  reading w v fd f -> uv_data v !! f = Some (groups_file gs) -> Forall members_ok gs -> gs <> [] ->
  (2 * length (groups_file gs) + 2 <= fuel)%nat ->
  wp (drop_groups junk past heap fuel fuel fd username groups (malloc_bytes heap BUFSIZE) BUFSIZE 0) (fun _ w' => reading w' v fd f) w.
Proof using All.
  intros Hw Hd Hgs Hne Hf. destruct gs as [|g gs]; [done|]. apply Forall_cons in Hgs as [Hg _].
  destruct fuel as [|k] eqn:Ef; [lia|]. cbn [drop_groups]. rewrite <- Ef in *. apply wp_bind. eapply wp_mono.
  { apply (getline_next junk past heap fuel Hjunk Hjunk0 Hpast w v fd f _ _ BUFSIZE 0 (print_group g) (group_lines gs) Hw Hd);
      try done; [by apply print_group_no_nl|apply print_group_not_nil]. }
  intros r w' (Hw' & tl & linesize' & o' & -> & _). by apply wp_ret.
Qed.

Lemma addusertogroup_first username g :
  field_ok username -> m_users g = [] ->
  snd (addusertogroup username (to_group g)) = to_group (m_with_users [username] g).
Proof. intros Hu Hnone. unfold addusertogroup, to_group. rewrite Hnone. cbn. by rewrite copy_str. Qed.

(** The second loop, for a list of one group. *)
Lemma add_groups_one w v fd f gs1 g gs2 username :
  let gs := gs1 ++ g :: gs2 in
  reading w v fd f -> uv_data v !! f = Some (groups_file gs) ->
  uv_name v !! tempfile groupfile = None -> uv_may v (tempfile groupfile) (Z.lor u_CREATE u_RDWR) = true ->
  Forall members_ok gs -> (2 * length (groups_file gs) + length username + 2 <= fuel)%nat -> (length gs < fuel)%nat ->
  name_ok username -> name_ok (m_name g) -> m_users g = [] -> Forall (fun x => m_name x <> m_name g) gs1 ->
  wp (add_groups junk past heap fuel fuel fd username (m_name g) (strlen (m_name g)) 0 None) (fun _ w' =>
    exists v', us_rep w' v' /\ edited v fd f (groups_file (gs1 ++ m_with_users [username] g :: gs2)) v') w.
Proof using All.
  intros gs Hw Hd Htn Htm Hgs Hf Hk Huser Hname Hnone Hfirst. pose proof Hname as (Hfield & _ & Hne).
  pose proof Hgs as [_ [Hg _]%Forall_cons]%Forall_app.
  destruct fuel as [|k] eqn:Ef; [lia|]. cbn [add_groups]. rewrite <- Ef in *. rewrite strlen_field by done.
  assert (0 < length (m_name g))%nat by (destruct (m_name g); [done|cbn; lia]).
  rewrite (proj2 (Z.ltb_lt 0 _)), drop_0 by lia. 
  destruct (first_name (m_name g) [] Hname) as [E1 E2]. change (join COMMA [m_name g]) with (m_name g) in *. rewrite E1, E2. clear E1 E2.
  apply wp_bind, (seek_reading w v fd f 0 _ Hw); [lia|]. intros _ w1 Hw1. apply wp_bind.
  eapply wp_mono; [apply (findgroupbyname_spec w1 v fd f gs (m_name g) None); try done; lia|].
  intros [[code grp] o] w2 [[off2 Hw2] Hr]. unfold gs in Hr. rewrite find_at_here in Hr.
  2:{ eapply Forall_impl; [exact Hfirst|]. intros x Hx. unfold named. rewrite cstr_field by done. by apply bool_decide_eq_false. }
  2:{ unfold named. rewrite cstr_field by done. by apply bool_decide_eq_true. }
  cbn in Hr. injection Hr as -> -> ->. cbn [Z.ltb Z.compare].
  apply wp_bind, (wp_deref _ _ (to_group g)); [done|]. rewrite addusertogroup_first by (done || apply Huser).
  apply wp_bind. eapply wp_mono; [apply (writegroup_change w2 v fd f off2 gs1 g gs2 (m_with_users [username] g)); try done|].
  - destruct Hg as [_ Hgid _]. by constructor; [|done|apply Forall_singleton].
  - fold gs. pose proof (before_length (group_lines gs1) (print_group g) (group_lines gs2)) as Hlen.
    replace (group_lines gs1 ++ print_group g :: group_lines gs2) with (group_lines gs) in Hlen by (unfold gs, group_lines; by rewrite fmap_app).
    unfold print_group in *. cbn [m_with_users m_name m_gid m_users join]. rewrite Hnone in Hlen. cbn [join] in Hlen.
    repeat (rewrite length_app in Hlen; cbn [length] in Hlen). repeat (rewrite length_app; cbn [length]). lia.
  - intros r w3 (_ & v3 & Hw3 & Hed). replace (0 + (Z.of_nat (length (m_name g)) + 1)) with (Z.of_nat (length (m_name g)) + 1) by lia.
    destruct k; cbn [add_groups]; rewrite (proj2 (Z.ltb_ge _ _)) by lia; apply wp_ret; by exists v3.
Qed.

(** A fresh group gets its first member. *)
Lemma changegroups_spec w v f gs1 g gs2 username :
  let gs := gs1 ++ g :: gs2 in
  us_rep w v -> uv_name v !! groupfile = Some f -> uv_data v !! f = Some (groups_file gs) ->
  uv_may v groupfile u_RDWR = true -> uv_name v !! tempfile groupfile = None ->
  uv_may v (tempfile groupfile) (Z.lor u_CREATE u_RDWR) = true -> Forall members_ok gs ->
  (2 * length (groups_file gs) + length username + 2 <= fuel)%nat -> (length gs < fuel)%nat ->
  name_ok username -> name_ok (m_name g) -> m_users g = [] -> Forall (fun x => m_name x <> m_name g) gs1 ->
  wp (changegroups junk past heap fuel username (m_name g) 0) (fun r w' => r = 0 /\
    exists v', us_rep w' v' /\ rewritten v f (groups_file (gs1 ++ m_with_users [username] g :: gs2)) v') w.
Proof using All.
  intros gs Hw Hn Hd Hmay Htn Htm Hgs Hf Hk Huser Hname Hnone Hfirst. unfold changegroups. apply wp_bind.
  eapply wp_mono; [apply (us_open_old w v groupfile f u_RDWR Hw Hn); by right|]. rewrite Hmay.
  intros fd w1 (Hfd & Hfree & Hw1). rewrite (proj2 (Z.ltb_ge fd 0)) by done. cbn [Z.eqb negb]. apply wp_bind, wp_bind.
  eapply wp_mono; [apply (drop_groups_spec w1 v fd f gs); try done; [by exists 0|unfold gs; by destruct gs1|lia]|].
  cbn beta. intros _ w2 Hw2. apply wp_ret, wp_bind. eapply wp_mono; [by apply (add_groups_one w2 v fd f gs1 g gs2 username)|].
  cbn beta. intros _ w3 (v3 & Hw3 & Hed). apply wp_bind, (close_edited w3 v fd f _ v3 _ Hw3 Hfree Hed).
  intros r w4 v4 Hw4 Hrw. apply wp_ret. split; [done|]. by exists v4.
Qed.
End group_edit.
