(* ===== verification/Mkfs.v ===== *)
(** * The file system image

    [tools/mkfs.c], which builds the disk the kernel boots from.  The image is
    a map from sectors to blocks; a failed [assert] and a failed read of the
    image end the program ([panic]).  Reading, writing and seeking in the image
    are assumed to work otherwise.  [xshort] and [xint] store numbers in the
    byte order of the disk, which is the one [Layout] decodes. *)

From S2P Require Import Prelude Bio Layout Log CString Fs.

Definition NINODES : Z := 200.

Definition nbitmap : Z := FSSIZE / (BSIZE * 8) + 1.
Definition ninodeblocks : Z := NINODES / IPB + 1.
Definition nlog : Z := LOGSIZE.
Definition nmeta : Z := 2 + nlog + ninodeblocks + nbitmap.
Definition nblocks : Z := FSSIZE - nmeta.

Definition mk_sb : superblock :=
  SuperBlock FSSIZE nblocks NINODES nlog 2 (2 + nlog) (2 + nlog + ninodeblocks).

Record mk := Mk { mk_img : gmap Z (list Z); mk_freeinode : Z; mk_freeblock : Z }.

Definition xshort (x : Z) : Z := u16 x.
Definition xint (x : Z) : Z := u32 x.

Definition wsect (sec : Z) (buf : list Z) : M mk unit :=
  modify (fun s => Mk (<[sec := buf]> (mk_img s)) (mk_freeinode s) (mk_freeblock s)).

Definition rsect (sec : Z) : M mk (list Z) :=
  let* s := get in
  match mk_img s !! sec with
  | Some buf => ret buf
  | None => panic "read"
  end.

Definition winode (inum : Z) (ip : dinode) : M mk unit :=
  let bn := IBLOCK inum mk_sb in
  let* buf := rsect bn in
  wsect bn (put_dinode (Z.to_nat (inum mod IPB)) ip buf).

Definition rinode (inum : Z) : M mk dinode :=
  let bn := IBLOCK inum mk_sb in
  let* buf := rsect bn in
  ret (get_dinode (Z.to_nat (inum mod IPB)) buf).

(** [freeblock++] and [freeinode++]. *)
Definition next_block : M mk Z :=
  let* s := get in
  do* modify (fun s => Mk (mk_img s) (mk_freeinode s) (u32 (mk_freeblock s + 1))) in
  ret (mk_freeblock s).
Definition next_inode : M mk Z :=
  let* s := get in
  do* modify (fun s => Mk (mk_img s) (u32 (mk_freeinode s + 1)) (mk_freeblock s)) in
  ret (mk_freeinode s).

Definition ialloc (type permission : Z) : M mk Z :=
  let* inum := next_inode in
  do* winode inum (DInode (xshort type) 0 0 (xshort 1) (xint 0) (replicate (S NDIRECT) 0) 0 0 permission) in
  ret inum.

(** [buf[i/8] = buf[i/8] | (0x1 << (i%8))] for all [i < used]. *)
Fixpoint bitmap (n : nat) (buf : list Z) : list Z :=
  match n with
  | O => buf
  | S i => let buf := bitmap i buf in
           <[(i / 8)%nat := Z.lor (byte_at buf (i / 8)) (2 ^ Z.of_nat (i mod 8))]> buf
  end.

Definition balloc (used : Z) : M mk unit :=
  if negb (used <? BSIZE * 8) then panic "assert" else
  wsect (sb_bmapstart mk_sb) (bitmap (Z.to_nat used) zero_block).

(** The block of [din] that holds block [fbn] of the file, allocated if it is
    not there yet. *)
Definition file_sector (din : dinode) (fbn : nat) : M mk (dinode * Z) :=
  if (fbn <? NDIRECT)%nat then
    let* a := deref (d_addrs din !! fbn) "addrs" in
    if xint a =? 0 then
      let* b := next_block in
      ret (d_with_addrs (<[fbn := xint b]> (d_addrs din)) din, xint (xint b))
    else ret (din, xint a)
  else
    let* a := deref (d_addrs din !! NDIRECT) "addrs" in
    let* din :=
      if xint a =? 0 then
        let* b := next_block in
        ret (d_with_addrs (<[NDIRECT := xint b]> (d_addrs din)) din)
      else ret din in
    let* a := deref (d_addrs din !! NDIRECT) "addrs" in
    let* indirect := rsect (xint a) in
    let e := get_le 4 (4 * (fbn - NDIRECT)) indirect in
    if e =? 0 then
      let* b := next_block in
      do* wsect (xint a) (put_le 4 (4 * (fbn - NDIRECT)) (xint b) indirect) in
      ret (din, xint (xint b))
    else ret (din, xint e).

(** The loop of [iappend]; each turn appends at least a byte. *)
Fixpoint iappend_loop (fuel : nat) (din : dinode) (off : Z) (p : list Z) : M mk (dinode * Z) :=
  match p with
  | [] => ret (din, off)
  | _ =>
      match fuel with
      | O => fault "fuel"
      | S fuel =>
          let fbn := off / BSIZE in
          if negb (fbn <? MAXFILE) then panic "assert" else
          let* (din, x) := file_sector din (Z.to_nat fbn) in
          let n1 := Z.min (Z.of_nat (length p)) ((fbn + 1) * BSIZE - off) in
          let* buf := rsect x in
          do* wsect x (splice (Z.to_nat (off - fbn * BSIZE)) (take (Z.to_nat n1) p) buf) in
          iappend_loop fuel din (u32 (off + n1)) (drop (Z.to_nat n1) p)
      end
  end.

Definition iappend (inum : Z) (xp : list Z) : M mk unit :=
  let* din := rinode inum in
  let* (din, off) := iappend_loop (length xp) din (xint (d_size din)) xp in
  winode inum (d_with_size (xint off) din).

(** A directory entry: [bzero], the number and [strcpy] of the name. *)
Definition entry (inum : Z) (name : list Z) : list Z :=
  enc_dirent (DirEnt (xshort inum) (take DIRSIZ (name ++ replicate DIRSIZ 0))).

(** A directory [name] in [parent] with its entries for itself and the parent. *)
Definition makedir (parent : Z) (name : list Z) : M mk Z :=
  let* ino := ialloc T_DIR 493 in
  do* iappend ino (entry ino [46]) in
  do* iappend ino (entry parent [46; 46]) in
  do* iappend parent (entry ino name) in
  ret ino.

Record dirs := Dirs { rootino : Z; devino : Z; binino : Z; homeino : Z; rootuserino : Z; etcino : Z }.

Definition makedirs : M mk dirs :=
  let* rootino := ialloc T_DIR 493 in
  if negb (rootino =? ROOTINO) then panic "assert" else
  do* iappend rootino (entry rootino [46]) in
  do* iappend rootino (entry rootino [46; 46]) in
  let* devino := makedir rootino [100; 101; 118] in
  let* binino := makedir rootino [98; 105; 110] in
  let* homeino := makedir rootino [104; 111; 109; 101] in
  let* rootuserino := makedir homeino [114; 111; 111; 116] in
  let* etcino := makedir rootino [101; 116; 99] in
  ret (Dirs rootino devino binino homeino rootuserino etcino).

(** A file of the command line: its name and the chunks [read] returns, if the
    file can be opened. *)
Record source := Source { s_name : list Z; s_chunks : option (list (list Z)) }.

Definition starts (prefix name : list Z) : bool := strncmp name prefix (length prefix) =? 0.

(** The directory and the name of a file, before the underscore is dropped. *)
Definition target (d : dirs) (argv : list Z) : Z * list Z :=
  let shortname := if starts [117; 115; 101; 114; 47] argv then drop 5 argv else argv in
  if starts [99; 102; 103; 47] argv then (etcino d, drop 4 shortname) else (rootuserino d, shortname).

Fixpoint append_all (inum : Z) (chunks : list (list Z)) : M mk unit :=
  match chunks with
  | [] => ret tt
  | c :: chunks => do* iappend inum c in append_all inum chunks
  end.

Definition add_file (d : dirs) (f : source) : M mk unit :=
  let '(dirino, shortname) := target d (s_name f) in
  if bool_decide (47 ∈ shortname) then panic "assert" else
  let* chunks := match s_chunks f with Some c => ret c | None => panic "open" end in
  let '(dirino, shortname) :=
    match shortname with
    | c :: rest => if c =? 95 then (binino d, rest) else (dirino, shortname)
    | [] => (dirino, shortname)
    end in
  let* inum := ialloc T_FILE (if dirino =? binino d then 509 else 420) in
  do* iappend dirino (enc_dirent (DirEnt (xshort inum) (strncpy shortname DIRSIZ))) in
  append_all inum chunks.

Fixpoint add_files (d : dirs) (fs : list source) : M mk unit :=
  match fs with
  | [] => ret tt
  | f :: fs => do* add_file d f in add_files d fs
  end.

(** [wsect(i, zeroes)] for all sectors, then the super block. *)
Fixpoint zero_disk (n : nat) : M mk unit :=
  match n with
  | O => ret tt
  | S i => do* zero_disk i in wsect (Z.of_nat i) zero_block
  end.

Definition sb_block : list Z :=
  splice 0 (concat (le_bytes 4 <$>
    [xint FSSIZE; xint nblocks; xint NINODES; xint nlog; xint 2; xint (2 + nlog); xint (2 + nlog + ninodeblocks)]))
    zero_block.

Definition mkfs (fs : list source) : M mk unit :=
  do* zero_disk (Z.to_nat FSSIZE) in
  do* wsect 1 sb_block in
  let* d := makedirs in
  do* add_files d fs in
  let* s := get in
  balloc (mk_freeblock s).

(** The globals at the start. *)
Definition mk_start : mk := Mk ∅ 1 nmeta.
