(* ===== verification/MkfsSpec.v ===== *)
(** * The image is a file system

    What [mkfs] builds satisfies the invariants the kernel's file system starts
    from: a consistent free map, well-formed inodes that share no block, and
    files with the bytes that were put in.

    While [mkfs] runs the free map is still empty; the proofs look at the image
    with the free map it would have now ([ideal]), so that the lemmas about the
    kernel's own allocator apply. *)

From S2P Require Import Prelude SleepLock Bio Layout Log BlockLayer CString ProcDefs Fs FsAlloc FsInode FsFile Mkfs.

Definition BM : Z := 133.
Lemma bmapstart : sb_bmapstart mk_sb = BM.
Proof. done. Qed.

(** ** The free map *)

Lemma bitmap_S n buf : bitmap (S n) buf = set_bit n (bitmap n buf).
Proof. done. Qed.

Lemma length_bitmap n buf : length (bitmap n buf) = length buf.
Proof. induction n as [|n IH]; [done|]. rewrite bitmap_S. unfold set_bit. by rewrite length_insert. Qed.

Lemma bitb_zero j : bitb zero_block j = false.
Proof.
  unfold bitb, byte_at, zero_block. destruct (replicate _ _ !! _) as [x|] eqn:E; cbn; [|apply Z.bits_0].
  apply lookup_replicate in E as [-> _]. apply Z.bits_0.
Qed.

Lemma bitb_bitmap n j : (n <= 4096)%nat -> bitb (bitmap n zero_block) j = bool_decide (j < n)%nat.
Proof.
  induction n as [|n IH]; intros Hn; [rewrite bitb_zero; by rewrite bool_decide_eq_false_2 by lia|].
  rewrite bitmap_S, bitb_set, IH by (rewrite ?length_bitmap; try lia; change (length zero_block) with 512%nat;
    apply Nat.Div0.div_lt_upper_bound; lia).
  destruct (decide (j = n)) as [->|]; [by rewrite bool_decide_eq_true_2 by lia|]. apply bool_decide_ext. lia.
Qed.

Lemma bitmap_ok n : (n <= 4096)%nat -> block_ok (bitmap n zero_block).
Proof.
  induction n as [|n IH]; intros Hn; [apply zero_block_ok|]. rewrite bitmap_S. apply set_bit_ok, IH. lia.
Qed.

(** ** The image with its free map *)

Definition bits (fb : Z) : list Z := bitmap (Z.to_nat fb) zero_block.
Definition ideal (s : mk) : gmap Z (list Z) := <[BM := bits (mk_freeblock s)]> (mk_img s).

Record mk_base (s : mk) : Prop := {
  mb_img : forall x, is_Some (mk_img s !! x) <-> 0 <= x < FSSIZE;
  mb_ok : forall x d, mk_img s !! x = Some d -> block_ok d;
  mb_fb : nmeta <= mk_freeblock s <= FSSIZE;
  mb_zero : forall x, mk_freeblock s <= x < FSSIZE -> mk_img s !! x = Some zero_block }.

Lemma elem_bmset x : x ∈ bmset mk_sb <-> x = BM.
Proof. rewrite elem_of_bmset. cbn. change (FSSIZE / BPB) with 0. change (2 + nlog + ninodeblocks) with BM. lia. Qed.
Lemma elem_iset x : x ∈ iset mk_sb <-> 32 <= x < BM.
Proof. unfold iset. rewrite elem_of_list_to_set, elem_of_seqZ. change (sb_inodestart mk_sb) with 32. change (sb_ninodes mk_sb / IPB) with 100. unfold BM. lia. Qed.
Lemma nmeta_eq : nmeta = 134.
Proof. done. Qed.

Lemma BBLOCK_mk b : 0 <= b < FSSIZE -> BBLOCK b mk_sb = BM.
Proof. intros Hb. unfold BBLOCK, BPB, FSSIZE in *. rewrite Z.div_small by lia. done. Qed.
Lemma bit_no_mk b : 0 <= b < FSSIZE -> bit_no b = Z.to_nat b.
Proof. intros Hb. unfold bit_no, BPB, FSSIZE in *. by rewrite Z.mod_small by lia. Qed.

Section base.
Context (s : mk) (Hb : mk_base s).

Lemma ideal_used b : 0 <= b < FSSIZE -> used mk_sb (ideal s) b = (b <? mk_freeblock s).
Proof.
  intros Hr. unfold used. rewrite BBLOCK_mk, bit_no_mk by done. unfold ideal. rewrite lookup_insert_eq. unfold bits.
  destruct Hb as [_ _ Hfb _]. rewrite nmeta_eq in Hfb. unfold FSSIZE in *. rewrite bitb_bitmap by lia.
  destruct (Z.ltb_spec b (mk_freeblock s)); [rewrite bool_decide_eq_true_2 by lia|rewrite bool_decide_eq_false_2 by lia]; done.
Qed.

Lemma ideal_other x : x <> BM -> ideal s !! x = mk_img s !! x.
Proof. intros. unfold ideal. by rewrite lookup_insert_ne. Qed.
Lemma ideal_some x : is_Some (ideal s !! x) <-> 0 <= x < FSSIZE.
Proof.
  destruct (decide (x = BM)) as [->|]; [|rewrite ideal_other by done; apply Hb].
  unfold ideal. rewrite lookup_insert_eq. unfold BM, FSSIZE. split; [lia|eauto].
Qed.

Lemma ideal_wf : alloc_wf mk_sb (ideal s).
Proof.
  pose proof (mb_fb _ Hb) as Hfb. rewrite nmeta_eq in Hfb. constructor.
  - done.
  - done.
  - done.
  - intros x ->%elem_bmset. by apply ideal_some.
  - intros x Hx%elem_iset. split; [apply ideal_some; unfold BM, FSSIZE in *; lia|]. rewrite elem_bmset. unfold BM in *. lia.
  - intros x d Hd. destruct (decide (x = BM)) as [->|]; [|rewrite ideal_other in Hd by done; by eapply (mb_ok _ Hb)].
    unfold ideal in Hd. rewrite lookup_insert_eq in Hd. injection Hd as <-. apply bitmap_ok. unfold FSSIZE in *. lia.
  - intros b Hr Hu. change (sb_size mk_sb) with FSSIZE in Hr. rewrite ideal_used in Hu by done. apply Z.ltb_ge in Hu.
    rewrite elem_bmset, elem_iset, ideal_some. unfold BM. lia.
Qed.

(** Allocating the next block. *)
Definition grown (s : mk) : mk := Mk (mk_img s) (mk_freeinode s) (mk_freeblock s + 1).

Lemma grown_base : mk_freeblock s < FSSIZE -> mk_base (grown s).
Proof.
  intros Hlt. destruct Hb as [H1 H2 H3 H4]. constructor; cbn; try done; [lia|]. intros x Hx. apply H4. lia.
Qed.

Lemma grown_ideal v :
  mk_freeblock s < FSSIZE -> lv_blocks v = ideal s ->
  lv_blocks (l_alloc mk_sb (mk_freeblock s) v) = ideal (grown s).
Proof.
  intros Hlt Ev. pose proof (mb_fb _ Hb) as Hfb. rewrite nmeta_eq in Hfb. set (fb := mk_freeblock s) in *.
  unfold l_alloc, l_upd. cbn [lv_blocks]. unfold mark. rewrite BBLOCK_mk, bit_no_mk, Ev by lia.
  assert (E : block_of (ideal s) BM = bits fb) by (unfold ideal, block_of; by rewrite lookup_insert_eq). rewrite E.
  unfold ideal, grown. cbn [mk_img mk_freeblock]. fold fb. apply map_eq. intros x.
  destruct (decide (x = fb)) as [->|].
  - rewrite lookup_insert_eq, lookup_insert_ne by (unfold BM; lia). symmetry. apply (mb_zero _ Hb). lia.
  - rewrite lookup_insert_ne by done. destruct (decide (x = BM)) as [->|]; [|by rewrite !lookup_insert_ne by done].
    rewrite !lookup_insert_eq. unfold bits. by rewrite Z2Nat.inj_add, Nat.add_1_r, bitmap_S by lia.
Qed.
End base.

#[local] Opaque bmset iset free_set bits.

(** Writing a sector in use. *)
Definition put (x : Z) (d : list Z) (s : mk) : mk := Mk (<[x := d]> (mk_img s)) (mk_freeinode s) (mk_freeblock s).

Lemma put_base s x d : mk_base s -> 0 <= x < mk_freeblock s -> block_ok d -> mk_base (put x d s).
Proof.
  intros [H1 H2 H3 H4] Hx Hd. constructor; cbn.
  - intros y. rewrite lookup_insert_is_Some', H1. lia.
  - intros y e [[_ <-]|[_ He]]%lookup_insert_Some; [done|by eapply H2].
  - done.
  - intros y Hy. rewrite lookup_insert_ne by lia. by apply H4.
Qed.
Lemma put_ideal s x d : x <> BM -> ideal (put x d s) = <[x := d]> (ideal s).
Proof. intros Hx. unfold ideal, put. cbn. by rewrite insert_insert_ne. Qed.

Lemma wp_next_block s (Q : Z -> mk -> Prop) :
  mk_base s -> Q (mk_freeblock s) (grown s) -> wp next_block Q s.
Proof.
  intros Hb HQ. unfold next_block, wp, bind, get, modify. cbn. unfold grown in HQ. pose proof (mb_fb _ Hb) as Hfb.
  rewrite nmeta_eq in Hfb. rewrite u32_small by (unfold FSSIZE in *; lia). exact HQ.
Qed.
Lemma wp_rsect s x d (Q : list Z -> mk -> Prop) : mk_img s !! x = Some d -> Q d s -> wp (rsect x) Q s.
Proof. intros Hd HQ. unfold rsect, wp, bind, get. cbn. by rewrite Hd. Qed.
Lemma wp_wsect s x d (Q : unit -> mk -> Prop) : Q tt (put x d s) -> wp (wsect x d) Q s.
Proof. done. Qed.

(** ** The sectors of a file *)

Lemma data_below s a : mk_base s -> data_blk mk_sb (ideal s) a -> 0 <= a < mk_freeblock s /\ a <> BM.
Proof.
  intros Hb [Hr Hu _ Hbm _]. change (sb_size mk_sb) with FSSIZE in Hr. rewrite (ideal_used s Hb) in Hu by lia.
  rewrite elem_bmset in Hbm. apply Z.ltb_lt in Hu. lia.
Qed.

Lemma data_sector s a :
  mk_base s -> data_blk mk_sb (ideal s) a ->
  exists d, mk_img s !! a = Some d /\ ideal s !! a = Some d /\ block_ok d.
Proof.
  intros Hb Hdat. destruct (data_below _ _ Hb Hdat) as [_ Hbm]. destruct (db_some _ _ _ Hdat) as [d Hd].
  exists d. split_and!; [by rewrite <- (ideal_other s)|done|]. by eapply (aw_ok _ _ (ideal_wf s Hb)).
Qed.

(** The blocks [file_sector] takes. *)
Definition entry_cost (bl : gmap Z (list Z)) (din : dinode) (fbn : nat) : Z := if addr_of bl din fbn =? 0 then 1 else 0.
Definition ind_cost (din : dinode) (fbn : nat) : Z := if (NDIRECT <=? fbn)%nat && (ind_of din =? 0) then 1 else 0.

(** What [file_sector] achieves. *)
Record sector_ok (v : lview) (din : dinode) (fbn n : nat) (s : mk) (r : dinode * Z) (s' : mk) : Prop := {
  so_inode : mk_freeinode s' = mk_freeinode s;
  so_block : mk_freeblock s' = mk_freeblock s + entry_cost (lv_blocks v) din fbn + ind_cost din fbn;
  so_base : mk_base s';
  so_map : exists v', bmapped mk_sb v din fbn n r.2 v' r.1 /\ lv_blocks v' = ideal s';
  so_addr : forall k, (k < NBLOCKS)%nat -> k <> fbn -> addr_of (ideal s') r.1 k = addr_of (lv_blocks v) din k;
  so_ind : (fbn < NDIRECT)%nat -> ind_of r.1 = ind_of din }.

Lemma xint_small x : 0 <= x <= FSSIZE -> xint x = x.
Proof. intros Hx. apply u32_small. unfold FSSIZE in *. lia. Qed.

Lemma xshort_small x : 0 <= x < 2 ^ 16 -> xshort x = x.
Proof. intros Hx. unfold xshort, u16. by apply Z.mod_small. Qed.

Lemma get_le_range4 off d : bytes_ok d -> (off + 4 <= length d)%nat -> 0 <= get_le 4 off d < 2 ^ 32.
Proof.
  intros Hd Hl. unfold get_le. pose proof (le_val_range (slice off 4 d)) as H. rewrite length_slice in H by done.
  apply H. by apply Forall_slice.
Qed.

Section sector.
Context (n : nat) (s : mk) (v : lview) (din : dinode).
Hypothesis Hb : mk_base s.
Hypothesis Ev : lv_blocks v = ideal s.
Hypothesis Hi : inode_wf mk_sb (ideal s) din.

Lemma view_wf : alloc_wf mk_sb (lv_blocks v).
Proof using Hb Ev. rewrite Ev. by apply ideal_wf. Qed.
Lemma view_inode : inode_wf mk_sb (lv_blocks v) din.
Proof using Ev Hi. by rewrite Ev. Qed.
Hint Resolve view_wf view_inode : core.

Lemma freeblock_range : 134 <= mk_freeblock s <= FSSIZE.
Proof using Hb. rewrite <- nmeta_eq. apply Hb. Qed.

Lemma next_free :
  mk_freeblock s < FSSIZE ->
  0 <= mk_freeblock s < sb_size mk_sb /\ used mk_sb (lv_blocks v) (mk_freeblock s) = false.
Proof using Hb Ev.
  intros Hlt. pose proof freeblock_range. change (sb_size mk_sb) with FSSIZE.
  split; [lia|]. rewrite Ev, (ideal_used s Hb) by lia. apply Z.ltb_ge. lia.
Qed.

Lemma addr_range k a : d_addrs din !! k = Some a -> xint a = a.
Proof using Hb Hi.
  intros Ha. pose proof (inode_wf_addrs _ _ _ (ideal_wf s Hb) Hi) as Hr. rewrite Forall_lookup in Hr. by eapply u32_small, Hr.
Qed.

(** The code from the read of the indirect block on. *)
Definition entry_code (a : Z) (j : nat) : M mk (dinode * Z) :=
  let* indirect := rsect a in
  let e := get_le 4 (4 * j) indirect in
  if e =? 0 then
    let* b := next_block in
    do* wsect a (put_le 4 (4 * j) (xint b) indirect) in
    ret (din, xint (xint b))
  else ret (din, xint e).

Record entry_ok (j : nat) (x : Z) (s' : mk) (v' : lview) : Prop := {
  eo_inode : mk_freeinode s' = mk_freeinode s;
  eo_block : mk_freeblock s' = mk_freeblock s + entry_cost (lv_blocks v) din (NDIRECT + j);
  eo_base : mk_base s';
  eo_blocks : lv_blocks v' = ideal s';
  eo_map : bmapped mk_sb v din (NDIRECT + j) n x v' din;
  eo_addr : forall k, (k < NBLOCKS)%nat -> k <> (NDIRECT + j)%nat -> addr_of (ideal s') din k = addr_of (lv_blocks v) din k;
  eo_free : (size (free_set mk_sb (lv_blocks v)) <= size (free_set mk_sb (lv_blocks v')) + 1)%nat }.

(** A new entry. *)
Lemma entry_new j d :
  avail mk_sb v (S (S n)) -> ind_of din <> 0 -> (j < NINDIRECT)%nat -> mk_freeblock s < FSSIZE ->
  ideal s !! ind_of din = Some d -> addr_of (lv_blocks v) din (NDIRECT + j) = 0 ->
  entry_ok j (mk_freeblock s) (put (ind_of din) (put_le 4 (4 * j) (mk_freeblock s) d) (grown s))
    (l_upd (ind_of din) (ind_block v din (mk_freeblock s) j) (l_alloc mk_sb (mk_freeblock s) v)).
Proof using Hb Ev Hi.
  intros Ha Hind Hj Hlt Hd Haddr. destruct (next_free Hlt) as [Hr Hu]. pose proof freeblock_range as Hfb.
  pose proof (iw_data _ _ _ Hi _ (conj Hind (or_introl eq_refl))) as Hdat. destruct (data_below _ _ Hb Hdat) as [Hx Hbm].
  assert (Enb : put_le 4 (4 * j) (mk_freeblock s) d = ind_block v din (mk_freeblock s) j)
    by (unfold ind_block; by rewrite Ev, (block_of_some _ _ _ Hd)). rewrite Enb.
  assert (Eid : ideal (put (ind_of din) (ind_block v din (mk_freeblock s) j) (grown s)) =
    <[ind_of din := ind_block v din (mk_freeblock s) j]> (lv_blocks (l_alloc mk_sb (mk_freeblock s) v)))
    by (rewrite put_ideal, (grown_ideal s Hb v Hlt Ev) by done; done).
  constructor.
  - done.
  - unfold entry_cost. rewrite Haddr. cbn. lia.
  - apply put_base; [by apply grown_base|cbn; lia|]. by eapply ind_block_ok.
  - by rewrite Eid.
  - apply bmapped_grow_ind; auto. eapply avail_upd_ind; [exact view_wf|exact Hr|by left].
  - intros k Hk Hne. rewrite Eid, (addr_grow_ind mk_sb v din _ j) by auto. by rewrite decide_False.
  - change (lv_blocks (l_upd ?a ?d ?w)) with (<[a := d]> (lv_blocks w)).
    rewrite (free_grow_ind mk_sb v din (mk_freeblock s) j) by auto. lia.
Qed.

Lemma entry_spec j (Q : dinode * Z -> mk -> Prop) :
  avail mk_sb v (S (S n)) -> ind_of din <> 0 -> (j < NINDIRECT)%nat ->
  mk_freeblock s + entry_cost (lv_blocks v) din (NDIRECT + j) <= FSSIZE ->
  (forall x s' v', entry_ok j x s' v' -> Q (din, x) s') -> wp (entry_code (ind_of din) j) Q s.
Proof using Hb Ev Hi.
  intros Ha Hind Hj Hroom HQ. pose proof freeblock_range as Hfb.
  destruct (data_sector s (ind_of din) Hb) as (d & Hd & Hid & Hlen & Hbytes); [by apply (iw_data _ _ _ Hi), (conj Hind), or_introl|].
  assert (Eaddr : addr_of (lv_blocks v) din (NDIRECT + j) = get_le 4 (4 * j) d).
  { unfold addr_of. destruct (Nat.ltb_spec (NDIRECT + j) NDIRECT); [lia|]. destruct (Z.eqb_spec (ind_of din) 0); [done|].
    rewrite Ev, (block_of_some _ _ _ Hid). do 2 f_equal. lia. }
  unfold entry_code. wp_step. eapply wp_rsect; [exact Hd|]. cbv beta zeta. rewrite <- Eaddr.
  destruct (Z.eqb_spec (addr_of (lv_blocks v) din (NDIRECT + j)) 0) as [E0|E0].
  - unfold entry_cost in Hroom. rewrite E0 in Hroom. cbn in Hroom.
    wp_step. apply wp_next_block; [done|]. rewrite !xint_small by lia. wp_step. apply wp_wsect. wp_step.
    eapply HQ, entry_new; auto. lia.
  - wp_step. unfold xint. rewrite Eaddr, u32_small, <- Eaddr by (apply get_le_range4; [done|rewrite Hlen; unfold BSIZE, NINDIRECT in *; lia]).
    apply (HQ _ s v). constructor.
    + reflexivity.
    + unfold entry_cost. destruct (Z.eqb_spec (addr_of (lv_blocks v) din (NDIRECT + j)) 0); [done|lia].
    + exact Hb.
    + exact Ev.
    + apply bmapped_present; [exact view_wf|exact view_inode| |exact E0]. eapply avail_mono; [exact Ha|lia].
    + intros k _ _. by rewrite Ev.
    + lia.
Qed.

(** A block of the inode itself. *)
Lemma direct_spec fbn :
  avail mk_sb v (S (S n)) -> (fbn < NDIRECT)%nat -> mk_freeblock s + entry_cost (lv_blocks v) din fbn <= FSSIZE ->
  wp (file_sector din fbn) (sector_ok v din fbn n s) s.
Proof using Hb Ev Hi.
  intros Ha Hd Hroom. pose proof freeblock_range as Hfb.
  assert (Eic : ind_cost din fbn = 0) by (unfold ind_cost; by rewrite (proj2 (Nat.leb_gt NDIRECT fbn)) by done).
  unfold file_sector. rewrite (proj2 (Nat.ltb_lt fbn NDIRECT)) by done.
  destruct (lookup_lt_is_Some_2 (d_addrs din) fbn) as [a Hla]; [rewrite (iw_len _ _ _ Hi); lia|]. wp_step.
  eapply wp_deref; [exact Hla|]. rewrite (addr_range fbn a) by done.
  assert (Eaddr : addr_of (lv_blocks v) din fbn = a).
  { unfold addr_of. rewrite (proj2 (Nat.ltb_lt fbn NDIRECT)) by done. by rewrite Hla. }
  unfold entry_cost in Hroom. rewrite Eaddr in Hroom. destruct (Z.eqb_spec a 0) as [E0|Hne].
  - rewrite E0 in Hla, Eaddr. destruct (next_free ltac:(lia)) as [Hr Hu]. wp_step. apply wp_next_block; [done|]. wp_step. rewrite !xint_small by lia.
    fold (set_addr fbn (mk_freeblock s) din). constructor; cbn [fst snd].
    + done.
    + unfold entry_cost. rewrite Eaddr, Eic. cbn. lia.
    + apply grown_base; [done|lia].
    + exists (l_alloc mk_sb (mk_freeblock s) v). split; [by apply bmapped_set_addr; auto|]. apply (grown_ideal s Hb v); [lia|done].
    + intros k Hk Hne. rewrite <- (grown_ideal s Hb v) by (done || lia). rewrite (addr_set_addr mk_sb v din) by (auto; lia).
      by rewrite decide_False by naive_solver.
    + intros _. rewrite (ind_set_addr mk_sb v din) by (auto; lia). by rewrite decide_False by lia.
  - wp_step. constructor; cbn [fst snd].
    + reflexivity.
    + unfold entry_cost. rewrite Eaddr, Eic. destruct (Z.eqb_spec a 0); [done|lia].
    + exact Hb.
    + exists v. split; [|exact Ev]. rewrite <- Eaddr in Hne |- *.
      apply bmapped_present; [exact view_wf|exact view_inode| |exact Hne]. eapply avail_mono; [exact Ha|lia].
    + intros k _ _. by rewrite Ev.
    + reflexivity.
Qed.
End sector.

(** A block behind the indirect block, which is allocated first. *)
Lemma indirect_spec n s v din j :
  mk_base s -> lv_blocks v = ideal s -> inode_wf mk_sb (ideal s) din -> avail mk_sb v (S (S (S n))) ->
  (j < NINDIRECT)%nat ->
  mk_freeblock s + entry_cost (lv_blocks v) din (NDIRECT + j) + ind_cost din (NDIRECT + j) <= FSSIZE ->
  wp (file_sector din (NDIRECT + j)) (sector_ok v din (NDIRECT + j) n s) s.
Proof.
  intros Hb Ev Hi Ha Hj Hroom. pose proof (freeblock_range s Hb) as Hfb. pose proof (iw_len _ _ _ Hi) as Hlen.
  pose proof (view_wf s v Hb Ev) as Hw. pose proof (view_inode s v din Ev Hi) as Hi'.
  unfold file_sector. rewrite (proj2 (Nat.ltb_ge (NDIRECT + j) NDIRECT)) by lia. replace (NDIRECT + j - NDIRECT)%nat with j by lia.
  destruct (lookup_lt_is_Some_2 (d_addrs din) NDIRECT) as [a Hla]; [rewrite Hlen; lia|].
  assert (Eind : ind_of din = a) by (unfold ind_of; by rewrite Hla).
  assert (Eic : ind_cost din (NDIRECT + j) = if a =? 0 then 1 else 0).
  { unfold ind_cost. rewrite (proj2 (Nat.leb_le NDIRECT (NDIRECT + j))) by lia. by rewrite Eind. }
  wp_step. eapply wp_deref; [exact Hla|]. rewrite (addr_range s din Hb Hi NDIRECT a) by done. rewrite Eic in Hroom.
  wp_step. destruct (Z.eqb_spec a 0) as [E0|Hne].
  - rewrite E0 in Hla. assert (0 <= entry_cost (lv_blocks v) din (NDIRECT + j)) by (unfold entry_cost; case_match; lia).
    assert (Hlt : mk_freeblock s < FSSIZE) by lia. set (fb := mk_freeblock s) in *. destruct (next_free s v Hb Ev Hlt) as [Hr Hu]. fold fb in Hr, Hu.
    wp_step. apply wp_next_block; [done|]. fold fb. wp_step. rewrite (xint_small fb) by lia. fold (set_addr NDIRECT fb din).
    pose proof (grown_ideal s Hb v Hlt Ev) as Ev1. fold fb in Ev1.
    pose proof (inode_wf_set_addr mk_sb v din fb Hw Hi' Hr Hu NDIRECT ltac:(lia) Hla) as Hi1. rewrite Ev1 in Hi1.
    assert (Eind1 : ind_of (set_addr NDIRECT fb din) = fb) by (by rewrite (ind_set_addr mk_sb v din fb)).
    assert (Eaddr : forall k, addr_of (lv_blocks (l_alloc mk_sb fb v)) (set_addr NDIRECT fb din) k = addr_of (lv_blocks v) din k).
    { intros k. rewrite (addr_set_addr mk_sb v din fb) by (auto; lia). by rewrite decide_False by lia. }
    wp_step. eapply wp_deref; [unfold set_addr; cbn; apply list_lookup_insert_eq; rewrite Hlen; lia|]. rewrite xint_small by lia.
    pose proof (entry_spec n (grown s) (l_alloc mk_sb fb v) (set_addr NDIRECT fb din) (grown_base s Hb Hlt) Ev1 Hi1 j
      (sector_ok v din (NDIRECT + j) n s)) as He. rewrite Eind1 in He. unfold entry_cost in He. rewrite Eaddr in He.
    apply He; [eapply avail_alloc; [exact Hw|exact Hr|exact Ha]|lia|exact Hj|change (mk_freeblock (grown s)) with (fb + 1); unfold entry_cost in Hroom; lia|].
    intros x s' v' [E1 E2 E3 E4 E5 E6 E7]. constructor; cbn [fst snd].
    + exact E1.
    + rewrite Eic, E2. unfold entry_cost. rewrite Eaddr. change (mk_freeblock (grown s)) with (fb + 1). fold fb. cbn [Z.eqb]. lia.
    + exact E3.
    + exists v'. split; [|exact E4]. apply (bmapped_after_ind mk_sb v din fb); [assumption..|lia|assumption|assumption].
    + intros k Hk Hkne. rewrite E6 by done. apply Eaddr.
    + lia.
  - wp_step. wp_step. eapply wp_deref; [exact Hla|]. rewrite (addr_range s din Hb Hi NDIRECT a) by done.
    pose proof (entry_spec n s v din Hb Ev Hi j (sector_ok v din (NDIRECT + j) n s)) as He. rewrite Eind in He.
    apply He; [eapply avail_mono; [exact Ha|lia]|done|done|lia|]. intros x s' v' [E1 E2 E3 E4 E5 E6 E7].
    constructor; cbn [fst snd]; [exact E1| |exact E3|by exists v'|exact E6|lia].
    rewrite Eic, E2. lia.
Qed.

Lemma file_sector_spec n s v din fbn :
  mk_base s -> lv_blocks v = ideal s -> inode_wf mk_sb (ideal s) din -> avail mk_sb v (S (S (S n))) ->
  (fbn < NBLOCKS)%nat -> mk_freeblock s + entry_cost (lv_blocks v) din fbn + ind_cost din fbn <= FSSIZE ->
  wp (file_sector din fbn) (sector_ok v din fbn n s) s.
Proof.
  intros Hb Ev Hi Ha Hf Hroom. destruct (decide (fbn < NDIRECT)%nat).
  - apply direct_spec; try assumption; [eapply avail_mono; [exact Ha|lia]|].
    assert (0 <= ind_cost din fbn) by (unfold ind_cost; case_match; lia). lia.
  - replace fbn with (NDIRECT + (fbn - NDIRECT))%nat in * by lia. apply indirect_spec; try assumption.
    unfold NBLOCKS, NDIRECT, NINDIRECT in *. lia.
Qed.

(** ** Files without holes *)

(** The blocks of a file of [n] bytes, without and with the indirect block. *)
Definition dblocks (n : nat) : nat := (n + (BSZ - 1)) / BSZ.
Definition fblocks (n : nat) : Z := Z.of_nat (dblocks n) + if (NDIRECT <? dblocks n)%nat then 1 else 0.

(** The inode has the blocks a file of [n] bytes needs, and no others. *)
Record exact (bl : gmap Z (list Z)) (d : dinode) (n : nat) : Prop := {
  ex_blk : forall bn, (bn < NBLOCKS)%nat -> addr_of bl d bn <> 0 <-> (bn < dblocks n)%nat;
  ex_ind : ind_of d <> 0 <-> (NDIRECT < dblocks n)%nat }.

Lemma dblocks_spec n : (n <= BSZ * dblocks n < n + BSZ)%nat.
Proof.
  unfold dblocks. pose proof (Nat.div_mod_eq (n + (BSZ - 1)) BSZ) as H.
  assert ((n + (BSZ - 1)) mod BSZ < BSZ)%nat by (by apply Nat.mod_upper_bound). unfold BSZ in *. lia.
Qed.
Lemma dblocks_unique n k : (n <= BSZ * k < n + BSZ)%nat -> dblocks n = k.
Proof. intros Hk. pose proof (dblocks_spec n) as Hd. unfold BSZ in *. lia. Qed.

(** Appending within a block: how many blocks are there before and after? *)
Lemma dblocks_step off m :
  (0 < m)%nat -> (off mod BSZ + m <= BSZ)%nat ->
  (dblocks (off + m) = S (off / BSZ) /\ (dblocks off = off / BSZ \/ dblocks off = S (off / BSZ)))%nat.
Proof.
  intros Hm Hf. pose proof (Nat.div_mod_eq off BSZ) as H. split; [apply dblocks_unique; unfold BSZ in *; lia|].
  destruct (decide (off mod BSZ = 0)%nat); [left|right]; apply dblocks_unique; unfold BSZ in *; lia.
Qed.

Lemma addr_ind bl d bn : (NDIRECT <= bn)%nat -> addr_of bl d bn <> 0 -> ind_of d <> 0.
Proof. intros Hbn. unfold addr_of. rewrite (proj2 (Nat.ltb_ge bn NDIRECT)) by done. by destruct (Z.eqb_spec (ind_of d) 0). Qed.

Section exact.
Context (bl : gmap Z (list Z)) (d : dinode) (off m : nat).
Hypothesis Hx : exact bl d off.
Hypothesis Hm : (0 < m)%nat.
Hypothesis Hfit : (off mod BSZ + m <= BSZ)%nat.
Hypothesis Hmax : (off / BSZ < NBLOCKS)%nat.

Lemma exact_cost :
  entry_cost bl d (off / BSZ) + ind_cost d (off / BSZ) = fblocks (off + m) - fblocks off.
Proof using Hx Hm Hfit Hmax.
  destruct (dblocks_step off m Hm Hfit) as [E1 E2]. unfold fblocks, entry_cost, ind_cost. rewrite E1.
  pose proof (ex_blk _ _ _ Hx _ Hmax) as Hb. pose proof (ex_ind _ _ _ Hx) as Hi.
  destruct (Z.eqb_spec (addr_of bl d (off / BSZ)) 0), (Z.eqb_spec (ind_of d) 0),
    (Nat.leb_spec NDIRECT (off / BSZ)), (Nat.ltb_spec NDIRECT (S (off / BSZ))), (Nat.ltb_spec NDIRECT (dblocks off)); cbn [andb]; lia.
Qed.

Lemma exact_step bl' d' :
  addr_of bl' d' (off / BSZ) <> 0 ->
  (forall k, (k < NBLOCKS)%nat -> k <> (off / BSZ)%nat -> addr_of bl' d' k = addr_of bl d k) ->
  ((off / BSZ < NDIRECT)%nat -> ind_of d' = ind_of d) -> exact bl' d' (off + m).
Proof using Hx Hm Hfit Hmax.
  intros Hnew Hold Hind. destruct (dblocks_step off m Hm Hfit) as [E1 E2]. constructor; rewrite E1.
  - intros bn Hbn. destruct (decide (bn = off / BSZ)%nat) as [->|Hne]; [split; [lia|done]|].
    rewrite Hold by done. rewrite (ex_blk _ _ _ Hx) by done. lia.
  - destruct (decide (off / BSZ < NDIRECT)%nat) as [Hlt|Hge].
    + rewrite Hind by done. rewrite (ex_ind _ _ _ Hx). lia.
    + split; [lia|]. intros _. apply (addr_ind bl' d' (off / BSZ)); [lia|done].
Qed.
End exact.

(** ** The loop of [iappend] *)

Record appended (v : lview) (din : dinode) (off : nat) (p : list Z) (r : nat) (s : mk) (res : dinode * Z) (s' : mk) : Prop := {
  ap_off : res.2 = Z.of_nat (off + length p);
  ap_base : mk_base s';
  ap_inode : mk_freeinode s' = mk_freeinode s;
  ap_block : mk_freeblock s' = mk_freeblock s + fblocks (off + length p) - fblocks off;
  ap_exact : exact (ideal s') res.1 (off + length p);
  ap_map : exists v', written mk_sb v din off p r v' res.1 /\ lv_blocks v' = ideal s' }.

Lemma fblocks_mono m n : (m <= n)%nat -> fblocks m <= fblocks n.
Proof.
  intros Hmn. pose proof (dblocks_spec m). pose proof (dblocks_spec n). unfold fblocks.
  assert (dblocks m <= dblocks n)%nat by (unfold BSZ in *; lia).
  destruct (Nat.ltb_spec NDIRECT (dblocks m)), (Nat.ltb_spec NDIRECT (dblocks n)); lia.
Qed.

(** One turn: [chunk] goes into the block of [off]. *)
Lemma turn_spec s v din off chunk rest r (Q : dinode * Z -> mk -> Prop) (k : dinode -> M mk (dinode * Z)) :
  mk_base s -> lv_blocks v = ideal s -> inode_wf mk_sb (ideal s) din -> exact (ideal s) din off ->
  lv_held v = ∅ -> lv_pend v = ∅ -> avail mk_sb v (3 + r) -> bytes_ok chunk -> (0 < length chunk)%nat ->
  (off mod BSZ + length chunk <= BSZ)%nat -> (off + length chunk <= NBLOCKS * BSZ)%nat ->
  mk_freeblock s + fblocks (off + length chunk) - fblocks off <= FSSIZE ->
  (forall d1 v1 s1,
     mk_base s1 -> lv_blocks v1 = ideal s1 -> inode_wf mk_sb (ideal s1) d1 -> exact (ideal s1) d1 (off + length chunk) ->
     lv_held v1 = ∅ -> lv_pend v1 = ∅ -> avail mk_sb v1 r ->
     mk_freeinode s1 = mk_freeinode s -> mk_freeblock s1 = mk_freeblock s + fblocks (off + length chunk) - fblocks off ->
     (forall r v2 d2, written mk_sb v1 d1 (off + length chunk) rest r v2 d2 -> written mk_sb v din off (chunk ++ rest) r v2 d2) ->
     wp (k d1) Q s1) ->
  wp (let* (din, x) := file_sector din (off / BSZ) in
      let* buf := rsect x in
      do* wsect x (splice (off mod BSZ) chunk buf) in k din) Q s.
Proof.
  intros Hb Ev Hi Hx Hh Hp Ha Hok Hpos Hfit Hmax Hroom HQ.
  assert (Hbn : (off / BSZ < NBLOCKS)%nat) by (apply Nat.Div0.div_lt_upper_bound; unfold BSZ in *; lia).
  pose proof (exact_cost _ _ _ _ Hx Hpos Hfit Hbn) as Hcost. rewrite <- Ev in Hcost.
  eapply wp_seq; [apply (file_sector_spec r); [exact Hb|exact Ev|exact Hi|exact Ha|exact Hbn|lia]|].
  intros [d1 x] s1 [S1 S2 S3 [v1 [S4 S5]] S6 S7]. cbn [fst snd] in *. pose proof (bm_wf _ _ _ _ _ _ _ _ S4) as W1.
  pose proof (bm_alloc _ _ _ _ _ _ _ _ S4) as A1. destruct (bmapped_block _ _ _ _ _ _ _ _ Hbn S4) as [Hblk [Hlen Hbytes]].
  pose proof (bm_addr _ _ _ _ _ _ _ _ S4) as Eadr. pose proof (bm_nz _ _ _ _ _ _ _ _ S4) as Hnz.
  assert (Hdat : data_blk mk_sb (ideal s1) x) by (rewrite <- S5, <- Eadr in *; by apply (iw_data _ _ _ W1), block_owned).
  destruct (data_below _ _ S3 Hdat) as [Hx1 Hx2]. set (y := splice (off mod BSZ) chunk (file_block (lv_blocks v1) d1 (off / BSZ))).
  assert (Hy : block_ok y) by (split; [unfold y; rewrite length_splice; [done|rewrite Hlen; done]|by apply Forall_splice]).
  assert (Hnz1 : addr_of (lv_blocks v1) d1 (off / BSZ) <> 0) by (by rewrite Eadr).
  assert (Eid : lv_blocks (l_upd x y v1) = ideal (put x y s1)) by (rewrite put_ideal, <- S5 by done; done).
  assert (Eadr2 : forall k, addr_of (ideal (put x y s1)) d1 k = addr_of (lv_blocks v1) d1 k).
  { intros k'. rewrite <- Eid. cbn [lv_blocks l_upd]. rewrite <- Eadr. by eapply addr_write. }
  wp_step. eapply wp_rsect; [rewrite S5, (ideal_other s1) in Hblk by done; exact Hblk|].
  wp_step. rewrite <- S5. fold y. apply wp_wsect. apply (HQ d1 (l_upd x y v1)).
  - by apply put_base.
  - exact Eid.
  - rewrite <- Eid. cbn [lv_blocks l_upd]. rewrite <- Eadr. by apply inode_wf_write.
  - apply (exact_step (ideal s) din); try assumption; [by rewrite Eadr2|].
    intros k' Hk' Hne. rewrite Eadr2, S5, <- Ev. by apply S6.
  - cbn. by rewrite (bm_held _ _ _ _ _ _ _ _ S4).
  - cbn. rewrite (bm_pend _ _ _ _ _ _ _ _ S4), Hp. set_solver.
  - by eapply bmapped_can_log.
  - exact S1.
  - cbn. rewrite S2. lia.
  - intros r' v2 d2 Hwr. by eapply written_step.
Qed.

Lemma iappend_loop_spec fuel s v din off p r :
  mk_base s -> lv_blocks v = ideal s -> inode_wf mk_sb (ideal s) din -> exact (ideal s) din off ->
  lv_held v = ∅ -> lv_pend v = ∅ -> avail mk_sb v (3 * length p + r) -> bytes_ok p -> (length p <= fuel)%nat ->
  (off + length p <= NBLOCKS * BSZ)%nat -> mk_freeblock s + fblocks (off + length p) - fblocks off <= FSSIZE ->
  wp (iappend_loop fuel din (Z.of_nat off) p) (appended v din off p r s) s.
Proof.
  revert s v din off p. induction fuel as [|fuel IH]; intros s v din off p Hb Ev Hi Hx Hh Hp Ha Hok Hfuel Hmax Hroom;
    (destruct p as [|c p']; [cbn; constructor; cbn [fst snd length]; rewrite ?Nat.add_0_r; try done; [lia|];
      exists v; split; [|done]; apply written_nil; try done; rewrite Ev; [by apply ideal_wf|done]|]); [cbn in Hfuel; lia|].
  cbn [iappend_loop]. set (p := c :: p') in *.
  set (m := Nat.min (length p) (BSZ - off mod BSZ)). assert (Hmod : (off mod BSZ < BSZ)%nat) by (by apply Nat.mod_upper_bound).
  assert (Hpos : (0 < length p)%nat) by (cbn; lia). pose proof (Nat.div_mod_eq off BSZ) as Hdm.
  assert (Hbn : (off / BSZ < NBLOCKS)%nat) by (apply Nat.Div0.div_lt_upper_bound; unfold BSZ in *; lia).
  rewrite of_nat_div_bsz, Nat2Z.id. destruct (Z.ltb_spec (Z.of_nat (off / BSZ)) MAXFILE); [|unfold MAXFILE, NBLOCKS in *; lia]. cbn [negb].
  replace (Z.min (Z.of_nat (length p)) ((Z.of_nat (off / BSZ) + 1) * BSIZE - Z.of_nat off)) with (Z.of_nat m)
    by (unfold m, BSIZE, BSZ in *; lia).
  replace (Z.to_nat (Z.of_nat off - Z.of_nat (off / BSZ) * BSIZE)) with (off mod BSZ)%nat by (unfold BSIZE, BSZ in *; lia).
  rewrite Nat2Z.id. rewrite u32_small by (unfold NBLOCKS, BSZ in *; lia). rewrite <- Nat2Z.inj_add.
  assert (Hm : (0 < m <= length p)%nat) by (unfold m, BSZ in *; lia).
  assert (Hlen : length (take m p) = m) by (rewrite length_take; lia).
  assert (Hsplit : length (drop m p) = (length p - m)%nat) by apply length_drop.
  assert (Hroom' := fblocks_mono (off + m) (off + length p) ltac:(lia)).
  eapply (turn_spec s v din off (take m p) (drop m p) (3 * length (drop m p) + r)); rewrite ?Hlen; try done.
  - eapply avail_mono; [exact Ha|lia].
  - by apply Forall_take.
  - lia.
  - unfold m. lia.
  - lia.
  - lia.
  - intros d1 v1 s1 B1 B2 B3 B4 B5 B6 B7 B8 B9 B10.
    eapply wp_mono; [apply (IH s1 v1); try done; [by apply Forall_drop|lia|lia|]|].
    + rewrite B9, Hsplit. replace (off + m + (length p - m))%nat with (off + length p)%nat by lia. lia.
    + intros res s2 [C1 C2 C3 C4 C5 [v2 [C6 C7]]]. rewrite Hsplit in *. replace (off + m + (length p - m))%nat with (off + length p)%nat in * by lia.
      constructor; try done; [congruence|lia|]. exists v2. split; [|done]. rewrite <- (take_drop m p). by apply B10.
Qed.

(** ** Inodes of the image *)

Lemma iblock_range inum : 0 <= inum < NINODES -> 32 <= IBLOCK inum mk_sb < BM.
Proof.
  intros Hr. unfold IBLOCK. change (sb_inodestart mk_sb) with 32. unfold NINODES, IPB, BM in *.
  assert (0 <= inum / 2 < 100) by (split; [apply Z.div_pos; lia|apply Z.div_lt_upper_bound; lia]). rewrite u32_small; lia.
Qed.

Definition put_ino (inum : Z) (d : dinode) (s : mk) : mk :=
  put (IBLOCK inum mk_sb) (put_dinode (ino_slot inum) d (block_of (ideal s) (IBLOCK inum mk_sb))) s.

Section inode.
Context (s : mk) (inum : Z).
Hypothesis Hb : mk_base s.
Hypothesis Hr : 0 <= inum < NINODES.

Lemma iblock_here : mk_img s !! IBLOCK inum mk_sb = Some (block_of (ideal s) (IBLOCK inum mk_sb)).
Proof using Hb Hr.
  pose proof (iblock_range inum Hr) as Hx. destruct (proj2 (mb_img _ Hb (IBLOCK inum mk_sb))) as [d Hd]; [unfold BM, FSSIZE in *; lia|].
  rewrite Hd. f_equal. symmetry. apply block_of_some. by rewrite (ideal_other s) by lia.
Qed.

Lemma wp_rinode (Q : dinode -> mk -> Prop) : Q (dino mk_sb (ideal s) inum) s -> wp (rinode inum) Q s.
Proof using Hb Hr. intros HQ. unfold rinode. wp_step. eapply wp_rsect; [exact iblock_here|]. wp_step. exact HQ. Qed.

Lemma wp_winode d (Q : unit -> mk -> Prop) : Q tt (put_ino inum d s) -> wp (winode inum d) Q s.
Proof using Hb Hr. intros HQ. unfold winode. wp_step. eapply wp_rsect; [exact iblock_here|]. apply wp_wsect. exact HQ. Qed.

Lemma put_ino_ideal d :
  ideal (put_ino inum d s) = <[IBLOCK inum mk_sb := put_dinode (ino_slot inum) d (block_of (ideal s) (IBLOCK inum mk_sb))]> (ideal s).
Proof using Hr. pose proof (iblock_range inum Hr). apply put_ideal. lia. Qed.

Lemma put_ino_base d : dinode_ok d -> mk_base (put_ino inum d s).
Proof using Hb Hr.
  intros Hd. pose proof (iblock_range inum Hr). pose proof (freeblock_range s Hb).
  apply put_base; [done|unfold BM in *; lia|]. apply put_dinode_ok; [done| |apply ino_slot_bound]. by eapply (mb_ok _ Hb), iblock_here.
Qed.

Lemma put_ino_dino d j : dinode_ok d -> 0 <= j < NINODES ->
  dino mk_sb (ideal (put_ino inum d s)) j = if decide (j = inum) then d else dino mk_sb (ideal s) j.
Proof using Hb Hr. intros Hd Hj. rewrite put_ino_ideal. apply dino_put; try done. by apply ideal_wf. Qed.
End inode.

(** A file of the image: type, permission bits and content. *)
Record afile := AFile { af_type : Z; af_mode : Z; af_bytes : list Z }.

Definition a_append (bs : list Z) (a : afile) : afile := AFile (af_type a) (af_mode a) (af_bytes a ++ bs).
Definition a_size (a : afile) : nat := length (af_bytes a).
Definition a_blocks (A : list afile) : Z := foldr (fun a n => fblocks (a_size a) + n) 0 A.

Lemma a_size_append p a : a_size (a_append p a) = (a_size a + length p)%nat.
Proof. apply length_app. Qed.

Definition short_ok (x : Z) : Prop := - 2 ^ 15 <= x < 2 ^ 15.

(** Inode [inum] of the disk [bl] is the file [a]. *)
Record holds (bl : gmap Z (list Z)) (inum : Z) (a : afile) : Prop := {
  h_dino : dino mk_sb bl inum =
    DInode (af_type a) 0 0 1 (Z.of_nat (a_size a)) (d_addrs (dino mk_sb bl inum)) 0 0 (af_mode a);
  h_short : short_ok (af_type a) /\ short_ok (af_mode a);
  h_size : (a_size a <= NBLOCKS * BSZ)%nat;
  h_wf : inode_wf mk_sb bl (dino mk_sb bl inum);
  h_data : forall x, owned bl (dino mk_sb bl inum) x -> nmeta <= x;
  h_exact : exact bl (dino mk_sb bl inum) (a_size a);
  h_bytes : fread bl (dino mk_sb bl inum) 0 (a_size a) = af_bytes a }.

Lemma fread_cong bl d bl' d' n :
  (n <= NBLOCKS * BSZ)%nat -> (forall bn, (bn < NBLOCKS)%nat -> file_block bl' d' bn = file_block bl d bn) ->
  fread bl' d' 0 n = fread bl d 0 n.
Proof.
  intros Hn Hf. unfold fread. apply list_fmap_ext. intros k o Ho. apply lookup_seq in Ho as [-> Hk]. unfold fbyte. rewrite Hf; [done|].
  apply Nat.Div0.div_lt_upper_bound. lia.
Qed.

Lemma holds_kept bl bl' inum a :
  holds bl inum a -> dino mk_sb bl' inum = dino mk_sb bl inum ->
  (forall x, owned bl (dino mk_sb bl inum) x -> bl' !! x = bl !! x) ->
  (forall x, 0 <= x < sb_size mk_sb -> used mk_sb bl x = true -> used mk_sb bl' x = true) ->
  holds bl' inum a /\ forall x, owned bl' (dino mk_sb bl' inum) x <-> owned bl (dino mk_sb bl inum) x.
Proof.
  intros [H1 H2 H3 H4 H5 H6 H7] Ed Hs Hu. destruct (inode_kept mk_sb bl bl' _ H4 Hs Hu) as (K1 & K2 & K3).
  assert (Ho : forall x, owned bl' (dino mk_sb bl inum) x <-> owned bl (dino mk_sb bl inum) x) by (intros x; unfold owned; by setoid_rewrite K2).
  rewrite Ed. split; [|exact Ho]. constructor; rewrite ?Ed; try done.
  - intros x Hx%Ho. by apply H5.
  - destruct H6 as [X1 X2]. constructor; [|done]. intros bn Hbn. rewrite K2. by apply X1.
  - rewrite <- H7. by apply fread_cong.
Qed.

(** The blocks in front of the inodes: boot block, super block and log. *)
Definition meta_block (x : Z) : list Z := if x =? 1 then sb_block else zero_block.

(** The state of [mkfs] when the image holds the files [A], from inode 1 on. *)
Record mk_ok (A : list afile) (s : mk) : Prop := {
  mo_base : mk_base s;
  mo_inode : mk_freeinode s = Z.of_nat (S (length A));
  mo_count : Z.of_nat (length A) < NINODES;
  mo_block : mk_freeblock s = nmeta + a_blocks A;
  mo_files : forall i a, A !! i = Some a -> holds (ideal s) (Z.of_nat (S i)) a;
  mo_disj : forall i j x, (i < length A)%nat -> (j < length A)%nat -> i <> j ->
    owned (ideal s) (dino mk_sb (ideal s) (Z.of_nat (S i))) x -> ~ owned (ideal s) (dino mk_sb (ideal s) (Z.of_nat (S j))) x;
  mo_free : forall inum, Z.of_nat (length A) < inum < NINODES -> d_type (dino mk_sb (ideal s) inum) = 0;
  mo_meta : forall x, 0 <= x < 32 -> mk_img s !! x = Some (meta_block x) }.

Lemma NINODES_sb : sb_ninodes mk_sb = NINODES.
Proof. done. Qed.

Lemma iset_used s x : mk_base s -> x ∈ iset mk_sb -> (x ∉ bmset mk_sb) /\ (0 <= x < sb_size mk_sb -> used mk_sb (ideal s) x = true).
Proof.
  intros Hb Hx. pose proof (ideal_wf s Hb) as Hw. split; [by apply (aw_ib _ _ Hw)|]. intros Hr.
  destruct (used mk_sb (ideal s) x) eqn:Hu; [done|]. by destruct (aw_free _ _ Hw x Hr Hu) as (_ & _ & ? & _).
Qed.

Lemma iblock_iset s inum : mk_base s -> 0 <= inum < NINODES -> IBLOCK inum mk_sb ∈ iset mk_sb.
Proof. intros Hb Hr. by eapply IBLOCK_iset; [exact (ideal_wf s Hb)|]. Qed.

(** Writing one inode leaves the other files as they are. *)
Lemma put_ino_others s inum d j a :
  mk_base s -> 0 <= inum < NINODES -> dinode_ok d -> 0 <= j < NINODES -> j <> inum -> holds (ideal s) j a ->
  holds (ideal (put_ino inum d s)) j a /\
  forall x, owned (ideal (put_ino inum d s)) (dino mk_sb (ideal (put_ino inum d s)) j) x <-> owned (ideal s) (dino mk_sb (ideal s) j) x.
Proof.
  intros Hb Hr Hd Hj Hne Ha. pose proof (iblock_iset s inum Hb Hr) as Hin. destruct (iset_used s _ Hb Hin) as [Hbm _].
  apply holds_kept; [done|by rewrite put_ino_dino, decide_False by done|..].
  - intros x Hx. rewrite put_ino_ideal by done. apply lookup_insert_ne. intros E. subst x.
    exact (iblock_not_owned _ _ _ _ (h_wf _ _ _ Ha) Hin Hx).
  - intros x Hx Hu. rewrite put_ino_ideal by done. rewrite used_insert; [done|by apply ideal_wf|done|done].
Qed.

Lemma put_ino_meta s inum d x : 0 <= inum < NINODES -> 0 <= x < 32 -> mk_img (put_ino inum d s) !! x = mk_img s !! x.
Proof. intros Hr Hx. pose proof (iblock_range inum Hr). cbn. rewrite lookup_insert_ne; [done|lia]. Qed.

(** ** [ialloc] *)

Definition new_dinode (type mode : Z) : dinode := DInode type 0 0 1 0 (replicate (S NDIRECT) 0) 0 0 mode.

Lemma new_dinode_addr bl type mode bn : addr_of bl (new_dinode type mode) bn = 0.
Proof.
  unfold addr_of, ind_of, new_dinode. cbn [d_addrs]. destruct (replicate (S NDIRECT) 0 !! NDIRECT) as [x|] eqn:E; [|done].
  apply lookup_replicate in E as [-> _]. destruct (_ <? _)%nat; [|done].
  destruct (replicate (S NDIRECT) 0 !! bn) as [x|] eqn:E; [|done]. by apply lookup_replicate in E as [-> _].
Qed.
Lemma new_dinode_owned bl type mode x : ~ owned bl (new_dinode type mode) x.
Proof. intros [Hx [->|(bn & _ & <-)]]; [done|]. by rewrite new_dinode_addr in Hx. Qed.
Lemma new_dinode_ok type mode : short_ok type -> short_ok mode -> dinode_ok (new_dinode type mode).
Proof.
  intros. constructor; cbn [new_dinode d_type d_major d_minor d_nlink d_size d_addrs d_uid d_gid d_mode]; try done; try lia.
  apply Forall_replicate. lia.
Qed.

Lemma new_dinode_holds bl inum type mode :
  dino mk_sb bl inum = new_dinode type mode -> short_ok type -> short_ok mode -> holds bl inum (AFile type mode []).
Proof.
  intros Ed Ht Hm. constructor; rewrite ?Ed; try done.
  - apply Nat.le_0_l.
  - constructor.
    + reflexivity.
    + intros x Hx. by apply new_dinode_owned in Hx.
    + intros bn bn' _ _ _ Hne. by rewrite new_dinode_addr in Hne.
    + intros bn _ Hne. by rewrite new_dinode_addr in Hne.
  - intros x Hx. by apply new_dinode_owned in Hx.
  - constructor.
    + intros bn Hbn. rewrite new_dinode_addr. split; [done|]. intros Hlt. exfalso. revert Hlt. change (dblocks (a_size (AFile type mode []))) with 0%nat. lia.
    + change (dblocks (a_size (AFile type mode []))) with 0%nat. change (ind_of (new_dinode type mode)) with 0. unfold NDIRECT. lia.
Qed.

Lemma a_blocks_app A B : a_blocks (A ++ B) = a_blocks A + a_blocks B.
Proof. induction A as [|a A IH]; [done|]. unfold a_blocks in *. cbn [foldr app]. rewrite IH. lia. Qed.

Lemma ialloc_spec A s type mode :
  mk_ok A s -> Z.of_nat (S (length A)) < NINODES -> 0 <= type < 2 ^ 15 -> short_ok mode ->
  wp (ialloc type mode) (fun r s' => r = Z.of_nat (S (length A)) /\ mk_ok (A ++ [AFile type mode []]) s') s.
Proof.
  intros HA Hn Ht Hm. destruct HA as [B1 B2 B3 B4 B5 B6 B7 B8]. unfold ialloc. wp_step.
  unfold next_inode. wp_step. wp_step. wp_step. wp_step. wp_step. rewrite B2, (u32_small (Z.of_nat (S (length A)) + 1)) by (unfold NINODES in *; lia).
  set (inum := Z.of_nat (S (length A))). set (s1 := Mk (mk_img s) (inum + 1) (mk_freeblock s)).
  assert (Hb1 : mk_base s1) by (destruct B1; by constructor). assert (Hr : 0 <= inum < NINODES) by (unfold inum; lia).
  wp_step. apply (wp_winode s1); [exact Hb1|exact Hr|]. wp_step. split; [done|].
  change (xshort 1) with 1. change (xint 0) with 0. rewrite xshort_small by lia. fold (new_dinode type mode).
  assert (Hok : dinode_ok (new_dinode type mode)) by (apply new_dinode_ok; [unfold short_ok; lia|done]).
  assert (Hidx : forall i, (i < length (A ++ [AFile type mode []]))%nat -> (i < length A)%nat \/ Z.of_nat (S i) = inum).
  { intros i. rewrite length_app. cbn [length]. unfold inum. lia. }
  assert (Hnew : dino mk_sb (ideal (put_ino inum (new_dinode type mode) s1)) inum = new_dinode type mode) by (by rewrite put_ino_dino, decide_True).
  assert (Hoth : forall i a, A !! i = Some a -> holds (ideal (put_ino inum (new_dinode type mode) s1)) (Z.of_nat (S i)) a /\
    forall x, owned (ideal (put_ino inum (new_dinode type mode) s1)) (dino mk_sb (ideal (put_ino inum (new_dinode type mode) s1)) (Z.of_nat (S i))) x <->
      owned (ideal s) (dino mk_sb (ideal s) (Z.of_nat (S i))) x).
  { intros i a Hi. pose proof (lookup_lt_Some _ _ _ Hi). apply (put_ino_others s1); try done; [lia|lia|]. by apply B5. }
  constructor.
  - by apply put_ino_base.
  - rewrite length_app. cbn. lia.
  - rewrite length_app. cbn. unfold inum in *. lia.
  - rewrite a_blocks_app. change (a_blocks [AFile type mode []]) with 0. cbn. lia.
  - intros i a Hi. apply lookup_snoc_Some in Hi as [[Hi Ha]|[-> <-]]; [by apply Hoth|]. fold inum. apply new_dinode_holds; [done|unfold short_ok; lia|done].
  - intros i j x [Hi|Hi]%Hidx [Hj|Hj]%Hidx Hne; rewrite ?Hi, ?Hj, ?Hnew; try (intros ?%new_dinode_owned; done); [|intros _; apply new_dinode_owned].
    destruct (lookup_lt_is_Some_2 A i Hi) as [a Ea], (lookup_lt_is_Some_2 A j Hj) as [b Eb].
    rewrite (proj2 (Hoth _ _ Ea)), (proj2 (Hoth _ _ Eb)). by apply B6.
  - intros k Hk. rewrite length_app in Hk. cbn in Hk. rewrite put_ino_dino, decide_False by (done || unfold inum; lia). apply B7. lia.
  - intros x Hx. rewrite put_ino_meta by done. by apply B8.
Qed.

(** ** [iappend] *)

(** A transaction as large as needed. *)
Definition big_view (bl : gmap Z (list Z)) (n : nat) : lview := LView bl ∅ ∅ ∅ (n + size (bmset mk_sb)) true.
Lemma big_avail bl n : avail mk_sb (big_view bl n) n.
Proof. split; [done|]. cbn [lv_logged lv_room big_view]. rewrite difference_empty_L. lia. Qed.

(** A block in use that the inode does not own is not touched by the loop. *)
Lemma loop_frame s v din off p r s' res x :
  lv_blocks v = ideal s -> appended v din off p r s res s' -> x <> BM -> ~ owned (ideal s) din x ->
  (0 <= x < sb_size mk_sb -> used mk_sb (ideal s) x = true) -> ideal s' !! x = ideal s !! x.
Proof.
  intros Ev [_ _ _ _ _ [v' [Hwr Ev']]] Hx Ho Hu. rewrite <- Ev', <- Ev in *. eapply written_frame; try done.
  by rewrite elem_bmset.
Qed.

(** What is not a file: the inodes that are not in use, and the blocks in front. *)
Lemma append_dino s v din off p r s' res k :
  mk_base s -> lv_blocks v = ideal s -> appended v din off p r s res s' -> inode_wf mk_sb (ideal s) din -> 0 <= k < NINODES ->
  dino mk_sb (ideal s') k = dino mk_sb (ideal s) k.
Proof.
  intros Hb Ev Hap Hi Hk. pose proof (iblock_iset s k Hb Hk) as Hin. unfold dino, block_of.
  rewrite (loop_frame s v din off p r s' res (IBLOCK k mk_sb)); try done.
  - pose proof (iblock_range k Hk). lia.
  - by eapply iblock_not_owned.
  - by apply iset_used.
Qed.

Lemma append_meta s v din off p r s' res x :
  mk_base s -> lv_blocks v = ideal s -> appended v din off p r s res s' ->
  (forall y, owned (ideal s) din y -> nmeta <= y) -> 0 <= x < 32 -> mk_img s' !! x = mk_img s !! x.
Proof.
  intros Hb Ev Hap Hdat Hx. assert (x <> BM) by (unfold BM; lia). rewrite <- (ideal_other s'), <- (ideal_other s) by done.
  eapply loop_frame; try done.
  - intros Ho%Hdat. rewrite nmeta_eq in Ho. lia.
  - intros Hx'. change (sb_size mk_sb) with FSSIZE in Hx'. rewrite (ideal_used s Hb) by done. pose proof (freeblock_range s Hb). apply Z.ltb_lt. lia.
Qed.

(** The other files, after the loop and after the inode has been written. *)
Lemma append_others s v din off p r s' res inum d j a :
  mk_base s -> lv_blocks v = ideal s -> appended v din off p r s res s' -> inode_wf mk_sb (ideal s) din ->
  0 <= inum < NINODES -> dinode_ok d -> 0 <= j < NINODES -> j <> inum -> holds (ideal s) j a ->
  (forall x, owned (ideal s) (dino mk_sb (ideal s) j) x -> ~ owned (ideal s) din x) ->
  holds (ideal (put_ino inum d s')) j a /\
  forall x, owned (ideal (put_ino inum d s')) (dino mk_sb (ideal (put_ino inum d s')) j) x <-> owned (ideal s) (dino mk_sb (ideal s) j) x.
Proof.
  intros Hb Ev Hap Hi Hr Hd Hj Hne Ha Hdis.
  assert (Hdino : dino mk_sb (ideal s') j = dino mk_sb (ideal s) j) by (by eapply append_dino).
  assert (Hkeep : forall x, owned (ideal s) (dino mk_sb (ideal s) j) x -> ideal s' !! x = ideal s !! x).
  { intros x Hx. pose proof (iw_data _ _ _ (h_wf _ _ _ Ha) x Hx) as Hdat. eapply loop_frame; try done.
    - by apply (data_below s).
    - by apply Hdis.
    - intros _. apply Hdat. }
  destruct (holds_kept (ideal s) (ideal s') j a Ha Hdino Hkeep) as [Ha' Ho'].
  { intros x Hx Hu. destruct Hap as [_ _ _ _ _ [v' [Hwr Ev']]]. rewrite <- Ev', <- Ev in *. by apply (ev_used _ _ _ _ _ (wr_ev _ _ _ _ _ _ _ _ Hwr)). }
  destruct (put_ino_others s' inum d j a) as [Ha2 Ho2]; try done; [apply Hap|]. split; [done|]. intros x. by rewrite Ho2, Ho'.
Qed.

(** The bytes of a file after an append. *)
Lemma fread_append bl d bl' d' n p :
  (n + length p <= NBLOCKS * BSZ)%nat ->
  (forall o, (o < NBLOCKS * BSZ)%nat -> fbyte bl' d' o = fpatch (fbyte bl d) n p o) ->
  fread bl' d' 0 (n + length p) = fread bl d 0 n ++ p.
Proof.
  intros Hmax Hb. rewrite fread_app. f_equal.
  - unfold fread. apply list_fmap_ext. intros k o Ho. apply lookup_seq in Ho as [-> Hk]. rewrite Hb by lia.
    unfold fpatch. by rewrite decide_False by lia.
  - apply list_eq. intros k. unfold fread. rewrite list_lookup_fmap. destruct (decide (k < length p)%nat) as [Hk|Hk].
    + rewrite lookup_seq_lt by done. cbn [fmap option_fmap option_map]. rewrite Hb by lia. unfold fpatch.
      rewrite decide_True by lia. unfold byte_at. replace (0 + n + k - n)%nat with k by lia.
      by destruct (lookup_lt_is_Some_2 p k Hk) as [x ->].
    + rewrite lookup_seq_ge by lia. symmetry. by apply lookup_ge_None_2; lia.
Qed.

(** The file itself. *)
Lemma append_holds s v inum a p r s' res :
  let din := dino mk_sb (ideal s) inum in
  let d := d_with_size (Z.of_nat (a_size a + length p)) res.1 in
  mk_base s -> lv_blocks v = ideal s -> 0 <= inum < NINODES -> holds (ideal s) inum a ->
  (a_size a + length p <= NBLOCKS * BSZ)%nat ->
  appended v din (a_size a) p r s res s' ->
  dinode_ok d /\ holds (ideal (put_ino inum d s')) inum (a_append p a) /\
  forall x, owned (ideal (put_ino inum d s')) (dino mk_sb (ideal (put_ino inum d s')) inum) x ->
    owned (ideal s) din x \/ x ∈ free_set mk_sb (ideal s).
Proof.
  intros din d Hb Ev Hr Ha Hmax [C1 C2 C3 C4 C5 [v' [Hwr Ev']]]. destruct Ha as [H1 [H2a H2b] H3 H4 H5 H6 H7]. fold din in H1, H4, H5, H6, H7.
  pose proof (wr_ev _ _ _ _ _ _ _ _ Hwr) as Hev. pose proof (wr_wf _ _ _ _ _ _ _ _ Hwr) as Hwf. rewrite Ev' in Hwf.
  pose proof (ev_rest _ _ _ _ _ Hev) as Erest. pose proof (ideal_wf s' C2) as Hal.
  pose proof (inode_wf_addrs _ _ _ Hal Hwf) as Hads. pose proof (iw_len _ _ _ Hwf) as Hlen.
  assert (Ed : d = DInode (af_type a) 0 0 1 (Z.of_nat (a_size a + length p)) (d_addrs res.1) 0 0 (af_mode a)) by (unfold d; rewrite Erest, H1; done).
  assert (Hok : dinode_ok d).
  { rewrite Ed. constructor; cbn [d_type d_major d_minor d_nlink d_size d_addrs d_uid d_gid d_mode]; try done; try lia; unfold NBLOCKS, BSZ in *; lia. }
  assert (Hino : dino mk_sb (ideal (put_ino inum d s')) inum = d) by (by rewrite put_ino_dino, decide_True).
  assert (Hwfd : inode_wf mk_sb (ideal s') d) by (by apply inode_wf_size).
  pose proof (iblock_iset s inum Hb Hr) as Hin. destruct (iset_used s _ Hb Hin) as [Hbm _].
  pose proof (iblock_not_owned _ _ _ _ Hwfd Hin) as Hnot. rewrite Hino, (put_ino_ideal s' inum Hr).
  assert (Hnew : forall x, owned (ideal s') d x -> owned (ideal s) din x \/ x ∈ free_set mk_sb (ideal s)).
  { intros x Hx. rewrite <- Ev. apply (ev_new _ _ _ _ _ Hev). by rewrite Ev'. }
  assert (Hoo : forall y x, owned (<[IBLOCK inum mk_sb := y]> (ideal s')) d x <-> owned (ideal s') d x) by (intros; by apply (owned_other mk_sb)).
  split_and!; [done| |by intros x Hx%Hoo; auto]. constructor; rewrite <- ?(put_ino_ideal s' inum Hr), ?Hino, ?(put_ino_ideal s' inum Hr).
  - rewrite a_size_append, Ed at 1. reflexivity.
  - done.
  - by rewrite a_size_append.
  - by apply inode_wf_other.
  - intros x Hx%Hoo. apply Hnew in Hx as [Hx|[Hx Hu]%elem_of_free_set]; [by apply H5|].
    change (sb_size mk_sb) with FSSIZE in Hx. rewrite (ideal_used s Hb) in Hu by done. apply Z.ltb_ge in Hu. pose proof (freeblock_range s Hb). rewrite nmeta_eq. lia.
  - rewrite a_size_append. destruct C5 as [X1 X2]. constructor; [|done].
    intros bn Hbn. rewrite (addr_other mk_sb) by done. by apply X1.
  - rewrite a_size_append. change (af_bytes (a_append p a)) with (af_bytes a ++ p). rewrite <- H7.
    etransitivity; [apply fread_cong; [done|]; intros bn Hbn; by eapply file_other|].
    apply fread_append; [done|]. intros o Ho. rewrite <- Ev, <- (wr_bytes _ _ _ _ _ _ _ _ Hwr) by done. by rewrite Ev'.
Qed.

Lemma a_blocks_insert A i a b :
  A !! i = Some a -> a_blocks (<[i := b]> A) = a_blocks A - fblocks (a_size a) + fblocks (a_size b).
Proof.
  revert i. unfold a_blocks. induction A as [|c A IH]; intros [|i] Hi; try done; cbn in Hi.
  - injection Hi as ->. change (<[0%nat := b]> (a :: A)) with (b :: A). cbn [foldr]. lia.
  - change (<[S i := b]> (c :: A)) with (c :: <[i := b]> A). cbn [foldr]. rewrite (IH _ Hi). lia.
Qed.

Lemma iappend_spec A s i a p :
  mk_ok A s -> A !! i = Some a -> bytes_ok p -> (a_size a + length p <= NBLOCKS * BSZ)%nat ->
  nmeta + a_blocks (<[i := a_append p a]> A) <= FSSIZE ->
  wp (iappend (Z.of_nat (S i)) p) (fun _ s' => mk_ok (<[i := a_append p a]> A) s') s.
Proof.
  intros [B1 B2 B3 B4 B5 B6 B7 B8] Hi Hp Hmax Hroom. pose proof (B5 _ _ Hi) as Ha. pose proof (lookup_lt_Some _ _ _ Hi) as Hlt.
  set (inum := Z.of_nat (S i)) in *. assert (Hr : 0 <= inum < NINODES) by (unfold inum; lia).
  rewrite (a_blocks_insert _ _ _ _ Hi), a_size_append in Hroom. unfold iappend. wp_step. apply wp_rinode; [done|done|].
  assert (Esz : d_size (dino mk_sb (ideal s) inum) = Z.of_nat (a_size a)) by (by rewrite (h_dino _ _ _ Ha)).
  unfold xint. rewrite Esz, u32_small by (unfold NBLOCKS, BSZ in *; lia).
  set (v := big_view (ideal s) (3 * length p + 0)). eapply wp_seq.
  { apply (iappend_loop_spec (length p) s v _ (a_size a) p 0);
      [exact B1|done|apply Ha|apply Ha|done|done|apply big_avail|exact Hp|done|exact Hmax|lia]. }
  intros [d1 off] s1 Hap. cbn [fst snd]. rewrite (ap_off _ _ _ _ _ _ _ _ Hap : off = _).
  rewrite u32_small by (unfold NBLOCKS, BSZ in *; lia). set (d := d_with_size (Z.of_nat (a_size a + length p)) d1).
  destruct (append_holds s v inum a p 0 s1 (d1, off) B1 eq_refl Hr Ha Hmax Hap) as (Hok & Hme & Hown). cbn [fst] in Hok, Hme, Hown. fold d in Hok, Hme, Hown.
  pose proof (ap_base _ _ _ _ _ _ _ _ Hap) as Hb1.
  assert (Hoth : forall j b, A !! j = Some b -> j <> i -> holds (ideal (put_ino inum d s1)) (Z.of_nat (S j)) b /\
    forall x, owned (ideal (put_ino inum d s1)) (dino mk_sb (ideal (put_ino inum d s1)) (Z.of_nat (S j))) x <->
      owned (ideal s) (dino mk_sb (ideal s) (Z.of_nat (S j))) x).
  { intros j b Hj Hne. pose proof (lookup_lt_Some _ _ _ Hj). eapply (append_others s v);
      [exact B1|reflexivity|exact Hap|apply Ha|exact Hr|exact Hok|lia|unfold inum; lia|by apply B5|intros x; by apply B6]. }
  apply wp_winode; [done|done|]. constructor; rewrite ?length_insert.
  - by apply put_ino_base.
  - cbn. by rewrite (ap_inode _ _ _ _ _ _ _ _ Hap).
  - done.
  - rewrite (a_blocks_insert _ _ _ _ Hi), a_size_append. cbn [put_ino put mk_freeblock]. rewrite (ap_block _ _ _ _ _ _ _ _ Hap), B4. lia.
  - intros j b [(-> & <- & _)|[Hne Hj]]%list_lookup_insert_Some; [done|]. by apply Hoth.
  - assert (Hex : forall j x, (j < length A)%nat -> j <> i ->
      owned (ideal (put_ino inum d s1)) (dino mk_sb (ideal (put_ino inum d s1)) (Z.of_nat (S j))) x -> ~
      owned (ideal (put_ino inum d s1)) (dino mk_sb (ideal (put_ino inum d s1)) inum) x).
    { intros j x Hj Hne Hx Hx'. destruct (lookup_lt_is_Some_2 A j Hj) as [b Eb]. rewrite (proj2 (Hoth _ _ Eb Hne)) in Hx.
      apply Hown in Hx' as [Hx'|[_ Hu]%elem_of_free_set]; [by apply (B6 j i x)|].
      by rewrite (db_used _ _ _ (iw_data _ _ _ (h_wf _ _ _ (B5 _ _ Eb)) x Hx)) in Hu. }
    intros j k x Hj Hk Hne Hx. destruct (decide (j = i)) as [->|Hji]; [intros Hx'; by apply (Hex k x)|].
    destruct (decide (k = i)) as [->|Hki]; [by apply (Hex j x)|].
    destruct (lookup_lt_is_Some_2 A j Hj) as [b Eb], (lookup_lt_is_Some_2 A k Hk) as [c Ec].
    rewrite (proj2 (Hoth _ _ Eb Hji)) in Hx. rewrite (proj2 (Hoth _ _ Ec Hki)). by apply (B6 j k x).
  - intros k Hk. rewrite put_ino_dino, decide_False by (done || unfold inum; lia).
    rewrite (append_dino s v _ _ _ _ s1 _ k B1 eq_refl Hap) by (apply Ha || lia). by apply B7.
  - intros x Hx. rewrite put_ino_meta by done. rewrite (append_meta s v _ _ _ _ s1 _ x B1 eq_refl Hap) by (apply Ha || done). by apply B8.
Qed.
