(* ===== verification/MkfsImage.v ===== *)
(** * What [mkfs] builds

    The refinement theorem for [tools/mkfs.c]: the image holds the directory
    tree [layout] describes, with the files of the command line in [/bin],
    [/etc] and [/home/root], and is a file system the kernel can start from. *)

From S2P Require Import Prelude SleepLock Bio Layout Log BlockLayer CString ProcDefs Fs FsAlloc FsInode FsFile Mkfs MkfsSpec.

(** ** Images that fit *)

Record fits_disk (A : list afile) : Prop := {
  fd_sizes : Forall (fun a => a_size a <= NBLOCKS * BSZ)%nat A;
  fd_blocks : nmeta + a_blocks A <= FSSIZE;
  fd_count : Z.of_nat (length A) < NINODES }.

(** Fewer files, and shorter ones. *)
Inductive below : list afile -> list afile -> Prop :=
  | below_nil B : below [] B
  | below_cons a b A B : (a_size a <= a_size b)%nat -> below A B -> below (a :: A) (b :: B).

Lemma below_refl A : below A A.
Proof. induction A; by constructor. Qed.

Lemma below_trans A B C : below A B -> below B C -> below A C.
Proof. intros H. revert C. induction H; intros C HC; [constructor|]. inversion HC; subst. constructor; [lia|auto]. Qed.

Lemma below_app A B : below A (A ++ B).
Proof. induction A; by constructor. Qed.

Lemma below_insert A i a b : A !! i = Some a -> (a_size a <= a_size b)%nat -> below A (<[i := b]> A).
Proof.
  revert i. induction A as [|c A IH]; intros [|i] Hi Hs; try done; cbn in Hi.
  - injection Hi as ->. constructor; [done|apply below_refl].
  - change (<[S i := b]> (c :: A)) with (c :: <[i := b]> A). constructor; [done|auto].
Qed.

Lemma below_snoc A a b : (a_size a <= a_size b)%nat -> below (A ++ [a]) (A ++ [b]).
Proof. intros. induction A; by repeat constructor. Qed.

Lemma a_blocks_nonneg A : 0 <= a_blocks A.
Proof. induction A as [|a A IH]; [done|]. unfold a_blocks in *. cbn [foldr]. pose proof (fblocks_mono 0 (a_size a) ltac:(lia)) as H. change (fblocks 0) with 0 in H. lia. Qed.

Lemma fits_below A B : below A B -> fits_disk B -> fits_disk A.
Proof.
  intros HAB [H1 H2 H3].
  assert (Forall (fun a => a_size a <= NBLOCKS * BSZ)%nat A /\ a_blocks A <= a_blocks B /\ (length A <= length B)%nat) as (? & ? & ?);
    [|constructor; [done|lia|lia]]. clear H2 H3. induction HAB as [B|a b A B Hs HAB IH].
  - split_and!; [constructor|apply a_blocks_nonneg|apply Nat.le_0_l].
  - inversion H1; subst. destruct IH as (I1 & I2 & I3); [done|]. pose proof (fblocks_mono _ _ Hs).
    unfold a_blocks in *. cbn [foldr length]. split_and!; [constructor; [lia|done]|lia|lia].
Qed.

(** ** The operations, with one condition on the result *)

Lemma ialloc_fits A s type mode :
  mk_ok A s -> fits_disk (A ++ [AFile type mode []]) -> 0 <= type < 2 ^ 15 -> short_ok mode ->
  wp (ialloc type mode) (fun r s' => r = Z.of_nat (S (length A)) /\ mk_ok (A ++ [AFile type mode []]) s') s.
Proof. intros HA [_ _ Hn] Ht Hm. rewrite length_app in Hn. cbn [length] in Hn. apply ialloc_spec; [done|lia|done|done]. Qed.

Lemma iappend_fits A s i a p :
  mk_ok A s -> A !! i = Some a -> bytes_ok p -> fits_disk (<[i := a_append p a]> A) ->
  wp (iappend (Z.of_nat (S i)) p) (fun _ s' => mk_ok (<[i := a_append p a]> A) s') s.
Proof.
  intros HA Hi Hp [Hs Hb _]. apply iappend_spec; try done. rewrite <- a_size_append.
  rewrite Forall_lookup in Hs. apply (Hs i). apply list_lookup_insert_eq. by eapply lookup_lt_Some.
Qed.

(** Appending to the file that was added last. *)
Lemma insert_last (A : list afile) (a b : afile) : <[length A := b]> (A ++ [a]) = A ++ [b].
Proof. rewrite insert_app_r_alt by done. by rewrite Nat.sub_diag. Qed.

Lemma iappend_last A s a p :
  mk_ok (A ++ [a]) s -> bytes_ok p -> fits_disk (A ++ [a_append p a]) ->
  wp (iappend (Z.of_nat (S (length A))) p) (fun _ s' => mk_ok (A ++ [a_append p a]) s') s.
Proof.
  intros HA Hp Hf. rewrite <- (insert_last A a) in Hf |- *. apply iappend_fits; try done. by apply list_lookup_middle.
Qed.

Lemma append_all_fits chunks A s type mode bs :
  mk_ok (A ++ [AFile type mode bs]) s -> Forall bytes_ok chunks -> fits_disk (A ++ [AFile type mode (bs ++ concat chunks)]) ->
  wp (append_all (Z.of_nat (S (length A))) chunks) (fun _ s' => mk_ok (A ++ [AFile type mode (bs ++ concat chunks)]) s') s.
Proof.
  revert s bs. induction chunks as [|c chunks IH]; intros s bs HA Hok Hf; cbn [append_all concat] in *.
  - wp_step. by rewrite app_nil_r.
  - inversion Hok; subst. eapply wp_seq; [apply (iappend_last A s (AFile type mode bs) c); try done|].
    + eapply fits_below; [|exact Hf]. apply below_snoc. unfold a_size. cbn. rewrite !length_app. lia.
    + intros [] s' HA'. rewrite app_assoc in *. by apply IH.
Qed.

(** ** Directories *)

Lemma entry_bytes inum name : bytes_ok name -> bytes_ok (entry inum name).
Proof.
  intros Hn. unfold entry, enc_dirent. cbn [de_inum de_name]. apply Forall_app. split; [apply le_bytes_ok|].
  apply Forall_take, Forall_app. split; [done|]. by apply Forall_replicate.
Qed.

Definition dot (ino parent : Z) : list Z := entry ino [46] ++ entry parent [46; 46].

Lemma makedir_spec A s i a name :
  let ino := Z.of_nat (S (length A)) in
  let A' := <[i := a_append (entry ino name) a]> A ++ [AFile T_DIR 493 (dot ino (Z.of_nat (S i)))] in
  mk_ok A s -> A !! i = Some a -> bytes_ok name -> fits_disk A' ->
  wp (makedir (Z.of_nat (S i)) name) (fun r s' => r = ino /\ mk_ok A' s') s.
Proof.
  intros ino A' HA Hi Hn Hf. set (da := AFile T_DIR 493 (dot ino (Z.of_nat (S i)))) in *.
  assert (Hlt : (i < length A)%nat) by (by eapply lookup_lt_Some).
  assert (Hb2 : below (A ++ [da]) A').
  { unfold A'. rewrite <- insert_app_l by done. eapply below_insert; [rewrite lookup_app_l by done; exact Hi|]. rewrite a_size_append. lia. }
  assert (Hb1 : below (A ++ [AFile T_DIR 493 (entry ino [46])]) (A ++ [da]))
    by (apply below_snoc; unfold a_size; cbn [af_bytes da]; unfold dot; rewrite length_app; lia).
  assert (Hb0 : below (A ++ [AFile T_DIR 493 []]) (A ++ [AFile T_DIR 493 (entry ino [46])])) by (apply below_snoc; apply Nat.le_0_l).
  pose proof (fits_below _ _ Hb2 Hf) as Hf2. pose proof (fits_below _ _ Hb1 Hf2) as Hf1. pose proof (fits_below _ _ Hb0 Hf1) as Hf0.
  unfold makedir. eapply wp_seq; [by apply ialloc_fits|].
  intros ? s1 [-> H1]. fold ino. eapply wp_seq.
  { apply (iappend_last A s1 (AFile T_DIR 493 []) (entry ino [46])); [done|apply entry_bytes; by repeat constructor|done]. }
  intros [] s2 H2. eapply wp_seq.
  { apply (iappend_last A s2 (AFile T_DIR 493 (entry ino [46])) (entry (Z.of_nat (S i)) [46; 46])); [done|apply entry_bytes; by repeat constructor|done]. }
  intros [] s3 H3. eapply wp_seq.
  { apply (iappend_fits (A ++ [da]) s3 i a); [done|by rewrite lookup_app_l|by apply entry_bytes|]. by rewrite insert_app_l. }
  intros [] s4 H4. wp_step. split; [done|]. unfold A'. by rewrite <- insert_app_l.
Qed.

(** The directories and the inode numbers they get. *)
Definition DIRS : dirs := Dirs 1 2 3 4 5 6.

Definition a_dir (ino parent : Z) (rest : list Z) : afile := AFile T_DIR 493 (dot ino parent ++ rest).
Definition dir_tree : list afile :=
  [a_dir 1 1 (entry 2 [100; 101; 118] ++ entry 3 [98; 105; 110] ++ entry 4 [104; 111; 109; 101] ++ entry 6 [101; 116; 99]);
   a_dir 2 1 []; a_dir 3 1 []; a_dir 4 1 (entry 5 [114; 111; 111; 116]); a_dir 5 4 []; a_dir 6 1 []].

Lemma small_fits A :
  forallb (fun a => a_size a <=? 512)%nat A && (length A <=? 10)%nat = true -> fits_disk A.
Proof.
  intros [H1 H2%Nat.leb_le]%andb_prop.
  assert (Hs : Forall (fun a => a_size a <= 512)%nat A).
  { apply Forall_forall. intros a Ha%list_elem_of_In. apply Nat.leb_le. by eapply forallb_forall in H1. }
  constructor.
  - eapply Forall_impl; [exact Hs|]. intros a Ha. cbn beta in Ha. unfold NBLOCKS, BSZ. lia.
  - assert (Hb : a_blocks A <= Z.of_nat (length A)).
    { clear H1 H2. induction Hs as [|a A Ha Hs IH]; [done|]. unfold a_blocks in *. cbn [foldr length].
      pose proof (fblocks_mono _ _ Ha). change (fblocks 512) with 1 in *. lia. }
    rewrite nmeta_eq. unfold FSSIZE. lia.
  - unfold NINODES. lia.
Qed.

Lemma makedirs_spec s : mk_ok [] s -> wp makedirs (fun d s' => d = DIRS /\ mk_ok dir_tree s') s.
Proof.
  intros H0. unfold makedirs. eapply wp_seq; [apply (ialloc_fits []); [done|by apply small_fits|done|done]|].
  intros ? s1 [-> H1]. cbn [app] in H1. change (Z.of_nat (S (length (@nil afile)))) with 1. cbn [Z.eqb negb].
  eapply wp_seq; [eapply (iappend_last [] s1 _ (entry 1 [46])); [exact H1|apply entry_bytes; by repeat constructor|by apply small_fits]|].
  intros [] s2 H2. eapply wp_seq; [eapply (iappend_last [] s2 _ (entry 1 [46; 46])); [exact H2|apply entry_bytes; by repeat constructor|by apply small_fits]|].
  intros [] s3 H3. cbn [app] in H3.
  eapply wp_seq; [eapply (makedir_spec _ s3 0); [exact H3|done|by repeat constructor|by apply small_fits]|]. intros ? s4 [-> H4].
  eapply wp_seq; [eapply (makedir_spec _ s4 0); [exact H4|done|by repeat constructor|by apply small_fits]|]. intros ? s5 [-> H5].
  eapply wp_seq; [eapply (makedir_spec _ s5 0); [exact H5|done|by repeat constructor|by apply small_fits]|]. intros ? s6 [-> H6].
  eapply wp_seq; [eapply (makedir_spec _ s6 3); [exact H6|done|by repeat constructor|by apply small_fits]|]. intros ? s7 [-> H7].
  eapply wp_seq; [eapply (makedir_spec _ s7 0); [exact H7|done|by repeat constructor|by apply small_fits]|]. intros ? s8 [-> H8].
  wp_step. split; [done|exact H8].
Qed.

(** ** The files of the command line *)

Definition user_dir : list Z := [117; 115; 101; 114; 47].
Definition cfg_dir : list Z := [99; 102; 103; 47].

(** The name without the source directory, and where the file goes. *)
Definition base_name (argv : list Z) : Z * list Z :=
  if bool_decide (user_dir `prefix_of` argv) then (5, drop 5 argv)
  else if bool_decide (cfg_dir `prefix_of` argv) then (6, drop 4 argv)
  else (5, argv).
Definition place (argv : list Z) : Z * list Z :=
  let '(dir, base) := base_name argv in
  match base with
  | c :: name => if c =? 95 then (3, name) else (dir, base)
  | [] => (dir, base)
  end.

(** The entries of directory [dir] for the files [fs], whose inodes start at [n]. *)
Fixpoint dents (dir n : Z) (fs : list source) : list Z :=
  match fs with
  | [] => []
  | f :: fs =>
      (if (place (s_name f)).1 =? dir then enc_dirent (DirEnt n (strncpy (place (s_name f)).2 DIRSIZ)) else []) ++
      dents dir (n + 1) fs
  end.

Definition a_file (f : source) : afile :=
  AFile T_FILE (if (place (s_name f)).1 =? 3 then 509 else 420) (concat (default [] (s_chunks f))).

(** The files and directories of the image, from inode 1 on. *)
Definition layout (fs : list source) : list afile :=
  [a_dir 1 1 (entry 2 [100; 101; 118] ++ entry 3 [98; 105; 110] ++ entry 4 [104; 111; 109; 101] ++ entry 6 [101; 116; 99]);
   a_dir 2 1 [];
   a_dir 3 1 (dents 3 7 fs);
   a_dir 4 1 (entry 5 [114; 111; 111; 116]);
   a_dir 5 4 (dents 5 7 fs);
   a_dir 6 1 (dents 6 7 fs)] ++ (a_file <$> fs).

(** Names and contents are byte strings, the files can be opened, and no name
    has a slash left. *)
Record source_ok (f : source) : Prop := {
  sk_name : Forall (fun c => 0 < c < 256) (s_name f);
  sk_base : 47 ∉ (base_name (s_name f)).2;
  sk_chunks : exists c, s_chunks f = Some c /\ Forall bytes_ok c }.

Lemma starts_prefix prefix name :
  Forall (fun c => 0 < c < 256) name -> Forall (fun c => 0 < c < 256) prefix ->
  starts prefix name = bool_decide (prefix `prefix_of` name).
Proof.
  intros Hn Hp. unfold starts. apply eq_true_iff_eq. rewrite Z.eqb_eq, strncmp_eq, bool_decide_eq_true.
  rewrite !cstr_id by done. rewrite (take_ge prefix) by lia. split.
  - intros E. exists (drop (length prefix) name). rewrite <- E at 1. by rewrite take_drop.
  - intros [k ->]. by rewrite take_app_length.
Qed.

Lemma target_base argv : Forall (fun c => 0 < c < 256) argv -> target DIRS argv = base_name argv.
Proof.
  intros Hn. unfold target, base_name. fold user_dir cfg_dir. rewrite !starts_prefix by (done || by repeat constructor).
  cbn [etcino rootuserino DIRS]. case_bool_decide as Hu; case_bool_decide as Hc; try done.
  destruct Hu as [k ->], Hc as [k' E]. discriminate.
Qed.

Lemma dents_app dir n fs f :
  dents dir n (fs ++ [f]) = dents dir n fs ++
    (if (place (s_name f)).1 =? dir then enc_dirent (DirEnt (n + Z.of_nat (length fs)) (strncpy (place (s_name f)).2 DIRSIZ)) else []).
Proof.
  revert n. induction fs as [|g fs IH]; intros n; cbn [dents app length].
  - by rewrite Z.add_0_r, !app_nil_r.
  - rewrite IH, <- app_assoc. by replace (n + 1 + Z.of_nat (length fs)) with (n + Z.of_nat (S (length fs))) by lia.
Qed.

Lemma place_dir f : (place (s_name f)).1 = 3 \/ (place (s_name f)).1 = 5 \/ (place (s_name f)).1 = 6.
Proof.
  unfold place, base_name. repeat case_bool_decide; repeat case_match; simplify_eq; cbn; auto.
Qed.

(** Adding a file: an entry in its directory, and the file at the end. *)
Lemma layout_snoc fs f :
  let i := (Z.to_nat (place (s_name f)).1 - 1)%nat in
  let ino := Z.of_nat (S (length (layout fs))) in
  exists a, layout fs !! i = Some a /\ (i < length (layout fs))%nat /\ Z.of_nat (S i) = (place (s_name f)).1 /\
    layout (fs ++ [f]) = <[i := a_append (enc_dirent (DirEnt ino (strncpy (place (s_name f)).2 DIRSIZ))) a]> (layout fs) ++ [a_file f].
Proof.
  intros i ino. assert (Eino : ino = 7 + Z.of_nat (length fs)) by (unfold ino, layout; rewrite length_app, length_fmap; cbn [length]; lia).
  unfold layout. rewrite !dents_app, fmap_app, <- Eino.
  destruct (place_dir f) as [E|[E|E]]; unfold i; rewrite E; eexists; (split_and!; [reflexivity|rewrite length_app; cbn; lia|reflexivity|]);
    cbn -[enc_dirent strncpy dot entry dents]; unfold a_append, a_dir; cbn [af_type af_mode af_bytes]; rewrite ?app_nil_r, <- ?app_assoc; done.
Qed.

Lemma place_bytes argv : Forall (fun c => 0 < c < 256) argv -> bytes_ok (place argv).2.
Proof.
  intros Hn. assert (Hb : bytes_ok argv) by (eapply Forall_impl; [exact Hn|]; cbn beta; lia).
  assert (Hbase : bytes_ok (base_name argv).2) by (unfold base_name; repeat case_bool_decide; cbn; auto using Forall_drop).
  unfold place. destruct (base_name argv) as [dir [|c l]]; [done|]. cbn [snd] in *. inversion Hbase; subst. by destruct (c =? 95).
Qed.

Lemma add_file_eq f chunks :
  source_ok f -> s_chunks f = Some chunks ->
  add_file DIRS f =
    (do* ret chunks in
     let* inum := ialloc T_FILE (if (place (s_name f)).1 =? 3 then 509 else 420) in
     do* iappend (place (s_name f)).1 (enc_dirent (DirEnt (xshort inum) (strncpy (place (s_name f)).2 DIRSIZ))) in
     append_all inum chunks).
Proof.
  intros [Hn Hs _] Ec. unfold add_file. rewrite target_base, Ec by done. unfold place.
  destruct (base_name (s_name f)) as [dir base]. cbn [snd] in Hs. rewrite bool_decide_eq_false_2 by done.
  destruct base as [|c base]; [done|]. by destruct (c =? 95).
Qed.

Lemma add_file_spec fs f s :
  mk_ok (layout fs) s -> source_ok f -> fits_disk (layout (fs ++ [f])) ->
  wp (add_file DIRS f) (fun _ s' => mk_ok (layout (fs ++ [f])) s') s.
Proof.
  intros HA Hsrc Hf. pose proof Hsrc as [Hn _ (chunks & Ec & Hc)]. destruct (layout_snoc fs f) as (a & Ha & Hlt & Ei & El).
  set (i := (Z.to_nat (place (s_name f)).1 - 1)%nat) in *. set (ino := Z.of_nat (S (length (layout fs)))) in *.
  set (e := enc_dirent (DirEnt ino (strncpy (place (s_name f)).2 DIRSIZ))) in *. rewrite El in Hf |- *. unfold a_file in Hf |- *. rewrite Ec in Hf |- *.
  cbn [default] in *. set (mode := if (place (s_name f)).1 =? 3 then 509 else 420) in *. set (A1 := <[i := a_append e a]> (layout fs)) in *.
  assert (Hino : xshort ino = ino).
  { apply xshort_small. pose proof (fd_count _ Hf) as H. unfold A1 in H. rewrite length_app, length_insert in H. unfold ino, NINODES in *. cbn [length] in H. lia. }
  assert (Hf2 : fits_disk (A1 ++ [AFile T_FILE mode []])) by (eapply fits_below, Hf; apply below_snoc, Nat.le_0_l).
  assert (Hf1 : fits_disk (layout fs ++ [AFile T_FILE mode []])).
  { eapply fits_below, Hf2. unfold A1. rewrite <- insert_app_l by done.
    eapply below_insert; [by rewrite lookup_app_l|]. rewrite a_size_append. lia. }
  assert (Hmode : short_ok mode) by (unfold mode, short_ok; destruct (_ =? _); lia).
  rewrite (add_file_eq f chunks) by done. fold mode. pose proof (place_bytes _ Hn) as Hpb. wp_step. wp_step.
  eapply wp_seq; [by apply ialloc_fits|]. intros ? s1 [-> H1]. fold ino. rewrite Hino. fold e. rewrite <- Ei. eapply wp_seq.
  { eapply (iappend_fits _ s1 i a); [exact H1|by rewrite lookup_app_l| |].
    - apply Forall_app. split; [apply le_bytes_ok|by apply strncpy_ok].
    - by rewrite insert_app_l. }
  intros [] s2 H2. rewrite insert_app_l in H2 by done. unfold ino. rewrite <- (length_insert (layout fs) i (a_append e a)).
  by apply (append_all_fits chunks A1 s2 T_FILE mode []).
Qed.

Lemma dents_length dir n fs fs' : (length (dents dir n fs) <= length (dents dir n (fs ++ fs')))%nat.
Proof.
  revert n. induction fs as [|f fs IH]; intros n; [apply Nat.le_0_l|]. cbn [dents app]. rewrite !length_app. specialize (IH (n + 1)). lia.
Qed.

Lemma layout_below fs fs' : below (layout fs) (layout (fs ++ fs')).
Proof.
  unfold layout. pose proof (dents_length 3 7 fs fs'). pose proof (dents_length 5 7 fs fs'). pose proof (dents_length 6 7 fs fs').
  cbn [app]. repeat (constructor; [unfold a_dir, a_size; cbn [af_bytes]; rewrite ?length_app; lia|]).
  rewrite fmap_app. apply below_app.
Qed.

Lemma add_files_spec fs' fs s :
  mk_ok (layout fs) s -> Forall source_ok fs' -> fits_disk (layout (fs ++ fs')) ->
  wp (add_files DIRS fs') (fun _ s' => mk_ok (layout (fs ++ fs')) s') s.
Proof.
  revert fs s. induction fs' as [|f fs' IH]; intros fs s HA Hok Hf; cbn [add_files].
  - wp_step. by rewrite app_nil_r.
  - inversion Hok; subst. rewrite cons_middle, app_assoc in Hf |- *. eapply wp_seq; [apply (add_file_spec fs f s); try done|].
    + eapply fits_below, Hf. apply layout_below.
    + intros [] s' HA'. by apply IH.
Qed.

(** ** The whole program *)

Lemma zero_disk_spec n s (Q : unit -> mk -> Prop) :
  (forall img, (forall x, img !! x = if decide (0 <= x < Z.of_nat n) then Some zero_block else mk_img s !! x) ->
     Q tt (Mk img (mk_freeinode s) (mk_freeblock s))) -> wp (zero_disk n) Q s.
Proof.
  revert Q. induction n as [|n IH]; intros Q HQ; cbn [zero_disk].
  - wp_step. replace s with (Mk (mk_img s) (mk_freeinode s) (mk_freeblock s)) by (by destruct s). apply HQ.
    intros x. by rewrite decide_False by lia.
  - wp_step. apply IH. intros img Himg. apply wp_wsect. apply HQ. intros x. destruct (decide (x = Z.of_nat n)) as [->|Hne].
    + rewrite lookup_insert_eq. by rewrite decide_True by lia.
    + rewrite lookup_insert_ne, Himg by done. by repeat case_decide; try lia.
Qed.

Lemma sb_block_ok : block_ok sb_block.
Proof.
  split; [reflexivity|]. apply Forall_splice; [|apply zero_block_ok].
  apply Forall_concat, Forall_fmap, Forall_true. intros. apply le_bytes_ok.
Qed.
Lemma sb_block_dec : dec_superblock sb_block = mk_sb.
Proof. vm_compute. reflexivity. Qed.

Lemma zero_dinode k : (k < 2)%nat -> d_type (get_dinode k zero_block) = 0.
Proof. intros Hk. destruct k as [|[|k]]; [vm_compute; reflexivity..|lia]. Qed.

(** The state when all sectors have been written. *)
Lemma start_ok img :
  (forall x, img !! x = if decide (0 <= x < FSSIZE) then Some (meta_block x) else None) -> mk_ok [] (Mk img 1 nmeta).
Proof.
  intros Himg. assert (Hz : forall x, x <> 1 -> 0 <= x < FSSIZE -> img !! x = Some zero_block).
  { intros x Hx Hr. rewrite Himg, decide_True by done. unfold meta_block. by rewrite (proj2 (Z.eqb_neq x 1)). }
  constructor; try done.
  - constructor; cbn [mk_img mk_freeblock].
    + intros x. rewrite Himg. case_decide; [split; eauto|]. split; [by intros [? ?]|done].
    + intros x d. rewrite Himg. case_decide; [|done]. intros [= <-]. unfold meta_block. destruct (x =? 1); [apply sb_block_ok|apply zero_block_ok].
    + rewrite nmeta_eq. unfold FSSIZE. lia.
    + intros x Hx. rewrite nmeta_eq in Hx. apply Hz; lia.
  - intros i j x Hi. cbn in Hi. lia.
  - intros inum Hr. cbn [length] in Hr. pose proof (iblock_range inum ltac:(lia)). unfold dino.
    rewrite (block_of_some _ _ zero_block); [apply zero_dinode, ino_slot_bound|].
    rewrite ideal_other by lia. apply Hz; unfold BM, FSSIZE in *; lia.
  - intros x Hx. cbn. rewrite Himg. by rewrite decide_True by (unfold FSSIZE; lia).
Qed.

(** The image of a disk that holds the files [A] from inode 1 on. *)
Record image (img : gmap Z (list Z)) (A : list afile) : Prop := {
  im_sectors : forall x, is_Some (img !! x) <-> 0 <= x < FSSIZE;
  im_super : dec_superblock (block_of img 1) = mk_sb;
  im_log : forall x, 2 <= x < 2 + nlog -> img !! x = Some zero_block;
  im_alloc : alloc_wf mk_sb img;
  im_used : forall b, 0 <= b < FSSIZE -> used mk_sb img b = (b <? nmeta + a_blocks A);
  im_files : forall i a, A !! i = Some a -> holds img (Z.of_nat (S i)) a;
  im_disj : forall i j x, (i < length A)%nat -> (j < length A)%nat -> i <> j ->
    owned img (dino mk_sb img (Z.of_nat (S i))) x -> ~ owned img (dino mk_sb img (Z.of_nat (S j))) x;
  im_free : forall inum, Z.of_nat (length A) < inum < NINODES -> d_type (dino mk_sb img inum) = 0 }.

Lemma image_ok A s : mk_ok A s -> image (ideal s) A.
Proof.
  intros [B1 B2 B3 B4 B5 B6 B7 B8]. constructor; try done.
  - by apply ideal_some.
  - rewrite (block_of_some _ _ sb_block); [apply sb_block_dec|]. rewrite ideal_other by done. by apply (B8 1).
  - intros x Hx. change nlog with 30 in Hx. rewrite ideal_other by (unfold BM; lia). rewrite B8 by lia. unfold meta_block.
    by rewrite (proj2 (Z.eqb_neq x 1)) by lia.
  - by apply ideal_wf.
  - intros b Hb. rewrite (ideal_used s B1) by done. by rewrite B4.
Qed.

(** C8: [mkfs] builds the image of [layout]: the super block the kernel reads, an
    empty log, a free map that marks exactly the blocks in use, and for each
    file an inode whose blocks, shared with no other file, hold its bytes. *)
Theorem mkfs_correct fs :
  Forall source_ok fs -> fits_disk (layout fs) -> wp (mkfs fs) (fun _ s => image (mk_img s) (layout fs)) mk_start.
Proof.
  intros Hok Hf. unfold mkfs. remember (Z.to_nat FSSIZE) as n eqn:En.
  wp_step. apply zero_disk_spec. intros img Himg. wp_step. apply wp_wsect. wp_step.
  eapply wp_mono; [apply makedirs_spec, start_ok|].
  - intros x. cbn. destruct (decide (x = 1)) as [->|Hx]; [by rewrite lookup_insert_eq|].
    rewrite lookup_insert_ne, Himg by done. rewrite En, Z2Nat.id by done. case_decide; [|done]. unfold meta_block. by rewrite (proj2 (Z.eqb_neq x 1)).
  - intros ? s1 [-> H1]. eapply wp_seq; [by apply (add_files_spec fs [])|]. intros [] s2 H2. cbn [app] in H2. wp_step. wp_step.
    pose proof (freeblock_range s2 (mo_base _ _ H2)). unfold balloc.
    destruct (Z.ltb_spec (mk_freeblock s2) (BSIZE * 8)) as [|Hge]; [|unfold FSSIZE, BSIZE in *; lia].
    apply wp_wsect. by apply (image_ok _ s2).
Qed.
