(* ===== verification/Umalloc.v ===== *)
(** * The heap of user programs

    [user/umalloc.c], the allocator of Kernighan and Ritchie: a circular list
    of free blocks in the order of their addresses, through headers in the
    memory of the process.  The memory is an array of bytes; [base] is the
    address of the static header, and [grant brk n] tells if the kernel lets
    [sbrk] add [n] bytes behind [brk]. *)

From S2P Require Import Prelude CString.

Record heap := Heap { h_mem : memory; h_freep : Z; h_brk : Z }.

(** [sizeof(Header)]; a header is the pointer [ptr] and the [size] in headers. *)
Definition HEADER : Z := 8.

Definition hdr_ptr (p : Z) : M heap Z := gets (fun h => load32 (h_mem h) p).
Definition hdr_size (p : Z) : M heap Z := gets (fun h => load32 (h_mem h) (p + 4)).
Definition set_ptr (p v : Z) : M heap unit :=
  modify (fun h => Heap (store32 (h_mem h) p v) (h_freep h) (h_brk h)).
Definition set_size (p v : Z) : M heap unit :=
  modify (fun h => Heap (store32 (h_mem h) (p + 4) v) (h_freep h) (h_brk h)).
Definition set_freep (p : Z) : M heap unit := modify (fun h => Heap (h_mem h) p (h_brk h)).

(** [p + n] on headers. *)
Definition hdr_add (p n : Z) : Z := u32 (p + HEADER * n).

Section umalloc.
Context (base : Z) (grant : Z -> Z -> bool).

Definition sbrk (n : Z) : M heap Z :=
  let* brk := gets h_brk in
  if grant brk n then
    do* modify (fun h => Heap (h_mem h) (h_freep h) (brk + n)) in
    ret brk
  else ret (-1).

(** The loop of [free]: the block behind which [bp] belongs. *)
Fixpoint free_walk (fuel : nat) (bp p : Z) : M heap Z :=
  let* q := hdr_ptr p in
  if (p <? bp) && (bp <? q) then ret p
  else if (q <=? p) && ((p <? bp) || (bp <? q)) then ret p
  else
    match fuel with
    | O => fault "fuel"
    | S fuel => free_walk fuel bp q
    end.

Definition free (fuel : nat) (ap : Z) : M heap unit :=
  if ap =? 0 then ret tt else
  let bp := u32 (ap - HEADER) in
  let* freep := gets h_freep in
  let* p := free_walk fuel bp freep in
  let* n := hdr_size bp in
  let* q := hdr_ptr p in
  do* (if hdr_add bp n =? q then
         let* nq := hdr_size q in
         do* set_size bp (n + nq) in
         let* q := hdr_ptr p in
         let* qq := hdr_ptr q in
         set_ptr bp qq
       else set_ptr bp q) in
  let* np := hdr_size p in
  do* (if hdr_add p np =? bp then
         let* nb := hdr_size bp in
         do* set_size p (np + nb) in
         let* q := hdr_ptr bp in
         set_ptr p q
       else set_ptr p bp) in
  set_freep p.

Definition morecore (fuel : nat) (nu : Z) : M heap Z :=
  let nu := if nu <? 4096 then 4096 else nu in
  let* p := sbrk (s32 (nu * HEADER)) in
  if p =? -1 then ret 0 else
  do* set_size p nu in
  do* free fuel (hdr_add p 1) in
  gets h_freep.

(** Take [nunits] from the block [p], whose size is [n]; [prevp] is before it. *)
Definition take_block (nunits prevp p n : Z) : M heap Z :=
  let* p :=
    if n =? nunits then
      let* q := hdr_ptr p in
      do* set_ptr prevp q in
      ret p
    else
      do* set_size p (n - nunits) in
      let* n' := hdr_size p in
      let p := hdr_add p n' in
      do* set_size p nunits in
      ret p in
  do* set_freep prevp in
  ret (hdr_add p 1).

Fixpoint malloc_loop (k fuel : nat) (nunits prevp p : Z) : M heap Z :=
  let* n := hdr_size p in
  if nunits <=? n then take_block nunits prevp p n
  else
    let* freep := gets h_freep in
    match k with
    | O => fault "fuel"
    | S k =>
        if p =? freep then
          let* p := morecore fuel nunits in
          if p =? 0 then ret 0 else
          let* q := hdr_ptr p in
          malloc_loop k fuel nunits p q
        else
          let* q := hdr_ptr p in
          malloc_loop k fuel nunits p q
    end.

Definition malloc (fuel : nat) (nbytes : Z) : M heap Z :=
  let nunits := u32 (u32 (nbytes + HEADER - 1) / HEADER + 1) in
  let* freep := gets h_freep in
  let* prevp :=
    if freep =? 0 then
      do* set_freep base in
      do* set_ptr base base in
      do* set_size base 0 in
      ret base
    else ret freep in
  let* p := hdr_ptr prevp in
  malloc_loop (2 * fuel) fuel nunits prevp p.
End umalloc.
