(* ===== verification/UmallocSpec.v ===== *)
(** * The heap keeps its blocks apart

    The free list as a list of blocks, and the theorems on [malloc] and
    [free]: blocks in use never overlap each other or free memory, their
    contents is not touched, neighbouring free blocks are joined, and no
    memory is lost. *)

From S2P Require Import Prelude CString Umalloc.

(** A block: its header and its size in headers. *)
Abbreviation blk := (Z * Z)%type.
Definition ends (b : blk) : Z := b.1 + 8 * b.2.
Definition disj (b c : blk) : Prop := ends b <= c.1 \/ ends c <= b.1.

(** The blocks [l] are linked from [p] on, to [q]. *)
Fixpoint seg (m : memory) (l : list blk) (p q : Z) : Prop :=
  match l with
  | [] => p = q
  | b :: l => p = b.1 /\ load32 m (p + 4) = b.2 /\ seg m l (load32 m p) q
  end.

(** In the order of addresses, with a gap between neighbours. *)
Fixpoint apart (l : list blk) : Prop :=
  match l with
  | [] => True
  | b :: l => Forall (fun c => ends b < c.1) l /\ apart l
  end.
Fixpoint disjs (l : list blk) : Prop :=
  match l with
  | [] => True
  | b :: l => Forall (disj b) l /\ disjs l
  end.
Definition units (l : list blk) : Z := foldr (fun b n => b.2 + n) 0 l.

Section spec.
Context (base : Z) (Hbase : 0 < base).

Abbreviation ring free := ((base, 0) :: free).

Definition inside (brk : Z) (b : blk) : Prop := 1 <= b.2 /\ base + 8 <= b.1 /\ ends b <= brk.

Record heap_ok (h : heap) (free used : list blk) : Prop := {
  ho_seg : seg (h_mem h) (ring free) base base;
  ho_apart : apart (ring free);
  ho_free : Forall (inside (h_brk h)) free;
  ho_used : Forall (inside (h_brk h)) used;
  ho_sizes : Forall (fun u => load32 (h_mem h) (u.1 + 4) = u.2) used;
  ho_disj : disjs used;
  ho_cross : Forall (fun u => Forall (disj u) free) used;
  ho_freep : h_freep h ∈ (ring free).*1;
  ho_brk : base + 8 <= h_brk h < 2 ^ 31 }.

(** ** Lists of blocks *)

Lemma seg_app m l1 l2 p q : seg m (l1 ++ l2) p q <-> exists r, seg m l1 p r /\ seg m l2 r q.
Proof.
  revert p. induction l1 as [|b l1 IH]; intros p; cbn.
  - split; [by exists p|]. by intros (r & -> & ?).
  - rewrite IH. naive_solver.
Qed.

Lemma seg_ext m m' l p q :
  (forall b x, b ∈ l -> b.1 <= x < b.1 + 8 -> m' x = m x) -> seg m l p q -> seg m' l p q.
Proof.
  revert p. induction l as [|b l IH]; intros p He; [done|]. intros (-> & Es & Hs).
  rewrite <- (load32_ext m m') in Es, Hs; [|intros x Hx; apply (He b); [left|lia]..].
  split_and!; [done|done|]. apply IH; [|done]. intros c x Hc. apply He. by right.
Qed.

Lemma apart_app l1 l2 : apart (l1 ++ l2) <-> apart l1 /\ apart l2 /\ Forall (fun b => Forall (fun c => ends b < c.1) l2) l1.
Proof.
  induction l1 as [|b l1 IH]; cbn; [by rewrite Forall_nil; naive_solver|].
  rewrite Forall_app, IH, Forall_cons. naive_solver.
Qed.
Lemma disjs_app l1 l2 : disjs (l1 ++ l2) <-> disjs l1 /\ disjs l2 /\ Forall (fun b => Forall (disj b) l2) l1.
Proof.
  induction l1 as [|b l1 IH]; cbn; [by rewrite Forall_nil; naive_solver|].
  rewrite Forall_app, IH, Forall_cons. naive_solver.
Qed.
Lemma units_app l1 l2 : units (l1 ++ l2) = units l1 + units l2.
Proof. unfold units. induction l1 as [|b l1 IH]; cbn; lia. Qed.

Lemma seg_next m l1 b c l2 p q : seg m (l1 ++ b :: c :: l2) p q -> load32 m b.1 = c.1.
Proof. rewrite seg_app. by intros (r & _ & -> & _ & E & _). Qed.
Lemma seg_last m l1 b p q : seg m (l1 ++ [b]) p q -> load32 m b.1 = q.
Proof. rewrite seg_app. by intros (r & _ & -> & _ & E). Qed.
Lemma seg_size m l b p q : seg m l p q -> b ∈ l -> load32 m (b.1 + 4) = b.2.
Proof.
  intros Hs Hb. apply list_elem_of_split in Hb as (l1 & l2 & ->). apply seg_app in Hs as (r & _ & -> & E & _). done.
Qed.

(** ** Joining a block to the list behind it *)

Definition join (b : blk) (l : list blk) : list blk :=
  match l with
  | c :: l' => if ends b =? c.1 then (b.1, b.2 + c.2) :: l' else b :: l
  | [] => [b]
  end.

Lemma join_Forall (P : Z -> Prop) b l : P b.1 -> Forall (fun c => P c.1) l -> Forall (fun c => P c.1) (join b l).
Proof.
  intros Hb Hl. destruct Hl as [|c l Hc Hl]; cbn; [by constructor|]. destruct (_ =? _); [by constructor|]. constructor; [done|by constructor].
Qed.
Lemma join_apart b l :
  apart l -> Forall (fun c => 1 <= c.2) l -> Forall (fun c => ends b <= c.1) l -> apart (join b l).
Proof.
  intros Ha Hs Hb. destruct l as [|c l]; cbn; [done|]. destruct Ha as [Hc Ha]. apply Forall_cons in Hb as [Hbc Hb], Hs as [Hs1 Hs].
  destruct (Z.eqb_spec (ends b) c.1) as [E|E].
  - split; [|done]. eapply Forall_impl; [exact Hc|]. intros x. unfold ends in *. cbn. lia.
  - cbn. split; [|done]. constructor; [lia|]. eapply Forall_impl; [exact Hc|]. intros x. unfold ends in *. cbn. lia.
Qed.
Lemma join_units b l : units (join b l) = b.2 + units l.
Proof. destruct l as [|c l]; cbn; [done|]. destruct (_ =? _); cbn; lia. Qed.
Lemma join_inside brk b l :
  inside brk b -> Forall (inside brk) l -> Forall (inside brk) (join b l).
Proof.
  intros Hb Hl. destruct Hl as [|c l Hc Hl]; cbn; [by constructor|]. destruct (Z.eqb_spec (ends b) c.1); [|constructor; [done|by constructor]].
  constructor; [|done]. unfold inside, ends in *. cbn. lia.
Qed.
Lemma join_disj u b l :
  1 <= u.2 -> 1 <= b.2 -> Forall (fun c => 1 <= c.2) l -> disj u b -> Forall (disj u) l -> Forall (disj u) (join b l).
Proof.
  intros Hu Hb Hs Hub Hl. destruct l as [|c l]; cbn; [by constructor|]. apply Forall_cons in Hl as [Hc Hl], Hs as [Hs1 Hs].
  destruct (Z.eqb_spec (ends b) c.1); [|constructor; [done|by constructor]].
  constructor; [|done]. unfold disj, ends in *. cbn. lia.
Qed.

(** ** Finding the place of a block *)

(** Where the loop of [free] stops. *)
Definition stops (m : memory) (bp p : Z) : bool :=
  let q := load32 m p in
  ((p <? bp) && (bp <? q)) || ((q <=? p) && ((p <? bp) || (bp <? q))).

Lemma free_walk_spec bp l : forall fuel p q h,
  seg (h_mem h) l p q -> Exists (fun b => stops (h_mem h) bp b.1 = true) l -> (length l <= fuel)%nat ->
  wp (free_walk fuel bp p) (fun p' h' => h' = h /\ stops (h_mem h) bp p' = true /\ p' ∈ l.*1) h.
Proof.
  induction l as [|b l IH]; intros fuel p q h Hs He Hf; [by apply Exists_nil in He|]. cbn in Hf. destruct Hs as (-> & _ & Hs).
  assert (Hcode : wp (free_walk fuel bp b.1) (fun p' h' => h' = h /\ stops (h_mem h) bp p' = true /\ p' ∈ (b :: l).*1) h
    <-> wp (if stops (h_mem h) bp b.1 then ret b.1 else
              match fuel with O => fault "fuel" | S fuel => free_walk fuel bp (load32 (h_mem h) b.1) end)
           (fun p' h' => h' = h /\ stops (h_mem h) bp p' = true /\ p' ∈ (b :: l).*1) h).
  { destruct fuel; cbn [free_walk]; unfold hdr_ptr, stops; rewrite wp_bind, wp_gets;
      by destruct (_ && _), (_ && _). }
  apply Hcode. destruct (stops (h_mem h) bp b.1) eqn:E.
  - apply wp_ret. split_and!; [done|done|]. cbn. by left.
  - apply Exists_cons in He as [?|He]; [congruence|]. destruct fuel as [|fuel]; [lia|].
    eapply wp_mono; [apply (IH fuel _ q h Hs He); lia|]. intros p' h' (-> & ? & ?). split_and!; [done|done|]. cbn. by right.
Qed.

(** The free blocks before and behind a block that is not free. *)
Lemma split_free u l :
  apart l -> 1 <= u.2 -> Forall (fun c => 0 <= c.2) l -> Forall (disj u) l -> exists l1 l2, l = l1 ++ l2 /\
    Forall (fun c => ends c <= u.1) l1 /\ Forall (fun c => ends u <= c.1) l2.
Proof.
  intros Ha Hu. induction l as [|b l IH]; intros Hs Hd; [by exists [], []|]. destruct Ha as [Hb Ha].
  apply Forall_cons in Hs as [Hs1 Hs], Hd as [Hd1 Hd]. destruct Hd1 as [Hd1|Hd1].
  - exists [], (b :: l). split_and!; [done|done|]. constructor; [done|]. eapply Forall_impl; [exact Hb|]. intros c. unfold ends in *. lia.
  - destruct (IH Ha Hs Hd) as (l1 & l2 & -> & H1 & H2). exists (b :: l1), l2. split_and!; [done|by constructor|done].
Qed.

(** The block before another one in the list, and its pointer. *)
Lemma seg_before m l1 c y d l2 p q :
  seg m (l1 ++ c :: y ++ d :: l2) p q -> apart (l1 ++ c :: y ++ d :: l2) ->
  Forall (fun c => 0 <= c.2) (l1 ++ c :: y ++ d :: l2) -> c.1 < load32 m c.1 <= d.1.
Proof.
  intros Hs Ha H0. apply apart_app in Ha as (_ & [Hc Hy] & _). apply Forall_app in H0 as [_ H0].
  apply Forall_cons in H0 as [Hc0 H0]. destruct y as [|e y]; cbn [app] in *.
  - rewrite (seg_next _ _ _ _ _ _ _ Hs). apply Forall_cons in Hc as [Hc _]. unfold ends in Hc. lia.
  - rewrite (seg_next _ _ _ _ _ _ _ Hs). apply Forall_cons in Hc as [Hc _]. destruct Hy as [He _]. apply Forall_cons in H0 as [He0 _].
    apply Forall_app in He as [_ [He _]%Forall_cons]. unfold ends in Hc, He. lia.
Qed.

(** It stops at the last block before [u], and nowhere else. *)
Lemma stops_iff m u l1 pb l2 c :
  seg m (l1 ++ pb :: l2) base base -> apart (l1 ++ pb :: l2) -> Forall (fun c => 0 <= c.2) (l1 ++ pb :: l2) ->
  Forall (fun c => base <= c.1) (l1 ++ pb :: l2) ->
  pb.1 < u -> Forall (fun c => u < c.1) l2 -> base < u -> c ∈ l1 ++ pb :: l2 ->
  stops m u c.1 = true <-> c = pb.
Proof.
  intros Hs Ha H0 Hbs Hp H2 Hb Hc. unfold stops.
  apply elem_of_app in Hc as [Hc|Hc]; [|apply elem_of_cons in Hc as [->|Hc]].
  - apply list_elem_of_split in Hc as (x & y & ->). rewrite <- !app_assoc in *. cbn [app] in *.
    pose proof (seg_before _ _ _ _ _ _ _ _ Hs Ha H0) as Hn. split; [lia|]. intros ->.
    apply apart_app in Ha as (_ & [Hc _] & _). apply Forall_app in Hc as [_ [Hc _]%Forall_cons]. apply Forall_app in H0 as [_ [H0 _]%Forall_cons].
    unfold ends in Hc. lia.
  - split; [done|]. intros _. destruct l2 as [|d l2]; [rewrite (seg_last _ _ _ _ _ Hs)|rewrite (seg_next _ _ _ _ _ _ _ Hs)].
    + apply Forall_app in Hbs as [_ [Hbs _]%Forall_cons]. lia.
    + apply Forall_cons in H2 as [H2 _]. lia.
  - pose proof (proj1 (Forall_forall _ _) H2 c Hc) as Hcu. cbn in Hcu.
    split; [|intros ->; lia]. apply list_elem_of_split in Hc as (x & y & ->). apply Forall_app in H2 as [_ [_ Hy2]%Forall_cons].
    rewrite app_comm_cons, app_assoc in *. destruct y as [|d y].
    + rewrite (seg_last _ _ _ _ _ Hs). lia.
    + rewrite (seg_next _ _ _ _ _ _ _ Hs). apply Forall_cons in Hy2 as [Hy2 _]. 
      pose proof (seg_before _ _ _ [] _ _ _ _ Hs Ha H0) as Hn. cbn in Hn. rewrite (seg_next _ _ _ _ _ _ _ Hs) in Hn. lia.
Qed.

(** ** The steps of free *)

Lemma load_store32_ne m a v x : x + 4 <= a \/ a + 4 <= x -> load32 (store32 m a v) x = load32 m x.
Proof. intros Hx. apply load32_ext. intros y Hy. apply store32_other. lia. Qed.

(** The same bytes outside a header. *)
Definition same_but (a : Z) (m m' : memory) : Prop := forall x, ~ (a <= x < a + 8) -> m' x = m x.

Lemma same_load a m m' x : same_but a m m' -> x + 4 <= a \/ a + 8 <= x -> load32 m' x = load32 m x.
Proof. intros Hs Hx. apply load32_ext. intros y Hy. apply Hs. lia. Qed.
Lemma same_store a m m' x v : same_but a m m' -> a <= x /\ x + 4 <= a + 8 -> same_but a m (store32 m' x v).
Proof. intros Hs Hx y Hy. rewrite store32_other by lia. by apply Hs. Qed.
Lemma same_refl a m : same_but a m m.
Proof. done. Qed.
Lemma same_seg a m m' l p q :
  same_but a m m' -> Forall (fun c => c.1 + 8 <= a \/ a + 8 <= c.1) l -> seg m l p q -> seg m' l p q.
Proof.
  intros Hs Hl. apply seg_ext. intros b x Hb Hx. rewrite Forall_forall in Hl. specialize (Hl b Hb). apply Hs. lia.
Qed.

Definition small (c : blk) : Prop := 0 < c.1 /\ 0 <= c.2 /\ ends c < 2 ^ 31.

Lemma hdr_add_small c : small c -> hdr_add c.1 c.2 = ends c.
Proof. intros (H1 & H2 & H3). unfold hdr_add, HEADER, ends in *. apply u32_small. lia. Qed.

Lemma seg_start m l p q : seg m l p q -> p = match l with [] => q | c :: _ => c.1 end.
Proof. destruct l as [|c l]; [done|]. by intros [-> _]. Qed.
Lemma seg_start_range m l p : seg m l p base -> Forall small l -> base < 2 ^ 31 -> 0 <= p < 2 ^ 32.
Proof.
  intros ->%seg_start Hl Hb. destruct Hl as [|c l (H1 & H2 & H3) Hl]; [lia|]. unfold ends in H3. lia.
Qed.

(** The block is joined with the next one, or points to it. *)
Lemma free_right h a n p l (Q : unit -> heap -> Prop) :
  load32 (h_mem h) (a + 4) = n -> seg (h_mem h) l (load32 (h_mem h) p) base -> small (a, n) -> Forall small l ->
  Forall (fun c => a + 8 <= c.1) l -> p + 8 <= a -> base < a ->
  (forall m', same_but a (h_mem h) m' -> seg m' (join (a, n) l) a base -> Q tt (Heap m' (h_freep h) (h_brk h))) ->
  wp (if hdr_add a n =? load32 (h_mem h) p then
         let* nq := hdr_size (load32 (h_mem h) p) in
         do* set_size a (n + nq) in
         let* q := hdr_ptr p in
         let* qq := hdr_ptr q in
         set_ptr a qq
       else set_ptr a (load32 (h_mem h) p)) Q h.
Proof.
  intros En Hs Hsm Hl Hal Hp Hb HQ. pose proof (hdr_add_small (a, n) Hsm) as Ead. cbn [fst snd] in Ead. rewrite Ead.
  unfold small, ends in Hsm. cbn in Hsm.
  destruct l as [|c l]; cbn [join].
  { cbn in Hs. rewrite Hs, (proj2 (Z.eqb_neq _ _)) by (unfold ends; cbn; lia). unfold set_ptr. wp_step.
    apply HQ; [by apply same_store; [|lia]|]. cbn [join seg fst snd].
    rewrite load_store32_ne, load_store32, u32_small by lia. done. }
  destruct Hs as (Ec & En' & Hs). apply Forall_cons in Hl as [Hc Hl], Hal as [Hac Hal]. unfold small in Hc. rewrite Ec in *.
  destruct (Z.eqb_spec (ends (a, n)) c.1) as [E|E].
  - unfold hdr_size, hdr_ptr, set_size, set_ptr. repeat wp_step. cbn [h_mem h_freep h_brk].
    rewrite (load_store32_ne _ (a + 4) _ p), Ec, (load_store32_ne _ (a + 4) _ c.1), En' by lia.
    assert (Hsame : same_but a (h_mem h) (store32 (store32 (h_mem h) (a + 4) (n + c.2)) a (load32 (h_mem h) c.1))).
    { apply same_store; [apply same_store; [apply same_refl|lia]|lia]. }
    apply HQ; [exact Hsame|]. cbn [join]. rewrite (proj2 (Z.eqb_eq _ _) E). cbn [seg fst snd].
    rewrite load_store32_ne, !load_store32 by lia.
    unfold ends in *. cbn in *. rewrite (u32_small (n + c.2)) by lia. split_and!; [done|done|].
    rewrite u32_small by (eapply seg_start_range; [done|done|lia]). eapply same_seg; [exact Hsame| |exact Hs]. eapply Forall_impl; [exact Hal|]. cbn. lia.
  - unfold set_ptr. wp_step. assert (Hsame : same_but a (h_mem h) (store32 (h_mem h) a c.1)).
    { apply same_store; [apply same_refl|lia]. }
    apply HQ; [exact Hsame|]. cbn [join]. rewrite (proj2 (Z.eqb_neq _ _) E). cbn [seg fst snd].
    rewrite load_store32_ne, load_store32, u32_small by (unfold ends in *; lia).
    split_and!; [done|done|done| |].
    + rewrite (same_load a (h_mem h)); [done|done|lia].
    + rewrite (same_load a (h_mem h)); [|done|lia]. eapply same_seg; [exact Hsame| |exact Hs].
      eapply Forall_impl; [exact Hal|]. cbn. lia.
Qed.

(** The block before is joined with the list from [a] on, or points to it. *)
Lemma free_left h pb c l (Q : unit -> heap -> Prop) :
  load32 (h_mem h) (pb.1 + 4) = pb.2 -> seg (h_mem h) (c :: l) c.1 base -> small pb -> Forall small (c :: l) ->
  Forall (fun d => pb.1 + 8 <= d.1) (c :: l) -> base < c.1 ->
  (forall m', same_but pb.1 (h_mem h) m' -> seg m' (join pb (c :: l)) pb.1 base -> Q tt (Heap m' (h_freep h) (h_brk h))) ->
  wp (if hdr_add pb.1 pb.2 =? c.1 then
         let* nb := hdr_size c.1 in
         do* set_size pb.1 (pb.2 + nb) in
         let* q := hdr_ptr c.1 in
         set_ptr pb.1 q
       else set_ptr pb.1 c.1) Q h.
Proof.
  intros Ep (_ & Ec & Hs) Hp Hl Hal Hb HQ. rewrite hdr_add_small by done. apply Forall_cons in Hl as [Hc Hl], Hal as [Hac Hal].
  unfold small in Hp, Hc. cbn [join] in HQ. destruct (Z.eqb_spec (ends pb) c.1) as [E|E].
  - unfold hdr_size, hdr_ptr, set_size, set_ptr. repeat wp_step. cbn [h_mem h_freep h_brk].
    rewrite (load_store32_ne _ (pb.1 + 4) _ c.1), Ec by lia.
    set (m' := store32 (store32 (h_mem h) (pb.1 + 4) (pb.2 + c.2)) pb.1 (load32 (h_mem h) c.1)).
    assert (Hsame : same_but pb.1 (h_mem h) m') by (apply same_store; [apply same_store; [apply same_refl|lia]|lia]).
    apply HQ; [exact Hsame|]. unfold m'. cbn [seg fst snd]. rewrite load_store32_ne, !load_store32 by lia. fold m'.
    unfold ends in *. rewrite (u32_small (pb.2 + c.2)) by lia. split_and!; [done|done|].
    rewrite u32_small by (eapply seg_start_range; [done|done|lia]). eapply same_seg; [exact Hsame| |exact Hs].
    eapply Forall_impl; [exact Hal|]. cbn. lia.
  - unfold set_ptr. wp_step. assert (Hsame : same_but pb.1 (h_mem h) (store32 (h_mem h) pb.1 c.1)).
    { apply same_store; [apply same_refl|lia]. }
    apply HQ; [exact Hsame|]. cbn [seg]. rewrite load_store32_ne, load_store32, u32_small by (unfold ends in *; lia).
    split_and!; [done|done|done| |].
    + rewrite (same_load pb.1 (h_mem h)); [done|done|lia].
    + rewrite (same_load pb.1 (h_mem h)); [|done|lia]. eapply same_seg; [exact Hsame| |exact Hs].
      eapply Forall_impl; [exact Hal|]. cbn. lia.
Qed.

Lemma join_start b l : Forall (fun c => 0 <= c.2) l -> exists k l', join b l = (b.1, k) :: l' /\ b.2 <= k.
Proof.
  intros Hl. destruct Hl as [|c l Hc Hl]; cbn; [exists b.2, []; by destruct b|]. destruct (_ =? _).
  - exists (b.2 + c.2), l. split; [done|lia].
  - exists b.2, (c :: l). by destruct b.
Qed.

Lemma join_small b l : small b -> Forall small l -> Forall small (join b l).
Proof.
  intros Hb Hl. destruct Hl as [|c l Hc Hl]; cbn; [by constructor|].
  destruct (Z.eqb_spec (ends b) c.1); [|constructor; [done|by constructor]].
  constructor; [|done]. unfold small, ends in *. cbn. lia.
Qed.

Lemma inside_small brk c : inside brk c -> brk < 2 ^ 31 -> small c.
Proof. unfold inside, small. lia. Qed.
Lemma ring_small h free used : heap_ok h free used -> Forall small (ring free).
Proof.
  intros Ho. pose proof (ho_brk _ _ _ Ho). constructor; [unfold small, ends; cbn; lia|].
  eapply Forall_impl; [exact (ho_free _ _ _ Ho)|]. intros c Hc. eapply inside_small; [done|lia].
Qed.
Lemma ring_above h free used : heap_ok h free used -> Forall (fun c => base <= c.1) (ring free).
Proof.
  intros Ho. constructor; [done|]. eapply Forall_impl; [exact (ho_free _ _ _ Ho)|]. intros c. unfold inside. lia.
Qed.

(** The place of a block in use among the free ones. *)
Lemma place h free used u :
  heap_ok h free used -> u ∈ used -> exists l1 pb l2, ring free = l1 ++ pb :: l2 /\
    Forall (fun c => ends u <= c.1) l2 /\ ends pb <= u.1 /\ pb.1 + 8 <= u.1.
Proof.
  intros Ho Hu. pose proof (proj1 (Forall_forall _ _) (ho_used _ _ _ Ho) u Hu) as (Hu1 & Hu2 & Hu3).
  pose proof (ho_free _ _ _ Ho) as Hf. destruct (split_free u free) as (l1 & l2 & -> & H1 & H2).
  - by destruct (ho_apart _ _ _ Ho).
  - done.
  - eapply Forall_impl; [exact Hf|]. intros c. unfold inside. lia.
  - exact (proj1 (Forall_forall _ _) (ho_cross _ _ _ Ho) u Hu).
  - apply Forall_app in Hf as [Hf1 _]. destruct l1 as [|b l1] using rev_ind; [|clear IHl1].
    + exists [], (base, 0), l2. split_and!; [done|done|unfold ends; cbn; lia|cbn; lia].
    + exists ((base, 0) :: l1), b, l2. apply Forall_app in H1 as [_ [H1 _]%Forall_cons], Hf1 as [_ [Hf1 _]%Forall_cons].
      split_and!; [by rewrite <- app_assoc|done|done|]. unfold inside, ends in *. lia.
Qed.

(** [free] finds that place. *)
Lemma walk_to_place h free used u fuel l1 pb l2 :
  heap_ok h free used -> u ∈ used -> ring free = l1 ++ pb :: l2 ->
  Forall (fun c => ends u <= c.1) l2 -> pb.1 + 8 <= u.1 -> (length free < fuel)%nat ->
  wp (free_walk fuel u.1 (h_freep h)) (fun p h' => h' = h /\ p = pb.1) h.
Proof.
  intros Ho Hu El H2 Hp Hf. pose proof (proj1 (Forall_forall _ _) (ho_used _ _ _ Ho) u Hu) as (Hu1 & Hu2 & Hu3).
  assert (Hiff : forall c, c ∈ ring free -> stops (h_mem h) u.1 c.1 = true <-> c = pb).
  { intros c Hc. rewrite El in Hc. apply (stops_iff _ _ l1 pb l2); rewrite <- ?El; try lia.
    - exact (ho_seg _ _ _ Ho).
    - exact (ho_apart _ _ _ Ho).
    - eapply Forall_impl; [exact (ring_small _ _ _ Ho)|]. by intros ? (? & ? & ?).
    - exact (ring_above _ _ _ Ho).
    - eapply Forall_impl; [exact H2|]. cbn. unfold ends. lia.
    - by rewrite El. }
  pose proof (ho_freep _ _ _ Ho) as Hfp. apply list_elem_of_fmap in Hfp as (fb & Efp & Hfp).
  apply list_elem_of_split in Hfp as (x & y & Exy). pose proof (ho_seg _ _ _ Ho) as Hs. rewrite Exy, seg_app in Hs.
  destruct Hs as (r & Hx & Hy). pose proof Hy as [-> _].
  eapply wp_mono; [apply (free_walk_spec u.1 ((fb :: y) ++ x) fuel (h_freep h) fb.1 h)|].
  - rewrite Efp. apply seg_app. by exists base.
  - apply Exists_exists. exists pb. split; [|by apply Hiff; [rewrite El; set_solver|]].
    assert (pb ∈ ring free) as Hpb by (rewrite El; set_solver). rewrite Exy in Hpb. set_solver.
  - apply (f_equal length) in Exy. rewrite length_app in *. cbn in *. lia.
  - intros p h' (-> & Hst & Hin). split; [done|]. apply list_elem_of_fmap in Hin as (c & -> & Hc).
    apply Hiff in Hst; [by subst|]. rewrite Exy. set_solver.
Qed.

(** The same bytes outside two headers. *)
Definition same_but2 (a b : Z) (m m' : memory) : Prop :=
  forall x, ~ (a <= x < a + 8) -> ~ (b <= x < b + 8) -> m' x = m x.

Lemma free_exec h free used a n fuel l1 pb l2 :
  heap_ok h free used -> (a, n) ∈ used -> ring free = l1 ++ pb :: l2 ->
  Forall (fun c => a + 8 * n <= c.1) l2 -> pb.1 + 8 <= a -> (length free < fuel)%nat ->
  wp (Umalloc.free fuel (a + 8)) (fun _ h' => h_freep h' = pb.1 /\ h_brk h' = h_brk h /\
    same_but2 a pb.1 (h_mem h) (h_mem h') /\ seg (h_mem h') (join pb (join (a, n) l2)) pb.1 base) h.
Proof.
  intros Ho Hu El H2 Hp Hf. pose proof (proj1 (Forall_forall _ _) (ho_used _ _ _ Ho) _ Hu) as Hin.
  pose proof (proj1 (Forall_forall _ _) (ho_sizes _ _ _ Ho) _ Hu) as Esz. cbn in Esz. pose proof (ho_brk _ _ _ Ho) as Hbrk.
  pose proof (inside_small _ _ Hin ltac:(lia)) as Hsm. pose proof Hin as (Hn1 & Ha1 & Ha2). cbn in Hn1, Ha1.
  pose proof (ring_small _ _ _ Ho) as Hrs. rewrite El in Hrs. apply Forall_app in Hrs as [_ [Hpb Hl2]%Forall_cons].
  pose proof (ho_seg _ _ _ Ho) as Hs. rewrite El in Hs. apply seg_app in Hs as (r & _ & -> & Epb & Hs2).
  unfold Umalloc.free, HEADER. rewrite (proj2 (Z.eqb_neq _ 0)) by lia. rewrite Z.add_simpl_r, u32_small by (unfold ends in Ha2; cbn in Ha2; lia).
  wp_step. wp_step. wp_step. eapply wp_mono; [by apply (walk_to_place h free used (a, n) fuel l1 pb l2)|].
  intros ? ? [-> ->]. unfold hdr_size at 1, hdr_ptr at 1. do 5 wp_step. rewrite Esz.
  apply (free_right h a n pb.1 l2); try done; [eapply Forall_impl; [exact H2|]; cbn; lia|lia|].
  intros m1 Hsame1 Hseg1. unfold hdr_size at 1. wp_step. wp_step. cbn [h_mem].
  rewrite (same_load a (h_mem h)), Epb by (done || lia).
  destruct (join_start (a, n) l2) as (k & T & EJ & _).
  { eapply Forall_impl; [exact Hl2|]. by intros ? (? & ? & ?). }
  assert (HJ : Forall small (join (a, n) l2)) by (by apply join_small).
  assert (HJ8 : Forall (fun d => pb.1 + 8 <= d.1) (join (a, n) l2)).
  { apply (join_Forall (fun x => pb.1 + 8 <= x)); [done|]. eapply Forall_impl; [exact H2|]. cbn. lia. }
  rewrite EJ in *. wp_step. apply (free_left (Heap m1 (h_freep h) (h_brk h)) pb (a, k) T); try done.
  - cbn [h_mem]. by rewrite (same_load a (h_mem h)), Epb by (done || lia).
  - cbn. lia.
  - intros m2 Hsame2 Hseg2. unfold set_freep. wp_step. cbn. split_and!; [done|done| |done].
    intros x Hx1 Hx2. rewrite Hsame2 by done. by apply Hsame1.
Qed.

(** A header of another block in use is not touched. *)
Lemma used_header h free used u v pb l1 l2 :
  heap_ok h free used -> u ∈ used -> ring free = l1 ++ pb :: l2 -> disj u v -> 1 <= v.2 ->
  forall x, u.1 <= x < ends u -> ~ (v.1 <= x < v.1 + 8) /\ ~ (pb.1 <= x < pb.1 + 8).
Proof.
  intros Ho Hu El Hd Hv x Hx. pose proof (proj1 (Forall_forall _ _) (ho_used _ _ _ Ho) u Hu) as (Hu1 & Hu2 & _).
  pose proof (proj1 (Forall_forall _ _) (ho_cross _ _ _ Ho) u Hu) as Hc.
  assert (Hpb : pb ∈ ring free) by (rewrite El; set_solver). apply elem_of_cons in Hpb as [->|Hpb].
  - unfold disj, ends in *. cbn. lia.
  - rewrite Forall_forall in Hc. specialize (Hc pb Hpb).
    pose proof (proj1 (Forall_forall _ _) (ho_free _ _ _ Ho) pb Hpb) as (Hb1 & _). unfold disj, ends in *. lia.
Qed.

Lemma join_length b l : (length (join b l) <= S (length l))%nat.
Proof. destruct l as [|c l]; cbn; [lia|]. destruct (_ =? _); cbn; lia. Qed.

(** What a list of free blocks has to satisfy besides the order. *)
Definition fits_in (brk : Z) (used free : list blk) : Prop :=
  Forall (inside brk) free /\ Forall (fun u => Forall (disj u) free) used.

Lemma fits_cons brk used b l :
  fits_in brk used (b :: l) <-> (inside brk b /\ Forall (fun u => disj u b) used) /\ fits_in brk used l.
Proof.
  unfold fits_in. rewrite Forall_cons. setoid_rewrite Forall_cons. rewrite Forall_and. naive_solver.
Qed.
Lemma fits_join brk used b l :
  Forall (fun u => 1 <= u.2) used -> inside brk b -> Forall (fun u => disj u b) used -> fits_in brk used l ->
  fits_in brk used (join b l).
Proof.
  intros Hu Hb Hd [H1 H2]. split; [by apply join_inside|]. rewrite Forall_forall in *. intros u Hin. unfold inside in *.
  apply join_disj; [by apply Hu|lia| |by apply Hd|by apply H2]. apply Forall_forall. intros c Hc. by apply H1.
Qed.
Lemma fits_in_app brk used l1 l2 : fits_in brk used (l1 ++ l2) <-> fits_in brk used l1 /\ fits_in brk used l2.
Proof. unfold fits_in. rewrite Forall_app. setoid_rewrite Forall_app. rewrite Forall_and. naive_solver. Qed.

(** The list with the block joined in, starting at [base]. *)
Lemma new_ring brk used free a n l1 pb l2 :
  ring free = l1 ++ pb :: l2 -> inside brk (a, n) -> Forall (fun u => disj u (a, n)) used ->
  Forall (fun u => 1 <= u.2) used -> fits_in brk used free -> exists free',
    l1 ++ join pb (join (a, n) l2) = ring free' /\ units free' = units free + n /\ fits_in brk used free' /\
    Exists (fun c => n <= c.2) free' /\ (length free' <= S (length free))%nat.
Proof.
  intros El Ha Hd Hu Hfit. assert (Hl2 : fits_in brk used l2).
  { destruct l1 as [|b l1]; injection El as _ ->; [done|]. by apply fits_in_app in Hfit as [_ [_ ?]%fits_cons]. }
  assert (H0 : Forall (fun c => 0 <= c.2) l2) by (eapply Forall_impl; [apply Hl2|]; unfold inside; intros; lia).
  pose proof (fits_join brk used (a, n) l2 Hu Ha Hd Hl2) as HJ. pose proof (join_units (a, n) l2) as HU. pose proof (join_length (a, n) l2) as HL.
  destruct (join_start (a, n) l2 H0) as (k & T & EJ & Hk). cbn in Hk. unfold inside in Ha. cbn in Ha. destruct l1 as [|b l1].
  - cbn in El. injection El as <- ->. exists (join (a, n) l2). split_and!; [|rewrite HU; cbn; lia|done|rewrite EJ; by left|done].
    rewrite EJ. cbn [join app fst]. by rewrite (proj2 (Z.eqb_neq _ _)) by (unfold ends; cbn; lia).
  - cbn in El. injection El as <- ->. exists (l1 ++ join pb (join (a, n) l2)).
    apply fits_in_app in Hfit as [Hl1 [[Hpb Hdp] _]%fits_cons]. split_and!; [done| | | |].
    + rewrite !units_app, join_units, HU. unfold units. cbn. lia.
    + apply fits_in_app. split; [done|]. by apply fits_join.
    + apply Exists_app. right. rewrite EJ. cbn [join fst]. unfold inside in Hpb.
      destruct (_ =? _); [left; cbn; lia|right; by left].
    + pose proof (join_length pb (join (a, n) l2)). rewrite !length_app. cbn. lia.
Qed.

(** The new list is in order. *)
Lemma joined_apart free a n l1 pb l2 :
  apart (ring free) -> ring free = l1 ++ pb :: l2 -> Forall small (ring free) -> 1 <= n ->
  Forall (fun c => 1 <= c.2) l2 -> Forall (fun c => a + 8 * n <= c.1) l2 -> ends pb <= a ->
  apart (l1 ++ join pb (join (a, n) l2)).
Proof.
  intros Ha El Hs Hn Hl2 H2 Hp. rewrite El in Ha, Hs. apply apart_app in Ha as (H1 & [Hpb Ha2] & Hx).
  apply Forall_app in Hs as [_ [Hspb Hsl2]%Forall_cons].
  assert (HJ : apart (join (a, n) l2)) by (by apply join_apart). apply apart_app. split_and!; [done| |].
  - apply join_apart; [done| |].
    + destruct l2 as [|c l2]; cbn; [by constructor|]. apply Forall_cons in Hl2 as [Hc Hl2].
      destruct (_ =? _); constructor; cbn; try lia; try done. by constructor.
    + apply (join_Forall (fun x => ends pb <= x)); [done|]. eapply Forall_impl; [exact H2|]. cbn. lia.
  - eapply Forall_impl; [exact Hx|]. intros b [Hb1 Hb2]%Forall_cons. unfold small, ends in *.
    apply (join_Forall (fun x => b.1 + 8 * b.2 < x)); [done|]. apply (join_Forall (fun x => b.1 + 8 * b.2 < x)); [cbn; lia|done].
Qed.

Lemma before_header h free used l1 pb l2 :
  heap_ok h free used -> ring free = l1 ++ pb :: l2 -> Forall (fun c => c.1 + 8 <= pb.1) l1.
Proof.
  intros Ho El. destruct l1 as [|b l1]; [done|]. injection El as <- ->.
  pose proof (ho_free _ _ _ Ho) as Hf. pose proof (ho_apart _ _ _ Ho) as [_ Ha].
  apply Forall_app in Hf as [Hf1 [(_ & Hpb & _) _]%Forall_cons]. constructor; [done|].
  apply apart_app in Ha as (_ & _ & Hx). apply Forall_forall. intros c Hc. rewrite Forall_forall in Hx, Hf1.
  specialize (Hx c Hc). apply Forall_cons in Hx as [Hx _]. destruct (Hf1 c Hc) as (? & _). unfold ends in Hx. lia.
Qed.

(** The other blocks in use. *)
Lemma others h free u1 a n u2 :
  heap_ok h free (u1 ++ (a, n) :: u2) ->
  Forall (fun u => disj u (a, n)) (u1 ++ u2) /\ Forall (inside (h_brk h)) (u1 ++ u2) /\ disjs (u1 ++ u2) /\
  Forall (fun u => load32 (h_mem h) (u.1 + 4) = u.2) (u1 ++ u2) /\ Forall (fun u => Forall (disj u) free) (u1 ++ u2).
Proof.
  intros Ho. pose proof (ho_disj _ _ _ Ho) as Hd. apply disjs_app in Hd as (Hd1 & [Hd2 Hd2'] & Hd12).
  pose proof (ho_used _ _ _ Ho) as Hus. pose proof (ho_cross _ _ _ Ho) as Hcr. pose proof (ho_sizes _ _ _ Ho) as Hsz.
  rewrite Forall_app, Forall_cons in Hus, Hcr, Hsz. rewrite disjs_app, !Forall_app. split_and!; try naive_solver.
  - eapply Forall_impl; [exact Hd12|]. by intros u [? _]%Forall_cons.
  - eapply Forall_impl; [exact Hd2|]. intros u. unfold disj. lia.
  - eapply Forall_impl; [exact Hd12|]. by intros u [_ ?]%Forall_cons.
Qed.

(** The list before the place is not touched. *)
Lemma before_kept h free used l1 pb l2 a m' :
  heap_ok h free used -> ring free = l1 ++ pb :: l2 -> pb.1 + 8 <= a -> same_but2 a pb.1 (h_mem h) m' -> seg m' l1 base pb.1.
Proof.
  intros Ho El Hp Hsame. pose proof (ho_seg _ _ _ Ho) as Hs. rewrite El in Hs. apply seg_app in Hs as (r & Hs & -> & _). revert Hs.
  apply seg_ext. intros b x Hb Hx. pose proof (proj1 (Forall_forall _ _) (before_header _ _ _ _ _ _ Ho El) b Hb) as Hbh.
  cbn in Hbh. apply Hsame; lia.
Qed.

Lemma behind_sizes h free used l1 pb l2 : heap_ok h free used -> ring free = l1 ++ pb :: l2 -> Forall (fun c => 1 <= c.2) l2.
Proof.
  intros Ho El. pose proof (ho_free _ _ _ Ho) as Hf.
  destruct l1; injection El as _ ->; [|apply Forall_app in Hf as [_ [_ Hf]%Forall_cons]];
    (eapply Forall_impl; [exact Hf|]); unfold inside; intros; lia.
Qed.

Lemma free_spec h free u1 a n u2 fuel :
  heap_ok h free (u1 ++ (a, n) :: u2) -> (length free < fuel)%nat ->
  wp (Umalloc.free fuel (a + 8)) (fun _ h' => exists free', heap_ok h' free' (u1 ++ u2) /\ h_brk h' = h_brk h /\
    units free' = units free + n /\ Exists (fun c => n <= c.2) free' /\ (length free' <= S (length free))%nat /\
    (forall u x, u ∈ u1 ++ u2 -> u.1 <= x < ends u -> h_mem h' x = h_mem h x)) h.
Proof.
  intros Ho Hf. assert (Hu : (a, n) ∈ u1 ++ (a, n) :: u2) by set_solver.
  destruct (place _ _ _ _ Ho Hu) as (l1 & pb & l2 & El & H2 & Hpe & Hp8). cbn in Hpe, Hp8.
  pose proof (proj1 (Forall_forall _ _) (ho_used _ _ _ Ho) _ Hu) as Hin. pose proof Hin as (Hn & Ha & Hb). cbn in Hn, Ha.
  eapply wp_mono; [by apply (free_exec h free (u1 ++ (a, n) :: u2) a n fuel l1 pb l2)|].
  intros ? h' (Hfp & Hbrk & Hsame & Hseg). destruct (others _ _ _ _ _ _ Ho) as (Hdu & Hus & Hd & Hsz & Hcr).
  destruct (new_ring (h_brk h) (u1 ++ u2) free a n l1 pb l2 El Hin Hdu) as (free' & El' & Hun & [Hf1 Hf2] & Hex & Hlen).
  { eapply Forall_impl; [exact Hus|]. unfold inside. intros; lia. }
  { split; [exact (ho_free _ _ _ Ho)|done]. }
  assert (Hmem : forall u x, u ∈ u1 ++ u2 -> u.1 <= x < ends u -> h_mem h' x = h_mem h x).
  { intros u x Hux Hx. rewrite Forall_forall in Hdu.
    destruct (used_header _ _ _ u (a, n) pb l1 l2 Ho ltac:(set_solver) El (Hdu u Hux) Hn x Hx). by apply Hsame. }
  pose proof (behind_sizes _ _ _ _ _ _ Ho El) as Hl21. pose proof (ho_brk _ _ _ Ho) as Hlim.
  exists free'. split_and!; try done. constructor; rewrite ?Hbrk; try done.
  - rewrite <- El'. apply seg_app. exists pb.1. split; [by eapply before_kept|done].
  - rewrite <- El'. apply (joined_apart free); try done; [exact (ho_apart _ _ _ Ho)|by eapply ring_small].
  - rewrite Forall_forall in Hsz, Hus |- *. intros u Hux. rewrite (load32_ext (h_mem h)); [by apply Hsz|].
    intros x Hx. apply (Hmem u); [done|]. destruct (Hus u Hux) as (? & _). unfold ends. lia.
  - rewrite <- El', fmap_app, Hfp. apply elem_of_app. right.
    destruct (join_start pb (join (a, n) l2)) as (k & T & -> & _); [|cbn; by left].
    pose proof (ring_small _ _ _ Ho) as Hrs. rewrite El in Hrs. apply Forall_app in Hrs as [_ [_ Hl2]%Forall_cons].
    eapply Forall_impl; [apply join_small; [|exact Hl2]|by intros ? (? & ? & ?)]. by eapply inside_small; [|apply Hlim].
Qed.

(** ** Taking a block *)

Lemma ring_split free l1 prev b l2 :
  ring free = l1 ++ prev :: b :: l2 -> exists f1, free = f1 ++ b :: l2 /\ l1 ++ [prev] = (base, 0) :: f1.
Proof.
  intros El. destruct l1 as [|c l1]; injection El as <- ->; [by exists []|]. exists (l1 ++ [prev]). by rewrite <- app_assoc.
Qed.

(** Writes inside free blocks do not touch blocks in use. *)
Lemma used_kept h free used b m' :
  heap_ok h free used -> b ∈ ring free ->
  (forall x, ~ (b.1 <= x < b.1 + 8 \/ b.1 <= x < ends b) -> m' x = h_mem h x) ->
  forall u x, u ∈ used -> u.1 <= x < ends u -> m' x = h_mem h x.
Proof.
  intros Ho Hb Hm u x Hu Hx. apply Hm. pose proof (proj1 (Forall_forall _ _) (ho_used _ _ _ Ho) u Hu) as (Hu1 & Hu2 & _).
  pose proof (proj1 (Forall_forall _ _) (ho_cross _ _ _ Ho) u Hu) as Hc. apply elem_of_cons in Hb as [->|Hb].
  - unfold ends in *. cbn. lia.
  - rewrite Forall_forall in Hc. specialize (Hc b Hb).
    pose proof (proj1 (Forall_forall _ _) (ho_free _ _ _ Ho) b Hb) as (Hb1 & _). unfold disj, ends in *. lia.
Qed.

(** The header of a block in the list is apart from those of the others. *)
Lemma other_headers h free used l1 b l2 :
  heap_ok h free used -> ring free = l1 ++ b :: l2 ->
  Forall (fun c => c.1 + 8 <= b.1) l1 /\ Forall (fun c => b.1 + 8 <= c.1 /\ ends b <= c.1) l2.
Proof.
  intros Ho El. split; [by eapply before_header|]. pose proof (ho_apart _ _ _ Ho) as Ha. rewrite El in Ha.
  apply apart_app in Ha as (_ & [Hb _] & _). pose proof (ho_free _ _ _ Ho) as Hf. destruct l1 as [|c l1]; injection El as ? ->.
  - subst b. apply Forall_forall. intros c Hc. rewrite Forall_forall in Hf. destruct (Hf c Hc) as (? & ? & ?). unfold ends. cbn. lia.
  - apply Forall_app in Hf as [_ [(Hb1 & _) _]%Forall_cons]. eapply Forall_impl; [exact Hb|]. intros d. unfold ends. cbn. lia.
Qed.

(** What [malloc] promises when it takes [n] units from [h]. *)
Definition taken (h : heap) (units0 : Z) (used : list blk) (n r : Z) (h' : heap) : Prop :=
  exists free' a, r = a + 8 /\ heap_ok h' free' ((a, n) :: used) /\
    units free' + n = units0 + (h_brk h' - h_brk h) / 8 /\
    (forall u x, u ∈ used -> u.1 <= x < ends u -> h_mem h' x = h_mem h x).

(** [(a, n)] is the end of the free block [b], and [Y] what is left of it. *)
Lemma take_ok h free used f1 b l2 Y a n m' prevp :
  heap_ok h free used -> free = f1 ++ b :: l2 -> Forall (fun c => c.1 = b.1 /\ 1 <= c.2 /\ ends c = a) Y -> (length Y <= 1)%nat ->
  b.1 <= a -> a + 8 * n = ends b -> 1 <= n -> seg m' (ring (f1 ++ Y ++ l2)) base base -> load32 m' (a + 4) = n ->
  (forall u x, u ∈ used -> u.1 <= x < ends u -> m' x = h_mem h x) -> prevp ∈ (ring (f1 ++ Y ++ l2)).*1 ->
  heap_ok (Heap m' prevp (h_brk h)) (f1 ++ Y ++ l2) ((a, n) :: used).
Proof.
  intros Ho -> HY HY1 Hba Ean Hn Hseg Hsz Hmem Hpr. destruct Ho as [Hs Ha Hf Hu Hus Hd Hcr Hfp Hbrk].
  destruct Ha as [Hb0 Ha]. apply apart_app in Ha as (Ha1 & [Hab Ha2] & Hax). apply Forall_app in Hf as [Hf1 [Hfb Hf2]%Forall_cons].
  assert (HYin : Forall (inside (h_brk h)) Y) by (eapply Forall_impl; [exact HY|]; unfold inside, ends in *; cbn; intros; lia).
  assert (HYa : apart Y) by (destruct Y as [|y [|]]; cbn in *; [done|done|lia]).
  assert (Hdisj : forall u, u ∈ used -> disj u b) by (intros u Hin; rewrite Forall_forall in Hcr; specialize (Hcr u Hin);
    by apply Forall_app in Hcr as [_ [? _]%Forall_cons]).
  constructor; cbn [h_mem h_brk h_freep]; try done.
  - split.
    + apply Forall_app. apply Forall_app in Hb0 as [Hb1 [Hb2 Hb3]%Forall_cons]. split; [done|]. apply Forall_app. split; [|done].
      eapply Forall_impl; [exact HY|]. unfold ends in *. cbn in *. lia.
    + apply apart_app. split_and!; [done| |].
      * apply apart_app. split_and!; [done|done|]. eapply Forall_impl; [exact HY|]. intros c (? & ? & ?).
        eapply Forall_impl; [exact Hab|]. unfold ends in *. cbn. lia.
      * eapply Forall_impl; [exact Hax|]. intros c [H1 H2]%Forall_cons. apply Forall_app. split; [|done].
        eapply Forall_impl; [exact HY|]. cbn. lia.
  - apply Forall_app. split; [done|]. by apply Forall_app.
  - constructor; [|done]. unfold inside, ends in *. cbn. lia.
  - constructor; [done|]. rewrite Forall_forall in Hus, Hu |- *. intros u Hin. rewrite (load32_ext (h_mem h)); [by apply Hus|].
    intros x Hx. apply (Hmem u); [done|]. destruct (Hu u Hin) as (? & _). unfold ends. lia.
  - split; [|done]. apply Forall_forall. intros u Hin. specialize (Hdisj u Hin). unfold disj, ends in *. cbn. lia.
  - constructor.
    + rewrite !Forall_app. split_and!.
      * eapply Forall_impl; [exact Hax|]. intros c [Hc _]%Forall_cons. right. cbn. unfold ends in *. lia.
      * eapply Forall_impl; [exact HY|]. intros c (? & ? & ?). right. cbn. lia.
      * eapply Forall_impl; [exact Hab|]. intros c Hc. left. unfold ends in *. cbn in *. lia.
    + apply Forall_forall. intros u Hin. pose proof (proj1 (Forall_forall _ _) Hcr u Hin) as Hc.
      rewrite Forall_app, Forall_cons in Hc. destruct Hc as (Hc1 & Hcb & Hc2). rewrite !Forall_app. split_and!; [done| |done].
      eapply Forall_impl; [exact HY|]. intros c (? & ? & ?). unfold disj, ends in *. cbn. lia.
Qed.

(** The whole block. *)
Lemma take_exact h free used l1 prev b l2 :
  heap_ok h free used -> ring free = l1 ++ prev :: b :: l2 ->
  wp (take_block b.2 prev.1 b.1 b.2) (taken h (units free) used b.2) h.
Proof.
  intros Ho El. destruct (ring_split _ _ _ _ _ El) as (f1 & Ef & E1). unfold take_block. rewrite Z.eqb_refl.
  unfold hdr_ptr, set_ptr, set_freep. repeat wp_step. cbn [h_mem h_freep h_brk].
  pose proof (ho_seg _ _ _ Ho) as Hs. rewrite El in Hs. apply seg_app in Hs as (r & Hs1 & -> & Ep & Epb & Eb & Hs2).
  pose proof (ring_small _ _ _ Ho) as Hsm. rewrite El in Hsm. apply Forall_app in Hsm as [_ Hsm].
  apply Forall_cons in Hsm as [Hsp Hsm]. apply Forall_cons in Hsm as [Hsb Hs2'].
  destruct (other_headers _ _ _ _ _ _ Ho El) as [Hh1 Hh2]. apply Forall_cons in Hh2 as [[Hpb _] Hh2].
  pose proof (ho_free _ _ _ Ho) as Hf. rewrite Ef in Hf. apply Forall_app in Hf as [_ [(Hb1 & Hb2 & Hb3) _]%Forall_cons].
  rewrite Epb in *. set (q := load32 (h_mem h) b.1) in *. set (m' := store32 (h_mem h) prev.1 q).
  assert (Hsame : same_but prev.1 (h_mem h) m') by (apply same_store; [apply same_refl|lia]).
  pose proof (ho_brk _ _ _ Ho) as Hbrk.
  assert (Hq : u32 q = q) by (apply u32_small; eapply seg_start_range; [done|done|lia]).
  exists (f1 ++ [] ++ l2), b.1. split_and!.
  - unfold hdr_add, HEADER. rewrite u32_small; [lia|]. unfold ends in Hb3. lia.
  - apply (take_ok h free used f1 b l2 [] b.1 b.2 m' prev.1); try done; [cbn; lia| | | |].
    + rewrite app_comm_cons, <- E1, <- app_assoc. apply seg_app. exists prev.1. split.
      * eapply same_seg; [exact Hsame| |exact Hs1]. eapply Forall_impl; [exact Hh1|]. cbn. lia.
      * cbn [seg app]. unfold m'. rewrite load_store32_ne, load_store32, Hq by lia. fold m'. split_and!; [done|done|].
        eapply same_seg; [exact Hsame| |exact Hs2]. eapply Forall_impl; [exact Hh2|]. cbn. lia.
    + by rewrite (same_load prev.1 (h_mem h)) by (done || lia).
    + apply (used_kept h free used prev); [done|rewrite El; set_solver|]. intros x Hx. apply Hsame. lia.
    + rewrite app_comm_cons, <- E1. rewrite !fmap_app. set_solver.
  - cbn [h_brk]. rewrite Z.sub_diag, Ef, !units_app. change (units (b :: l2)) with (b.2 + units l2). change (units []) with 0. change (0 / 8) with 0. lia.
  - apply (used_kept h free used prev); [done|rewrite El; set_solver|]. intros x Hx. apply Hsame. lia.
Qed.

(** The end of a larger block. *)
Lemma take_tail h free used l1 prev b l2 n :
  heap_ok h free used -> ring free = l1 ++ prev :: b :: l2 -> 1 <= n < b.2 ->
  wp (take_block n prev.1 b.1 b.2) (taken h (units free) used n) h.
Proof.
  intros Ho El Hn. destruct (ring_split _ _ _ _ _ El) as (f1 & Ef & E1). unfold take_block.
  rewrite (proj2 (Z.eqb_neq _ _)) by lia. unfold hdr_size, set_size, set_freep. repeat wp_step. cbn [h_mem h_freep h_brk].
  pose proof (ho_brk _ _ _ Ho) as Hbrk. assert (El' : ring free = (l1 ++ [prev]) ++ b :: l2) by (by rewrite <- app_assoc).
  pose proof (ho_seg _ _ _ Ho) as Hs. rewrite El' in Hs. apply seg_app in Hs as (r & Hs1 & -> & Eb & Hs2).
  destruct (other_headers _ _ _ _ _ _ Ho El') as [Hh1 Hh2].
  pose proof (ho_free _ _ _ Ho) as Hf. rewrite Ef in Hf. apply Forall_app in Hf as [_ [(Hb1 & Hb2 & Hb3) _]%Forall_cons].
  unfold ends in Hb3, Hh2. rewrite load_store32, (u32_small (b.2 - n)) by lia.
  assert (Ea : hdr_add b.1 (b.2 - n) = b.1 + 8 * (b.2 - n)) by (unfold hdr_add, HEADER; apply u32_small; lia). rewrite Ea.
  set (a := b.1 + 8 * (b.2 - n)) in *. set (m' := store32 (store32 (h_mem h) (b.1 + 4) (b.2 - n)) (a + 4) n).
  assert (Hout : forall x, ~ (b.1 <= x < b.1 + 8 * b.2) -> m' x = h_mem h x).
  { intros x Hx. unfold m'. rewrite !store32_other by lia. done. }
  assert (Hkeep : forall u x, u ∈ used -> u.1 <= x < ends u -> m' x = h_mem h x).
  { apply (used_kept h free used b); [done|rewrite El; set_solver|]. intros x Hx. apply Hout. unfold ends in Hx. lia. }
  exists (f1 ++ [(b.1, b.2 - n)] ++ l2), a. split_and!.
  - unfold hdr_add, HEADER. rewrite u32_small; lia.
  - apply (take_ok h free used f1 b l2 [(b.1, b.2 - n)] a n m' prev.1); try done; try (unfold ends; lia).
    + repeat constructor. cbn. lia.
    + rewrite app_comm_cons, <- E1. apply seg_app. exists b.1. split.
      * revert Hs1. apply seg_ext. intros c x Hc Hx. rewrite Forall_forall in Hh1. specialize (Hh1 c Hc). cbn in Hh1. apply Hout. lia.
      * cbn [seg app fst snd]. assert (E3 : load32 m' b.1 = load32 (h_mem h) b.1) by (unfold m'; by rewrite !load_store32_ne by lia).
        unfold m' at 1. rewrite load_store32_ne, load_store32, u32_small, E3 by lia. split_and!; [done|done|]. revert Hs2.
        apply seg_ext. intros c x Hc Hx. rewrite Forall_forall in Hh2. specialize (Hh2 c Hc). cbn in Hh2. apply Hout. lia.
    + unfold m'. rewrite load_store32, u32_small; lia.
    + rewrite app_comm_cons, <- E1. rewrite !fmap_app. set_solver.
  - cbn [h_brk]. rewrite Z.sub_diag, Ef, !units_app. change (units (b :: l2)) with (b.2 + units l2).
    change (units [(b.1, b.2 - n)]) with (b.2 - n + 0). change (0 / 8) with 0. lia.
  - done.
Qed.

Lemma take_spec h free used l1 prev b l2 n :
  heap_ok h free used -> ring free = l1 ++ prev :: b :: l2 -> 1 <= n <= b.2 ->
  wp (take_block n prev.1 b.1 b.2) (taken h (units free) used n) h.
Proof.
  intros Ho El Hn. destruct (decide (n = b.2)) as [->|]; [by eapply take_exact|]. eapply take_tail; [done|done|lia].
Qed.

(** ** The search *)

Lemma ring_nodup l : apart l -> Forall (fun c => 0 <= c.2) l -> NoDup l.*1.
Proof.
  induction l as [|b l IH]; intros Ha H0; cbn; [constructor|]. destruct Ha as [Hb Ha]. apply Forall_cons in H0 as [H1 H0].
  constructor; [|by apply IH]. intros (c & Ec & Hc)%list_elem_of_fmap. rewrite Forall_forall in Hb. specialize (Hb c Hc).
  unfold ends in Hb. cbn in Hb. lia.
Qed.
Lemma heap_nodup h free used : heap_ok h free used -> NoDup (ring free).*1.
Proof.
  intros Ho. apply ring_nodup; [exact (ho_apart _ _ _ Ho)|]. eapply Forall_impl; [by eapply ring_small|]. by intros ? (? & ? & ?).
Qed.

(** A block that [prev] points to and that is not [base] is behind [prev]. *)
Lemma next_block h free used prev b :
  heap_ok h free used -> prev ∈ ring free -> b ∈ ring free -> load32 (h_mem h) prev.1 = b.1 -> 1 <= b.2 ->
  exists l1 l2, ring free = l1 ++ prev :: b :: l2.
Proof.
  intros Ho Hp Hb E Hn. apply elem_of_cons in Hb as [->|Hb]; [cbn in Hn; lia|].
  pose proof (proj1 (Forall_forall _ _) (ho_free _ _ _ Ho) b Hb) as (_ & Hb2 & _).
  apply list_elem_of_split in Hp as (l1 & l2 & El). pose proof (ho_seg _ _ _ Ho) as Hs. rewrite El in Hs. destruct l2 as [|c l2].
  - apply seg_last in Hs. lia.
  - pose proof (seg_next _ _ _ _ _ _ _ Hs) as Hc. exists l1, l2. rewrite El. do 3 f_equal.
    pose proof (seg_size _ _ c _ _ Hs ltac:(set_solver)) as Ec.
    pose proof (seg_size _ _ b _ _ (ho_seg _ _ _ Ho) ltac:(set_solver)) as Eb.
    destruct b as [b1 b2], c as [c1 c2]. cbn in *. congruence.
Qed.

(** The kernel grants memory below 2 GB only. *)
Context (grant : Z -> Z -> bool) (Hgrant : forall brk n, grant brk n = true -> brk + n < 2 ^ 31).

(** From [prev] on through [r] to the block [fb] of [freep]. *)
Lemma malloc_walk h free used n fuel fb (Q : Z -> heap -> Prop) : forall r k prev,
  heap_ok h free used -> 1 <= n -> prev ∈ ring free -> (forall c, c ∈ r ++ [fb] -> c ∈ ring free) ->
  seg (h_mem h) (r ++ [fb]) (load32 (h_mem h) prev.1) (load32 (h_mem h) fb.1) ->
  h_freep h = fb.1 -> fb.1 ∉ r.*1 -> (length r < k)%nat ->
  (forall r h', taken h (units free) used n r h' -> Q r h') ->
  (forall k', (k <= S (length r + k'))%nat -> Forall (fun c => c.2 < n) (r ++ [fb]) ->
     wp (let* p := morecore grant fuel n in
         if p =? 0 then ret 0 else let* q := hdr_ptr p in malloc_loop grant k' fuel n p q) Q h) ->
  wp (malloc_loop grant k fuel n prev.1 (load32 (h_mem h) prev.1)) Q h.
Proof.
  induction r as [|b r IH]; intros k prev Ho Hn Hp Hr Hs Hfp Hnin Hk HQ Hno.
  - destruct Hs as (E & Esz & _). assert (Hfb : fb ∈ ring free) by (apply Hr; set_solver). destruct k as [|k]; [cbn in Hk; lia|].
    cbn [malloc_loop]. unfold hdr_size at 1. wp_step. wp_step. rewrite Esz. destruct (Z.leb_spec n fb.2) as [Hfit|Hfit].
    + rewrite E. destruct (next_block _ _ _ _ _ Ho Hp Hfb E) as (l1 & l2 & El); [lia|].
      eapply wp_mono; [eapply take_spec; [done|done|lia]|]. apply HQ.
    + wp_step. wp_step. rewrite Hfp, E, Z.eqb_refl. apply Hno; [cbn; lia|]. by repeat constructor.
  - destruct Hs as (E & Esz & Hs). assert (Hb : b ∈ ring free) by (apply Hr; set_solver). destruct k as [|k]; [cbn in Hk; lia|].
    cbn [malloc_loop]. unfold hdr_size at 1. wp_step. wp_step. rewrite Esz. destruct (Z.leb_spec n b.2) as [Hfit|Hfit].
    + rewrite E. destruct (next_block _ _ _ _ _ Ho Hp Hb E) as (l1 & l2 & El); [lia|].
      eapply wp_mono; [eapply take_spec; [done|done|lia]|]. apply HQ.
    + wp_step. wp_step. rewrite fmap_cons in Hnin. apply not_elem_of_cons in Hnin as [Hne Hnin].
      rewrite Hfp, E, (proj2 (Z.eqb_neq _ _)) by congruence. unfold hdr_ptr at 1. wp_step. wp_step.
      apply (IH k b Ho Hn Hb); try done; [intros c Hc; apply Hr; set_solver|by rewrite <- E|cbn in Hk; lia|].
      intros k' Hk' Hall. apply Hno; [cbn; lia|]. by constructor.
Qed.

(** ** More memory *)

(** The system does not give the [n] units asked for. *)
Definition refused (h : heap) (n : Z) : Prop := grant (h_brk h) (Z.max n 4096 * 8) = false.

(** The memory behind [brk] as a block in use. *)
Lemma grown_ok h free used nu :
  heap_ok h free used -> 1 <= nu -> h_brk h + 8 * nu < 2 ^ 31 ->
  heap_ok (Heap (store32 (h_mem h) (h_brk h + 4) nu) (h_freep h) (h_brk h + 8 * nu)) free ((h_brk h, nu) :: used).
Proof.
  intros [Hs Ha Hf Hu Hus Hd Hcr Hfp Hbrk] Hn Hlim.
  assert (Hup : forall l, Forall (inside (h_brk h)) l -> Forall (inside (h_brk h + 8 * nu)) l).
  { intros l Hl. eapply Forall_impl; [exact Hl|]. unfold inside. intros; lia. }
  constructor; cbn [h_mem h_brk h_freep]; try done.
  - revert Hs. apply seg_ext. intros b x Hb Hx. apply store32_other. apply elem_of_cons in Hb as [->|Hb]; [cbn in Hx; lia|].
    rewrite Forall_forall in Hf. destruct (Hf b Hb) as (? & ? & ?). unfold ends in *. lia.
  - by apply Hup.
  - constructor; [|by apply Hup]. unfold inside, ends. cbn. lia.
  - constructor; [cbn; rewrite load_store32, u32_small; [done|lia]|]. rewrite Forall_forall in Hus, Hu |- *. intros u Hin.
    rewrite load_store32_ne; [by apply Hus|]. destruct (Hu u Hin) as (? & ? & ?). unfold ends in *. lia.
  - split; [|done]. eapply Forall_impl; [exact Hu|]. unfold inside, disj. cbn. intros; lia.
  - constructor; [|done]. eapply Forall_impl; [exact Hf|]. unfold inside, disj. cbn. intros; lia.
  - lia.
Qed.

Lemma morecore_spec h free used n fuel :
  heap_ok h free used -> 1 <= n < 2 ^ 28 -> (length free < fuel)%nat ->
  wp (morecore grant fuel n) (fun r h' => (r = 0 /\ h' = h /\ refused h n) \/
    exists free', heap_ok h' free' used /\ r = h_freep h' /\ r <> 0 /\ Exists (fun c => n <= c.2) free' /\
      units free' = units free + (h_brk h' - h_brk h) / 8 /\ (length free' <= S (length free))%nat /\
      h_brk h <= h_brk h' /\ (h_brk h' - h_brk h) mod 8 = 0 /\
      (forall u x, u ∈ used -> u.1 <= x < ends u -> h_mem h' x = h_mem h x)) h.
Proof.
  intros Ho Hn Hf. pose proof (ho_brk _ _ _ Ho) as Hbrk. unfold morecore, HEADER. set (nu := if n <? 4096 then 4096 else n).
  assert (Hnu : n <= nu < 2 ^ 28 /\ nu = Z.max n 4096) by (unfold nu; destruct (Z.ltb_spec n 4096); lia).
  rewrite s32_small by lia. unfold sbrk. repeat wp_step. destruct (grant (h_brk h) (nu * 8)) eqn:Eg.
  2:{ wp_step. rewrite Z.eqb_refl. wp_step. left. split_and!; [done..|]. unfold refused. by replace (Z.max n 4096) with nu by lia. }
  apply Hgrant in Eg. repeat wp_step. rewrite (proj2 (Z.eqb_neq _ _)) by lia. unfold set_size. repeat wp_step. cbn [h_mem h_freep h_brk].
  pose proof (grown_ok h free used nu Ho ltac:(lia) ltac:(lia)) as Hg. rewrite (Z.mul_comm nu 8).
  replace (hdr_add (h_brk h) 1) with (h_brk h + 8) by (unfold hdr_add, HEADER; rewrite u32_small; lia).
  eapply wp_mono; [apply (free_spec _ free [] (h_brk h) nu used fuel Hg Hf)|].
  intros ? h' (free' & Ho' & Eb & Eu & Hex & Hlen & Hmem). wp_step. right. exists free'. cbn [h_brk h_mem] in *.
  assert (Ebd : h_brk h' - h_brk h = nu * 8) by lia. split_and!; try done.
  - pose proof (ho_freep _ _ _ Ho') as (c & -> & Hc)%list_elem_of_fmap.
    pose proof (proj1 (Forall_forall _ _) (ring_above _ _ _ Ho') c Hc) as Hca. cbn in Hca. lia.
  - eapply Exists_impl; [exact Hex|]. cbn. lia.
  - rewrite Ebd, Z.div_mul by lia. done.
  - lia.
  - rewrite Ebd. by apply Z.mod_mul.
  - intros u x Hin Hx. rewrite (Hmem u x Hin Hx). apply store32_other.
    destruct (proj1 (Forall_forall _ _) (ho_used _ _ _ Ho) u Hin) as (? & ? & ?). lia.
Qed.

(** ** malloc *)

(** The list from the block of [freep] on, once around. *)
Lemma around h free used :
  heap_ok h free used -> exists fb r, fb ∈ ring free /\ h_freep h = fb.1 /\ (fb.1 ∉ r.*1) /\
    (forall c, c ∈ r ++ [fb] <-> c ∈ ring free) /\ length r = length free /\
    seg (h_mem h) (r ++ [fb]) (load32 (h_mem h) fb.1) (load32 (h_mem h) fb.1).
Proof.
  intros Ho. pose proof (ho_freep _ _ _ Ho) as (fb & Efp & Hfb)%list_elem_of_fmap. exists fb.
  pose proof Hfb as (x & y & Exy)%list_elem_of_split. exists (y ++ x).
  pose proof (ho_seg _ _ _ Ho) as Hs. pose proof (heap_nodup _ _ _ Ho) as Hnd. rewrite Exy in Hs, Hnd.
  apply seg_app in Hs as (r & Hx & -> & Esz & Hy). split_and!; [done|done| | | |].
  - rewrite fmap_app, fmap_cons in Hnd. apply NoDup_app in Hnd as (_ & Hd & [Hny _]%NoDup_cons). rewrite fmap_app, not_elem_of_app.
    split; [done|]. intros Hin. apply (Hd _ Hin). set_solver.
  - intros c. rewrite Exy. set_solver.
  - apply (f_equal length) in Exy. rewrite !length_app in *. cbn in *. lia.
  - rewrite <- app_assoc. apply seg_app. exists base. split; [done|]. apply seg_app. exists fb.1. split; [done|]. by split_and!.
Qed.

Lemma malloc_ok h free used n fuel k :
  heap_ok h free used -> 1 <= n < 2 ^ 28 -> (length free < fuel)%nat -> (2 * length free + 3 <= k)%nat ->
  wp (malloc_loop grant k fuel n (h_freep h) (load32 (h_mem h) (h_freep h)))
     (fun r h' => (r = 0 /\ h' = h /\ refused h n /\ Forall (fun c => c.2 < n) free) \/ taken h (units free) used n r h') h.
Proof.
  intros Ho Hn Hf Hk. destruct (around _ _ _ Ho) as (fb & r & Hfb & Efp & Hnin & Hr & Hlen & Hs). rewrite Efp.
  apply (malloc_walk h free used n fuel fb _ r k fb); try done; [lia|by intros c ?%Hr|lia|by right|].
  intros k' Hk' Hall. wp_step. eapply wp_mono; [by apply (morecore_spec h free used n fuel Ho)|].
  intros p h1 [(-> & -> & Href)|(free' & Ho' & -> & Hnz & Hex & Eu & Hlen' & Hge & Hmod & Hmem)].
  { apply wp_ret. left. split_and!; [done..|]. apply Forall_forall. intros c Hc. rewrite Forall_forall in Hall. apply Hall, Hr. by right. }
  rewrite (proj2 (Z.eqb_neq _ _)) by done. unfold hdr_ptr. wp_step. wp_step.
  destruct (around _ _ _ Ho') as (fb' & r' & Hfb' & Efp' & Hnin' & Hr' & Hl' & Hs'). rewrite Efp'.
  apply (malloc_walk h1 free' used n fuel fb' _ r' k' fb'); try done; [lia|by intros c ?%Hr'|lia| |].
  - intros p h2 (free2 & a & -> & Ho2 & Eu2 & Hmem2). right. exists free2, a. split_and!; [done|done| |].
    + rewrite Eu2, Eu. apply Z.mod_divide in Hmod as [d Hd]; [|lia].
      replace (h_brk h2 - h_brk h) with (h_brk h2 - h_brk h1 + d * 8) by lia. rewrite Hd, Z.div_add, Z.div_mul by lia. lia.
    + intros u x Hin Hx. rewrite (Hmem2 u x) by done. by apply (Hmem u).
  - intros k2 _ Hall'. exfalso. apply Exists_exists in Hex as (c & Hc & Hcn). rewrite Forall_forall in Hall'.
    assert (Hc' : c ∈ r' ++ [fb']) by (apply Hr'; by right). specialize (Hall' c Hc'). cbn in Hall'. lia.
Qed.

(** The heap before the first [malloc], or as the invariant says. *)
Definition heap_rep (h : heap) (free used : list blk) : Prop :=
  (h_freep h = 0 /\ free = [] /\ used = [] /\ base + 8 <= h_brk h < 2 ^ 31) \/ heap_ok h free used.

Lemma init_ok m brk :
  base + 8 <= brk < 2 ^ 31 -> heap_ok (Heap (store32 (store32 m base base) (base + 4) 0) base brk) [] [].
Proof.
  intros Hb. constructor; cbn [h_mem h_brk h_freep]; try done.
  - cbn [seg fst snd]. rewrite load_store32, load_store32_ne, load_store32, !u32_small by lia. done.
  - by repeat constructor.
Qed.

(** C9: [malloc] returns a block that can hold the bytes asked for and that
    overlaps neither free memory nor a block in use, whose contents it does not
    touch; the free list stays in order with joined neighbours, and the units
    of the free list are accounted for.  It fails only if no free block is
    large enough and the system refuses more memory, and then without a trace. *)
Theorem malloc_correct h free used nbytes fuel :
  heap_rep h free used -> 0 <= nbytes < 2 ^ 30 -> (length free + 2 <= fuel)%nat ->
  wp (malloc base grant fuel nbytes) (fun r h' =>
    (r = 0 /\ heap_rep h' free used /\ Forall (fun b => 8 * b.2 < nbytes + 8) free /\
       (exists k, nbytes + 8 <= k /\ grant (h_brk h) k = false) \/
     exists free' n, heap_ok h' free' ((r - 8, n) :: used) /\ nbytes + 8 <= 8 * n /\
       units free' + n = units free + (h_brk h' - h_brk h) / 8) /\
    forall u x, u ∈ used -> u.1 <= x < ends u -> h_mem h' x = h_mem h x) h.
Proof.
  intros Hh Hb Hf. unfold malloc, HEADER. set (n := u32 _).
  assert (En : n = (nbytes + 7) / 8 + 1).
  { unfold n. replace (nbytes + 8 - 1) with (nbytes + 7) by lia. rewrite (u32_small (nbytes + 7)) by lia. apply u32_small.
    pose proof (Z.div_pos (nbytes + 7) 8). pose proof (Z.div_le_upper_bound (nbytes + 7) 8 (2 ^ 28)). lia. }
  assert (Hn : nbytes + 8 <= 8 * n /\ 1 <= n < 2 ^ 28) by (rewrite En; Z.to_euclidean_division_equations; lia).
  destruct Hn as [Hn8 Hn].
  assert (Hloop : forall h1, heap_ok h1 free used -> h_brk h1 = h_brk h ->
    (forall u x, u ∈ used -> u.1 <= x < ends u -> h_mem h1 x = h_mem h x) ->
    wp (malloc_loop grant (2 * fuel) fuel n (h_freep h1) (load32 (h_mem h1) (h_freep h1))) (fun r h' =>
    (r = 0 /\ heap_rep h' free used /\ Forall (fun b => 8 * b.2 < nbytes + 8) free /\
       (exists k, nbytes + 8 <= k /\ grant (h_brk h) k = false) \/
     exists free' n, heap_ok h' free' ((r - 8, n) :: used) /\ nbytes + 8 <= 8 * n /\
       units free' + n = units free + (h_brk h' - h_brk h) / 8) /\
    forall u x, u ∈ used -> u.1 <= x < ends u -> h_mem h' x = h_mem h x) h1).
  { intros h1 Ho Eb Hm. eapply wp_mono; [apply (malloc_ok h1 free used n fuel (2 * fuel) Ho); lia|].
    intros r h' [(-> & -> & Href & Hsm)|(free' & a & -> & Ho' & Eu & Hm')].
    - split; [left; split_and!; [done|by right| |]|done].
      + eapply Forall_impl; [exact Hsm|]. cbn. rewrite En. intros c Hc. Z.to_euclidean_division_equations; lia.
      + exists (Z.max n 4096 * 8). rewrite <- Eb. split; [lia|exact Href].
    - split; [right; exists free', n; rewrite Z.add_simpl_r, <- Eb; by split_and!|].
      intros u x Hu Hx. rewrite (Hm' u x Hu Hx). by apply (Hm u). }
  wp_step. wp_step. destruct Hh as [(E0 & -> & -> & Hbrk)|Ho].
  - rewrite E0, Z.eqb_refl. unfold set_freep, set_ptr, set_size, hdr_ptr. repeat wp_step. cbn [h_mem h_freep h_brk].
    apply (Hloop (Heap (store32 (store32 (h_mem h) base base) (base + 4) 0) base (h_brk h))); [by apply init_ok|done|].
    intros u x Hu. by apply elem_of_nil in Hu.
  - pose proof (ho_freep _ _ _ Ho) as (c & Ec & Hc)%list_elem_of_fmap.
    pose proof (proj1 (Forall_forall _ _) (ring_above _ _ _ Ho) c Hc) as Hca. cbn in Hca.
    rewrite (proj2 (Z.eqb_neq _ _)) by lia. unfold hdr_ptr. repeat wp_step. by apply Hloop.
Qed.

(** [free] returns a block in use to the free list, which stays in order
    with joined neighbours and grows by the units of the block; the contents
    of the other blocks in use is not touched. *)
Theorem free_correct h free u1 a n u2 fuel :
  heap_ok h free (u1 ++ (a, n) :: u2) -> (length free < fuel)%nat ->
  wp (Umalloc.free fuel (a + 8)) (fun _ h' => exists free', heap_ok h' free' (u1 ++ u2) /\
    units free' = units free + n /\ h_brk h' = h_brk h /\
    forall u x, u ∈ u1 ++ u2 -> u.1 <= x < ends u -> h_mem h' x = h_mem h x) h.
Proof.
  intros Ho Hf. eapply wp_mono; [by apply free_spec|]. intros ? h' (free' & ? & ? & ? & _ & _ & ?). by exists free'.
Qed.
End spec.
