(* ===== verification/Grep.v ===== *)
(** * grep

    [user/grep.c]: the matcher for regular expressions with [^ . * $], against
    what an expression denotes; and the loop over the lines of a file.

    A string is its bytes up to the terminator. *)

From S2P Require Import Prelude CString UserSys Ufile UfileSpec.

(** ** The matcher *)

(** [matchstar], with [matchhere] on the rest of the expression. *)
Fixpoint matchstar (c : Z) (here : list Z -> bool) (text : list Z) : bool :=
  if here text then true
  else
    match text with
    | t :: text => if (t =? c) || (c =? 46) then matchstar c here text else false
    | [] => false
    end.

Fixpoint matchhere (re : list Z) (text : list Z) : bool :=
  match re with
  | [] => true
  | c :: re1 =>
      let single :=
        if (c =? 36) && bool_decide (re1 = []) then bool_decide (text = [])
        else
          match text with
          | t :: text => if (c =? 46) || (c =? t) then matchhere re1 text else false
          | [] => false
          end in
      match re1 with
      | c1 :: re2 => if c1 =? 42 then matchstar c (matchhere re2) text else single
      | [] => single
      end
  end.

Fixpoint match_from (re : list Z) (text : list Z) : bool :=
  if matchhere re text then true
  else match text with [] => false | _ :: text => match_from re text end.

Definition grep_match (re text : list Z) : bool :=
  match re with
  | c :: re' => if c =? 94 then matchhere re' text else match_from re text
  | [] => match_from re text
  end.

(** ** The loop over the lines *)

Definition GREP_BUF : Z := 1024.

Section grep.
Context {W : Type} `{UserSys W}.

(** The lines of the buffer from [p] on; the result is [p] in the end. *)
Fixpoint grep_lines (k : nat) (pattern p : list Z) : M W (list Z) :=
  match strchr p 10 with
  | None => ret p
  | Some q =>
      match k with
      | O => fault "fuel"
      | S k =>
          let line := take (Z.to_nat q) p in
          do* when grep_match pattern line then (let* _ := us_write 1 (line ++ [10]) in ret tt) in
          grep_lines k pattern (drop (Z.to_nat q + 1) p)
      end
  end.

(** [buf[..m]] is [kept] before a [read]. *)
Fixpoint grep (fuel : nat) (pattern : list Z) (fd : Z) (kept : list Z) : M W unit :=
  match fuel with
  | O => fault "fuel"
  | S fuel =>
      let* (n, l) := us_read fd (GREP_BUF - Z.of_nat (length kept) - 1) in
      if n <=? 0 then ret tt else
      let buf := kept ++ l in
      let* p := grep_lines (length buf) pattern buf in
      grep fuel pattern fd (if bool_decide (p = buf) then [] else p)
  end.
End grep.

(** ** Expressions and their language *)

Inductive item := One (c : Z) | Star (c : Z).

(** The items of an expression, and whether it ends in [$]. *)
Fixpoint items (re : list Z) : list item * bool :=
  match re with
  | [] => ([], false)
  | c :: re1 =>
      let single :=
        if (c =? 36) && bool_decide (re1 = []) then ([], true)
        else (One c :: (items re1).1, (items re1).2) in
      match re1 with
      | c1 :: re2 => if c1 =? 42 then (Star c :: (items re2).1, (items re2).2) else single
      | [] => single
      end
  end.

(** A dot stands for every character. *)
Definition is_char (c t : Z) : Prop := c = 46 \/ c = t.

Inductive denotes : list item -> list Z -> Prop :=
| D_nil : denotes [] []
| D_one c t l w : is_char c t -> denotes l w -> denotes (One c :: l) (t :: w)
| D_star c w1 l w : Forall (is_char c) w1 -> denotes l w -> denotes (Star c :: l) (w1 ++ w).

(** Some prefix of the text is in the language, all of it after a [$]. *)
Definition prefix_in (r : list item * bool) (text : list Z) : Prop :=
  exists w rest, text = w ++ rest /\ denotes r.1 w /\ (r.2 = true -> rest = []).

Lemma matchstar_correct c here text :
  matchstar c here text = true <->
  exists w rest, text = w ++ rest /\ Forall (is_char c) w /\ here rest = true.
Proof.
  induction text as [|t text IH]; cbn [matchstar].
  - destruct (here []) eqn:E.
    + split; [|done]. intros _. by exists [], [].
    + split; [done|]. intros (w & rest & Ew & _ & Hr). symmetry in Ew. apply app_nil in Ew as [-> ->]. congruence.
  - destruct (here (t :: text)) eqn:E.
    { split; [|done]. intros _. by exists [], (t :: text). }
    assert (Hc : (t =? c) || (c =? 46) = true <-> is_char c t) by (rewrite orb_true_iff, !Z.eqb_eq; unfold is_char; lia).
    split.
    + destruct ((t =? c) || (c =? 46)); [|done]. intros (w & rest & -> & Hw & Hr)%IH.
      exists (t :: w), rest. split_and!; [done|constructor; [by apply Hc|done]|done].
    + intros (w & rest & Ew & Hw & Hr). destruct Hw as [|x w Hx Hw]; cbn in Ew; [congruence|].
      injection Ew as -> ->. rewrite (proj2 Hc Hx). apply IH. by exists w, rest.
Qed.

Lemma prefix_one c l e text :
  prefix_in (One c :: l, e) text <-> exists t text', text = t :: text' /\ is_char c t /\ prefix_in (l, e) text'.
Proof.
  split.
  - intros (w & rest & -> & Hd & He). cbn in Hd. inversion Hd as [|? t ? w' Hc Hd'|]; subst.
    exists t, (w' ++ rest). split_and!; [done|done|]. by exists w', rest.
  - intros (t & text' & -> & Hc & w & rest & -> & Hd & He). exists (t :: w), rest. split_and!; [done|by constructor|done].
Qed.
Lemma prefix_star c l e text :
  prefix_in (Star c :: l, e) text <->
  exists w text', text = w ++ text' /\ Forall (is_char c) w /\ prefix_in (l, e) text'.
Proof.
  split.
  - intros (w & rest & -> & Hd & He). cbn in Hd. inversion Hd as [| |? w1 ? w' Hc Hd']; subst.
    exists w1, (w' ++ rest). split_and!; [by rewrite app_assoc|done|]. by exists w', rest.
  - intros (w1 & text' & -> & Hc & w & rest & -> & Hd & He). exists (w1 ++ w), rest.
    split_and!; [by rewrite app_assoc|by constructor|done].
Qed.

(** A character that is not starred. *)
Lemma single_items c re1 text :
  (forall text, matchhere re1 text = true <-> prefix_in (items re1) text) ->
  (if (c =? 36) && bool_decide (re1 = []) then bool_decide (text = [])
   else match text with
        | t :: text => if (c =? 46) || (c =? t) then matchhere re1 text else false
        | [] => false
        end) = true <->
  prefix_in (if (c =? 36) && bool_decide (re1 = []) then ([], true) else (One c :: (items re1).1, (items re1).2)) text.
Proof.
  intros IH. destruct ((c =? 36) && bool_decide (re1 = [])).
  - rewrite bool_decide_eq_true. split.
    + intros ->. exists [], []. split_and!; [done|constructor|done].
    + intros (w & rest & -> & Hd & He). inversion Hd; subst. by rewrite He.
  - rewrite prefix_one, <- surjective_pairing. destruct text as [|t text]; [naive_solver|].
    assert (Hc : (c =? 46) || (c =? t) = true <-> is_char c t) by (by rewrite orb_true_iff, !Z.eqb_eq).
    split.
    + destruct (_ || _); [|done]. intros Hm. exists t, text. split_and!; [done|by apply Hc|by apply IH].
    + intros (t' & text' & [= <- <-] & Ht & Hp). rewrite (proj2 Hc Ht). by apply IH.
Qed.

Lemma matchhere_items re text : matchhere re text = true <-> prefix_in (items re) text.
Proof.
  revert text. induction re as [re IH] using (induction_ltof1 _ length). unfold ltof in IH. intros text.
  destruct re as [|c re1].
  { split; [|done]. intros _. exists [], text. split_and!; [done|constructor|done]. }
  pose proof (single_items c re1 text (IH re1 ltac:(cbn; lia))) as Hs. cbn [matchhere items] in *.
  destruct re1 as [|c1 re2]; [exact Hs|]. destruct (c1 =? 42); [|exact Hs].
  rewrite matchstar_correct, prefix_star, <- surjective_pairing.
  setoid_rewrite <- (IH re2 ltac:(cbn; lia)). done.
Qed.

Lemma match_from_correct re text :
  match_from re text = true <-> exists pre rest, text = pre ++ rest /\ prefix_in (items re) rest.
Proof.
  induction text as [|t text IH]; cbn [match_from]; destruct (matchhere re _) eqn:E.
  - split; [|done]. intros _. exists [], []. split; [done|]. by apply matchhere_items.
  - split; [done|]. intros (pre & rest & Ep & Hp). symmetry in Ep. apply app_nil in Ep as [-> ->].
    apply matchhere_items in Hp. congruence.
  - split; [|done]. intros _. exists [], (t :: text). split; [done|]. by apply matchhere_items.
  - rewrite IH. split; intros (pre & rest & Ep & Hp).
    + exists (t :: pre), rest. by subst.
    + destruct pre as [|x pre]; cbn in Ep; [subst; apply matchhere_items in Hp; congruence|].
      injection Ep as -> ->. eauto.
Qed.

(** C21: the matcher of grep decides the language of the expression: a text
    matches if it has a part that the items of the expression denote, at the
    start of the text after [^] and at its end before [$]. *)
Theorem grep_match_correct re text :
  grep_match re text = true <->
  exists pre w post, text = pre ++ w ++ post /\
    let caret := bool_decide (head re = Some 94) in
    let r := items (if caret then tail re else re) in
    denotes r.1 w /\ (caret = true -> pre = []) /\ (r.2 = true -> post = []).
Proof.
  assert (Hfrom : forall re, match_from re text = true <->
    exists pre w post, text = pre ++ w ++ post /\ denotes (items re).1 w /\ ((items re).2 = true -> post = [])).
  { intros re'. rewrite match_from_correct. unfold prefix_in. naive_solver. }
  unfold grep_match. destruct re as [|c re]; [rewrite Hfrom; naive_solver|]. cbn [head tail].
  destruct (Z.eqb_spec c 94) as [->|Hc].
  - rewrite bool_decide_eq_true_2 by done. rewrite matchhere_items. split.
    + intros (w & rest & -> & Hd & He). by exists [], w, rest.
    + intros (pre & w & post & -> & Hd & Hp & He). rewrite (Hp eq_refl). by exists w, post.
  - rewrite bool_decide_eq_false_2 by congruence. rewrite Hfrom. naive_solver.
Qed.

(** ** The output *)

(** The lines of a file with a newline at their end, [acc] being the start of
    the first. *)
Fixpoint lines_of (acc d : list Z) : list (list Z) :=
  match d with
  | [] => []
  | c :: d => if c =? 10 then acc :: lines_of [] d else lines_of (acc ++ [c]) d
  end.

(** They are the pieces between the newlines, without the piece behind the last
    newline. *)
Lemma lines_of_split acc d :
  lines_of acc d = removelast (match split_on 10 d with l :: ls => (acc ++ l) :: ls | [] => [] end).
Proof.
  revert acc. induction d as [|c d IH]; intros acc; [done|]. cbn [lines_of split_on].
  destruct (split_on 10 d) as [|l ls] eqn:E.
  { exfalso. destruct d as [|x d]; cbn in E; [done|]. by destruct (x =? 10), (split_on 10 d). }
  destruct (c =? 10); rewrite IH; cbn [app].
  - by rewrite app_nil_r.
  - by rewrite <- app_assoc.
Qed.

(** What grep prints of them. *)
Definition grep_out (pattern d : list Z) : list Z :=
  concat ((fun line => line ++ [10]) <$> filter (fun line => grep_match pattern line = true) (lines_of [] d)).

Lemma lines_of_app acc l d : 10 ∉ l -> lines_of acc (l ++ d) = lines_of (acc ++ l) d.
Proof.
  revert acc. induction l as [|c l IH]; intros acc Hl; cbn; [by rewrite app_nil_r|].
  apply not_elem_of_cons in Hl as [Hc Hl]. rewrite (proj2 (Z.eqb_neq c 10)) by done. rewrite IH by done. by rewrite <- app_assoc.
Qed.
Lemma lines_of_none acc l : 10 ∉ l -> lines_of acc l = [].
Proof. intros Hl. pose proof (lines_of_app acc l [] Hl) as E. rewrite app_nil_r in E. exact E. Qed.
Lemma lines_of_line l d : 10 ∉ l -> lines_of [] (l ++ 10 :: d) = l :: lines_of [] d.
Proof. intros Hl. by rewrite lines_of_app. Qed.

Lemma strchr_cases p :
  0 ∉ p -> match strchr p 10 with
           | None => 10 ∉ p
           | Some q => exists line rest, p = line ++ 10 :: rest /\ (10 ∉ line) /\ q = Z.of_nat (length line)
           end.
Proof.
  induction p as [|c p IH]; intros Hz; [apply not_elem_of_nil|]. apply not_elem_of_cons in Hz as [Hc Hz].
  specialize (IH Hz). cbn. rewrite (proj2 (Z.eqb_neq c 0)) by done. destruct (Z.eqb_spec c 10) as [->|Hne].
  - exists [], p. split_and!; [done|apply not_elem_of_nil|done].
  - destruct (strchr p 10) as [q|]; cbn; [|apply not_elem_of_cons; split; [done|exact IH]].
    destruct IH as (line & rest & -> & Hl & ->). exists (c :: line), rest.
    split_and!; [done|apply not_elem_of_cons; by split|]. cbn [length]. lia.
Qed.

Lemma grep_out_line pattern l d :
  10 ∉ l -> grep_out pattern (l ++ 10 :: d) =
    (if grep_match pattern l then l ++ [10] else []) ++ grep_out pattern d.
Proof.
  intros Hl. unfold grep_out. rewrite lines_of_line by done. rewrite filter_cons. case_decide as E; [by rewrite E|].
  apply not_true_is_false in E. by rewrite E.
Qed.
Lemma grep_out_none pattern l : 10 ∉ l -> grep_out pattern l = [].
Proof. intros Hl. unfold grep_out. by rewrite lines_of_none. Qed.

Section grep_spec.
Context {W : Type} `{UserSysSpec W} (v : uview) (s : Z) (fs ft : nat) (ds : list Z).
Context (Hst : s <> 1) (Hf : fs <> ft) (Hds : uv_data v !! fs = Some ds) (Hz : 0 ∉ ds).

Abbreviation rep os dt := (cp_view v s fs os 1 ft (Z.of_nat (length dt)) dt).

(** What follows the last newline. *)
Definition tail_of (buf p : list Z) : Prop := (10 ∉ p) /\ exists x, buf = x ++ p /\ (x = [] \/ exists y, x = y ++ [10]).

Lemma grep_lines_spec pattern os k : forall p dt w,
  us_rep w (rep os dt) -> 0 ∉ p -> (length p <= k)%nat ->
  wp (grep_lines k pattern p) (fun p' w' => tail_of p p' /\
    us_rep w' (rep os (dt ++ grep_out pattern (take (length p - length p') p)))) w.
Proof.
  induction k as [|k IH]; intros p dt w Hw Hp Hk; pose proof (strchr_cases p Hp) as Hc; cbn [grep_lines];
    destruct (strchr p 10) as [q|].
  1: destruct Hc as (line & rest & -> & _); rewrite length_app in Hk; cbn in Hk; lia.
  1, 3: apply wp_ret; split; [split; [done|by exists []; split; [|left]]|];
        rewrite Nat.sub_diag; cbn; by rewrite app_nil_r.
  destruct Hc as (line & rest & -> & Hl & ->). rewrite Nat2Z.id, take_app_length.
  replace (drop (length line + 1) (line ++ 10 :: rest)) with rest
    by (rewrite cons_middle, app_assoc, drop_app_length'; [done|by rewrite length_app]).
  assert (Hrest : 0 ∉ rest) by (intros Hin; apply Hp; set_solver). rewrite length_app in Hk. cbn in Hk.
  set (out := if grep_match pattern line then line ++ [10] else []).
  apply wp_bind. assert (Hwr : wp (when grep_match pattern line then let* _ := us_write 1 (line ++ [10]) in ret tt)
    (fun _ w' => us_rep w' (rep os (dt ++ out))) w).
  { unfold out. destruct (grep_match pattern line); [|apply wp_ret; by rewrite app_nil_r]. apply wp_bind.
    eapply wp_mono; [apply (us_write_spec w _ 1 ft (Z.of_nat (length dt)) dt (line ++ [10]) Hw (cp_t _ _ _ _ _ Hst _ _ _)
      (cp_dt _ _ _ _ _ _ _ _)); lia|].
    intros r w' [_ Hw']. apply wp_ret. rewrite (cp_store v s fs 1 ft), (cp_seek_t v s fs 1 ft Hst) in Hw'.
    rewrite Nat2Z.id, take_ge, drop_ge, app_nil_r in Hw' by lia. by rewrite length_app, Nat2Z.inj_add. }
  eapply wp_mono; [exact Hwr|]. intros ? w1 Hw1. eapply wp_mono; [apply (IH rest _ w1 Hw1 Hrest); lia|].
  intros p' w' [(Hp' & x & Ex & Hx) Hw']. split.
  - split; [done|]. exists (line ++ 10 :: x). split; [rewrite Ex; by rewrite <- app_assoc|]. right.
    destruct Hx as [->|[y ->]]; [by exists line|]. exists (line ++ 10 :: y). by rewrite <- app_assoc.
  - assert (El : (length (line ++ 10%Z :: rest) - length p' = length line + S (length rest - length p'))%nat).
    { apply (f_equal length) in Ex. rewrite length_app in *. cbn. lia. }
    rewrite El, take_app_add. cbn [take]. rewrite grep_out_line by done. by rewrite app_assoc.
Qed.

(** The lines fit the buffer. *)
Definition fits (d : list Z) : Prop := Forall (fun l => (length l < 1023)%nat) (lines_of [] d).

Lemma fits_app pre d : fits (pre ++ d) -> pre = [] \/ (exists y, pre = y ++ [10]) -> fits d.
Proof.
  intros Hfit [->|[y ->]]; [done|]. revert Hfit. unfold fits. rewrite <- app_assoc. cbn [app]. generalize ([] : list Z) at 1.
  induction y as [|c y IH]; intros acc; cbn; [by intros [_ ?]%Forall_cons|].
  destruct (c =? 10); [|apply IH]. intros [_ Hfit]%Forall_cons. by apply (IH []).
Qed.

Lemma grep_out_app pattern pre d :
  pre = [] \/ (exists y, pre = y ++ [10]) -> grep_out pattern (pre ++ d) = grep_out pattern pre ++ grep_out pattern d.
Proof.
  intros [->|[y ->]]; [done|]. unfold grep_out. rewrite <- app_assoc. cbn [app].
  assert (E : forall acc, lines_of acc (y ++ 10 :: d) = lines_of acc (y ++ [10]) ++ lines_of [] d).
  { induction y as [|c y IH]; intros acc; cbn; [done|]. destruct (c =? 10); rewrite IH; done. }
  by rewrite E, filter_app, fmap_app, concat_app.
Qed.

(** The buffer is full and holds no newline: there is none to come. *)
Lemma fits_full p R : fits (p ++ R) -> 10 ∉ p -> (1023 <= length p)%nat -> 10 ∉ p ++ R.
Proof.
  intros Hfit Hp Hlen [?|Hin]%elem_of_app; [done|]. unfold fits in Hfit. rewrite lines_of_app in Hfit by done. cbn [app] in Hfit.
  revert Hin Hfit. generalize p, Hlen. clear p Hp Hlen. induction R as [|c R IH]; intros p Hlen Hin Hfit; [by apply elem_of_nil in Hin|].
  cbn in Hfit. destruct (Z.eqb_spec c 10) as [->|Hc].
  - apply Forall_cons in Hfit as [? _]. lia.
  - apply (IH (p ++ [c])); [rewrite length_app; lia| |done]. apply elem_of_cons in Hin as [?|?]; [congruence|done].
Qed.

(** One pass of [grep] at a time: [kept] is the start of a line. *)
Lemma grep_spec pattern fuel : forall kept os dt w,
  us_rep w (rep os dt) -> 0 <= os -> 10 ∉ kept -> 0 ∉ kept -> (length kept < 1023)%nat ->
  fits (kept ++ drop (Z.to_nat os) ds) -> (length (drop (Z.to_nat os) ds) < fuel)%nat ->
  wp (grep fuel pattern s kept) (fun _ w' => exists os',
    us_rep w' (rep os' (dt ++ grep_out pattern (kept ++ drop (Z.to_nat os) ds)))) w.
Proof.
  induction fuel as [|fuel IH]; intros kept os dt w Hw Hos Hk Hk0 Hlen Hfit Hfuel; [lia|]. cbn [grep]. apply wp_bind.
  eapply wp_mono; [apply (cp_read_n v s fs 1 ft ds Hf Hds w os _ _ _ Hw Hos); unfold GREP_BUF; lia|].
  intros [n l] w1 (os1 & Hw1 & Hc & Hos1 & Hshort & Hle). destruct Hc as [(Hn & -> & E)|(Hn & En & Hos1' & E)].
  { rewrite (proj2 (Z.leb_le n 0)) by done. apply wp_ret. exists os1. rewrite E, app_nil_r, grep_out_none, app_nil_r by done. done. }
  rewrite (proj2 (Z.leb_gt n 0)) by done. set (R := drop (Z.to_nat os1) ds) in *.
  assert (Hl0 : 0 ∉ l).
  { intros Hin. apply Hz. rewrite <- (take_drop (Z.to_nat os) ds), <- E. set_solver. }
  rewrite <- E in Hfit, Hfuel |- *. unfold GREP_BUF in *. apply wp_bind.
  eapply wp_mono; [apply (grep_lines_spec pattern os1 _ (kept ++ l) dt w1 Hw1); [set_solver|done]|].
  intros p w2 [(Hp & x & Ex & Hx) Hw2].
  assert (Ep : take (length (kept ++ l) - length p) (kept ++ l) = x).
  { rewrite Ex, length_app, Nat.add_sub. apply take_app_length. }
  rewrite Ep in Hw2. rewrite app_assoc, Ex, <- app_assoc in Hfit |- *. apply fits_app in Hfit; [|done].
  assert (Hlp : (length x + length p = length kept + length l)%nat) by (rewrite <- !length_app; by rewrite Ex).
  rewrite grep_out_app, app_assoc by done. rewrite length_app in Hfuel. case_bool_decide as Epb.
  - assert (x = []) as -> by (apply (app_inv_tail p); by rewrite <- Epb).
    assert (Hout : 10 ∉ p ++ R).
    { destruct Hshort as [Hfull|HR]; [|rewrite HR, app_nil_r; done]. apply fits_full; [done|done|]. cbn [length] in Hlp. lia. }
    eapply wp_mono; [apply (IH [] os1 _ w2 Hw2); [done|apply not_elem_of_nil|apply not_elem_of_nil|cbn [length]; lia| |fold R; lia]|].
    + unfold fits. cbn [app]. rewrite lines_of_none; [done|set_solver].
    + intros ? w' (os' & Hw'). exists os'. cbn [app] in Hw'. fold R in Hw'. rewrite (grep_out_none _ R) in Hw' by set_solver. by rewrite (grep_out_none _ (p ++ R)).
  - assert (Hx0 : (0 < length x)%nat).
    { destruct x; [|cbn; lia]. by destruct Epb. }
    apply (IH p os1 _ w2 Hw2); fold R; try done; [|lia|lia]. intros Hin. assert (0 ∈ kept ++ l) by (rewrite Ex; set_solver). set_solver.
Qed.
End grep_spec.

(** C22: [grep pattern fd] on a file without NULs whose lines are shorter than
    1023 bytes ends, and appends to the standard output exactly the lines that
    match, in order, each with its newline.  Lines are the pieces of the file
    that a newline ends: what follows the last newline is not looked at. *)
Theorem grep_correct {W} `{UserSysSpec W} (w : W) (v : uview) fd f fo d out pattern fuel :
  us_rep w v -> fd <> 1 -> f <> fo ->
  uv_fd v !! fd = Some (f, 0) -> uv_data v !! f = Some d ->
  uv_fd v !! 1 = Some (fo, Z.of_nat (length out)) -> uv_data v !! fo = Some out ->
  0 ∉ d -> Forall (fun l => (length l < 1023)%nat) (removelast (split_on 10 d)) -> (length d < fuel)%nat ->
  wp (grep fuel pattern fd []) (fun _ w' => exists v', us_rep w' v' /\
    uv_name v' = uv_name v /\
    uv_data v' = <[fo := out ++ concat ((fun line => line ++ [10]) <$>
      filter (fun line => grep_match pattern line = true) (removelast (split_on 10 d)))]> (uv_data v)) w.
Proof.
  intros Hw Hfd Hf Efd Ed E1 Eo Hz Hfit Hfuel.
  assert (El : removelast (split_on 10 d) = lines_of [] d) by (rewrite lines_of_split; by destruct (split_on 10 d)).
  rewrite El in *. clear El.
  assert (Ev : v = cp_view v fd f 0 1 fo (Z.of_nat (length out)) out).
  { unfold cp_view, uv_set_fd, uv_store. destruct v as [nm dat fds may uid euid dirs]. cbn in *.
    rewrite !insert_id; try done. by rewrite insert_id. }
  rewrite Ev in Hw. eapply wp_mono; [apply (grep_spec v fd f fo d Hfd Hf Ed Hz pattern fuel [] 0 out w Hw); cbn [app]|].
  - lia.
  - apply not_elem_of_nil.
  - apply not_elem_of_nil.
  - cbn [length]. lia.
  - by rewrite drop_0.
  - by rewrite drop_0.
  - intros ? w' (os' & Hw'). rewrite drop_0 in Hw'. eexists. split; [exact Hw'|]. done.
Qed.
