(* ===== verification/Uprintf.v ===== *)
(** * Formatted output of user programs

    [user/printf.c], over the interface of the system calls: every character is
    one [write].  The theorem is about a format built from its pieces: the
    output is the text of the pieces in order. *)

From S2P Require Import Prelude CString Console ConsoleSpec UserSys.

Definition udigits : list Z := [48; 49; 50; 51; 52; 53; 54; 55; 56; 57; 65; 66; 67; 68; 69; 70].

(** The digits of [x], least significant first; a 32-bit word has at most 32
    of them in any base. *)
Fixpoint uint_digits (fuel : nat) (x base : Z) : list Z :=
  default 0 (udigits !! Z.to_nat (x mod base)) ::
  match fuel with
  | O => []
  | S fuel => if x / base =? 0 then [] else uint_digits fuel (x / base) base
  end.

Definition uprintint_buf (xx base : Z) (sgn : bool) : list Z :=
  let neg := sgn && (xx <? 0) in
  let x := if neg then u32 (- xx) else u32 xx in
  uint_digits 31 x base ++ (if neg then [45] else []).

Section printf.
Context {W : Type} `{UserSys W} (fd : Z).

Definition uputc (c : Z) : M W unit := let* _ := us_write fd [u8 c] in ret tt.
Definition uputs (l : list Z) : M W unit := foldr (fun c k => do* uputc c in k) (ret tt) l.

(** [buf] has 16 bytes; more than that is a write past its end. *)
Definition uprintint (xx base : Z) (sgn : bool) : M W unit :=
  let buf := uprintint_buf xx base sgn in
  if (16 <? length buf)%nat then fault "printint: buf" else uputs (rev buf).

(** [percent]: the last character was a percent sign. *)
Fixpoint vprintf (percent : bool) (fmt : list Z) (args : list carg) : M W unit :=
  match fmt with
  | [] => ret tt
  | c :: fmt =>
      if c =? 0 then ret tt else
      if negb percent then
        if c =? 37 then vprintf true fmt args
        else do* uputc c in vprintf false fmt args
      else if c =? 100 then
        match args with
        | AInt x :: args => do* uprintint (s32 x) 10 true in vprintf false fmt args
        | _ => fault "va_arg"
        end
      else if (c =? 120) || (c =? 112) then
        match args with
        | AInt x :: args => do* uprintint (s32 x) 16 false in vprintf false fmt args
        | _ => fault "va_arg"
        end
      else if c =? 115 then
        match args with
        | AStr s :: args =>
            do* uputs (default [40; 110; 117; 108; 108; 41] (cstr <$> s)) in
            vprintf false fmt args
        | _ => fault "va_arg"
        end
      else if c =? 99 then
        match args with
        | AInt x :: args => do* uputc x in vprintf false fmt args
        | _ => fault "va_arg"
        end
      else if c =? 37 then do* uputc c in vprintf false fmt args
      else do* uputc 37 in do* uputc c in vprintf false fmt args
  end.
Definition fprintf (fmt : list Z) (args : list carg) : M W unit := vprintf false fmt args.
End printf.

Definition printf {W} `{UserSys W} (fmt : list Z) (args : list carg) : M W unit := vprintf 1 false fmt args.

(** ** Pieces of a format *)

Inductive piece :=
| Lit (c : Z)
| Dec (x : Z)
| Hex (x : Z)
| Str (s : list Z)
| Null
| Chr (c : Z)
| Percent.

Definition piece_ok (p : piece) : Prop :=
  match p with
  | Lit c => 0 < c < 256 /\ c <> 37
  | Dec x => -2 ^ 31 <= x < 2 ^ 31
  | Hex x => 0 <= x < 2 ^ 32
  | Str s => Forall (fun c => 0 < c < 256) s
  | Chr c => 0 <= c < 256
  | Null | Percent => True
  end.
Definition piece_fmt (p : piece) : list Z :=
  match p with
  | Lit c => [c]
  | Dec _ => [37; 100]
  | Hex _ => [37; 120]
  | Str _ | Null => [37; 115]
  | Chr _ => [37; 99]
  | Percent => [37; 37]
  end.
Definition piece_args (p : piece) : list carg :=
  match p with
  | Dec x | Hex x | Chr x => [AInt x]
  | Str s => [AStr (Some s)]
  | Null => [AStr None]
  | Lit _ | Percent => []
  end.

(** What a reader makes of a digit. *)
Definition digit_val (c : Z) : Z := if c <? 58 then c - 48 else c - 55.
Definition num_val (base : Z) (l : list Z) : Z := foldl (fun a c => base * a + digit_val c) 0 l.
(** The digits of a number, without leading zeros. *)
Definition numeral (base x : Z) (l : list Z) : Prop :=
  num_val base l = x /\ l <> [] /\ Forall (fun c => c ∈ udigits /\ 0 <= digit_val c < base) l /\ (head l = Some 48 -> x = 0).

Definition piece_text (p : piece) (t : list Z) : Prop :=
  match p with
  | Lit c | Chr c => t = [c]
  | Dec x => exists l, numeral 10 (Z.abs x) l /\ t = (if x <? 0 then [45] else []) ++ l
  | Hex x => numeral 16 x t
  | Str s => t = s
  | Null => t = [40; 110; 117; 108; 108; 41]
  | Percent => t = [37]
  end.
Inductive texts : list piece -> list Z -> Prop :=
| texts_nil : texts [] []
| texts_cons p ps t t' : piece_text p t -> texts ps t' -> texts (p :: ps) (t ++ t').

(** ** Numbers *)

Definition udigit (d : Z) : Z := default 0 (udigits !! Z.to_nat d).
Lemma uint_digits_digs fuel x base : uint_digits fuel x base = udigit <$> digs fuel x base.
Proof.
  revert x. induction fuel as [|fuel IH]; intros x; cbn [uint_digits digs]; [done|].
  destruct (x / base =? 0); [done|]. by rewrite IH.
Qed.
Lemma udigit_val d : 0 <= d < 16 -> digit_val (udigit d) = d /\ udigit d ∈ udigits /\ (udigit d = 48 -> d = 0).
Proof.
  intros Hd. assert (Hall : Forall (fun d => digit_val (udigit d) = d /\ udigit d ∈ udigits /\ (udigit d = 48 -> d = 0)) (seqZ 0 16)).
  { apply (bool_decide_unpack _). by vm_compute. }
  rewrite Forall_forall in Hall. apply Hall, elem_of_seqZ. lia.
Qed.

Lemma num_val_rev base l :
  base <= 16 -> Forall (fun d => 0 <= d < base) l -> num_val base (rev (udigit <$> l)) = digs_val base l.
Proof.
  intros Hb Hl. unfold num_val. induction Hl as [|d l Hd Hl IH]; [done|].
  cbn [fmap list_fmap rev]. rewrite foldl_app, IH. cbn [foldl digs_val foldr].
  destruct (udigit_val d) as [-> _]; [lia|]. unfold digs_val. lia.
Qed.

(** The last digit is not zero. *)
Lemma digs_last fuel x base :
  2 <= base -> 0 <= x < base ^ (Z.of_nat fuel + 1) -> last (digs fuel x base) = Some 0 -> x = 0.
Proof.
  intros Hb. revert x. induction fuel as [|fuel IH]; intros x Hx; cbn [digs].
  - change (Z.of_nat 0 + 1) with 1 in Hx. rewrite Z.pow_1_r in Hx. rewrite Z.mod_small by lia. by intros [= ->].
  - pose proof (Z.div_mod x base ltac:(lia)) as Hd.
    destruct (Z.eqb_spec (x / base) 0) as [E|E]; [intros [= E']; rewrite E, E' in Hd; lia|].
    intros Hl. destruct (digs fuel (x / base) base) as [|d l] eqn:Ed; [by destruct fuel|]. rewrite <- Ed in Hl.
    assert (Hl' : last (digs fuel (x / base) base) = Some 0) by (rewrite Ed in *; exact Hl).
    destruct E. apply IH; [|done]. split; [apply Z.div_pos; lia|]. apply Z.div_lt_upper_bound; [lia|].
    replace (Z.of_nat (S fuel) + 1) with (Z.succ (Z.of_nat fuel + 1)) in Hx by lia. rewrite Z.pow_succ_r in Hx by lia. lia.
Qed.

Lemma digs_numeral base x :
  2 <= base <= 16 -> 0 <= x < 2 ^ 32 -> numeral base x (rev (udigit <$> digs 31 x base)).
Proof.
  intros Hb Hx. assert (Hx' : 0 <= x < base ^ (Z.of_nat 31 + 1)).
  { assert (2 ^ 32 <= base ^ 32) by (apply Z.pow_le_mono_l; lia). change (Z.of_nat 31 + 1) with 32. lia. }
  destruct (digs_spec 31 x base ltac:(lia) Hx') as [Hv Hd]. split_and!.
  - rewrite num_val_rev by (done || lia). done.
  - intros E. apply (f_equal length) in E. by rewrite length_rev, length_fmap in E.
  - apply Forall_rev, Forall_fmap. eapply Forall_impl; [exact Hd|]. cbv beta. intros d Hd'. cbn.
    destruct (udigit_val d) as (-> & ? & _); [lia|]. by split.
  - intros Hh. apply (digs_last 31 x base); [lia|done|]. rewrite rev_alt in Hh.
    change (rev_append ?l []) with (reverse l) in Hh. rewrite head_reverse, fmap_last in Hh.
    destruct (last (digs 31 x base)) as [d|] eqn:El; [|done]. cbn in Hh. injection Hh as Hh. f_equal.
    apply udigit_val; [|done]. apply last_Some_elem_of in El. rewrite Forall_forall in Hd. specialize (Hd d El). lia.
Qed.

(** Number of digits: the numbers of [printf] fit its buffer. *)
Lemma uprintint_fits x base sgn : base = 10 \/ base = 16 -> -2 ^ 31 <= x < 2 ^ 32 -> (length (uprintint_buf x base sgn) <= 11)%nat.
Proof.
  intros Hb Hx. unfold uprintint_buf. set (y := if sgn && (x <? 0) then u32 (- x) else u32 x).
  assert (Hy : 0 <= y < base ^ Z.of_nat 10).
  { assert (0 <= y < 2 ^ 32) by (unfold y, u32; destruct (_ && _); apply Z.mod_pos_bound; lia).
    assert (2 ^ 32 <= base ^ Z.of_nat 10) by (by destruct Hb as [->| ->]). lia. }
  pose proof (digs_length_le 31 y base 9 ltac:(lia) Hy). rewrite uint_digits_digs, length_app, length_fmap.
  destruct (_ && _); cbn [length]; lia.
Qed.

(** ** The output *)

Section output.
Context {W : Type} `{UserSysSpec W} (fd : Z) (rep : list Z -> uview).

(** [fd] is at the end of a file, which the writes extend. *)
Definition appends : Prop := forall w dt l, us_rep w (rep dt) ->
  wp (us_write fd l) (fun _ w' => us_rep w' (rep (dt ++ l))) w.
Context (Happ : appends).

Lemma uputc_spec w dt c : 0 <= c < 256 -> us_rep w (rep dt) -> wp (uputc fd c) (fun _ w' => us_rep w' (rep (dt ++ [c]))) w.
Proof using Happ.
  intros Hc Hw. unfold uputc. rewrite u8_small by lia. eapply wp_seq; [by apply Happ|]. intros r w' Hw'. by apply wp_ret.
Qed.
Lemma uputs_spec l : forall w dt, bytes_ok l -> us_rep w (rep dt) -> wp (uputs fd l) (fun _ w' => us_rep w' (rep (dt ++ l))) w.
Proof using Happ.
  induction l as [|c l IH]; intros w dt Hl Hw; cbn [uputs foldr]; [apply wp_ret; by rewrite app_nil_r|].
  apply Forall_cons in Hl as [Hc Hl]. eapply wp_seq; [by apply uputc_spec|]. intros ? w1 Hw1.
  eapply wp_mono; [exact (IH w1 (dt ++ [c]) Hl Hw1)|]. cbn beta. intros ? w' Hw'. by rewrite <- app_assoc in Hw'.
Qed.

Lemma udigit_byte d : bytes_ok [udigit d].
Proof using Type.
  constructor; [|constructor]. unfold udigit. destruct (udigits !! Z.to_nat d) as [c|] eqn:E; cbn; [|lia].
  assert (Hall : bytes_ok udigits) by (apply (bool_decide_unpack _); by vm_compute). by eapply Forall_lookup_1 in Hall.
Qed.

Lemma uprintint_spec w dt x base sgn :
  base = 10 \/ base = 16 -> -2 ^ 31 <= x < 2 ^ 32 -> us_rep w (rep dt) ->
  wp (uprintint fd x base sgn) (fun _ w' => us_rep w' (rep (dt ++ rev (uprintint_buf x base sgn)))) w.
Proof using Happ.
  intros Hb Hx Hw. pose proof (uprintint_fits x base sgn Hb Hx). unfold uprintint.
  destruct (Nat.ltb_spec 16 (length (uprintint_buf x base sgn))); [lia|]. apply uputs_spec; [|done].
  apply Forall_rev. unfold uprintint_buf. rewrite uint_digits_digs. apply Forall_app. split.
  - apply Forall_fmap, Forall_true. intros d. cbn. by apply (Forall_inv (udigit_byte d)).
  - destruct (_ && _); repeat constructor; lia.
Qed.

(** One piece. *)
Lemma piece_spec p fmt args w dt Q :
  piece_ok p -> us_rep w (rep dt) ->
  (forall t w', piece_text p t -> us_rep w' (rep (dt ++ t)) -> wp (vprintf fd false fmt args) Q w') ->
  wp (vprintf fd false (piece_fmt p ++ fmt) (piece_args p ++ args)) Q w.
Proof using Happ.
  intros Hp Hw HQ. destruct p as [c|x|x|s| |c|]; cbn [piece_fmt piece_args app vprintf piece_ok] in *; cbn [Z.eqb negb orb Pos.eqb].
  - destruct Hp as [Hc H37]. rewrite (proj2 (Z.eqb_neq c 0)), (proj2 (Z.eqb_neq c 37)) by lia.
    eapply wp_seq; [apply uputc_spec; [lia|done]|]. intros ? w' Hw'. by eapply HQ.
  - rewrite s32_small by lia. eapply wp_seq; [apply uprintint_spec; [by left|lia|done]|]. intros ? w' Hw'. eapply HQ; [|exact Hw'].
    exists (rev (udigit <$> digs 31 (Z.abs x) 10)). split; [apply digs_numeral; lia|].
    unfold uprintint_buf. cbn [andb]. rewrite uint_digits_digs, rev_app_distr.
    replace (if x <? 0 then u32 (- x) else u32 x) with (Z.abs x); [by destruct (x <? 0)|].
    destruct (Z.ltb_spec x 0); rewrite u32_small by lia; lia.
  - eapply wp_seq; [apply uprintint_spec; [by right| |done]|].
    { pose proof (s32_range x). lia. }
    intros ? w' Hw'. eapply HQ; [|exact Hw']. unfold uprintint_buf. cbn [andb]. rewrite uint_digits_digs, app_nil_r.
    replace (u32 (s32 x)) with x by (unfold u32, s32; Z.to_euclidean_division_equations; lia). apply digs_numeral; lia.
  - eapply wp_seq; [apply (uputs_spec (cstr s)); [|done]|].
    { rewrite cstr_id by done. eapply Forall_impl; [exact Hp|]. cbn. lia. }
    intros ? w' Hw'. eapply HQ; [|exact Hw']. by apply cstr_id.
  - eapply wp_seq; [apply uputs_spec; [repeat constructor; lia|done]|]. intros ? w' Hw'. by eapply HQ.
  - eapply wp_seq; [by apply uputc_spec|]. intros ? w' Hw'. by eapply HQ.
  - eapply wp_seq; [by apply uputc_spec|]. intros ? w' Hw'. by eapply HQ.
Qed.

Lemma vprintf_spec ps : forall w dt, Forall piece_ok ps -> us_rep w (rep dt) ->
  wp (vprintf fd false (ps ≫= piece_fmt) (ps ≫= piece_args)) (fun _ w' => exists t, texts ps t /\ us_rep w' (rep (dt ++ t))) w.
Proof using Happ.
  induction ps as [|p ps IH]; intros w dt Hps Hw.
  { apply wp_ret. exists []. rewrite app_nil_r. split; [constructor|done]. }
  apply Forall_cons in Hps as [Hp Hps]. apply piece_spec with (dt := dt); [done|done|]. intros t w1 Ht Hw1.
  eapply wp_mono; [by apply IH|]. cbn beta. intros _ w' (t' & Ht' & Hw'). exists (t ++ t').
  rewrite app_assoc. split; [by constructor|done].
Qed.
End output.
