(* ===== verification/Uprogs.v ===== *)
(** * Small user programs

    [user/wc.c], [user/cat.c], [user/echo.c] and [user/chmod.c], over the
    interface of the system calls; [chmod] also needs [stat] and [chmod].
    A program is its [main] with the arguments after its name. *)

From S2P Require Import Prelude CString Layout Fs Console UserSys UfileSpec Uprintf.

Definition UBUF : Z := 512.

Section programs.
Context {W : Type} `{UserSys W}.

(** ** wc *)

(** [l], [w], [c] and [inword]. *)
Record counts := Counts { n_lines : Z; n_words : Z; n_chars : Z; n_inword : bool }.

Definition wc_char (k : counts) (b : Z) : counts :=
  let c := n_chars k + 1 in
  let l := if b =? 10 then n_lines k + 1 else n_lines k in
  match strchr [32; 13; 9; 10; 11] b with
  | Some _ => Counts l (n_words k) c false
  | None => if n_inword k then Counts l (n_words k) c true else Counts l (n_words k + 1) c true
  end.

(** The last result of [read] and the counts. *)
Fixpoint wc_loop (fuel : nat) (fd : Z) (k : counts) : M W (Z * counts) :=
  match fuel with
  | O => fault "fuel"
  | S fuel =>
      let* (n, buf) := us_read fd UBUF in
      if 0 <? n then wc_loop fuel fd (foldl wc_char k buf) else ret (n, k)
  end.

(** [false]: the program exits. *)
Definition wc (fuel : nat) (fd : Z) (name : list Z) : M W bool :=
  let* (n, k) := wc_loop fuel fd (Counts 0 0 0 false) in
  if n <? 0 then do* printf (str "wc: read error" ++ [10]) [] in ret false
  else
    do* printf (str "%d %d %d %s" ++ [10]) [AInt (n_lines k); AInt (n_words k); AInt (n_chars k); AStr (Some name)] in
    ret true.

Fixpoint wc_files (fuel : nat) (argv : list (list Z)) : M W unit :=
  match argv with
  | [] => ret tt
  | arg :: argv =>
      let* fd := us_open arg u_RDONLY in
      if fd <? 0 then printf (str "wc: cannot open %s" ++ [10]) [AStr (Some arg)] else
      let* go := wc fuel fd arg in
      if negb go then ret tt else
      do* us_close fd in
      wc_files fuel argv
  end.
Definition wc_main (fuel : nat) (argv : list (list Z)) : M W unit :=
  match argv with
  | [] => do* wc fuel 0 [] in ret tt
  | _ => wc_files fuel argv
  end.

(** ** cat *)

(** [false]: the program exits. *)
Fixpoint cat (fuel : nat) (fd : Z) : M W bool :=
  match fuel with
  | O => fault "fuel"
  | S fuel =>
      let* (n, buf) := us_read fd UBUF in
      if 0 <? n then
        let* r := us_write 1 buf in
        if negb (r =? n) then do* printf (str "cat: write error" ++ [10]) [] in ret false
        else cat fuel fd
      else if n <? 0 then do* printf (str "cat: read error" ++ [10]) [] in ret false
      else ret true
  end.

Fixpoint cat_files (fuel : nat) (argv : list (list Z)) : M W unit :=
  match argv with
  | [] => ret tt
  | arg :: argv =>
      let* fd := us_open arg u_RDONLY in
      if fd <? 0 then printf (str "cat: cannot open %s" ++ [10]) [AStr (Some arg)] else
      let* go := cat fuel fd in
      if negb go then ret tt else
      do* us_close fd in
      cat_files fuel argv
  end.
Definition cat_main (fuel : nat) (argv : list (list Z)) : M W unit :=
  match argv with
  | [] => do* cat fuel 0 in ret tt
  | _ => cat_files fuel argv
  end.

(** ** echo *)

Fixpoint echo_main (argv : list (list Z)) : M W unit :=
  match argv with
  | [] => ret tt
  | arg :: argv =>
      do* printf (str "%s%s") [AStr (Some arg); AStr (Some (match argv with [] => [10] | _ => [32] end))] in
      echo_main argv
  end.
End programs.

(** ** chmod *)

(** [stat] gives the letters of the mode. *)
Class UserMode (W : Type) := {
  um_stat : list Z -> M W (option (list Z));
  um_chmod : list Z -> Z -> M W Z }.

Definition char_at (i : nat) (s : list Z) : Z := chr (drop i s).

(** [None]: a message, and the program exits. *)
Definition preparemode (mode_fmt : list Z) : option Z :=
  let who := char_at 0 mode_fmt in
  let op := char_at 1 mode_fmt in
  let what := char_at 2 mode_fmt in
  let mode :=
    if what =? 115 then Some (Z.shiftl 1 9)
    else
      let mode :=
        if what =? 119 then Some (Z.shiftl 1 1)
        else if what =? 114 then Some (Z.shiftl 1 2)
        else if what =? 120 then Some 1 else None in
      match mode with
      | None => None
      | Some mode =>
          if who =? 117 then Some (Z.shiftl mode 6)
          else if who =? 103 then Some (Z.shiftl mode 3)
          else if who =? 97 then Some (Z.lor (Z.lor mode (Z.shiftl mode 3)) (Z.shiftl mode 6))
          else if who =? 111 then Some mode else None
      end in
  match mode with
  | None => None
  | Some mode => if op =? 45 then Some (Z.lnot mode) else if op =? 43 then Some mode else None
  end.

(** The loop of [chmod2]. *)
Definition parsemode (letters : list Z) : Z :=
  foldl (fun mode (j : nat) => if negb (char_at j letters =? 45) then Z.lor mode (Z.shiftl 1 (9 - Z.of_nat j)) else mode) 0 (seq 1 9).

Definition changed_mode (letters : list Z) (addedMode : Z) (removeflag : bool) : Z :=
  let mode := parsemode letters in
  if removeflag then Z.land mode addedMode else Z.lor mode addedMode.

Section chmod.
Context {W : Type} `{UserSys W} `{UserMode W}.

Definition chmod1 (file : list Z) (mode : Z) : M W unit :=
  let* r := um_chmod file mode in
  when r <? 0 then printf (str "Couldn't change permissions of %s" ++ [10]) [AStr (Some file)].

Definition chmod2 (file : list Z) (addedMode : Z) (removeflag : bool) : M W unit :=
  let* st := um_stat file in
  match st with
  | None => printf (str "Cannot stat %s" ++ [10]) [AStr (Some file)]
  | Some letters =>
      let* r := um_chmod file (changed_mode letters addedMode removeflag) in
      when r <? 0 then printf (str "Couldn't change permissions of %s" ++ [10]) [AStr (Some file)]
  end.

(** Every file is opened, and not closed. *)
Fixpoint chmod_try (files : list (list Z)) : M W bool :=
  match files with
  | [] => ret true
  | file :: files =>
      let* fd := us_open file u_RDONLY in
      if fd <? 0 then do* printf (str "File %s is invalid or unreadable." ++ [10]) [AStr (Some file)] in ret false
      else chmod_try files
  end.
Fixpoint chmod_all (act : list Z -> M W unit) (files : list (list Z)) : M W unit :=
  match files with
  | [] => ret tt
  | file :: files => do* act file in chmod_all act files
  end.

Definition chmod_main (argv : list (list Z)) : M W unit :=
  match argv with
  | how :: files =>
      match files with
      | [] => printf (str "usage: chmod mode/mode_fmt file...") []
      | _ =>
          let numeric := (48 <=? char_at 0 how) && (char_at 0 how <=? 57) in
          let mode := if numeric then Some (atoi how) else preparemode how in
          match mode with
          | None => printf (str "Invalid format." ++ [10]) []
          | Some mode =>
              let* ok := chmod_try files in
              if negb ok then ret tt else
              chmod_all (fun file => if numeric then chmod1 file mode else chmod2 file mode (char_at 1 how =? 45)) files
          end
      end
  | [] => printf (str "usage: chmod mode/mode_fmt file...") []
  end.
End chmod.
