(* ===== verification/UprogsSpec.v ===== *)
(** * What the small programs do

    [wc] prints the numbers of lines, words and characters, [cat] copies and
    [echo] joins its arguments, whatever the sizes of the reads; [chmod] sets
    or clears the bits its argument names, and loses the set-user bit. *)

From S2P Require Import Prelude CString Layout Fs Console ConsoleSpec UserSys UfileSpec Uprintf Uprogs.

(** ** wc *)

Definition blank (b : Z) : bool := bool_decide (b ∈ [32; 13; 9; 10; 11]).

(** The places where a word starts: no blank there, and none before it but a
    blank or the start of the file. *)
Definition starts_word (d : list Z) (i : nat) : bool :=
  match d !! i with
  | Some b => negb (blank b) && match i with O => true | S j => match d !! j with Some b => blank b | None => false end end
  | None => false
  end.
Definition words (d : list Z) : nat := length (filter (fun i => starts_word d i = true) (seq 0 (length d))).
Definition newlines (d : list Z) : nat := length (filter (fun b => b = 10) d).

Lemma strchr_in l b : 0 ∉ l -> match strchr l b with Some _ => b ∈ l | None => b ∉ l end.
Proof.
  induction l as [|x l IH]; intros Hz; cbn; [apply not_elem_of_nil|]. apply not_elem_of_cons in Hz as [Hx Hz].
  rewrite (proj2 (Z.eqb_neq x 0)) by done. destruct (Z.eqb_spec x b) as [->|Hne]; [by left|].
  specialize (IH Hz). destruct (strchr l b); cbn; [by right|]. apply not_elem_of_cons. by split.
Qed.
Lemma strchr_blank b : match strchr [32; 13; 9; 10; 11] b with Some _ => blank b = true | None => blank b = false end.
Proof.
  pose proof (strchr_in [32; 13; 9; 10; 11] b) as H. unfold blank.
  destruct (strchr _ b); [apply bool_decide_eq_true_2|apply bool_decide_eq_false_2]; apply H; apply (bool_decide_unpack _); by vm_compute.
Qed.

Lemma filter_ext_in {A} (P Q : A -> Prop) `{forall x, Decision (P x)} `{forall x, Decision (Q x)} (l : list A) :
  (forall x, x ∈ l -> P x <-> Q x) -> filter P l = filter Q l.
Proof.
  induction l as [|x l IH]; intros HPQ; [done|]. rewrite !filter_cons, IH by (intros y Hy; apply HPQ; by right).
  pose proof (HPQ x ltac:(by left)). repeat case_decide; naive_solver.
Qed.

Lemma words_snoc d b : words (d ++ [b]) = (words d + if starts_word (d ++ [b]) (length d) then 1 else 0)%nat.
Proof.
  unfold words. rewrite length_app. cbn [length]. rewrite seq_app, filter_app, length_app. cbn [seq plus]. f_equal.
  - f_equal. apply filter_ext_in. intros i [_ Hi]%elem_of_seq. unfold starts_word. rewrite !lookup_app_l by lia.
    destruct i as [|j]; [done|]. by rewrite lookup_app_l by lia.
  - rewrite filter_cons. destruct (starts_word _ _) eqn:E; [by rewrite decide_True|]. by rewrite decide_False.
Qed.
Lemma newlines_snoc d b : newlines (d ++ [b]) = (newlines d + if decide (b = 10%Z) then 1 else 0)%nat.
Proof. unfold newlines. rewrite filter_app, length_app, filter_cons. by case_decide. Qed.

Definition in_word (d : list Z) : bool := match last d with Some b => negb (blank b) | None => false end.
Definition counts_of (d : list Z) : counts := Counts (Z.of_nat (newlines d)) (Z.of_nat (words d)) (Z.of_nat (length d)) (in_word d).

Lemma starts_word_last d b : starts_word (d ++ [b]) (length d) = negb (blank b) && negb (in_word d).
Proof.
  unfold starts_word, in_word. rewrite list_lookup_middle by done. f_equal. destruct d as [|x d _] using rev_ind; [done|].
  rewrite last_snoc. rewrite (length_app d). cbn [length]. rewrite Nat.add_1_r. cbv iota beta. rewrite <- app_assoc. cbn [app]. rewrite list_lookup_middle by done. by rewrite negb_involutive.
Qed.

Lemma wc_char_counts d b : wc_char (counts_of d) b = counts_of (d ++ [b]).
Proof.
  unfold wc_char, counts_of. cbn [n_lines n_words n_chars n_inword].
  rewrite words_snoc, newlines_snoc, starts_word_last, length_app. unfold in_word at 3. rewrite last_snoc. cbn [length].
  pose proof (strchr_blank b) as Hb. destruct (strchr _ b); rewrite Hb; cbn [negb andb];
    (destruct (Z.eqb_spec b 10), (decide (b = 10)); try done);
    destruct (in_word d); cbn [negb]; f_equal; lia.
Qed.
Lemma wc_counts d l : foldl wc_char (counts_of d) l = counts_of (d ++ l).
Proof.
  revert d. induction l as [|b l IH]; intros d; [by rewrite app_nil_r|]. cbn [foldl]. rewrite wc_char_counts, IH.
  by rewrite <- app_assoc.
Qed.

(** ** Reading and writing *)

Section copy.
Context {W : Type} `{UserSysSpec W} (v : uview) (s : Z) (fs ft : nat) (ds : list Z).
Context (Hst : s <> 1) (Hf : fs <> ft) (Hds : uv_data v !! fs = Some ds).
Abbreviation rep os dt := (cp_view v s fs os 1 ft (Z.of_nat (length dt)) dt).

Lemma cp_appends os : appends 1 (fun dt => rep os dt).
Proof using Hst.
  clear Hf Hds. intros w dt l Hw.
  eapply wp_mono; [apply (us_write_spec w _ 1 ft (Z.of_nat (length dt)) dt l Hw (cp_t _ _ _ _ _ Hst _ _ _) (cp_dt _ _ _ _ _ _ _ _)); lia|].
  intros r w' [_ Hw']. rewrite (cp_store v s fs 1 ft), (cp_seek_t v s fs 1 ft Hst) in Hw'.
  rewrite Nat2Z.id, take_ge, drop_ge, app_nil_r in Hw' by lia. by rewrite length_app, Nat2Z.inj_add.
Qed.

Lemma cp_read_le w os dt k :
  us_rep w (rep os dt) -> 0 <= os <= Z.of_nat (length ds) -> 0 < k ->
  wp (us_read s k) (fun '(n, buf) w' => n = Z.of_nat (length buf) /\ us_rep w' (rep (os + n) dt) /\
    0 <= os + n <= Z.of_nat (length ds) /\ buf ++ drop (Z.to_nat (os + n)) ds = drop (Z.to_nat os) ds /\
    (buf = [] -> drop (Z.to_nat os) ds = [])) w.
Proof using Hf Hds.
  clear Hst. intros Hw Ho Hk.
  eapply wp_mono; [apply (us_read_spec w _ s fs os ds k Hw (cp_s _ _ _ _ _ _ _ _) (cp_ds _ _ _ _ _ _ Hf Hds _ _ _)); lia|].
  intros [n buf] w'. rewrite (proj2 (Z.leb_le os _)) by lia. intros (El & -> & Hw'). rewrite (cp_seek_s v s fs 1 ft) in Hw'.
  assert (Hlen : length buf = Nat.min (Z.to_nat k) (length ds - Z.to_nat os)) by (subst buf; unfold bytes_at; rewrite length_take, length_drop; lia).
  split_and!; [done|done|lia|lia| |].
  - replace (Z.to_nat (os + Z.of_nat (length buf))) with (Z.to_nat os + length buf)%nat by lia. subst buf. apply bytes_at_rest.
  - intros ->. cbn in Hlen. apply drop_ge. lia.
Qed.

Lemma wc_loop_spec fuel : forall w os dt k,
  us_rep w (rep os dt) -> 0 <= os <= Z.of_nat (length ds) -> (length (drop (Z.to_nat os) ds) < fuel)%nat ->
  wp (wc_loop fuel s k) (fun '(n, k') w' => n = 0 /\ k' = foldl wc_char k (drop (Z.to_nat os) ds) /\ exists os', us_rep w' (rep os' dt)) w.
Proof using Hf Hds.
  clear Hst. induction fuel as [|fuel IH]; intros w os dt k Hw Ho Hfuel; [lia|]. cbn [wc_loop].
  eapply wp_seq; [apply (cp_read_le w os dt UBUF Hw Ho); done|]. intros [n buf] w1 (-> & Hw1 & Ho1 & E & Hend).
  destruct (Z.ltb_spec 0 (Z.of_nat (length buf))) as [Hlt|Hge].
  - assert (length (drop (Z.to_nat (os + Z.of_nat (length buf))) ds) < fuel)%nat.
    { apply (f_equal length) in E. rewrite length_app in E. lia. }
    eapply wp_mono; [by apply IH|]. intros [n' k'] w2 (-> & -> & Hw2). by rewrite <- E, foldl_app.
  - apply wp_ret. assert (buf = []) as -> by (apply nil_length_inv; lia). rewrite (Hend eq_refl). split_and!; [done|done|by eexists].
Qed.

Lemma cat_spec fuel : forall w os dt,
  us_rep w (rep os dt) -> 0 <= os <= Z.of_nat (length ds) -> (length (drop (Z.to_nat os) ds) < fuel)%nat ->
  wp (cat fuel s) (fun r w' => r = true /\ exists os', us_rep w' (rep os' (dt ++ drop (Z.to_nat os) ds))) w.
Proof using Hf Hds Hst.
  induction fuel as [|fuel IH]; intros w os dt Hw Ho Hfuel; [lia|]. cbn [cat].
  eapply wp_seq; [apply (cp_read_le w os dt UBUF Hw Ho); done|]. intros [n buf] w1 (-> & Hw1 & Ho1 & E & Hend).
  destruct (Z.ltb_spec 0 (Z.of_nat (length buf))) as [Hlt|Hge].
  - assert (length (drop (Z.to_nat (os + Z.of_nat (length buf))) ds) < fuel)%nat.
    { apply (f_equal length) in E. rewrite length_app in E. lia. }
    eapply wp_seq; [apply (us_write_spec w1 _ 1 ft (Z.of_nat (length dt)) dt buf Hw1 (cp_t _ _ _ _ _ Hst _ _ _) (cp_dt _ _ _ _ _ _ _ _)); lia|].
    intros r w2 [-> Hw2]. rewrite Z.eqb_refl. cbn [negb].
    rewrite (cp_store v s fs 1 ft), (cp_seek_t v s fs 1 ft Hst) in Hw2.
    rewrite Nat2Z.id, take_ge, drop_ge, app_nil_r in Hw2 by lia. rewrite <- Nat2Z.inj_add, <- length_app in Hw2.
    eapply wp_mono; [by apply (IH w2 _ _ Hw2)|]. cbn beta. intros r w3 (-> & os' & Hw3). rewrite <- app_assoc, E in Hw3. eauto.
  - assert (buf = []) as -> by (apply nil_length_inv; lia). apply wp_ret. split; [done|]. exists os.
    rewrite (Hend eq_refl), app_nil_r. cbn in Hw1. by rewrite Z.add_0_r in Hw1.
Qed.
End copy.

(** The states before and after a program that reads [fd] and appends to the
    standard output. *)
Lemma as_copy v fd f fo out :
  uv_fd v !! fd = Some (f, 0) -> uv_fd v !! 1 = Some (fo, Z.of_nat (length out)) -> uv_data v !! fo = Some out ->
  v = cp_view v fd f 0 1 fo (Z.of_nat (length out)) out.
Proof.
  intros E E1 Eo. unfold cp_view, uv_set_fd, uv_store. destruct v as [nm dat fds may uid euid dirs]. cbn in *.
  rewrite !insert_id; try done. by rewrite insert_id.
Qed.

(** [wc] counts: on a file open at its start it appends to the standard output
    one line with the number of newlines, of words and of bytes of the file and
    its name; a word is what starts at a byte that is no blank and has no byte
    or a blank before it. *)
Theorem wc_correct {W} `{UserSysSpec W} (w : W) (v : uview) fd f fo d out fname fuel :
  us_rep w v -> fd <> 1 -> f <> fo ->
  uv_fd v !! fd = Some (f, 0) -> uv_data v !! f = Some d ->
  uv_fd v !! 1 = Some (fo, Z.of_nat (length out)) -> uv_data v !! fo = Some out ->
  Z.of_nat (length d) < 2 ^ 31 -> Forall (fun c => 0 < c < 256) fname -> (length d < fuel)%nat ->
  wp (wc fuel fd fname) (fun r w' => r = true /\ exists v' t, us_rep w' v' /\
    texts [Dec (Z.of_nat (newlines d)); Lit 32; Dec (Z.of_nat (words d)); Lit 32; Dec (Z.of_nat (length d)); Lit 32; Str fname; Lit 10] t /\
    uv_name v' = uv_name v /\ uv_data v' = <[fo := out ++ t]> (uv_data v)) w.
Proof.
  intros Hw Hfd Hf Efd Ed E1 Eo Hlen Hname Hfuel. rewrite (as_copy v fd f fo out Efd E1 Eo) in Hw. unfold wc.
  eapply wp_seq; [apply (wc_loop_spec v fd f fo d Hf Ed fuel w 0 out (Counts 0 0 0 false) Hw); [lia|done]|].
  intros [n k] w1 (-> & -> & os & Hw1). rewrite drop_0. change (Counts 0 0 0 false) with (counts_of []). rewrite wc_counts.
  cbn [app counts_of n_lines n_words n_chars Z.ltb Z.compare].
  assert (Hn : (newlines d <= length d)%nat) by apply length_filter.
  assert (Hwd : (words d <= length d)%nat) by (unfold words; rewrite length_filter, length_seq; done).
  eapply wp_seq; [apply (vprintf_spec 1 _ (cp_appends v fd f fo Hfd os)
    [Dec (Z.of_nat (newlines d)); Lit 32; Dec (Z.of_nat (words d)); Lit 32; Dec (Z.of_nat (length d)); Lit 32; Str fname; Lit 10] w1 out)|].
  - repeat constructor; cbn; try lia; done.
  - exact Hw1.
  - intros _ w2 (t & Ht & Hw2). apply wp_ret. split; [done|]. eexists _, t. by split_and!.
Qed.

(** [cat] copies: it appends the whole file to the standard output. *)
Theorem cat_correct {W} `{UserSysSpec W} (w : W) (v : uview) fd f fo d out fuel :
  us_rep w v -> fd <> 1 -> f <> fo ->
  uv_fd v !! fd = Some (f, 0) -> uv_data v !! f = Some d ->
  uv_fd v !! 1 = Some (fo, Z.of_nat (length out)) -> uv_data v !! fo = Some out -> (length d < fuel)%nat ->
  wp (cat fuel fd) (fun r w' => r = true /\ exists v', us_rep w' v' /\
    uv_name v' = uv_name v /\ uv_data v' = <[fo := out ++ d]> (uv_data v)) w.
Proof.
  intros Hw Hfd Hf Efd Ed E1 Eo Hfuel. rewrite (as_copy v fd f fo out Efd E1 Eo) in Hw.
  eapply wp_mono; [apply (cat_spec v fd f fo d Hfd Hf Ed fuel w 0 out Hw); [lia|done]|].
  cbn beta. intros r w' (-> & os & Hw'). split; [done|]. eexists. by split_and!.
Qed.

(** ** chmod *)

Lemma bits_fold (f : nat -> bool) l : forall acc i, 0 <= i -> Forall (fun j => (j <= 9)%nat) l ->
  Z.testbit (foldl (fun mode (j : nat) => if f j then Z.lor mode (Z.shiftl 1 (9 - Z.of_nat j)) else mode) acc l) i =
  Z.testbit acc i || existsb (fun j => f j && (9 - Z.of_nat j =? i)) l.
Proof.
  induction l as [|j l IH]; intros acc i Hi Hl; cbn [foldl existsb]; [by rewrite orb_false_r|].
  apply Forall_cons in Hl as [Hj Hl]. rewrite IH by done. destruct (f j); cbn [andb orb]; [|done].
  rewrite Z.lor_spec, Z.shiftl_1_l, Z.pow2_bits_eqb by lia. by rewrite orb_assoc.
Qed.

(** The letters of [stat], read back, are the nine permission bits. *)
Lemma parsemode_letters d i : 0 <= i ->
  Z.testbit (parsemode (mode_string d)) i = (i <? 9) && Z.testbit (d_mode d) i.
Proof.
  intros Hi. unfold parsemode. rewrite bits_fold; [|done|apply (bool_decide_unpack _); by vm_compute].
  rewrite Z.bits_0. cbn [orb].
  assert (Hbit : forall k, 0 <= k -> truth (Z.land (d_mode d) (2 ^ k)) = Z.testbit (d_mode d) k).
  { intros k Hk. destruct (Z.testbit (d_mode d) k) eqn:E.
    - apply truth_true. intros E'. apply (f_equal (fun z => Z.testbit z k)) in E'.
      by rewrite Z.land_spec, E, Z.pow2_bits_true, Z.bits_0 in E' by lia.
    - apply truth_false, Z.bits_inj'. intros n Hn. rewrite Z.land_spec, Z.pow2_bits_eqb, Z.bits_0 by lia.
      destruct (Z.eqb_spec k n) as [<-|]; [by rewrite E|apply andb_false_r]. }
  assert (Hlet : forall j : nat, (1 <= j <= 9)%nat -> negb (char_at j (mode_string d) =? 45) = Z.testbit (d_mode d) (9 - Z.of_nat j)).
  { intros j Hj. rewrite <- Hbit by lia. destruct j as [|j]; [lia|].
    do 9 (destruct j as [|j]; [cbn -[Z.land truth]; destruct (truth _); done|]). lia. }
  destruct (Z.ltb_spec i 9) as [Hlt|Hge]; cbn [andb].
  - assert (Hc : i = 0 \/ i = 1 \/ i = 2 \/ i = 3 \/ i = 4 \/ i = 5 \/ i = 6 \/ i = 7 \/ i = 8) by lia.
    assert (Hl : forall j, j ∈ seq 1 9 -> (1 <= j <= 9)%nat) by (intros j Hj%elem_of_seq; lia).
    cbn [seq existsb]. rewrite !Hlet by lia.
    repeat destruct Hc as [->|Hc]; [..|subst]; cbn -[Z.testbit];
      rewrite ?andb_false_r, ?andb_true_r, ?orb_false_r; done.
  - cbn [seq existsb]. rewrite !(proj2 (Z.eqb_neq _ i)) by lia. by rewrite !andb_false_r.
Qed.

(** The symbolic modes: [s] is the set-user bit, whatever the first letter. *)
Definition symbolic (who op what : Z) : Prop :=
  ~ 48 <= who <= 57 /\ op ∈ [43; 45] /\ (what = 115 \/ what ∈ [114; 119; 120] /\ who ∈ [117; 103; 111; 97]).

(** The bits a symbolic mode names. *)
Definition who_shifts (who : Z) : list Z :=
  if who =? 117 then [6] else if who =? 103 then [3] else if who =? 111 then [0] else [0; 3; 6].
Definition what_bit (what : Z) : Z := if what =? 120 then 0 else if what =? 119 then 1 else 2.
Definition mode_bits (who what : Z) : list Z :=
  if what =? 115 then [9] else (fun g => g + what_bit what) <$> who_shifts who.
Definition bits_val (l : list Z) : Z := foldr (fun k acc => Z.lor (2 ^ k) acc) 0 l.

Lemma bits_val_spec l i : 0 <= i -> Forall (fun k => 0 <= k) l -> Z.testbit (bits_val l) i = bool_decide (i ∈ l).
Proof.
  intros Hi. induction 1 as [|k l Hk Hl IH]; cbn [bits_val foldr].
  { rewrite Z.bits_0. symmetry. apply bool_decide_eq_false_2, not_elem_of_nil. }
  fold (bits_val l). rewrite Z.lor_spec, Z.pow2_bits_eqb, IH by lia. destruct (Z.eqb_spec k i) as [->|Hne]; cbn [orb].
  - symmetry. apply bool_decide_eq_true_2. by left.
  - apply bool_decide_ext. rewrite elem_of_cons. naive_solver.
Qed.

Lemma preparemode_bits who op what : symbolic who op what ->
  preparemode [who; op; what] = Some (if op =? 45 then Z.lnot (bits_val (mode_bits who what)) else bits_val (mode_bits who what)).
Proof.
  unfold symbolic. rewrite !elem_of_cons, !elem_of_nil. intros (_ & Hop & [->|[Hwhat Hwho]]).
  - repeat destruct Hop as [->|Hop]; try done; by vm_compute.
  - repeat destruct Hwho as [->|Hwho]; try done; repeat destruct Hop as [->|Hop]; try done;
      repeat destruct Hwhat as [->|Hwhat]; try done; by vm_compute.
Qed.

Lemma mode_bits_range who what : Forall (fun k => 0 <= k < 10) (mode_bits who what).
Proof.
  unfold mode_bits, who_shifts, what_bit. destruct (what =? 115); [apply Forall_singleton; lia|].
  apply Forall_fmap. repeat case_match; repeat constructor; cbn; lia.
Qed.

(** What a symbolic mode makes of an inode: the bits it names are set or
    cleared, the other permission bits stay, and bits beyond them, the
    set-user bit among them, are cleared unless the mode sets them. *)
Definition sym_changed (who op what : Z) (d d' : dinode) : Prop :=
  d' = d_with_mode (d_mode d') d /\ 0 <= d_mode d' < 2 ^ 10 /\
  forall k, 0 <= k ->
    Z.testbit (d_mode d') k =
      if bool_decide (k ∈ mode_bits who what) then op =? 43 else (k <? 9) && Z.testbit (d_mode d) k.

Lemma changed_mode_sym who op what d m : symbolic who op what -> preparemode [who; op; what] = Some m ->
  sym_changed who op what d (d_with_mode (changed_mode (mode_string d) m (op =? 45)) d).
Proof.
  intros Hs. rewrite preparemode_bits by done. intros [= <-].
  assert (Hk : Forall (fun k => 0 <= k < 10) (mode_bits who what)) by apply mode_bits_range.
  assert (Hk' : Forall (fun k => 0 <= k) (mode_bits who what)) by (eapply Forall_impl; [exact Hk|]; cbn; lia).
  destruct Hs as (_ & Hop & _). rewrite !elem_of_cons, elem_of_nil in Hop.
  set (x := changed_mode _ _ _).
  assert (Hx : forall k, 0 <= k -> Z.testbit x k =
      if bool_decide (k ∈ mode_bits who what) then op =? 43 else (k <? 9) && Z.testbit (d_mode d) k).
  { intros k Hk0. unfold x, changed_mode. destruct Hop as [->|[->|[]]]; cbn [Z.eqb Pos.eqb].
    - rewrite Z.lor_spec, parsemode_letters, bits_val_spec by done. destruct (bool_decide _); [apply orb_true_r|apply orb_false_r].
    - rewrite Z.land_spec, parsemode_letters, Z.lnot_spec, bits_val_spec by done. destruct (bool_decide _); [apply andb_false_r|apply andb_true_r]. }
  assert (Hhigh : forall k, 10 <= k -> Z.testbit x k = false).
  { intros k Hk0. rewrite Hx by lia. rewrite bool_decide_eq_false_2; [by rewrite (proj2 (Z.ltb_ge k 9)) by lia|].
    rewrite Forall_forall in Hk. intros Hin%Hk. lia. }
  assert (Hx0 : 0 <= x) by (apply Z.bits_iff_nonneg_ex; exists 9; intros k Hk0; apply Hhigh; lia).
  split; [done|]. split; [|exact Hx]. split; [done|]. by apply Z.bounded_iff_bits_nonneg.
Qed.

(** *** The calls of chmod

    The inodes of the files that can be reached, directories apart, which of
    them the process holds open, its real and effective user, and how many more
    files it can open. *)
Record mview := MView {
  mv_name : gmap (list Z) Z;
  mv_ino : gmap Z dinode;
  mv_open : gset Z;
  mv_uid : Z;
  mv_euid : Z;
  mv_room : nat }.

Definition mv_opened (i : Z) (v : mview) : mview :=
  MView (mv_name v) (mv_ino v) ({[i]} ∪ mv_open v) (mv_uid v) (mv_euid v) (pred (mv_room v)).
Definition mv_set (i : Z) (d : dinode) (v : mview) : mview :=
  MView (mv_name v) (<[i := d]> (mv_ino v)) (mv_open v) (mv_uid v) (mv_euid v) (mv_room v).

(** A file that the process may read, and one whose mode it may change. *)
Definition readable (v : mview) (d : dinode) : Prop :=
  mv_euid v = 0 \/ Z.testbit (d_mode d) 2 = true \/ d_uid d = mv_euid v /\ Z.testbit (d_mode d) 8 = true.
Definition changeable (v : mview) (d : dinode) : Prop := mv_euid v = 0 \/ d_uid d = mv_uid v.

(** [stat] opens its file.  The kernel reads the owner for [chmod] before it
    loads the inode, so the file has to be open. *)
Class UserModeSpec (W : Type) `{UserSys W} `{UserMode W} := {
  um_rep : W -> mview -> Prop;
  um_open_spec : forall w v path i d, um_rep w v -> mv_name v !! path = Some i -> mv_ino v !! i = Some d ->
    readable v d -> (0 < mv_room v)%nat ->
    wp (us_open path u_RDONLY) (fun fd w' => 0 <= fd /\ um_rep w' (mv_opened i v)) w;
  um_stat_spec : forall w v path i d, um_rep w v -> mv_name v !! path = Some i -> mv_ino v !! i = Some d ->
    readable v d -> (0 < mv_room v)%nat ->
    wp (um_stat path) (fun r w' => r = Some (mode_string d) /\ um_rep w' v) w;
  um_chmod_spec : forall w v path i d mode, um_rep w v -> mv_name v !! path = Some i -> mv_ino v !! i = Some d ->
    i ∈ mv_open v -> changeable v d -> 0 <= mode < 2 ^ 15 ->
    wp (um_chmod path mode) (fun r w' => r = 0 /\ um_rep w' (mv_set i (d_with_mode mode d) v)) w }.

(** The files that the program can handle, and the inodes they name. *)
Definition handled (v : mview) (f : list Z) : Prop :=
  exists i d, mv_name v !! f = Some i /\ mv_ino v !! i = Some d /\ readable v d /\ changeable v d.
Definition names (v : mview) (files : list (list Z)) (i : Z) : Prop := exists f, f ∈ files /\ mv_name v !! f = Some i.

Section chmod.
Context {W : Type} `{UserModeSpec W}.

(** All but the table of open files stays, and at least the inodes [P] are open. *)
Definition tried (P : Z -> Prop) (k : nat) (v v' : mview) : Prop :=
  mv_name v' = mv_name v /\ mv_ino v' = mv_ino v /\ mv_uid v' = mv_uid v /\ mv_euid v' = mv_euid v /\
  (k <= mv_room v')%nat /\ (forall i, i ∈ mv_open v -> i ∈ mv_open v') /\ forall i, P i -> i ∈ mv_open v'.

Lemma chmod_try_spec files : forall k w v, um_rep w v -> (length files + k <= mv_room v)%nat -> Forall (handled v) files ->
  wp (chmod_try files) (fun r w' => r = true /\ exists v', um_rep w' v' /\ tried (names v files) k v v') w.
Proof.
  induction files as [|f files IH]; intros k w v Hw Hk Hf; cbn [chmod_try].
  - apply wp_ret. split; [done|]. exists v. split; [done|]. unfold tried. split_and!; try done.
    by intros i (f & []%not_elem_of_nil & _).
  - apply Forall_cons in Hf as [(i & d & Hi & Hd & Hr & Hc) Hf]. cbn [length] in Hk.
    eapply wp_seq; [apply (um_open_spec w v f i d); try done; lia|]. cbn beta. intros fd w1 [Hfd Hw1].
    rewrite (proj2 (Z.ltb_ge fd 0)) by done.
    eapply wp_mono; [apply (IH k w1 (mv_opened i v) Hw1); [cbn; lia|exact Hf]|]. cbn beta.
    intros r w2 (-> & v' & Hw2 & E1 & E2 & E3 & E4 & E5 & E6 & E7). split; [done|]. exists v'. split; [done|].
    unfold tried. split_and!; try done.
    + intros j Hj. apply E6. cbn. set_solver.
    + intros j (g & Hg & Hj). apply elem_of_cons in Hg as [->|Hg]; [|apply E7; by exists g].
      apply E6. cbn. assert (j = i) as -> by congruence. set_solver.
Qed.

(** The modes of the inodes that [files] name are changed, and no others. *)
Definition modes_changed (who op what : Z) (files : list (list Z)) (v v' : mview) : Prop :=
  mv_name v' = mv_name v /\
  (forall i d, names v files i -> mv_ino v !! i = Some d -> exists d', mv_ino v' !! i = Some d' /\ sym_changed who op what d d') /\
  (forall i, ~ names v files i -> mv_ino v' !! i = mv_ino v !! i).

Lemma chmod_all_spec who op what m : symbolic who op what -> preparemode [who; op; what] = Some m ->
  forall files w v, um_rep w v -> (0 < mv_room v)%nat -> Forall (handled v) files ->
  NoDup ((mv_name v !!.) <$> files) -> (forall i, names v files i -> i ∈ mv_open v) ->
  wp (chmod_all (fun file => chmod2 file m (op =? 45)) files) (fun _ w' => exists v', um_rep w' v' /\ modes_changed who op what files v v') w.
Proof.
  intros Hs Hm. induction files as [|f files IH]; intros w v Hw Hk Hf Hn Ho; cbn [chmod_all].
  - apply wp_ret. exists v. split; [done|]. split_and!; [done| |done]. by intros i d (f & []%not_elem_of_nil & _).
  - apply Forall_cons in Hf as [(i & d & Hi & Hd & Hr & Hc) Hf]. cbn [fmap list_fmap] in Hn. apply NoDup_cons in Hn as [Hni Hn].
    assert (Hfresh : forall g, g ∈ files -> mv_name v !! g <> Some i).
    { intros g Hg E. apply Hni. apply list_elem_of_fmap. exists g. split; [congruence|done]. }
    pose proof (changed_mode_sym who op what d m Hs Hm) as Hch. set (d1 := d_with_mode _ d) in *.
    unfold chmod2 at 1. wp_step. wp_step. eapply wp_mono; [by apply (um_stat_spec w v f i d)|]. cbn beta. intros r w1 [-> Hw1].
    wp_step. eapply wp_mono; [apply (um_chmod_spec w1 v f i d); try done; [apply Ho; exists f; split; [by left|done]|]|].
    { destruct Hch as (_ & Hr0 & _). change (d_mode d1) with (changed_mode (mode_string d) m (op =? 45)) in Hr0. lia. }
    cbn beta. intros r w2 [-> Hw2]. change (0 <? 0) with false. cbv iota. wp_step.
    fold d1 in Hw2. eapply wp_mono; [apply (IH w2 (mv_set i d1 v) Hw2 Hk)|]; try done.
    + apply Forall_forall. intros g Hg. rewrite Forall_forall in Hf. destruct (Hf g Hg) as (j & e & Hj & He & Hre & Hce).
      exists j, e. split_and!; try done. cbn. rewrite lookup_insert_ne; [done|]. intros <-. by apply (Hfresh g).
    + intros j (g & Hg & Hj). apply Ho. exists g. split; [by right|done].
    + cbn beta. intros ? w3 (v' & Hw3 & E1 & E2 & E3). exists v'. split; [done|]. split_and!; [done| |].
      * intros j e (g & Hg & Hj) He. apply elem_of_cons in Hg as [->|Hg].
        -- assert (j = i) as -> by congruence. assert (e = d) as -> by congruence. exists d1. split; [|done].
           rewrite E3; [apply lookup_insert_eq|]. intros (g & Hg & Hg'). by apply (Hfresh g).
        -- apply E2; [by exists g|]. cbn. rewrite lookup_insert_ne; [done|]. intros <-. by apply (Hfresh g).
      * intros j Hj. rewrite E3.
        -- cbn. apply lookup_insert_ne. intros <-. apply Hj. exists f. split; [by left|done].
        -- intros (g & Hg & Hg'). apply Hj. exists g. split; [by right|done].
Qed.
End chmod.

(** C31: [chmod] with a symbolic mode, on files that the user may read and whose
    modes they may change, each given once: the bits that the mode names are
    set or cleared in the inode of each file, the other permission bits stay,
    and the set-user bit is cleared unless the mode sets it.  Inodes without a
    name among the files keep theirs. *)
Theorem chmod_symbolic {W} `{UserModeSpec W} who op what files (w : W) v :
  symbolic who op what -> files <> [] -> um_rep w v -> (length files < mv_room v)%nat -> Forall (handled v) files ->
  NoDup ((mv_name v !!.) <$> files) ->
  wp (chmod_main ([who; op; what] :: files)) (fun _ w' => exists v', um_rep w' v' /\ modes_changed who op what files v v') w.
Proof.
  intros Hs Hne Hw Hk Hf Hn. unfold chmod_main. destruct files as [|f files']; [done|]. set (files := f :: files') in *.
  change (char_at 0 [who; op; what]) with who. change (char_at 1 [who; op; what]) with op.
  assert (E : (48 <=? who) && (who <=? 57) = false) by (destruct Hs as (Hw0 & _); lia). rewrite E. cbv zeta.
  pose proof (preparemode_bits who op what Hs) as Hm. rewrite Hm.
  eapply wp_seq; [apply (chmod_try_spec files 1 w v Hw); [lia|done]|]. cbn beta.
  intros r w1 (-> & v1 & Hw1 & E1 & E2 & E3 & E4 & E5 & E6 & E7). cbn [negb].
  eapply wp_mono; [apply (chmod_all_spec who op what _ Hs Hm files w1 v1 Hw1)|].
  - lia.
  - eapply Forall_impl; [exact Hf|]. unfold handled, readable, changeable. rewrite E1, E2, E3, E4. done.
  - by rewrite E1.
  - unfold names. rewrite E1. exact E7.
  - cbn beta. intros ? w2 (v' & Hw2 & F1 & F2 & F3). exists v'. split; [done|].
    unfold modes_changed, names in *. rewrite E1, ?E2 in *. split_and!; [congruence|exact F2|exact F3].
Qed.

(** So [chmod u+x] takes the set-user bit from a program that has it. *)
Corollary chmod_drops_setuid d d' : sym_changed 117 43 120 d d' -> Z.testbit (d_mode d') 9 = false.
Proof. intros (_ & _ & Hd). by rewrite Hd by lia. Qed.
