(* ===== verification/Uwalk.v ===== *)
(** * Walks through directories

    [fmtname], [mover] and [permsapplyr] of [user/ufile.c], over the calls they
    need on directories, and the theorem that [permsapplyr] gives away exactly
    the inodes of a tree.

    [depth] bounds the depth of the tree, [many] the entries of a directory. *)

From S2P Require Import Prelude CString Layout Fs Console UserSys Uprintf.

(** The part behind the last slash. *)
Fixpoint upto_slash (s : list Z) : list Z :=
  match s with
  | [] => []
  | c :: s => if c =? 47 then [] else c :: upto_slash s
  end.
Definition basename (path : list Z) : list Z := reverse (upto_slash (reverse path)).

(** Names shorter than [DIRSIZ] are padded in a buffer that ends with a NUL. *)
Definition fmtname (path : list Z) (padding : Z) : list Z :=
  let p := basename path in
  if (DIRSIZ <=? length p)%nat then p else cstr (p ++ replicate (DIRSIZ - length p) padding ++ [0]).

(** The type of an open file, the next entry of an open directory ([None]: a
    short read), [stat] on a path, and [link]. *)
Class UserDir (W : Type) := {
  ud_type : Z -> M W (option Z);
  ud_read : Z -> M W (option (Z * list Z));
  ud_stat : list Z -> M W Z;
  ud_link : list Z -> list Z -> M W Z }.

Definition too_long (path : list Z) : bool := 512 <? strlen path + 1 + Z.of_nat DIRSIZ + 1.

Section walk.
Context {W : Type} `{UserSys W} `{UserDir W} (many : nat).

(** The loop over the entries of the directory [path]: all but the first two
    are visited by name.  The path of an entry is put together in a buffer of
    512 bytes. *)
Fixpoint walk (k : nat) (who : list Z) (fd : Z) (path : list Z) (visit : list Z -> M W unit) (i : nat) : M W unit :=
  match k with
  | O => fault "fuel"
  | S k =>
      let* e := ud_read fd in
      match e with
      | None => ret tt
      | Some (inum, name) =>
          if inum =? 0 then walk k who fd path visit i else
          if (i <? 2)%nat then walk k who fd path visit (S i) else
          if too_long path then fault "buffer overrun" else
          let buf := path ++ [47] ++ cstr name in
          let* r := ud_stat buf in
          if r <? 0 then
            do* printf (who ++ str ": cannot stat %s" ++ [10]) [AStr (Some buf)] in
            walk k who fd path visit (S i)
          else
            do* visit (fmtname buf 0) in
            walk k who fd path visit (S i)
      end
  end.

Fixpoint permsapplyr (depth : nat) (path : list Z) (uid gid : Z) : M W unit :=
  match depth with
  | O => fault "fuel"
  | S depth =>
      let* fd := us_open path u_RDONLY in
      if fd <? 0 then fprintf 2 (str "permset: cannot open %s %d" ++ [10]) [AStr (Some path); AInt fd] else
      let* t := ud_type fd in
      match t with
      | None =>
          do* fprintf 2 (str "permset: cannot stat %s" ++ [10]) [AStr (Some path)] in
          do* us_close fd in
          ret tt
      | Some t =>
          do* (if t =? T_FILE then do* us_chown path uid gid in ret tt
               else if t =? T_DIR then
                 if too_long path then printf (str "permset: path too long" ++ [10]) [] else
                 do* us_chown path uid gid in
                 walk many (str "permset") fd path (fun name => permsapplyr depth (path ++ [47] ++ name) uid gid) 0
               else ret tt) in
          do* us_close fd in
          ret tt
      end
  end.

(** The old path is not tested for its length. *)
Fixpoint mover (depth : nat) (oldpath newpath : list Z) : M W unit :=
  match depth with
  | O => fault "fuel"
  | S depth =>
      let* fd := us_open oldpath u_RDONLY in
      if fd <? 0 then fprintf 2 (str "move: cannot open %s %d" ++ [10]) [AStr (Some oldpath); AInt fd] else
      let* t := ud_type fd in
      match t with
      | None =>
          do* fprintf 2 (str "move: cannot stat %s" ++ [10]) [AStr (Some oldpath)] in
          do* us_close fd in
          ret tt
      | Some t =>
          do* (if t =? T_FILE then do* ud_link oldpath newpath in do* us_unlink oldpath in ret tt
               else if t =? T_DIR then
                 if too_long newpath then printf (str "move: path too long" ++ [10]) [] else
                 do* us_mkdir newpath in
                 if 512 <? strlen oldpath + 1 then fault "buffer overrun" else
                 walk many (str "move") fd oldpath (fun name => mover depth (oldpath ++ [47] ++ name) (newpath ++ [47] ++ name)) 0
               else ret tt) in
          do* us_close fd in
          ret tt
      end
  end.
End walk.

(** ** The names of entries *)

(** A name as directories have it, padded with NULs to [DIRSIZ] bytes. *)
Definition dirname_ok (n : list Z) : Prop := n <> [] /\ (length n <= DIRSIZ)%nat /\ Forall (fun c => 0 < c < 256 /\ c <> 47) n.
Definition padded (n : list Z) : list Z := n ++ replicate (DIRSIZ - length n) 0.

Lemma upto_slash_app l r : Forall (fun c => c <> 47) l -> upto_slash (l ++ 47 :: r) = l.
Proof.
  induction 1 as [|c l Hc Hl IH]; cbn; [done|]. by rewrite (proj2 (Z.eqb_neq c 47)), IH by done.
Qed.

Lemma cstr_padded n : dirname_ok n -> cstr (padded n) = n.
Proof.
  intros (_ & _ & Hn). assert (Hc : cstr n = n) by (apply cstr_id; eapply Forall_impl; [exact Hn|]; naive_solver).
  unfold padded. rewrite <- Hc at 1. by rewrite cstr_app_zeros.
Qed.

Definition child_path (path n : list Z) : list Z := path ++ [47] ++ n.

Lemma fmtname_child path n : dirname_ok n -> fmtname (child_path path n) 0 = n.
Proof.
  intros (Hne & Hlen & Hn). assert (Hc : cstr n = n) by (apply cstr_id; eapply Forall_impl; [exact Hn|]; naive_solver).
  unfold fmtname, child_path. assert (Eb : basename (path ++ [47] ++ n) = n).
  { unfold basename. rewrite !reverse_app, reverse_singleton, <- app_assoc. cbn [app]. rewrite upto_slash_app; [by rewrite reverse_involutive|].
    apply Forall_reverse. eapply Forall_impl; [exact Hn|]. naive_solver. }
  rewrite Eb. destruct (Nat.leb_spec DIRSIZ (length n)); [done|].
  change [0] with (replicate 1 0). rewrite <- replicate_add, <- Hc at 1. by rewrite cstr_app_zeros.
Qed.

(** ** Trees *)

(** A tree of files; files and directories have the numbers of their inodes, and
    a directory has its entries by name. *)
Inductive ftree := TFile (i : Z) | TDev | TDir (i : Z) (f : forest)
with forest := FNil | FCons (n : list Z) (t : ftree) (f : forest).

Scheme ftree_mut := Induction for ftree Sort Prop
with forest_mut := Induction for forest Sort Prop.

(** What a path names: the inode, and the mode and the entries of a directory. *)
Inductive dnode := NFile (i : Z) | NDev (i : Z) | NDir (i mode : Z) (es : list (Z * list Z)).

Definition ninode (n : dnode) : Z := match n with NFile i | NDev i | NDir i _ _ => i end.
Definition ntype (n : dnode) : Z := match n with NFile _ => T_FILE | NDev _ => T_DEV | NDir _ _ _ => T_DIR end.
Definition entries (n : dnode) : list (Z * list Z) := match n with NDir _ _ es => es | _ => [] end.

(** Nodes by absolute path (the path of the root directory is empty), the
    descriptors with the entries still to be read, the owners of inodes, how
    many more files can be open, by the tables of the process and of the
    kernel, and the effective user. *)
Record dview := DView {
  dv_node : gmap (list Z) dnode;
  dv_fd : gmap Z (dnode * list (Z * list Z));
  dv_own : gmap Z (Z * Z);
  dv_room : nat;
  dv_euid : Z }.

Definition dv_set_fd (fd : Z) (n : dnode) (es : list (Z * list Z)) (v : dview) : dview :=
  DView (dv_node v) (<[fd := (n, es)]> (dv_fd v)) (dv_own v) (dv_room v) (dv_euid v).
Definition dv_open (fd : Z) (n : dnode) (v : dview) : dview :=
  DView (dv_node v) (<[fd := (n, entries n)]> (dv_fd v)) (dv_own v) (pred (dv_room v)) (dv_euid v).
Definition dv_close (fd : Z) (v : dview) : dview :=
  DView (dv_node v) (delete fd (dv_fd v)) (dv_own v) (S (dv_room v)) (dv_euid v).
Definition dv_chown (i : Z) (o : Z * Z) (v : dview) : dview :=
  DView (dv_node v) (dv_fd v) (<[i := o]> (dv_own v)) (dv_room v) (dv_euid v).

(** Every directory on the way to [path] lets everybody search it: the kernel
    does not exempt the superuser when it searches a directory, and the walk
    changes the owners of directories that it searches afterwards. *)
Definition reached (N : gmap (list Z) dnode) (path : list Z) : Prop :=
  forall q r, path = q ++ 47 :: r -> exists i mode es, N !! q = Some (NDir i mode es) /\ Z.odd mode = true.

(** The calls for the superuser, as long as there is room for open files and no
    other process changes the tree.  [stat] of the user library opens its file. *)
Class UserDirSpec (W : Type) `{UserSys W} `{UserDir W} := {
  ud_rep : W -> dview -> Prop;
  ud_open_spec : forall w v path n, ud_rep w v -> dv_node v !! path = Some n -> reached (dv_node v) path ->
    dv_euid v = 0 -> (0 < dv_room v)%nat ->
    wp (us_open path u_RDONLY) (fun fd w' => 0 <= fd /\ dv_fd v !! fd = None /\ ud_rep w' (dv_open fd n v)) w;
  ud_close_spec : forall w v fd x, ud_rep w v -> dv_fd v !! fd = Some x ->
    wp (us_close fd) (fun _ w' => ud_rep w' (dv_close fd v)) w;
  ud_type_spec : forall w v fd n es, ud_rep w v -> dv_fd v !! fd = Some (n, es) ->
    wp (ud_type fd) (fun t w' => t = Some (ntype n) /\ ud_rep w' v) w;
  ud_read_spec : forall w v fd n es, ud_rep w v -> dv_fd v !! fd = Some (n, es) -> ntype n = T_DIR ->
    wp (ud_read fd) (fun e w' => e = head es /\ ud_rep w' (dv_set_fd fd n (tail es) v)) w;
  ud_stat_spec : forall w v path n, ud_rep w v -> dv_node v !! path = Some n -> reached (dv_node v) path ->
    dv_euid v = 0 -> (0 < dv_room v)%nat ->
    wp (ud_stat path) (fun r w' => r = 0 /\ ud_rep w' v) w;
  ud_chown_spec : forall w v path n uid gid, ud_rep w v -> dv_node v !! path = Some n -> reached (dv_node v) path ->
    dv_euid v = 0 ->
    wp (us_chown path uid gid) (fun _ w' => ud_rep w' (dv_chown (ninode n) (uid, gid) v)) w }.

(** The entries in use. *)
Definition used (es : list (Z * list Z)) : list (Z * list Z) := filter (fun e => e.1 <> 0) es.

(** The tree [t] at [path]: behind the entries for the directory and its parent
    there is one for each child; everybody may search the directories, paths
    fit the buffer, and a directory has less than [many] entries. *)
Fixpoint tree_at (many : nat) (N : gmap (list Z) dnode) (path : list Z) (t : ftree) : Prop :=
  match t with
  | TFile i => N !! path = Some (NFile i)
  | TDev => exists i, N !! path = Some (NDev i)
  | TDir i f => exists mode es d1 d2 rest, N !! path = Some (NDir i mode es) /\ Z.odd mode = true /\
                  too_long path = false /\ (length es < many)%nat /\
                  used es = d1 :: d2 :: rest /\ forest_at many N path rest f
  end
with forest_at (many : nat) (N : gmap (list Z) dnode) (path : list Z) (rest : list (Z * list Z)) (f : forest) : Prop :=
  match f with
  | FNil => rest = []
  | FCons n t f => exists inum rest', rest = (inum, padded n) :: rest' /\ dirname_ok n /\
                     tree_at many N (child_path path n) t /\ forest_at many N path rest' f
  end.

(** The inodes of the files and directories of a tree. *)
Fixpoint inodes (t : ftree) : list Z :=
  match t with
  | TFile i => [i]
  | TDev => []
  | TDir i f => i :: forest_inodes f
  end
with forest_inodes (f : forest) : list Z :=
  match f with
  | FNil => []
  | FCons n t f => inodes t ++ forest_inodes f
  end.

Fixpoint height (t : ftree) : nat :=
  match t with TFile _ | TDev => 1 | TDir _ f => S (forest_height f) end
with forest_height (f : forest) : nat :=
  match f with FNil => 0 | FCons n t f => Nat.max (height t) (forest_height f) end.

Lemma height_pos t : (0 < height t)%nat.
Proof. destruct t; cbn; lia. Qed.

Definition chown_all (o : Z * Z) (l : list Z) (v : dview) : dview :=
  DView (dv_node v) (dv_fd v) (foldl (fun m i => <[i := o]> m) (dv_own v) l) (dv_room v) (dv_euid v).
Lemma chown_all_app o l l' v : chown_all o (l ++ l') v = chown_all o l' (chown_all o l v).
Proof. unfold chown_all. cbn. by rewrite foldl_app. Qed.

Lemma reached_child N path i mode es n :
  reached N path -> N !! path = Some (NDir i mode es) -> Z.odd mode = true -> dirname_ok n -> reached N (child_path path n).
Proof.
  intros Hr Hp Hm (_ & _ & Hn) q r E. unfold child_path in E. cbn [app] in E.
  apply app_eq_inv in E as [(k & -> & E)|(k & -> & E)].
  - destruct k as [|c k]; [rewrite app_nil_r in Hp; by eauto|]. injection E as <- _. by apply (Hr q k).
  - destruct k as [|c k]; [rewrite app_nil_r; by eauto|]. injection E as <- ->.
    apply Forall_app in Hn as [_ Hn%Forall_inv]. naive_solver.
Qed.

Section spec.
Context {W : Type} `{UserDirSpec W} (many : nat) (uid gid : Z).
Abbreviation o := (uid, gid).

(** The superuser with room for [k] more open files, among the nodes [N]. *)
Definition able (N : gmap (list Z) dnode) (k : nat) (v : dview) : Prop :=
  dv_node v = N /\ dv_euid v = 0 /\ (k <= dv_room v)%nat.

(** [visit] handles the trees of a forest. *)
Fixpoint visits (N : gmap (list Z) dnode) (k : nat) (visit : list Z -> M W unit) (f : forest) : Prop :=
  match f with
  | FNil => True
  | FCons n t f =>
      (forall w v, ud_rep w v -> able N k v -> wp (visit n) (fun _ w' => ud_rep w' (chown_all o (inodes t) v)) w) /\
      visits N k visit f
  end.

Lemma tree_node N path t : tree_at many N path t -> exists n, N !! path = Some n.
Proof. destruct t as [i| |i f]; cbn; [eauto|intros [i ?]; eauto|]. intros (? & es & _ & _ & _ & E & _). eauto. Qed.

Lemma walk_spec who fd path i0 mode nes visit h :
  let nd := NDir i0 mode nes in
  forall es k i skipped rest f w v,
  ud_rep w v -> dv_fd v !! fd = Some (nd, es) -> too_long path = false -> (length es < k)%nat ->
  used es = skipped ++ rest -> (length skipped = 2 - i)%nat -> forest_at many (dv_node v) path rest f ->
  dv_node v !! path = Some nd -> Z.odd mode = true -> reached (dv_node v) path ->
  dv_euid v = 0 -> (h <= dv_room v)%nat -> (forest_height f <= h)%nat ->
  visits (dv_node v) h visit f ->
  wp (walk k who fd path visit i) (fun _ w' => ud_rep w' (dv_set_fd fd nd [] (chown_all o (forest_inodes f) v))) w.
Proof.
  intros nd.
  induction es as [|[inum nm] es IH]; intros k i skipped rest f w v Hw Hfd Hl Hk Hu Hi Hf Hp Hm Hr He Hh Hfh Hv;
    (destruct k as [|k]; [cbn in Hk; lia|]);
    cbn [walk]; (eapply wp_seq; [by apply (ud_read_spec w v fd nd _ Hw Hfd)|]); cbn beta; intros e w1 [-> Hw1]; cbn [head tail] in *.
  { apply wp_ret. symmetry in Hu. apply app_nil in Hu as [-> ->]. destruct f as [|n t f]; [exact Hw1|].
    by destruct Hf as (? & ? & ? & _). }
  set (v1 := dv_set_fd fd nd es v) in *. assert (Hfd1 : dv_fd v1 !! fd = Some (nd, es)) by (cbn; apply lookup_insert_eq).
  assert (Hstep : forall g, dv_set_fd fd nd [] (chown_all o (forest_inodes g) v1) = dv_set_fd fd nd [] (chown_all o (forest_inodes g) v)).
  { intros g. unfold v1, dv_set_fd, chown_all. cbn. by rewrite insert_insert_eq. }
  cbn [length] in Hk. unfold used in Hu. destruct (Z.eqb_spec inum 0) as [->|Hin].
  { rewrite filter_cons_False in Hu by (cbn; naive_solver). rewrite <- Hstep. by apply (IH k i skipped rest); [..|lia| | | | | | | | | |]. }
  rewrite filter_cons_True in Hu by done. destruct skipped as [|d skipped]; cbn [app length] in *.
  - rewrite (proj2 (Nat.ltb_ge i 2)), Hl by lia. destruct f as [|n t f]; [by cbn in Hf; subst|].
    destruct Hf as (inum' & rest' & -> & Hn & Ht & Hf). injection Hu as -> -> Hu. destruct Hv as [Hv Hvs].
    cbv zeta. rewrite cstr_padded by done. change (path ++ 47 :: n) with (child_path path n).
    destruct (tree_node _ _ _ Ht) as [x Ex]. cbn [forest_height] in Hfh. pose proof (height_pos t) as Hpos.
    eapply wp_seq; [apply (ud_stat_spec w1 v1 _ x Hw1 Ex); [by eapply reached_child|done|cbn; lia]|].
    cbn beta. intros r w2 [-> Hw2]. cbn [Z.ltb Z.compare].
    rewrite fmtname_child by done. eapply wp_seq; [by apply (Hv w2 v1)|]. cbn beta. intros ? w3 Hw3.
    cbn [forest_inodes]. rewrite chown_all_app.
    eapply wp_mono; [apply (IH k (S i) [] rest' f w3 _ Hw3)|]; try done; try (cbn; lia).
    cbn beta. intros ? w4 Hw4. revert Hw4. unfold v1, dv_set_fd, chown_all. cbn. by rewrite insert_insert_eq.
  - rewrite (proj2 (Nat.ltb_lt i 2)) by lia. injection Hu as _ Hu. rewrite <- Hstep.
    apply (IH k (S i) skipped rest); try done; lia.
Qed.

(** Opening and closing around a part that changes owners only. *)
Lemma opened_closed fd nd l v :
  dv_fd v !! fd = None -> (0 < dv_room v)%nat ->
  dv_close fd (dv_set_fd fd nd [] (chown_all o l (dv_open fd nd v))) = chown_all o l v.
Proof.
  intros Hfd Hr. unfold dv_close, dv_set_fd, dv_open, chown_all. cbn. rewrite insert_insert_eq, delete_insert_id by done.
  f_equal. lia.
Qed.

Lemma opened_at_end fd nd l v : entries nd = [] -> chown_all o l (dv_open fd nd v) = dv_set_fd fd nd [] (chown_all o l (dv_open fd nd v)).
Proof. intros E. unfold dv_open, dv_set_fd, chown_all. cbn. by rewrite insert_insert_eq, E. Qed.

Lemma permsapplyr_spec t : forall depth path w v,
  (height t <= depth)%nat -> tree_at many (dv_node v) path t -> reached (dv_node v) path -> able (dv_node v) (height t) v -> ud_rep w v ->
  wp (permsapplyr many depth path uid gid) (fun _ w' => ud_rep w' (chown_all o (inodes t) v)) w.
Proof.
  induction t as [i| |i f IH| |n t IHt f IHf] using ftree_mut with (P0 := fun f => forall depth path N h rest i mode es,
    (forest_height f <= depth)%nat -> (forest_height f <= h)%nat ->
    forest_at many N path rest f -> N !! path = Some (NDir i mode es) -> Z.odd mode = true -> reached N path ->
    visits N h (fun name => permsapplyr many depth (path ++ [47] ++ name) uid gid) f).
  - intros [|depth] path w v Hd Hp Hr (_ & He & Hk) Hw; [cbn in Hd; lia|]. cbn [permsapplyr]. cbn in Hk.
    eapply wp_seq; [apply (ud_open_spec w v path (NFile i) Hw); try done; lia|]. cbn beta. intros fd w1 (Hge & Hno & Hw1).
    rewrite (proj2 (Z.ltb_ge fd 0)) by done. set (v1 := dv_open _ _ v) in *.
    assert (Hfd : dv_fd v1 !! fd = Some (NFile i, [])) by (cbn; apply lookup_insert_eq).
    eapply wp_seq; [by apply (ud_type_spec w1 v1 fd (NFile i) [])|]. cbn beta. intros ty w2 [-> Hw2].
    rewrite Z.eqb_refl. repeat wp_step. eapply wp_mono; [by apply (ud_chown_spec w2 v1 path (NFile i))|]. cbn beta. intros ? w3 Hw3.
    repeat wp_step. eapply wp_mono; [by apply (ud_close_spec w3 _ fd (NFile i, []) Hw3)|]. cbn beta. intros ? w4 Hw4. wp_step.
    change (dv_chown _ o v1) with (chown_all o (inodes (TFile i)) v1) in Hw4. unfold v1 in Hw4.
    rewrite opened_at_end, opened_closed in Hw4 by (done || lia). done.
  - intros [|depth] path w v Hd [i Hp] Hr (_ & He & Hk) Hw; [cbn in Hd; lia|]. cbn [permsapplyr]. cbn in Hk.
    eapply wp_seq; [apply (ud_open_spec w v path (NDev i) Hw); try done; lia|]. cbn beta. intros fd w1 (Hge & Hno & Hw1).
    rewrite (proj2 (Z.ltb_ge fd 0)) by done. set (v1 := dv_open _ _ v) in *.
    assert (Hfd : dv_fd v1 !! fd = Some (NDev i, [])) by (cbn; apply lookup_insert_eq).
    eapply wp_seq; [by apply (ud_type_spec w1 v1 fd (NDev i) [])|]. cbn beta. intros ty w2 [-> Hw2].
    change (ntype (NDev i) =? T_FILE) with false. change (ntype (NDev i) =? T_DIR) with false. cbv iota.
    repeat wp_step. eapply wp_mono; [by apply (ud_close_spec w2 _ fd (NDev i, []) Hw2)|]. cbn beta. intros ? w4 Hw4. wp_step.
    change v1 with (chown_all o (inodes TDev) v1) in Hw4. unfold v1 in Hw4.
    rewrite opened_at_end, opened_closed in Hw4 by (done || lia). done.
  - intros [|depth] path w v Hd (mode & es & d1 & d2 & rest & Hp & Hm & Hl & Hes & Hu & Hf) Hr (_ & He & Hk) Hw; [cbn in Hd; lia|].
    cbn [permsapplyr]. cbn [height] in Hk, Hd.
    eapply wp_seq; [apply (ud_open_spec w v path (NDir i mode es) Hw); try done; lia|]. cbn beta. intros fd w1 (Hge & Hno & Hw1).
    rewrite (proj2 (Z.ltb_ge fd 0)) by done. set (v1 := dv_open _ _ v) in *.
    assert (Hfd : dv_fd v1 !! fd = Some (NDir i mode es, es)) by (cbn; apply lookup_insert_eq).
    eapply wp_seq; [by apply (ud_type_spec w1 v1 fd (NDir i mode es) es)|]. cbn beta. intros ty w2 [-> Hw2].
    change (ntype (NDir i mode es) =? T_FILE) with false. rewrite Z.eqb_refl, Hl. wp_step. wp_step.
    eapply wp_mono; [by apply (ud_chown_spec w2 v1 path (NDir i mode es))|]. cbn beta. intros ? w3 Hw3.
    eapply wp_mono; [apply (walk_spec _ fd path i mode es _ (forest_height f) es many 0 [d1; d2] rest f w3 _ Hw3)|]; try done; try (cbn; lia).
    + cbn. eapply IH; [lia|lia|exact Hf|done..].
    + cbn beta. intros ? w4 Hw4. wp_step. eapply wp_mono; [eapply (ud_close_spec w4 _ fd _ Hw4); cbn; apply lookup_insert_eq|].
      cbn beta. intros ? w5 Hw5. wp_step.
      change (chown_all o (forest_inodes f) (dv_chown _ o v1)) with (chown_all o (inodes (TDir i f)) v1) in Hw5.
      unfold v1 in Hw5. by rewrite opened_closed in Hw5 by (done || lia).
  - done.
  - intros depth path N h rest i mode es Hd Hh (inum & rest' & -> & Hn & Ht & Hf) Hp Hm Hr. cbn [forest_height] in Hd, Hh. split.
    + intros w v Hw (<- & He & Hk). apply IHt; [lia|exact Ht|by eapply reached_child|split_and!; [done|done|lia]|done].
    + eapply IHf; [lia|lia|exact Hf|done..].
Qed.
End spec.

(** C28: [permsapplyr] of the superuser gives the whole tree away: every file and
    directory of the tree under the path gets the owner and the group, whatever
    free entries its directories have.  Owners belong to inodes, so a file that
    also has a name elsewhere is given away with the tree; no other owner
    changes, and the descriptors it opened are closed.  Everybody may search
    the directories, and as many files can be opened as the tree is high. *)
Theorem permsapplyr_correct {W} `{UserDirSpec W} many depth path uid gid t (w : W) v :
  tree_at many (dv_node v) path t -> reached (dv_node v) path ->
  (height t <= depth)%nat -> (height t <= dv_room v)%nat -> dv_euid v = 0 -> ud_rep w v ->
  wp (permsapplyr many depth path uid gid) (fun _ w' => exists v', ud_rep w' v' /\
    dv_node v' = dv_node v /\ dv_fd v' = dv_fd v /\ dv_room v' = dv_room v /\
    forall i, dv_own v' !! i = if decide (i ∈ inodes t) then Some (uid, gid) else dv_own v !! i) w.
Proof.
  intros Ht Hr Hd Hk He Hw. eapply wp_mono; [by apply (permsapplyr_spec many uid gid t)|]. cbn beta. intros ? w' Hw'.
  eexists. split; [exact Hw'|]. split_and!; [done..|]. cbn. generalize (dv_own v). clear.
  induction (inodes t) as [|q l IH]; intros m i; cbn [foldl].
  - rewrite decide_False; [done|]. apply not_elem_of_nil.
  - rewrite IH. destruct (decide (i ∈ l)) as [Hi|Hi]; [rewrite decide_True; [done|by right]|].
    destruct (decide (i = q)) as [->|Hne]; [rewrite decide_True by (by left); apply lookup_insert_eq|].
    rewrite decide_False, lookup_insert_ne by (done || by rewrite elem_of_cons; intros [?|?]). done.
Qed.
