(* ===== verification/Uadmin.v ===== *)
(** * Administration of users

    [userfromattr], [adduser] and [changeuser] of [user/uauth.c].  The static
    variables [availableuid] and, in [addgroup], [availablegid] are passed in;
    their new values are not needed, since a process calls these functions
    once. *)

From S2P Require Import Prelude CString UserSys Ufile UfileSpec Uauth UauthSpec Uauthgrp Uprintf Uwalk.

Section uadmin.
Context {W : Type} `{UserSys W} `{UserDir W} (junk : list Z) (past : Z) (heap : nat -> Z) (fuel many depth : nat).

Definition copy_string (s : list Z) : list Z := cstr (safestrcpy s (strlen s + 1)).

(** The home directory is made and given to the user. *)
Definition userfromattr (username : list Z) (password : option (list Z)) (uid gid : Z) (fullname homedir : list Z) : M W user_t :=
  let usr := User (copy_string username) (copy_string <$> password) uid gid (copy_string fullname) (copy_string homedir) in
  do* us_mkdir (u_homedir usr) in
  do* us_chown (u_homedir usr) uid uid in
  ret usr.

(** The first free number from [availableuid] on, and where the search for it
    stopped. *)
Fixpoint free_uid (k : nat) (fd availableuid : Z) (usr : option user_t) : M W (Z * Z) :=
  match k with
  | O => fault "fuel"
  | S k =>
      let* (code, usr, offset) := finduserbyuid junk past heap fuel fd availableuid usr 0 in
      if code =? 0 then
        do* us_lseek fd 0 u_SEEK_SET in
        free_uid k fd (s32 (availableuid + 1)) usr
      else ret (availableuid, offset)
  end.

Definition adduser (username : list Z) (uid : Z) (fullname homedir : list Z) (availableuid availablegid : Z) : M W Z :=
  let* fd := us_open passwdfile u_RDWR in
  if fd <? 0 then ret NOPERMS else
  let* (code, usr, _) := finduserbyname junk past heap fuel fd username None 0 in
  if code =? 0 then do* us_close fd in ret RESERVED else
  do* us_lseek fd 0 u_SEEK_SET in
  let* taken :=
    if uid =? 0 then let* free := free_uid fuel fd availableuid usr in ret (Some free)
    else
      let* (code, _, offset) := finduserbyuid junk past heap fuel fd uid usr 0 in
      ret (if code =? 0 then None else Some (uid, offset)) in
  match taken with
  | None => do* us_close fd in ret RESERVED
  | Some (uid, offset) =>
      let* usr := userfromattr username None uid uid fullname homedir in
      let* (code, _) := addgroup junk past heap fuel username uid availablegid in
      if code <? 0 then ret RESERVED else
      let* code := changegroups junk past heap fuel username username 0 in
      if code <? 0 then ret UNKNOWN else
      let* (code, _) := writeuser heap fuel fd usr offset 0 in
      do* us_close fd in
      ret code
  end.

(** A search from the start of the file for something that must not be there;
    [true]: it is. *)
Definition is_taken (test : option (M W (Z * option user_t * Z))) : M W bool :=
  match test with
  | None => ret false
  | Some m => let* (code, _, _) := m in ret (code =? 0)
  end.

Definition changeuser (username : list Z) (newusername : option (list Z)) (uid : Z) (fullname homedir : option (list Z)) (m : bool) : M W Z :=
  let* fd := us_open passwdfile u_RDWR in
  if fd <? 0 then ret NOPERMS else
  let* taken := is_taken ((fun n => finduserbyname junk past heap fuel fd n None 0) <$> newusername) in
  if (taken : bool) then do* us_close fd in ret RESERVED else
  do* us_lseek fd 0 u_SEEK_SET in
  let* taken := is_taken (if truth uid then Some (finduserbyuid junk past heap fuel fd uid None 0) else None) in
  if (taken : bool) then do* us_close fd in ret RESERVED else
  do* us_lseek fd 0 u_SEEK_SET in
  let* (code, usr, offset) := finduserbyname junk past heap fuel fd username None 0 in
  if code <? 0 then do* us_close fd in ret code else
  let* usr := deref usr "usr" in
  let oldlength := getuserlength usr in
  let usr := match newusername with
             | Some n => User (copy_string n) (u_password usr) (u_uid usr) (u_gid usr) (u_fullname usr) (u_homedir usr)
             | None => usr
             end in
  let* usr :=
    if truth uid then
      do* permsapplyr many depth (u_homedir usr) uid uid in
      ret (User (u_username usr) (u_password usr) uid (u_gid usr) (u_fullname usr) (u_homedir usr))
    else ret usr in
  let usr := match fullname with
             | Some n => User (u_username usr) (u_password usr) (u_uid usr) (u_gid usr) (copy_string n) (u_homedir usr)
             | None => usr
             end in
  let* usr :=
    match homedir with
    | Some h =>
        do* (if m then mover many depth (u_homedir usr) h else do* us_mkdir h in ret tt) in
        do* permsapplyr many depth h (u_uid usr) (u_uid usr) in
        ret (User (u_username usr) (u_password usr) (u_uid usr) (u_gid usr) (u_fullname usr) (copy_string h))
    | None => ret usr
    end in
  do* us_lseek fd 0 u_SEEK_SET in
  let* (code, _) := writeuser heap fuel fd usr offset oldlength in
  do* us_close fd in
  do* match newusername with
      | Some n => when 0 <=? code then (do* updateusername junk past heap fuel username n in ret tt)
      | None => ret tt
      end in
  ret code.
End uadmin.
