(* ===== verification/UadminSpec.v ===== *)
(** * Adding users

    What [adduser] of [user/uauth.c] does to the two databases: it refuses a
    name or number that is taken, and otherwise appends a line to each. *)

From S2P Require Import Prelude CString UserSys Ufile UfileSpec Uauth UauthSpec Uauthgrp UauthgrpSpec UgroupSpec Uwalk Uadmin.

(** ** Home directories *)

(** An absolute path whose components are names, as directories have them. *)
Definition plain_path (path : list Z) : Prop :=
  exists names, names <> [] /\ path = concat ((fun n => 47 :: n) <$> names) /\
    Forall (fun n => n <> [] /\ (length n <= 14)%nat /\ Forall (fun c => c <> 47 /\ c <> 46 /\ c <> 0) n) names.

(** At most opens of [path] and of what may be below it are affected, and
    directories. *)
Record same_but (path : list Z) (v v' : uview) : Prop := {
  sb_name : uv_name v' = uv_name v;
  sb_data : uv_data v' = uv_data v;
  sb_fd : uv_fd v' = uv_fd v;
  sb_uid : uv_uid v' = uv_uid v;
  sb_may : forall p m, ~ path `prefix_of` p -> uv_may v' p m = uv_may v p m;
  sb_euid : uv_euid v' = uv_euid v }.

#[export] Instance same_but_preorder path : PreOrder (same_but path).
Proof.
  split; [by constructor|]. intros v1 v2 v3 [A1 A2 A3 A4 A5 A6] [B1 B2 B3 B4 B5 B6]. constructor; try congruence.
  intros p m Hp. by rewrite B5, A5.
Qed.

(** Everybody may search the directory, whoever its owner is. *)
Definition searchable (d : dirinfo) : Prop := Z.odd (di_mode d) = true.

Definition DIRMODE : Z := 8 ^ 2 * 7 + 8 * 5 + 5.   (* 0755 *)

(** Making a directory, owned by the user that makes it, where there is none
    yet; the superuser changing the owner of a directory. *)
Class UserHomeSpec (W : Type) `{UserSysSpec W} := {
  us_mkdir_spec : forall w v parent name d,
    let path := parent ++ 47 :: name in
    us_rep w v -> plain_path path -> Forall (fun c => c <> 47) name -> uv_name v !! path = None ->
    uv_dir v !! parent = Some d -> searchable d ->
    wp (us_mkdir path) (fun _ w' => exists v', us_rep w' v' /\ same_but path v v' /\
      uv_dir v' = match uv_dir v !! path with
                  | Some _ => uv_dir v
                  | None => <[path := DirInfo (uv_uid v) (uv_uid v) DIRMODE]> (uv_dir v)
                  end) w;
  us_chown_spec : forall w v path uid gid d,
    us_rep w v -> plain_path path -> uv_euid v = 0 -> uv_dir v !! path = Some d -> searchable d ->
    wp (us_chown path uid gid) (fun _ w' => exists v', us_rep w' v' /\ same_but path v v' /\
      uv_dir v' = <[path := DirInfo uid gid (di_mode d)]> (uv_dir v)) w }.

(** The superuser can make the directory [path], or take it over. *)
Record home_ready (v : uview) (path : list Z) : Prop := {
  hr_plain : plain_path path;
  hr_root : uv_euid v = 0;
  hr_file : uv_name v !! path = None;
  hr_parent : exists parent name d, path = parent ++ 47 :: name /\ Forall (fun c => c <> 47) name /\
    uv_dir v !! parent = Some d /\ searchable d;
  hr_old : forall d, uv_dir v !! path = Some d -> searchable d }.

(** The directories with [path] made, or taken over, for user [uid]. *)
Definition given_home (path : list Z) (uid gid : Z) (v : uview) : gmap (list Z) dirinfo :=
  <[path := DirInfo uid gid (match uv_dir v !! path with Some d => di_mode d | None => DIRMODE end)]> (uv_dir v).

Section home.
Context {W : Type} `{UserHomeSpec W}.

Lemma userfromattr_spec w v username uid gid fullname homedir :
  us_rep w v -> field_ok username -> field_ok fullname -> field_ok homedir -> home_ready v homedir ->
  wp (userfromattr username None uid gid fullname homedir) (fun usr w' =>
    usr = User username None uid gid fullname homedir /\
    exists v', us_rep w' v' /\ same_but homedir v v' /\ uv_dir v' = given_home homedir uid uid v) w.
Proof.
  intros Hw Hu Hn Hh [R1 R2 R3 (parent & name & d & -> & R4 & R5 & R6) R7].
  unfold userfromattr, copy_string. cbn [fmap option_fmap option_map u_homedir]. rewrite !copy_str by done.
  apply wp_bind. eapply wp_mono; [by apply (us_mkdir_spec w v parent name d)|]. cbn beta. intros _ w1 (v1 & Hw1 & Hs1 & Hd1). apply wp_bind.
  set (path := parent ++ 47 :: name) in *. unfold given_home.
  assert (Hd : exists d1, uv_dir v1 !! path = Some d1 /\ searchable d1 /\
    di_mode d1 = match uv_dir v !! path with Some d => di_mode d | None => DIRMODE end).
  { rewrite Hd1. destruct (uv_dir v !! path) as [d'|] eqn:E; [exists d'; split_and!; auto|].
    rewrite lookup_insert_eq. eexists. split_and!; [done|by vm_compute|done]. }
  destruct Hd as (d1 & E1 & Hsearch & Hmode).
  eapply wp_mono; [apply (us_chown_spec w1 v1 path uid uid d1); try done; by rewrite (sb_euid _ _ _ Hs1)|]. cbn beta.
  intros _ w2 (v2 & Hw2 & Hs2 & Hd2). apply wp_ret. split; [done|].
  exists v2. split; [done|]. split; [by transitivity v1|]. rewrite Hd2, Hmode, Hd1.
  destruct (uv_dir v !! path); [done|]. by rewrite insert_insert_eq.
Qed.
End home.

(** ** Free numbers *)

(** [m] is the first number from [n] on that no user has. *)
Definition free_from (us : list user_t) (n m : Z) : Prop :=
  n <= m /\ Forall (fun u => u_uid u <> m) us /\ forall i, n <= i < m -> Exists (fun u => u_uid u = i) us.

Section admin.
Context {W : Type} `{USpec : UserSysSpec W} (junk : list Z) (past : Z) (heap : nat -> Z) (fuel : nat).
Context (Hjunk : length junk = BUFSIZE) (Hjunk0 : nth 0 junk 0 <> 10) (Hpast : past <> 10).

(** [finduserbyuid] finds the first user with the number. *)
Lemma finduserbyuid_spec w v fd f us uid usr :
  reading w v fd f -> uv_data v !! f = Some (passwd us) -> Forall user_ok us ->
  (2 * length (passwd us) + 2 <= fuel)%nat -> (length us < fuel)%nat ->
  wp (finduserbyuid junk past heap fuel fd uid usr 0) (found v fd f (find_at (fun u => u_uid u =? uid) us 0)) w.
Proof using All. intros. by apply (find_user_spec junk past heap fuel Hjunk Hjunk0 Hpast v fd f (passwd us)). Qed.

(** C26: [adduser] refuses a name that is in the password file, and a number other
    than 0 that is, and then leaves the files and the descriptors as they
    were: the password file is not left open, nothing is added to it. *)
Theorem adduser_reserved w v f us username uid fullname homedir availableuid availablegid :
  us_rep w v -> uv_name v !! passwdfile = Some f -> uv_data v !! f = Some (passwd us) -> Forall user_ok us ->
  (2 * length (passwd us) + 2 <= fuel)%nat -> (length us < fuel)%nat ->
  (exists u, u ∈ us /\ (u_username u = cstr username \/ uid <> 0 /\ u_uid u = uid)) ->
  wp (adduser junk past heap fuel username uid fullname homedir availableuid availablegid)
    (fun r w' => us_rep w' v /\ r = if uv_may v passwdfile u_RDWR then RESERVED else NOPERMS) w.
Proof using All.
  intros Hw Hn Hd Hus Hf Hk Htaken. unfold adduser. apply wp_bind.
  eapply wp_mono; [apply (us_open_old w v passwdfile f u_RDWR Hw Hn); by right|].
  intros fd w1 Hopen. destruct (uv_may v passwdfile u_RDWR); [|destruct Hopen as [-> Hw1]; by apply wp_ret].
  destruct Hopen as (Hfd & Hfree & Hw1). rewrite (proj2 (Z.ltb_ge fd 0)) by done. apply wp_bind.
  eapply wp_mono; [apply (finduserbyname_spec junk past heap fuel Hjunk Hjunk0 Hpast w1 v fd f us username None); try done; by exists 0|].
  intros [[code usr] o'] w2 [Hw2 Hr]. destruct (find_at (has_name username) us 0) as [[u o]|] eqn:E.
  { injection Hr as -> -> ->. cbn [Z.eqb]. apply wp_bind, (close_reading w2 v fd f _ Hw2 Hfree). intros _ w3 Hw3. by apply wp_ret. }
  cbn in Hr. subst code. cbn [Z.eqb NOTFOUND]. destruct Htaken as (u & Hu & Hcase).
  pose proof (proj1 (Forall_forall _ _) (find_at_None _ _ _ _ E) u Hu) as Hno. apply bool_decide_eq_false in Hno.
  destruct Hcase as [Hname|[Hnz Huid]]; [done|]. apply wp_bind.
  destruct Hw2 as [off2 Hw2]. eapply wp_mono; [by apply (us_seek_set w2 _ fd f off2 0 Hw2), Z.le_refl; apply lookup_insert_eq|].
  intros ? w3 Hw3. cbn beta in Hw3. rewrite (proj2 (Z.eqb_neq uid 0)) by done. apply wp_bind, wp_bind.
  eapply wp_mono; [apply (finduserbyuid_spec w3 v fd f us uid usr); try done; exists 0; by rewrite <- (uv_set_fd_twice fd f 0 off2)|].
  intros [[code usr'] o''] w4 [Hw4 Hr]. destruct (find_at (fun u => u_uid u =? uid) us 0) as [[u' o]|] eqn:E'.
  - injection Hr as -> -> ->. cbn [Z.eqb]. apply wp_ret, wp_bind, (close_reading w4 v fd f _ Hw4 Hfree). intros _ w5 Hw5. by apply wp_ret.
  - pose proof (proj1 (Forall_forall _ _) (find_at_None _ _ _ _ E') u Hu) as Hno'. cbn in Hno'. lia.
Qed.

(** The users with a number from [n] on. *)
Definition uids_from (n : Z) (us : list user_t) : nat := length (filter (fun u => n <= u_uid u) us).

Lemma uids_from_taken n us : Exists (fun u => u_uid u = n) us -> (uids_from (n + 1) us < uids_from n us)%nat.
Proof.
  assert (Hle : forall l, (uids_from (n + 1) l <= uids_from n l)%nat).
  { intros l. unfold uids_from. induction l as [|u l IH]; [done|]. rewrite !filter_cons. repeat case_decide; cbn; lia. }
  induction 1 as [u us E|u us Hex IH]; unfold uids_from in *; rewrite !filter_cons.
  - rewrite decide_False, decide_True by lia. cbn. specialize (Hle us). unfold uids_from in Hle. lia.
  - repeat case_decide; cbn; lia.
Qed.

Lemma free_uid_spec v f us fd : uv_data v !! f = Some (passwd us) -> Forall user_ok us ->
  (2 * length (passwd us) + 2 <= fuel)%nat -> (length us < fuel)%nat -> forall k n m w usr,
  reading w v fd f -> (uids_from n us < k)%nat -> free_from us n m -> 0 <= n -> m < 2 ^ 31 ->
  wp (free_uid junk past heap fuel k fd n usr) (fun r w' => reading w' v fd f /\ r.1 = m) w.
Proof using All.
  intros Hd Hus Hf Hk. induction k as [|k IH]; intros n m w usr Hw Hn (Hle & Hm & Hbelow) H0 Hmax; [lia|]. cbn [free_uid].
  apply wp_bind. eapply wp_mono; [by apply (finduserbyuid_spec w v fd f us n usr)|].
  intros [[code usr'] o] w1 [Hw1 Hr]. destruct (find_at (fun u => u_uid u =? n) us 0) as [[u o']|] eqn:E.
  - injection Hr as -> -> ->. cbn [Z.eqb]. apply find_at_Some in E as (us1 & us2 & -> & Ht & _).
    apply wp_bind, (seek_reading w1 v fd f 0 _ Hw1); [lia|]. intros _ w2 Hw2.
    assert (Hex : Exists (fun u => u_uid u = n) (us1 ++ u :: us2)) by (apply Exists_app; right; left; lia).
    assert (Hne : n <> m). { intros ->. apply Exists_exists in Hex as (x & Hx & E). by eapply Forall_forall in Hm. }
    pose proof (uids_from_taken n _ Hex). rewrite s32_small by lia.
    apply IH; [done|lia| |lia|done]. split_and!; [lia|done|]. intros i Hi. apply Hbelow. lia.
  - cbn in Hr. subst code. cbn [Z.eqb NOTFOUND]. apply wp_ret. split; [done|]. cbn. apply find_at_None in E.
    destruct (decide (n = m)) as [|Hne]; [done|]. specialize (Hbelow n ltac:(lia)).
    apply Exists_exists in Hbelow as (x & Hx & Ex). eapply Forall_forall in E; [|exact Hx]. cbn in E. lia.
Qed.
End admin.

(** ** A new user *)

Section adduser.
Context {W : Type} `{UserHomeSpec W} (junk : list Z) (past : Z) (heap : nat -> Z) (fuel : nat).
Context (Hjunk : length junk = BUFSIZE) (Hjunk0 : nth 0 junk 0 <> 10) (Hpast : past <> 10).

Lemma writeuser_add w v fd f off us u offset :
  us_rep w (uv_set_fd fd f off v) -> uv_data v !! f = Some (passwd us) -> us <> [] -> user_ok u ->
  wp (writeuser heap fuel fd u offset 0) (fun r w' => r.1 = 0 /\
    exists off', us_rep w' (uv_set_fd fd f off' (uv_store f (passwd (us ++ [u])) v))) w.
Proof.
  intros Hw Hd Hne Hu. apply writeuser_line; [by apply user_ok_str|]. cbn [Z.leb Z.compare]. apply wp_bind.
  eapply wp_mono; [by apply (addline_spec w v fd f off (passwd us))|]. intros r w1 (-> & off1 & Hw1). apply wp_ret.
  split; [done|]. exists off1. unfold passwd, passwd_lines in *. rewrite fmap_app. cbn [fmap list_fmap].
  rewrite unlines_snoc; [done|]. by destruct us.
Qed.

(** The databases and what may be done with them, and a user to be added. *)
Record can_add (v : uview) (fp fg : nat) (us : list user_t) (gs : list members) (u : user_t) : Prop := {
  ca_passwd : uv_name v !! passwdfile = Some fp /\ uv_data v !! fp = Some (passwd us) /\ uv_may v passwdfile u_RDWR = true;
  ca_group : uv_name v !! groupfile = Some fg /\ uv_data v !! fg = Some (groups_file gs) /\ uv_may v groupfile u_RDWR = true;
  ca_temp : uv_name v !! tempfile groupfile = None /\ uv_may v (tempfile groupfile) (Z.lor u_CREATE u_RDWR) = true;
  ca_files : fp <> fg;
  ca_users : Forall user_ok us /\ us <> [];
  ca_groups : Forall members_ok gs /\ gs <> [];
  ca_user : user_ok u /\ name_ok (u_username u) /\ u_password u = None /\ u_gid u = u_uid u /\ u_uid u <> 0;
  ca_home : home_ready v (u_homedir u) /\ ~ u_homedir u `prefix_of` groupfile /\ ~ u_homedir u `prefix_of` tempfile groupfile;
  ca_name : Forall (fun x => u_username x <> u_username u) us;
  ca_fresh : Forall (fun g => m_name g <> u_username u /\ m_gid g <> u_uid u) gs;
  ca_fuel : (2 * length (passwd us) + 2 <= fuel /\ length us < fuel /\ S (length gs) < fuel /\
             2 * length (groups_file (gs ++ [Members (u_username u) (u_uid u) []])) + length (u_username u) + 2 <= fuel)%nat }.

(** The databases with the user in them, and the home directory of the user;
    other directories are as before. *)
Record added (v : uview) (fp fg : nat) (us : list user_t) (gs : list members) (u : user_t) (v' : uview) : Prop := {
  ad_passwd : uv_data v' !! fp = Some (passwd (us ++ [u]));
  ad_group : uv_data v' !! fg = Some (groups_file (gs ++ [Members (u_username u) (u_uid u) [u_username u]]));
  ad_rest : forall g x, g <> fp -> g <> fg -> uv_data v !! g = Some x -> uv_data v' !! g = Some x;
  ad_name : uv_name v' = uv_name v;
  ad_fd : uv_fd v' = uv_fd v;
  ad_uid : uv_uid v' = uv_uid v;
  ad_home : uv_dir v' = given_home (u_homedir u) (u_uid u) (u_uid u) v }.

(** The part of [adduser] behind the searches. *)
Lemma adduser_record w v fd fp fg us gs u off offset availablegid (Q : Z -> W -> Prop) :
  can_add v fp fg us gs u -> uv_fd v !! fd = None -> us_rep w (uv_set_fd fd fp off v) ->
  (forall w' v', us_rep w' v' -> added v fp fg us gs u v' -> Q 0 w') ->
  wp (let* usr := userfromattr (u_username u) None (u_uid u) (u_uid u) (u_fullname u) (u_homedir u) in
      let* (code, _) := addgroup junk past heap fuel (u_username u) (u_uid u) availablegid in
      if code <? 0 then ret RESERVED else
      let* code := changegroups junk past heap fuel (u_username u) (u_username u) 0 in
      if code <? 0 then ret UNKNOWN else
      let* (code, _) := writeuser heap fuel fd usr offset 0 in
      do* us_close fd in
      ret code) Q w.
Proof using All.
  intros [(Pn & Pd & Pm) (Gn & Gd & Gm) (Tn & Tm) Hne [Hus Hus0] [Hgs Hgs0] (Hu & Huname & Hpass & Hgid & Hnz) (Hp & Hp1 & Hp2) Hname Hfresh
    (F1 & F2 & F3 & F4)] Hfree Hw HQ.
  pose proof Hu as [U1 _ U3 _ U5 U6]. apply wp_bind.
  eapply wp_mono; [apply (userfromattr_spec w (uv_set_fd fd fp off v) (u_username u)); try done; by destruct Hp|].
  intros usr w1 (-> & v1 & Hw1 & [S1 S2 S3 S4 S5 S6] & Sd). change (given_home _ _ _ (uv_set_fd _ _ _ v)) with (given_home (u_homedir u) (u_uid u) (u_uid u) v) in Sd.
  assert (Eu : User (u_username u) None (u_uid u) (u_uid u) (u_fullname u) (u_homedir u) = u).
  { destruct u. cbn in *. by subst. }
  rewrite Eu. clear Eu. cbn [uv_set_fd uv_name uv_data uv_fd uv_uid uv_may] in *.
  apply wp_bind. eapply wp_mono.
  { apply (addgroup_spec junk past heap fuel Hjunk Hjunk0 Hpast w1 v1 fg gs); try done; try congruence; [by rewrite S5| |lia].
    unfold group_lines in F4. rewrite fmap_app in F4. cbn [fmap list_fmap] in F4. rewrite unlines_snoc, length_app in F4; [unfold group_lines; lia|by destruct gs]. }
  intros [code ?] w2 (Hcode & v2 & Hw2 & [A1 A2 A3 A4 A5 A6 A7 A8]). cbn in Hcode. subst code. cbn [Z.ltb Z.compare]. apply wp_bind.
  set (g := Members (u_username u) (u_uid u) []) in *. eapply wp_mono.
  { apply (changegroups_spec junk past heap fuel Hjunk Hjunk0 Hpast w2 v2 fg gs g [] (u_username u)); try done; try congruence.
    - by rewrite A2, S5.
    - by rewrite A2, S5.
    - apply Forall_app. split; [done|]. by apply Forall_singleton.
    - rewrite length_app. cbn. lia.
    - eapply Forall_impl; [exact Hfresh|]. by intros x []. }
  intros code w3 (-> & v3 & Hw3 & [B1 B2 B3 B4 B5 B6 B7 B8]). cbn [Z.ltb Z.compare]. apply wp_bind.
  assert (E3 : v3 = uv_set_fd fd fp off v3).
  { destruct v3. unfold uv_set_fd. cbn in *. f_equal. symmetry. apply insert_id. rewrite B4, A4, S3. apply lookup_insert_eq. }
  rewrite E3 in Hw3. eapply wp_mono.
  { apply (writeuser_add w3 v3 fd fp off us u); try done. apply B6; [done|]. apply A6; [done|]. by rewrite S2. }
  intros [code ?] w4 (Hcode & off4 & Hw4). cbn in Hcode. subst code. apply wp_bind.
  eapply wp_mono; [apply (us_close_spec w4 _ fd fp off4 Hw4), uv_set_fd_lookup|]. intros r w5 [_ Hw5]. apply wp_ret, (HQ w5 _ Hw5).
  constructor; cbn.
  - apply lookup_insert_eq.
  - by rewrite lookup_insert_ne.
  - intros k x Hk1 Hk2 Hx. rewrite lookup_insert_ne by done. apply B6; [done|]. apply A6; [done|]. by rewrite S2.
  - congruence.
  - rewrite B4, A4, S3, insert_insert_eq. by apply delete_insert_id.
  - congruence.
  - congruence.
Qed.

(** [adduser] adds a user to both databases: with the number asked for, or with
    the first free one if 0 is asked for, a line for the user at the end of the
    password file and a line for a group of the same name and number, with the
    user as its member, at the end of the group file; and the home directory is
    there and is the user's.  No other file or directory changes, and the
    descriptors are closed. *)
Theorem adduser_correct w v fp fg us gs u uid availableuid availablegid :
  us_rep w v -> can_add v fp fg us gs u ->
  (if uid =? 0 then 0 <= availableuid /\ free_from us availableuid (u_uid u)
   else u_uid u = uid /\ Forall (fun x => u_uid x <> uid) us) ->
  wp (adduser junk past heap fuel (u_username u) uid (u_fullname u) (u_homedir u) availableuid availablegid) (fun r w' => r = 0 /\
    exists v', us_rep w' v' /\ added v fp fg us gs u v') w.
Proof using All.
  intros Hw Hcan Huid. pose proof Hcan as [(Pn & Pd & Pm) _ _ _ [Hus _] _ (Hu & _) _ Hname _ (F1 & F2 & _)].
  unfold adduser. apply wp_bind.
  eapply wp_mono; [apply (us_open_old w v passwdfile fp u_RDWR Hw Pn); by right|]. rewrite Pm.
  intros fd w1 (Hfd & Hfree & Hw1). rewrite (proj2 (Z.ltb_ge fd 0)) by done. apply wp_bind.
  eapply wp_mono; [apply (finduserbyname_spec junk past heap fuel Hjunk Hjunk0 Hpast w1 v fd fp us (u_username u) None); try done; by exists 0|].
  intros [[code usr] o] w2 [Hw2 Hr]. rewrite find_at_absent in Hr.
  2:{ eapply Forall_impl; [exact Hname|]. intros x Hx. unfold has_name. rewrite cstr_field by apply Hu. by apply bool_decide_eq_false. }
  cbn in Hr. subst code. cbn [Z.eqb NOTFOUND]. apply wp_bind, (seek_reading w2 v fd fp 0 _ Hw2); [lia|]. intros _ w3 Hw3. apply wp_bind.
  apply (wp_mono _ (fun taken w' => reading w' v fd fp /\ exists offset, taken = Some (u_uid u, offset))).
  { destruct (Z.eqb_spec uid 0) as [->|Hnz]; apply wp_bind.
    - destruct Huid as [H0' Hff]. pose proof Hu as [_ _ [_ Hmax] _ _ _]. pose proof (length_filter (fun x => availableuid <= u_uid x) us).
      eapply wp_mono; [apply (free_uid_spec junk past heap fuel Hjunk Hjunk0 Hpast v fp us fd Pd Hus F1 F2 fuel availableuid (u_uid u)); try done; unfold uids_from; lia|].
      intros [m offset] w4 [Hw4 Hm]. cbn in Hm. subst m. apply wp_ret. split; [done|]. by exists offset.
    - destruct Huid as [-> Huid]. eapply wp_mono; [by apply (finduserbyuid_spec junk past heap fuel Hjunk Hjunk0 Hpast w3 v fd fp us uid usr)|].
      intros [[code usr'] offset] w4 [Hw4 Hr]. rewrite find_at_absent in Hr.
      2:{ eapply Forall_impl; [exact Huid|]. intros x Hx. by apply Z.eqb_neq. }
      cbn in Hr. subst code. cbn [Z.eqb NOTFOUND]. apply wp_ret. split; [done|]. by exists offset. }
  intros taken w4 ([off4 Hw4] & offset & ->). apply (adduser_record w4 v fd fp fg us gs u off4); [done..|].
  intros w5 v5 Hw5 Hadd. split; [done|]. by exists v5.
Qed.
End adduser.
