(* ===== verification/Ucmds.v ===== *)
(** * Command line programs

    The programs that administer users and files: [user/useradd.c],
    [user/groupadd.c], [user/usermod.c], [user/passwd.c], [user/finduser.c],
    [user/chown.c], [user/chgrp.c], [user/mkdir.c], [user/rm.c], [user/ln.c],
    [user/kill.c], [user/ls.c], [user/procowners.c], the [main] of [user/grep.c], the whole
    of [user/getty.c], and [gets] of [user/ulib.c].

    A program is its [main] with the arguments after its name.  An argument
    behind the last one is a null pointer; using it is a fault. *)

From S2P Require Import Prelude CString Layout Fs Console UserSys Ufile Uauth Uauthgrp Uprintf Uwalk Uadmin Grep.

(** [stat], as far as owner and group go. *)
Class UserOwner (W : Type) := {
  uo_stat : list Z -> M W (option (Z * Z)) }.

(** [stat] and [fstat]; [ut_mode] are the letters of the mode. *)
Record ustat := UStat { ut_type : Z; ut_ino : Z; ut_size : Z; ut_mode : list Z; ut_uid : Z; ut_gid : Z }.
Class UserStat (W : Type) := {
  ut_stat : list Z -> M W (option ustat);
  ut_fstat : Z -> M W (option ustat) }.

(** System calls on the process and the console.  [up_exec] returns on failure
    only. *)
Class UserProc (W : Type) := {
  up_kill : Z -> M W Z;
  up_geteuid : M W Z;
  up_setuid : Z -> M W Z;
  up_setgrps : list Z -> M W Z;
  up_exec : list Z -> list (list Z) -> M W unit;
  up_hideinp : M W unit;
  up_showinp : M W unit;
  up_clrscr : M W unit }.

(** The arguments are compared with options by [strcmp]. *)
Definition is_arg (arg : list Z) (opt : string) : bool := strcmp arg (str opt) =? 0.

(** ** Options *)

(** What [useradd] and [usermod] collect. *)
Record opts := Opts {
  o_login : option (list Z);     (* newusername *)
  o_name : option (list Z);      (* fullname *)
  o_dir : option (list Z);       (* homedir *)
  o_uid : Z;
  o_group : option (list Z);     (* argv[groupindex] *)
  o_m : bool;
  o_a : bool }.
Definition no_opts : opts := Opts None None None 0 None false false.

(** The loop of [useradd] at [argv], the arguments from index [i] on; it stops
    at the last one.  [None]: user 0 is refused. *)
Fixpoint useradd_opts (argv : list (list Z)) (o : opts) : option (opts * list (list Z)) :=
  match argv with
  | arg :: ((val :: rest) as argv') =>
      if is_arg arg "-c" then useradd_opts rest (Opts (o_login o) (Some (copy_string val)) (o_dir o) (o_uid o) (o_group o) (o_m o) (o_a o))
      else if is_arg arg "-d" then useradd_opts rest (Opts (o_login o) (o_name o) (Some (copy_string val)) (o_uid o) (o_group o) (o_m o) (o_a o))
      else if is_arg arg "-u" then
        let uid := atoi val in
        if uid =? 0 then None else useradd_opts rest (Opts (o_login o) (o_name o) (o_dir o) uid (o_group o) (o_m o) (o_a o))
      else useradd_opts argv' o
  | _ => Some (o, argv)
  end.

Fixpoint usermod_opts (argv : list (list Z)) (o : opts) : option (opts * list (list Z)) :=
  match argv with
  | arg :: ((val :: rest) as argv') =>
      if is_arg arg "-l" then usermod_opts rest (Opts (Some (copy_string val)) (o_name o) (o_dir o) (o_uid o) (o_group o) (o_m o) (o_a o))
      else if is_arg arg "-c" then usermod_opts rest (Opts (o_login o) (Some (copy_string val)) (o_dir o) (o_uid o) (o_group o) (o_m o) (o_a o))
      else if is_arg arg "-d" then usermod_opts rest (Opts (o_login o) (o_name o) (Some (copy_string val)) (o_uid o) (o_group o) (o_m o) (o_a o))
      else if is_arg arg "-u" then
        let uid := atoi val in
        if uid =? 0 then None else usermod_opts rest (Opts (o_login o) (o_name o) (o_dir o) uid (o_group o) (o_m o) (o_a o))
      else if is_arg arg "-g" then usermod_opts rest (Opts (o_login o) (o_name o) (o_dir o) (o_uid o) (Some val) (o_m o) (o_a o))
      else if is_arg arg "-m" then usermod_opts argv' (Opts (o_login o) (o_name o) (o_dir o) (o_uid o) (o_group o) true (o_a o))
      else if is_arg arg "-a" then usermod_opts argv' (Opts (o_login o) (o_name o) (o_dir o) (o_uid o) (o_group o) (o_m o) true)
      else usermod_opts argv' o
  | _ => Some (o, argv)
  end.

Section programs.
Context {W : Type} `{UserSys W} `{UserDir W} `{UserOwner W} `{UserStat W} `{UserProc W}.
Context (junk : list Z) (past : Z) (heap : nat -> Z) (fuel many depth : nat).

Definition say (s : string) : M W unit := printf (str s ++ [10]) [].

(** [availableuid] and [availablegid] start at 1002. *)
Definition useradd_main (argv : list (list Z)) : M W unit :=
  if negb (S (length argv) mod 2 =? 0)%nat then say "usage: useradd [-d dir] [-u uid] [-c name] login" else
  match useradd_opts argv no_opts with
  | None => say "UID 0 is reserved for the Superuser."
  | Some (o, rest) =>
      let* login := deref (head rest) "argv[i]" in
      let username := copy_string login in
      let fullname := default username (o_name o) in
      let homedir := default (str "/home/" ++ username) (o_dir o) in
      let* code := adduser junk past heap fuel username (o_uid o) fullname homedir 1002 1002 in
      if code =? RESERVED then say "The provided UID and/or username are not available."
      else if code =? NOPERMS then say "Insufficient permissions to add a new user."
      else if code <? 0 then say "Unknown error"
      else printf (str "User %s added successfully." ++ [10]) [AStr (Some username)]
  end.

Definition groupadd_main (argv : list (list Z)) : M W unit :=
  if negb (S (length argv) mod 2 =? 0)%nat then say "usage: groupadd [-g gid] naziv_grupe" else
  let* first := deref (argv !! 0%nat) "argv[1]" in
  let* (gid, name) :=
    if is_arg first "-g" then
      let* val := deref (argv !! 1%nat) "argv[2]" in
      let* name := deref (argv !! 2%nat) "argv[3]" in
      ret (atoi val, name)
    else ret (0, first) in
  let groupname := copy_string name in
  let* (code, _) := addgroup junk past heap fuel groupname gid 1002 in
  if code =? 0 then printf (str "Group %s added successfully." ++ [10]) [AStr (Some groupname)]
  else if code =? RESERVED then say "The provided GID and/or groupname are not available."
  else when code =? NOPERMS then say "Insufficient permissions to add a new group.".

Definition usermod_main (argv : list (list Z)) : M W unit :=
  if (S (length argv) <? 3)%nat then
    say "usage: usermod [-l login] [-u UID] [-c name] [-d dir] [-m] [-G grupa...] [-a] login" else
  match usermod_opts argv no_opts with
  | None => say "UID 0 is reserved for the Superuser."
  | Some (o, rest) =>
      let* login := deref (head rest) "argv[i]" in
      let username := copy_string login in
      let* code := changeuser junk past heap fuel many depth username (o_login o) (o_uid o) (o_name o) (o_dir o) (o_m o) in
      if code =? RESERVED then say "The provided UID and/or username are not available."
      else if code =? NOPERMS then say "Insufficient permissions to modify user."
      else if code <? 0 then say "Unknown error"
      else
        do* printf (str "User %s modified successfully." ++ [10]) [AStr (Some username)] in
        match o_group o with
        | None => ret tt
        | Some groups =>
            let flag := if o_a o then 1 else 0 in
            do* match o_login o with
                | Some newusername => let* _ := changegroups junk past heap fuel newusername groups flag in ret tt
                | None => ret tt
                end in
            let* _ := changegroups junk past heap fuel username groups flag in
            ret tt
        end
  end.

Definition finduser_main (argv : list (list Z)) : M W unit :=
  match argv with
  | [arg] =>
      let* (code, user) := getusername junk past heap fuel (atoi arg) in
      if code =? 0 then printf (str "%s" ++ [10]) [AStr user]
      else if code =? -1 then say "User not found."
      else when code =? -1000 then say "Insufficient permissions to read file."
  | _ => ret tt
  end.

(** ** Input *)

Fixpoint ugets_loop (room : nat) (buf : list Z) : M W (list Z) :=
  match room with
  | O => ret buf
  | S room =>
      let* (cc, l) := us_read 0 1 in
      if cc <? 1 then ret buf else
      let c := chr l in
      if (c =? 10) || (c =? 13) then ret (buf ++ [c]) else ugets_loop room (buf ++ [c])
  end.
(** The bytes stored before the NUL. *)
Definition ugets (max : nat) : M W (list Z) := ugets_loop (max - 1) [].

(** [getinput] of [passwd] and [getty]: [None] at the end of the input, or if
    the first byte is NUL. *)
Definition getinput (nbuf : nat) : M W (option (list Z)) :=
  let* got := ugets nbuf in
  let buf := got ++ replicate (nbuf - length got) 0 in
  ret (if chr buf =? 0 then None else Some buf).

(** [None]: the program exits. *)
Definition ask (prompt : list Z) : M W (option (list Z)) :=
  do* printf prompt [] in
  let* buf := getinput 100 in
  ret (typed <$> buf).

(** A program that exits early leaves the input hidden. *)
Definition passwd_main (argv : list (list Z)) : M W unit :=
  do* up_hideinp in
  let* oldpwd := ask (str "Enter your old password: ") in
  match oldpwd with None => ret tt | Some oldpwd =>
  let* newpwd := ask (10 :: str "Enter your new password: ") in
  match newpwd with None => ret tt | Some newpwd =>
  let* again := ask (10 :: str "Enter your new password once more: ") in
  match again with None => ret tt | Some newpwdagain =>
  do* up_showinp in
  do* printf [10] [] in
  if negb (strcmp newpwd newpwdagain =? 0) then say "Your new password didn't match." else
  let* user :=
    match argv with
    | [arg] => if 128 <? strlen arg + 1 then fault "buffer overrun" else ret (Some (copy_string arg))
    | _ =>
        let* uid := us_getuid in
        let* (code, user) := getusername junk past heap fuel uid in
        ret (if code =? 0 then user else None)
    end in
  match user with None => say "User not found." | Some user =>
  let* code := changepass junk past heap fuel user oldpwd newpwd in
  if code =? NOTFOUND then say "User not found."
  else if code =? AUTHFAIL then say "Password change failed. Authentication error"
  else if code <? 0 then say "Unknown error"
  else say "Password changed successfully."
  end end end end.

(** ** Owners *)

(** A flag of [extractuid] is set if the part is missing: the owner is then
    kept ([Keep]).  [Exit]: a message, and the program exits. *)
Inductive extracted := Keep | Use (id : Z) | Exit.

Definition extractuid (info : list Z) : M W extracted :=
  match strchr info COLON with
  | None => ret Keep
  | Some n =>
      let length := n + 1 in
      if length <? 2 then ret Keep else
      let s := cstr (safestrcpy info length) in
      let* (code, uid) :=
        if is_digit (chr s) then
          let* (code, _) := getusername junk past heap fuel (atoi s) in ret (code, Some (atoi s))
        else getuidforname junk past heap fuel s in
      if code <? 0 then do* say "No such user found." in ret Exit else
      let* uid := deref uid "uid" in
      ret (Use uid)
  end.

(** Without a colon [i] is taken from the null pointer, and [str] gets more room
    than the stack has. *)
Definition extractgid (info : list Z) : M W extracted :=
  match strchr info COLON with
  | None => fault "char str[length]"
  | Some n =>
      let i := n + 1 in
      let length := strlen info - i + 1 in
      if length <? 2 then ret Keep else
      let s := cstr (safestrcpy (drop (Z.to_nat i) info) length) in
      let* (code, gid) :=
        if is_digit (chr s) then
          let* (code, _) := getgroupname junk past heap fuel (atoi s) in ret (code, Some (atoi s))
        else getgidforname junk past heap fuel s in
      if code <? 0 then do* say "No such group found." in ret Exit else
      let* gid := deref gid "gid" in
      ret (Use gid)
  end.

(** Every file is opened, and not closed. *)
Fixpoint try_files (files : list (list Z)) : M W bool :=
  match files with
  | [] => ret true
  | file :: files =>
      let* fd := us_open file u_RDONLY in
      if fd <? 0 then do* printf (str "File %s is invalid or unreadable." ++ [10]) [AStr (Some file)] in ret false
      else try_files files
  end.

Definition chown_file (owner group : extracted) (file : list Z) : M W unit :=
  let* ids :=
    match owner, group with
    | Use uid, Use gid => ret (Some (uid, gid))
    | _, _ =>
        let* st := uo_stat file in
        ret ((fun st : Z * Z => (match owner with Use uid => uid | _ => st.1 end, match group with Use gid => gid | _ => st.2 end)) <$> st)
    end in
  match ids with
  | None => printf (str "Couldn't stat file %s." ++ [10]) [AStr (Some file)]
  | Some (uid, gid) =>
      let* r := us_chown file uid gid in
      if r <? 0 then printf (str "Couldn't change permissions of file %s." ++ [10]) [AStr (Some file)]
      else printf (str "Successfully changed permissions of file %s." ++ [10]) [AStr (Some file)]
  end.

Fixpoint each (act : list Z -> M W unit) (files : list (list Z)) : M W unit :=
  match files with
  | [] => ret tt
  | file :: files => do* act file in each act files
  end.

Definition chown_main (argv : list (list Z)) : M W unit :=
  let* me := us_getuid in
  if negb (me =? 0) then printf (str "This program is only available while logged into Superuser.") [] else
  match argv with
  | info :: ((_ :: _) as files) =>
      let* owner := extractuid info in
      match owner with Exit => ret tt | _ =>
      let* group := extractgid info in
      match group with Exit => ret tt | _ =>
      let* ok := try_files files in
      when ok then each (chown_file owner group) files
      end end
  | _ => say "usage: chown [owner][:[group]] file..."
  end.

Definition chgrp_gid (info : list Z) : M W (option Z) :=
  let* (code, gid) :=
    if is_digit (chr info) then
      let* (code, _) := getgroupname junk past heap fuel (atoi info) in ret (code, Some (atoi info))
    else getgidforname junk past heap fuel info in
  if negb (code =? 0) then do* say "No such group found." in ret None else
  let* gid := deref gid "gid" in
  ret (Some gid).

Definition chgrp_file (gid : Z) (file : list Z) : M W unit :=
  let* st := uo_stat file in
  match st with
  | None => printf (str "Couldn't stat file %s." ++ [10]) [AStr (Some file)]
  | Some (uid, _) =>
      let* r := us_chown file uid gid in
      when r <? 0 then printf (str "Couldn't change permissions of file %s." ++ [10]) [AStr (Some file)]
  end.

Definition chgrp_main (argv : list (list Z)) : M W unit :=
  let* me := us_getuid in
  if negb (me =? 0) then printf (str "This program is only available while logged into Superuser.") [] else
  match argv with
  | info :: ((_ :: _) as files) =>
      let* gid := chgrp_gid info in
      match gid with
      | None => ret tt
      | Some gid =>
          let* ok := try_files files in
          when ok then each (chgrp_file gid) files
      end
  | _ => say "chgrp group files..."
  end.

(** ** Files and processes *)

Fixpoint mkdir_all (files : list (list Z)) : M W unit :=
  match files with
  | [] => ret tt
  | file :: files =>
      let* r := us_mkdir file in
      if r <? 0 then fprintf 2 (str "mkdir: %s failed to create" ++ [10]) [AStr (Some file)] else mkdir_all files
  end.
Definition mkdir_main (argv : list (list Z)) : M W unit :=
  match argv with [] => fprintf 2 (str "Usage: mkdir files..." ++ [10]) [] | _ => mkdir_all argv end.

Fixpoint rm_all (files : list (list Z)) : M W unit :=
  match files with
  | [] => ret tt
  | file :: files =>
      let* r := us_unlink file in
      if r <? 0 then fprintf 2 (str "rm: %s failed to delete" ++ [10]) [AStr (Some file)] else rm_all files
  end.
Definition rm_main (argv : list (list Z)) : M W unit :=
  match argv with [] => fprintf 2 (str "Usage: rm files..." ++ [10]) [] | _ => rm_all argv end.

Definition ln_main (argv : list (list Z)) : M W unit :=
  match argv with
  | [old; new] =>
      let* r := ud_link old new in
      when r <? 0 then fprintf 2 (str "link %s %s: failed" ++ [10]) [AStr (Some old); AStr (Some new)]
  | _ => fprintf 2 (str "Usage: ln old new" ++ [10]) []
  end.

Definition kill_main (argv : list (list Z)) : M W unit :=
  match argv with
  | [] => fprintf 2 (str "usage: kill pid..." ++ [10]) []
  | _ => each (fun arg => do* up_kill (atoi arg) in ret tt) argv
  end.

Definition procowners_main : M W unit :=
  let* uid := us_getuid in
  let* euid := up_geteuid in
  printf (str "%d %d" ++ [10]) [AInt uid; AInt euid].

Fixpoint grep_files (pattern : list Z) (files : list (list Z)) : M W unit :=
  match files with
  | [] => ret tt
  | file :: files =>
      let* fd := us_open file u_RDONLY in
      if fd <? 0 then printf (str "grep: cannot open %s" ++ [10]) [AStr (Some file)] else
      do* grep fuel pattern fd [] in
      do* us_close fd in
      grep_files pattern files
  end.
Definition grep_main (argv : list (list Z)) : M W unit :=
  match argv with
  | [] => fprintf 2 (str "usage: grep pattern [file ...]" ++ [10]) []
  | [pattern] => grep fuel pattern 0 []
  | pattern :: files => grep_files pattern files
  end.

(** ** ls *)

Definition ls_short (path : list Z) (st : ustat) : M W unit :=
  printf (str "%s %d %d %d" ++ [10]) [AStr (Some (fmtname path 32)); AInt (ut_type st); AInt (ut_ino st); AInt (ut_size st)].

Definition ls_long (path : list Z) (st : ustat) : M W unit :=
  let* (code, user) := getusername junk past heap fuel (ut_uid st) in
  let user := if code =? 0 then user else Some (str "NULL") in
  let* (code, group) := getgroupname junk past heap fuel (ut_gid st) in
  let group := if code =? 0 then group else Some (str "NULL") in
  printf (str "%s %d %d %d %s %s %s" ++ [10])
    [AStr (Some (fmtname path 32)); AInt (ut_type st); AInt (ut_ino st); AInt (ut_size st); AStr (Some (ut_mode st)); AStr user; AStr group].

Fixpoint ls_entries (k : nat) (path : list Z) (fd : Z) (flag : bool) : M W unit :=
  match k with
  | O => fault "fuel"
  | S k =>
      let* e := ud_read fd in
      match e with
      | None => ret tt
      | Some (inum, name) =>
          if inum =? 0 then ls_entries k path fd flag else
          let buf := path ++ [47] ++ cstr name in
          let* st := ut_stat buf in
          do* match st with
              | None => printf (str "ls: cannot stat %s" ++ [10]) [AStr (Some buf)]
              | Some st => if flag then ls_long buf st else ls_short buf st
              end in
          ls_entries k path fd flag
      end
  end.

Definition ls (path : list Z) (flag : bool) : M W unit :=
  let* fd := us_open path u_RDONLY in
  if fd <? 0 then fprintf 2 (str "ls: cannot open %s" ++ [10]) [AStr (Some path)] else
  let* st := ut_fstat fd in
  do* match st with
      | None => fprintf 2 (str "ls: cannot stat %s" ++ [10]) [AStr (Some path)]
      | Some st =>
          if ut_type st =? T_FILE then ls_short path st
          else when ut_type st =? T_DIR then
            if too_long path then say "ls: path too long" else ls_entries many path fd flag
      end in
  do* us_close fd in
  ret tt.

Definition ls_main (argv : list (list Z)) : M W unit :=
  let flag := match argv with arg :: _ => is_arg arg "-l" | [] => false end in
  match (if flag then tail argv else argv) with
  | [] => ls (str ".") flag
  | files => each (fun file => ls file flag) files
  end.

(** ** getty *)

(** [false]: the program exits.  The buffer is not terminated: a message of 128
    bytes or more runs on behind it. *)
Definition writeMessage (path : list Z) : M W bool :=
  let* fd := us_open path u_RDONLY in
  if fd <? 0 then ret false else
  let* (_, l) := us_read fd 128 in
  let buf := l ++ drop (length l) junk in
  if negb (bool_decide (0 ∈ buf)) then fault "buffer overrun" else
  do* printf (str "%s" ++ [10]) [AStr (Some buf)] in
  do* us_close fd in
  ret true.

(** [getty] with the two lines read; [None]: the program exits. *)
Definition getty_attempt (uid : option Z) (gids : list Z) : M W (option (Z * option Z * list Z)) :=
  do* printf (str "Enter your username: ") [] in
  let* userbuf := getinput 100 in
  match userbuf with
  | None => ret None
  | Some userbuf =>
      do* printf (str "Enter your password: ") [] in
      let* passbuf := getinput 100 in
      match passbuf with
      | None => ret None
      | Some passbuf => let* r := getty junk past heap fuel userbuf passbuf uid gids in ret (Some r)
      end
  end.

Fixpoint getty_loop (k : nat) (uid : option Z) (gids : list Z) : M W (option (option Z * list Z)) :=
  match k with
  | O => fault "fuel"
  | S k =>
      let* r := getty_attempt uid gids in
      match r with
      | None => ret None
      | Some (success, uid, gids) =>
          if success =? 0 then ret (Some (uid, gids)) else
          do* say "Invalid user or missing home directory. Please try again" in
          getty_loop k uid gids
      end
  end.

Fixpoint open_console (k : nat) : M W unit :=
  match k with
  | O => fault "fuel"
  | S k =>
      let* fd := us_open (str "/dev/console") u_RDWR in
      if fd <? 0 then ret tt else
      if 3 <=? fd then do* us_close fd in ret tt else open_console k
  end.

Definition getty_main : M W unit :=
  do* open_console fuel in
  let* me := us_getuid in
  if negb (me =? 0) then
    say "Improper way to enter getty. Close the shell and getty will reopen automatically for you." else
  do* up_clrscr in
  let* go := writeMessage (str "/etc/issue") in
  if negb go then ret tt else
  let* r := getty_loop fuel None [] in
  match r with
  | None => ret tt
  | Some (uid, gids) =>
      let* go := writeMessage (str "/etc/motd") in
      if negb go then ret tt else
      let* r := up_setgrps gids in
      do* when negb (r =? 0) then say "Major permission issue" in
      let* uid := deref uid "uid" in
      let* r := up_setuid uid in
      do* when negb (r =? 0) then say "Major permission issue" in
      do* up_exec (str "/bin/sh") [str "sh"] in
      say "getty: exec sh failed"
  end.
End programs.
