(* ===== verification/UcmdsSpec.v ===== *)
(** * The command line programs

    [gets] reads one line and no more than its buffer holds, [useradd]
    understands its options and adds the user, and [chown] and [chgrp] do
    nothing for an ordinary user but write a message. *)

From S2P Require Import Prelude CString Console UserSys Ufile UfileSpec Uauth UauthSpec Uauthgrp UauthgrpSpec UgroupSpec Uprintf Uwalk Uadmin UadminSpec Grep Ucmds.

(** ** Input *)

(** At most [room] bytes, up to and with the end of the line. *)
Fixpoint upto_eol (room : nat) (l : list Z) : list Z :=
  match room, l with
  | S room, c :: l => if (c =? 10) || (c =? 13) then [c] else c :: upto_eol room l
  | _, _ => []
  end.

Lemma ugets_loop_spec {W} `{UserSysSpec W} v f d room : forall w off buf,
  us_rep w (uv_set_fd 0 f off v) -> uv_data v !! f = Some d -> 0 <= off <= Z.of_nat (length d) ->
  wp (ugets_loop room buf) (fun r w' => r = buf ++ upto_eol room (drop (Z.to_nat off) d) /\
    us_rep w' (uv_set_fd 0 f (off + Z.of_nat (length (upto_eol room (drop (Z.to_nat off) d)))) v)) w.
Proof.
  induction room as [|room IH]; intros w off buf Hw Hd Hoff; cbn [ugets_loop upto_eol].
  { apply wp_ret. by rewrite app_nil_r, Z.add_0_r. }
  apply wp_bind. eapply wp_mono; [by apply (us_read_spec w _ 0 f off d 1 Hw (uv_set_fd_lookup _ _ _ _)); [done|lia|lia]|].
  intros [cc l] w1 Hr. rewrite (proj2 (Z.leb_le off _)) in Hr by lia. destruct Hr as (-> & -> & Hw1).
  rewrite uv_set_fd_twice in Hw1. unfold bytes_at in *. change (Z.to_nat 1) with 1%nat in *.
  destruct (drop (Z.to_nat off) d) as [|c rest] eqn:Ed.
  { change (Z.of_nat (length (take 1 (@nil Z))) <? 1) with true. cbv iota. apply wp_ret. by rewrite app_nil_r. }
  cbn [take length chr hd] in *. change (Z.of_nat 1 <? 1) with false. cbv iota.
  destruct ((c =? 10) || (c =? 13)); [by apply wp_ret|].
  assert (Erest : drop (Z.to_nat (off + Z.of_nat 1)) d = rest).
  { rewrite Z2Nat.inj_add, Nat2Z.id, <- drop_drop, Ed by lia. done. }
  assert (Hlen : Z.of_nat (length d) >= off + 1).
  { pose proof (length_drop d (Z.to_nat off)) as E. rewrite Ed in E. cbn in E. lia. }
  eapply wp_mono; [apply (IH w1 (off + Z.of_nat 1) (buf ++ [c]) Hw1 Hd); lia|]. rewrite Erest.
  intros r w2 [-> Hw2]. rewrite <- app_assoc. split; [done|]. cbn [length]. by replace (off + _) with (off + Z.of_nat 1 + Z.of_nat (length (upto_eol room rest))) by lia.
Qed.

(** [gets] on the standard input reads the rest of the line, up to the newline
    or carriage return, but no more than fits the buffer with its NUL; what it
    has not read stays in the input. *)
Theorem ugets_correct {W} `{UserSysSpec W} (w : W) v f off d max :
  us_rep w v -> uv_fd v !! 0 = Some (f, off) -> uv_data v !! f = Some d -> 0 <= off <= Z.of_nat (length d) ->
  wp (ugets max) (fun r w' => r = upto_eol (max - 1) (drop (Z.to_nat off) d) /\ (length r <= max - 1)%nat /\
    us_rep w' (uv_set_fd 0 f (off + Z.of_nat (length r)) v)) w.
Proof.
  intros Hw Hfd Hd Hoff. assert (E : v = uv_set_fd 0 f off v).
  { destruct v. unfold uv_set_fd. cbn in *. by rewrite insert_id. }
  rewrite E in Hw. eapply wp_mono; [by apply (ugets_loop_spec v f d (max - 1) w off [])|]. cbn [app]. intros r w' [-> Hw'].
  split_and!; [done| |done]. generalize (drop (Z.to_nat off) d). clear. induction (max - 1)%nat as [|n IH]; intros [|c l]; cbn; try lia.
  destruct (_ || _); cbn; [lia|]. specialize (IH l). lia.
Qed.

(** ** Standard output *)

(** [dt] in the file [fo], with the standard output at its end. *)
Definition out_view (v : uview) (fo : nat) (dt : list Z) : uview :=
  uv_set_fd 1 fo (Z.of_nat (length dt)) (uv_store fo dt v).

Definition stdout (v : uview) (fo : nat) (out : list Z) : Prop :=
  uv_fd v !! 1 = Some (fo, Z.of_nat (length out)) /\ uv_data v !! fo = Some out.

Section out.
Context {W : Type} `{UserSysSpec W}.

Lemma out_appends v fo : appends 1 (out_view v fo).
Proof.
  intros w dt l Hw. eapply wp_mono; [apply (write_end w (uv_store fo dt v) 1 fo dt l Hw), lookup_insert_eq|]. cbn beta.
  intros _ w' Hw'. unfold out_view, uv_store in *. cbn in Hw'. by rewrite insert_insert_eq in Hw'.
Qed.
Lemma stdout_view v fo out : stdout v fo out -> v = out_view v fo out.
Proof. intros [E1 E2]. destruct v. unfold out_view, uv_set_fd, uv_store. cbn in *. by rewrite !insert_id by (done || by rewrite insert_id). Qed.

(** A message: literal text, and strings. *)
Definition lits (s : string) : list piece := Lit <$> str s.

Lemma printf_out w v fo out ps fmt args (Q : unit -> W -> Prop) :
  us_rep w v -> stdout v fo out -> Forall piece_ok ps -> fmt = ps ≫= piece_fmt -> args = ps ≫= piece_args ->
  (forall t w', texts ps t -> us_rep w' (out_view v fo (out ++ t)) -> Q tt w') -> wp (printf fmt args) Q w.
Proof.
  intros Hw Ho Hps -> -> HQ. rewrite (stdout_view v fo out Ho) in Hw.
  eapply wp_mono; [by apply (vprintf_spec 1 (out_view v fo) (out_appends v fo) ps w out)|]. intros [] w' (t & Ht & Hw'). by eapply HQ.
Qed.
End out.

(** ** Owners *)

Definition refusal : list piece := lits "This program is only available while logged into Superuser.".

(** C27: only the superuser changes owners and groups with [chown] and [chgrp]: for
    any other user both write a message to the standard output, and nothing else
    of the system changes. *)
Theorem owners_need_superuser {W} `{UserSysSpec W} `{UserOwner W} junk past heap fuel (w : W) v fo out argv :
  us_rep w v -> stdout v fo out -> uv_uid v <> 0 ->
  let refused := fun (_ : unit) w' => exists t, texts refusal t /\ us_rep w' (out_view v fo (out ++ t)) in
  wp (chown_main junk past heap fuel argv) refused w /\ wp (chgrp_main junk past heap fuel argv) refused w.
Proof.
  intros Hw Ho Huid refused.
  assert (Hmsg : forall w', us_rep w' v -> wp (printf (str "This program is only available while logged into Superuser.") []) refused w').
  { intros w' Hw'. apply (printf_out w' v fo out refusal _ _ _ Hw' Ho); [|done|done|].
    - unfold refusal, lits. apply Forall_fmap. apply (bool_decide_unpack _). by vm_compute.
    - intros t w2 Ht Hw2. by exists t. }
  split; unfold chown_main, chgrp_main; apply wp_bind; (eapply wp_mono; [by apply (us_getuid_spec w v Hw)|]);
    intros uid w1 [-> Hw1]; rewrite (proj2 (Z.eqb_neq _ 0)) by done; cbn [negb]; by apply Hmsg.
Qed.

(** ** useradd *)

Inductive uopt := OName (s : list Z) | ODir (s : list Z) | OUid (s : list Z).

Definition uopt_args (x : uopt) : list (list Z) :=
  match x with OName s => [str "-c"; s] | ODir s => [str "-d"; s] | OUid s => [str "-u"; s] end.
Definition uopt_ok (x : uopt) : Prop := match x with OUid s => atoi s <> 0 | _ => True end.
Definition uopt_apply (o : opts) (x : uopt) : opts :=
  match x with
  | OName s => Opts (o_login o) (Some (copy_string s)) (o_dir o) (o_uid o) (o_group o) (o_m o) (o_a o)
  | ODir s => Opts (o_login o) (o_name o) (Some (copy_string s)) (o_uid o) (o_group o) (o_m o) (o_a o)
  | OUid s => Opts (o_login o) (o_name o) (o_dir o) (atoi s) (o_group o) (o_m o) (o_a o)
  end.

(** The options in front of the name are found, in any order and number; the
    last one of a kind counts. *)
Lemma useradd_opts_spec l login : forall o, Forall uopt_ok l ->
  useradd_opts ((l ≫= uopt_args) ++ [login]) o = Some (foldl uopt_apply o l, [login]).
Proof.
  induction l as [|x l IH]; intros o Hl; [done|]. apply Forall_cons in Hl as [Hx Hl].
  assert (Hnext : forall o', useradd_opts ((l ≫= uopt_args) ++ [login]) o' = Some (foldl uopt_apply o' l, [login])) by (intros; by apply IH).
  destruct x as [s|s|s]; cbn [mbind list_bind uopt_args app foldl uopt_apply]; cbn [useradd_opts].
  - change (is_arg (str "-c") "-c") with true. apply Hnext.
  - change (is_arg (str "-d") "-c") with false. change (is_arg (str "-d") "-d") with true. apply Hnext.
  - change (is_arg (str "-u") "-c") with false. change (is_arg (str "-u") "-d") with false. change (is_arg (str "-u") "-u") with true.
    cbn in Hx. rewrite (proj2 (Z.eqb_neq (atoi s) 0)) by done. apply Hnext.
Qed.

Lemma uopt_args_even l : exists n, length (l ≫= uopt_args) = (2 * n)%nat.
Proof.
  induction l as [|x l [n IH]]; [by exists 0%nat|]. exists (S n). change ((x :: l) ≫= uopt_args) with (uopt_args x ++ (l ≫= uopt_args)).
  rewrite length_app, IH. destruct x; cbn; lia.
Qed.

(** The user that the options and the name describe, but for the number. *)
Definition described (l : list uopt) (login : list Z) (uid : Z) : user_t :=
  let o := foldl uopt_apply no_opts l in
  User login None uid uid (default login (o_name o)) (default (str "/home/" ++ login) (o_dir o)).

Definition user_added (login : list Z) : list piece := lits "User " ++ [Str login] ++ lits " added successfully." ++ [Lit 10].

(** C25: [useradd] with options in any order adds the user they describe to both
    databases and says so: the name and the directory of the options, or the
    login name and a directory in [/home], and the number of the option or the
    first free one from 1002 on.  The directory is made, or taken over, and
    belongs to the new user; other files and directories stay as they are. *)
Theorem useradd_correct {W} `{UserHomeSpec W} junk past heap fuel (w : W) v fp fg fo out us gs l login uid :
  length junk = BUFSIZE -> nth 0 junk 0 <> 10 -> past <> 10 ->
  us_rep w v -> stdout v fo out -> fo <> fp -> fo <> fg -> Forall uopt_ok l -> Forall (fun c => 0 < c < 256) login ->
  can_add fuel v fp fg us gs (described l login uid) ->
  (if o_uid (foldl uopt_apply no_opts l) =? 0 then free_from us 1002 uid
   else uid = o_uid (foldl uopt_apply no_opts l) /\ Forall (fun x => u_uid x <> uid) us) ->
  wp (useradd_main junk past heap fuel ((l ≫= uopt_args) ++ [login])) (fun _ w' => exists v' t,
    us_rep w' (out_view v' fo (out ++ t)) /\ texts (user_added login) t /\
    added v fp fg us gs (described l login uid) v') w.
Proof.
  intros Hj Hj0 Hp Hw [Ho1 Ho2] Hfp Hfg Hl Hlogin Hcan Huid. unfold useradd_main.
  destruct (uopt_args_even l) as [n Hn]. rewrite length_app, Hn. cbn [length].
  assert (Eeven : (S (2 * n + 1) mod 2 = 0)%nat).
  { replace (S (2 * n + 1)) with ((n + 1) * 2)%nat by lia. apply Nat.Div0.mod_mul. }
  rewrite Eeven. cbn [Nat.eqb negb]. rewrite useradd_opts_spec by done. set (o := foldl uopt_apply no_opts l) in *.
  apply wp_bind, (wp_deref _ _ login); [done|]. pose proof Hcan as [_ _ _ _ _ _ ([Hun _ _ _ _ _] & _) _ _ _ _]. cbn in Hun.
  unfold copy_string. rewrite copy_str by done. apply wp_bind. eapply wp_mono.
  { apply (adduser_correct junk past heap fuel Hj Hj0 Hp w v fp fg us gs (described l login uid) (o_uid o) 1002 1002 Hw Hcan).
    cbn [described u_uid]. destruct (o_uid o =? 0); [by split|]. destruct Huid as [-> Huid]. by split. }
  intros code w1 (-> & v1 & Hw1 & Hadd). cbn [Z.eqb Z.ltb RESERVED NOPERMS Z.compare]. pose proof Hadd as [_ _ Hrest _ Hfds _].
  apply (printf_out w1 v1 fo out (user_added login) _ _ _ Hw1); [split; [congruence|by apply Hrest]| |done|done|].
  - unfold user_added, lits. rewrite !Forall_app. split_and!; try (apply Forall_fmap, (bool_decide_unpack _); by vm_compute); by apply Forall_singleton.
  - intros t w2 Ht Hw2. exists v1, t. by split_and!.
Qed.
