(* ===== verification/Ide.v ===== *)
(** * The IDE disk driver

    [kernel/ide.c].  The queue of requests is the linked list of buffers from
    [idequeue] through [qnext]; its first buffer is the one the controller works
    on.  [iderw] appends a buffer, starts the controller if it was idle and
    sleeps until the interrupt handler has marked the buffer; each of its
    critical sections, under [idelock], is one step here.

    The controller is not code of the kernel: [AtaDev] has the port operations
    the driver uses, and [AtaSpec] (in [IdeSpec]) what is documented of them. *)

From S2P Require Import Prelude SleepLock Bio.

Definition SECTOR_SIZE : Z := 512.
Definition IDE_BSY : Z := 0x80.
Definition IDE_DRDY : Z := 0x40.
Definition IDE_DF : Z := 0x20.
Definition IDE_ERR : Z := 0x01.
Definition IDE_CMD_READ : Z := 0x20.
Definition IDE_CMD_WRITE : Z := 0x30.
Definition IDE_CMD_RDMUL : Z := 0xc4.
Definition IDE_CMD_WRMUL : Z := 0xc5.

(** Input and output on ports, of a byte and of a string of bytes. *)
Class AtaDev (D : Type) := {
  ata_inb : Z -> D -> Z * D;
  ata_outb : Z -> Z -> D -> D;
  ata_insl : Z -> nat -> D -> list Z * D;
  ata_outsl : Z -> list Z -> D -> D }.

Record ide (D : Type) := Ide {
  id_buf : list buf;          (* the buffers of the cache *)
  id_qnext : gmap nat nat;    (* b->qnext; a null pointer is absent *)
  id_queue : option nat;      (* idequeue *)
  id_have1 : bool;            (* havedisk1 *)
  id_dev : D }.
Arguments Ide {D} _ _ _ _ _.
Arguments id_buf {D} _.
Arguments id_qnext {D} _.
Arguments id_queue {D} _.
Arguments id_have1 {D} _.
Arguments id_dev {D} _.

Section ide.
Context {D : Type} `{AtaDev D}.
Implicit Types (s : ide D).

Definition set_ibuf (f : list buf -> list buf) s : ide D := Ide (f (id_buf s)) (id_qnext s) (id_queue s) (id_have1 s) (id_dev s).
Definition set_qnext (f : gmap nat nat -> gmap nat nat) s : ide D := Ide (id_buf s) (f (id_qnext s)) (id_queue s) (id_have1 s) (id_dev s).
Definition set_queue (q : option nat) s : ide D := Ide (id_buf s) (id_qnext s) q (id_have1 s) (id_dev s).
Definition set_have1 (h : bool) s : ide D := Ide (id_buf s) (id_qnext s) (id_queue s) h (id_dev s).
Definition set_dev (d : D) s : ide D := Ide (id_buf s) (id_qnext s) (id_queue s) (id_have1 s) d.

Definition upd_ibuf (i : nat) (f : buf -> buf) : M (ide D) unit := modify (set_ibuf (alter f i)).
Definition read_ibuf (i : nat) : M (ide D) buf := let* s := get in deref (id_buf s !! i) "buf".
Definition ibuf_lock (i : nat) s : sleeplock := match id_buf s !! i with Some b => b_lock b | None => initsleeplock end.

Definition inb (port : Z) : M (ide D) Z :=
  let* s := get in
  do* modify (set_dev (ata_inb port (id_dev s)).2) in
  ret (ata_inb port (id_dev s)).1.
Definition outb (port x : Z) : M (ide D) unit := modify (fun s => set_dev (ata_outb port x (id_dev s)) s).
Definition insl (port : Z) (n : nat) : M (ide D) (list Z) :=
  let* s := get in
  do* modify (set_dev (ata_insl port n (id_dev s)).2) in
  ret (ata_insl port n (id_dev s)).1.
Definition outsl (port : Z) (data : list Z) : M (ide D) unit := modify (fun s => set_dev (ata_outsl port data (id_dev s)) s).

(** Wait for the disk to become ready. *)
Fixpoint idewait (fuel : nat) (checkerr : bool) : M (ide D) Z :=
  let* r := inb 0x1f7 in
  if negb (Z.land r (Z.lor IDE_BSY IDE_DRDY) =? IDE_DRDY) then
    match fuel with
    | O => fault "fuel"
    | S fuel => idewait fuel checkerr
    end
  else if checkerr && negb (Z.land r (Z.lor IDE_DF IDE_ERR) =? 0) then ret (-1)
  else ret 0.

(** [for(i=0; i<1000; i++)]: is disk 1 present? *)
Fixpoint probe (n : nat) : M (ide D) unit :=
  match n with
  | O => ret tt
  | S n =>
      let* r := inb 0x1f7 in
      if negb (r =? 0) then modify (set_have1 true) else probe n
  end.

(** The lock and the interrupt controller are not part of this state. *)
Definition ideinit (fuel : nat) : M (ide D) unit :=
  do* idewait fuel false in
  do* outb 0x1f6 (Z.lor 0xe0 (Z.shiftl 1 4)) in
  do* probe 1000 in
  outb 0x1f6 (Z.lor 0xe0 (Z.shiftl 0 4)).

Definition idestart (fuel : nat) (p : option nat) : M (ide D) unit :=
  match p with
  | None => panic "idestart"
  | Some i =>
      let* b := read_ibuf i in
      if FSSIZE <=? b_blockno b then panic "incorrect blockno" else
      let sector_per_block := BSIZE / SECTOR_SIZE in
      let sector := s32 (b_blockno b * sector_per_block) in
      let read_cmd := if sector_per_block =? 1 then IDE_CMD_READ else IDE_CMD_RDMUL in
      let write_cmd := if sector_per_block =? 1 then IDE_CMD_WRITE else IDE_CMD_WRMUL in
      if 7 <? sector_per_block then panic "idestart" else
      do* idewait fuel false in
      do* outb 0x3f6 0 in
      do* outb 0x1f2 sector_per_block in
      do* outb 0x1f3 (Z.land sector 0xff) in
      do* outb 0x1f4 (Z.land (Z.shiftr sector 8) 0xff) in
      do* outb 0x1f5 (Z.land (Z.shiftr sector 16) 0xff) in
      do* outb 0x1f6 (Z.lor (Z.lor 0xe0 (Z.shiftl (Z.land (b_dev b) 1) 4)) (Z.land (Z.shiftr sector 24) 0x0f)) in
      if truth (Z.land (b_flags b) B_DIRTY) then
        do* outb 0x1f7 write_cmd in
        outsl 0x1f0 (b_data b)
      else outb 0x1f7 read_cmd
  end.

(** The interrupt handler. *)
Definition ideintr (fuel : nat) : M (ide D) unit :=
  let* s := get in
  match id_queue s with
  | None => ret tt
  | Some i =>
      do* modify (set_queue (id_qnext s !! i)) in
      let* b := read_ibuf i in
      do* (if negb (truth (Z.land (b_flags b) B_DIRTY)) then
             let* r := idewait fuel true in
             if 0 <=? r then
               let* d := insl 0x1f0 (Z.to_nat BSIZE) in
               upd_ibuf i (b_with_data d)
             else ret tt
           else ret tt) in
      do* upd_ibuf i (fun b => b_with_flags (Z.lor (b_flags b) B_VALID) b) in
      do* upd_ibuf i (fun b => b_with_flags (Z.land (b_flags b) (Z.lnot B_DIRTY)) b) in
      do* wake (ChBuf i) in
      let* s := get in
      match id_queue s with
      | Some j => idestart fuel (Some j)
      | None => ret tt
      end
  end.

(** The end of the queue, from the buffer [i] on: the loop over [pp]. *)
Fixpoint queue_end (fuel : nat) (i : nat) : M (ide D) nat :=
  let* s := get in
  match id_qnext s !! i with
  | None => ret i
  | Some j =>
      match fuel with
      | O => fault "fuel"
      | S fuel => queue_end fuel j
      end
  end.

Definition enqueue (i : nat) : M (ide D) unit :=
  do* modify (set_qnext (delete i)) in
  let* s := get in
  match id_queue s with
  | None => modify (set_queue (Some i))
  | Some j =>
      let* k := queue_end (length (id_buf s)) j in
      modify (set_qnext <[k := i]>)
  end.

(** The loop at the end of [iderw]; a process that sleeps runs it again. *)
Definition iderw_wait (i : nat) : M (ide D) unit :=
  let* b := read_ibuf i in
  if negb (Z.land (b_flags b) (Z.lor B_VALID B_DIRTY) =? B_VALID) then sleep_on (ChBuf i) else ret tt.

Definition ide_rw (fuel : nat) (pid : Z) (i : nat) : M (ide D) unit :=
  let* h := holdingsleep (ibuf_lock i) pid in
  if negb h then panic "iderw: buf not locked" else
  let* b := read_ibuf i in
  if Z.land (b_flags b) (Z.lor B_VALID B_DIRTY) =? B_VALID then panic "iderw: nothing to do" else
  let* s := get in
  if negb (b_dev b =? 0) && negb (id_have1 s) then panic "iderw: ide disk 1 not present" else
  do* enqueue i in
  let* s := get in
  do* when bool_decide (id_queue s = Some i) then idestart fuel (Some i) in
  iderw_wait i.
End ide.
