(* ===== verification/IdeSpec.v ===== *)
(** * The IDE driver serves every request

    What is documented of the controller ([AtaSpec]), the interleavings of
    requests, interrupts, wake-ups and other uses of the buffers as steps, the
    invariant of the queue, and the theorems: a request that ends without an
    error leaves buffer and disk equal, every request is finished and its
    process woken after as many interrupts as there are requests before it, and
    the driver simulates the synchronous one the rest of the kernel is modelled
    with.  The controller may report errors, for reads and for writes. *)

From S2P Require Import Prelude SleepLock Bio Ide.

(** ** The controller *)

Inductive phase :=
| Idle                                (* ready for a command *)
| Reading (drive lba : Z)             (* a read command is carried out *)
| Ready (drive lba : Z)               (* the data read can be fetched *)
| Taking (drive lba : Z)              (* a write command waits for its data *)
| Writing (drive lba : Z) (d : list Z)
| Failed.                             (* the last command ended with an error *)

Record aview := AView { av_reg : Z -> Z; av_sect : Z -> Z -> list Z; av_phase : phase }.

Definition set_reg (p x : Z) (v : aview) : aview := AView (fun q => if q =? p then x else av_reg v q) (av_sect v) (av_phase v).
Definition with_phase (ph : phase) (v : aview) : aview := AView (av_reg v) (av_sect v) ph.
Definition write_sect (drive lba : Z) (d : list Z) (v : aview) : aview :=
  AView (av_reg v) (fun dr l => if (dr =? drive) && (l =? lba) then d else av_sect v dr l) Idle.

(** The drive and the sector number in the registers. *)
Definition drive_of (v : aview) : Z := Z.land (Z.shiftr (av_reg v 0x1f6) 4) 1.
Definition lba_of (v : aview) : Z :=
  av_reg v 0x1f3 + 2 ^ 8 * av_reg v 0x1f4 + 2 ^ 16 * av_reg v 0x1f5 + 2 ^ 24 * Z.land (av_reg v 0x1f6) 0x0f.

(** No command is in progress; the last one failed. *)
Definition at_rest (v : aview) : bool := match av_phase v with Idle | Failed => true | _ => false end.
Definition failed (v : aview) : bool := match av_phase v with Failed => true | _ => false end.

(** The end of a command; the controller then interrupts.  After an error in
    a write the content of the sector is not known. *)
Inductive finished (v : aview) : aview -> Prop :=
| fin_read dr l : av_phase v = Reading dr l -> finished v (with_phase (Ready dr l) v)
| fin_write dr l d : av_phase v = Writing dr l d -> finished v (write_sect dr l d v)
| fin_read_error dr l : av_phase v = Reading dr l -> finished v (with_phase Failed v)
| fin_write_error dr l d x : av_phase v = Writing dr l d -> length x = 512%nat ->
    finished v (with_phase Failed (write_sect dr l x v)).

(** The status after [k] more reads. *)
Fixpoint poll {D} `{AtaDev D} (k : nat) (d : D) : Z * D :=
  match k with
  | O => ata_inb 0x1f7 d
  | S k => poll k (ata_inb 0x1f7 d).2
  end.
Definition is_ready (r : Z) : bool := Z.land r (Z.lor IDE_BSY IDE_DRDY) =? IDE_DRDY.
Definition no_error (r : Z) : bool := Z.land r (Z.lor IDE_DF IDE_ERR) =? 0.

Class AtaSpec (D : Type) `{AtaDev D} := {
  ata_rep : D -> aview -> Prop;
  ata_finish : D -> D -> Prop;
  ata_polls : nat;
  ata_sect_length : forall d v dr l, ata_rep d v -> length (av_sect v dr l) = 512%nat;
  (** registers are set between commands *)
  ata_out_reg : forall d v p x, ata_rep d v -> at_rest v = true -> p ∈ [0x3f6; 0x1f2; 0x1f3; 0x1f4; 0x1f5; 0x1f6] ->
    ata_rep (ata_outb p x d) (set_reg p x v);
  (** commands for one sector, with interrupts on *)
  ata_out_read : forall d v, ata_rep d v -> at_rest v = true -> av_reg v 0x1f2 = 1 -> av_reg v 0x3f6 = 0 ->
    ata_rep (ata_outb 0x1f7 IDE_CMD_READ d) (with_phase (Reading (drive_of v) (lba_of v)) v);
  ata_out_write : forall d v, ata_rep d v -> at_rest v = true -> av_reg v 0x1f2 = 1 -> av_reg v 0x3f6 = 0 ->
    ata_rep (ata_outb 0x1f7 IDE_CMD_WRITE d) (with_phase (Taking (drive_of v) (lba_of v)) v);
  ata_out_data : forall d v dr l data, ata_rep d v -> av_phase v = Taking dr l -> length data = 512%nat ->
    ata_rep (ata_outsl 0x1f0 data d) (with_phase (Writing dr l data) v);
  ata_in_data : forall d v dr l, ata_rep d v -> av_phase v = Ready dr l ->
    (ata_insl 0x1f0 512 d).1 = av_sect v dr l /\ ata_rep (ata_insl 0x1f0 512 d).2 (with_phase Idle v);
  (** without a command in progress the status becomes ready, and has the error
      bits of the last command *)
  ata_status : forall d v, ata_rep d v -> (at_rest v = true \/ exists dr l, av_phase v = Ready dr l) ->
    exists k, (k <= ata_polls)%nat /\ (forall j, (j < k)%nat -> is_ready (poll j d).1 = false) /\
      is_ready (poll k d).1 = true /\ no_error (poll k d).1 = negb (failed v) /\ ata_rep (poll k d).2 v;
  (** a command ends *)
  ata_finish_ok : forall d d' v, ata_rep d v -> ata_finish d d' -> exists v', finished v v' /\ ata_rep d' v';
  ata_finish_live : forall d v v', ata_rep d v -> finished v v' -> exists d', ata_finish d d' }.

Lemma bind_ok {S A B} (m : M S A) (k : A -> M S B) s a s' : m s = Ok a s' [] -> bind m k s = k a s'.
Proof. intros E. unfold bind. rewrite E. by destruct (k a s'). Qed.

(** ** The queue *)

(** The buffers from [h] on through [qnext]. *)
Fixpoint chain (nx : gmap nat nat) (h : option nat) (q : list nat) : Prop :=
  match q with
  | [] => h = None
  | i :: q => h = Some i /\ chain nx (nx !! i) q
  end.

Lemma chain_ext nx nx' h q : (forall i, i ∈ q -> nx' !! i = nx !! i) -> chain nx h q -> chain nx' h q.
Proof.
  revert h. induction q as [|i q IH]; intros h He Hc; [done|]. destruct Hc as [-> Hc]. split; [done|].
  rewrite He by set_solver. apply IH; [set_solver|done].
Qed.

Lemma chain_snoc nx h q k i :
  chain nx h (q ++ [k]) -> NoDup (q ++ [k]) -> nx !! i = None -> i <> k -> chain (<[k := i]> nx) h (q ++ [k] ++ [i]).
Proof.
  revert h. induction q as [|j q IH]; intros h Hc Hn Hi Hne; cbn [app chain] in *.
  - destruct Hc as [-> _]. split; [done|]. rewrite lookup_insert_eq. split; [done|]. by rewrite lookup_insert_ne.
  - destruct Hc as [-> Hc]. apply NoDup_cons in Hn as [Hj Hn]. split; [done|].
    rewrite lookup_insert_ne by set_solver. by apply IH.
Qed.

Lemma queue_end_spec {D} q k f j (s : ide D) :
  chain (id_qnext s) (Some j) (q ++ [k]) -> (length q <= f)%nat -> queue_end f j s = Ok k s [].
Proof.
  revert f j. induction q as [|i q IH]; intros f j Hc Hf; cbn [app chain length] in *.
  - destruct Hc as [[= ->] Hc]. destruct f; cbn; unfold bind, get; cbn; by rewrite Hc.
  - destruct Hc as [[= ->] Hc]. destruct f as [|f]; [lia|]. cbn [queue_end]. rewrite (bind_ok _ _ s s s) by done.
    destruct q as [|i' q]; cbn [app chain] in Hc; destruct Hc as [E Hc]; rewrite E; (apply IH; [|cbn in *; lia]); by split.
Qed.

(** [b] after the request: valid and not dirty. *)
Definition clean (b : buf) : bool := Z.land (b_flags b) (Z.lor B_VALID B_DIRTY) =? B_VALID.

Section spec.
Context {D : Type} `{AtaSpec D} (fuel : nat) (Hfuel : (ata_polls <= fuel)%nat).
Implicit Types (s : ide D) (v : aview).

(** The state with another device. *)
Lemma set_dev_dev (d d' : D) s : set_dev d' (set_dev d s) = set_dev d' s.
Proof. done. Qed.

Lemma idewait_poll k f chk s :
  (k <= f)%nat -> (forall j, (j < k)%nat -> is_ready (poll j (id_dev s)).1 = false) ->
  is_ready (poll k (id_dev s)).1 = true ->
  idewait f chk s = Ok (if chk && negb (no_error (poll k (id_dev s)).1) then -1 else 0) (set_dev (poll k (id_dev s)).2 s) [].
Proof.
  revert f s. induction k as [|k IH]; intros f s Hk Hno Hyes.
  - destruct f; cbn [idewait]; unfold inb; cbn; unfold is_ready, no_error in *; cbn in Hyes; rewrite Hyes; by destruct (chk && _).
  - destruct f as [|f]; [lia|]. cbn [idewait].
    rewrite (bind_ok _ _ s (ata_inb 0x1f7 (id_dev s)).1 (set_dev (ata_inb 0x1f7 (id_dev s)).2 s)) by done.
    pose proof (Hno 0%nat ltac:(lia)) as Hn0. unfold is_ready in Hn0. cbn [poll] in Hn0. rewrite Hn0. cbn [negb].
    rewrite (IH f (set_dev (ata_inb 0x1f7 (id_dev s)).2 s)); [done|lia| |done].
    intros j Hj. apply (Hno (S j)). lia.
Qed.

Lemma idewait_spec chk s v :
  ata_rep (id_dev s) v -> (at_rest v = true \/ exists dr l, av_phase v = Ready dr l) ->
  exists d, idewait fuel chk s = Ok (if chk && failed v then -1 else 0) (set_dev d s) [] /\ ata_rep d v.
Proof using Hfuel.
  intros Hr Hp. destruct (ata_status _ _ Hr Hp) as (k & Hk & Hno & Hyes & Herr & Hr').
  exists (poll k (id_dev s)).2. split; [|done]. rewrite (idewait_poll k) by (done || lia). by rewrite Herr, negb_involutive.
Qed.

(** ** Starting a request *)

Definition dirty (b : buf) : bool := truth (Z.land (b_flags b) B_DIRTY).
Definition unit_of (b : buf) : Z := Z.land (b_dev b) 1.

(** What the controller does for [b]. *)
Definition request (b : buf) : phase :=
  if dirty b then Writing (unit_of b) (b_blockno b) (b_data b) else Reading (unit_of b) (b_blockno b).

Record buf_ok (b : buf) : Prop := {
  bk_block : 0 <= b_blockno b < FSSIZE;
  bk_data : length (b_data b) = 512%nat }.

Lemma unit_01 b : unit_of b = 0 \/ unit_of b = 1.
Proof.
  unfold unit_of. change (Z.land (b_dev b) 1) with (Z.land (b_dev b) (Z.ones 1)). rewrite Z.land_ones by lia.
  pose proof (Z.mod_pos_bound (b_dev b) (2 ^ 1)). lia.
Qed.

(** The registers name the sector. *)
Lemma regs_lba sector v :
  0 <= sector < FSSIZE -> av_reg v 0x1f3 = Z.land sector 0xff -> av_reg v 0x1f4 = Z.land (Z.shiftr sector 8) 0xff ->
  av_reg v 0x1f5 = Z.land (Z.shiftr sector 16) 0xff -> Z.land (av_reg v 0x1f6) 0x0f = 0 -> lba_of v = sector.
Proof.
  intros Hs E3 E4 E5 E6. unfold lba_of. rewrite E3, E4, E5, E6. change 0xff with (Z.ones 8). rewrite !Z.land_ones, !Z.shiftr_div_pow2 by lia.
  unfold FSSIZE in *. Z.to_euclidean_division_equations; lia.
Qed.

Lemma idestart_spec s v i b :
  ata_rep (id_dev s) v -> at_rest v = true -> id_buf s !! i = Some b -> buf_ok b ->
  exists d v', idestart fuel (Some i) s = Ok tt (set_dev d s) [] /\ ata_rep d v' /\
    av_sect v' = av_sect v /\ av_phase v' = request b.
Proof using Hfuel.
  intros Hr Hp Hi [Hb Hd]. destruct (idewait_spec false s v Hr (or_introl Hp)) as (d0 & E0 & Hr0).
  unfold idestart, read_ibuf. rewrite (bind_ok _ _ s b s) by (unfold bind, get; cbn; by rewrite Hi).
  destruct (Z.leb_spec FSSIZE (b_blockno b)); [lia|]. change (BSIZE / SECTOR_SIZE) with 1. rewrite Z.mul_1_r, s32_small by (unfold FSSIZE in *; lia).
  cbn [Z.eqb Z.ltb Z.compare Pos.compare Pos.compare_cont]. rewrite (bind_ok _ _ s 0 (set_dev d0 s) E0).
  set (sector := b_blockno b) in *. set (u := Z.lor (Z.lor 0xe0 (Z.shiftl (Z.land (b_dev b) 1) 4)) (Z.land (Z.shiftr sector 24) 0x0f)).
  assert (Eu : Z.land u 0x0f = 0 /\ Z.land (Z.shiftr u 4) 1 = unit_of b).
  { unfold u. rewrite (Z.shiftr_div_pow2 sector), (Z.div_small sector) by (unfold FSSIZE in *; lia).
    fold (unit_of b). by destruct (unit_01 b) as [->| ->]. }
  set (v1 := set_reg 0x1f6 u (set_reg 0x1f5 (Z.land (Z.shiftr sector 16) 0xff) (set_reg 0x1f4 (Z.land (Z.shiftr sector 8) 0xff)
    (set_reg 0x1f3 (Z.land sector 0xff) (set_reg 0x1f2 1 (set_reg 0x3f6 0 v)))))).
  set (d1 := ata_outb 0x1f6 u (ata_outb 0x1f5 (Z.land (Z.shiftr sector 16) 0xff) (ata_outb 0x1f4 (Z.land (Z.shiftr sector 8) 0xff)
    (ata_outb 0x1f3 (Z.land sector 0xff) (ata_outb 0x1f2 1 (ata_outb 0x3f6 0 d0)))))).
  assert (Hr1 : ata_rep d1 v1) by (unfold d1, v1; repeat (apply ata_out_reg; [|done|set_solver]); done).
  assert (El : lba_of v1 = sector) by (apply regs_lba; try done; apply Eu).
  assert (Edr : drive_of v1 = unit_of b) by (unfold drive_of; apply Eu).
  unfold outb, bind, modify. cbn -[u d1]. unfold request, dirty. destruct (truth (Z.land (b_flags b) B_DIRTY)).
  - pose proof (ata_out_write d1 v1 Hr1 Hp eq_refl eq_refl) as Hr2. rewrite El, Edr in Hr2.
    pose proof (ata_out_data _ _ _ _ (b_data b) Hr2 eq_refl Hd) as Hr3.
    by eexists _, _; split; [reflexivity|]; split; [exact Hr3|].
  - pose proof (ata_out_read d1 v1 Hr1 Hp eq_refl eq_refl) as Hr2. rewrite El, Edr in Hr2.
    by eexists _, _; split; [reflexivity|]; split; [exact Hr2|].
Qed.

(** ** The steps of the system *)

(** The driver, whether an interrupt is pending, the buffers for which a
    process is in [iderw], and the channels on which those of them sleep that
    do; such a process holds the buffer. *)
Record isys := ISys { is_ide : ide D; is_irq : bool; is_wait : gset nat; is_asleep : gmap nat chan }.

(** Who still sleeps after the wake-ups [w]. *)
Definition wakened (w : list chan) (m : gmap nat chan) : gmap nat chan := filter (fun p => p.2 ∉ w) m.

Inductive ievent :=
| Submit (i : nat)     (* a process calls [iderw] and goes to sleep *)
| Finish               (* the controller ends a command *)
| Intr                 (* the interrupt is handled *)
| Woken (i : nat)      (* a sleeping process is woken for another reason *)
| Again (i : nat)      (* it finds its request not done and sleeps again *)
| Return (i : nat)     (* [iderw] returns *)
| Use (i : nat).       (* a buffer that is not in [iderw] changes *)

Inductive istep : ievent -> isys -> isys -> Prop :=
| i_submit t i pid b c s' w :
    i ∉ is_wait t -> id_buf (is_ide t) !! i = Some b -> b_blockno b < FSSIZE ->
    ide_rw fuel pid i (is_ide t) = Sleep c s' w ->
    istep (Submit i) t (ISys s' (is_irq t) ({[i]} ∪ is_wait t) (<[i := c]> (wakened w (is_asleep t))))
| i_finish t d :
    ata_finish (id_dev (is_ide t)) d -> istep Finish t (ISys (set_dev d (is_ide t)) true (is_wait t) (is_asleep t))
| i_intr t s' w :
    is_irq t = true -> ideintr fuel (is_ide t) = Ok tt s' w -> istep Intr t (ISys s' false (is_wait t) (wakened w (is_asleep t)))
| i_woken t i c :
    is_asleep t !! i = Some c -> istep (Woken i) t (ISys (is_ide t) (is_irq t) (is_wait t) (delete i (is_asleep t)))
| i_again t i c s' w :
    i ∈ is_wait t -> is_asleep t !! i = None -> iderw_wait i (is_ide t) = Sleep c s' w ->
    istep (Again i) t (ISys s' (is_irq t) (is_wait t) (<[i := c]> (wakened w (is_asleep t))))
| i_return t i s' w :
    i ∈ is_wait t -> is_asleep t !! i = None -> iderw_wait i (is_ide t) = Ok tt s' w ->
    istep (Return i) t (ISys s' (is_irq t) (is_wait t ∖ {[i]}) (wakened w (is_asleep t)))
| i_use t i b :
    i ∉ is_wait t -> 0 <= b_blockno b -> length (b_data b) = 512%nat ->
    istep (Use i) t (ISys (set_ibuf (alter (fun _ => b) i) (is_ide t)) (is_irq t) (is_wait t) (is_asleep t)).

(** The controller works on the first request, or has ended it. *)
Definition works (b : buf) (v : aview) (irq : bool) : Prop :=
  if irq then
    av_phase v = Failed \/
    if dirty b then av_phase v = Idle /\ av_sect v (unit_of b) (b_blockno b) = b_data b
    else av_phase v = Ready (unit_of b) (b_blockno b)
  else av_phase v = request b.

Record iinv (t : isys) (q : list nat) (v : aview) : Prop := {
  ii_chain : chain (id_qnext (is_ide t)) (id_queue (is_ide t)) q;
  ii_nodup : NoDup q;
  ii_bufs : forall i b, id_buf (is_ide t) !! i = Some b -> 0 <= b_blockno b /\ length (b_data b) = 512%nat;
  ii_queue : forall i, i ∈ q -> i ∈ is_wait t /\ exists b, id_buf (is_ide t) !! i = Some b /\ b_blockno b < FSSIZE /\ clean b = false /\
    sl_locked (b_lock b) = true;
  ii_done : forall i, i ∈ is_wait t -> (i ∉ q) -> exists b, id_buf (is_ide t) !! i = Some b /\ clean b = true;
  ii_asleep : forall i c, is_asleep t !! i = Some c -> i ∈ q /\ c = ChBuf i;
  ii_dev : ata_rep (id_dev (is_ide t)) v;
  ii_head : match q with
            | [] => at_rest v = true /\ is_irq t = false
            | i :: _ => forall b, id_buf (is_ide t) !! i = Some b -> works b v (is_irq t)
            end }.

Lemma queued_ok t q v i : iinv t q v -> i ∈ q -> exists b, id_buf (is_ide t) !! i = Some b /\ buf_ok b /\ clean b = false /\ sl_locked (b_lock b) = true.
Proof.
  intros Hv Hi. destruct (ii_queue _ _ _ Hv i Hi) as (_ & b & Hb & Hlt & Hc & Hl). destruct (ii_bufs _ _ _ Hv i b Hb) as [H1 H2].
  exists b. by split_and!; [|constructor| |].
Qed.

Lemma queue_short t q v : iinv t q v -> (length q <= length (id_buf (is_ide t)))%nat.
Proof.
  intros Hv. rewrite <- (length_seq (length (id_buf (is_ide t))) 0). apply submseteq_length, NoDup_submseteq; [apply Hv|].
  intros i Hi. destruct (queued_ok _ _ _ _ Hv Hi) as (b & Hb & _). apply lookup_lt_Some in Hb. apply elem_of_seq. lia.
Qed.

(** ** Requests *)

Lemma enqueue_spec t q v i :
  iinv t q v -> (i ∉ q) -> exists nx h, enqueue i (is_ide t) = Ok tt (set_queue h (set_qnext (fun _ => nx) (is_ide t))) [] /\
    chain nx h (q ++ [i]) /\ (h = Some i <-> q = []).
Proof.
  intros Hv Hi. pose proof (ii_chain _ _ _ Hv) as Hc. pose proof (ii_nodup _ _ _ Hv) as Hn. pose proof (queue_short _ _ _ Hv) as Hl.
  destruct t as [s irq wt sl]. cbn [is_ide] in *. unfold enqueue. rewrite (bind_ok _ _ s tt (set_qnext (delete i) s)) by done.
  rewrite (bind_ok _ _ _ (set_qnext (delete i) s) (set_qnext (delete i) s)) by done. cbn [id_queue set_qnext id_buf].
  assert (Hc' : chain (delete i (id_qnext s)) (id_queue s) q) by (eapply chain_ext, Hc; intros j Hj; apply lookup_delete_ne; set_solver).
  destruct (id_queue s) as [j|] eqn:Ej.
  - destruct q as [|j' q' _] using rev_ind; [by cbn in Hc|]. rename j' into k.
    assert (Ek : queue_end (length (id_buf s)) j (set_qnext (delete i) s) = Ok k (set_qnext (delete i) s) []).
    { apply (queue_end_spec q'); [done|]. rewrite length_app in Hl. cbn in Hl. lia. }
    rewrite (bind_ok _ _ _ _ _ Ek). exists (<[k := i]> (delete i (id_qnext s))), (Some j). split_and!.
    + by destruct s as [bs nx qh h1 d]; cbn in Ej; subst qh.
    + rewrite <- app_assoc. apply chain_snoc; [done|done|apply lookup_delete_eq|set_solver].
    + split; [|by destruct q']. intros [= ->]. exfalso. apply Hi. destruct q'; cbn in Hc; destruct Hc as [[= ->] _]; set_solver.
  - destruct q as [|? q]; [|by destruct Hc]. exists (delete i (id_qnext s)), (Some i). split_and!; [done| |done].
    cbn. split; [done|apply lookup_delete_eq].
Qed.

Lemma submit_spec t q v i pid b :
  iinv t q v -> i ∉ is_wait t -> id_buf (is_ide t) !! i = Some b -> b_blockno b < FSSIZE ->
  sl_locked (b_lock b) && (sl_pid (b_lock b) =? pid) = true -> clean b = false -> (b_dev b = 0 \/ id_have1 (is_ide t) = true) ->
  exists s' v', ide_rw fuel pid i (is_ide t) = Sleep (ChBuf i) s' [] /\
    iinv (ISys s' (is_irq t) ({[i]} ∪ is_wait t) (<[i := ChBuf i]> (is_asleep t))) (q ++ [i]) v' /\ id_buf s' = id_buf (is_ide t) /\ av_sect v' = av_sect v.
Proof using Hfuel.
  intros Hv Hi Hb Hlt Hl Hc Hdev. assert (Hiq : i ∉ q) by (intros Hq; by apply Hi, (ii_queue _ _ _ Hv)).
  destruct (enqueue_spec t q v i Hv Hiq) as (nx & h & Eq & Hch & Hh). pose proof (ii_bufs _ _ _ Hv i b Hb) as [Hb0 Hbd].
  destruct t as [s irq wt sl]. cbn [is_ide is_irq is_wait is_asleep] in *. set (s1 := set_queue h (set_qnext (fun _ => nx) s)) in *.
  assert (Hrd : forall s, id_buf s !! i = Some b -> read_ibuf i s = Ok b s []).
  { intros s0 Hs0. unfold read_ibuf, bind, get, deref. cbn. by rewrite Hs0. }
  assert (Hwait : forall d, iderw_wait i (set_dev d s1) = Sleep (ChBuf i) (set_dev d s1) []).
  { intros d. unfold iderw_wait. rewrite (bind_ok _ _ _ b _ (Hrd (set_dev d s1) Hb)). unfold clean in Hc. by rewrite Hc. }
  assert (Hgo : ide_rw fuel pid i s = bind (when bool_decide (h = Some i) then idestart fuel (Some i)) (fun _ => iderw_wait i) s1).
  { unfold ide_rw, holdingsleep. rewrite (bind_ok _ _ s true s) by (unfold gets, ibuf_lock; by rewrite Hb, Hl). cbn [negb].
    rewrite (bind_ok _ _ s b s (Hrd s Hb)). unfold clean in Hc. rewrite Hc. rewrite (bind_ok _ _ s s s) by done.
    replace (negb (b_dev b =? 0) && negb (id_have1 s)) with false by (destruct Hdev as [->| ->]; [done|symmetry; apply andb_false_r]).
    rewrite (bind_ok _ _ s tt s1 Eq). by rewrite (bind_ok _ _ s1 s1 s1) by done. }
  assert (Hinv : forall d v', ata_rep d v' -> (q = [] -> works b v' irq) -> (q <> [] -> v' = v) ->
    iinv (ISys (set_dev d s1) irq ({[i]} ∪ wt) (<[i := ChBuf i]> sl)) (q ++ [i]) v').
  { intros d v' Hr Hq0 Hq1. destruct Hv as [B1 B2 B3 B4 B5 Bs B6 B7]. constructor; cbn [is_ide is_irq is_wait is_asleep id_buf id_qnext id_queue id_dev set_dev s1 set_queue set_qnext].
    - done.
    - apply NoDup_app. split_and!; [done|set_solver|apply NoDup_singleton].
    - done.
    - intros j [Hj|Hj]%elem_of_app; [destruct (B4 j Hj) as [? ?]; split; [set_solver|done]|].
      apply list_elem_of_singleton in Hj as ->. split; [set_solver|]. exists b. apply andb_true_iff in Hl as [Hl _]. done.
    - intros j Hj Hjq. apply B5; set_solver.
    - intros j c [[<- <-]|[_ [Hj ->]%Bs]]%lookup_insert_Some; split; set_solver.
    - done.
    - destruct q as [|j q]; cbn [app]; [intros b' Hb'; rewrite Hb in Hb'; injection Hb' as <-; by apply Hq0|]. by rewrite (Hq1 ltac:(done)). }
  rewrite Hgo. case_bool_decide as Hhi.
  - apply Hh in Hhi as ->. destruct (ii_head _ _ _ Hv) as [Hidle Hirq]. cbn in Hirq.
    destruct (idestart_spec s1 v i b) as (d & v' & Es & Hr & Hsect & Hph); [apply Hv|done|done|by constructor|].
    rewrite (bind_ok _ _ _ _ _ Es), Hwait. eexists _, v'. split_and!; [reflexivity| |done|done].
    apply Hinv; [done| |done]. intros _. unfold works. by rewrite Hirq.
  - rewrite (bind_ok _ _ s1 tt s1) by done. exists s1, v. specialize (Hwait (id_dev s1)).
    assert (Es1 : set_dev (id_dev s1) s1 = s1) by done. rewrite Es1 in Hwait. split_and!; [done| |done|done].
    rewrite <- Es1. apply Hinv; [apply Hv|intros Hq; by apply Hh in Hq|done].
Qed.

(** ** Interrupts *)

Lemma flags_done f : Z.land (Z.land (Z.lor f B_VALID) (Z.lnot B_DIRTY)) (Z.lor B_VALID B_DIRTY) = B_VALID.
Proof.
  apply Z.bits_inj'. intros n Hn. rewrite !Z.land_spec, Z.lor_spec, Z.lnot_spec by lia. change B_VALID with (2 ^ 1). change B_DIRTY with (2 ^ 2).
  rewrite Z.lor_spec, !Z.pow2_bits_eqb by lia. destruct (Z.eqb_spec 1 n), (Z.eqb_spec 2 n); try lia;
    cbn; rewrite ?orb_true_r, ?orb_false_r, ?andb_false_r; done.
Qed.

(** The buffer after its request. *)
Definition served (d : list Z) (b : buf) : buf :=
  b_with_flags (Z.land (Z.lor (b_flags b) B_VALID) (Z.lnot B_DIRTY)) (b_with_data d b).

Lemma served_clean d b : clean (served d b) = true.
Proof. unfold clean, served. cbn [b_flags b_with_flags b_with_data]. rewrite flags_done. apply Z.eqb_refl. Qed.

(** The data of the buffer after its request: a read without error fetches it. *)
Definition fetched (v : aview) (b : buf) : list Z :=
  if dirty b || failed v then b_data b else av_sect v (unit_of b) (b_blockno b).

Lemma fetched_ok v b : works b v true -> failed v = false -> fetched v b = av_sect v (unit_of b) (b_blockno b).
Proof.
  unfold works, fetched, failed. intros [->|Hw]; [done|]. intros ->. destruct (dirty b); [|done]. by destruct Hw as [_ ->].
Qed.

Lemma set_ibuf_id (s : ide D) i b : id_buf s !! i = Some b -> set_dev (id_dev s) (set_ibuf <[i := b_with_data (b_data b) b]> s) = s.
Proof.
  intros Hb. replace (b_with_data (b_data b) b) with b by (by destruct b). unfold set_ibuf. rewrite list_insert_id by done. by destruct s.
Qed.

Lemma fetch_spec s v i b :
  ata_rep (id_dev s) v -> works b v true -> id_buf s !! i = Some b ->
  exists d v1, (if negb (dirty b) then
      let* r := idewait fuel true in
      if 0 <=? r then let* d := insl 0x1f0 (Z.to_nat BSIZE) in upd_ibuf i (b_with_data d) else ret tt
    else ret tt) s = Ok tt (set_dev d (set_ibuf <[i := b_with_data (fetched v b) b]> s)) [] /\
    ata_rep d v1 /\ at_rest v1 = true /\ av_sect v1 = av_sect v.
Proof using Hfuel.
  intros Hr Hw Hb. unfold works in Hw. unfold fetched. destruct (dirty b); cbn [negb orb].
  - exists (id_dev s), v. split_and!; [|done| |done]; [by rewrite set_ibuf_id|]. unfold at_rest. by destruct Hw as [->|[-> _]].
  - assert (Hp : at_rest v = true \/ exists dr l, av_phase v = Ready dr l) by (unfold at_rest; destruct Hw as [->|Hw]; eauto).
    destruct (idewait_spec true s v Hr Hp) as (d0 & E0 & Hr0). rewrite (bind_ok _ _ _ _ _ E0). cbn [andb]. destruct Hw as [Hw|Hw].
    { exists d0, v. unfold failed, at_rest. rewrite Hw. split_and!; [|done..]. cbn. unfold ret. f_equal.
      rewrite <- (set_ibuf_id s i b Hb) at 1. done. }
    unfold failed. rewrite Hw. cbn [Z.leb Z.compare].
    destruct (ata_in_data _ _ _ _ Hr0 Hw) as [E1 Hr1]. exists (ata_insl 0x1f0 512 d0).2, (with_phase Idle v). split_and!; [|done..].
    unfold insl, upd_ibuf, bind, get, modify, ret. cbn -[ata_insl]. change (Z.to_nat BSIZE) with 512%nat. rewrite E1. unfold set_ibuf, set_dev. cbn.
    by rewrite (alter_is_insert _ i (id_buf s) b Hb).
Qed.

Lemma intr_spec t i q v b :
  iinv t (i :: q) v -> is_irq t = true -> id_buf (is_ide t) !! i = Some b ->
  exists s' v', ideintr fuel (is_ide t) = Ok tt s' [ChBuf i] /\
    iinv (ISys s' false (is_wait t) (wakened [ChBuf i] (is_asleep t))) q v' /\
    id_buf s' = <[i := served (fetched v b) b]> (id_buf (is_ide t)) /\ av_sect v' = av_sect v.
Proof using Hfuel.
  intros Hv Hirq Hb. pose proof (ii_head _ _ _ Hv b Hb) as Hw. rewrite Hirq in Hw. destruct t as [s irq wt sl]. cbn [is_ide is_irq is_wait is_asleep] in *. subst irq.
  pose proof Hv as [B1 B2 B3 B4 B5 Bs B6 _]. cbn [is_ide is_irq is_wait is_asleep] in *. destruct B1 as [Eh Hch]. apply NoDup_cons in B2 as [Hiq B2].
  set (dd := fetched v b) in *. pose proof (lookup_lt_Some _ _ _ Hb) as Hlen.
  destruct (fetch_spec (set_queue (id_qnext s !! i) s) v i b B6 Hw Hb) as (d & v1 & Ef & Hr1 & Hp1 & Hs1). fold dd in Ef.
  set (s1 := set_dev d (set_ibuf <[i := b_with_data dd b]> (set_queue (id_qnext s !! i) s))) in *.
  set (s2 := set_dev d (set_ibuf <[i := served dd b]> (set_queue (id_qnext s !! i) s))).
  assert (Hgo : ideintr fuel s = after [ChBuf i] (match id_queue s2 with Some j => idestart fuel (Some j) | None => ret tt end s2)).
  { unfold ideintr. rewrite (bind_ok _ _ s s s) by done. rewrite Eh. rewrite (bind_ok _ _ s tt (set_queue (id_qnext s !! i) s)) by done.
    rewrite (bind_ok _ _ _ b (set_queue (id_qnext s !! i) s)) by (unfold read_ibuf, bind, get, deref; cbn; by rewrite Hb).
    fold (dirty b). rewrite (bind_ok _ _ _ tt s1 Ef). unfold upd_ibuf at 1. rewrite (bind_ok _ _ s1 tt (set_ibuf _ s1)) by done.
    unfold upd_ibuf at 1. rewrite (bind_ok _ _ _ tt s2). { unfold bind at 1, wake at 1. by rewrite (bind_ok _ _ s2 s2 s2) by done. }
    unfold modify, set_ibuf, s1, s2. cbn. do 2 f_equal. erewrite (alter_is_insert _ i (<[i := _]> _)) by (by apply list_lookup_insert_eq).
    erewrite alter_is_insert by (apply list_lookup_insert_eq; by rewrite length_insert). by rewrite !list_insert_insert_eq. }
  assert (Hinv : forall d' v', ata_rep d' v' -> match q with [] => at_rest v' = true | j :: _ => forall b, id_buf s !! j = Some b -> av_phase v' = request b end ->
    iinv (ISys (set_dev d' s2) false wt (wakened [ChBuf i] sl)) q v').
  { intros d' v' Hr' Hp'. constructor; cbn [is_ide is_irq is_wait is_asleep id_buf id_qnext id_queue id_dev set_dev s2 set_queue set_ibuf]; try done.
    - intros j bj [(<- & <- & _)|[Hne Hj]]%list_lookup_insert_Some; [|by apply (B3 j)]. cbn. split; [by apply (B3 i)|]. unfold dd, fetched. destruct (_ || _); [by apply (B3 i)|exact (ata_sect_length _ _ _ _ B6)].
    - intros j Hj. destruct (B4 j ltac:(set_solver)) as (? & bj & ? & ? & ? & ?). split; [done|]. exists bj. by rewrite list_lookup_insert_ne by set_solver.
    - intros j Hj Hjq. destruct (decide (j = i)) as [->|Hne]; [exists (served dd b); split; [by apply list_lookup_insert_eq|apply served_clean]|].
      rewrite list_lookup_insert_ne by done. apply B5; [done|set_solver].
    - intros j c [[Hj ->]%Bs Hn]%map_lookup_filter_Some. split; [|done]. apply elem_of_cons in Hj as [->|Hj]; [|done]. cbn in Hn. set_solver.
    - destruct q as [|j q]; [by split|]. intros bj. rewrite list_lookup_insert_ne by set_solver. apply Hp'. }
  rewrite Hgo. change (id_queue s2) with (id_qnext s !! i). destruct q as [|j q].
  - cbn in Hch. rewrite Hch. exists s2, v1. split_and!; [done| |done|done]. by apply (Hinv d v1).
  - destruct Hch as [-> Hch]. destruct (queued_ok _ _ _ j Hv ltac:(set_solver)) as (bj & Hj & Hok & _). cbn [is_ide] in Hj.
    destruct (idestart_spec s2 v1 j bj) as (d2 & v2 & Es & Hr2 & Hs2 & Hp2); [done|done|cbn; rewrite list_lookup_insert_ne by set_solver; done|done|].
    rewrite Es. exists (set_dev d2 s2), v2. split_and!; [done| |done|congruence]. apply Hinv; [done|]. intros b' Hb'. congruence.
Qed.

(** ** The invariant holds *)

(** How a step changes the queue. *)
Definition moves (e : ievent) (q q' : list nat) : Prop :=
  match e with
  | Submit i => q' = q ++ [i]
  | Intr => exists i, q = i :: q'
  | _ => q' = q
  end.

Lemma ide_rw_sleep pid i s b c s' w :
  ide_rw fuel pid i s = Sleep c s' w -> id_buf s !! i = Some b ->
  sl_locked (b_lock b) && (sl_pid (b_lock b) =? pid) = true /\ clean b = false /\ (b_dev b = 0 \/ id_have1 s = true).
Proof.
  intros E Hb. unfold ide_rw, holdingsleep in E.
  rewrite (bind_ok _ _ s (sl_locked (b_lock b) && (sl_pid (b_lock b) =? pid)) s) in E by (unfold gets, ibuf_lock; by rewrite Hb).
  destruct (sl_locked (b_lock b) && (sl_pid (b_lock b) =? pid)); [|done]. cbn [negb] in E.
  rewrite (bind_ok _ _ s b s) in E by (unfold read_ibuf, bind, get, deref; cbn; by rewrite Hb). fold (clean b) in E.
  destruct (clean b); [done|]. rewrite (bind_ok _ _ s s s) in E by done. split_and!; [done|done|].
  destruct (Z.eqb_spec (b_dev b) 0), (id_have1 s); auto; done.
Qed.

Lemma wait_clean i s s' w :
  iderw_wait i s = Ok tt s' w -> s' = s /\ w = [] /\ exists b, id_buf s !! i = Some b /\ clean b = true.
Proof.
  unfold iderw_wait, read_ibuf, bind, get, deref. cbn. destruct (id_buf s !! i) as [b|]; [|done]. cbn. fold (clean b).
  destruct (clean b) eqn:E; [|done]. intros [= <- <-]. eauto.
Qed.

Lemma wait_sleep i s c s' w :
  iderw_wait i s = Sleep c s' w -> c = ChBuf i /\ s' = s /\ w = [] /\ exists b, id_buf s !! i = Some b /\ clean b = false.
Proof.
  unfold iderw_wait, read_ibuf, bind, get, deref. cbn. destruct (id_buf s !! i) as [b|]; [|done]. cbn. fold (clean b).
  destruct (clean b) eqn:E; [done|]. intros [= <- <- <-]. split_and!; eauto.
Qed.

Lemma wakened_nil m : wakened [] m = m.
Proof. apply map_filter_id. set_solver. Qed.

Lemma clean_wait i s b : id_buf s !! i = Some b -> clean b = true -> iderw_wait i s = Ok tt s [].
Proof.
  intros Hb Hc. unfold iderw_wait. rewrite (bind_ok _ _ s b s) by (unfold read_ibuf, bind, get, deref; cbn; by rewrite Hb).
  unfold clean in Hc. by rewrite Hc.
Qed.

(** While a command runs the first request is being worked on. *)
Lemma finish_spec t q v v' : iinv t q v -> finished v v' ->
  exists i q' b, q = i :: q' /\ id_buf (is_ide t) !! i = Some b /\ is_irq t = false /\ works b v' true /\
    forall dr l, (dirty b = false \/ dr <> unit_of b \/ l <> b_blockno b) -> av_sect v' dr l = av_sect v dr l.
Proof.
  intros Hv Hf. assert (Hr : at_rest v = false /\ forall dr l, av_phase v <> Ready dr l).
  { unfold at_rest. by inversion Hf as [? ? E|? ? ? E|? ? E|? ? ? ? E]; rewrite E. }
  pose proof (ii_head _ _ _ Hv) as Hh. destruct q as [|i q]; [destruct Hh; destruct Hr; congruence|].
  destruct (queued_ok _ _ _ i Hv ltac:(set_solver)) as (b & Hb & _). specialize (Hh b Hb). exists i, q, b. unfold works in *.
  destruct (is_irq t).
  { exfalso. unfold at_rest in Hr. destruct Hr as [Hr1 Hr2], Hh as [Hh|Hh]; [by rewrite Hh in Hr1|].
    destruct (dirty b); [destruct Hh as [Hh _]; by rewrite Hh in Hr1|by eapply Hr2]. }
  clear Hr. unfold request in Hh.
  destruct (dirty b) eqn:Ed; inversion Hf as [dr l E|dr l d E|dr l E|dr l d x E Hx]; subst; rewrite Hh in E; try done; injection E as <- <-; subst;
    (split_and!; [done|done|done|cbn; auto|cbn; intros dr' l' Hne; try done]).
  - right. by rewrite !Z.eqb_refl.
  - destruct (Z.eqb_spec dr' (unit_of b)), (Z.eqb_spec l' (b_blockno b)); cbn; naive_solver.
  - destruct (Z.eqb_spec dr' (unit_of b)), (Z.eqb_spec l' (b_blockno b)); cbn; naive_solver.
Qed.

(** A write that has reached the disk but whose interrupt is still to come. *)
Definition unsettled (t : isys) (x : Z) : Prop :=
  is_irq t = true /\ exists i b, id_queue (is_ide t) = Some i /\ id_buf (is_ide t) !! i = Some b /\
    dirty b = true /\ unit_of b = 1 /\ b_blockno b = x.

(** Nothing that is settled on disk 1 changes. *)
Definition quiet (t t' : isys) (v v' : aview) : Prop :=
  (forall x, unsettled t x -> unsettled t' x) /\ forall x, ~ unsettled t' x -> av_sect v' 1 x = av_sect v 1 x.

(** What a step does to the buffers and to disk 1. *)
Definition effect (e : ievent) (t t' : isys) (v v' : aview) : Prop :=
  match e with
  | Intr => exists i b, id_queue (is_ide t) = Some i /\ id_buf (is_ide t) !! i = Some b /\ buf_ok b /\ clean b = false /\
      sl_locked (b_lock b) = true /\ works b v true /\ is_irq t' = false /\
      id_buf (is_ide t') = <[i := served (fetched v b) b]> (id_buf (is_ide t)) /\ av_sect v' = av_sect v
  | Use i => (exists b, id_buf (is_ide t') = alter (fun _ => b) i (id_buf (is_ide t))) /\ quiet t t' v v'
  | _ => id_buf (is_ide t') = id_buf (is_ide t) /\ quiet t t' v v'
  end.

Lemma quiet_same t t' v :
  is_irq t' = is_irq t -> is_ide t' = is_ide t -> quiet t t' v v.
Proof. intros E1 E2. split; [|done]. unfold unsettled. by rewrite E1, E2. Qed.

Lemma head_queue nx h (q : list nat) : chain nx h q -> h = head q.
Proof. by destruct q; [|intros [-> _]]. Qed.

Lemma submit_quiet t t' q v v' i :
  iinv t q v -> iinv t' (q ++ [i]) v' -> is_irq t' = is_irq t -> id_buf (is_ide t') = id_buf (is_ide t) ->
  av_sect v' = av_sect v -> quiet t t' v v'.
Proof.
  intros Hv Hv' Ei Eb Es. split; [|by rewrite Es]. intros x (Hi & j & b & Hq & Hb & Hx). unfold unsettled. rewrite Ei, Eb.
  split; [done|]. exists j, b. split; [|done]. rewrite (head_queue _ _ _ (ii_chain _ _ _ Hv)) in Hq.
  rewrite (head_queue _ _ _ (ii_chain _ _ _ Hv')). by destruct q.
Qed.

Lemma istep_spec e t t' q v : iinv t q v -> istep e t t' -> exists q' v', iinv t' q' v' /\ moves e q q' /\ effect e t t' v v'.
Proof using Hfuel.
  intros Hv Hs. destruct Hs as [t i pid b c s' w Hi Hb Hlt E|t d Hd|t s' w Hirq E|t i c Hi|t i c s' w Hi Hn E|t i s' w Hi Hn E|t i b Hi Hb Hd].
  - destruct (ide_rw_sleep _ _ _ _ _ _ _ E Hb) as (Hl & Hc & Hdev).
    destruct (submit_spec t q v i pid b Hv Hi Hb Hlt Hl Hc Hdev) as (s2 & v' & E' & Hinv & Eb & Es). rewrite E in E'. injection E' as -> -> ->.
    exists (q ++ [i]), v'. rewrite wakened_nil. split; [done|]. split; [done|]. split; [done|]. by eapply submit_quiet.
  - destruct (ata_finish_ok _ _ _ (ii_dev _ _ _ Hv) Hd) as (v' & Hf & Hr). destruct (finish_spec _ _ _ _ Hv Hf) as (i & q' & b & -> & Hb & Hirq & Hw & Hse).
    pose proof (ii_chain _ _ _ Hv) as [Hq _]. exists (i :: q'), v'. split; [|split; [done|split; [done|split]]].
    + destruct Hv. constructor; try done. cbn. intros b' Hb'. cbn in Hb'. rewrite Hb in Hb'. by injection Hb' as <-.
    + intros x [Hx _]. congruence.
    + intros x Hx. apply Hse. destruct (dirty b) eqn:Ed; [right|by left]. destruct (decide (1 = unit_of b)); [right|by left].
      intros ->. apply Hx. split; [done|]. by exists i, b.
  - pose proof (ii_head _ _ _ Hv) as Hh. destruct q as [|i q]; [destruct Hh; congruence|].
    destruct (queued_ok _ _ _ i Hv ltac:(set_solver)) as (b & Hb & Hok & Hc & Hl). specialize (Hh b Hb). rewrite Hirq in Hh.
    destruct (intr_spec t i q v b Hv Hirq Hb) as (s2 & v' & E' & Hinv & Eb & Es). rewrite E in E'. injection E' as -> ->.
    pose proof (ii_chain _ _ _ Hv) as [Hq _]. exists q, v'. split; [done|]. split; [by exists i|]. exists i, b. by split_and!.
  - exists q, v. split; [|split; [done|split; [done|by apply quiet_same]]]. destruct Hv as [B1 B2 B3 B4 B5 Bs B6 B7]. constructor; try done; cbn [is_asleep].
    intros j c' [_ Hj]%lookup_delete_Some. by apply Bs.
  - apply wait_sleep in E as (-> & -> & -> & b & Hb & Hc). exists q, v. split; [|split; [done|split; [done|by apply quiet_same]]].
    destruct Hv as [B1 B2 B3 B4 B5 Bs B6 B7].
    constructor; try done; cbn [is_asleep]. rewrite wakened_nil. intros j c' [[<- <-]|[_ Hj]]%lookup_insert_Some; [|by apply Bs].
    split; [|done]. destruct (decide (i ∈ q)) as [|Hq]; [done|]. destruct (B5 i Hi Hq) as (b' & Hb' & Hc'). congruence.
  - apply wait_clean in E as (-> & -> & b & Hb & Hc). exists q, v. split; [|split; [done|split; [done|by apply quiet_same]]].
    destruct Hv as [B1 B2 B3 B4 B5 Bs B6 B7].
    constructor; try done; cbn [is_ide is_wait is_asleep]; rewrite ?wakened_nil; try done.
    + intros j Hj. destruct (B4 j Hj) as (Hw & b' & Hb' & Hx & Hc' & Hl'). split; [|eauto 6]. apply elem_of_difference. split; [done|].
      intros ->%elem_of_singleton. congruence.
    + intros j Hj Hjq. apply B5; [set_solver|done].
  - exists q, v. assert (Hq : i ∉ q) by (intros Hq; by apply Hi, (ii_queue _ _ _ Hv)). split; [|split; [done|split; [by exists b|]]].
    + destruct Hv as [B1 B2 B3 B4 B5 Bs B6 B7]. constructor; try done; cbn [is_ide is_irq is_wait id_buf set_ibuf].
      * intros j bj. destruct (decide (j = i)) as [->|Hne]; [|rewrite list_lookup_alter_ne by done; apply B3].
        rewrite list_lookup_alter_eq. destruct (id_buf (is_ide t) !! i); [|done]. by intros [= <-].
      * intros j Hj. rewrite list_lookup_alter_ne by (intros ->; done). by apply B4.
      * intros j Hj Hjq. rewrite list_lookup_alter_ne by (intros ->; done). by apply B5.
      * destruct q as [|j q]; [done|]. intros bj. rewrite list_lookup_alter_ne by set_solver. apply B7.
    + split; [|done]. intros x (Hirq & j & bj & Hj & Hx). split; [done|]. exists j, bj. split; [done|].
      cbn [is_ide id_buf set_ibuf]. rewrite list_lookup_alter_ne; [done|]. intros ->.
      rewrite (head_queue _ _ _ (ii_chain _ _ _ Hv)) in Hj. destruct q; [done|]. injection Hj as ->. set_solver.
Qed.

Lemma istep_inv e t t' q v : iinv t q v -> istep e t t' -> exists q' v', iinv t' q' v' /\ moves e q q'.
Proof using Hfuel. intros Hv Hs. destruct (istep_spec _ _ _ _ _ Hv Hs) as (q' & v' & ? & ? & _). eauto. Qed.

(** ** Executions *)

Inductive irun : list ievent -> isys -> isys -> Prop :=
| irun_nil t : irun [] t t
| irun_cons e tr t t1 t' : istep e t t1 -> irun tr t1 t' -> irun (e :: tr) t t'.

(** The start: no requests, the controller idle. *)
Record istart (t : isys) (v : aview) : Prop := {
  st_queue : id_queue (is_ide t) = None;
  st_wait : is_wait t = ∅;
  st_asleep : is_asleep t = ∅;
  st_irq : is_irq t = false;
  st_bufs : forall i b, id_buf (is_ide t) !! i = Some b -> 0 <= b_blockno b /\ length (b_data b) = 512%nat;
  st_dev : ata_rep (id_dev (is_ide t)) v;
  st_idle : at_rest v = true }.

Lemma istart_inv t v : istart t v -> iinv t [] v.
Proof using Type. clear Hfuel fuel. intros []. constructor; try done.
  - constructor.
  - intros i Hi. set_solver.
  - intros i Hi. set_solver.
  - intros i c Hi. by rewrite st_asleep0 in Hi.
Qed.

Lemma irun_inv tr t t' q v : irun tr t t' -> iinv t q v -> exists q' v', iinv t' q' v'.
Proof using Hfuel.
  intros Hr. revert q v. induction Hr as [t|e tr t t1 t' Hs Hr IH]; intros q v Hv; [eauto|].
  destruct (istep_inv _ _ _ _ _ Hv Hs) as (q1 & v1 & Hv1 & _). by eapply IH.
Qed.

(** The interrupts of an execution. *)
Fixpoint intrs (tr : list ievent) : nat :=
  match tr with
  | [] => 0
  | Intr :: tr => S (intrs tr)
  | _ :: tr => intrs tr
  end.

(** A request that is done stays so until [iderw] returns. *)
Lemma done_kept tr t t' q v i :
  irun tr t t' -> iinv t q v -> i ∈ is_wait t -> (i ∉ q) -> Return i ∉ tr -> exists q' v', iinv t' q' v' /\ i ∈ is_wait t' /\ (i ∉ q').
Proof using Hfuel.
  intros Hr. revert q v. induction Hr as [t|e tr t t1 t' Hs Hr IH]; intros q v Hv Hi Hq Hn; [eauto|].
  destruct (istep_inv _ _ _ _ _ Hv Hs) as (q1 & v1 & Hv1 & Hm). apply not_elem_of_cons in Hn as [Hne Hn].
  apply (IH q1 v1 Hv1); [| |done].
  - inversion Hs; subst; cbn; set_solver.
  - destruct e as [j| | |j|j|j|j]; cbn in Hm; try (by subst).
    + subst. inversion Hs; subst. set_solver.
    + destruct Hm as [j ->]. set_solver.
Qed.

(** The place in the queue goes down with every interrupt, and never up. *)
Lemma served_in_time tr t t' q v k i :
  irun tr t t' -> iinv t q v -> q !! k = Some i -> Return i ∉ tr -> (k < intrs tr)%nat ->
  exists q' v', iinv t' q' v' /\ i ∈ is_wait t' /\ (i ∉ q').
Proof using Hfuel.
  intros Hr. revert q v k. induction Hr as [t|e tr t t1 t' Hs Hr IH]; intros q v k Hv Hk Hn Hlt; [cbn in Hlt; lia|].
  destruct (istep_inv _ _ _ _ _ Hv Hs) as (q1 & v1 & Hv1 & Hm). apply not_elem_of_cons in Hn as [Hne Hn].
  destruct e as [j| | |j|j|j|j]; cbn in Hm; cbn [intrs] in Hlt; try (subst q1; by eapply (IH q v1 k)).
  - subst q1. eapply (IH _ v1 k); [done|by apply lookup_app_l_Some|done|done].
  - destruct Hm as [j ->]. destruct k as [|k]; [|eapply (IH q1 v1 k); [done|done|done|lia]]. injection Hk as ->.
    apply (done_kept tr t1 t' q1 v1); [done|done| |by apply NoDup_cons; apply Hv|done].
    inversion Hs; subst. cbn. apply (ii_queue _ _ _ Hv). set_solver.
Qed.

(** C12: every request is served.  In any execution, as long as requests are queued
    either an interrupt is pending or the controller can end a command; and a
    process that waits for the request at place [k] of the queue has been woken
    and can return after [k + 1] interrupts, whatever else happens in between
    and whether or not the controller reports errors. *)
Theorem ide_liveness t0 v0 tr0 t :
  istart t0 v0 -> irun tr0 t0 t ->
  exists q, chain (id_qnext (is_ide t)) (id_queue (is_ide t)) q /\
    (q <> [] -> exists e t', (e = Finish \/ e = Intr) /\ istep e t t') /\
    forall k i tr t', q !! k = Some i -> irun tr t t' -> Return i ∉ tr -> (k < intrs tr)%nat ->
      is_asleep t' !! i = None /\ exists t'', istep (Return i) t' t''.
Proof using Hfuel.
  intros Hst Hr. destruct (irun_inv _ _ _ _ _ Hr (istart_inv _ _ Hst)) as (q & v & Hv). exists q. split_and!; [apply Hv| |].
  - intros Hq. pose proof (ii_head _ _ _ Hv) as Hh. destruct q as [|i q]; [done|].
    destruct (queued_ok _ _ _ i Hv ltac:(set_solver)) as (b & Hb & _). specialize (Hh b Hb). destruct (is_irq t) eqn:Hirq.
    + destruct (intr_spec t i q v b Hv Hirq Hb) as (s' & v' & E & _). exists Intr. eexists. split; [by right|by econstructor].
    + assert (Hf : exists v', finished v v') by (unfold works, request in Hh; destruct (dirty b); eexists; [by eapply fin_write|by eapply fin_read]).
      destruct Hf as [v' Hf]. destruct (ata_finish_live _ _ _ (ii_dev _ _ _ Hv) Hf) as [d Hd].
      eexists Finish, _. split; [by left|by constructor].
  - intros k i tr t' Hk Hr' Hn Hlt. destruct (served_in_time _ _ _ _ _ _ _ Hr' Hv Hk Hn Hlt) as (q' & v' & Hv' & Hi & Hq').
    destruct (ii_done _ _ _ Hv' i Hi Hq') as (b & Hb & Hc).
    assert (Ha : is_asleep t' !! i = None).
    { destruct (is_asleep t' !! i) as [c|] eqn:Ec; [|done]. by destruct (ii_asleep _ _ _ Hv' _ _ Ec). }
    split; [done|]. eexists. econstructor; [done|done|]. by eapply clean_wait.
Qed.

(** C13: handling an interrupt ends the first request.  The handler does not panic;
    it leaves the buffer valid and not dirty and wakes the waiting process;
    other buffers and the disk stay as they are.  If the controller reports no
    error the buffer has the content of its block on the disk, which for a
    write is what the buffer held.  If it does, the content of the buffer is
    what it was before, although it is marked valid. *)
Theorem ide_request_done t0 v0 tr0 t :
  istart t0 v0 -> irun tr0 t0 t -> is_irq t = true ->
  exists i b s' v v', id_queue (is_ide t) = Some i /\ id_buf (is_ide t) !! i = Some b /\
    ideintr fuel (is_ide t) = Ok tt s' [ChBuf i] /\ ata_rep (id_dev (is_ide t)) v /\ ata_rep (id_dev s') v' /\ av_sect v' = av_sect v /\
    exists b', id_buf s' = <[i := b']> (id_buf (is_ide t)) /\ clean b' = true /\
      b_dev b' = b_dev b /\ b_blockno b' = b_blockno b /\ b_lock b' = b_lock b /\
      (failed v = false -> b_data b' = av_sect v' (unit_of b) (b_blockno b)) /\
      (failed v = true \/ dirty b = true -> b_data b' = b_data b).
Proof using Hfuel.
  intros Hst Hr Hirq. destruct (irun_inv _ _ _ _ _ Hr (istart_inv _ _ Hst)) as (q & v & Hv).
  pose proof (ii_head _ _ _ Hv) as Hh. destruct q as [|i q]; [destruct Hh; congruence|].
  destruct (queued_ok _ _ _ i Hv ltac:(set_solver)) as (b & Hb & _). specialize (Hh b Hb). rewrite Hirq in Hh.
  destruct (intr_spec t i q v b Hv Hirq Hb) as (s' & v' & E & Hv' & Eb & Es). destruct (ii_chain _ _ _ Hv) as [Eq _].
  exists i, b, s', v, v'. split_and!; try done; [apply Hv|apply Hv'|].
  exists (served (fetched v b) b). split_and!; try done; [apply served_clean| |].
  - intros Hf. cbn. rewrite Es. by apply fetched_ok.
  - intros Hd. cbn. unfold fetched. by destruct Hd as [->| ->]; rewrite ?orb_true_r.
Qed.

(** The two orders in which the drivers set the flags. *)
Lemma flags_order f : Z.lor (Z.land f (Z.lnot B_DIRTY)) B_VALID = Z.land (Z.lor f B_VALID) (Z.lnot B_DIRTY).
Proof. by rewrite Z.land_lor_distr_l. Qed.

Lemma flags_not_dirty f : truth (Z.land f B_DIRTY) = false -> Z.land f (Z.lnot B_DIRTY) = f.
Proof.
  intros Hd%negb_false_iff%Z.eqb_eq. rewrite Z.land_comm. rewrite <- (Z.lor_0_r (Z.land _ f)), <- Hd, Z.land_comm, <- Z.land_lor_distr_r.
  rewrite Z.lor_comm, Z.lor_lnot_diag. apply Z.land_m1_r.
Qed.

(** What [memide.c] does with a locked buffer. *)
Lemma iderw_served pid i (m : bio) b :
  bc_buf m !! i = Some b -> sl_locked (b_lock b) && (sl_pid (b_lock b) =? pid) = true -> clean b = false -> b_dev b = 1 ->
  b_blockno b < dk_size m ->
  (forall d, dirty b = false -> dk_blocks m !! b_blockno b = Some d -> iderw pid i m = Ok tt (set_buf <[i := served d b]> m) []) /\
  (dirty b = true -> iderw pid i m =
     Ok tt (Bio (<[i := served (b_data b) b]> (bc_buf m)) (bc_order m) (dk_size m) (<[b_blockno b := b_data b]> (dk_blocks m))
                (dk_trace m ++ [(b_blockno b, b_data b)])) []).
Proof.
  intros Hb Hl Hc Hdev Hlt. pose proof (lookup_lt_Some _ _ _ Hb) as Hil. unfold iderw, holdingsleep.
  rewrite (bind_ok _ _ m true m) by (unfold gets, buf_lock; by rewrite Hb, Hl). cbn [negb].
  rewrite (bind_ok _ _ m b m) by (unfold read_buf, bind, get, deref; cbn; by rewrite Hb). fold (clean b). rewrite Hc, Hdev. cbn [Z.eqb negb Pos.eqb].
  rewrite (bind_ok _ _ m m m) by done. destruct (Z.leb_spec (dk_size m) (b_blockno b)); [lia|]. fold (dirty b). split.
  - intros d Hd Hdk. rewrite Hd, Hdk. unfold upd_buf, bind, deref, ret, modify, set_buf. cbn. do 2 f_equal.
    rewrite (alter_is_insert _ i (bc_buf m) b Hb). erewrite alter_is_insert by (by apply list_lookup_insert_eq). rewrite list_insert_insert_eq.
    f_equal. unfold served. by rewrite <- flags_order, flags_not_dirty.
  - intros Hd. rewrite Hd. unfold upd_buf, bind, modify, set_buf. cbn. do 2 f_equal.
    rewrite (alter_is_insert _ i (bc_buf m) b Hb). erewrite alter_is_insert by (by apply list_lookup_insert_eq). rewrite list_insert_insert_eq.
    f_equal. unfold served. rewrite <- flags_order. by destruct b.
Qed.

(** The in-memory disk [m] agrees with the driver: the same buffers, and the
    same blocks on disk 1 where no write is about to be acknowledged. *)
Record simulates (t : isys) (q : list nat) (v : aview) (m : bio) : Prop := {
  si_inv : iinv t q v;
  si_buf : bc_buf m = id_buf (is_ide t);
  si_size : dk_size m = FSSIZE;
  si_disk : forall x, 0 <= x < FSSIZE -> ~ unsettled t x -> dk_blocks m !! x = Some (av_sect v 1 x) }.

(** [m] after a command for [b] that failed: the buffer is marked all the same,
    and a block that was to be written has some content [x]. *)
Definition broken (i : nat) (b : buf) (x : list Z) (m : bio) : bio :=
  Bio (<[i := served (b_data b) b]> (bc_buf m)) (bc_order m) (dk_size m)
      (if dirty b then <[b_blockno b := x]> (dk_blocks m) else dk_blocks m) (dk_trace m).

Lemma settled_other t i b x :
  id_queue (is_ide t) = Some i -> id_buf (is_ide t) !! i = Some b -> dirty b = false \/ x <> b_blockno b -> ~ unsettled t x.
Proof. intros Hq Hb Hx (_ & j & b' & Hq' & Hb' & Hd & _ & Hn). simplify_eq. by destruct Hx; [congruence|]. Qed.

Lemma simulates_intr t t' q q' v v' m i b d m' :
  simulates t q v m -> iinv t' q' v' -> is_irq t' = false -> av_sect v' = av_sect v ->
  id_queue (is_ide t) = Some i -> id_buf (is_ide t) !! i = Some b ->
  id_buf (is_ide t') = <[i := served d b]> (id_buf (is_ide t)) ->
  bc_buf m' = <[i := served d b]> (bc_buf m) -> dk_size m' = dk_size m ->
  dk_blocks m' = (if dirty b then <[b_blockno b := av_sect v 1 (b_blockno b)]> (dk_blocks m) else dk_blocks m) ->
  simulates t' q' v' m'.
Proof.
  intros [S1 S2 S3 S4] Hv' Hirq Es Hq Hb Eb Em Esz Edk. constructor; [done|by rewrite Em, Eb, S2|by rewrite Esz|].
  intros x Hx _. rewrite Es, Edk. destruct (dirty b) eqn:Ed.
  - destruct (decide (x = b_blockno b)) as [->|Hne]; [apply lookup_insert_eq|]. rewrite lookup_insert_ne by done.
    apply S4; [done|]. eapply settled_other; eauto.
  - apply S4; [done|]. eapply settled_other; eauto.
Qed.

(** C14: the driver implements the synchronous driver the buffer cache is modelled
    with, for any number of requests in flight.  An idle driver agrees with an
    in-memory disk of the same content, and every step keeps the agreement:
    the interrupt that ends a request on disk 1 without an error has exactly
    the effect of one call of [iderw] of [memide.c]; an interrupt after an error
    marks the buffer as [memide.c] does but does not fill it; other steps leave
    the in-memory disk as it is. *)
Theorem ide_memide :
  (forall t v m, istart t v -> bc_buf m = id_buf (is_ide t) -> dk_size m = FSSIZE ->
     (forall x, 0 <= x < FSSIZE -> dk_blocks m !! x = Some (av_sect v 1 x)) -> simulates t [] v m) /\
  (forall e t t' q v m, simulates t q v m -> istep e t t' ->
     exists q' v', match e with
     | Intr => exists i b, id_queue (is_ide t) = Some i /\ id_buf (is_ide t) !! i = Some b /\
         (b_dev b = 1 -> exists m', simulates t' q' v' m' /\
            if failed v then m' = broken i b (av_sect v 1 (b_blockno b)) m
            else iderw (sl_pid (b_lock b)) i m = Ok tt m' [])
     | Use i => exists b, simulates t' q' v' (set_buf (alter (fun _ => b) i) m)
     | _ => simulates t' q' v' m
     end).
Proof using Hfuel.
  split.
  { intros t v m Hst Em Esz Hdk. constructor; try done; [by apply istart_inv|]. intros x Hx _. by apply Hdk. }
  intros e t t' q v m Hsim Hs. pose proof Hsim as [S1 S2 S3 S4]. destruct (istep_spec _ _ _ _ _ S1 Hs) as (q' & v' & Hv' & _ & He).
  exists q', v'.
  assert (Hquiet : id_buf (is_ide t') = id_buf (is_ide t) /\ quiet t t' v v' -> simulates t' q' v' m).
  { intros [Eb [Q1 Q2]]. constructor; [done|by rewrite Eb|done|]. intros x Hx Hn. rewrite Q2 by done. by apply S4; [|intros ?; apply Hn, Q1]. }
  destruct e as [j| | |j|j|j|j]; try (by apply Hquiet).
  - destruct He as (i & b & Hq & Hb & [Hb0 Hb512] & Hc & Hl & Hw & Hirq & Eb & Es). exists i, b. split; [done|]. split; [done|].
    intros Hdev. assert (Eu : unit_of b = 1) by (unfold unit_of; by rewrite Hdev).
    destruct (failed v) eqn:Ef.
    { unfold fetched in Eb. rewrite Ef, orb_true_r in Eb. eexists. split; [|done]. by eapply simulates_intr. }
    rewrite (fetched_ok v b Hw Ef), Eu in Eb.
    destruct (iderw_served (sl_pid (b_lock b)) i m b) as [Hrd Hwr]; [by rewrite S2|by rewrite Hl, Z.eqb_refl|done|done|rewrite S3; lia|].
    destruct (dirty b) eqn:Ed.
    + eexists. split; [|by apply Hwr]. pose proof Hw as [Hw'|Hw']; [unfold failed in Ef; by rewrite Hw' in Ef|].
      rewrite Ed, Eu in Hw'. destruct Hw' as [_ Hw'].
      eapply simulates_intr; try done; cbn; rewrite ?Ed, Hw'; done.
    + eexists. split; [|apply Hrd; [done|]; apply S4; [lia|eapply settled_other; eauto]].
      eapply simulates_intr; try done. by rewrite Ed.
  - destruct He as [[b Eb] [Q1 Q2]]. exists b. constructor; [done|cbn; by rewrite S2, Eb|done|].
    intros x Hx Hn. cbn. rewrite Q2 by done. by apply S4; [|intros ?; apply Hn, Q1].
Qed.
End spec.
