(* ===== verification/Boot.v ===== *)
(** * The boot loader

    [bootloader/bootmain.c]: reads the kernel, an ELF file that starts at
    sector 1 of the disk, to the physical addresses of its segments.  The
    state is memory and the disk controller of [Ide], which the loader polls;
    [fuel] bounds the number of polls. *)

From S2P Require Import Prelude CString Kalloc Ide.

Definition SECTSIZE : Z := 512.
(** [elf->magic], little endian. *)
Definition BOOT_MAGIC : Z := 0x464C457F.

Record boot (D : Type) := Boot { bt_mem : memory; bt_dev : D }.
Arguments Boot {D} _ _.
Arguments bt_mem {D} _.
Arguments bt_dev {D} _.

Section boot.
Context {D : Type} `{AtaDev D} (fuel : nat).
Implicit Types (s : boot D).

Definition bt_inb (port : Z) : M (boot D) Z :=
  let* s := get in
  do* modify (fun s => Boot (bt_mem s) (ata_inb port (bt_dev s)).2) in
  ret (ata_inb port (bt_dev s)).1.
Definition bt_outb (port x : Z) : M (boot D) unit :=
  modify (fun s => Boot (bt_mem s) (ata_outb port (u8 x) (bt_dev s))).
(** [n] bytes from the port to [dst]. *)
Definition bt_insl (port dst : Z) (n : nat) : M (boot D) unit :=
  modify (fun s => Boot (store_bytes (bt_mem s) dst (ata_insl port n (bt_dev s)).1) (ata_insl port n (bt_dev s)).2).

Fixpoint waitdisk_loop (f : nat) : M (boot D) unit :=
  let* r := bt_inb 0x1F7 in
  if negb (Z.land r 0xC0 =? 0x40) then
    match f with
    | O => fault "fuel"
    | S f => waitdisk_loop f
    end
  else ret tt.
Definition waitdisk : M (boot D) unit := waitdisk_loop fuel.

Definition readsect (dst offset : Z) : M (boot D) unit :=
  do* waitdisk in
  do* bt_outb 0x1F2 1 in
  do* bt_outb 0x1F3 offset in
  do* bt_outb 0x1F4 (Z.shiftr offset 8) in
  do* bt_outb 0x1F5 (Z.shiftr offset 16) in
  do* bt_outb 0x1F6 (Z.lor (Z.shiftr offset 24) 0xE0) in
  do* bt_outb 0x1F7 0x20 in
  do* waitdisk in
  bt_insl 0x1F0 dst (Z.to_nat SECTSIZE).

(** [for(; pa < epa; pa += SECTSIZE, offset++)] *)
Fixpoint readseg_loop (n : nat) (pa epa offset : Z) : M (boot D) unit :=
  if pa <? epa then
    match n with
    | O => fault "fuel"
    | S n =>
        do* readsect pa offset in
        readseg_loop n (u32 (pa + SECTSIZE)) epa (u32 (offset + 1))
    end
  else ret tt.

Definition readseg (pa count offset : Z) : M (boot D) unit :=
  let epa := u32 (pa + count) in
  let pa := u32 (pa - offset mod SECTSIZE) in
  let offset := u32 (offset / SECTSIZE + 1) in
  readseg_loop (Z.to_nat ((epa - pa) / SECTSIZE + 1)) pa epa offset.

(** A field of a header in memory. *)
Definition field32 (a : Z) : M (boot D) Z := gets (fun s => load32 (bt_mem s) a).
Definition field16 (a : Z) : M (boot D) Z := gets (fun s => le_val (load_bytes (bt_mem s) a 2)).

(** The segment with the program header [ph]. *)
Definition load_segment (ph : Z) : M (boot D) unit :=
  let* pa := field32 (ph + 12) in
  let* filesz := field32 (ph + 16) in
  let* off := field32 (ph + 4) in
  do* readseg pa filesz off in
  let* memsz := field32 (ph + 20) in
  let* filesz := field32 (ph + 16) in
  when filesz <? memsz then
    modify (fun s => Boot (stosb (bt_mem s) (u32 (pa + filesz)) 0 (Z.to_nat (memsz - filesz))) (bt_dev s)).

(** [for(; ph < eph; ph++)]; [k] bounds the number of headers. *)
Fixpoint load_segments (k : nat) (ph eph : Z) : M (boot D) unit :=
  if ph <? eph then
    match k with
    | O => fault "fuel"
    | S k =>
        do* load_segment ph in
        load_segments k (u32 (ph + 32)) eph
    end
  else ret tt.

(** The entry point it jumps to; [None]: it returns to [bootasm.S]. *)
Definition bootmain : M (boot D) (option Z) :=
  let elf := 0x10000 in
  do* readseg elf 4096 0 in
  let* magic := field32 elf in
  if negb (magic =? BOOT_MAGIC) then ret None else
  let* phoff := field32 (elf + 28) in
  let* phnum := field16 (elf + 44) in
  let ph := u32 (elf + phoff) in
  do* load_segments (Z.to_nat phnum) ph (u32 (ph + 32 * phnum)) in
  let* entry := field32 (elf + 24) in
  ret (Some (V2P entry)).
End boot.
