(* ===== verification/BootSpec.v ===== *)
(** * The boot loader loads the kernel

    With a controller that ends a read while it is polled, [bootmain] leaves
    every segment of the kernel in memory, its tail cleared, and jumps to the
    entry point, when the segments come in increasing order. *)

From S2P Require Import Prelude CString Kalloc Ide IdeSpec Boot.

(** A controller that is polled ends its command; the loader does not look at
    the error bits, so the disk has to be readable. *)
Class AtaPolled (D : Type) `{AtaSpec D} := {
  ata_poll_read : forall d v dr l, ata_rep d v -> av_phase v = Reading dr l ->
    exists k, (k <= ata_polls)%nat /\ (forall j, (j < k)%nat -> is_ready (poll j d).1 = false) /\
      is_ready (poll k d).1 = true /\ ata_rep (poll k d).2 (with_phase (Ready dr l) v) }.

Section boot.
Context {D : Type} `{HPoll : AtaPolled D} (fuel : nat) (Hfuel : (ata_polls <= fuel)%nat).
Implicit Types (s : boot D).

(** The controller is idle, interrupts are not masked, and the first disk
    has the sectors [sect]. *)
Definition bt_ok (sect : Z -> list Z) s : Prop :=
  exists v, ata_rep (bt_dev s) v /\ av_phase v = Idle /\ av_reg v 0x3f6 = 0 /\ (forall k, av_sect v 0 k = sect k).

Definition sect_ok (sect : Z -> list Z) : Prop := forall k, bytes_ok (sect k) /\ length (sect k) = 512%nat.

(** Byte [o] of the kernel file. *)
Definition disk_byte (sect : Z -> list Z) (o : Z) : Z := nth (Z.to_nat (o mod SECTSIZE)) (sect (o / SECTSIZE + 1)) 0.

Lemma waitdisk_poll k f s Q :
  (k <= f)%nat -> (forall j, (j < k)%nat -> is_ready (poll j (bt_dev s)).1 = false) ->
  is_ready (poll k (bt_dev s)).1 = true -> Q tt (Boot (bt_mem s) (poll k (bt_dev s)).2) -> wp (waitdisk_loop f) Q s.
Proof using Type.
  clear Hfuel fuel. revert f s. induction k as [|k IH]; intros f s Hk Hno Hyes HQ;
    (destruct f as [|f]; cbn [waitdisk_loop]; unfold bt_inb; repeat wp_step).
  1, 2: unfold is_ready in Hyes; cbn [poll] in *; change (Z.lor IDE_BSY IDE_DRDY) with 0xC0 in Hyes;
    change IDE_DRDY with 0x40 in Hyes; rewrite Hyes; exact HQ.
  - lia.
  - pose proof (Hno 0%nat ltac:(lia)) as Hn. unfold is_ready in Hn. cbn [poll] in Hn.
    change (Z.lor IDE_BSY IDE_DRDY) with 0xC0 in Hn. change IDE_DRDY with 0x40 in Hn. rewrite Hn. cbn [negb].
    apply IH; [lia| |done|done]. intros j Hj. apply (Hno (S j)). lia.
Qed.

Lemma boot_lba o : 0 <= o < 2 ^ 28 -> forall v,
  av_reg v 0x1f3 = u8 o -> av_reg v 0x1f4 = u8 (Z.shiftr o 8) -> av_reg v 0x1f5 = u8 (Z.shiftr o 16) ->
  av_reg v 0x1f6 = u8 (Z.lor (Z.shiftr o 24) 0xE0) -> lba_of v = o /\ drive_of v = 0.
Proof using Type.
  clear Hfuel fuel. intros Ho v E3 E4 E5 E6. unfold lba_of, drive_of. rewrite E3, E4, E5, E6.
  assert (Hh : 0 <= Z.shiftr o 24 < 16) by (rewrite Z.shiftr_div_pow2 by lia; Z.to_euclidean_division_equations; lia).
  assert (Hb : Z.land (u8 (Z.lor (Z.shiftr o 24) 0xE0)) 0x0f = Z.shiftr o 24 /\
               Z.land (Z.shiftr (u8 (Z.lor (Z.shiftr o 24) 0xE0)) 4) 1 = 0).
  { generalize dependent (Z.shiftr o 24). intros h _ Hh.
    assert (Hc : h = 0 \/ h = 1 \/ h = 2 \/ h = 3 \/ h = 4 \/ h = 5 \/ h = 6 \/ h = 7 \/ h = 8 \/ h = 9 \/ h = 10 \/
      h = 11 \/ h = 12 \/ h = 13 \/ h = 14 \/ h = 15) by lia.
    repeat destruct Hc as [->|Hc]; [by vm_compute..|subst; by vm_compute]. }
  destruct Hb as [-> ->]. split; [|done]. unfold u8. rewrite !Z.shiftr_div_pow2 by lia.
  Z.to_euclidean_division_equations; lia.
Qed.

Lemma readsect_spec sect dst o s :
  bt_ok sect s -> 0 <= o < 2 ^ 28 ->
  wp (readsect fuel dst o) (fun _ s' => bt_ok sect s' /\ bt_mem s' = store_bytes (bt_mem s) dst (sect o)) s.
Proof using Hfuel HPoll.
  intros (v & Hr & Hi & H3 & Hs) Ho. unfold readsect, waitdisk. wp_step.
  assert (Hrest : at_rest v = true) by (unfold at_rest; by rewrite Hi).
  destruct (ata_status _ _ Hr (or_introl Hrest)) as (k & Hk & Hno & Hyes & _ & Hr0).
  eapply waitdisk_poll; [|exact Hno|exact Hyes|]; [lia|]. unfold bt_outb, bt_insl. repeat wp_step. cbn [bt_mem bt_dev].
  set (u := u8 (Z.lor (Z.shiftr o 24) 224)).
  set (v1 := set_reg 0x1f6 u (set_reg 0x1f5 (u8 (Z.shiftr o 16)) (set_reg 0x1f4 (u8 (Z.shiftr o 8))
    (set_reg 0x1f3 (u8 o) (set_reg 0x1f2 1 v))))).
  set (d0 := (poll k (bt_dev s)).2) in *.
  set (d1 := ata_outb 0x1f6 u _).
  assert (Hr1 : ata_rep d1 v1) by (unfold d1, v1; repeat (apply ata_out_reg; [|done|set_solver]); done).
  destruct (boot_lba o Ho v1) as [El Ed]; [done..|].
  pose proof (ata_out_read d1 v1 Hr1 Hrest eq_refl H3) as Hr2. rewrite El, Ed in Hr2.
  change (u8 32) with IDE_CMD_READ.
  destruct (ata_poll_read _ _ _ _ Hr2 eq_refl) as (k' & Hk' & Hno' & Hyes' & Hr3).
  eapply waitdisk_poll; [|exact Hno'|exact Hyes'|]; [lia|]. wp_step. cbn [bt_mem bt_dev].
  destruct (ata_in_data _ _ _ _ Hr3 eq_refl) as [El' Hr4].
  split; [|change (Z.to_nat SECTSIZE) with 512%nat; rewrite El'; by rewrite <- Hs].
  eexists. split; [exact Hr4|]. by split_and!.
Qed.

(** The bytes that reading sectors from [pa] up to [epa] covers. *)
Definition span (pa epa : Z) : Z := SECTSIZE * ((epa - pa + 511) / SECTSIZE).

Lemma sect_byte sect o x : disk_byte sect (SECTSIZE * (o - 1) + x) = nth (Z.to_nat (x mod SECTSIZE)) (sect (o + x / SECTSIZE)) 0.
Proof using Type.
  clear Hfuel fuel. unfold disk_byte. rewrite (Z.mul_comm SECTSIZE), Z.add_comm, Z_mod_plus_full, Z.div_add by done.
  f_equal. f_equal. lia.
Qed.

Lemma readseg_loop_spec sect n pa epa o s :
  bt_ok sect s -> sect_ok sect -> 0 <= pa -> epa + 512 <= 2 ^ 32 -> epa - pa <= 512 * Z.of_nat n ->
  0 <= o -> o + Z.of_nat n <= 2 ^ 28 ->
  wp (readseg_loop fuel n pa epa o) (fun _ s' => bt_ok sect s' /\ forall x, bt_mem s' x =
    if decide (pa <= x < pa + span pa epa) then disk_byte sect (SECTSIZE * (o - 1) + (x - pa)) else bt_mem s x) s.
Proof using Hfuel HPoll.
  intros Hok Hs. revert pa o s Hok. induction n as [|n IH]; intros pa o s Hok Hpa Hepa Hn Ho Hon;
    cbn [readseg_loop]; destruct (Z.ltb_spec pa epa) as [Hlt|Hge].
  2, 4: wp_step; split; [done|]; intros x; rewrite decide_False; [done|];
    unfold span, SECTSIZE; Z.to_euclidean_division_equations; lia.
  { lia. }
  eapply wp_seq; [apply (readsect_spec sect pa o s Hok); lia|]. intros _ s1 (Hok1 & Em1).
  rewrite !u32_small by (unfold SECTSIZE; lia).
  eapply wp_mono; [apply IH; [done|unfold SECTSIZE; lia..]|]. cbn beta. intros _ s2 (Hok2 & Em2). split; [done|].
  intros x. rewrite Em2, Em1. destruct (Hs o) as [Hb Hl]. rewrite store_bytes_spec, Hl by done.
  assert (Esp : span pa epa = SECTSIZE + span (pa + SECTSIZE) epa).
  { unfold span. replace (epa - pa + 511) with (epa - (pa + SECTSIZE) + 511 + 1 * SECTSIZE) by (unfold SECTSIZE; lia).
    rewrite Z.div_add by done. unfold SECTSIZE. lia. }
  assert (0 <= span (pa + SECTSIZE) epa) by (unfold span, SECTSIZE; Z.to_euclidean_division_equations; lia).
  rewrite Esp. unfold SECTSIZE in *. repeat case_decide; try lia; try done.
  - f_equal. lia.
  - change 512 with SECTSIZE. rewrite sect_byte, Z.div_small, Z.add_0_r, Z.mod_small by (unfold SECTSIZE; lia). done.
Qed.

Lemma readseg_spec sect pa count o s :
  bt_ok sect s -> sect_ok sect -> 0 <= count -> o mod SECTSIZE <= pa -> pa + count + 512 <= 2 ^ 32 -> 0 <= o < 2 ^ 32 ->
  wp (readseg fuel pa count o) (fun _ s' => bt_ok sect s' /\
    (forall i, 0 <= i < count -> bt_mem s' (pa + i) = disk_byte sect (o + i)) /\
    (forall x, x < pa - o mod SECTSIZE \/ pa + count + 511 <= x -> bt_mem s' x = bt_mem s x)) s.
Proof using Hfuel HPoll.
  intros Hok Hs Hc Hpa Hepa Ho. unfold readseg.
  assert (Hm : 0 <= o mod SECTSIZE < 512) by (apply Z.mod_pos_bound; done).
  assert (Ho' : 0 <= o / SECTSIZE <= 2 ^ 23) by (unfold SECTSIZE; Z.to_euclidean_division_equations; lia).
  rewrite !u32_small by lia. set (pa' := pa - o mod SECTSIZE).
  eapply wp_mono; [apply (readseg_loop_spec sect _ pa' (pa + count)); try done; try lia; unfold pa', SECTSIZE in *|].
  - Z.to_euclidean_division_equations; lia.
  - Z.to_euclidean_division_equations; lia.
  - cbn beta. intros _ s' (Hok' & Em). split; [done|].
    assert (Hsp : pa + count <= pa' + span pa' (pa + count) <= Z.max pa' (pa + count + 511)).
    { unfold span, SECTSIZE. Z.to_euclidean_division_equations; lia. }
    split; [intros i Hi|intros x Hx]; rewrite Em.
    + rewrite decide_True by (unfold pa' in *; lia). f_equal. unfold pa'. replace (o / SECTSIZE + 1 - 1) with (o / SECTSIZE) by lia.
      pose proof (Z_div_mod_eq_full o SECTSIZE). lia.
    + rewrite decide_False; [done|]. unfold pa' in *. lia.
Qed.

(** ** Segments *)

Record seg := Seg { sg_off : Z; sg_pa : Z; sg_filesz : Z; sg_memsz : Z }.

(** The program header of a segment at [ph]. *)
Definition header_at (m : memory) (ph : Z) (g : seg) : Prop :=
  load32 m (ph + 4) = sg_off g /\ load32 m (ph + 12) = sg_pa g /\ load32 m (ph + 16) = sg_filesz g /\
  load32 m (ph + 20) = sg_memsz g.

(** The segments follow each other from [lo] on, such that the sectors read
    for one do not reach below the end of the one before. *)
Fixpoint increasing (lo : Z) (segs : list seg) : Prop :=
  match segs with
  | [] => True
  | g :: segs =>
      lo <= sg_pa g - sg_off g mod SECTSIZE /\ sg_pa g + sg_memsz g + 512 <= 2 ^ 32 /\
      0 <= sg_filesz g <= sg_memsz g /\ 0 <= sg_off g < 2 ^ 32 /\ increasing (sg_pa g + sg_memsz g) segs
  end.

Definition loaded (sect : Z -> list Z) (m : memory) (g : seg) : Prop :=
  forall i, 0 <= i < sg_memsz g ->
    m (sg_pa g + i) = if i <? sg_filesz g then disk_byte sect (sg_off g + i) else 0.

Lemma loaded_ext sect m m' lo segs g :
  increasing lo segs -> g ∈ segs -> (forall x, lo <= x -> m' x = m x) -> loaded sect m g -> loaded sect m' g.
Proof using Type.
  clear Hfuel fuel. revert lo. induction segs as [|g' segs IH]; intros lo Hi Hg Hm Hl; [by apply elem_of_nil in Hg|].
  destruct Hi as (H1 & H2 & H3 & H4 & Hi). assert (0 <= sg_off g' mod SECTSIZE) by (apply Z.mod_pos_bound; done).
  apply elem_of_cons in Hg as [->|Hg].
  - intros i Hr. rewrite Hm by lia. by apply Hl.
  - eapply IH; [done|done| |done]. intros x Hx. apply Hm. lia.
Qed.

Lemma header_ext m m' ph g : (forall x, ph <= x < ph + 32 -> m' x = m x) -> header_at m ph g -> header_at m' ph g.
Proof using Type.
  clear Hfuel fuel. intros Hm (H1 & H2 & H3 & H4). unfold header_at.
  rewrite !(load32_ext m m') by (intros x Hx; apply Hm; lia). by split_and!.
Qed.

(** One segment: it is loaded, and nothing below it changes. *)
Lemma load_segment_spec sect g lo s ph :
  bt_ok sect s -> sect_ok sect -> header_at (bt_mem s) ph g -> 0 <= lo -> ph + 32 <= lo -> increasing lo [g] ->
  wp (load_segment fuel ph)
    (fun _ s' => bt_ok sect s' /\ loaded sect (bt_mem s') g /\ forall x, x < lo -> bt_mem s' x = bt_mem s x) s.
Proof using Hfuel HPoll.
  intros Hok Hs (H1 & H2 & H3 & H4) Hlo Hph (Hpa & Hend & Hsz & Hoff & _).
  assert (Hm : 0 <= sg_off g mod SECTSIZE) by (apply Z.mod_pos_bound; done).
  unfold load_segment, field32. repeat wp_step. rewrite H1, H2, H3.
  eapply wp_mono; [apply (readseg_spec sect); [done|done|lia|lia|lia|lia]|]. cbn beta. intros _ s1 (Hok1 & Hin & Hout).
  repeat wp_step. rewrite !(load32_ext (bt_mem s) (bt_mem s1)) by (intros x Hx; apply Hout; lia). rewrite H3, H4.
  destruct (Z.ltb_spec (sg_filesz g) (sg_memsz g)) as [Hlt|Hge]; wp_step.
  - rewrite u32_small by lia. split_and!.
    + destruct Hok1 as (v & Hv). by exists v.
    + intros i Hi. cbn. rewrite stosb_spec. destruct (Z.ltb_spec i (sg_filesz g)); [rewrite decide_False by lia; apply Hin; lia|].
      by rewrite decide_True by lia.
    + intros x Hx. cbn. rewrite stosb_spec, decide_False by lia. apply Hout. lia.
  - split_and!; [done| |].
    + intros i Hi. rewrite (proj2 (Z.ltb_lt i (sg_filesz g))) by lia. apply Hin. lia.
    + intros x Hx. apply Hout. lia.
Qed.

Lemma load_segments_spec sect hi segs : forall k lo ph s,
  bt_ok sect s -> sect_ok sect -> increasing lo segs -> 0 <= ph -> ph + 32 * Z.of_nat (length segs) <= hi ->
  hi <= lo -> hi < 2 ^ 32 -> (length segs <= k)%nat ->
  (forall i g, segs !! i = Some g -> header_at (bt_mem s) (ph + 32 * Z.of_nat i) g) ->
  wp (load_segments fuel k ph (ph + 32 * Z.of_nat (length segs))) (fun _ s' => bt_ok sect s' /\
    Forall (loaded sect (bt_mem s')) segs /\ forall x, x < lo -> bt_mem s' x = bt_mem s x) s.
Proof using Hfuel HPoll.
  induction segs as [|g segs IH]; intros k lo ph s Hok Hs Hi Hph Hhi Hlo Hhi' Hk Hh.
  { destruct k; cbn [load_segments length]; rewrite (proj2 (Z.ltb_ge ph _)) by lia; wp_step; by split_and!. }
  destruct k as [|k]; [cbn in Hk; lia|]. cbn [load_segments length] in *. rewrite (proj2 (Z.ltb_lt ph _)) by lia.
  pose proof Hi as (H1 & H2 & H3 & H4 & Hi').
  assert (Hm : 0 <= sg_off g mod SECTSIZE) by (apply Z.mod_pos_bound; done).
  pose proof (Hh 0%nat g eq_refl) as Hg. rewrite Z.mul_0_r, Z.add_0_r in Hg.
  eapply wp_seq; [apply (load_segment_spec sect g lo s ph); [done|done|done|lia|lia|cbn [increasing]; split_and!; (done || lia)]|].
  intros _ s1 (Hok1 & Hl1 & Hout1). rewrite u32_small by lia.
  replace (ph + 32 * Z.of_nat (S (length segs))) with (ph + 32 + 32 * Z.of_nat (length segs)) by lia.
  eapply wp_mono; [apply (IH k (sg_pa g + sg_memsz g)); try done; try lia|].
  - intros i g' Hg'. pose proof (lookup_lt_Some _ _ _ Hg'). eapply (header_ext (bt_mem s)); [intros x Hx; apply Hout1; lia|].
    replace (ph + 32 + 32 * Z.of_nat i) with (ph + 32 * Z.of_nat (S i)) by lia. by apply Hh.
  - cbn beta. intros _ s2 (Hok2 & Hl2 & Hout2). split_and!; [done| |].
    + apply Forall_cons. split; [|done]. intros i Hr. rewrite Hout2 by lia. by apply Hl1.
    + intros x Hx. rewrite Hout2, Hout1 by lia. done.
Qed.

(** ** The kernel file *)

(** The ELF file on the disk from sector 1 on: its headers lie in the first
    page, and describe the segments [segs]. *)
Record elf_image (sect : Z -> list Z) (segs : list seg) (entry : Z) : Prop := {
  ei_entry : load32 (disk_byte sect) 24 = entry;
  ei_phnum : le_val (load_bytes (disk_byte sect) 44 2) = Z.of_nat (length segs);
  ei_fits : 0 <= load32 (disk_byte sect) 28 /\ load32 (disk_byte sect) 28 + 32 * Z.of_nat (length segs) <= 4096;
  ei_headers i g : segs !! i = Some g -> header_at (disk_byte sect) (load32 (disk_byte sect) 28 + 32 * Z.of_nat i) g;
  ei_increasing : increasing 0x11000 segs }.

(** The first page of the file in memory. *)
Lemma load_bytes_shift m f d n : forall o,
  0 <= o -> o + Z.of_nat n <= 4096 -> (forall i, 0 <= i < 4096 -> m (d + i) = f i) ->
  load_bytes m (d + o) n = load_bytes f o n.
Proof using Type.
  clear Hfuel fuel. induction n as [|n IH]; intros o Ho Hn Hm; [done|]. cbn [load_bytes]. rewrite Hm by lia. f_equal.
  rewrite <- Z.add_assoc. apply IH; [lia|lia|done].
Qed.

(** C15: the boot loader loads the kernel.  When the file on the disk has the magic
    number and its segments lie above the scratch page in increasing order,
    every byte of every segment is in memory, the part beyond the file size
    cleared, and the entry point of the file is where the loader jumps to;
    without the magic number it returns. *)
Theorem bootmain_correct sect segs entry s :
  bt_ok sect s -> sect_ok sect ->
  (load32 (disk_byte sect) 0 = BOOT_MAGIC -> elf_image sect segs entry) ->
  wp (bootmain fuel) (fun r s' =>
    if load32 (disk_byte sect) 0 =? BOOT_MAGIC
    then r = Some (V2P entry) /\ Forall (loaded sect (bt_mem s')) segs
    else r = None) s.
Proof using Hfuel HPoll.
  intros Hok Hs Helf. unfold bootmain.
  eapply wp_seq; [apply (readseg_spec sect 0x10000 4096 0 s Hok Hs); [lia|done|lia|lia]|].
  cbn beta. intros _ s1 (Hok1 & Hin & _). unfold field32, field16. wp_step. wp_step.
  assert (H32 : forall m o, (forall i, 0 <= i < 4096 -> m (0x10000 + i) = disk_byte sect i) -> 0 <= o -> o + 4 <= 4096 ->
    load32 m (0x10000 + o) = load32 (disk_byte sect) o) by (intros m o Hm Ho1 Ho2; unfold load32; by rewrite (load_bytes_shift _ (disk_byte sect))).
  pose proof (H32 _ 0 Hin ltac:(lia) ltac:(lia)) as E0. change (0x10000 + 0) with 0x10000 in E0. rewrite E0.
  destruct (Z.eqb_spec (load32 (disk_byte sect) 0) BOOT_MAGIC) as [Em|Em]; cbn [negb]; [|by wp_step].
  destruct (Helf Em) as [He Hn [Hp1 Hp2] Hh Hi]. repeat wp_step.
  rewrite (H32 _ 28 Hin) by lia. rewrite (load_bytes_shift _ (disk_byte sect) 0x10000) by (done || lia).
  rewrite Hn, !u32_small by lia. set (ph := load32 (disk_byte sect) 28) in *.
  eapply wp_mono; [apply (load_segments_spec sect 0x11000 segs _ 0x11000 (0x10000 + ph) s1); try done; try lia|].
  - intros i g Hg. pose proof (lookup_lt_Some _ _ _ Hg). destruct (Hh i g Hg) as (A1 & A2 & A3 & A4). unfold header_at.
    rewrite <- !Z.add_assoc, !(H32 _ _ Hin) by lia. rewrite !Z.add_assoc. by split_and!.
  - cbn beta. intros _ s2 (_ & Hl & Hout). repeat wp_step. split; [|done]. do 2 f_equal. rewrite <- He. apply H32; [|lia|lia].
    intros i Hr. rewrite Hout by lia. by apply Hin.
Qed.
End boot.
