(* ===== verification/Mp.v ===== *)
(** * The processors of the machine

    [kernel/mp.c]: the search for the multiprocessor tables in memory, and the
    walk through the configuration table that counts the processors.  An entry
    of an unknown type does not end the walk: the [break] leaves the switch
    only, and the loop goes on at the same entry. *)

From S2P Require Import Prelude CString Kalloc.

Definition NCPU : nat := 8.
Definition MPPROC : Z := 0x00.
Definition MPBUS : Z := 0x01.
Definition MPIOAPIC : Z := 0x02.
Definition MPIOINTR : Z := 0x03.
Definition MPLINTR : Z := 0x04.

(** [sizeof] of [struct mp], [mpconf], [mpproc] and [mpioapic]. *)
Definition MP_SIZE : Z := 16.
Definition MPCONF_SIZE : Z := 44.
Definition MPPROC_SIZE : Z := 20.
Definition MPIOAPIC_SIZE : Z := 8.

Record mpst := MpSt {
  mp_mem : memory;
  mp_apicid : list Z;             (* cpus[..].apicid *)
  mp_ncpu : nat;
  mp_ioapicid : Z;
  mp_lapic : Z;
  mp_out : list (Z * Z) }.        (* writes to ports *)

Definition mp_sum (m : memory) (addr : Z) (len : nat) : Z := u8 (foldl Z.add 0 (load_bytes m addr len)).

Definition is_mp (m : memory) (p : Z) : bool :=
  (memcmp (load_bytes m p 4) [95; 77; 80; 95] 4 =? 0) && (mp_sum m p (Z.to_nat MP_SIZE) =? 0).

(** The loop of [mpsearch1]; the result 0 is the null pointer. *)
Fixpoint mpsearch_loop (n : nat) (m : memory) (p e : Z) : Z :=
  match n with
  | O => 0
  | S n => if p <? e then if is_mp m p then p else mpsearch_loop n m (p + MP_SIZE) e else 0
  end.
Definition mpsearch1 (m : memory) (a len : Z) : Z :=
  let addr := P2V a in
  mpsearch_loop (Z.to_nat (len / MP_SIZE + 1)) m addr (addr + len).

Definition mpsearch (m : memory) : Z :=
  let bda := P2V 0x400 in
  let p := Z.shiftl (Z.lor (Z.shiftl (m (bda + 0x0F)) 8) (m (bda + 0x0E))) 4 in
  let mp :=
    if truth p then mpsearch1 m p 1024
    else
      let p := Z.lor (Z.shiftl (m (bda + 0x14)) 8) (m (bda + 0x13)) * 1024 in
      mpsearch1 m (u32 (p - 1024)) 1024 in
  if truth mp then mp else mpsearch1 m 0xF0000 0x10000.

(** The structure and the configuration table. *)
Definition mpconfig (m : memory) : option (Z * Z) :=
  let mp := mpsearch m in
  if mp =? 0 then None else
  if load32 m (mp + 4) =? 0 then None else
  let conf := P2V (load32 m (mp + 4)) in
  if negb (memcmp (load_bytes m conf 4) [80; 67; 77; 80] 4 =? 0) then None else
  if negb (m (conf + 6) =? 1) && negb (m (conf + 6) =? 4) then None else
  if negb (mp_sum m conf (Z.to_nat (le_val (load_bytes m (conf + 4) 2))) =? 0) then None else
  Some (mp, conf).

Definition add_cpu (apicid : Z) (s : mpst) : mpst :=
  if (mp_ncpu s <? NCPU)%nat
  then MpSt (mp_mem s) (<[mp_ncpu s := apicid]> (mp_apicid s)) (S (mp_ncpu s)) (mp_ioapicid s) (mp_lapic s) (mp_out s)
  else s.
Definition set_ioapic (id : Z) (s : mpst) : mpst :=
  MpSt (mp_mem s) (mp_apicid s) (mp_ncpu s) id (mp_lapic s) (mp_out s).

(** The loop of [mpinit] from [p] on; [ismp] is returned. *)
Fixpoint mp_entries (fuel : nat) (ismp : bool) (p e : Z) : M mpst bool :=
  if p <? e then
    match fuel with
    | O => fault "fuel"
    | S fuel =>
        let* s := get in
        let t := mp_mem s p in
        if t =? MPPROC then
          do* modify (add_cpu (mp_mem s (p + 1))) in
          mp_entries fuel ismp (p + MPPROC_SIZE) e
        else if t =? MPIOAPIC then
          do* modify (set_ioapic (mp_mem s (p + 1))) in
          mp_entries fuel ismp (p + MPIOAPIC_SIZE) e
        else if (t =? MPBUS) || (t =? MPIOINTR) || (t =? MPLINTR) then
          mp_entries fuel ismp (p + 8) e
        else mp_entries fuel false p e
    end
  else ret ismp.

(** [imcr] is what [inb(0x23)] returns. *)
Definition mpinit (fuel : nat) (imcr : Z) : M mpst unit :=
  let* s := get in
  match mpconfig (mp_mem s) with
  | None => panic "Expect to run on an SMP"
  | Some (mp, conf) =>
      do* modify (fun s => MpSt (mp_mem s) (mp_apicid s) (mp_ncpu s) (mp_ioapicid s) (load32 (mp_mem s) (conf + 36)) (mp_out s)) in
      let* ismp := mp_entries fuel true (conf + MPCONF_SIZE) (conf + le_val (load_bytes (mp_mem s) (conf + 4) 2)) in
      if negb ismp then panic "Didn't find a suitable machine" else
      when truth (mp_mem s (mp + 12)) then
        modify (fun s => MpSt (mp_mem s) (mp_apicid s) (mp_ncpu s) (mp_ioapicid s) (mp_lapic s)
          (mp_out s ++ [(0x22, 0x70); (0x23, Z.lor imcr 1)]))
  end.

(** ** The search *)

Lemma mpsearch_loop_spec n m p e :
  e - p <= MP_SIZE * Z.of_nat n ->
  (exists k, 0 <= k /\ mpsearch_loop n m p e = p + MP_SIZE * k /\ p + MP_SIZE * k < e /\ is_mp m (p + MP_SIZE * k) = true /\
     forall j, 0 <= j < k -> is_mp m (p + MP_SIZE * j) = false) \/
  (mpsearch_loop n m p e = 0 /\ forall j, 0 <= j -> p + MP_SIZE * j < e -> is_mp m (p + MP_SIZE * j) = false).
Proof.
  unfold MP_SIZE. revert p. induction n as [|n IH]; intros p Hn; cbn [mpsearch_loop].
  { right. split; [done|]. intros j Hj Hlt. lia. }
  destruct (Z.ltb_spec p e) as [Hlt|Hge]; [|right; split; [done|]; intros j Hj Hlt; lia].
  destruct (is_mp m p) eqn:Ep.
  { left. exists 0. rewrite Z.add_0_r. split_and!; try done. lia. }
  assert (Hnext : forall j, 0 < j -> p + 16 * j = p + MP_SIZE + 16 * (j - 1)) by (unfold MP_SIZE; lia).
  destruct (IH (p + MP_SIZE)) as [(k & Hk & E & Hlt' & Hmp & Hno)|[E Hno]]; [unfold MP_SIZE; lia| |].
  - left. exists (k + 1). rewrite Hnext, Z.add_simpl_r by lia. split_and!; [lia|done|done|done|].
    intros j Hj. destruct (decide (j = 0)) as [->|]; [by rewrite Z.add_0_r|]. rewrite Hnext by lia. apply Hno. lia.
  - right. split; [done|]. intros j Hj Hlt'. destruct (decide (j = 0)) as [->|]; [by rewrite Z.add_0_r|].
    rewrite Hnext in * by lia. apply Hno; lia.
Qed.

(** What [mpconfig] accepts: a structure with its signature and checksum, and
    the table it points to, with signature, a known version and checksum. *)
Lemma mpconfig_valid m mp conf :
  mpconfig m = Some (mp, conf) ->
  is_mp m mp = true /\ conf = P2V (load32 m (mp + 4)) /\ memcmp (load_bytes m conf 4) [80; 67; 77; 80] 4 = 0 /\
  (m (conf + 6) = 1 \/ m (conf + 6) = 4) /\ mp_sum m conf (Z.to_nat (le_val (load_bytes m (conf + 4) 2))) = 0.
Proof.
  assert (H1 : forall a len, mpsearch1 m a len <> 0 -> is_mp m (mpsearch1 m a len) = true).
  { intros a len. unfold mpsearch1. edestruct mpsearch_loop_spec as [(k & _ & E & _ & Hmp & _)|[E _]]; [|rewrite E; done|by rewrite E].
    unfold MP_SIZE. Z.to_euclidean_division_equations; lia. }
  assert (H2 : mpsearch m <> 0 -> is_mp m (mpsearch m) = true).
  { unfold mpsearch. destruct (truth (Z.shiftl _ 4)); (destruct (truth (mpsearch1 _ _ _)) eqn:E; [apply truth_true in E|]); by auto. }
  unfold mpconfig. destruct (Z.eqb_spec (mpsearch m) 0); [done|]. destruct (Z.eqb_spec (load32 m (mpsearch m + 4)) 0); [done|].
  set (c := P2V _). destruct (Z.eqb_spec (memcmp (load_bytes m c 4) [80; 67; 77; 80] 4) 0); [|done]. cbn [negb].
  destruct (Z.eqb_spec (m (c + 6)) 1), (Z.eqb_spec (m (c + 6)) 4); cbn [negb andb]; try done;
    (destruct (Z.eqb_spec (mp_sum m c (Z.to_nat (le_val (load_bytes m (c + 4) 2)))) 0); [|done]); intros [= <- <-]; split_and!; auto.
Qed.

(** ** The table *)

(** The entries of the table, as lengths and meaning. *)
Inductive mpentry := Cpu (apicid : Z) | IoApic (apicno : Z) | Skip (t : Z).
Definition entry_size (x : mpentry) : Z := match x with Cpu _ => 20 | _ => 8 end.
Definition entry_at (m : memory) (p : Z) (x : mpentry) : Prop :=
  match x with
  | Cpu id => m p = MPPROC /\ m (p + 1) = id
  | IoApic id => m p = MPIOAPIC /\ m (p + 1) = id
  | Skip t => m p = t /\ (t = MPBUS \/ t = MPIOINTR \/ t = MPLINTR)
  end.
Fixpoint table_at (m : memory) (p : Z) (l : list mpentry) (e : Z) : Prop :=
  match l with
  | [] => p = e
  | x :: l => entry_at m p x /\ table_at m (p + entry_size x) l e
  end.

Definition cpus_of (l : list mpentry) : list Z := omap (fun x => match x with Cpu id => Some id | _ => None end) l.
Definition ioapic_of (l : list mpentry) (id : Z) : Z :=
  foldl (fun id x => match x with IoApic id => id | _ => id end) id l.

(** The processors found: the first [NCPU] of the table. *)
Definition found (ids : list Z) (s : mpst) : Prop :=
  length (mp_apicid s) = NCPU /\ mp_ncpu s = Nat.min NCPU (length ids) /\ take (mp_ncpu s) (mp_apicid s) = take NCPU ids.

Lemma found_add ids id s : found ids s -> found (ids ++ [id]) (add_cpu id s).
Proof.
  intros (Hl & Hn & Ht). unfold add_cpu, found. rewrite length_app. cbn [length].
  destruct (Nat.ltb_spec (mp_ncpu s) NCPU) as [Hlt|Hge]; cbn [mp_apicid mp_ncpu].
  - rewrite length_insert. split_and!; [done|lia|].
    assert (E : mp_ncpu s = length ids) by lia. rewrite (take_S_r _ _ id) by (apply list_lookup_insert_eq; lia).
    rewrite take_insert_ge, Ht by lia. rewrite !take_ge; [done|rewrite length_app; cbn; lia|lia].
  - split_and!; [done|lia|]. rewrite Ht, take_app_le by lia. done.
Qed.

Lemma mp_entries_spec l : forall fuel p e s ids,
  table_at (mp_mem s) p l e -> found ids s -> (length l <= fuel)%nat ->
  wp (mp_entries fuel true p e) (fun r s' => r = true /\ found (ids ++ cpus_of l) s' /\
    mp_ioapicid s' = ioapic_of l (mp_ioapicid s) /\ mp_lapic s' = mp_lapic s /\ mp_mem s' = mp_mem s /\ mp_out s' = mp_out s) s.
Proof.
  induction l as [|x l IH]; intros fuel p e s ids Ht Hf Hfuel.
  { cbn in Ht. subst e. destruct fuel; cbn [mp_entries]; rewrite Z.ltb_irrefl; wp_step; rewrite app_nil_r; by split_and!. }
  destruct Ht as [Hx Ht]. destruct fuel as [|fuel]; [cbn in Hfuel; lia|]. cbn [length] in Hfuel.
  assert (Hlt : p < e).
  { clear -Ht. revert Ht. generalize (mp_mem s). intros m. assert (H : forall l q, table_at m q l e -> q <= e).
    { clear. induction l as [|y l IH]; intros q; cbn; [lia|]. intros [_ H%IH]. destruct y; cbn in H; lia. }
    intros Ht%H. destruct x; cbn in Ht; lia. }
  cbn [mp_entries]. rewrite (proj2 (Z.ltb_lt p e)) by done. repeat wp_step.
  destruct x as [id|id|t]; cbn [entry_at entry_size cpus_of] in *.
  - destruct Hx as [-> ->]. cbn -[add_cpu mp_entries]. repeat wp_step. eapply wp_mono; [apply (IH fuel _ e _ (ids ++ [id]))|].
    + unfold add_cpu. by destruct (_ <? _)%nat.
    + by apply found_add.
    + lia.
    + cbn beta. intros r s' (-> & Hf' & Hi & Hla & Hm & Ho). rewrite <- app_assoc in Hf'.
      unfold add_cpu in *. destruct (_ <? _)%nat; by split_and!.
  - destruct Hx as [-> ->]. cbn. repeat wp_step. eapply wp_mono; [apply (IH fuel _ e _ ids); [done|done|lia]|].
    cbn beta. intros r s' (-> & Hf' & Hi & Hla & Hm & Ho). by split_and!.
  - destruct Hx as [-> Hx]. eapply wp_mono; [|intros r s' H; exact H].
    destruct Hx as [->|[-> | ->]]; cbn; apply (IH fuel _ e _ ids); try done; lia.
Qed.

(** [mpinit] finds the machine.  When the search finds a configuration table
    whose entries are all of a known type, it returns, and has recorded the
    first [NCPU] processors of the table, the last I/O APIC and the address
    of the local APIC; the memory is not changed. *)
Theorem mpinit_correct fuel imcr s mp conf l :
  mpconfig (mp_mem s) = Some (mp, conf) ->
  table_at (mp_mem s) (conf + MPCONF_SIZE) l (conf + le_val (load_bytes (mp_mem s) (conf + 4) 2)) ->
  length (mp_apicid s) = NCPU -> mp_ncpu s = 0%nat -> (length l <= fuel)%nat ->
  wp (mpinit fuel imcr) (fun _ s' => found (cpus_of l) s' /\ mp_ioapicid s' = ioapic_of l (mp_ioapicid s) /\
    mp_lapic s' = load32 (mp_mem s) (conf + 36) /\ mp_mem s' = mp_mem s) s.
Proof.
  intros Ec Ht Hl Hn Hfuel. unfold mpinit. repeat wp_step. rewrite Ec. repeat wp_step.
  eapply wp_mono; [apply (mp_entries_spec l fuel _ _ _ []); [exact Ht|unfold found; cbn; by rewrite Hn|done]|].
  cbn beta. intros r s' (-> & Hf & Hi & Hla & Hm & Ho). cbn [negb]. destruct (truth _); wp_step; by split_and!.
Qed.

(** An entry of an unknown type hangs the machine: the loop stays at it,
    however long it runs, and the panic behind the loop is not reached. *)
Theorem mpinit_unknown_hangs fuel imcr s mp conf t :
  mpconfig (mp_mem s) = Some (mp, conf) -> mp_mem s (conf + MPCONF_SIZE) = t -> MPLINTR < t ->
  MPCONF_SIZE < le_val (load_bytes (mp_mem s) (conf + 4) 2) ->
  mpinit fuel imcr s = Fault "fuel".
Proof.
  intros Ec Et Ht Hlen.
  set (s' := MpSt (mp_mem s) (mp_apicid s) (mp_ncpu s) (mp_ioapicid s) (load32 (mp_mem s) (conf + 36)) (mp_out s)).
  assert (H : forall f b, mp_entries f b (conf + MPCONF_SIZE) (conf + le_val (load_bytes (mp_mem s) (conf + 4) 2)) s' = Fault "fuel").
  { unfold MPLINTR in Ht. induction f as [|f IH]; intros b; cbn [mp_entries]; rewrite (proj2 (Z.ltb_lt _ _)) by lia; [done|].
    unfold bind at 1, get. cbn [mp_mem s']. rewrite Et.
    unfold MPPROC, MPIOAPIC, MPBUS, MPIOINTR, MPLINTR.
    rewrite !(proj2 (Z.eqb_neq t _)) by lia. cbn [orb]. by rewrite IH. }
  unfold mpinit. unfold bind at 1, get. cbv beta iota. rewrite Ec. unfold bind at 1, modify at 1. cbv beta iota.
  unfold bind at 1. fold s'. by rewrite H.
Qed.
