(* ===== verification/Apic.v ===== *)
(** * The interrupt controllers and the clock

    [kernel/lapic.c], [kernel/ioapic.c], [kernel/picirq.c] and the set-up of the
    serial port in [kernel/uart.c]. *)

From S2P Require Import Prelude CString Kalloc Console Syscall.

(** ** The interrupt controllers

    [kernel/lapic.c] without the clock, [kernel/ioapic.c] and
    [kernel/picirq.c]: what is written to the registers of the controllers.
    The controllers are parameters with their documented behaviour: the local
    controller keeps what is written to a register and delivers a command
    sooner or later; the I/O controller has one window onto its registers.

    The variables [lapic] (0: the null pointer) and [ioapicid], which [mpinit]
    sets, are arguments. *)

(** ** The local controller *)

Definition APIC_ID : Z := 0x0020 / 4.
Definition VER : Z := 0x0030 / 4.
Definition TPR : Z := 0x0080 / 4.
Definition EOI : Z := 0x00B0 / 4.
Definition SVR : Z := 0x00F0 / 4.
Definition ENABLE : Z := 0x00000100.
Definition ESR : Z := 0x0280 / 4.
Definition ICRLO : Z := 0x0300 / 4.
Definition INIT : Z := 0x00000500.
Definition STARTUP : Z := 0x00000600.
Definition DELIVS : Z := 0x00001000.
Definition ASSERT : Z := 0x00004000.
Definition LEVEL : Z := 0x00008000.
Definition BCAST : Z := 0x00080000.
Definition ICRHI : Z := 0x0310 / 4.
Definition TIMER : Z := 0x0320 / 4.
Definition X1 : Z := 0x0000000B.
Definition PERIODIC : Z := 0x00020000.
Definition PCINT : Z := 0x0340 / 4.
Definition LINT0 : Z := 0x0350 / 4.
Definition LINT1 : Z := 0x0360 / 4.
Definition LERROR : Z := 0x0370 / 4.
Definition MASKED : Z := 0x00010000.
Definition TICR : Z := 0x0380 / 4.
Definition TDCR : Z := 0x03E0 / 4.
Definition IRQ_ERROR : Z := 19.

(** Reads and writes of registers, writes to ports and of two bytes of
    memory. *)
Class LocalApic (W : Type) := {
  la_read : Z -> M W Z;
  la_write : Z -> Z -> M W unit;
  la_outb : Z -> Z -> M W unit;
  la_store16 : Z -> Z -> M W unit }.

Section lapic.
Context {W : Type} `{LocalApic W} (lapic : Z).

Definition lapicw (index value : Z) : M W unit :=
  do* la_write index (u32 value) in
  do* la_read APIC_ID in
  ret tt.

(** [while(lapic[ICRLO] & DELIVS)] *)
Fixpoint wait_delivered (fuel : nat) : M W unit :=
  match fuel with
  | O => fault "fuel"
  | S fuel =>
      let* v := la_read ICRLO in
      if truth (Z.land v DELIVS) then wait_delivered fuel else ret tt
  end.

Definition lapicinit (fuel : nat) : M W unit :=
  if lapic =? 0 then ret tt else
  do* lapicw SVR (Z.lor ENABLE (T_IRQ0 + IRQ_SPURIOUS)) in
  do* lapicw TDCR X1 in
  do* lapicw TIMER (Z.lor PERIODIC (T_IRQ0 + IRQ_TIMER)) in
  do* lapicw TICR 10000000 in
  do* lapicw LINT0 MASKED in
  do* lapicw LINT1 MASKED in
  let* ver := la_read VER in
  do* when 4 <=? Z.land (Z.shiftr ver 16) 0xFF then lapicw PCINT MASKED in
  do* lapicw LERROR (T_IRQ0 + IRQ_ERROR) in
  do* lapicw ESR 0 in
  do* lapicw ESR 0 in
  do* lapicw EOI 0 in
  do* lapicw ICRHI 0 in
  do* lapicw ICRLO (Z.lor (Z.lor BCAST INIT) LEVEL) in
  do* wait_delivered fuel in
  lapicw TPR 0.

Definition lapicid : M W Z :=
  if lapic =? 0 then ret 0 else
  let* v := la_read APIC_ID in
  ret (Z.shiftr v 24).

Definition lapiceoi : M W unit := when negb (lapic =? 0) then lapicw EOI 0.

(** One round of the loop at the end of [lapicstartap]. *)
Definition startup_ipi (apicid addr : Z) : M W unit :=
  do* lapicw ICRHI (s32 (Z.shiftl apicid 24)) in
  lapicw ICRLO (Z.lor STARTUP (Z.shiftr addr 12)).

Definition lapicstartap (apicid addr : Z) : M W unit :=
  do* la_outb 0x70 0xF in
  do* la_outb 0x71 0x0A in
  let wrv := P2V (Z.lor (Z.shiftl 0x40 4) 0x67) in
  do* la_store16 wrv 0 in
  do* la_store16 (wrv + 2) (u16 (Z.shiftr addr 4)) in
  do* lapicw ICRHI (s32 (Z.shiftl apicid 24)) in
  do* lapicw ICRLO (Z.lor (Z.lor INIT LEVEL) ASSERT) in
  do* lapicw ICRLO (Z.lor INIT LEVEL) in
  do* startup_ipi apicid addr in
  startup_ipi apicid addr.
End lapic.

(** The registers as they were last written, and how many more reads of
    [ICRLO] may find a command not delivered, at most [la_slow] after a
    write. *)
Class LocalApicSpec (W : Type) `{LocalApic W} := {
  la_rep : W -> (Z -> Z) -> nat -> Prop;
  la_slow : nat;
  la_write_spec : forall w f busy r x,
    la_rep w f busy ->
    wp (la_write r x) (fun _ w' => exists busy', (busy' <= la_slow)%nat /\
      la_rep w' (fun i => if i =? r then x else f i) (if r =? ICRLO then busy' else busy)) w;
  la_read_spec : forall w f busy r,
    la_rep w f busy -> r <> ICRLO ->
    wp (la_read r) (fun _ w' => la_rep w' f busy) w;
  la_read_icr : forall w f busy,
    la_rep w f busy ->
    wp (la_read ICRLO) (fun x w' => la_rep w' f (pred busy) /\ (busy = 0%nat -> Z.land x DELIVS = 0)) w }.

Section lapic_spec.
Context {W : Type} `{LocalApicSpec W}.

Lemma lapicw_spec w f busy r x :
  la_rep w f busy -> wp (lapicw r x) (fun _ w' => exists busy', (busy' <= la_slow)%nat /\
    la_rep w' (fun i => if i =? r then u32 x else f i) (if r =? ICRLO then busy' else busy)) w.
Proof.
  intros Hw. unfold lapicw. eapply wp_seq; [by apply la_write_spec|]. cbn beta. intros _ w1 (b & Hb & Hw1).
  eapply wp_seq; [by apply (la_read_spec _ _ _ _ Hw1)|]. cbn beta. intros _ w2 Hw2. apply wp_ret. by exists b.
Qed.

Lemma wait_delivered_spec fuel : forall w f busy,
  la_rep w f busy -> (busy < fuel)%nat -> wp (wait_delivered fuel) (fun _ w' => exists busy', la_rep w' f busy') w.
Proof.
  induction fuel as [|fuel IH]; intros w f busy Hw Hf; [lia|]. cbn [wait_delivered].
  eapply wp_seq; [by apply la_read_icr|]. cbn beta. intros x w1 [Hw1 Hx].
  destruct (truth (Z.land x DELIVS)) eqn:E; [|apply wp_ret; by eexists]. destruct busy as [|busy]; [by rewrite Hx in E|].
  apply (IH _ _ _ Hw1). cbn. lia.
Qed.

(** A register that is not the command register. *)
Lemma lapicw_plain w f busy r x (Q : unit -> W -> Prop) :
  la_rep w f busy -> r <> ICRLO -> (forall w', la_rep w' (fun i => if i =? r then u32 x else f i) busy -> Q tt w') -> wp (lapicw r x) Q w.
Proof.
  intros Hw Hr HQ. eapply wp_mono; [by apply lapicw_spec|]. cbn beta. intros [] w' (b & _ & Hw'). apply HQ.
  by rewrite (proj2 (Z.eqb_neq r ICRLO)) in Hw'.
Qed.
Lemma lapicw_when (b : bool) w f busy r x (Q : unit -> W -> Prop) :
  la_rep w f busy -> r <> ICRLO -> (forall w' g, la_rep w' g busy -> (forall i, i <> r -> g i = f i) -> Q tt w') ->
  wp (when b then lapicw r x) Q w.
Proof.
  intros Hw Hr HQ. destruct b; [|by eapply HQ]. apply (lapicw_plain w f busy); [done..|]. intros w' Hw'.
  eapply HQ; [exact Hw'|]. intros i Hi. cbn. by rewrite (proj2 (Z.eqb_neq i r)).
Qed.
End lapic_spec.

Ltac lapic_step := apply wp_bind; eapply lapicw_plain; [eassumption|done|]; intros ? ?.

Ltac skip_regs := repeat match goal with |- context [if ?r =? ?x then _ else _] => rewrite (proj2 (Z.eqb_neq r x)) by assumption end.

(** The registers after [lapicinit], and those it may have written besides. *)
Definition lapic_set : list (Z * Z) :=
  [(SVR, Z.lor ENABLE (T_IRQ0 + IRQ_SPURIOUS)); (TDCR, X1); (TIMER, Z.lor PERIODIC (T_IRQ0 + IRQ_TIMER)); (TICR, 10000000);
   (LINT0, MASKED); (LINT1, MASKED); (LERROR, T_IRQ0 + IRQ_ERROR); (ESR, 0); (TPR, 0)].
Definition lapic_other : list Z := [PCINT; EOI; ICRHI; ICRLO].

(** [lapicinit] ends, however long the controller takes for the command it is
    sent, with the timer periodic and on the vector that [trap] takes for the
    clock, the two lines of the old controller masked, errors and spurious
    interrupts on their vectors and no priority masked; no register but these
    has changed. *)
Theorem lapicinit_correct {W} `{LocalApicSpec W} lapic fuel (w : W) f busy :
  lapic <> 0 -> la_rep w f busy -> (la_slow < fuel)%nat ->
  wp (lapicinit lapic fuel) (fun _ w' => exists f' busy', la_rep w' f' busy' /\
    Forall (fun rx => f' rx.1 = rx.2) lapic_set /\
    forall r, r ∉ lapic_set.*1 -> r ∉ lapic_other -> f' r = f r) w.
Proof.
  intros Hl Hw Hf. unfold lapicinit. rewrite (proj2 (Z.eqb_neq lapic 0)) by done. do 6 lapic_step.
  eapply wp_seq; [by eapply la_read_spec|]. cbn beta. intros ver w1 Hw1. apply wp_bind.
  eapply lapicw_when; [exact Hw1|done|]. intros w2 g Hw2 Hg. do 5 lapic_step. apply wp_bind.
  eapply wp_mono; [by eapply lapicw_spec|]. cbn beta. intros [] w3 (b & Hb & Hw3). apply wp_bind.
  eapply wp_mono; [eapply wait_delivered_spec; [exact Hw3|cbn; lia]|]. cbn beta. intros [] w4 (b' & Hw4).
  eapply lapicw_plain; [exact Hw4|done|]. intros w5 Hw5. eexists _, _. split; [exact Hw5|]. split.
  - repeat constructor; cbn; try done; by rewrite Hg.
  - intros r Hs Ho. unfold lapic_set, lapic_other in *. cbn [fmap list_fmap fst] in Hs.
    repeat apply not_elem_of_cons in Hs as [? Hs]. repeat apply not_elem_of_cons in Ho as [? Ho]. cbn beta. skip_regs. rewrite Hg by done. cbn beta. by skip_regs.
Qed.

(** ** The I/O controller *)

Definition REG_ID : Z := 0x00.
Definition REG_VER : Z := 0x01.
Definition REG_TABLE : Z := 0x10.
Definition INT_DISABLED : Z := 0x00010000.

(** The two words of the window, and messages on the console. *)
Class IoCtl (W : Type) := {
  io_reg : Z -> M W unit;
  io_data : M W Z;
  io_set_data : Z -> M W unit;
  io_cprintf : list Z -> M W unit }.

Section ioapic.
Context {W : Type} `{IoCtl W}.

Definition ioapicread (reg : Z) : M W Z :=
  do* io_reg reg in
  io_data.
Definition ioapicwrite (reg data : Z) : M W unit :=
  do* io_reg reg in
  io_set_data (u32 data).

(** The loop of [ioapicinit] over [n] entries from [i] on. *)
Fixpoint disable_entries (n : nat) (i : Z) : M W unit :=
  match n with
  | O => ret tt
  | S n =>
      do* ioapicwrite (REG_TABLE + 2 * i) (Z.lor INT_DISABLED (T_IRQ0 + i)) in
      do* ioapicwrite (REG_TABLE + 2 * i + 1) 0 in
      disable_entries n (i + 1)
  end.

Definition ioapicinit (ioapicid : Z) : M W unit :=
  let* v := ioapicread REG_VER in
  let maxintr := Z.land (Z.shiftr v 16) 0xFF in
  let* v := ioapicread REG_ID in
  let id := Z.shiftr v 24 in
  do* when negb (id =? ioapicid) then io_cprintf (str "ioapicinit: id isn't equal to ioapicid; not a MP" ++ [10]) in
  disable_entries (Z.to_nat (maxintr + 1)) 0.

Definition ioapicenable (irq cpunum : Z) : M W unit :=
  do* ioapicwrite (REG_TABLE + 2 * irq) (T_IRQ0 + irq) in
  ioapicwrite (REG_TABLE + 2 * irq + 1) (Z.shiftl cpunum 24).
End ioapic.

(** The window shows the register whose number was written last. *)
Class IoCtlSpec (W : Type) `{IoCtl W} := {
  io_rep : W -> Z -> (Z -> Z) -> Prop;
  io_reg_spec : forall w sel f r, io_rep w sel f -> wp (io_reg r) (fun _ w' => io_rep w' r f) w;
  io_data_spec : forall w sel f, io_rep w sel f -> wp io_data (fun x w' => x = f sel /\ io_rep w' sel f) w;
  io_set_data_spec : forall w sel f x, io_rep w sel f ->
    wp (io_set_data x) (fun _ w' => io_rep w' sel (fun i => if i =? sel then x else f i)) w;
  io_cprintf_spec : forall w sel f s, io_rep w sel f -> wp (io_cprintf s) (fun _ w' => io_rep w' sel f) w }.

(** The entry of [i]: its vector, if it is enabled, and the processor. *)
Definition io_entry (f : Z -> Z) (i : Z) : option Z * Z :=
  (if Z.testbit (f (REG_TABLE + 2 * i)) 16 then None else Some (Z.land (f (REG_TABLE + 2 * i)) 0xFF),
   Z.shiftr (f (REG_TABLE + 2 * i + 1)) 24).

(** The last request for an interrupt counts. *)
Definition route (g : Z -> option Z * Z) (ic : Z * Z) : Z -> option Z * Z :=
  fun k => if k =? ic.1 then (Some (T_IRQ0 + k), ic.2) else g k.

Lemma foldl_route_at l : forall g h k, g k = h k -> foldl route g l k = foldl route h l k.
Proof. induction l as [|ic l IH]; intros g h k E; cbn; [done|]. apply IH. unfold route. by rewrite E. Qed.

Section ioapic_spec.
Context {W : Type} `{IoCtlSpec W}.

Lemma ioapicwrite_spec w sel f r x (Q : unit -> W -> Prop) :
  io_rep w sel f -> (forall w', io_rep w' r (fun i => if i =? r then u32 x else f i) -> Q tt w') -> wp (ioapicwrite r x) Q w.
Proof.
  intros Hw HQ. unfold ioapicwrite. eapply wp_seq; [by eapply io_reg_spec|]. cbn beta. intros _ w1 Hw1.
  eapply wp_mono; [by eapply io_set_data_spec|]. intros [] w2 Hw2. by apply HQ.
Qed.
Lemma ioapicread_spec w sel f r (Q : Z -> W -> Prop) :
  io_rep w sel f -> (forall w', io_rep w' r f -> Q (f r) w') -> wp (ioapicread r) Q w.
Proof.
  intros Hw HQ. unfold ioapicread. eapply wp_seq; [by eapply io_reg_spec|]. cbn beta. intros _ w1 Hw1.
  eapply wp_mono; [by eapply io_data_spec|]. intros x w2 [-> Hw2]. by apply HQ.
Qed.

(** Two writes change one entry. *)
Definition set_entry (i low high : Z) (f : Z -> Z) : Z -> Z :=
  fun r => if r =? REG_TABLE + 2 * i + 1 then u32 high else if r =? REG_TABLE + 2 * i then u32 low else f r.

Lemma write_entry_spec w sel f i low high (Q : unit -> W -> Prop) :
  io_rep w sel f -> (forall w' sel', io_rep w' sel' (set_entry i low high f) -> Q tt w') ->
  wp (do* ioapicwrite (REG_TABLE + 2 * i) low in ioapicwrite (REG_TABLE + 2 * i + 1) high) Q w.
Proof.
  intros Hw HQ. apply wp_bind. eapply ioapicwrite_spec; [exact Hw|]. intros w1 Hw1.
  eapply ioapicwrite_spec; [exact Hw1|]. intros w2 Hw2. by eapply HQ.
Qed.

Definition disabled (k : Z) : Z := Z.lor INT_DISABLED (T_IRQ0 + k).

Lemma disable_entries_spec n : forall i w sel f,
  io_rep w sel f -> wp (disable_entries n i) (fun _ w' => exists sel' f', io_rep w' sel' f' /\
    (forall k, i <= k < i + Z.of_nat n -> f' (REG_TABLE + 2 * k) = u32 (disabled k) /\ f' (REG_TABLE + 2 * k + 1) = 0) /\
    (forall r, r < REG_TABLE + 2 * i -> f' r = f r)) w.
Proof.
  induction n as [|n IH]; intros i w sel f Hw; cbn [disable_entries].
  { apply wp_ret. exists sel, f. split_and!; [done|lia|done]. }
  apply wp_bind. eapply ioapicwrite_spec; [exact Hw|]. intros w1 Hw1. apply wp_bind.
  eapply ioapicwrite_spec; [exact Hw1|]. intros w2 Hw2.
  eapply wp_mono; [by eapply IH|]. cbn beta. intros [] w3 (sel' & f' & Hw3 & Hin & Hout). exists sel', f'.
  split_and!; [done| |].
  - intros k Hk. destruct (decide (k = i)) as [->|Hne]; [|apply Hin; lia].
    rewrite !Hout by lia. rewrite (proj2 (Z.eqb_neq _ _)), !Z.eqb_refl by lia. done.
  - intros r Hr. rewrite Hout by lia. by rewrite !(proj2 (Z.eqb_neq _ _)) by lia.
Qed.

(** What an entry does after [disable_entries] and [ioapicenable]. *)
Lemma io_entry_disabled f k : 0 <= k < 256 ->
  f (REG_TABLE + 2 * k) = u32 (disabled k) -> f (REG_TABLE + 2 * k + 1) = 0 -> io_entry f k = (None, 0).
Proof.
  intros Hk E1 E2. unfold io_entry. rewrite E1, E2. unfold disabled, INT_DISABLED, T_IRQ0.
  assert (Hall : forallb (fun n => Z.testbit (u32 (Z.lor 0x00010000 (32 + Z.of_nat n))) 16) (seq 0 256) = true) by by vm_compute.
  rewrite forallb_forall in Hall. specialize (Hall (Z.to_nat k)). rewrite in_seq, Z2Nat.id in Hall by lia. by rewrite Hall by lia.
Qed.
Lemma io_entry_set_same f k cpu : 0 <= k < 224 -> 0 <= cpu < 256 ->
  io_entry (set_entry k (T_IRQ0 + k) (Z.shiftl cpu 24) f) k = (Some (T_IRQ0 + k), cpu).
Proof.
  intros Hk Hc. unfold io_entry, set_entry. rewrite (proj2 (Z.eqb_neq (REG_TABLE + 2 * k) _)), !Z.eqb_refl by lia.
  assert (Hall : forallb (fun n => negb (Z.testbit (u32 (32 + Z.of_nat n)) 16) && (Z.land (u32 (32 + Z.of_nat n)) 255 =? 32 + Z.of_nat n))
    (seq 0 224) = true) by by vm_compute.
  rewrite forallb_forall in Hall. specialize (Hall (Z.to_nat k)). rewrite in_seq, Z2Nat.id in Hall by lia.
  specialize (Hall ltac:(lia)). apply andb_true_iff in Hall as [H1 H2]. unfold T_IRQ0.
  destruct (Z.testbit (u32 (32 + k)) 16); [done|]. apply Z.eqb_eq in H2. rewrite H2. f_equal.
  rewrite u32_small by (rewrite Z.shiftl_mul_pow2; lia). rewrite Z.shiftr_shiftl_l by lia. by rewrite Z.shiftl_0_r.
Qed.
Lemma io_entry_set_other f k k' low high : k <> k' -> io_entry (set_entry k' low high f) k = io_entry f k.
Proof. intros Hne. unfold io_entry, set_entry. by rewrite !(proj2 (Z.eqb_neq _ _)) by lia. Qed.

Lemma ioapicenable_spec w sel f irq cpu (Q : unit -> W -> Prop) :
  io_rep w sel f -> (forall w' sel', io_rep w' sel' (set_entry irq (T_IRQ0 + irq) (Z.shiftl cpu 24) f) -> Q tt w') ->
  wp (ioapicenable irq cpu) Q w.
Proof. apply write_entry_spec. Qed.

Lemma ioapicinit_spec w sel f id :
  io_rep w sel f -> wp (ioapicinit id) (fun _ w' => exists sel' f', io_rep w' sel' f' /\
    forall k, 0 <= k <= Z.land (Z.shiftr (f REG_VER) 16) 0xFF -> io_entry f' k = (None, 0)) w.
Proof.
  intros Hw. unfold ioapicinit. apply wp_bind. eapply ioapicread_spec; [exact Hw|]. intros w1 Hw1.
  apply wp_bind. eapply ioapicread_spec; [exact Hw1|]. intros w2 Hw2. apply wp_bind.
  eapply wp_mono with (Q := fun _ w' => io_rep w' REG_ID f).
  { destruct (negb _); [by eapply io_cprintf_spec|done]. }
  intros _ w3 Hw3. eapply wp_mono; [by eapply disable_entries_spec|]. cbn beta. intros [] w4 (sel' & f' & Hw4 & Hin & _).
  exists sel', f'. split; [done|]. intros k Hk. destruct (Hin k) as [E1 E2]; [lia|].
  apply io_entry_disabled; [|done..]. pose proof (Z.land_ones (Z.shiftr (f REG_VER) 16) 8). change (Z.ones 8) with 0xFF in *.
  pose proof (Z.mod_pos_bound (Z.shiftr (f REG_VER) 16) (2 ^ 8)). lia.
Qed.

(** The drivers enable their interrupts one after the other. *)
Fixpoint enable_all (l : list (Z * Z)) : M W unit :=
  match l with
  | [] => ret tt
  | (irq, cpu) :: l => do* ioapicenable irq cpu in enable_all l
  end.

Lemma enable_all_spec l : forall w sel f,
  io_rep w sel f -> Forall (fun ic => 0 <= ic.1 < 224 /\ 0 <= ic.2 < 256) l ->
  wp (enable_all l) (fun _ w' => exists sel' f', io_rep w' sel' f' /\ forall k, io_entry f' k = foldl route (io_entry f) l k) w.
Proof.
  induction l as [|[irq cpu] l IH]; intros w sel f Hw Hl; cbn [enable_all foldl].
  { apply wp_ret. by exists sel, f. }
  apply Forall_cons in Hl as [[Hi Hc] Hl]. apply wp_bind. eapply ioapicenable_spec; [exact Hw|]. intros w1 sel1 Hw1.
  eapply wp_mono; [by eapply IH|]. cbn beta. intros [] w2 (sel2 & f2 & Hw2 & Hk). exists sel2, f2. split; [done|].
  intros k. rewrite Hk. apply foldl_route_at. unfold route. cbn. destruct (Z.eqb_spec k irq) as [->|Hne].
  - by apply io_entry_set_same.
  - by apply io_entry_set_other.
Qed.
End ioapic_spec.

(** C17: after [ioapicinit], an interrupt reaches a processor only if a driver has
    enabled it: then on the vector that [trap] expects and on the processor of
    the last request for it.  All other entries of the controller stay masked. *)
Theorem ioapic_routing {W} `{IoCtlSpec W} ioapicid (l : list (Z * Z)) (w : W) sel f :
  io_rep w sel f -> Forall (fun ic => 0 <= ic.1 < 224 /\ 0 <= ic.2 < 256) l ->
  wp (do* ioapicinit ioapicid in enable_all l) (fun _ w' => exists sel' f', io_rep w' sel' f' /\
    forall k, 0 <= k <= Z.land (Z.shiftr (f REG_VER) 16) 0xFF -> io_entry f' k = foldl route (fun _ => (None, 0)) l k) w.
Proof.
  intros Hw Hl. eapply wp_seq; [by apply (ioapicinit_spec w sel f)|]. cbn beta. intros _ w1 (sel1 & f1 & Hw1 & Hdis).
  eapply wp_mono; [by apply (enable_all_spec l w1 sel1 f1)|]. cbn beta. intros _ w2 (sel2 & f2 & Hw2 & Hk).
  exists sel2, f2. split; [done|]. intros k Hr. rewrite Hk. by apply foldl_route_at, Hdis.
Qed.

(** ** The old controllers *)

Definition IO_PIC1 : Z := 0x20.
Definition IO_PIC2 : Z := 0xA0.

Definition picinit {W} `{LocalApic W} : M W unit :=
  do* la_outb (IO_PIC1 + 1) 0xFF in
  la_outb (IO_PIC2 + 1) 0xFF.

(** ** The serial port *)

(** Ports, and code of the console run on its part of the state. *)
Class Serial (W : Type) := {
  se_inb : Z -> M W Z;
  se_outb : Z -> Z -> M W unit;
  se_console : M console unit -> M W unit }.

Definition COM1 : Z := 0x3f8.

Definition set_uart (s : console) : console :=
  Cons (cn_panicked s) (cn_visible s) (cn_crt s) (cn_pos s) true (cn_serial s) (cn_input s) (cn_shift s).

Definition uartinit {W} `{Serial W} `{IoCtl W} : M W unit :=
  do* se_outb (COM1 + 2) 0 in
  do* se_outb (COM1 + 3) 0x80 in
  do* se_outb (COM1 + 0) (115200 / 9600) in
  do* se_outb (COM1 + 1) 0 in
  do* se_outb (COM1 + 3) 0x03 in
  do* se_outb (COM1 + 4) 0 in
  do* se_outb (COM1 + 1) 0x01 in
  let* status := se_inb (COM1 + 5) in
  if status =? 0xFF then ret tt else
  do* se_console (modify set_uart) in
  do* se_inb (COM1 + 2) in
  do* se_inb (COM1 + 0) in
  do* ioapicenable IRQ_COM1 0 in
  se_console (foldr (fun c k => do* uartputc c in k) (ret tt) (str "xv6..." ++ [10])).

(** ** The clock

    [cmos_read], [fill_rtcdate] and [cmostime] of [kernel/lapic.c].  The clock
    chip runs by itself: [regs n r] is what its register [r] holds at the
    [n]-th access to its ports.  The registers of a date are read one by one,
    and the clock may go on in between, with its registers undefined while it
    does; the theorem is that the date that is returned is the one that the
    clock showed. *)

Definition CMOS_STATA : Z := 0x0a.
Definition CMOS_STATB : Z := 0x0b.
Definition CMOS_UIP : Z := Z.shiftl 1 7.
Definition SECS : Z := 0x00.
Definition MINS : Z := 0x02.
Definition HOURS : Z := 0x04.
Definition DAY : Z := 0x07.
Definition MONTH : Z := 0x08.
Definition YEAR : Z := 0x09.

Record rtcdate := Rtc { second : Z; minute : Z; hour : Z; day : Z; month : Z; year : Z }.
#[export] Instance rtcdate_eq_dec : EqDecision rtcdate.
Proof. solve_decision. Defined.

(** The accesses so far, and the register selected through [CMOS_PORT]. *)
Record cmos := Cmos { c_now : nat; c_sel : Z }.

Section cmos.
Context (regs : nat -> Z -> Z).

Definition cmos_outb (r : Z) : M cmos unit := modify (fun s => Cmos (S (c_now s)) r).
Definition cmos_inb : M cmos Z :=
  let* s := get in
  do* modify (fun s => Cmos (S (c_now s)) (c_sel s)) in
  ret (regs (c_now s) (c_sel s)).

Definition cmos_read (reg : Z) : M cmos Z :=
  do* cmos_outb reg in
  cmos_inb.

Definition fill_rtcdate : M cmos rtcdate :=
  let* s := cmos_read SECS in
  let* mi := cmos_read MINS in
  let* h := cmos_read HOURS in
  let* d := cmos_read DAY in
  let* mo := cmos_read MONTH in
  let* y := cmos_read YEAR in
  ret (Rtc s mi h d mo y).

(** The loop: two equal readings, and no update in progress between them. *)
Fixpoint read_twice (fuel : nat) : M cmos rtcdate :=
  match fuel with
  | O => fault "fuel"
  | S fuel =>
      let* t1 := fill_rtcdate in
      let* a := cmos_read CMOS_STATA in
      if truth (Z.land a CMOS_UIP) then read_twice fuel else
      let* t2 := fill_rtcdate in
      if bool_decide (t1 = t2) then ret t1 else read_twice fuel
  end.

Definition CONV (x : Z) : Z := Z.shiftr x 4 * 10 + Z.land x 0xf.

Definition rtc_map (f : Z -> Z) (t : rtcdate) : rtcdate :=
  Rtc (f (second t)) (f (minute t)) (f (hour t)) (f (day t)) (f (month t)) (f (year t)).

Definition cmostime (fuel : nat) : M cmos rtcdate :=
  let* sb := cmos_read CMOS_STATB in
  let bcd := Z.land sb (Z.shiftl 1 2) =? 0 in
  let* t1 := read_twice fuel in
  let t1 := if bcd then rtc_map CONV t1 else t1 in
  ret (Rtc (second t1) (minute t1) (hour t1) (day t1) (month t1) (year t1 + 2000)).

(** ** What the clock shows *)

Definition shows (n : nat) : rtcdate :=
  Rtc (regs n SECS) (regs n MINS) (regs n HOURS) (regs n DAY) (regs n MONTH) (regs n YEAR).

(** A reading that starts at [n]. *)
Definition reading_at (n : nat) : rtcdate :=
  Rtc (second (shows (n + 1))) (minute (shows (n + 3))) (hour (shows (n + 5)))
      (day (shows (n + 7))) (month (shows (n + 9))) (year (shows (n + 11))).

Lemma cmos_read_at reg n r (Q : Z -> cmos -> Prop) :
  Q (regs (n + 1) reg) (Cmos (n + 2) reg) -> wp (cmos_read reg) Q (Cmos n r).
Proof. rewrite Nat.add_1_r, (Nat.add_comm n 2). by intros. Qed.

Lemma fill_rtcdate_at n r (Q : rtcdate -> cmos -> Prop) :
  Q (reading_at n) (Cmos (n + 12) YEAR) -> wp fill_rtcdate Q (Cmos n r).
Proof.
  intros HQ. unfold fill_rtcdate. do 6 (apply wp_bind, cmos_read_at; rewrite <- ?Nat.add_assoc). by apply wp_ret.
Qed.

Lemma reading_same n t k :
  (forall i, (n <= i < n + 12)%nat -> shows i = t) -> (n <= k < n + 12)%nat -> reading_at n = shows k.
Proof. intros H Hk. unfold reading_at. rewrite !H by lia. by destruct t. Qed.

Definition uip (n : nat) : bool := truth (Z.land (regs n CMOS_STATA) CMOS_UIP).

(** What is documented of the chip.  While it updates its registers, when
    [updating] holds, they read as anything; else they show the date [clock],
    in the form [enc], which changes in updates only.  An update is announced:
    while the bit [CMOS_UIP] is clear, no update begins for 244 microseconds, in
    which the next twelve accesses are made. *)
Record rtc_chip (enc : Z -> Z) (clock : nat -> rtcdate) (updating : nat -> bool) : Prop := {
  rc_shows : forall i, updating i = false -> shows i = rtc_map enc (clock i);
  rc_keeps : forall i, updating i = false -> updating (S i) = false -> clock (S i) = clock i;
  rc_uip : forall i j, uip i = false -> (i <= j <= i + 12)%nat -> updating j = false }.

(** From [N] on no update is near, long enough for a last attempt. *)
Definition rests (N : nat) : Prop := forall i, (N <= i < N + 52)%nat -> uip i = false.

Section chip.
Context (enc : Z -> Z) (clock : nat -> rtcdate) (updating : nat -> bool).
Hypothesis chip : rtc_chip enc clock updating.

Lemma clock_still a b :
  (a <= b)%nat -> (forall i, (a <= i <= b)%nat -> updating i = false) -> clock b = clock a.
Proof using chip.
  intros Hab. induction Hab as [|b Hab IH]; intros Hu; [done|].
  rewrite (rc_keeps _ _ _ chip) by (apply Hu; lia). apply IH. intros i Hi. apply Hu. lia.
Qed.

(** A reading without an update is the date of its last moment. *)
Lemma reading_still n :
  (forall i, (n <= i < n + 12)%nat -> updating i = false) -> reading_at n = rtc_map enc (clock (n + 11)).
Proof using chip.
  intros Hu. rewrite (reading_same n (rtc_map enc (clock (n + 11))) (n + 11)); [|..|lia].
  - apply (rc_shows _ _ _ chip), Hu. lia.
  - intros i Hi. rewrite (rc_shows _ _ _ chip) by (apply Hu; lia). f_equal.
    symmetry. apply clock_still; [lia|]. intros k Hk. apply Hu. lia.
Qed.

Lemma read_twice_spec N fuel n r :
  rests N -> (n < N + 26)%nat -> (N + 26 < fuel + n)%nat ->
  wp (read_twice fuel) (fun t s' => (n + 26 <= c_now s')%nat /\ t = rtc_map enc (clock (c_now s' - 1))) (Cmos n r).
Proof using chip.
  intros Hrest. revert n r. induction fuel as [|fuel IH]; intros n r Hn Hf; [lia|]. cbn [read_twice].
  apply wp_bind, fill_rtcdate_at, wp_bind, cmos_read_at. rewrite <- !Nat.add_assoc. cbn [Nat.add].
  assert (Hagain : forall k r', (14 <= k <= 26)%nat -> (n < N)%nat ->
    wp (read_twice fuel) (fun t s' => (n + 26 <= c_now s')%nat /\ t = rtc_map enc (clock (c_now s' - 1))) (Cmos (n + k) r')).
  { intros k r' Hk HN. eapply wp_mono; [apply IH; lia|]. intros t s' [H1 ->]. split; [lia|done]. }
  fold (uip (n + 13)). destruct (uip (n + 13)) eqn:Eu.
  - apply Hagain; [lia|]. destruct (decide (n < N)%nat) as [|Hge]; [done|]. by rewrite Hrest in Eu by lia.
  - apply wp_bind, fill_rtcdate_at. rewrite <- !Nat.add_assoc. cbn [Nat.add].
    assert (E2 : reading_at (n + 14) = rtc_map enc (clock (n + 25))).
    { rewrite reading_still; [do 2 f_equal; lia|]. intros i Hi. apply (rc_uip _ _ _ chip _ _ Eu). lia. }
    destruct (bool_decide_reflect (reading_at n = reading_at (n + 14))) as [Heq|Hne].
    + apply wp_ret. cbn. split; [lia|]. rewrite Heq, E2. do 2 f_equal. lia.
    + apply Hagain; [lia|]. destruct (decide (n < N)%nat) as [|Hge]; [done|]. destruct Hne.
      assert (Hu : forall i, (n <= i <= n + 25)%nat -> updating i = false).
      { intros i Hi. apply (rc_uip _ _ _ chip i); [apply Hrest|]; lia. }
      rewrite E2, reading_still by (intros i Hi; apply Hu; lia). f_equal.
      symmetry. apply clock_still; [lia|]. intros i Hi. apply Hu. lia.
Qed.
End chip.

(** ** The date *)

(** How the chip stores the numbers. *)
Definition BCD (x : Z) : Z := Z.lor (Z.shiftl (x / 10) 4) (x mod 10).

Definition date_ok (t : rtcdate) : Prop :=
  Forall (fun x => 0 <= x < 100) [second t; minute t; hour t; day t; month t; year t].

Lemma CONV_BCD x : 0 <= x < 100 -> CONV (BCD x) = x.
Proof.
  intros Hx. assert (H : forallb (fun n => CONV (BCD (Z.of_nat n)) =? Z.of_nat n) (seq 0 100) = true) by by vm_compute.
  rewrite forallb_forall in H. specialize (H (Z.to_nat x)). rewrite in_seq in H. specialize (H ltac:(lia)). rewrite Z2Nat.id in H by lia. lia.
Qed.

Lemma CONV_date t : date_ok t -> rtc_map CONV (rtc_map BCD t) = t.
Proof.
  intros Ht. unfold date_ok in Ht. rewrite !Forall_cons in Ht. destruct t. cbn in *. unfold rtc_map. cbn.
  destruct Ht as (? & ? & ? & ? & ? & ? & _). by rewrite !CONV_BCD.
Qed.
End cmos.

(** C18: [cmostime] returns the date that the clock showed when its last register
    was read, stored in binary-coded decimal or not, although the clock goes on
    between the accesses to its ports and its registers are undefined while it
    is being updated.  The loop ends by the time no update comes near during
    52 accesses. *)
Theorem cmostime_correct (regs : nat -> Z -> Z) (clock : nat -> rtcdate) (updating : nat -> bool) (n N fuel : nat) r :
  (forall i, date_ok (clock i)) ->
  rtc_chip regs (if Z.testbit (regs (n + 1)%nat CMOS_STATB) 2 then id else BCD) clock updating ->
  rests regs N -> (n + 2 < N + 26)%nat -> (N + 26 < fuel + n)%nat ->
  wp (cmostime regs fuel) (fun t s' => (n < c_now s')%nat /\
    let now := clock (c_now s' - 1)%nat in
    t = Rtc (second now) (minute now) (hour now) (day now) (month now) (year now + 2000)) (Cmos n r).
Proof.
  intros Hok Hchip Hrest Hn Hf. unfold cmostime. apply wp_bind, cmos_read_at, wp_bind.
  eapply wp_mono; [apply (read_twice_spec regs _ _ _ Hchip N); try done; lia|]. cbn beta. intros t s' [H1 ->]. apply wp_ret.
  split; [lia|]. cbv zeta.
  assert (E : (Z.land (regs (n + 1)%nat CMOS_STATB) (Z.shiftl 1 2) =? 0) = negb (Z.testbit (regs (n + 1)%nat CMOS_STATB) 2)).
  { by apply (land_pow2_testbit _ 2). }
  rewrite E. destruct (Z.testbit _ 2); cbn [negb]; [done|]. by rewrite CONV_date.
Qed.
