(* ===== verification/Segments.v ===== *)
(** * Segments, gates and the task state

    The descriptors of [kernel/mmu.h], [seginit], [kvmalloc], [switchkvm] and
    [switchuvm] of [kernel/vm.c], [tvinit] and [idtinit] of [kernel/trap.c],
    and [mycpu] and [cpuid] of [kernel/proc.c].  The registers that instructions load are part
    of the state of the CPU; what the descriptors mean to the processor is read
    off their fields, as its manual lays them out. *)

From S2P Require Import Prelude Spinlock Kalloc Vm ProcDefs Syscall Proc.

Definition SEG_KCODE : Z := 1.
Definition SEG_KDATA : Z := 2.
Definition SEG_TSS : Z := 5.
Definition NSEGS : nat := 6.
Definition STA_X : Z := 0x8.
Definition STA_W : Z := 0x2.
Definition STA_R : Z := 0x2.
Definition STS_T32A : Z := 0x9.
Definition STS_IG32 : Z := 0xE.
Definition STS_TG32 : Z := 0xF.

(** [a | b | ...] *)
Definition ors (l : list Z) : Z := foldl Z.lor 0 l.

Definition SEG (type base lim dpl : Z) : Z :=
  ors [Z.land (Z.shiftr lim 12) 0xffff;
       Z.shiftl (Z.land base 0xffff) 16;
       Z.shiftl (Z.land (Z.shiftr base 16) 0xff) 32;
       Z.shiftl type 40;
       Z.shiftl 1 44;
       Z.shiftl dpl 45;
       Z.shiftl 1 47;
       Z.shiftl (Z.shiftr lim 28) 48;
       Z.shiftl 1 54;
       Z.shiftl 1 55;
       Z.shiftl (Z.shiftr base 24) 56].

Definition SEG16 (type base lim dpl : Z) : Z :=
  ors [Z.land lim 0xffff;
       Z.shiftl (Z.land base 0xffff) 16;
       Z.shiftl (Z.land (Z.shiftr base 16) 0xff) 32;
       Z.shiftl type 40;
       Z.shiftl 1 44;
       Z.shiftl dpl 45;
       Z.shiftl 1 47;
       Z.shiftl (Z.shiftr lim 16) 48;
       Z.shiftl 1 54;
       Z.shiftl (Z.shiftr base 24) 56].

Definition SEG_CLS (seg : Z) : Z := Z.land seg (Z.lnot (Z.shiftl 1 44)).

Definition SETGATE (istrap : bool) (sel off d : Z) : Z :=
  ors [Z.land off 0xffff;
       Z.shiftl (Z.land sel 0xffff) 16;
       Z.shiftl (if istrap then STS_TG32 else STS_IG32) 40;
       Z.shiftl d 45;
       Z.shiftl 1 47;
       Z.shiftl (Z.shiftr off 16) 48].

(** ** The set-up *)

(** [sizeof(struct taskstate)] *)
Definition TS_SIZE : Z := 104.

(** The table and task state of a CPU, and the registers: where the tables are
    ([limit, base]), the task register, and the page directory. *)
Record mcpu := MCpu {
  mc_cli : cpu;
  mc_gdt : list Z;
  mc_ss0 : Z;
  mc_esp0 : Z;
  mc_iomb : Z;
  mc_gdtr : Z * Z;
  mc_idtr : Z * Z;
  mc_tr : Z;
  mc_cr3 : Z }.

Definition mc_set_cli c s := MCpu c (mc_gdt s) (mc_ss0 s) (mc_esp0 s) (mc_iomb s) (mc_gdtr s) (mc_idtr s) (mc_tr s) (mc_cr3 s).
Definition mc_set_gdt i x s := MCpu (mc_cli s) (<[i := x]> (mc_gdt s)) (mc_ss0 s) (mc_esp0 s) (mc_iomb s) (mc_gdtr s) (mc_idtr s) (mc_tr s) (mc_cr3 s).
Definition mc_set_ts ss0 esp0 iomb s := MCpu (mc_cli s) (mc_gdt s) ss0 esp0 iomb (mc_gdtr s) (mc_idtr s) (mc_tr s) (mc_cr3 s).

(** What [lgdt] and [lidt] make of a pointer and a size: three [ushort]s. *)
Definition table_reg (p size : Z) : Z * Z := (u16 (size - 1), Z.lor (u16 p) (Z.shiftl (u16 (Z.shiftr p 16)) 16)).

Definition lgdt (p size : Z) : M mcpu unit :=
  modify (fun s => MCpu (mc_cli s) (mc_gdt s) (mc_ss0 s) (mc_esp0 s) (mc_iomb s) (table_reg p size) (mc_idtr s) (mc_tr s) (mc_cr3 s)).
Definition lidt (p size : Z) : M mcpu unit :=
  modify (fun s => MCpu (mc_cli s) (mc_gdt s) (mc_ss0 s) (mc_esp0 s) (mc_iomb s) (mc_gdtr s) (table_reg p size) (mc_tr s) (mc_cr3 s)).
Definition ltr (sel : Z) : M mcpu unit :=
  modify (fun s => MCpu (mc_cli s) (mc_gdt s) (mc_ss0 s) (mc_esp0 s) (mc_iomb s) (mc_gdtr s) (mc_idtr s) sel (mc_cr3 s)).
Definition lcr3 (val : Z) : M mcpu unit :=
  modify (fun s => MCpu (mc_cli s) (mc_gdt s) (mc_ss0 s) (mc_esp0 s) (mc_iomb s) (mc_gdtr s) (mc_idtr s) (mc_tr s) val).

(** [gdt] is the address of the table of the CPU. *)
Definition seginit (gdt : Z) : M mcpu unit :=
  do* modify (mc_set_gdt (Z.to_nat SEG_KCODE) (SEG (Z.lor STA_X STA_R) 0 0xffffffff 0)) in
  do* modify (mc_set_gdt (Z.to_nat SEG_KDATA) (SEG STA_W 0 0xffffffff 0)) in
  do* modify (mc_set_gdt (Z.to_nat SEG_UCODE) (SEG (Z.lor STA_X STA_R) 0 0xffffffff DPL_USER)) in
  do* modify (mc_set_gdt (Z.to_nat SEG_UDATA) (SEG STA_W 0 0xffffffff DPL_USER)) in
  lgdt gdt (8 * Z.of_nat NSEGS).

Definition switchkvm (kpgdir : Z) : M mcpu unit := lcr3 (V2P kpgdir).

(** The result is the new value of [kpgdir]. *)
Definition kvmalloc (kend kdata : Z) : M (kmem * mcpu) Z :=
  let* kpgdir := zoom fst (fun m s => (m, snd s)) (setupkvm kend kdata) in
  do* zoom snd (fun c s => (fst s, c)) (switchkvm kpgdir) in
  ret kpgdir.

(** [ts] is the address of the task state of the CPU; a null process is
    [None]. *)
Definition switchuvm (ts : Z) (p : option proc) : M mcpu unit :=
  match p with
  | None => panic "switchuvm: no process"
  | Some p =>
      if p_kstack p =? 0 then panic "switchuvm: no kstack" else
      if p_pgdir p =? 0 then panic "switchuvm: no pgdir" else
      do* zoom mc_cli mc_set_cli pushcli in
      do* modify (mc_set_gdt (Z.to_nat SEG_TSS) (SEG16 STS_T32A ts (TS_SIZE - 1) 0)) in
      do* modify (fun s => mc_set_gdt (Z.to_nat SEG_TSS) (SEG_CLS (default 0 (mc_gdt s !! Z.to_nat SEG_TSS))) s) in
      do* modify (fun s => mc_set_ts (Z.shiftl SEG_KDATA 3) (mc_esp0 s) (mc_iomb s) s) in
      do* modify (fun s => mc_set_ts (mc_ss0 s) (u32 (p_kstack p + KSTACKSIZE)) (mc_iomb s) s) in
      do* modify (fun s => mc_set_ts (mc_ss0 s) (mc_esp0 s) 0xFFFF s) in
      do* ltr (Z.shiftl SEG_TSS 3) in
      do* lcr3 (V2P (p_pgdir p)) in
      zoom mc_cli mc_set_cli popcli
  end.

(** The table that [tvinit] fills, from the entry points of [vectors.S], which
    the build generates. *)
Definition tvinit (vectors : nat -> Z) : list Z :=
  let idt := (fun i => SETGATE false (Z.shiftl SEG_KCODE 3) (vectors i) 0) <$> seq 0 256 in
  <[Z.to_nat T_SYSCALL := SETGATE true (Z.shiftl SEG_KCODE 3) (vectors (Z.to_nat T_SYSCALL)) DPL_USER]> idt.

Definition idtinit (idt : Z) : M mcpu unit := lidt idt (8 * 256).

(** The index of the CPU with the number [apicid] of the local controller;
    [apicids] are those of the first [ncpu] entries of [cpus]. *)
Fixpoint find_cpu (apicids : list Z) (i : nat) (apicid : Z) : option nat :=
  match apicids with
  | [] => None
  | a :: apicids => if a =? apicid then Some i else find_cpu apicids (S i) apicid
  end.
Definition mycpu (apicids : list Z) (apicid : Z) : M cpu nat :=
  let* c := get in
  if c_if c then panic "mycpu called with interrupts enabled" else
  match find_cpu apicids 0 apicid with
  | Some i => ret i
  | None => panic "unknown apicid"
  end.

(** ** Fields of descriptors *)

(** [n] bits from [pos] on. *)
Definition field (pos n : Z) (x : Z) : Z := x / 2 ^ pos mod 2 ^ n.

Record seg_info := SegInfo { si_base : Z; si_limit : Z; si_type : Z; si_system : bool; si_dpl : Z; si_present : bool }.

(** The limit counts pages if the granularity bit is set. *)
Definition seg_fields (x : Z) : seg_info :=
  let lim := field 0 16 x + 2 ^ 16 * field 48 4 x in
  SegInfo (field 16 24 x + 2 ^ 24 * field 56 8 x) (if field 55 1 x =? 1 then lim * 2 ^ 12 + (2 ^ 12 - 1) else lim)
    (field 40 4 x) (field 44 1 x =? 0) (field 45 2 x) (field 47 1 x =? 1).

Record gate_info := GateInfo { gi_sel : Z; gi_off : Z; gi_trap : bool; gi_dpl : Z; gi_present : bool }.
Definition gate_fields (x : Z) : gate_info :=
  GateInfo (field 16 16 x) (field 0 16 x + 2 ^ 16 * field 48 16 x) (field 40 4 x =? 0xF) (field 45 2 x) (field 47 1 x =? 1).

(** Disjoint fields add up. *)
Lemma lor_field a b k : 0 <= k -> 0 <= a < 2 ^ k -> Z.lor a (Z.shiftl b k) = a + b * 2 ^ k.
Proof.
  intros Hk Ha. rewrite Z.lor_comm, Z.shiftl_mul_pow2 by done. rewrite (lor_add _ a k); [lia|done| |done]. apply Z.mod_mul. lia.
Qed.

Lemma SETGATE_sum istrap sel off d :
  0 <= sel < 2 ^ 16 -> 0 <= off < 2 ^ 32 -> 0 <= d < 4 ->
  SETGATE istrap sel off d = off mod 2 ^ 16 + sel * 2 ^ 16 + (if istrap then 15 else 14) * 2 ^ 40 + d * 2 ^ 45 + 2 ^ 47 + off / 2 ^ 16 * 2 ^ 48.
Proof.
  intros Hs Ho Hd. unfold SETGATE, ors, STS_TG32, STS_IG32. cbn [foldl]. change 0xffff with (Z.ones 16).
  rewrite !Z.land_ones, Z.lor_0_l by lia. rewrite (Z.mod_small sel) by lia. rewrite Z.shiftr_div_pow2 by lia.
  assert (0 <= off mod 2 ^ 16 < 2 ^ 16) by (apply Z.mod_pos_bound; lia).
  set (t := if istrap then 15 else 14). assert (0 <= t < 16) by (unfold t; destruct istrap; lia).
  assert (0 <= off / 2 ^ 16 < 2 ^ 16) by dlia.
  rewrite (lor_field _ _ 16), (lor_field _ _ 40), (lor_field _ _ 45), (lor_field _ _ 47), (lor_field _ _ 48) by lia. lia.
Qed.

Lemma gate_SETGATE istrap sel off d :
  0 <= sel < 2 ^ 16 -> 0 <= off < 2 ^ 32 -> 0 <= d < 4 ->
  gate_fields (SETGATE istrap sel off d) = GateInfo sel off istrap d true.
Proof.
  intros Hs Ho Hd. rewrite SETGATE_sum by done. unfold gate_fields, field.
  set (t := if istrap then 15 else 14). assert (Ht : 0 <= t < 16) by (unfold t; destruct istrap; lia).
  rewrite Z.div_1_r. f_equal; try dlia.
  replace (_ / 2 ^ 40 mod 2 ^ 4) with t by dlia. unfold t. by destruct istrap.
Qed.

Lemma clear_bit x k : 0 <= k -> Z.testbit x k = true -> Z.land x (Z.lnot (Z.shiftl 1 k)) = x - 2 ^ k.
Proof.
  intros Hk Hx. rewrite Z.shiftl_1_l, <- Z.ldiff_land. symmetry. apply Z.sub_nocarry_ldiff. apply Z.bits_inj_0. intros i.
  rewrite Z.ldiff_spec, Z.pow2_bits_eqb by done. destruct (Z.eqb_spec k i) as [->|]; [by rewrite Hx|done].
Qed.

(** The task state is a system segment. *)
Lemma SEG16_fields ts lim :
  0 <= ts < 2 ^ 32 -> 0 <= lim < 2 ^ 16 ->
  seg_fields (SEG_CLS (SEG16 STS_T32A ts lim 0)) = SegInfo ts lim STS_T32A true 0 true.
Proof.
  intros Hts Hlim.
  set (low := lim + (ts mod 2 ^ 24) * 2 ^ 16 + 9 * 2 ^ 40).
  set (high := 2 ^ 47 + 2 ^ 54 + ts / 2 ^ 24 * 2 ^ 56).
  assert (E : SEG16 STS_T32A ts lim 0 = low + 2 ^ 44 + high).
  { unfold SEG16, ors. cbn [foldl]. change 0xffff with (Z.ones 16). change 0xff with (Z.ones 8).
    rewrite !Z.land_ones, !Z.shiftr_div_pow2, Z.lor_0_l by lia. rewrite (Z.mod_small lim), (Z.div_small lim (2 ^ 16)) by lia.
    unfold STS_T32A.
    rewrite (lor_field _ _ 16), (lor_field _ _ 32), (lor_field _ _ 40), (lor_field _ _ 44), (lor_field _ _ 45),
      (lor_field _ _ 47), (lor_field _ _ 48), (lor_field _ _ 54), (lor_field _ _ 56) by dlia.
    unfold low, high. dlia. }
  assert (E' : SEG_CLS (SEG16 STS_T32A ts lim 0) = low + high).
  { unfold SEG_CLS. rewrite clear_bit; [rewrite E; lia|lia|]. rewrite E. apply Z.testbit_true; [lia|]. unfold low, high. dlia. }
  rewrite E'. unfold seg_fields, field, low, high, STS_T32A. rewrite Z.div_1_r.
  replace (_ / 2 ^ 55 mod 2 ^ 1) with 0 by dlia. replace (_ / 2 ^ 44 mod 2 ^ 1) with 0 by dlia.
  replace (_ / 2 ^ 47 mod 2 ^ 1) with 1 by dlia. cbn [Z.eqb Pos.eqb]. f_equal; dlia.
Qed.

(** ** What they amount to *)

(** C16: user code reaches the kernel through one gate only: after [tvinit] every
    vector enters the kernel code segment at its own entry point, and of all of
    them only the system call may be raised by an instruction of a user, and
    only it leaves interrupts on. *)
Theorem idt_gates (vectors : nat -> Z) n :
  (forall i, 0 <= vectors i < 2 ^ 32) -> (n < 256)%nat ->
  exists g, tvinit vectors !! n = Some g /\
    gate_fields g = GateInfo (Z.shiftl SEG_KCODE 3) (vectors n) (bool_decide (Z.of_nat n = T_SYSCALL))
      (if bool_decide (Z.of_nat n = T_SYSCALL) then DPL_USER else 0) true.
Proof.
  intros Hv Hn. unfold tvinit. destruct (decide (Z.of_nat n = T_SYSCALL)) as [E|E].
  - rewrite bool_decide_true by done. replace n with (Z.to_nat T_SYSCALL) by lia. eexists. rewrite list_lookup_insert_eq.
    + split; [done|]. by apply gate_SETGATE.
    + rewrite length_fmap, length_seq. cbn. lia.
  - rewrite bool_decide_false by done. rewrite list_lookup_insert_ne by (unfold T_SYSCALL in *; lia). rewrite list_lookup_fmap, lookup_seq_lt by done.
    eexists. split; [done|]. by apply gate_SETGATE.
Qed.

(** The four flat segments; those of users have privilege level 3. *)
Lemma seginit_segments gdt s i dpl type :
  length (mc_gdt s) = NSEGS -> (i, type, dpl) ∈ [(SEG_KCODE, 10, 0); (SEG_KDATA, 2, 0); (SEG_UCODE, 10, 3); (SEG_UDATA, 2, 3)] ->
  wp (seginit gdt) (fun _ s' => seg_fields <$> mc_gdt s' !! Z.to_nat i = Some (SegInfo 0 0xffffffff type false dpl true)) s.
Proof.
  intros Hlen Hi. destruct s as [c g ss esp io gr ir tr cr]. cbn in Hlen. do 6 (destruct g as [|? g]; [done|]). destruct g; [|done].
  rewrite !elem_of_cons, elem_of_nil in Hi. destruct_or!; by simplify_eq; vm_compute.
Qed.

(** [switchuvm] makes the CPU ready for a process: traps from user mode will
    switch to the top of its kernel stack, ports are closed to it, its page
    directory is loaded and the task register points to the task state of the
    CPU; interrupts and their nesting depth are as before. *)
Theorem switchuvm_correct ts p s :
  p_kstack p <> 0 -> p_pgdir p <> 0 -> 0 <= ts < 2 ^ 32 -> length (mc_gdt s) = NSEGS ->
  cpu_ok (mc_cli s) -> c_ncli (mc_cli s) + 1 < 2 ^ 31 ->
  wp (switchuvm ts (Some p)) (fun _ s' =>
    mc_ss0 s' = Z.shiftl SEG_KDATA 3 /\ mc_esp0 s' = u32 (p_kstack p + KSTACKSIZE) /\ TS_SIZE - 1 < mc_iomb s' /\
    mc_cr3 s' = V2P (p_pgdir p) /\ mc_tr s' = Z.shiftl SEG_TSS 3 /\
    seg_fields <$> mc_gdt s' !! Z.to_nat SEG_TSS = Some (SegInfo ts (TS_SIZE - 1) STS_T32A true 0 true) /\
    (forall i, i <> Z.to_nat SEG_TSS -> mc_gdt s' !! i = mc_gdt s !! i) /\
    c_if (mc_cli s') = c_if (mc_cli s) /\ c_ncli (mc_cli s') = c_ncli (mc_cli s)) s.
Proof.
  intros Hk Hp Hts Hlen [H0 Hoff] Hmax. unfold switchuvm.
  rewrite (proj2 (Z.eqb_neq (p_kstack p) 0)), (proj2 (Z.eqb_neq (p_pgdir p) 0)) by done.
  apply wp_bind, wp_zoom, pushcli_spec; [lia|]. repeat (apply wp_bind, wp_modify).
  unfold ltr, lcr3. repeat (apply wp_bind, wp_modify). apply wp_zoom.
  cbn [mc_cli mc_gdt mc_ss0 mc_esp0 mc_iomb mc_tr mc_cr3 mc_set_cli mc_set_gdt mc_set_ts].
  apply popcli_spec; cbn [c_ncli c_intena c_if]; [lia|done|].
  cbn [mc_cli mc_gdt mc_ss0 mc_esp0 mc_iomb mc_tr mc_cr3 mc_set_cli c_ncli c_if].
  assert (H5 : (Z.to_nat SEG_TSS < length (mc_gdt s))%nat) by (rewrite Hlen; unfold NSEGS, SEG_TSS; lia).
  rewrite !list_lookup_insert_eq by (rewrite ?length_insert; done). cbn [default from_option id fmap option_fmap option_map].
  rewrite SEG16_fields by (done || (unfold TS_SIZE; lia)).
  split_and!; try done.
  - intros i Hi. by rewrite !list_lookup_insert_ne.
  - destruct (Z.eqb_spec (c_ncli (mc_cli s)) 0) as [E|E].
    + rewrite E. cbn. by destruct (c_if (mc_cli s)).
    + rewrite (proj2 (Z.eqb_neq _ 1)) by lia. cbn. symmetry. apply Hoff. lia.
  - lia.
Qed.
