(* ===== verification/Sh.v ===== *)
(** * The shell's parser

    [gettoken] to [nulterminate] of [user/sh.c].  A pointer into the command
    line is the list of bytes from there to the end; the state of the parser
    is the pointer [*ps].  [panic] prints a message and exits.
    [ShRun] runs the commands. *)

From S2P Require Import Prelude CString.

Definition MAXARGS : nat := 10.

(** A counted string: the pointers to its start and behind its end. *)
Record token := Token { t_start : list Z; t_end : list Z }.

Inductive cmd :=
| EXEC (argv : list token)
| REDIR (c : cmd) (file : token) (mode fd : Z)
| PIPE (left right : cmd)
| LIST (left right : cmd)
| BACK (c : cmd).

Definition whitespace : list Z := [32; 9; 13; 10; 11].
Definition symbols : list Z := [60; 124; 62; 38; 59; 40; 41].

Definition is_white (c : Z) : bool := bool_decide (c ∈ whitespace).
Definition is_symbol (c : Z) : bool := bool_decide (c ∈ symbols).

Fixpoint skip_white (s : list Z) : list Z :=
  match s with
  | c :: s' => if is_white c then skip_white s' else s
  | [] => []
  end.
Fixpoint skip_word (s : list Z) : list Z :=
  match s with
  | c :: s' => if negb (is_white c) && negb (is_symbol c) then skip_word s' else s
  | [] => []
  end.

Abbreviation P := (M (list Z)).

Definition gettoken : P (Z * token) :=
  let* ps := get in
  let s := skip_white ps in
  let '(r, e) :=
    match s with
    | [] => (0, s)
    | c :: s' =>
        if bool_decide (c ∈ [124; 40; 41; 59; 38; 60]) then (c, s')
        else if c =? 62 then
          match s' with
          | c' :: s'' => if c' =? 62 then (43, s'') else (c, s')
          | [] => (c, s')
          end
        else (97, skip_word s)
    end in
  do* modify (fun _ => skip_white e) in
  ret (r, Token s e).

Definition peek (toks : list Z) : P bool :=
  do* modify skip_white in
  let* s := get in
  ret (match s with c :: _ => bool_decide (c ∈ toks) | [] => false end).

Definition redir (c : cmd) (tok : Z) (file : token) : cmd :=
  if tok =? 60 then REDIR c file 4 0 else REDIR c file (Z.lor 2 56) 1.

Fixpoint parseredirs (fuel : nat) (c : cmd) : P cmd :=
  let* more := peek [60; 62] in
  if negb more then ret c else
  match fuel with
  | O => fault "fuel"
  | S fuel =>
      let* (tok, _) := gettoken in
      let* (t, file) := gettoken in
      if negb (t =? 97) then panic "missing file for redirection" else
      parseredirs fuel (redir c tok file)
  end.

(** The redirections around a command that is still being read. *)
Fixpoint set_args (argv : list token) (c : cmd) : cmd :=
  match c with
  | EXEC _ => EXEC argv
  | REDIR c file mode fd => REDIR (set_args argv c) file mode fd
  | _ => c
  end.

(** The loop of [parseexec]: [argv] are the arguments so far. *)
Fixpoint parseargs (fuel : nat) (argv : list token) (c : cmd) : P cmd :=
  let* stop := peek [124; 41; 38; 59] in
  if stop then ret (set_args argv c) else
  match fuel with
  | O => fault "fuel"
  | S fuel =>
      let* (tok, t) := gettoken in
      if tok =? 0 then ret (set_args argv c)
      else if negb (tok =? 97) then panic "syntax"
      else
        let argv := argv ++ [t] in
        if (MAXARGS <=? length argv)%nat then panic "too many args" else
        let* c := parseredirs fuel c in
        parseargs fuel argv c
  end.

Fixpoint parsebacks (fuel : nat) (c : cmd) : P cmd :=
  let* more := peek [38] in
  if negb more then ret c else
  match fuel with
  | O => fault "fuel"
  | S fuel => do* gettoken in parsebacks fuel (BACK c)
  end.

Fixpoint parseline (fuel : nat) : P cmd :=
  match fuel with
  | O => fault "fuel"
  | S fuel =>
      let* c := parsepipe fuel in
      let* c := parsebacks fuel c in
      let* more := peek [59] in
      if more then
        do* gettoken in
        let* r := parseline fuel in
        ret (LIST c r)
      else ret c
  end
with parsepipe (fuel : nat) : P cmd :=
  match fuel with
  | O => fault "fuel"
  | S fuel =>
      let* c := parseexec fuel in
      let* more := peek [124] in
      if more then
        do* gettoken in
        let* r := parsepipe fuel in
        ret (PIPE c r)
      else ret c
  end
with parseexec (fuel : nat) : P cmd :=
  match fuel with
  | O => fault "fuel"
  | S fuel =>
      let* block := peek [40] in
      if block then parseblock fuel
      else
        let* c := parseredirs fuel (EXEC []) in
        parseargs fuel [] c
  end
with parseblock (fuel : nat) : P cmd :=
  match fuel with
  | O => fault "fuel"
  | S fuel =>
      let* open := peek [40] in
      if negb open then panic "parseblock" else
      do* gettoken in
      let* c := parseline fuel in
      let* close := peek [41] in
      if negb close then panic "syntax - missing )" else
      do* gettoken in
      parseredirs fuel c
  end.

(** Four calls between two characters at most. *)
Definition parse_fuel (s : list Z) : nat := (4 * length s + 4)%nat.

(** The index of a pointer into [s], and a NUL stored there. *)
Definition index (s p : list Z) : nat := (length s - length p)%nat.
Definition terminate (s : list Z) (t : token) (buf : list Z) : list Z :=
  <[index s (t_end t) := 0]> buf.

(** [nulterminate] on the buffer [buf] of the command line [s]. *)
Fixpoint nulterminate (s : list Z) (c : cmd) (buf : list Z) : list Z :=
  match c with
  | EXEC argv => foldl (fun buf t => terminate s t buf) buf argv
  | REDIR c file _ _ => terminate s file (nulterminate s c buf)
  | PIPE l r | LIST l r => nulterminate s r (nulterminate s l buf)
  | BACK c => nulterminate s c buf
  end.

(** The command and the buffer with its strings.  The rest of a line that is not
    a command is printed before the message ([leftovers]), which the parser's
    outcome leaves out; the memory for the nodes is assumed to be there, as the
    code assumes that [malloc] does not return 0. *)
Definition parsecmd : P (cmd * list Z) :=
  let* s := get in
  let* c := parseline (parse_fuel s) in
  do* peek [] in
  let* rest := get in
  match rest with
  | [] => ret (c, nulterminate s c (s ++ [0]))
  | _ => panic "syntax"
  end.
