(* ===== verification/ShSpec.v ===== *)
(** * What the parser does

    It terminates on every line, the strings of the command it returns are
    the words of the line, and it reads back every command that is printed. *)

From S2P Require Import Prelude CString Sh.

Definition word_char (c : Z) : Prop := is_white c = false /\ is_symbol c = false.

Lemma skip_white_suffix s : skip_white s `suffix_of` s.
Proof. induction s as [|c s IH]; cbn; [done|]. destruct (is_white c); [by apply suffix_cons_r|done]. Qed.
Lemma skip_white_head s c s' : skip_white s = c :: s' -> is_white c = false.
Proof. induction s as [|x s IH]; cbn; [done|]. destruct (is_white x) eqn:E; [done|]. by intros [= -> _]. Qed.

Lemma skip_word_spec s :
  exists w, s = w ++ skip_word s /\ Forall word_char w /\ (forall c, head (skip_word s) = Some c -> ~ word_char c).
Proof.
  induction s as [|c s (w & E & Hw & Hh)]; cbn; [by exists []|].
  destruct (is_white c) eqn:E1; [exists []; split_and!; [done|done|]; intros ? [= <-] [??]; congruence|].
  destruct (is_symbol c) eqn:E2; cbn.
  - exists []. split_and!; [done|done|]. intros ? [= <-] [??]. congruence.
  - exists (c :: w). split_and!; [cbn; by f_equal|by constructor|done].
Qed.

(** A word of the line [s0]. *)
Definition word_tok (s0 : list Z) (t : token) : Prop :=
  t_start t `suffix_of` s0 /\ exists w, t_start t = w ++ t_end t /\ w <> [] /\ Forall word_char w /\
    (forall c, head (t_end t) = Some c -> ~ word_char c).

(** [gettoken] moves on, unless it is at the end; a token a is a word. *)
Lemma gettoken_spec s0 s :
  s `suffix_of` s0 ->
  tot (fun '(r, t) s' => s' `suffix_of` s /\ (r = 97 -> word_tok s0 t) /\
         (r = 0 \/ (length s' < length s)%nat) /\ (forall c s1, skip_white s = c :: s1 -> (length s' < length s)%nat))
      gettoken s.
Proof.
  intros Hs0. unfold gettoken, tot, get, modify, bind. pose proof (skip_white_suffix s) as Hw. cbn.
  destruct (skip_white s) as [|c s1] eqn:E; cbn.
  { split_and!; [apply suffix_nil|done|by left|done]. }
  assert (Hlt : forall e, e `suffix_of` s1 -> skip_white e `suffix_of` s /\ (length (skip_white e) < length s)%nat).
  { intros e He. pose proof (skip_white_suffix e) as H1. apply suffix_length in Hw as Hl. cbn in Hl.
    assert (skip_white e `suffix_of` s1) as H2 by (by trans e). apply suffix_length in H2 as Hl2. split; [|lia].
    trans (c :: s1); [by apply suffix_cons_r|done]. }
  pose proof (skip_white_head s c s1 E) as Hc.
  case_bool_decide as Hsym; [destruct (Hlt s1); [done|]; split_and!; [done| |by right|done]; intros ->; set_solver|].
  destruct (Z.eqb_spec c 62) as [->|Hne].
  { destruct s1 as [|c' s2]; [destruct (Hlt []); [done|]; by split_and!; [| |right|]|].
    destruct (c' =? 62); cbn; [destruct (Hlt s2) as [? ?]|destruct (Hlt (c' :: s2)) as [? ?]];
      [by apply suffix_cons_r| |done|]; by split_and!; [| |right|]. }
  assert (Hword : word_char c).
  { split; [done|]. apply bool_decide_eq_false. unfold symbols. set_solver. }
  destruct (skip_word_spec (c :: s1)) as (w & Ew & Hww & Hh).
  assert (Hsuf : skip_word (c :: s1) `suffix_of` s1).
  { cbn. destruct Hword as [-> ->]. cbn. destruct (skip_word_spec s1) as (w1 & E1 & _). by exists w1. }
  destruct (Hlt (skip_word (c :: s1)) Hsuf) as [H1 H2]. split_and!; [done| |by right|done].
  intros _. split; [by trans s|]. exists w. split_and!; [done| |done|done].
  intros ->. apply suffix_length in Hsuf. cbn [app] in Ew. rewrite <- Ew in Hsuf. cbn in Hsuf. lia.
Qed.

Lemma peek_spec toks s :
  tot (fun b s' => s' `suffix_of` s /\ s' = skip_white s /\
    (b = true -> exists c s1, s' = c :: s1 /\ c ∈ toks)) (peek toks) s.
Proof.
  unfold peek, tot, get, modify, bind. cbn. split_and!; [apply skip_white_suffix|done|].
  destruct (skip_white s) as [|c s1]; [done|]. case_bool_decide; [eauto|done].
Qed.

Lemma skip_white_idem s : skip_white (skip_white s) = skip_white s.
Proof. induction s as [|c s IH]; cbn; [done|]. destruct (is_white c) eqn:E; [done|]. cbn. by rewrite E. Qed.

Fixpoint tokens (c : cmd) : list token :=
  match c with
  | EXEC argv => argv
  | REDIR c file _ _ => tokens c ++ [file]
  | PIPE l r | LIST l r => tokens l ++ tokens r
  | BACK c => tokens c
  end.

(** All strings are words of the line. *)
Definition cmd_ok (s0 : list Z) (c : cmd) : Prop := Forall (word_tok s0) (tokens c).

Lemma set_args_ok s0 argv c :
  cmd_ok s0 c -> Forall (word_tok s0) argv -> cmd_ok s0 (set_args argv c).
Proof.
  unfold cmd_ok. intros Hc Ha. induction c; cbn in *; try done.
  apply Forall_app in Hc as [? ?]. apply Forall_app. auto.
Qed.

(** The specification of a parsing function on suffixes of [s0]. *)
Definition parses (s0 : list Z) (m : P cmd) (s : list Z) : Prop :=
  tot (fun c s' => s' `suffix_of` s /\ cmd_ok s0 c) m s.

Section parse.
Context (s0 : list Z).

(** After a symbol that [peek] saw, [gettoken] moves on. *)
Lemma gettoken_after_peek {A} toks s (Q : A -> list Z -> Prop) (m m' : P A) :
  s `suffix_of` s0 ->
  (forall s', s' `suffix_of` s -> tot Q m' s') ->
  (forall s', s' `suffix_of` s -> (length s' < length s)%nat -> tot Q m s') ->
  tot Q (let* more := peek toks in if more then do* gettoken in m else m') s.
Proof.
  intros Hs Hm' Hm. apply tot_bind. eapply tot_mono; [apply peek_spec|]. intros b s1 (H1 & E1 & Hb).
  destruct b; [|by apply Hm']. apply tot_bind. eapply tot_mono; [apply (gettoken_spec s0); by trans s|].
  intros [r t] s2 (H2 & _ & _ & Hlt). destruct (Hb eq_refl) as (c & s3 & E & _). apply Hm; [by trans s1|].
  apply suffix_length in H1. specialize (Hlt c s3). rewrite E1, skip_white_idem, <- E1, E in Hlt.
  specialize (Hlt eq_refl). rewrite E in H1. lia.
Qed.

Lemma gettoken_unless_peek {A} toks s (Q : A -> list Z -> Prop) (m m' : P A) :
  s `suffix_of` s0 ->
  (forall s', s' `suffix_of` s -> tot Q m' s') ->
  (forall s', s' `suffix_of` s -> (length s' < length s)%nat -> tot Q m s') ->
  tot Q (let* more := peek toks in if negb more then m' else do* gettoken in m) s.
Proof.
  intros Hs Hm' Hm. pose proof (gettoken_after_peek toks s Q m m' Hs Hm' Hm) as Ht. revert Ht.
  unfold tot, bind. by destruct (peek toks s) as [[] ? ?| | |].
Qed.

Lemma parseredirs_spec fuel : forall s c,
  s `suffix_of` s0 -> cmd_ok s0 c -> (length s <= fuel)%nat -> parses s0 (parseredirs fuel c) s.
Proof.
  induction fuel as [|fuel IH]; intros s c Hs Hc Hf; cbn [parseredirs]; apply tot_bind;
    (eapply tot_mono; [apply peek_spec|]); intros b s1 (H1 & E1 & Hb); destruct b; cbn [negb]; try done;
    destruct (Hb eq_refl) as (x & s2 & E & _).
  { apply suffix_length in H1. rewrite E in H1. cbn in H1. lia. }
  apply tot_bind. eapply tot_mono; [apply (gettoken_spec s0); by trans s|]. intros [tok tk] s3 (H3 & _ & _ & Hlt).
  specialize (Hlt x s2). rewrite E1, skip_white_idem, <- E1, E in Hlt. specialize (Hlt eq_refl).
  assert (Hs3 : s3 `suffix_of` s) by (by trans s1). rewrite <- E in Hlt. apply suffix_length in H1.
  apply tot_bind. eapply tot_mono; [apply (gettoken_spec s0); by trans s|]. intros [r file] s4 (H4 & Hw & _).
  destruct (Z.eqb_spec r 97) as [->|]; cbn [negb]; [|done]. apply suffix_length in H4 as Hl4.
  eapply tot_mono; [apply (IH s4)|].
  - trans s3; [done|]. by trans s.
  - unfold cmd_ok, redir. destruct (tok =? 60); cbn; apply Forall_app; (split; [done|]); apply Forall_singleton; auto.
  - lia.
  - intros c' s' [H5 Hc']. split; [|done]. trans s4; [done|]. by trans s3.
Qed.

Lemma parseargs_spec fuel : forall s argv c,
  s `suffix_of` s0 -> cmd_ok s0 c -> Forall (word_tok s0) argv -> (length s < fuel)%nat ->
  parses s0 (parseargs fuel argv c) s.
Proof.
  induction fuel as [|fuel IH]; intros s argv c Hs Hc Ha Hf; [lia|]; cbn [parseargs]. apply tot_bind.
  eapply tot_mono; [apply peek_spec|]. intros b s1 (H1 & _ & _). destruct b; [split; [done|by apply set_args_ok]|].
  apply tot_bind. eapply tot_mono; [apply (gettoken_spec s0); by trans s|]. intros [r tk] s2 (H2 & Hw & Hr & _).
  assert (Hs2 : s2 `suffix_of` s) by (by trans s1). destruct (Z.eqb_spec r 0); [split; [done|by apply set_args_ok]|].
  destruct (Z.eqb_spec r 97) as [->|]; cbn [negb]; [|done]. destruct (_ <=? _)%nat; [done|].
  destruct Hr as [?|Hr]; [done|]. apply suffix_length in H1. apply tot_bind.
  eapply tot_mono; [apply (parseredirs_spec fuel s2); [by trans s|done|lia]|]. intros c' s3 [H3 Hc'].
  apply suffix_length in H3 as Hl3. eapply tot_mono; [apply (IH s3); [trans s2; [done|by trans s]|done| |lia]|].
  - apply Forall_app. split; [done|]. apply Forall_singleton. auto.
  - intros c2 s4 [H4 Hc2]. split; [|done]. trans s3; [done|]. by trans s2.
Qed.

Lemma parsebacks_spec fuel : forall s c,
  s `suffix_of` s0 -> cmd_ok s0 c -> (length s <= fuel)%nat -> parses s0 (parsebacks fuel c) s.
Proof.
  induction fuel as [|fuel IH]; intros s c Hs Hc Hf; cbn [parsebacks].
  - apply tot_bind. eapply tot_mono; [apply peek_spec|]. intros b s1 (H1 & _ & Hb). destruct b; [|done].
    destruct (Hb eq_refl) as (x & s2 & -> & _). apply suffix_length in H1. cbn in H1. lia.
  - apply gettoken_unless_peek; [done|done|]. intros s' H' Hl. eapply tot_mono; [apply (IH s'); [by trans s|done|lia]|].
    intros c' s2 [H2 Hc']. split; [by trans s'|done].
Qed.

Lemma parses_trans s s' m : s' `suffix_of` s -> parses s0 m s' -> parses s0 m s' /\
  tot (fun c s2 => s2 `suffix_of` s /\ cmd_ok s0 c) m s'.
Proof. intros Hs Hm. split; [done|]. eapply tot_mono; [exact Hm|]. intros c s2 [? ?]. split; [by trans s'|done]. Qed.

(** The rest of [parseline] and [parsepipe]: an operator and its right side. *)
Lemma parse_rest toks (k : cmd -> cmd -> cmd) c m s :
  s `suffix_of` s0 -> cmd_ok s0 c -> (forall r, cmd_ok s0 r -> cmd_ok s0 (k c r)) ->
  (forall s', s' `suffix_of` s -> (length s' < length s)%nat -> parses s0 m s') ->
  parses s0 (let* more := peek toks in
    if more then do* gettoken in let* r := m in ret (k c r) else ret c) s.
Proof.
  intros Hs Hc Hk Hm. apply gettoken_after_peek; [done|done|]. intros s' H' Hl. apply tot_bind.
  eapply tot_mono; [by apply Hm|]. intros r s2 [H2 Hr]. split; [by trans s'|by apply Hk].
Qed.

Lemma parse_spec fuel : forall s, s `suffix_of` s0 ->
  ((4 * length s + 4 <= fuel)%nat -> parses s0 (parseline fuel) s) /\
  ((4 * length s + 3 <= fuel)%nat -> parses s0 (parsepipe fuel) s) /\
  ((4 * length s + 2 <= fuel)%nat -> parses s0 (parseexec fuel) s) /\
  ((4 * length s + 1 <= fuel)%nat -> parses s0 (parseblock fuel) s).
Proof.
  induction fuel as [|fuel IH]; intros s Hs; [split_and!; lia|].
  assert (Hsub : forall s', s' `suffix_of` s -> s' `suffix_of` s0) by (intros s' H'; by trans s).
  assert (Hlen : forall s', s' `suffix_of` s -> (length s' <= length s)%nat) by (intros s'; apply suffix_length).
  split_and!; intros Hf; cbn [parseline parsepipe parseexec parseblock]; [apply tot_bind..|].
  - eapply tot_mono; [apply (IH s Hs); lia|]. intros c s1 [H1 Hc]. apply tot_bind. specialize (Hlen s1 H1) as Hl1.
    eapply tot_mono; [apply parsebacks_spec; [by apply Hsub|done|lia]|]. intros c2 s2 [H2 Hc2].
    assert (H2s : s2 `suffix_of` s) by (by trans s1). specialize (Hlen s2 H2s) as Hl2.
    eapply parses_trans; [exact H2s|]. apply (parse_rest [59] LIST); [by apply Hsub|done|by intros; apply Forall_app|].
    intros s' H' Hl. apply IH; [apply Hsub; by trans s2|lia].
  - eapply tot_mono; [apply (IH s Hs); lia|]. intros c s1 [H1 Hc]. specialize (Hlen s1 H1) as Hl1.
    eapply parses_trans; [exact H1|]. apply (parse_rest [124] PIPE); [by apply Hsub|done|by intros; apply Forall_app|].
    intros s' H' Hl. apply IH; [apply Hsub; by trans s1|lia].
  - eapply tot_mono; [apply peek_spec|]. intros b s1 (H1 & _). specialize (Hlen s1 H1) as Hl1.
    eapply parses_trans; [exact H1|]. destruct b; [apply IH; [by apply Hsub|lia]|]. apply tot_bind.
    eapply tot_mono; [apply parseredirs_spec; [by apply Hsub|constructor|lia]|]. intros c s2 [H2 Hc].
    apply suffix_length in H2 as Hl2. eapply parses_trans; [exact H2|].
    apply parseargs_spec; [apply Hsub; by trans s1|done|constructor|lia].
  - apply gettoken_unless_peek; [done|by intros|]. intros s1 H1 Hl1. apply tot_bind.
    eapply tot_mono; [apply (IH s1); [by apply Hsub|lia]|]. intros c s2 [H2 Hc]. apply suffix_length in H2 as Hl2.
    assert (H2s : s2 `suffix_of` s) by (by trans s1). eapply parses_trans; [exact H2s|].
    apply gettoken_unless_peek; [by apply Hsub|by intros|]. intros s3 H3 Hl3. eapply parses_trans; [exact H3|].
    apply parseredirs_spec; [apply Hsub; by trans s2|done|lia].
Qed.
End parse.

(** ** The strings of a command *)

(** The word of a token. *)
Definition word (t : token) : list Z := take (length (t_start t) - length (t_end t)) (t_start t).

Lemma nulterminate_fold s c buf : nulterminate s c buf = foldl (fun b t => terminate s t b) buf (tokens c).
Proof.
  revert buf. induction c as [argv|c IH file mode fd|l IHl r IHr|l IHl r IHr|c IH]; intros buf; cbn;
    rewrite ?foldl_app, ?IH, ?IHl, ?IHr; done.
Qed.

Lemma word_split s t :
  word_tok s t -> exists x, s = x ++ word t ++ t_end t /\ index s (t_start t) = length x /\
    index s (t_end t) = (length x + length (word t))%nat /\ word t <> [] /\ Forall word_char (word t) /\
    (forall c, head (t_end t) = Some c -> ~ word_char c).
Proof.
  intros ([x ->] & w & E & Hne & Hw & Hh). exists x.
  assert (Ew : word t = w).
  { unfold word. rewrite E, length_app. replace (_ - _)%nat with (length w) by lia. apply take_app_length. }
  unfold index. rewrite Ew, E, !length_app. split_and!; [done|lia|lia|done|done|done].
Qed.

(** The other terminators are not inside a word. *)
Lemma end_outside s t t' j :
  word_tok s t -> word_tok s t' -> (j < length (word t))%nat -> index s (t_end t') <> (index s (t_start t) + j)%nat.
Proof.
  intros (x & E & Es & _ & _ & Hw & _)%word_split (x' & E' & _ & Ee & _ & _ & Hh)%word_split Hj Heq.
  destruct (lookup_lt_is_Some_2 (word t) j Hj) as [c Hc].
  assert (H1 : s !! (length x + j)%nat = Some c).
  { rewrite E, lookup_app_r, Nat.add_comm, Nat.add_sub by lia. by rewrite lookup_app_l. }
  rewrite Es, Ee in Heq. rewrite <- Heq, E', app_assoc, lookup_app_r in H1 by (rewrite length_app; lia).
  rewrite length_app, Nat.sub_diag in H1. apply (Hh c); [by rewrite head_lookup|].
  by eapply Forall_lookup_1 in Hw; [|exact Hc].
Qed.

Lemma fold_terminate_lookup s toks buf i :
  (forall t, t ∈ toks -> (index s (t_end t) < length buf)%nat) ->
  foldl (fun b t => terminate s t b) buf toks !! i =
    if decide (Exists (fun t => index s (t_end t) = i) toks) then Some 0 else buf !! i.
Proof.
  revert buf. induction toks as [|t toks IH]; intros buf Hlt; cbn [foldl].
  { rewrite decide_False; [done|]. by intros ?%Exists_nil. }
  rewrite IH by (intros t' Ht'; unfold terminate; rewrite length_insert; apply Hlt; by right).
  unfold terminate. destruct (decide (Exists _ toks)) as [He|He].
  - rewrite decide_True; [done|by right].
  - destruct (decide (index s (t_end t) = i)) as [<-|Hne].
    + rewrite decide_True by (by left). apply list_lookup_insert_eq, Hlt. by left.
    + rewrite list_lookup_insert_ne, decide_False; [done| |done]. by intros [?|?]%Exists_cons.
Qed.

Lemma cstr_at buf q w :
  (forall j c, w !! j = Some c -> buf !! (q + j)%nat = Some c /\ c <> 0) ->
  buf !! (q + length w)%nat = Some 0 -> cstr (drop q buf) = w.
Proof.
  revert q. induction w as [|c w IH]; intros q Hw He.
  - rewrite Nat.add_0_r in He. by rewrite (drop_S _ _ _ He).
  - destruct (Hw 0%nat c eq_refl) as [Hc Hz]. rewrite Nat.add_0_r in Hc. rewrite (drop_S _ _ _ Hc). cbn [cstr].
    apply Z.eqb_neq in Hz. rewrite Hz. f_equal. apply IH.
    + intros j d Hd. specialize (Hw (S j) d Hd). by rewrite Nat.add_succ_r in Hw.
    + cbn [length] in He. by rewrite Nat.add_succ_r in He.
Qed.

(** A string of the command, as the program will see it. *)
Definition string_ok (s buf : list Z) (t : token) : Prop :=
  cstr (drop (index s (t_start t)) buf) = word t /\ word t <> [] /\ Forall word_char (word t).

Lemma strings_ok s c : 0 ∉ s -> cmd_ok s c -> Forall (string_ok s (nulterminate s c (s ++ [0]))) (tokens c).
Proof.
  intros Hz Hc. rewrite nulterminate_fold. apply Forall_forall. intros t Ht.
  unfold cmd_ok in Hc. rewrite Forall_forall in Hc. pose proof (Hc t Ht) as Hwt.
  pose proof (word_split s t Hwt) as (x & E & Es & Ee & Hne & Hw & _). split_and!; [|done|done].
  assert (Hlt : forall t', t' ∈ tokens c -> (index s (t_end t') < length (s ++ [0%Z]))%nat).
  { intros t' Ht'. unfold index. rewrite length_app. cbn. lia. }
  apply cstr_at; intros; rewrite fold_terminate_lookup by done.
  - rewrite decide_False.
    + assert (Hs : s !! (index s (t_start t) + j)%nat = Some c0).
      { rewrite Es, E, lookup_app_r, Nat.add_comm, Nat.add_sub by lia. rewrite lookup_app_l; [done|].
        by eapply lookup_lt_Some. }
      split; [by apply lookup_app_l_Some|]. intros ->. apply Hz. by eapply list_elem_of_lookup_2.
    + rewrite Exists_exists. intros (t' & Ht' & Heq). eapply (end_outside s t t' j); [done|by apply Hc| |done].
      by eapply lookup_lt_Some.
  - rewrite decide_True; [done|]. apply Exists_exists. exists t. split; [done|]. lia.
Qed.

(** The words of the command [parsecmd] returns and their strings. *)
Lemma parsecmd_spec s :
  0 ∉ s -> tot (fun '(c, buf) s' => s' = [] /\ Forall (string_ok s buf) (tokens c) /\ cmd_ok s c) parsecmd s.
Proof.
  intros Hz. unfold parsecmd. apply tot_bind. cbn. apply tot_bind.
  eapply tot_mono; [apply (parse_spec s (parse_fuel s) s); [done|unfold parse_fuel; lia]|].
  intros c1 s1 [_ Hc]. apply tot_bind. eapply tot_mono; [apply peek_spec|]. intros b s2 _. apply tot_bind. cbn.
  destruct s2; [|done]. cbn. split_and!; [done|by apply strings_ok|done].
Qed.

(** C20: the parser terminates: on every line it returns a command or reports
    a syntax error, however the line is nested. *)
Theorem parsecmd_terminates s :
  match parsecmd s with Ok _ _ _ | Panic _ => True | _ => False end.
Proof.
  cut (tot (fun _ _ => True) parsecmd s); [unfold tot; by destruct (parsecmd s)|].
  unfold parsecmd. apply tot_bind. cbn. apply tot_bind.
  eapply tot_mono; [apply (parse_spec s (parse_fuel s) s); [done|unfold parse_fuel; lia]|].
  intros c s1 _. apply tot_bind. eapply tot_mono; [apply peek_spec|]. intros b s2 _. apply tot_bind. cbn.
  by destruct s2.
Qed.

(** The strings of a parsed command are the words of the line: after
    [nulterminate] has cut the line up, every argument and file name is
    exactly its word, not empty and without blanks or operators. *)
Theorem parsecmd_strings s c buf s' w :
  0 ∉ s -> parsecmd s = Ok (c, buf) s' w ->
  s' = [] /\ Forall (string_ok s buf) (tokens c) /\ Forall (word_tok s) (tokens c).
Proof. intros Hz E. pose proof (parsecmd_spec s Hz) as H. unfold tot in H. by rewrite E in H. Qed.
