(* ===== verification/ShRound.v ===== *)
(** * Printed commands parse back

    Commands as trees of strings, a printer that uses parentheses where the
    grammar needs them, and the theorem that the parser inverts it. *)

From S2P Require Import Prelude Triple CString Sh ShSpec.

Inductive acmd :=
| AExec (argv : list (list Z))
| ARedir (c : acmd) (how : Z * Z) (file : list Z)
| APipe (l r : acmd)
| AList (l r : acmd)
| ABack (c : acmd).

(** The tree of a parsed command. *)
Fixpoint resolve (c : cmd) : acmd :=
  match c with
  | EXEC argv => AExec (word <$> argv)
  | REDIR c file mode fd => ARedir (resolve c) (mode, fd) (word file)
  | PIPE l r => APipe (resolve l) (resolve r)
  | LIST l r => AList (resolve l) (resolve r)
  | BACK c => ABack (resolve c)
  end.

Definition pr_words (ws : list (list Z)) : list Z := concat ((fun w => 32 :: w) <$> ws).

(** The mode and the descriptor of a redirection: [O_RDONLY] on 0 for <,
    [O_WRONLY|O_CREATE] on 1 for >. *)
Definition how_in : Z * Z := (4, 0).
Definition how_out : Z * Z := (58, 1).
Definition how_ok (how : Z * Z) : Prop := how = how_in \/ how = how_out.
Definition how_op (how : Z * Z) : Z := if how.2 =? 1 then 62 else 60.

Definition pr_redir (r : Z * Z * list Z) : list Z := 32 :: how_op r.1 :: 32 :: r.2.
Definition pr_redirs (rl : list (Z * Z * list Z)) : list Z := concat (pr_redir <$> rl).

Inductive level := Line | Back | Pipe | Exec.
Definition paren (x : list Z) : list Z := 40 :: x ++ [41].

Fixpoint pr (lv : level) (c : acmd) : list Z :=
  match c with
  | AExec argv => pr_words argv
  | ARedir c how file => pr Exec c ++ pr_redir (how, file)
  | APipe l r =>
      let x := pr Exec l ++ [32; 124] ++ pr Pipe r in
      match lv with Exec => paren x | _ => x end
  | AList l r =>
      let x := pr Back l ++ [32; 59] ++ pr Line r in
      match lv with Line => x | _ => paren x end
  | ABack c =>
      let x := pr Back c ++ [32; 38] in
      match lv with Line | Back => x | _ => paren x end
  end.
Definition print_cmd (c : acmd) : list Z := pr Line c.

(** Words that can be printed; commands with at most nine of them. *)
Definition word_ok (w : list Z) : Prop := w <> [] /\ Forall word_char w.
Fixpoint acmd_ok (c : acmd) : Prop :=
  match c with
  | AExec argv => Forall word_ok argv /\ (length argv < MAXARGS)%nat
  | ARedir c how file => acmd_ok c /\ how_ok how /\ word_ok file
  | APipe l r | AList l r => acmd_ok l /\ acmd_ok r
  | ABack c => acmd_ok c
  end.

(** ** Tokens *)

Lemma run_peek {A} toks (k : bool -> P A) s :
  bind (peek toks) k s =
  k (match skip_white s with c :: _ => bool_decide (c ∈ toks) | [] => false end) (skip_white s).
Proof. unfold peek, bind, modify, get. cbn. by destruct (k _ _). Qed.

Lemma word_char_not_white c : word_char c -> is_white c = false.
Proof. by intros [? _]. Qed.

(** What follows does not continue a word. *)
Definition word_end (rest : list Z) : Prop := forall c, head rest = Some c -> ~ word_char c.

Lemma skip_word_app w rest : Forall word_char w -> word_end rest -> skip_word (w ++ rest) = rest.
Proof.
  intros Hw He. induction Hw as [|c w [H1 H2] Hw IH]; cbn [app skip_word].
  - destruct rest as [|c rest]; [done|]. cbn. specialize (He c eq_refl). unfold word_char in He.
    destruct (is_white c), (is_symbol c); cbn; try done. by destruct He.
  - by rewrite H1, H2, IH.
Qed.

Lemma skip_white_word w rest : word_ok w -> skip_white (w ++ rest) = w ++ rest.
Proof. intros [Hne Hw]. destruct Hw as [|c w [Hc _] Hw]; [done|]. cbn. by rewrite Hc. Qed.

Lemma word_symbol c : word_char c -> c ∉ symbols.
Proof. intros [_ Hs] Hc. unfold is_symbol in Hs. by rewrite bool_decide_eq_true_2 in Hs. Qed.

(** [gettoken] at a word. *)
Lemma run_gettoken_word {A} w rest s (k : Z * token -> P A) :
  word_ok w -> word_end rest -> skip_white s = w ++ rest ->
  exists t, word t = w /\ bind gettoken k s = k (97, t) (skip_white rest).
Proof.
  intros [Hne Hw] He Es. exists (Token (w ++ rest) rest). split.
  { unfold word. cbn. rewrite length_app. replace (_ - _)%nat with (length w) by lia. apply take_app_length. }
  unfold gettoken, bind, get, modify. cbn. rewrite Es. destruct w as [|c w]; [done|]. cbn [app].
  assert (Hc : c ∉ symbols) by (apply word_symbol; by apply Forall_cons in Hw as [? _]).
  rewrite bool_decide_eq_false_2 by (unfold symbols in Hc; set_solver).
  rewrite (proj2 (Z.eqb_neq c 62)) by (intros ->; unfold symbols in Hc; set_solver).
  change (c :: w ++ rest) with ((c :: w) ++ rest). rewrite skip_word_app by done. cbn. by destruct (k _ _).
Qed.

(** [gettoken] at an operator of one character. *)
Lemma run_gettoken_op {A} c rest s (k : Z * token -> P A) :
  c ∈ [124; 40; 41; 59; 38; 60] \/ (c = 62 /\ head rest <> Some 62) -> skip_white s = c :: rest ->
  exists t, bind gettoken k s = k (c, t) (skip_white rest).
Proof.
  intros Hc Es. exists (Token (c :: rest) rest). unfold gettoken, bind, get, modify. cbn. rewrite Es. case_bool_decide as E.
  - cbn. by destruct (k _ _).
  - destruct Hc as [?|[-> Hr]]; [done|]. cbn. destruct rest as [|c' rest]; cbn; [by destruct (k _ _)|].
    destruct (Z.eqb_spec c' 62) as [->|]; [done|]. cbn. by destruct (k _ _).
Qed.

(** ** Words and redirections *)

(** The next operator, if any, is one of [toks]. *)
Definition follows (toks rest : list Z) : Prop :=
  match skip_white rest with [] => True | c :: _ => c ∈ toks end.

Definition wrap (a : acmd) (r : Z * Z * list Z) : acmd := ARedir a r.1 r.2.
Definition redir_tok (x : Z * token) (r : Z * Z * list Z) : Prop :=
  how_ok r.1 /\ x.1 = how_op r.1 /\ word x.2 = r.2.
Definition redirs (c : cmd) (toks : list (Z * token)) : cmd := foldl (fun c x => redir c x.1 x.2) c toks.
Definition redirs_ok (rl : list (Z * Z * list Z)) : Prop := Forall (fun r => how_ok r.1 /\ word_ok r.2) rl.

Lemma resolve_redirs toks rl c :
  Forall2 redir_tok toks rl -> resolve (redirs c toks) = foldl wrap (resolve c) rl.
Proof.
  intros Hf. revert c. induction Hf as [|[tok t] [how f] toks rl (Hh & E1 & E2) Hf IH]; intros c; [done|]. cbn in *.
  rewrite IH. f_equal. unfold redir, wrap. rewrite E1, <- E2. by destruct Hh as [-> | ->].
Qed.
Lemma set_args_redirs argv toks c : set_args argv (redirs c toks) = redirs (set_args argv c) toks.
Proof.
  revert c. induction toks as [|[tok t] toks IH]; intros c; [done|]. cbn. rewrite IH. f_equal.
  unfold redir. by destruct (tok =? 60).
Qed.

Lemma skip_white_32 s : skip_white (32 :: s) = skip_white s.
Proof. done. Qed.
Lemma skip_white_op c s : c ∈ symbols -> skip_white (c :: s) = c :: s.
Proof.
  intros Hc. cbn. assert (is_white c = false) as ->; [|done]. apply bool_decide_eq_false. unfold symbols, whitespace in *.
  rewrite !elem_of_cons in *. rewrite elem_of_nil in *. lia.
Qed.

Lemma word_end_32 s : word_end (32 :: s).
Proof. intros ? [= <-] [H _]. done. Qed.
Lemma word_end_redirs rl rest : word_end rest -> word_end (pr_redirs rl ++ rest).
Proof. intros He. destruct rl; [done|apply word_end_32]. Qed.
Lemma word_end_words ws rest : word_end rest -> word_end (pr_words ws ++ rest).
Proof. intros He. destruct ws; [done|apply word_end_32]. Qed.

(** Not at a redirection. *)
Lemma parseredirs_none fuel c s :
  (forall x, head (skip_white s) = Some x -> x ∉ [60; 62]) -> parseredirs fuel c s = Ok c (skip_white s) [].
Proof.
  intros Hh. assert (E : match skip_white s with c :: _ => bool_decide (c ∈ [60; 62]) | [] => false end = false).
  { destruct (skip_white s) as [|x s']; [done|]. apply bool_decide_eq_false_2, Hh. done. }
  destruct fuel; cbn [parseredirs]; rewrite run_peek, E; done.
Qed.

Lemma run_redirs rl : forall fuel s c rest,
  redirs_ok rl -> skip_white s = skip_white (pr_redirs rl ++ rest) -> word_end rest ->
  (forall x, head (skip_white rest) = Some x -> x ∉ [60; 62]) -> (length rl <= fuel)%nat ->
  exists toks, parseredirs fuel c s = Ok (redirs c toks) (skip_white rest) [] /\ Forall2 redir_tok toks rl.
Proof.
  induction rl as [|[how f] rl IH]; intros fuel s c rest Hok Es He Hn Hf; cbn [length] in Hf.
  - exists []. split; [|constructor]. cbn in Es. rewrite parseredirs_none, Es; [done|]. by rewrite Es.
  - apply Forall_cons in Hok as [[Hh Hw] Hok]. cbn [fst snd] in Hh, Hw. destruct fuel as [|fuel]; [lia|]. cbn [parseredirs].
    set (op := how_op how). assert (Hoc : op = 60 \/ op = 62) by (unfold op; destruct Hh as [-> | ->]; [by left|by right]).
    assert (Hop : skip_white s = op :: 32 :: f ++ pr_redirs rl ++ rest).
    { rewrite Es. unfold pr_redirs. cbn [fmap list_fmap concat pr_redir fst snd app]. rewrite <- !app_assoc.
      rewrite skip_white_32. apply skip_white_op. unfold symbols. set_solver. }
    rewrite run_peek, Hop. rewrite bool_decide_eq_true_2 by (set_solver). cbn [negb].
    destruct (run_gettoken_op op (32 :: f ++ pr_redirs rl ++ rest) (op :: 32 :: f ++ pr_redirs rl ++ rest)
      (fun '(tok, _) => let* (t, file) := gettoken in if negb (t =? 97) then panic "missing file for redirection"
         else parseredirs fuel (redir c tok file))) as [t1 ->].
    { destruct Hoc as [-> | ->]; [left; set_solver|by right]. }
    { by rewrite <- Hop, skip_white_idem, Hop. }
    destruct (run_gettoken_word f (pr_redirs rl ++ rest) (skip_white (32 :: f ++ pr_redirs rl ++ rest))
      (fun '(t, file) => if negb (t =? 97) then panic "missing file for redirection"
         else parseredirs fuel (redir c op file))) as (t2 & E2 & ->);
      [done|by apply word_end_redirs|rewrite skip_white_idem, skip_white_32; by apply skip_white_word|]. cbn [Z.eqb negb].
    destruct (IH fuel (skip_white (pr_redirs rl ++ rest)) (redir c op t2) rest) as (toks & Hp & Hf2); try done;
      [by rewrite skip_white_idem|lia|].
    exists ((op, t2) :: toks). split; [exact Hp|]. by constructor.
Qed.

Abbreviation F_exec := [124; 41; 38; 59].

Lemma follows_no_redir toks rest :
  follows toks rest -> 60 ∉ toks -> 62 ∉ toks -> forall x, head (skip_white rest) = Some x -> x ∉ [60; 62].
Proof. unfold follows. destruct (skip_white rest); [done|]. intros Hc H1 H2 x [= <-]. set_solver. Qed.

Lemma word_ok_head w rest : word_ok w -> exists c, head (w ++ rest) = Some c /\ c ∉ symbols.
Proof.
  intros [Hne Hw]. destruct Hw as [|c w Hc Hw]; [done|]. exists c. split; [done|]. by apply word_symbol.
Qed.

Lemma skip_words w ws rest : word_ok w -> skip_white (pr_words (w :: ws) ++ rest) = w ++ pr_words ws ++ rest.
Proof.
  intros Hw. unfold pr_words. cbn [fmap list_fmap concat app]. rewrite <- app_assoc. cbn [app]. rewrite skip_white_32.
  by apply skip_white_word.
Qed.

(** [gettoken] at the end. *)
Lemma run_gettoken_eof {A} s (k : Z * token -> P A) :
  skip_white s = [] -> bind gettoken k s = k (0, Token [] []) [].
Proof. intros Es. unfold gettoken, bind, get, modify. cbn. rewrite Es. cbn. by destruct (k _ _). Qed.

(** The end of the arguments. *)
Lemma parseargs_stop fuel argv c s :
  (0 < fuel)%nat -> follows F_exec s -> parseargs fuel argv c s = Ok (set_args argv c) (skip_white s) [].
Proof.
  intros Hf Hs. destruct fuel as [|fuel]; [lia|]. unfold follows in Hs. cbn [parseargs]. rewrite run_peek.
  destruct (skip_white s) as [|x s'] eqn:E.
  - rewrite run_gettoken_eof; [done|done].
  - by rewrite bool_decide_eq_true_2.
Qed.

(** One argument. *)
Lemma parseargs_word fuel argv c w rest s :
  word_ok w -> word_end rest -> skip_white s = w ++ rest -> (S (length argv) < MAXARGS)%nat ->
  exists t, word t = w /\
    parseargs (S fuel) argv c s = bind (parseredirs fuel c) (parseargs fuel (argv ++ [t])) (skip_white rest).
Proof.
  intros Hw He Es Hl. cbn [parseargs]. rewrite run_peek, Es. destruct (word_ok_head w rest Hw) as (x & Hx & Hxs).
  assert (Hstop : match w ++ rest with x :: _ => bool_decide (x ∈ F_exec) | [] => false end = false).
  { destruct (w ++ rest); [done|]. injection Hx as ->. apply bool_decide_eq_false_2. unfold symbols in Hxs. set_solver. }
  rewrite Hstop.
  destruct (run_gettoken_word w rest (w ++ rest) (fun '(tok, t) =>
    if tok =? 0 then ret (set_args argv c) else if negb (tok =? 97) then panic "syntax" else
    if (MAXARGS <=? length (argv ++ [t]))%nat then panic "too many args" else
    let* c := parseredirs fuel c in parseargs fuel (argv ++ [t]) c)) as (t & Et & ->);
    [done|done|by apply skip_white_word|]. cbn [Z.eqb negb]. exists t. split; [done|].
  rewrite (proj2 (Nat.leb_gt MAXARGS _)); [done|]. rewrite length_app. cbn. lia.
Qed.

Lemma run_args ws : forall fuel s argv c rl rest,
  Forall word_ok ws -> redirs_ok rl -> ws <> [] \/ rl = [] ->
  skip_white s = skip_white (pr_words ws ++ pr_redirs rl ++ rest) -> word_end rest -> follows F_exec rest ->
  (length argv + length ws < MAXARGS)%nat -> (length ws + length rl < fuel)%nat ->
  exists targs toks, parseargs fuel argv c s = Ok (set_args (argv ++ targs) (redirs c toks)) (skip_white rest) [] /\
    word <$> targs = ws /\ Forall2 redir_tok toks rl.
Proof.
  induction ws as [|w ws IH]; intros fuel s argv c rl rest Hws Hrl Hne Es He Hfo Hl Hf; cbn [length] in *.
  - destruct Hne as [?| ->]; [done|]. exists [], []. cbn in Es. rewrite app_nil_r. split_and!; [|done|constructor].
    rewrite parseargs_stop, Es; [done|lia|]. unfold follows in *. by rewrite Es.
  - apply Forall_cons in Hws as [Hw Hws]. rewrite skip_words in Es by done. destruct fuel as [|fuel]; [lia|].
    set (tl := pr_words ws ++ pr_redirs rl ++ rest) in *.
    assert (Htl : word_end tl) by (apply word_end_words; by apply word_end_redirs).
    destruct (parseargs_word fuel argv c w tl s) as (t & Et & ->); [done|done|done|lia|].
    pose proof (follows_no_redir _ _ Hfo ltac:(set_solver) ltac:(set_solver)) as Hnr.
    destruct ws as [|w2 ws].
    + destruct (run_redirs rl fuel (skip_white tl) c rest) as (toks & Hp & Hf2); try done; [by rewrite skip_white_idem|lia|].
      exists [t], toks. unfold bind. rewrite Hp. cbn [after]. rewrite parseargs_stop, skip_white_idem.
      * split_and!; [done|cbn; by f_equal|done].
      * lia.
      * unfold follows. by rewrite skip_white_idem.
    + assert (Hsk : skip_white tl = w2 ++ pr_words ws ++ pr_redirs rl ++ rest).
      { apply skip_words. by apply Forall_cons in Hws as [? _]. }
      unfold bind. rewrite parseredirs_none.
      2:{ rewrite skip_white_idem, Hsk. intros x Hx. apply Forall_cons in Hws as [Hw2 _].
          destruct (word_ok_head w2 (pr_words ws ++ pr_redirs rl ++ rest) Hw2) as (x' & Hx' & Hs). unfold symbols in Hs.
          assert (x' = x) by congruence. set_solver. }
      destruct (IH fuel (skip_white (skip_white tl)) (argv ++ [t]) c rl rest) as (targs & toks & Hp & Hw2 & Hf2);
        try done; [by left|by rewrite !skip_white_idem|rewrite length_app; cbn [length] in *; lia|cbn [length] in *; lia|].
      rewrite Hp. exists (t :: targs), toks. rewrite <- app_assoc. split_and!; [done| |done]. cbn. by rewrite Et, Hw2.
Qed.

(** ** Levels of the grammar *)

(** [m] reads a command with tree [a] and stops at [rest]. *)
Definition reads (m : P cmd) (s : list Z) (a : acmd) (rest : list Z) : Prop :=
  exists c, m s = Ok c (skip_white rest) [] /\ resolve c = a.

Lemma reads_bind m (k : cmd -> P cmd) s a rest a' rest' :
  reads m s a rest -> (forall c, resolve c = a -> reads (k c) (skip_white rest) a' rest') ->
  reads (bind m k) s a' rest'.
Proof.
  intros (c & E & Hc) Hk. destruct (Hk c Hc) as (c' & E' & Hc'). exists c'. split; [|done].
  unfold bind. by rewrite E, E'.
Qed.

Definition RE (c : acmd) : Prop := forall fuel s rl rest,
  redirs_ok rl -> skip_white s = skip_white (pr Exec c ++ pr_redirs rl ++ rest) -> word_end rest ->
  follows F_exec rest -> (4 * length (pr Exec c ++ pr_redirs rl) + 2 <= fuel)%nat ->
  reads (parseexec fuel) s (foldl wrap c rl) rest.
Definition RP (c : acmd) : Prop := forall fuel s rest,
  skip_white s = skip_white (pr Pipe c ++ rest) -> word_end rest -> follows [41; 38; 59] rest ->
  (4 * length (pr Pipe c) + 3 <= fuel)%nat -> reads (parsepipe fuel) s c rest.

(** [n] ampersands. *)
Definition amps (n : nat) : list Z := concat (replicate n [32; 38]).
Definition backs (n : nat) (c : acmd) : acmd := Nat.iter n ABack c.
Definition RB (c : acmd) : Prop := forall fuel s n rest,
  skip_white s = skip_white (pr Back c ++ amps n ++ rest) -> word_end rest -> follows [41; 59] rest ->
  (4 * length (pr Back c) + n + 3 <= fuel)%nat ->
  reads (let* c := parsepipe fuel in parsebacks fuel c) s (backs n c) rest.
Definition RL (c : acmd) : Prop := forall fuel s rest,
  skip_white s = skip_white (pr Line c ++ rest) -> word_end rest -> follows [41] rest ->
  (4 * length (pr Line c) + 4 <= fuel)%nat -> reads (parseline fuel) s c rest.

Lemma pr_words_length ws : Forall word_ok ws -> (length ws <= length (pr_words ws))%nat.
Proof. induction 1 as [|w ws Hw Hws IH]; [done|]. unfold pr_words in *. cbn. rewrite length_app. lia. Qed.
Lemma pr_redirs_length rl : (length rl <= length (pr_redirs rl))%nat.
Proof. induction rl as [|r rl IH]; [done|]. unfold pr_redirs in *. cbn. rewrite length_app. lia. Qed.

(** At something that is not a block. *)
Lemma exec_no_block fuel s :
  (forall x, head (skip_white s) = Some x -> x <> 40) ->
  parseexec (S fuel) s = bind (parseredirs fuel (EXEC [])) (parseargs fuel []) (skip_white s).
Proof.
  intros Hh. cbn [parseexec]. rewrite run_peek. destruct (skip_white s) as [|x s']; [done|].
  rewrite bool_decide_eq_false_2; [done|]. specialize (Hh x eq_refl). set_solver.
Qed.

Lemma head_redirs rl rest x :
  follows F_exec rest -> head (skip_white (pr_redirs rl ++ rest)) = Some x -> x <> 40.
Proof.
  intros Hfo. destruct rl as [|[how f] rl].
  - unfold follows in Hfo. cbn. destruct (skip_white rest); [done|]. intros [= <-]. set_solver.
  - unfold pr_redirs. cbn [fmap list_fmap concat pr_redir app]. unfold how_op.
    destruct (_ =? 1); by intros [= <-].
Qed.

Lemma RE_exec argv : acmd_ok (AExec argv) -> RE (AExec argv).
Proof.
  intros [Hws Hlen] fuel s rl rest Hrl Es He Hfo Hf. cbn [pr] in *. rewrite length_app in Hf.
  pose proof (pr_words_length argv Hws). pose proof (pr_redirs_length rl). destruct fuel as [|fuel]; [lia|].
  pose proof (follows_no_redir _ _ Hfo ltac:(set_solver) ltac:(set_solver)) as Hnr.
  unfold reads. destruct argv as [|w argv].
  - cbn [pr_words fmap list_fmap concat app] in *. rewrite exec_no_block by (intros x; rewrite Es; by apply head_redirs).
    destruct (run_redirs rl fuel (skip_white s) (EXEC []) rest) as (toks & Hp & Hf2); try done;
      [by rewrite skip_white_idem|lia|]. exists (redirs (EXEC []) toks). split.
    + unfold bind. rewrite Hp. rewrite parseargs_stop, skip_white_idem, set_args_redirs; [done|lia|].
      unfold follows. by rewrite skip_white_idem.
    + by rewrite (resolve_redirs toks rl).
  - pose proof Hws as [Hw _]%Forall_cons. rewrite skip_words in Es by done.
    destruct (word_ok_head w (pr_words argv ++ pr_redirs rl ++ rest) Hw) as (x & Hx & Hxs). rewrite <- Es in Hx.
    rewrite exec_no_block by (intros y Hy; unfold symbols in Hxs; assert (y = x) by congruence; set_solver).
    unfold bind. rewrite parseredirs_none, skip_white_idem.
    2:{ rewrite skip_white_idem. intros y Hy. unfold symbols in Hxs. assert (y = x) by congruence. set_solver. }
    destruct (run_args (w :: argv) fuel (skip_white s) [] (EXEC []) rl rest) as (targs & toks & Hp & Hw2 & Hf2); try done;
      [by left|by rewrite skip_white_idem, skip_words|lia|].
    exists (set_args targs (redirs (EXEC []) toks)). rewrite Hp. split; [done|]. rewrite set_args_redirs.
    rewrite (resolve_redirs toks rl) by done. cbn. by rewrite Hw2.
Qed.

Lemma RE_redir c how f : RE c -> how_ok how -> word_ok f -> RE (ARedir c how f).
Proof.
  intros Hc Hh Hf fuel s rl rest Hrl Es He Hfo Hl. cbn [pr] in *.
  apply (Hc fuel s ((how, f) :: rl) rest); [by constructor| |done|done|].
  - rewrite Es. unfold pr_redirs. cbn [fmap list_fmap concat]. by rewrite <- !app_assoc.
  - unfold pr_redirs in *. cbn [fmap list_fmap concat]. by rewrite <- app_assoc in Hl.
Qed.

Lemma bind_Ok {A B} (m : P A) (k : A -> P B) a s s' : m s = Ok a s' [] -> bind m k s = k a s'.
Proof. intros E. unfold bind. rewrite E. apply after_nil. Qed.

(** A [peek] at what comes next. *)
Lemma peek_no {A} toks x (m m' : P A) rest :
  follows toks rest -> x ∉ toks ->
  bind (peek [x]) (fun b => if b then m else m') (skip_white rest) = m' (skip_white rest).
Proof.
  intros Hfo Hx. rewrite run_peek, skip_white_idem. unfold follows in Hfo. destruct (skip_white rest); [done|].
  rewrite bool_decide_eq_false_2; [done|]. set_solver.
Qed.
Lemma peek_yes {A} x (k : bool -> P A) s rest :
  skip_white s = x :: rest -> bind (peek [x]) k s = k true (x :: rest).
Proof. intros Es. by rewrite run_peek, Es, bool_decide_eq_true_2 by set_solver. Qed.

(** The operator just seen. *)
Lemma skip_op {A} x rest (m : P A) :
  x ∈ [124; 40; 41; 59; 38; 60] -> bind gettoken (fun _ => m) (x :: rest) = m (skip_white rest).
Proof.
  intros Hx. destruct (run_gettoken_op x rest (x :: rest) (fun _ => m)) as [t ->]; [by left| |done].
  apply skip_white_op. unfold symbols. set_solver.
Qed.

Lemma RP_exec c : RE c -> pr Pipe c = pr Exec c -> RP c.
Proof.
  intros Hc E fuel s rest Es He Hfo Hf. rewrite E in *. destruct fuel as [|fuel]; [lia|]. cbn [parsepipe].
  eapply (reads_bind _ _ s c rest).
  - apply (Hc fuel s [] rest); try done; [constructor| |rewrite app_nil_r; lia].
    unfold follows in *. destruct (skip_white rest); [done|]. set_solver.
  - intros c' Hc'. exists c'. split; [|done]. by rewrite (peek_no [41; 38; 59]) by (done || set_solver).
Qed.

Lemma follows_op toks x rest : x ∈ symbols -> x ∈ toks -> follows toks (32 :: x :: rest).
Proof. intros Hs Hx. unfold follows. rewrite skip_white_32, skip_white_op by done. done. Qed.

Lemma run_backs n : forall fuel s c rest,
  skip_white s = skip_white (amps n ++ rest) -> follows [41; 59] rest -> (n <= fuel)%nat ->
  reads (parsebacks fuel c) s (backs n (resolve c)) rest.
Proof.
  induction n as [|n IH]; intros fuel s c rest Es Hfo Hf.
  - exists c. split; [|done]. cbn in Es. unfold follows in Hfo.
    destruct fuel; cbn [parsebacks]; rewrite run_peek, Es; (destruct (skip_white rest); [done|]);
      (rewrite bool_decide_eq_false_2; [done|set_solver]).
  - destruct fuel as [|fuel]; [lia|]. cbn [parsebacks]. unfold reads. rewrite (peek_yes 38 _ s (amps n ++ rest)).
    + cbn [negb]. rewrite skip_op by set_solver.
      destruct (IH fuel (skip_white (amps n ++ rest)) (BACK c) rest) as (c' & E & Hc'); [by rewrite skip_white_idem|done|lia|].
      exists c'. split; [done|]. rewrite Hc'. unfold backs. cbn. by rewrite <- Nat.iter_succ_r.
    + rewrite Es. unfold amps. cbn. done.
Qed.

Lemma RB_pipe c : RP c -> pr Back c = pr Pipe c -> RB c.
Proof.
  intros Hc E fuel s n rest Es He Hfo Hf. rewrite E in *. eapply (reads_bind _ _ s c (amps n ++ rest)).
  - apply Hc; [done| | |lia]; destruct n as [|n]; try done; [apply word_end_32| |].
    + unfold follows in *. cbn. destruct (skip_white rest); [done|]. set_solver.
    + apply follows_op; [unfold symbols|]; set_solver.
  - intros c' <-. apply run_backs; [by rewrite skip_white_idem|done|lia].
Qed.

Lemma RL_back c : RB c -> pr Line c = pr Back c -> RL c.
Proof.
  intros Hc E fuel s rest Es He Hfo Hf. rewrite E in *. destruct fuel as [|fuel]; [lia|].
  destruct (Hc fuel s 0%nat rest) as (c' & Ec & Hc'); [done|done| |lia|].
  { unfold follows in *. destruct (skip_white rest); [done|]. set_solver. }
  exists c'. split; [|done]. cbn [parseline]. rewrite <- run_bind, (bind_Ok _ _ _ _ _ Ec).
  by rewrite (peek_no [41]) by (done || set_solver).
Qed.

Lemma RE_block c : RL c -> pr Exec c = paren (pr Line c) -> RE c.
Proof.
  intros Hc E fuel s rl rest Hrl Es He Hfo Hf. rewrite E in *. unfold paren in *. cbn [app] in *.
  rewrite <- app_assoc in Es. cbn [app length] in *. rewrite !length_app in Hf. cbn [length] in Hf.
  pose proof (pr_redirs_length rl). destruct fuel as [|[|fuel]]; [lia..|].
  set (tl := 41 :: pr_redirs rl ++ rest) in *.
  rewrite skip_white_op in Es by (unfold symbols; set_solver). unfold reads. cbn [parseexec].
  rewrite (peek_yes 40 _ s (pr Line c ++ tl)) by done. cbn [parseblock].
  rewrite (peek_yes 40 _ _ (pr Line c ++ tl)) by (by apply skip_white_op; unfold symbols; set_solver). cbn [negb].
  rewrite skip_op by set_solver.
  destruct (Hc fuel (skip_white (pr Line c ++ tl)) tl) as (c' & Ec & Hc').
  { by rewrite skip_white_idem. }
  { intros ? [= <-] [_ Hx]. done. }
  { unfold follows, tl. rewrite skip_white_op by (unfold symbols; set_solver). set_solver. }
  { lia. }
  rewrite (bind_Ok _ _ _ _ _ Ec), (peek_yes 41 _ _ (pr_redirs rl ++ rest)).
  2:{ rewrite skip_white_idem. apply skip_white_op. unfold symbols. set_solver. }
  cbn [negb]. rewrite skip_op by set_solver.
  destruct (run_redirs rl fuel (skip_white (pr_redirs rl ++ rest)) c' rest) as (toks & Hp & Hf2); try done.
  { by rewrite skip_white_idem. }
  { by apply (follows_no_redir F_exec); [|set_solver..]. }
  { lia. }
  rewrite Hp. exists (redirs c' toks). split; [done|]. by rewrite (resolve_redirs toks rl), Hc'.
Qed.

Lemma RP_pipe l r : RE l -> RP r -> RP (APipe l r).
Proof.
  intros Hl Hr fuel s rest Es He Hfo Hf. cbn [pr] in *. rewrite <- app_assoc in Es. cbn [app] in Es.
  rewrite !length_app in Hf. cbn [length] in Hf. destruct fuel as [|fuel]; [lia|]. cbn [parsepipe].
  eapply (reads_bind _ _ s l (32 :: 124 :: pr Pipe r ++ rest)).
  - apply (Hl fuel s [] (32 :: 124 :: pr Pipe r ++ rest)); try done;
      [constructor|apply word_end_32|apply follows_op; [unfold symbols|]; set_solver|rewrite app_nil_r; lia].
  - intros c Hc. unfold reads. rewrite (peek_yes 124 _ _ (pr Pipe r ++ rest)) by done. rewrite skip_op by set_solver.
    destruct (Hr fuel (skip_white (pr Pipe r ++ rest)) rest) as (c' & Ec & Hc'); [by rewrite skip_white_idem|done|done|lia|].
    rewrite (bind_Ok _ _ _ _ _ Ec). exists (PIPE c c'). split; [done|]. cbn. by rewrite Hc, Hc'.
Qed.

Lemma RL_list l r : RB l -> RL r -> RL (AList l r).
Proof.
  intros Hl Hr fuel s rest Es He Hfo Hf. cbn [pr] in *. rewrite <- app_assoc in Es. cbn [app] in Es.
  rewrite !length_app in Hf. cbn [length] in Hf. destruct fuel as [|fuel]; [lia|].
  destruct (Hl fuel s 0%nat (32 :: 59 :: pr Line r ++ rest)) as (c & Ec & Hc);
    [done|apply word_end_32|apply follows_op; [unfold symbols|]; set_solver|lia|].
  unfold reads. cbn [parseline]. rewrite <- run_bind, (bind_Ok _ _ _ _ _ Ec).
  rewrite (peek_yes 59 _ _ (pr Line r ++ rest)) by done. rewrite skip_op by set_solver.
  destruct (Hr fuel (skip_white (pr Line r ++ rest)) rest) as (c' & Ec' & Hc'); [by rewrite skip_white_idem|done|done|lia|].
  rewrite (bind_Ok _ _ _ _ _ Ec'). exists (LIST c c'). split; [done|]. cbn. cbn in Hc. by rewrite Hc, Hc'.
Qed.

Lemma RB_back c : RB c -> RB (ABack c).
Proof.
  intros Hc fuel s n rest Es He Hfo Hf. cbn [pr] in *. rewrite <- app_assoc in Es. cbn [app] in Es.
  rewrite length_app in Hf. cbn [length] in Hf.
  replace (backs n (ABack c)) with (backs (S n) c) by (unfold backs; apply Nat.iter_succ_r).
  apply Hc; [exact Es|done|done|lia].
Qed.

Lemma levels c : acmd_ok c -> RE c /\ RP c /\ RB c /\ RL c.
Proof.
  assert (Hup : forall c, RE c -> pr Pipe c = pr Exec c -> pr Back c = pr Pipe c -> pr Line c = pr Back c ->
            RE c /\ RP c /\ RB c /\ RL c).
  { intros x HE E1 E2 E3. assert (HP : RP x) by (by apply RP_exec). assert (HB : RB x) by (by apply RB_pipe).
    split_and!; try done. by apply RL_back. }
  induction c as [argv|c IH how f|l IHl r IHr|l IHl r IHr|c IH]; intros Hok.
  - apply Hup; [by apply RE_exec|done..].
  - destruct Hok as (Hc & Hh & Hf). apply Hup; [apply RE_redir; [by apply IH|done..]|done..].
  - destruct Hok as [Hl Hr]. assert (HP : RP (APipe l r)) by (apply RP_pipe; [by apply IHl|by apply IHr]).
    assert (HB : RB (APipe l r)) by (by apply RB_pipe). assert (HL : RL (APipe l r)) by (by apply RL_back).
    split_and!; try done. by apply RE_block.
  - destruct Hok as [Hl Hr]. assert (HL : RL (AList l r)) by (apply RL_list; [by apply IHl|by apply IHr]).
    assert (HE : RE (AList l r)) by (by apply RE_block). assert (HP : RP (AList l r)) by (by apply RP_exec).
    split_and!; try done. by apply RB_pipe.
  - assert (HB : RB (ABack c)) by (apply RB_back; by apply IH). assert (HL : RL (ABack c)) by (by apply RL_back).
    assert (HE : RE (ABack c)) by (by apply RE_block). split_and!; try done. by apply RP_exec.
Qed.

(** The same with blanks behind the command, as the newline of a line read. *)
Lemma parse_printed c nl :
  acmd_ok c -> Forall (fun x => is_white x = true) nl ->
  exists c', parsecmd (print_cmd c ++ nl) = Ok (c', nulterminate (print_cmd c ++ nl) c' ((print_cmd c ++ nl) ++ [0])) [] [] /\ resolve c' = c.
Proof.
  intros Hok Hnl. destruct (levels c Hok) as (_ & _ & _ & HL).
  assert (Hw : skip_white nl = []) by (induction Hnl as [|x l Hx Hl IH]; [done|]; cbn; by rewrite Hx).
  assert (Hend : word_end nl) by (destruct Hnl as [|x l Hx Hl]; [done|]; intros y [= <-] [Hy _]; congruence).
  destruct (HL (parse_fuel (print_cmd c ++ nl)) (print_cmd c ++ nl) nl) as (c' & E & Hc').
  - done.
  - done.
  - unfold follows. by rewrite Hw.
  - unfold parse_fuel, print_cmd. rewrite length_app. lia.
  - exists c'. split; [|done]. unfold parsecmd. rewrite run_get, (bind_Ok _ _ _ _ _ E), run_peek.
    rewrite Hw. cbn [skip_white]. rewrite run_get. done.
Qed.

(** C19: the parser inverts the printer: every command, with words that hold no
    blanks or operators and at most nine arguments each, is read back from its
    printed form, whatever the nesting of pipes, lists, background commands,
    blocks and redirections. *)
Theorem parse_print c :
  acmd_ok c -> exists c' buf, parsecmd (print_cmd c) = Ok (c', buf) [] [] /\ resolve c' = c.
Proof. intros Hok. destruct (parse_printed c [] Hok) as (c' & E & Hc'); [done|]. rewrite app_nil_r in E. eauto. Qed.
