(* ===== verification/ShRun.v ===== *)
(** * The shell running its commands

    [runcmd], [fork1], [panic], [getcmd] and [main] of [user/sh.c], and [gets]
    of [user/ulib.c].  A process is the tree of the system calls it makes,
    with a branch for every result the code looks at; [fork] returns twice,
    with 0 in the child. *)

From S2P Require Import Prelude CString Sh.

Inductive prog :=
| DoExit
| DoSpin                                                  (* out of fuel *)
| DoExec (path : list Z) (argv : list (list Z)) (k : prog)  (* [k]: exec failed *)
| DoOpen (path : list Z) (mode : Z) (k : Z -> prog)
| DoClose (fd : Z) (k : prog)
| DoDup (fd : Z) (k : prog)
| DoPipe (k : option (Z * Z) -> prog)                     (* [None]: pipe failed *)
| DoFork (k : Z -> prog)
| DoWait (k : prog)
| DoChdir (path : list Z) (k : Z -> prog)
| DoWrite (fd : Z) (s : list Z) (k : prog)                (* fprintf *)
| DoRead (k : option Z -> prog).                          (* one byte of descriptor 0 *)

Definition sh_panic (msg : string) : prog := DoWrite 2 (str msg ++ [10]) DoExit.

Definition fork1 (k : Z -> prog) : prog :=
  DoFork (fun pid => if pid =? -1 then sh_panic "fork" else k pid).

(** A string of the command, at its place in the buffer of the line. *)
Definition argument (s buf : list Z) (t : token) : list Z := cstr (drop (index s (t_start t)) buf).

Definition binpath (name : list Z) : list Z := str "/bin/" ++ cstr (safestrcpy name 14).

(** [s] is the line as read, [buf] its buffer after [nulterminate]. *)
Fixpoint runcmd (s buf : list Z) (c : cmd) : prog :=
  match c with
  | EXEC argv =>
      match argv with
      | [] => DoExit
      | arg0 :: _ =>
          let path := binpath (argument s buf arg0) in
          DoExec path (argument s buf <$> argv)
            (DoWrite 2 (str "exec " ++ path ++ str " failed" ++ [10]) DoExit)
      end
  | REDIR c file mode fd =>
      let file := argument s buf file in
      DoClose fd (DoOpen file mode (fun r =>
        if r <? 0 then DoWrite 2 (str "open " ++ file ++ str " failed" ++ [10]) DoExit
        else runcmd s buf c))
  | LIST lcmd rcmd =>
      fork1 (fun pid => if pid =? 0 then runcmd s buf lcmd else DoWait (runcmd s buf rcmd))
  | PIPE lcmd rcmd =>
      DoPipe (fun p =>
        match p with
        | None => sh_panic "pipe"
        | Some (p0, p1) =>
            fork1 (fun pid => if pid =? 0
              then DoClose 1 (DoDup p1 (DoClose p0 (DoClose p1 (runcmd s buf lcmd))))
              else fork1 (fun pid => if pid =? 0
                then DoClose 0 (DoDup p0 (DoClose p0 (DoClose p1 (runcmd s buf rcmd))))
                else DoClose p0 (DoClose p1 (DoWait (DoWait DoExit)))))
        end)
  | BACK c => fork1 (fun pid => if pid =? 0 then runcmd s buf c else DoExit)
  end.

(** The bytes [gets] stores before the NUL. *)
Fixpoint gets_loop (room : nat) (buf : list Z) (k : list Z -> prog) : prog :=
  match room with
  | O => k buf
  | S room => DoRead (fun r =>
      match r with
      | None => k buf
      | Some c => if (c =? 10) || (c =? 13) then k (buf ++ [c]) else gets_loop room (buf ++ [c]) k
      end)
  end.
Definition gets (max : nat) (k : list Z -> prog) : prog := gets_loop (max - 1) [] k.

(** The buffer is cleared before; [None] at the end of the input. *)
Definition getcmd (nbuf : nat) (k : option (list Z) -> prog) : prog :=
  DoWrite 2 (str "$ ") (gets nbuf (fun got =>
    let buf := got ++ replicate (nbuf - length got) 0 in
    if chr buf =? 0 then k None else k (Some buf))).

(** The child's [runcmd(parsecmd(buf))]. *)
Definition runline (buf : list Z) : prog :=
  let s := cstr buf in
  match parsecmd s with
  | Ok (c, buf) _ _ => runcmd s buf c
  | Panic msg => sh_panic msg
  | _ => DoSpin
  end.

Definition is_cd (buf : list Z) : bool :=
  (chr buf =? 99) && (chr (drop 1 buf) =? 100) && (chr (drop 2 buf) =? 32).

(** [turns] bounds the number of lines read. *)
Fixpoint sh_main (turns : nat) : prog :=
  match turns with
  | O => DoSpin
  | S turns => getcmd 100 (fun line =>
      match line with
      | None => DoExit
      | Some buf =>
          if is_cd buf then
            let buf := <[Z.to_nat (strlen buf - 1) := 0]> buf in
            let dir := cstr (drop 3 buf) in
            DoChdir dir (fun r =>
              if r <? 0 then DoWrite 2 (str "cannot cd " ++ dir ++ [10]) (sh_main turns)
              else sh_main turns)
          else
            fork1 (fun pid => if pid =? 0 then runline buf else DoWait (sh_main turns))
      end)
  end.
