(* ===== verification/ShRunSpec.v ===== *)
(** * What the shell starts, in any interleaving

    Processes as [ShRun] describes them, run by a kernel that interleaves
    their system calls in any order.  For a script of printed commands, every
    program the shell starts has the arguments and exactly the descriptors
    the command asks for, it starts only after the commands before it in the
    list have ended, and every schedule ends with all of them started and
    all processes gone. *)

From S2P Require Import Prelude Triple CString Sh ShSpec ShRound ShRun.

(** ** Processes and descriptors *)

(** A process is named by the path of forks to it, the last fork first. *)
Abbreviation name := (list nat).

(** What a descriptor refers to; a pipe is named by the process that made it
    and the number of its call. *)
Inductive fdesc :=
| Inherited (n : nat)
| AFile (path : list Z) (mode : Z)
| PipeRd (p : name * nat)
| PipeWr (p : name * nat).
Abbreviation table := (list (option fdesc)).

(** The lowest free descriptor. *)
Fixpoint lowest_fd (t : table) : option nat :=
  match t with
  | [] => None
  | None :: _ => Some O
  | Some _ :: t => S <$> lowest_fd t
  end.
Definition fd_open (t : table) (d : fdesc) : option (nat * table) :=
  (fun i => (i, <[i := Some d]> t)) <$> lowest_fd t.
Definition fd_close (t : table) (fd : Z) : table := if fd <? 0 then t else <[Z.to_nat fd := None]> t.
Definition fd_dup (t : table) (fd : Z) : table :=
  match (if fd <? 0 then None else t !! Z.to_nat fd) with
  | Some (Some d) => match fd_open t d with Some (_, t') => t' | None => t end
  | _ => t
  end.
Definition fd_pipe (t : table) (p : name * nat) : option (Z * Z * table) :=
  match fd_open t (PipeRd p) with
  | Some (r, t1) => match fd_open t1 (PipeWr p) with
                    | Some (w, t2) => Some (Z.of_nat r, Z.of_nat w, t2)
                    | None => None
                    end
  | None => None
  end.

(** What the kernel answers: whether a file can be opened, executed or made
    the current directory, whether the calls of a process to [pipe] and
    [fork] succeed, and the bytes a process reads from descriptor 0. *)
Record kern := Kern {
  k_open : list Z -> Z -> bool;
  k_exec : list Z -> bool;
  k_chdir : list Z -> bool;
  k_pipe : name -> nat -> bool;
  k_fork : name -> option positive;
  k_in : name -> list Z }.

(** A process: its descriptors, the number of its calls to [pipe] and [fork],
    its input, the children since it last had none, how many of these it has
    waited for, and the processes known to have ended. *)
Record ctx := Ctx {
  x_name : name;
  x_fds : table;
  x_next : nat;
  x_in : list Z;
  x_kids : list name;
  x_waits : nat;
  x_ended : list name }.

Definition set_fds (x : ctx) (t : table) : ctx :=
  Ctx (x_name x) t (x_next x) (x_in x) (x_kids x) (x_waits x) (x_ended x).
Definition set_in (x : ctx) (l : list Z) : ctx :=
  Ctx (x_name x) (x_fds x) (x_next x) l (x_kids x) (x_waits x) (x_ended x).
Definition bump (x : ctx) : ctx :=
  Ctx (x_name x) (x_fds x) (S (x_next x)) (x_in x) (x_kids x) (x_waits x) (x_ended x).
Definition child_name (x : ctx) : name := x_next x :: x_name x.
Definition child (K : kern) (x : ctx) : ctx :=
  Ctx (child_name x) (x_fds x) 0 (k_in K (child_name x)) [] 0 (x_ended x).
Definition parent (x : ctx) : ctx :=
  Ctx (x_name x) (x_fds x) (S (x_next x)) (x_in x) (x_kids x ++ [child_name x]) (x_waits x) (x_ended x).

(** A wait for a child; after the last one all children have ended. *)
Definition reaped (x : ctx) : ctx :=
  match x_kids x with
  | [] => x
  | kids => if (S (x_waits x) =? length kids)%nat
            then Ctx (x_name x) (x_fds x) (x_next x) (x_in x) [] 0 (kids ++ x_ended x)
            else Ctx (x_name x) (x_fds x) (x_next x) (x_in x) kids (S (x_waits x)) (x_ended x)
  end.

(** A program started: by which process, with which path, arguments and
    descriptors, and which processes had ended before. *)
Record launch := Start {
  st_by : name;
  st_path : list Z;
  st_argv : list (list Z);
  st_fds : table;
  st_after : list name }.

Inductive event := Started (s : launch) | Exited (n : name) | Other (n : name) | Spins.

Inductive code := Run (p : prog) | Ran | Gone.
Record process := Proc { p_ctx : ctx; p_code : code }.
Abbreviation p_name p := (x_name (p_ctx p)).

Definition do_open (K : kern) (x : ctx) (path : list Z) (mode : Z) : Z * ctx :=
  if k_open K path mode then
    match fd_open (x_fds x) (AFile path mode) with
    | Some (fd, t) => (Z.of_nat fd, set_fds x t)
    | None => (-1, x)
    end
  else (-1, x).
Definition do_pipe (K : kern) (x : ctx) : option (Z * Z) * ctx :=
  if k_pipe K (x_name x) (x_next x) then
    match fd_pipe (x_fds x) (x_name x, x_next x) with
    | Some (r, w, t) => (Some (r, w), bump (set_fds x t))
    | None => (None, bump x)
    end
  else (None, bump x).
Definition do_read (x : ctx) : option Z * ctx :=
  match x_in x with [] => (None, x) | c :: l => (Some c, set_in x l) end.
Definition do_chdir (K : kern) (path : list Z) : Z := if k_chdir K path then 0 else -1.
Definition started (x : ctx) (path : list Z) (argv : list (list Z)) : launch :=
  Start (x_name x) path argv (x_fds x) (x_ended x).

(** One call of a process, other than [wait]: the process after it, a new
    process, and what can be observed. *)
Definition advance (K : kern) (p : process) : option (process * list process * event) :=
  let x := p_ctx p in
  let other (x : ctx) (p : prog) := Some (Proc x (Run p), [], Other (x_name x)) in
  match p_code p with
  | Run DoExit => Some (Proc x Gone, [], Exited (x_name x))
  | Run DoSpin => None
  | Run (DoExec path argv k) =>
      Some (Proc x (if k_exec K path then Ran else Run k), [], Started (started x path argv))
  | Run (DoOpen path mode k) => let '(r, x) := do_open K x path mode in other x (k r)
  | Run (DoClose fd k) => other (set_fds x (fd_close (x_fds x) fd)) k
  | Run (DoDup fd k) => other (set_fds x (fd_dup (x_fds x) fd)) k
  | Run (DoPipe k) => let '(r, x) := do_pipe K x in other x (k r)
  | Run (DoFork k) =>
      match k_fork K (child_name x) with
      | None => other (bump x) (k (-1))
      | Some pid => Some (Proc (parent x) (Run (k (Z.pos pid))), [Proc (child K x) (Run (k 0))], Other (x_name x))
      end
  | Run (DoWait k) => None
  | Run (DoChdir path k) => other x (k (do_chdir K path))
  | Run (DoWrite fd s k) => other x k
  | Run (DoRead k) => let '(r, x) := do_read x in other x (k r)
  | Ran => Some (Proc x Gone, [], Exited (x_name x))
  | Gone => None
  end.

Definition child_of (n : name) (c : process) : Prop := match p_name c with [] => False | _ :: m => m = n end.
#[export] Instance child_of_dec n c : Decision (child_of n c).
Proof. unfold child_of. destruct (p_name c); apply _. Defined.

(** The processes in any order, and what was observed so far.  A program that
    was started ends at some time; [wait] takes a child that has ended. *)
Inductive shstep (K : kern) : list process * list event -> list process * list event -> Prop :=
| step_call pool p rest p' new ev tr :
    pool ≡ₚ p :: rest -> advance K p = Some (p', new, ev) ->
    shstep K (pool, tr) (p' :: new ++ rest, tr ++ [ev])
| step_wait pool x k c rest tr :
    pool ≡ₚ Proc x (Run (DoWait k)) :: c :: rest -> child_of (x_name x) c -> p_code c = Gone ->
    shstep K (pool, tr) (Proc (reaped x) (Run k) :: rest, tr ++ [Other (x_name x)])
| step_nochild pool x k rest tr :
    pool ≡ₚ Proc x (Run (DoWait k)) :: rest -> Forall (fun c => ~ child_of (x_name x) c) rest ->
    shstep K (pool, tr) (Proc x (Run k) :: rest, tr ++ [Other (x_name x)]).

(** ** What a process will do *)

(** The observations of a process and its descendants do not depend on the
    schedule, but for their order. *)
Fixpoint plan (K : kern) (p : prog) (x : ctx) : list event :=
  match p with
  | DoExit => [Exited (x_name x)]
  | DoSpin => [Spins]
  | DoExec path argv k =>
      Started (started x path argv) :: if k_exec K path then [Exited (x_name x)] else plan K k x
  | DoOpen path mode k => let '(r, x) := do_open K x path mode in Other (x_name x) :: plan K (k r) x
  | DoClose fd k => Other (x_name x) :: plan K k (set_fds x (fd_close (x_fds x) fd))
  | DoDup fd k => Other (x_name x) :: plan K k (set_fds x (fd_dup (x_fds x) fd))
  | DoPipe k => let '(r, x) := do_pipe K x in Other (x_name x) :: plan K (k r) x
  | DoFork k =>
      Other (x_name x) ::
      match k_fork K (child_name x) with
      | None => plan K (k (-1)) (bump x)
      | Some pid => plan K (k 0) (child K x) ++ plan K (k (Z.pos pid)) (parent x)
      end
  | DoWait k => Other (x_name x) :: plan K k (reaped x)
  | DoChdir path k => Other (x_name x) :: plan K (k (do_chdir K path)) x
  | DoWrite fd s k => Other (x_name x) :: plan K k x
  | DoRead k => let '(r, x) := do_read x in Other (x_name x) :: plan K (k r) x
  end.
Definition plan_of (K : kern) (p : process) : list event :=
  match p_code p with Run c => plan K c (p_ctx p) | Ran => [Exited (p_name p)] | Gone => [] end.
Definition plans (K : kern) (pool : list process) : list event := pool ≫= plan_of K.

Lemma advance_plan K p p' new ev :
  advance K p = Some (p', new, ev) -> plan_of K p ≡ₚ ev :: plan_of K p' ++ plans K new.
Proof.
  destruct p as [x c]. unfold advance, plan_of, plans. cbn. intros E.
  destruct c as [[]| |]; cbn; repeat case_match; simplify_eq/=; rewrite ?app_nil_r; try done.
  apply perm_skip. apply Permutation_app_comm.
Qed.

(** ** The children of a process *)

Definition names (pool : list process) : list name := x_name ∘ p_ctx <$> pool.
Definition kid (n m : name) : Prop := match m with [] => False | _ :: m => m = n end.
#[export] Instance kid_dec n m : Decision (kid n m).
Proof. unfold kid. destruct m; apply _. Defined.

(** The children on record are those in the pool [N] and those waited for,
    and the latter have ended. *)
Record kids_ok (N : list name) (tr : list event) (x : ctx) : Prop := {
  kids_count : (length (filter (kid (x_name x)) N) + x_waits x = length (x_kids x))%nat;
  kids_open : (x_waits x < length (x_kids x))%nat \/ x_kids x = [];
  kids_kid d : d ∈ x_kids x -> kid (x_name x) d;
  kids_ended d : d ∈ x_kids x -> d ∈ N \/ Exited d ∈ tr;
  kids_after d : d ∈ x_ended x -> Exited d ∈ tr;
  kids_fresh m i : m ∈ N -> (i :: x_name x) `suffix_of` m -> (i < x_next x)%nat }.

(** What a process has to satisfy in the pool [N]. *)
Definition proc_ok (N : list name) (tr : list event) (p : process) : Prop :=
  match p_code p with
  | Run _ => kids_ok N tr (p_ctx p)
  | Ran => True
  | Gone => Exited (p_name p) ∈ tr
  end.

Definition pool_ok (pool : list process) (tr : list event) : Prop :=
  NoDup (names pool) /\ Forall (proc_ok (names pool) tr) pool.

Lemma kids_ok_perm N N' tr tr' x : N ≡ₚ N' -> tr ⊆ tr' -> kids_ok N tr x -> kids_ok N' tr' x.
Proof.
  intros E Htr [A1 A2 A3 A4 A5 A6]. split.
  - by rewrite <- E.
  - done.
  - done.
  - intros d Hd. rewrite <- E. destruct (A4 d Hd); [by left|right; by apply Htr].
  - intros d Hd. by apply Htr, A5.
  - intros m i. rewrite <- E. apply A6.
Qed.

Lemma proc_ok_perm N N' tr tr' p : N ≡ₚ N' -> tr ⊆ tr' -> proc_ok N tr p -> proc_ok N' tr' p.
Proof. unfold proc_ok. destruct (p_code p); [by apply kids_ok_perm|done|]. intros _ Htr H. by apply Htr. Qed.

Lemma pool_ok_perm pool pool' tr : pool ≡ₚ pool' -> pool_ok pool tr -> pool_ok pool' tr.
Proof.
  intros E [H1 H2]. assert (En : names pool ≡ₚ names pool') by (unfold names; by rewrite E). split.
  - by rewrite <- En.
  - apply (Forall_impl (proc_ok (names pool) tr)); [by rewrite <- E|]. intros p. by apply proc_ok_perm.
Qed.

Lemma no_kids n N : (forall i, i :: n ∉ N) -> filter (kid n) N = [].
Proof.
  intros H. induction N as [|m N IH]; [done|]. rewrite filter_cons_False; [apply IH; set_solver|].
  destruct m as [|i m]; [by intros []|]. intros ->. apply (H i). by left.
Qed.

(** Calls that keep the children. *)
Definition same_kids (x x' : ctx) : Prop :=
  x_name x' = x_name x /\ (x_next x <= x_next x')%nat /\ x_kids x' = x_kids x /\ x_waits x' = x_waits x /\
  x_ended x' = x_ended x.

Lemma kids_ok_same N tr x x' : same_kids x x' -> kids_ok N tr x -> kids_ok N tr x'.
Proof.
  intros (E1 & E2 & E3 & E4 & E5) [A1 A2 A3 A4 A5 A6]. split; rewrite ?E1, ?E3, ?E4, ?E5; try done.
  intros m i Hm Hi. specialize (A6 m i Hm Hi). lia.
Qed.

(** A fork, seen by the parent, the child, and the others. *)
Lemma fork_parent_ok N tr x : kids_ok N tr x -> kids_ok (child_name x :: N) tr (parent x).
Proof.
  intros [A1 A2 A3 A4 A5 A6]. split; cbn -[filter].
  - rewrite filter_cons_True by done. rewrite length_app. cbn [length]. lia.
  - left. rewrite length_app. cbn. destruct A2 as [?|E]; [lia|]. rewrite E in *. cbn in *. lia.
  - intros d [Hd| ->%list_elem_of_singleton]%elem_of_app; [by apply A3|done].
  - intros d [Hd| ->%list_elem_of_singleton]%elem_of_app; [|left; by left]. destruct (A4 d Hd); [left; by right|by right].
  - done.
  - intros m i [->|Hm]%elem_of_cons Hi; [|specialize (A6 m i Hm Hi); lia].
    apply suffix_cons_inv in Hi as [[= ->]|Hi]; [lia|]. by apply suffix_cons_not in Hi.
Qed.

Lemma fork_child_ok K N tr x : kids_ok N tr x -> kids_ok (child_name x :: N) tr (child K x).
Proof.
  intros [A1 A2 A3 A4 A5 A6].
  assert (Hno : forall m i, m ∈ child_name x :: N -> ~ (i :: child_name x) `suffix_of` m).
  { intros m i [->|Hm]%elem_of_cons Hi; [by apply suffix_cons_not in Hi|].
    assert (x_next x < x_next x)%nat; [|lia]. apply (A6 m); [done|]. by apply (suffix_cons_l _ _ i). }
  split; cbn -[filter].
  - rewrite no_kids; [done|]. intros i Hi. by apply (Hno _ i Hi).
  - by right.
  - by intros d ?%elem_of_nil.
  - by intros d ?%elem_of_nil.
  - done.
  - intros m i Hm Hi. by apply Hno in Hi.
Qed.

Lemma fork_other_ok N tr x y :
  x_name x ∈ N -> x_name y <> x_name x -> kids_ok N tr y -> kids_ok (child_name x :: N) tr y.
Proof.
  intros Hx Hne [A1 A2 A3 A4 A5 A6]. split; try done.
  - rewrite filter_cons_False; [done|]. cbn. congruence.
  - intros d Hd. destruct (A4 d Hd); [left; by right|by right].
  - intros m i [->|Hm]%elem_of_cons Hi; [|by apply (A6 m)].
    apply suffix_cons_inv in Hi as [[= -> E]|Hi]; [done|]. by apply (A6 (x_name x)).
Qed.

(** A child waited for, seen by the parent and the others. *)
Lemma wait_parent_ok N tr x d :
  NoDup (d :: N) -> kid (x_name x) d -> Exited d ∈ tr -> kids_ok (d :: N) tr x -> kids_ok N tr (reaped x).
Proof.
  intros [Hd HN]%NoDup_cons Hk Hx [A1 A2 A3 A4 A5 A6]. rewrite filter_cons_True in A1 by done. cbn in A1.
  assert (Hends : forall e, e ∈ x_kids x -> e ∈ N \/ Exited e ∈ tr).
  { intros e He. destruct (A4 e He) as [[->|?]%elem_of_cons|?]; auto. }
  assert (Hfresh : forall m i, m ∈ N -> (i :: x_name x) `suffix_of` m -> (i < x_next x)%nat).
  { intros m i Hm. apply A6. by right. }
  unfold reaped. destruct (x_kids x) as [|k0 kids] eqn:Ek; [cbn in A1; lia|]. rewrite <- Ek in *.
  destruct (Nat.eqb_spec (S (x_waits x)) (length (x_kids x))) as [El|El].
  - assert (Hz : filter (kid (x_name x)) N = []) by (apply length_zero_iff_nil; lia).
    split; cbn -[filter]; try done; [by rewrite Hz|by right|set_solver|set_solver|].
    intros e [He|He]%elem_of_app; [|by apply A5]. destruct (Hends e He) as [HeN|]; [|done].
    by destruct (filter_nil_not_elem_of _ _ e Hz (A3 e He)).
  - split; cbn -[filter]; try done; [lia|]. left. destruct A2 as [?|E]; [lia|]. rewrite E in A1. cbn in A1. lia.
Qed.

Lemma wait_other_ok N tr n y d :
  kid n d -> x_name y <> n -> kids_ok (d :: N) tr y -> kids_ok N tr y.
Proof.
  intros Hk Hne [A1 A2 A3 A4 A5 A6].
  assert (Hd : ~ kid (x_name y) d) by (destruct d; [done|]; cbn in *; congruence).
  rewrite filter_cons_False in A1 by done. split; try done.
  - intros e He. destruct (A4 e He) as [[->|?]%elem_of_cons|?]; [|by left|by right]. by destruct Hd; apply A3.
  - intros m i Hm. apply A6. by right.
Qed.

Lemma other_name n (q : process) rest : NoDup (n :: names rest) -> q ∈ rest -> p_name q <> n.
Proof.
  intros [HN _]%NoDup_cons Hq E. apply HN. rewrite <- E. by apply (list_elem_of_fmap_2 (x_name ∘ p_ctx)).
Qed.

(** A call keeps the children, or it is a fork. *)
Lemma advance_cases K p p' new ev :
  advance K p = Some (p', new, ev) ->
  (new = [] /\ p_name p' = p_name p /\
    (forall N tr, proc_ok N tr p -> proc_ok N (tr ++ [ev]) p')) \/
  (exists c c' d, p_code p = Run c /\ p' = Proc (parent (p_ctx p)) (Run c') /\
    new = [Proc (child K (p_ctx p)) (Run d)]).
Proof.
  destruct p as [x c]. unfold advance, do_open, do_pipe, do_read. cbn. intros E.
  assert (Hsame : forall x' c0 c1 N tr, same_kids x x' -> proc_ok N tr (Proc x (Run c0)) -> proc_ok N (tr ++ [ev]) (Proc x' (Run c1))).
  { intros x' c0 c1 N tr Hs H. unfold proc_ok in *. cbn in *. eapply kids_ok_same; [exact Hs|].
    eapply kids_ok_perm; [done| |exact H]. set_solver. }
  assert (Hgone : forall c0 N tr, ev = Exited (x_name x) -> proc_ok N tr c0 -> proc_ok N (tr ++ [ev]) (Proc x Gone)).
  { intros c0 N tr -> _. unfold proc_ok. cbn. set_solver. }
  assert (Hran : forall c0 N tr, proc_ok N tr c0 -> proc_ok N (tr ++ [ev]) (Proc x Ran)) by done.
  destruct c as [[]| |]; repeat case_match; simplify_eq/=;
    first [left; split_and!; [done|done|]; intros ?? Hp; eauto;
           first [by eapply Hgone|by eapply Hran|eapply Hsame; [|exact Hp]; by split_and!; cbn; auto]
          |right; eauto 10].
Qed.

Lemma pool_call K p rest p' new ev tr :
  pool_ok (p :: rest) tr -> advance K p = Some (p', new, ev) -> pool_ok (p' :: new ++ rest) (tr ++ [ev]).
Proof.
  intros [HN [Hp Hrest]%Forall_cons] Hadv.
  destruct (advance_cases _ _ _ _ _ Hadv) as [(-> & En & Hkeep)|(c & c' & d & Ec & -> & ->)].
  - unfold pool_ok, names in *. cbn in *. rewrite En. split; [done|]. apply Forall_cons. split; [by apply Hkeep|].
    eapply Forall_impl; [exact Hrest|]. intros q. apply proc_ok_perm; [done|set_solver].
  - unfold proc_ok in Hp. rewrite Ec in Hp. set (N := names (p :: rest)) in *.
    assert (HN' : p_name p :: child_name (p_ctx p) :: names rest ≡ₚ child_name (p_ctx p) :: N) by apply Permutation_swap.
    assert (Hfresh : child_name (p_ctx p) ∉ N).
    { intros Hin. assert (x_next (p_ctx p) < x_next (p_ctx p))%nat; [|lia]. exact (kids_fresh _ _ _ Hp (child_name (p_ctx p)) _ Hin (reflexivity _)). }
    unfold pool_ok. change (names _) with (p_name p :: child_name (p_ctx p) :: names rest).
    split; [rewrite HN'; by apply NoDup_cons|]. cbn [app].
    assert (Hmono : forall y, proc_ok (child_name (p_ctx p) :: N) tr y ->
      proc_ok (p_name p :: child_name (p_ctx p) :: names rest) (tr ++ [ev]) y).
    { intros y. apply proc_ok_perm; [by rewrite HN'|set_solver]. }
    repeat apply Forall_cons_2; [apply Hmono; by apply fork_parent_ok|apply Hmono; by apply fork_child_ok|].
    apply Forall_forall. intros q Hq. apply Hmono. rewrite Forall_forall in Hrest. specialize (Hrest q Hq).
    unfold proc_ok in *. destruct (p_code q); try done. apply fork_other_ok; [by left|by eapply other_name|done].
Qed.

Lemma pool_wait x k c rest ev tr :
  pool_ok (Proc x (Run (DoWait k)) :: c :: rest) tr -> child_of (x_name x) c -> p_code c = Gone ->
  pool_ok (Proc (reaped x) (Run k) :: rest) (tr ++ [ev]).
Proof.
  intros [HN [Hp [Hc Hrest]%Forall_cons]%Forall_cons] Hk Hg. cbn in HN, Hp, Hc, Hrest.
  unfold proc_ok in Hp, Hc. rewrite Hg in Hc. cbn in Hp, Hc.
  assert (En : x_name (reaped x) = x_name x) by (unfold reaped; destruct (x_kids x); [done|]; by case_match).
  assert (HP : x_name x :: p_name c :: names rest ≡ₚ p_name c :: x_name x :: names rest) by solve_Permutation.
  change (p_name c) with ((x_name ∘ p_ctx) c) in *.
  split; unfold names in *; cbn in *; rewrite En.
  - rewrite HP in HN. by apply NoDup_cons in HN as [_ ?].
  - apply Forall_cons. split.
    + unfold proc_ok. cbn. eapply kids_ok_perm; [done| |eapply wait_parent_ok; [|exact Hk|exact Hc|]];
        [set_solver|by rewrite <- HP|exact (kids_ok_perm _ _ _ _ _ HP (reflexivity tr) Hp)].
    + apply Forall_forall. intros q Hq. rewrite Forall_forall in Hrest. specialize (Hrest q Hq).
      assert (Hne : p_name q <> x_name x) by (eapply (other_name _ q (c :: rest)); [exact HN|by right]).
      unfold proc_ok in *. destruct (p_code q); [|done|set_solver].
      eapply (kids_ok_perm _ _ tr); [done| |eapply wait_other_ok; [exact Hk|exact Hne|]]; [set_solver|].
      exact (kids_ok_perm _ _ _ _ _ HP (reflexivity tr) Hrest).
Qed.

(** A process without children in the pool has none on record. *)
Lemma nochild_kids x k rest tr :
  pool_ok (Proc x (Run (DoWait k)) :: rest) tr -> Forall (fun c => ~ child_of (x_name x) c) rest -> x_kids x = [].
Proof.
  intros [_ [Hp _]%Forall_cons] Hno. unfold proc_ok in Hp. cbn in Hp. destruct Hp as [A1 A2 _ _ _ _].
  rewrite no_kids in A1; [cbn in A1; destruct A2; [lia|done]|].
  intros i [E|Hi]%elem_of_cons; [by apply (suffix_cons_not i (x_name x)); rewrite E|].
  apply list_elem_of_fmap in Hi as (c & E & Hc). rewrite Forall_forall in Hno. apply (Hno c Hc).
  unfold child_of. change (kid (x_name x) (p_name c)); cbn in E; by rewrite <- E.
Qed.

(** ** Runs *)

Definition launched (tr : list event) : list launch :=
  omap (fun e => match e with Started s => Some s | _ => None end) tr.

(** Every program was started after those it had to wait for. *)
Definition ordered (tr : list event) : Prop :=
  forall tr1 s tr2, tr = tr1 ++ Started s :: tr2 -> forall d, d ∈ st_after s -> Exited d ∈ tr1.

Lemma ordered_snoc tr ev :
  ordered tr -> (forall s, ev = Started s -> forall d, d ∈ st_after s -> Exited d ∈ tr) -> ordered (tr ++ [ev]).
Proof.
  intros Ho Hev tr1 s tr2 E. destruct tr2 as [|e tr2 _] using rev_ind.
  - apply app_inj_tail in E as [<- ->]. by apply Hev.
  - rewrite app_comm_cons, app_assoc in E. apply app_inj_tail in E as [-> _]. by eapply Ho.
Qed.

Definition run_ok (K : kern) (all : list event) (st : list process * list event) : Prop :=
  pool_ok st.1 st.2 /\ ordered st.2 /\ st.2 ++ plans K st.1 ≡ₚ all.

#[export] Instance plans_proper K : Proper ((≡ₚ) ==> (≡ₚ)) (plans K).
Proof. intros l l' E. unfold plans. by rewrite E. Qed.

Lemma plans_cons K p pool : plans K (p :: pool) = plan_of K p ++ plans K pool.
Proof. done. Qed.
Lemma plan_wait K x k : plan_of K (Proc x (Run (DoWait k))) = Other (x_name x) :: plan K k (reaped x).
Proof. done. Qed.

Lemma started_after K p p' new s N tr :
  proc_ok N tr p -> advance K p = Some (p', new, Started s) -> forall d, d ∈ st_after s -> Exited d ∈ tr.
Proof.
  destruct p as [x c]. unfold advance, proc_ok, do_open, do_pipe, do_read. cbn. intros Hp E d.
  destruct c as [[]| |]; repeat case_match; simplify_eq/=; by apply (kids_after _ _ _ Hp).
Qed.

Lemma step_ok K all st st' : shstep K st st' -> run_ok K all st -> run_ok K all st'.
Proof.
  intros Hs (Hp & Ho & Hall). cbn [fst snd] in *.
  destruct Hs as [pool p rest p' new ev tr E Hadv|pool x k c rest tr E Hk Hg|pool x k rest tr E Hno]; cbn [fst snd] in *;
    rewrite E in Hall; eapply pool_ok_perm in Hp; try exact E; unfold run_ok; cbn [fst snd].
  - split_and!; [by eapply pool_call|apply ordered_snoc; [done|]; intros s ->|].
    + destruct Hp as [_ [Hp _]%Forall_cons]. by eapply started_after.
    + rewrite <- Hall. unfold plans. cbn. rewrite bind_app, (advance_plan _ _ _ _ _ Hadv). unfold plans. solve_Permutation.
  - split_and!; [by eapply pool_wait|by apply ordered_snoc|].
    assert (Ec : plan_of K c = []) by (unfold plan_of; by rewrite Hg).
    rewrite <- Hall, !plans_cons, Ec, plan_wait. change (plan_of K (Proc _ (Run k))) with (plan K k (reaped x)). solve_Permutation.
  - pose proof (nochild_kids _ _ _ _ Hp Hno) as Ek.
    assert (Er : reaped x = x) by (unfold reaped; by rewrite Ek).
    split_and!; [|by apply ordered_snoc|].
    + eapply (pool_call K (Proc x (Run (DoWrite 0 [] k))) rest _ []); [|done].
      destruct Hp as [HN [Hp Hrest]%Forall_cons]. split; [done|]. by apply Forall_cons.
    + rewrite <- Hall, !plans_cons, plan_wait, Er. change (plan_of K (Proc x (Run k))) with (plan K k x). solve_Permutation.
Qed.

Lemma step_counts K st st' : shstep K st st' -> length st'.2 = S (length st.2).
Proof. intros []; cbn; rewrite length_app; cbn; lia. Qed.

(** Every run ends. *)
Lemma run_sn K all st : run_ok K all st -> sn (shstep K) st.
Proof.
  remember (length all - length st.2)%nat as n eqn:En. revert st En.
  induction (lt_wf n) as [n _ IH]. intros st -> Hok. constructor. intros st' Hs.
  pose proof (step_ok _ _ _ _ Hs Hok) as Hok'. eapply IH; [|reflexivity|exact Hok'].
  pose proof (step_counts _ _ _ Hs). destruct Hok' as (_ & _ & Hall). apply Permutation_length in Hall.
  rewrite length_app in Hall. lia.
Qed.

Lemma in_pool (p : process) pool : p ∈ pool -> exists rest, pool ≡ₚ p :: rest.
Proof. intros (l1 & l2 & ->)%list_elem_of_split. exists (l1 ++ l2). by rewrite Permutation_middle. Qed.

(** A process that cannot go on waits for a child that can, or has one that
    can. *)
Lemma can_step K pool tr b p :
  Spins ∉ plans K pool -> (forall q, q ∈ pool -> (length (p_name q) <= b)%nat) ->
  p ∈ pool -> p_code p <> Gone -> red (shstep K) (pool, tr).
Proof.
  intros Hspin Hb. remember (b - length (p_name p))%nat as n eqn:En. revert p En.
  induction n as [n IH] using lt_wf_ind. intros p En Hp Hg. destruct (in_pool p pool Hp) as [rest E].
  destruct (advance K p) as [[[p' new] ev]|] eqn:Hadv; [eexists; by eapply step_call|].
  destruct p as [x [c| |]]; [|done|done].
  assert (Hc : c = DoSpin \/ exists k, c = DoWait k).
  { unfold advance, do_open, do_pipe, do_read in Hadv. cbn in Hadv. destruct c; repeat case_match; simplify_eq; eauto. }
  destruct Hc as [->|[k ->]].
  { destruct Hspin. rewrite E, plans_cons. by left. }
  destruct (decide (Forall (fun c => ~ child_of (x_name x) c) rest)) as [Hno|Hkid].
  { eexists. by eapply step_nochild. }
  apply not_Forall_Exists, Exists_exists in Hkid as (c & Hc & Hk); [|intros ?; apply _]. apply dec_stable in Hk.
  destruct (in_pool c rest Hc) as [rest' E']. rewrite E' in E.
  destruct (p_code c) eqn:Ec.
  3: { eexists. by eapply step_wait. }
  all: assert (Hin : c ∈ pool) by (rewrite E; right; by left); specialize (Hb c Hin) as Hlen;
    unfold child_of in Hk; destruct (p_name c) as [|i m] eqn:En'; [done|]; subst m; cbn in Hlen, En.
  all: eapply (IH (b - length (p_name c))%nat); [rewrite En'; cbn; lia|done|done|by rewrite Ec].
Qed.

Lemma run_done K all pool tr :
  run_ok K all (pool, tr) -> Spins ∉ all -> nf (shstep K) (pool, tr) ->
  Forall (fun p => p_code p = Gone) pool /\ tr ≡ₚ all.
Proof.
  intros (_ & _ & Hall) Hspin Hnf. cbn [fst snd] in Hall.
  assert (Hs : Spins ∉ plans K pool) by (rewrite <- Hall in Hspin; set_solver).
  assert (Hg : Forall (fun p => p_code p = Gone) pool).
  { apply Forall_forall. intros p Hp. destruct (p_code p) eqn:Ec; [| |done]; destruct Hnf;
      (eapply (can_step K pool tr (max_list (length <$> names pool)) p);
       [done|intros q Hq; apply max_list_elem_of_le, list_elem_of_fmap_2; by apply (list_elem_of_fmap_2 (x_name ∘ p_ctx))
       |done|by rewrite Ec]). }
  split; [done|]. rewrite <- Hall. replace (plans K pool) with (@nil event); [by rewrite app_nil_r|].
  clear Hall Hs Hspin Hnf. induction Hg as [|p pool Hp _ IH]; [done|]. rewrite plans_cons, <- IH. unfold plan_of. by rewrite Hp.
Qed.

(** ** What a command asks for *)

(** Descriptors 0, 1 and 2, and no other one open. *)
Definition stdio : Type := fdesc * fdesc * fdesc.
Definition fd_tab (io : stdio) : table :=
  let '(i, o, e) := io in [Some i; Some o; Some e] ++ replicate 13 None.
Definition redirect (io : stdio) (fd : Z) (d : fdesc) : stdio :=
  let '(i, o, e) := io in if fd =? 0 then (d, o, e) else (i, d, e).

(** The programs of a command run by the process [n] after [next] calls: the
    sides of a pipe and background commands are children; the left of a list
    is a child that has ended when the right starts. *)
Fixpoint wired (K : kern) (c : acmd) (n : name) (next : nat) (after : list name) (io : stdio) : list launch :=
  match c with
  | AExec [] => []
  | AExec (w :: ws) => [Start n (str "/bin/" ++ take 13 w) (w :: ws) (fd_tab io) after]
  | ARedir c (mode, fd) file =>
      if k_open K file mode then wired K c n next after (redirect io fd (AFile file mode)) else []
  | APipe l r =>
      let '(i, o, e) := io in
      wired K l (S next :: n) 0 after (i, PipeWr (n, next), e) ++
      wired K r (S (S next) :: n) 0 after (PipeRd (n, next), o, e)
  | AList l r => wired K l (next :: n) 0 after io ++ wired K r n (S next) ((next :: n) :: after) io
  | ABack c => wired K c (next :: n) 0 after io
  end.

(** The kernel has processes and files enough. *)
Definition plenty (K : kern) : Prop := (forall n, is_Some (k_fork K n)) /\ (forall n i, k_pipe K n i = true).

(** The programs of [c] are those wanted, or some of them when the kernel
    runs out of something; and the process never spins. *)
Definition starts_as (K : kern) (evs : list event) (want : list launch) : Prop :=
  launched evs ⊆+ want /\ (plenty K -> launched evs = want) /\ Spins ∉ evs.

Lemma starts_app l1 l2 : launched (l1 ++ l2) = launched l1 ++ launched l2.
Proof. apply omap_app. Qed.

Lemma starts_perm l1 l2 : l1 ≡ₚ l2 -> launched l1 ≡ₚ launched l2.
Proof. apply omap_Permutation. Qed.

Lemma starts_as_other K n evs want : starts_as K evs want -> starts_as K (Other n :: evs) want.
Proof. intros (H1 & H2 & H3). split_and!; [done|done|]. by intros [?|?]%elem_of_cons. Qed.
Lemma starts_as_app K l1 l2 w1 w2 : starts_as K l1 w1 -> starts_as K l2 w2 -> starts_as K (l1 ++ l2) (w1 ++ w2).
Proof.
  intros (A1 & A2 & A3) (B1 & B2 & B3). unfold starts_as. rewrite starts_app. split_and!.
  - by apply submseteq_app.
  - intros H. by rewrite A2, B2.
  - set_solver.
Qed.
(** A process that gives up. *)
Lemma starts_as_fail K evs want :
  launched evs = [] -> Spins ∉ evs -> (plenty K -> want = []) -> starts_as K evs want.
Proof. intros E H1 H2. unfold starts_as. rewrite E. split_and!; [apply submseteq_nil_l|intros H; by rewrite H2|done]. Qed.

Lemma plan_panic K msg x want : ~ plenty K -> starts_as K (plan K (sh_panic msg) x) want.
Proof. intros H. apply starts_as_fail; [done|set_solver|done]. Qed.

(** A fork of the shell: what the child does and what the parent does. *)
Lemma plan_fork1 K k x wc wp :
  starts_as K (plan K (k 0) (child K x)) wc ->
  (forall pid, 0 < pid -> starts_as K (plan K (k pid) (parent x)) wp) ->
  starts_as K (plan K (fork1 k) x) (wc ++ wp).
Proof.
  intros Hc Hp. unfold fork1. cbn [plan]. apply starts_as_other. destruct (k_fork K (child_name x)) as [pid|] eqn:E.
  - apply starts_as_app; [done|]. cbn. by apply Hp.
  - cbn. apply (plan_panic K "fork" (bump x)). intros [H _]. destruct (H (child_name x)). congruence.
Qed.

(** ** Commands *)

Section commands.
Context (K : kern) (s buf : list Z).

Lemma argument_word t : string_ok s buf t -> argument s buf t = word t.
Proof. by intros [H _]. Qed.
Lemma arguments_words ts : Forall (string_ok s buf) ts -> argument s buf <$> ts = word <$> ts.
Proof. induction 1 as [|t ts Ht Hts IH]; [done|]. cbn. by rewrite argument_word, IH. Qed.
Lemma binpath_word t : string_ok s buf t -> binpath (argument s buf t) = str "/bin/" ++ take 13 (word t).
Proof.
  intros Ht. unfold binpath. destruct (safestrcpy_correct (argument s buf t) 14) as [_ ->]; [lia|].
  unfold argument at 1. rewrite cstr_idem. change (cstr _) with (argument s buf t). by rewrite argument_word.
Qed.

Definition runs_as (c : cmd) : Prop := forall n next inp after io,
  starts_as K (plan K (runcmd s buf c) (Ctx n (fd_tab io) next inp [] 0 after)) (wired K (resolve c) n next after io).

Lemma runs_exec argv : Forall (string_ok s buf) argv -> runs_as (EXEC argv).
Proof.
  intros Hs n next inp after io. destruct argv as [|t argv].
  { apply starts_as_fail; [done|set_solver|done]. }
  pose proof (Forall_inv Hs) as Ht. cbn [runcmd resolve wired plan]. rewrite binpath_word, arguments_words by done.
  unfold starts_as, started. case_match; cbn; (split_and!; [done|done|set_solver]).
Qed.

Lemma runs_redir c file mode fd :
  string_ok s buf file -> how_ok (mode, fd) -> runs_as c -> runs_as (REDIR c file mode fd).
Proof.
  intros Hf Hhow IH n next inp after [[i o] e]. cbn [runcmd resolve wired plan]. apply starts_as_other.
  rewrite argument_word by done. unfold do_open. cbn [x_fds set_fds].
  destruct (k_open K (word file) mode).
  - destruct Hhow as [[= -> ->]|[= -> ->]]; apply starts_as_other.
    + exact (IH n next inp after (AFile (word file) 4, o, e)).
    + exact (IH n next inp after (i, AFile (word file) 58, e)).
  - apply starts_as_other. apply starts_as_fail; [done|set_solver|done].
Qed.

Lemma runs_list l r : runs_as l -> runs_as r -> runs_as (LIST l r).
Proof.
  intros IHl IHr n next inp after io. cbn [runcmd resolve wired]. apply plan_fork1; [apply IHl|].
  intros pid Hpid. rewrite (proj2 (Z.eqb_neq pid 0)) by lia. apply starts_as_other. apply IHr.
Qed.

Lemma runs_back c : runs_as c -> runs_as (BACK c).
Proof.
  intros IH n next inp after io. cbn [runcmd resolve wired]. rewrite <- (app_nil_r (wired _ _ _ _ _ _)).
  apply plan_fork1; [apply IH|]. intros pid Hpid. rewrite (proj2 (Z.eqb_neq pid 0)) by lia.
  apply starts_as_fail; [done|set_solver|done].
Qed.

Lemma runs_pipe l r : runs_as l -> runs_as r -> runs_as (PIPE l r).
Proof.
  intros IHl IHr n next inp after [[i o] e]. cbn [runcmd resolve wired plan]. unfold do_pipe. cbn [x_name x_next].
  destruct (k_pipe K n next) eqn:Ep.
  - cbn [x_fds fd_tab app replicate fd_pipe fd_open lowest_fd fmap option_fmap option_map].
    apply starts_as_other, plan_fork1; [|intros pid Hpid; rewrite (proj2 (Z.eqb_neq pid 0)) by lia].
    + do 4 apply starts_as_other. exact (IHl (S next :: n) 0%nat _ after (i, PipeWr (n, next), e)).
    + rewrite <- (app_nil_r (wired _ (resolve r) _ _ _ _)).
      apply plan_fork1; [|intros pid' Hpid'; rewrite (proj2 (Z.eqb_neq pid' 0)) by lia].
      * do 4 apply starts_as_other. exact (IHr (S (S next) :: n) 0%nat _ after (PipeRd (n, next), o, e)).
      * apply starts_as_fail; [done|set_solver|done].
  - apply starts_as_other. apply plan_panic. intros [_ H]. specialize (H n next). congruence.
Qed.

Lemma runcmd_spec c : acmd_ok (resolve c) -> Forall (string_ok s buf) (tokens c) -> runs_as c.
Proof.
  induction c as [argv|c IH file mode fd|l IHl r IHr|l IHl r IHr|c IH]; cbn [resolve acmd_ok tokens]; intros Hok Ht.
  - by apply runs_exec.
  - apply Forall_app in Ht as [Hc [Hf _]%Forall_cons]. destruct Hok as (Hok & Hhow & _). apply runs_redir; auto.
  - apply Forall_app in Ht as [Hl Hr]. destruct Hok. apply runs_pipe; auto.
  - apply Forall_app in Ht as [Hl Hr]. destruct Hok. apply runs_list; auto.
  - apply runs_back; auto.
Qed.
End commands.

(** ** The lines of a script *)

Definition line (c : acmd) : list Z := print_cmd c ++ [10].

(** A command that fits the buffer of the shell. *)
Definition line_ok (c : acmd) : Prop := acmd_ok c /\ (0 ∉ print_cmd c) /\ (length (print_cmd c) < 99)%nat.

(** The shell starts the commands one after the other, each as a child. *)
Fixpoint wired_lines (K : kern) (cs : list acmd) (next : nat) (after : list name) (io : stdio) : list launch :=
  match cs with
  | [] => []
  | c :: cs => wired K c [next] 0 after io ++ wired_lines K cs (S next) ([next] :: after) io
  end.

Definition no_newline (x : Z) : Prop := x <> 10 /\ x <> 13.
Lemma word_plain w : word_ok w -> Forall no_newline w.
Proof.
  intros [_ H]. eapply Forall_impl; [exact H|]. intros c [Hc _]. split; intros ->; by vm_compute in Hc.
Qed.
Lemma words_plain ws : Forall word_ok ws -> Forall no_newline (pr_words ws).
Proof.
  unfold pr_words. induction 1 as [|w ws Hw Hws IH]; cbn; [constructor|]. constructor; [done|].
  apply Forall_app. split; [by apply word_plain|done].
Qed.
Lemma redir_plain how file : how_ok how -> word_ok file -> Forall no_newline (pr_redir (how, file)).
Proof. intros [->| ->] Hf%word_plain; repeat constructor; cbn; try done. Qed.
Lemma pr_plain c : acmd_ok c -> forall lv, Forall no_newline (pr lv c).
Proof.
  assert (Hparen : forall l, Forall no_newline l -> Forall no_newline (paren l)).
  { intros l Hl. constructor; [done|]. apply Forall_app. split; [done|by repeat constructor]. }
  induction c as [argv|c IH how file|l IHl r IHr|l IHl r IHr|c IH]; cbn; intros Hok lv.
  - destruct Hok. by apply words_plain.
  - destruct Hok as (Hok & Hhow & Hf). apply Forall_app. split; [by apply IH|by apply redir_plain].
  - destruct Hok. assert (Forall no_newline (pr Exec l ++ [32; 124] ++ pr Pipe r)) by (rewrite !Forall_app; split_and!; auto; by repeat constructor).
    destruct lv; auto.
  - destruct Hok. assert (Forall no_newline (pr Back l ++ [32; 59] ++ pr Line r)) by (rewrite !Forall_app; split_and!; auto; by repeat constructor).
    destruct lv; auto.
  - assert (Forall no_newline (pr Back c ++ [32; 38])) by (rewrite !Forall_app; split_and!; auto; by repeat constructor).
    destruct lv; auto.
Qed.

(** A printed command starts with a blank or a parenthesis. *)
Lemma pr_head c lv : forall l, l = [] \/ chr l = 32 \/ chr l = 10 -> chr (pr lv c ++ l) <> 99.
Proof.
  revert lv. induction c as [argv|c IH how file|l IHl r IHr|l IHl r IHr|c IH]; intros lv rest Hrest; cbn.
  - destruct argv; cbn; [|done]. destruct Hrest as [->|[-> | ->]]; done.
  - rewrite <- app_assoc. apply IH. right. by left.
  - destruct lv; cbn; rewrite <- ?app_assoc; try done; apply IHl; cbn; auto.
  - destruct lv; cbn; rewrite <- ?app_assoc; try done; apply IHl; cbn; auto.
  - destruct lv; cbn; rewrite <- ?app_assoc; try done; apply IH; cbn; auto.
Qed.

Lemma plan_gets K l rest k x want room buf :
  x_in x = l ++ 10 :: rest -> Forall no_newline l -> (length l < room)%nat ->
  starts_as K (plan K (k (buf ++ l ++ [10])) (set_in x rest)) want ->
  starts_as K (plan K (gets_loop room buf k) x) want.
Proof.
  revert x room buf. induction l as [|c l IH]; intros x room buf Ein Hl Hroom Hk; (destruct room as [|room]; [cbn in Hroom; lia|]);
    cbn [gets_loop plan]; unfold do_read; rewrite Ein; cbn [app]; apply starts_as_other.
  - done.
  - apply Forall_cons in Hl as [[H10 H13] Hl]. apply Z.eqb_neq in H10, H13. rewrite H10, H13. cbn [orb].
    apply IH; [done|done|cbn in Hroom; lia|]. by rewrite <- app_assoc.
Qed.

(** A line read and run in the child. *)
Lemma runline_spec K c buf n next inp after io :
  line_ok c -> cstr buf = line c ->
  starts_as K (plan K (runline buf) (Ctx n (fd_tab io) next inp [] 0 after)) (wired K c n next after io).
Proof.
  intros (Hok & Hz & Hlen) Eb. unfold runline. rewrite Eb.
  assert (Hz' : 0 ∉ line c) by (unfold line; set_solver).
  destruct (parse_printed c [10]) as (c' & E & <-); [done|by repeat constructor|].
  pose proof (parsecmd_spec _ Hz') as Hs. unfold tot in Hs. unfold line in *. rewrite E in *. destruct Hs as (_ & Hs & _).
  by apply runcmd_spec.
Qed.

Lemma plan_main K cs : Forall line_ok cs -> forall turns next after io, (length cs < turns)%nat ->
  starts_as K (plan K (sh_main turns) (Ctx [] (fd_tab io) next (concat (line <$> cs)) [] 0 after))
    (wired_lines K cs next after io).
Proof.
  induction 1 as [|c cs Hc Hcs IH]; intros [|turns] next after io Hturns; cbn [length] in Hturns; try lia.
  { apply starts_as_fail; [done|set_solver|done]. }
  destruct Hc as (Hok & Hz & Hlen). cbn [sh_main fmap list_fmap concat wired_lines]. unfold getcmd, gets.
  apply starts_as_other. eapply (plan_gets K (print_cmd c) (concat (line <$> cs)));
    [cbn; unfold line; by rewrite <- app_assoc|by apply pr_plain|cbn; lia|].
  cbn [app]. change (print_cmd c ++ [10]) with (line c).
  set (buf := line c ++ _).
  assert (Hbuf : cstr buf = line c).
  { unfold buf. assert (length (line c) < 100)%nat by (unfold line; rewrite length_app; cbn; lia).
    destruct (100 - length (line c))%nat eqn:E; [lia|]. cbn [replicate]. apply cstr_upto. unfold line. set_solver. }
  assert (Hchr : chr buf = chr (line c)) by (unfold buf, line; by destruct (print_cmd c)).
  rewrite (proj2 (Z.eqb_neq (chr buf) 0)).
  2: { rewrite Hchr. unfold line. destruct (print_cmd c); [done|]. cbn. intros ->. apply Hz. by left. }
  unfold is_cd. rewrite (proj2 (Z.eqb_neq (chr buf) 99)) by (rewrite Hchr; apply pr_head; auto). cbn [andb].
  apply plan_fork1; [by apply runline_spec|]. intros pid Hpid. rewrite (proj2 (Z.eqb_neq pid 0)) by lia.
  apply starts_as_other. apply IH. lia.
Qed.

(** ** The shell *)

(** The shell before its first line, with the commands [cs] as its input. *)
Definition shell (K : kern) (turns : nat) (io : stdio) : list process * list event :=
  ([Proc (Ctx [] (fd_tab io) 0 (k_in K []) [] 0 []) (Run (sh_main turns))], []).

Lemma shell_ok K turns io : run_ok K (plans K (shell K turns io).1) (shell K turns io).
Proof.
  split_and!; [|by intros [|? ?] ? ?|done]. split; [by apply NoDup_singleton|]. apply Forall_singleton. split; cbn; try done.
  - by right.
  - by intros ? ?%elem_of_nil.
  - by intros ? ?%elem_of_nil.
  - by intros ? ?%elem_of_nil.
  - intros m i ->%list_elem_of_singleton Hi. by apply suffix_cons_not in Hi.
Qed.

Lemma run_ok_rtc K all st st' : run_ok K all st -> rtc (shstep K) st st' -> run_ok K all st'.
Proof. intros Hok Hr. induction Hr as [|st1 st2 st3 Hs Hr IH]; [done|]. apply IH. by eapply step_ok. Qed.

Lemma shell_starts K cs turns io :
  Forall line_ok cs -> k_in K [] = concat (line <$> cs) -> (length cs < turns)%nat ->
  starts_as K (plans K (shell K turns io).1) (wired_lines K cs 0 [] io).
Proof.
  intros Hcs Hin Ht. unfold shell. rewrite Hin. cbn [fst]. rewrite plans_cons. cbn [plan_of p_code p_ctx].
  rewrite app_nil_r. by apply plan_main.
Qed.

(** C11: whatever the schedule, and whatever calls fail, every program the shell
    starts is one the commands ask for, at most as often as they do: with the
    words of the command as its arguments, with descriptors 0, 1 and 2 as the
    pipes and redirections around it say and no other descriptor open, and
    only after the commands before it in the list have ended. *)
Theorem shell_safe K cs turns io pool tr :
  Forall line_ok cs -> k_in K [] = concat (line <$> cs) -> (length cs < turns)%nat ->
  rtc (shstep K) (shell K turns io) (pool, tr) ->
  launched tr ⊆+ wired_lines K cs 0 [] io /\ ordered tr.
Proof.
  intros Hcs Hin Ht Hr. destruct (run_ok_rtc _ _ _ _ (shell_ok K turns io) Hr) as (_ & Ho & Hall). split; [|done].
  destruct (shell_starts K cs turns io) as [Hs _]; [done..|]. cbn [snd] in Hall.
  trans (launched (tr ++ plans K pool)); [rewrite starts_app; by apply submseteq_inserts_r|].
  by rewrite (starts_perm _ _ Hall).
Qed.

(** C10: when processes and pipes can be had, every schedule comes to an end, and
    where nothing more can happen all processes have ended and exactly the
    programs the commands ask for have been started. *)
Theorem shell_complete K cs turns io :
  Forall line_ok cs -> k_in K [] = concat (line <$> cs) -> (length cs < turns)%nat -> plenty K ->
  sn (shstep K) (shell K turns io) /\
  forall pool tr, rtc (shstep K) (shell K turns io) (pool, tr) -> nf (shstep K) (pool, tr) ->
    Forall (fun p => p_code p = Gone) pool /\ launched tr ≡ₚ wired_lines K cs 0 [] io.
Proof.
  intros Hcs Hin Ht HK. destruct (shell_starts K cs turns io) as (_ & Hs & Hspin); [done..|].
  split; [eapply run_sn, shell_ok|]. intros pool tr Hr Hnf.
  destruct (run_done _ _ _ _ (run_ok_rtc _ _ _ _ (shell_ok K turns io) Hr) Hspin Hnf) as [Hg Hall].
  split; [done|]. rewrite <- (Hs HK). by apply starts_perm.
Qed.
