(* ===== verification/DemoUser.v ===== *)
(** * User programs on files in memory

    Concrete inputs for the theorems on the user library and programs: the
    simplest systems that meet the interfaces of [UserSys] and [Uwalk], and
    small databases. *)

From S2P Require Import Prelude CString Layout Fs Console ConsoleSpec UserSys Ufile UfileSpec Uauth UauthSpec Uauthgrp UauthgrpSpec UgroupSpec Umalloc UmallocSpec Grep Uprintf Uprogs UprogsSpec Uwalk Uadmin UadminSpec Ucmds UcmdsSpec Sh ShSpec ShRound.

(** ** User programs on files in memory

    The simplest system that meets the interface of [UserSys], and small
    databases: concrete inputs for the theorems on the user library. *)

Definition fresh_fd (v : uview) : Z :=
  Z.of_nat (fresh (list_to_set (Z.to_nat <$> (map_to_list (uv_fd v)).*1) : gset nat)).
Definition fresh_file (v : uview) : nat := fresh (dom (uv_data v)).

Lemma fresh_fd_free v : uv_fd v !! fresh_fd v = None.
Proof.
  destruct (uv_fd v !! fresh_fd v) as [x|] eqn:E; [|done].
  destruct (is_fresh (list_to_set (Z.to_nat <$> (map_to_list (uv_fd v)).*1) : gset nat)).
  apply elem_of_list_to_set, list_elem_of_fmap. exists (fresh_fd v). split; [unfold fresh_fd; by rewrite Nat2Z.id|].
  apply list_elem_of_fmap. exists (fresh_fd v, x). split; [done|]. by apply elem_of_map_to_list.
Qed.
Lemma fresh_file_free v : uv_data v !! fresh_file v = None.
Proof. apply not_elem_of_dom. exact (is_fresh (dom (uv_data v))). Qed.

(** The file and offset of a descriptor, with the contents. *)
Definition mem_file (fd : Z) (v : uview) : option (nat * Z * list Z) :=
  match uv_fd v !! fd with
  | Some (f, off) => match uv_data v !! f with Some d => Some (f, off, d) | None => None end
  | None => None
  end.

Definition mem_open (path : list Z) (mode : Z) : M uview Z :=
  let* v := get in
  match uv_name v !! path with
  | Some f => if uv_may v path mode
              then do* modify (uv_set_fd (fresh_fd v) f 0) in ret (fresh_fd v) else ret (-1)
  | None =>
      if truth (Z.land mode u_CREATE) && uv_may v path mode then
        do* modify (fun v' => uv_set_fd (fresh_fd v) (fresh_file v) 0
              (uv_bind path (fresh_file v) (uv_store (fresh_file v) [] v'))) in ret (fresh_fd v)
      else ret (-1)
  end.

Definition mem_read (fd n : Z) : M uview (Z * list Z) :=
  let* v := get in
  match mem_file fd v with
  | Some (f, off, d) =>
      if off <=? Z.of_nat (length d) then
        let l := bytes_at off n d in
        do* modify (uv_set_fd fd f (off + Z.of_nat (length l))) in ret (Z.of_nat (length l), l)
      else ret (-1, [])
  | None => ret (-1, [])
  end.

Definition mem_write (fd : Z) (l : list Z) : M uview Z :=
  let* v := get in
  match mem_file fd v with
  | Some (f, off, d) =>
      do* modify (fun v => uv_set_fd fd f (off + Z.of_nat (length l))
        (uv_store f (take (Z.to_nat off) d ++ l ++ drop (Z.to_nat off + length l) d) v)) in
      ret (Z.of_nat (length l))
  | None => ret (-1)
  end.

Definition mem_lseek (fd n whence : Z) : M uview Z :=
  let* v := get in
  match mem_file fd v, uv_fd v !! fd with
  | Some (f, off, d), _ =>
      do* modify (uv_set_fd fd f (if whence =? u_SEEK_SET then n else Z.of_nat (length d) + n)) in ret 0
  | None, Some (f, _) => do* modify (uv_set_fd fd f n) in ret 0
  | None, None => ret (-1)
  end.

Definition mem_trim (fd : Z) : M uview Z :=
  let* v := get in
  match mem_file fd v with
  | Some (f, off, d) => do* modify (uv_store f (take (Z.to_nat off) d)) in ret 0
  | None => ret (-1)
  end.

Definition mem_set_dir (path : list Z) (d : dirinfo) (v : uview) : uview :=
  UView (uv_name v) (uv_data v) (uv_fd v) (uv_may v) (uv_uid v) (uv_euid v) (<[path := d]> (uv_dir v)).

(** A directory is made where there is nothing of that name. *)
Definition mem_mkdir (path : list Z) : M uview Z :=
  let* v := get in
  match uv_dir v !! path, uv_name v !! path with
  | None, None => do* modify (mem_set_dir path (DirInfo (uv_uid v) (uv_uid v) DIRMODE)) in ret 0
  | _, _ => ret (-1)
  end.

Definition mem_chown (path : list Z) (uid gid : Z) : M uview Z :=
  let* v := get in
  match uv_dir v !! path with
  | Some d => if uv_euid v =? 0 then do* modify (mem_set_dir path (DirInfo uid gid (di_mode d))) in ret 0 else ret (-1)
  | None => ret (-1)
  end.

#[export] Instance mem_sys : UserSys uview := {|
  us_open := mem_open;
  us_close := fun fd => do* modify (uv_close fd) in ret 0;
  us_read := mem_read;
  us_write := mem_write;
  us_lseek := mem_lseek;
  us_trim := mem_trim;
  us_unlink := fun path => do* modify (uv_unbind path) in ret 0;
  us_chdir := fun _ => ret 0;
  us_mkdir := mem_mkdir;
  us_chown := mem_chown;
  us_getuid := gets uv_uid |}.

Lemma mem_file_known fd v f off d :
  uv_fd v !! fd = Some (f, off) -> uv_data v !! f = Some d -> mem_file fd v = Some (f, off, d).
Proof. unfold mem_file. by intros -> ->. Qed.

#[export] Program Instance mem_sys_spec : UserSysSpec uview := {| us_rep := eq |}.
Next Obligation.
  intros w v path f mode -> Hn Hm. unfold us_open, us_read, us_write, us_lseek, us_trim, mem_sys, mem_open. wp_step. wp_step.
  rewrite Hn. destruct (uv_may v path mode); [|by apply wp_ret].
  wp_step. wp_step. apply wp_ret. split_and!; [unfold fresh_fd; lia|apply fresh_fd_free|done].
Qed.
Next Obligation.
  intros w v path -> Hn Hm. unfold us_open, us_read, us_write, us_lseek, us_trim, mem_sys, mem_open. wp_step. wp_step. rewrite Hn, Hm.
  change (truth _ && true) with true. cbv iota. wp_step. wp_step. apply wp_ret. exists (fresh_file v).
  split_and!; [unfold fresh_fd; lia|apply fresh_fd_free|apply fresh_file_free|done].
Qed.
Next Obligation. intros w v fd f off -> Hfd. unfold us_close, us_unlink, us_chdir, us_getuid, mem_sys. by repeat wp_step. Qed.
Next Obligation.
  intros w v fd f off d n -> Hfd Hd Ho Hn. unfold us_open, us_read, us_write, us_lseek, us_trim, mem_sys, mem_read. wp_step. wp_step.
  rewrite (mem_file_known fd v f off d) by done. destruct (off <=? _); by repeat wp_step.
Qed.
Next Obligation.
  intros w v fd f off d l -> Hfd Hd Ho. unfold us_open, us_read, us_write, us_lseek, us_trim, mem_sys, mem_write. wp_step. wp_step.
  rewrite (mem_file_known fd v f off d) by done. by repeat wp_step.
Qed.
Next Obligation.
  intros w v fd f off n -> Hfd Hn. unfold us_open, us_read, us_write, us_lseek, us_trim, mem_sys, mem_lseek. wp_step. wp_step. unfold mem_file. rewrite Hfd.
  destruct (uv_data v !! f); by repeat wp_step.
Qed.
Next Obligation.
  intros w v fd f off d -> Hfd Hd. unfold us_open, us_read, us_write, us_lseek, us_trim, mem_sys, mem_lseek. wp_step. wp_step.
  rewrite (mem_file_known fd v f off d) by done. repeat wp_step. by rewrite Z.add_0_r.
Qed.
Next Obligation.
  intros w v fd f off d -> Hfd Hd Ho. unfold us_open, us_read, us_write, us_lseek, us_trim, mem_sys, mem_trim. wp_step. wp_step.
  rewrite (mem_file_known fd v f off d) by done. by repeat wp_step.
Qed.
Next Obligation. intros w v path f -> Hn. unfold us_close, us_unlink, us_chdir, us_getuid, mem_sys. by repeat wp_step. Qed.
Next Obligation. intros w v path ->. unfold us_close, us_unlink, us_chdir, us_getuid, mem_sys. by repeat wp_step. Qed.
Next Obligation. intros w v ->. unfold us_close, us_unlink, us_chdir, us_getuid, mem_sys. by repeat wp_step. Qed.

(** ** Databases *)

Definition demo_junk : list Z := replicate BUFSIZE 0.
Definition demo_heap : nat -> Z := fun _ => 0.

(** root and ann, with passwords. *)
Definition demo_root : user_t := User [114; 111; 111; 116] (Some [114]) 0 0 [82] [47].
Definition demo_ann : user_t := User [97; 110; 110] (Some [112; 119]) 1001 1001 [65] [47; 104].
Definition demo_users : list user_t := [demo_root; demo_ann].
(** The group of operators, of which root is the only member, and ann's. *)
Definition demo_groups : list members :=
  [Members [111; 112] 10 [[114; 111; 111; 116]]; Members [97] 1001 [[97; 110; 110]]].

Definition demo_view (uid : Z) : uview :=
  UView {[ passwdfile := 1%nat; groupfile := 2%nat ]}
        {[ 1%nat := passwd demo_users; 2%nat := unlines (group_lines demo_groups) ]} ∅
        (fun _ _ => true) uid 0 {[ [] := DirInfo 0 0 DIRMODE; str "/home" := DirInfo 0 0 DIRMODE ]}.

Ltac field := unfold field_ok; apply (bool_decide_unpack _); vm_compute; exact I.

Lemma demo_users_ok : Forall user_ok demo_users.
Proof.
  apply Forall_cons; split; [|apply Forall_singleton]; constructor; try field; try (unfold int_ok; cbn; lia);
    intros p [= <-]; (split; [field|done]).
Qed.
Lemma demo_groups_ok : Forall members_ok demo_groups.
Proof.
  apply Forall_cons; split; [|apply Forall_singleton]; (constructor; [field|unfold int_ok; cbn; lia|]);
    apply Forall_singleton; (split_and!; [field|field|done]).
Qed.

Lemma demo_databases uid : databases 500 (demo_view uid) demo_users demo_groups.
Proof.
  constructor; [by exists 1%nat|by exists 2%nat|apply demo_users_ok|apply demo_groups_ok|done|].
  repeat split; apply Nat.leb_le; by vm_compute.
Qed.

Lemma authuid_correct_witness :
  wp (authuid demo_junk 0 demo_heap 500 [97; 110; 110] [112; 119]) (fun r w' => w' = demo_view 0 /\
    if uv_may (demo_view 0) passwdfile u_RDONLY then
      match find (has_name [97; 110; 110]) demo_users with
      | Some u => if may_login [112; 119] u then r.2 = Some (u_uid u) else r = (AUTHFAIL, None)
      | None => r = (NOTFOUND, None)
      end
    else r = (NOPERMS, None)) (demo_view 0).
Proof.
  apply (authuid_correct demo_junk 0 demo_heap 500 eq_refl ltac:(done) ltac:(done) (demo_view 0) (demo_view 0) 1
           demo_users [97; 110; 110] [112; 119]); try done; [apply demo_users_ok|apply Nat.leb_le; by vm_compute..].
Defined.

Lemma changepass_correct_witness :
  wp (changepass demo_junk 0 demo_heap 500 [97; 110; 110] [112; 119] [120]) (fun code w' =>
    if uv_may (demo_view 1001) passwdfile u_RDWR then
      match find (has_name [97; 110; 110]) demo_users with
      | Some u =>
          if may_change (demo_view 1001) [112; 119] u
          then code = 0 /\ exists us1 us2 v', demo_users = us1 ++ u :: us2 /\
                 Forall (fun u => has_name [97; 110; 110] u = false) us1 /\ w' = v' /\
                 rewritten (demo_view 1001) 1 (passwd (us1 ++ u_with_password (Some (cstr [120])) u :: us2)) v'
          else code = NOPERMS /\ w' = demo_view 1001
      | None => code = NOTFOUND /\ w' = demo_view 1001
      end
    else code = NOPERMS /\ w' = demo_view 1001) (demo_view 1001).
Proof.
  apply (changepass_correct demo_junk 0 demo_heap 500 eq_refl ltac:(done) ltac:(done) (demo_view 1001) (demo_view 1001) 1
           demo_users [97; 110; 110] [112; 119] [120]); try done;
    [apply demo_users_ok|apply Nat.leb_le; by vm_compute..].
Defined.

(** Ann, user 1001, changes the password to one that goes on with the fields of
    a superuser, and the first part of it authenticates ann as user 0. *)
Lemma password_with_colons_witness :
  wp (do* changepass demo_junk 0 demo_heap 500 (str "ann") (str "pw") (str "x:0:0:Ann:/") in
      authuid demo_junk 0 demo_heap 500 (str "ann") (str "x")) (fun r _ => r.2 = Some 0) (demo_view 1001).
Proof.
  refine (password_with_colons demo_junk 0 demo_heap 500 eq_refl _ _ (demo_view 1001) (demo_view 1001) 1 demo_users
    (str "ann") (str "pw") demo_ann (User (str "ann") (Some (str "x")) 0 0 (str "Ann") (str "/"))
    _ _ _ _ _ _ _ _ _ _ _ _ _ _ _); try done; [apply demo_users_ok| |apply Nat.leb_le; by vm_compute..].
  constructor; try field; [|unfold int_ok; cbn; lia..]. intros p [= <-]. split; [field|done].
Defined.

(** The number of ann is taken. *)
Lemma adduser_reserved_witness :
  wp (adduser demo_junk 0 demo_heap 500 (str "bob") 1001 (str "Bob") (str "/b") 1000 1000)
    (fun r w' => w' = demo_view 0 /\ r = if uv_may (demo_view 0) passwdfile u_RDWR then RESERVED else NOPERMS) (demo_view 0).
Proof.
  refine (adduser_reserved demo_junk 0 demo_heap 500 eq_refl _ _ (demo_view 0) (demo_view 0) 1
            demo_users (str "bob") 1001 (str "Bob") (str "/b") 1000 1000 _ _ _ _ _ _ _); try done;
    [apply demo_users_ok|apply Nat.leb_le; by vm_compute..|].
  exists demo_ann. split; [right; by left|by right].
Defined.

#[export] Instance mem_home : UserHomeSpec uview.
Proof.
  constructor; cbn [us_mkdir us_chown mem_sys].
  - intros w v parent name d -> _ _ Hn _ _. set (path := parent ++ 47 :: name) in *. unfold mem_mkdir. wp_step. wp_step. rewrite Hn.
    destruct (uv_dir v !! path) eqn:E.
    + wp_step. by exists v.
    + wp_step. wp_step. apply wp_ret. by eexists.
  - intros w v path uid gid d -> _ He Hd _. unfold mem_chown. wp_step. wp_step. rewrite Hd, He. change (0 =? 0) with true. cbv iota.
    repeat wp_step. by eexists.
Defined.

(** Number 1001 is taken, so bob gets 1002. *)
Definition demo_bob : user_t := User (str "bob") None 1002 1002 (str "Bob") (str "/b").

Lemma demo_can_add : can_add 500 (demo_view 0) 1 2 demo_users demo_groups demo_bob.
Proof.
  constructor; try done.
  - split; [apply demo_users_ok|done].
  - split; [apply demo_groups_ok|done].
  - split_and!; try done; [|split_and!; [field|field|done]]. constructor; try field; try done; unfold int_ok; cbn; lia.
  - split_and!; [|apply (bool_decide_unpack _); by vm_compute..].
    split; [exists [str "b"]; split_and!; [done|done|]; apply (bool_decide_unpack _); by vm_compute|done|by vm_compute| |by vm_compute].
    eexists [], (str "b"), _. split_and!; [done|apply (bool_decide_unpack _); by vm_compute|by vm_compute|by vm_compute].
  - apply (bool_decide_unpack _). by vm_compute.
  - apply (bool_decide_unpack _). by vm_compute.
  - split_and!; apply Nat.leb_le; by vm_compute.
Qed.

Lemma adduser_correct_witness :
  wp (adduser demo_junk 0 demo_heap 500 (str "bob") 0 (str "Bob") (str "/b") 1001 1002) (fun r w' => r = 0 /\
    exists v', w' = v' /\ added (demo_view 0) 1 2 demo_users demo_groups demo_bob v') (demo_view 0).
Proof.
  refine (adduser_correct demo_junk 0 demo_heap 500 eq_refl _ _ (demo_view 0) (demo_view 0) 1 2 demo_users demo_groups demo_bob
            0 1001 1002 eq_refl demo_can_add _); [done..|].
  split; [lia|]. split_and!; [done|apply (bool_decide_unpack _); by vm_compute|].
  intros i Hi. cbn in Hi. right. left. cbn. lia.
Defined.

(** A wrong password for root, then ann logs in. *)
Lemma login_grants_witness :
  wp (login demo_junk 0 demo_heap 500
        [([114; 111; 111; 116; 10], [10]); ([97; 110; 110; 10], [112; 119; 10])] None []) (fun r w' => w' = demo_view 0 /\
    match r with
    | Some (uid, gids) => exists failed userbuf passbuf rest u,
        [([114; 111; 111; 116; 10], [10]); ([97; 110; 110; 10], [112; 119; 10])] =
          failed ++ (userbuf, passbuf) :: rest /\
        find (has_name (typed userbuf)) demo_users = Some u /\ may_login (typed passbuf) u = true /\
        uid = Some (u_uid u) /\ gids = groups_tried demo_groups (failed ++ [(userbuf, passbuf)])
    | None => True
    end) (demo_view 0).
Proof.
  apply (login_grants demo_junk 0 demo_heap 500 eq_refl ltac:(done) ltac:(done) (demo_view 0) (demo_view 0)
           demo_users demo_groups); [done|apply demo_databases].
Defined.

(** After a failed attempt as root, ann's shell is an operator too. *)
Example login_leaks_groups :
  match login demo_junk 0 demo_heap 500
          [([114; 111; 111; 116; 10], [10]); ([97; 110; 110; 10], [112; 119; 10])] None [] (demo_view 0) with
  | Ok r _ _ => r = Some (Some 1001, [10; 1001])
  | _ => False
  end.
Proof. by vm_compute. Qed.

(** The members a, b and c without b are "ac". *)
Example remove_joins_neighbours :
  match removeuserfromgroup demo_heap [98] (Group [103] 5 (Some [97; 44; 98; 44; 99])) (demo_view 0) with
  | Ok r _ _ => r = (0, Group [103] 5 (Some [97; 99]))
  | _ => False
  end.
Proof. by vm_compute. Qed.

(** The first member is added again. *)
Example add_first_twice :
  addusertogroup [97] (Group [103] 5 (Some [97; 44; 98])) = (0, Group [103] 5 (Some [97; 44; 98; 44; 97])).
Proof. by vm_compute. Qed.

(** ** The shell *)

(** "ls >x": an argument and a redirection. *)
Lemma parsecmd_strings_witness :
  exists c buf, parsecmd [108; 115; 32; 62; 120] = Ok (c, buf) [] [] /\ length (tokens c) = 2%nat /\
    Forall (string_ok [108; 115; 32; 62; 120] buf) (tokens c).
Proof.
  destruct (parsecmd [108; 115; 32; 62; 120]) as [[c buf] s' w| | |] eqn:E; [|by vm_compute in E..].
  destruct (parsecmd_strings [108; 115; 32; 62; 120] c buf s' w) as (-> & Hs & _);
    [rewrite !elem_of_cons, elem_of_nil; lia|exact E|]. exists c, buf.
  vm_compute in E. injection E as <- <- <-. done.
Defined.

(** (a | b x > f) & ; c *)
Lemma parse_print_witness :
  let c := AList (ABack (APipe (AExec [[97]]) (ARedir (AExec [[98]; [120]]) how_out [102]))) (AExec [[99]]) in
  exists c' buf, parsecmd (print_cmd c) = Ok (c', buf) [] [] /\ resolve c' = c.
Proof.
  apply (parse_print (AList (ABack (APipe (AExec [[97]]) (ARedir (AExec [[98]; [120]]) how_out [102]))) (AExec [[99]]))).
  assert (Hw : forall x, bool_decide (x ∈ [97; 98; 99; 102; 120]) = true -> word_ok [x]).
  { intros x Hx%bool_decide_eq_true_1. split; [done|]. apply Forall_singleton.
    assert (x = 97 \/ x = 98 \/ x = 99 \/ x = 102 \/ x = 120) as Hc by set_solver.
    by destruct Hc as [->|[->|[->|[->| ->]]]]. }
  cbn. unfold MAXARGS. split_and!; try lia; try (repeat constructor; by apply Hw); by apply Hw.
Defined.

(** ** The heap *)

Definition demo_grant (brk n : Z) : bool := brk + n <? 2 ^ 20.
Definition demo_heap0 : Umalloc.heap := Heap (fun _ => 0) 0 4096.
Definition demo_heap1 : Umalloc.heap :=
  Heap (store32 (store32 (store32 (fun _ => 0) 16 16) 20 0) 68 3) 16 4096.

Lemma demo_grant_ok brk n : demo_grant brk n = true -> brk + n < 2 ^ 31.
Proof. unfold demo_grant. rewrite Z.ltb_lt. lia. Qed.

Lemma malloc_correct_witness :
  wp (malloc 16 demo_grant 2 100) (fun r h' =>
    (r = 0 /\ heap_rep 16 h' [] [] /\ Forall (fun b => 8 * b.2 < 100 + 8) ([] : list (Z * Z)) /\
       (exists k, 100 + 8 <= k /\ demo_grant 4096 k = false) \/
     exists free' n, heap_ok 16 h' free' [(r - 8, n)] /\ 100 + 8 <= 8 * n /\
       units free' + n = units [] + (h_brk h' - 4096) / 8) /\
    forall u x, u ∈ ([] : list (Z * Z)) -> u.1 <= x < ends u -> h_mem h' x = 0) demo_heap0.
Proof.
  apply (malloc_correct 16 ltac:(lia) demo_grant demo_grant_ok demo_heap0 [] [] 100 2); [left; cbn; split_and!; done || lia|lia|cbn; lia].
Defined.

Lemma free_correct_witness :
  wp (Umalloc.free 1 72) (fun _ h' => exists free', heap_ok 16 h' free' [] /\
    units free' = units [] + 3 /\ h_brk h' = 4096 /\
    forall u x, u ∈ ([] : list (Z * Z)) -> u.1 <= x < ends u -> h_mem h' x = h_mem demo_heap1 x) demo_heap1.
Proof.
  apply (free_correct 16 ltac:(lia) demo_heap1 [] [] 64 3 [] 1); [|cbn; lia]. constructor; cbn [h_mem h_brk h_freep demo_heap1].
  - by vm_compute.
  - done.
  - constructor.
  - constructor; [|constructor]. unfold inside, ends. cbn. lia.
  - constructor; [by vm_compute|constructor].
  - done.
  - by constructor.
  - cbn. by left.
  - lia.
Defined.

(** ** grep *)

(** "b" in the lines "ab", "cd" and "b". *)
Definition grep_view : uview :=
  UView ∅ {[ 0%nat := [97; 98; 10; 99; 100; 10; 98; 10]; 1%nat := [] ]} {[ 3 := (0%nat, 0); 1 := (1%nat, 0) ]} (fun _ _ => true) 0 0 ∅.

Lemma grep_correct_witness :
  wp (grep 9 [98] 3 []) (fun _ w' => exists v', w' = v' /\ uv_name v' = uv_name grep_view /\
    uv_data v' = <[1%nat := [97; 98; 10; 98; 10]]> (uv_data grep_view)) grep_view.
Proof.
  assert (E : [97; 98; 10; 98; 10] = [] ++ concat ((fun line => line ++ [10]) <$>
    filter (fun line => grep_match [98] line = true) (removelast (split_on 10 [97; 98; 10; 99; 100; 10; 98; 10])))) by (by vm_compute).
  rewrite E.
  apply (@grep_correct uview mem_sys mem_sys_spec grep_view grep_view 3 0 1 [97; 98; 10; 99; 100; 10; 98; 10] [] [98] 9).
  - reflexivity.
  - lia.
  - lia.
  - by vm_compute.
  - by vm_compute.
  - by vm_compute.
  - by vm_compute.
  - rewrite !not_elem_of_cons. split_and!; [lia..|apply not_elem_of_nil].
  - repeat constructor; cbn; lia.
  - cbn. lia.
Defined.

(** ** Small programs *)

Lemma wc_correct_witness :
  wp (wc 9 3 (str "f")) (fun r w' => r = true /\ exists v' t, w' = v' /\
    texts [Dec 3; Lit 32; Dec 3; Lit 32; Dec 8; Lit 32; Str (str "f"); Lit 10] t /\
    uv_name v' = uv_name grep_view /\ uv_data v' = <[1%nat := [] ++ t]> (uv_data grep_view)) grep_view.
Proof.
  apply (@wc_correct uview mem_sys mem_sys_spec grep_view grep_view 3 0 1 [97; 98; 10; 99; 100; 10; 98; 10] [] (str "f") 9);
    try done; [repeat constructor; cbn; lia|cbn; lia].
Defined.

Lemma cat_correct_witness :
  wp (cat 9 3) (fun r w' => r = true /\ exists v', w' = v' /\ uv_name v' = uv_name grep_view /\
    uv_data v' = <[1%nat := [] ++ [97; 98; 10; 99; 100; 10; 98; 10]]> (uv_data grep_view)) grep_view.
Proof.
  apply (@cat_correct uview mem_sys mem_sys_spec grep_view grep_view 3 0 1 [97; 98; 10; 99; 100; 10; 98; 10] [] 9); try done; cbn; lia.
Defined.

(** ** chmod *)

Definition mv_find (path : list Z) (v : mview) : option (Z * dinode) :=
  i ← mv_name v !! path; d ← mv_ino v !! i; Some (i, d).
Definition readable_b (v : mview) (d : dinode) : bool :=
  (mv_euid v =? 0) || Z.testbit (d_mode d) 2 || (d_uid d =? mv_euid v) && Z.testbit (d_mode d) 8.
Definition changeable_b (v : mview) (d : dinode) : bool := (mv_euid v =? 0) || (d_uid d =? mv_uid v).

#[export] Instance mode_sys : UserSys mview := {|
  us_open path mode :=
    let* v := get in
    match mv_find path v with
    | Some (i, d) => if readable_b v d && (0 <? mv_room v)%nat then do* modify (mv_opened i) in ret 3 else ret (-1)
    | None => ret (-1)
    end;
  us_close _ := ret 0;
  us_read _ _ := ret (-1, []);
  us_write _ l := ret (Z.of_nat (length l));
  us_lseek _ _ _ := ret (-1);
  us_trim _ := ret (-1);
  us_unlink _ := ret (-1);
  us_chdir _ := ret (-1);
  us_mkdir _ := ret (-1);
  us_chown _ _ _ := ret (-1);
  us_getuid := gets mv_uid |}.
#[export] Instance mode_calls : UserMode mview := {|
  um_stat path := gets (fun v => match mv_find path v with
                                 | Some (i, d) => if readable_b v d && (0 <? mv_room v)%nat then Some (mode_string d) else None
                                 | None => None
                                 end);
  um_chmod path mode :=
    let* v := get in
    match mv_find path v with
    | Some (i, d) => if changeable_b v d then do* modify (mv_set i (d_with_mode mode d)) in ret 0 else ret (-1)
    | None => ret (-1)
    end |}.

#[export] Instance mode_spec : UserModeSpec mview.
Proof.
  assert (Hfind : forall v path i d, mv_name v !! path = Some i -> mv_ino v !! i = Some d -> mv_find path v = Some (i, d)).
  { intros v path i d Hi Hd. unfold mv_find. rewrite Hi. cbn. by rewrite Hd. }
  assert (Hread : forall v d, readable v d -> readable_b v d = true).
  { unfold readable, readable_b. intros v d [->|[->|[-> ->]]]; rewrite ?Z.eqb_refl, ?orb_true_r; done. }
  refine {| um_rep := eq |}; cbn [us_open um_stat um_chmod mode_sys mode_calls].
  - intros w v path i d -> Hi Hd Hr Hk. wp_step. wp_step.
    rewrite (Hfind v path i d), Hread, (proj2 (Nat.ltb_lt _ _) Hk) by done. cbn [andb]. repeat wp_step. split; [lia|done].
  - intros w v path i d -> Hi Hd Hr Hk. wp_step. by rewrite (Hfind v path i d), Hread, (proj2 (Nat.ltb_lt _ _) Hk) by done.
  - intros w v path i d mode -> Hi Hd _ Hc _. wp_step. wp_step. rewrite (Hfind v path i d) by done.
    assert (Hcb : changeable_b v d = true) by (unfold changeable_b; destruct Hc as [E|E]; rewrite E, ?Z.eqb_refl, ?orb_true_r; done).
    rewrite Hcb. by repeat wp_step.
Defined.

(** [chmod u+x] of a file with mode 01644 and of one that nobody may write. *)
Definition demo_modes : mview :=
  MView {[ str "f" := 7; str "g" := 8; str "h" := 9 ]}
        {[ 7 := DInode 2 0 0 1 0 [] 5 5 0x3a4; 8 := DInode 2 0 0 1 0 [] 5 5 0x124; 9 := DInode 2 0 0 1 0 [] 0 0 0x1a4 ]} ∅ 5 5 3.

Lemma chmod_symbolic_witness :
  wp (chmod_main [[117; 43; 120]; str "f"; str "g"])
    (fun _ w' => exists v', w' = v' /\ modes_changed 117 43 120 [str "f"; str "g"] demo_modes v') demo_modes.
Proof.
  refine (chmod_symbolic 117 43 120 [str "f"; str "g"] demo_modes demo_modes _ _ _ _ _ _).
  - split_and!; [lia|set_solver|right; set_solver].
  - done.
  - reflexivity.
  - cbn; lia.
  - repeat constructor; (eexists _, _; split_and!; [by vm_compute|by vm_compute|right; by left|by right]).
  - apply (bool_decide_unpack _). by vm_compute.
Defined.

(** ** The command line programs on files in memory

    Concrete inputs for the theorems of [UcmdsSpec]: the system of [DemoUser]
    with a standard input and output. *)

#[export] Instance mem_owner : UserOwner uview := {| uo_stat := fun _ => ret (Some (0, 0)) |}.

(** Two lines of input in file 3, the output in file 4. *)
Definition demo_input : list Z := str "pw" ++ [10] ++ str "x" ++ [10].
Definition demo_term (uid : Z) : uview :=
  UView (uv_name (demo_view uid)) (<[3%nat := demo_input]> (<[4%nat := []]> (uv_data (demo_view uid))))
        {[ 0 := (3%nat, 0); 1 := (4%nat, 0) ]} (uv_may (demo_view uid)) uid 0 (uv_dir (demo_view uid)).

Lemma ugets_correct_witness :
  wp (ugets 100) (fun r w' => r = upto_eol 99 demo_input /\ (length r <= 99)%nat /\
    w' = uv_set_fd 0 3 (0 + Z.of_nat (length r)) (demo_term 7)) (demo_term 7).
Proof.
  refine (ugets_correct (demo_term 7) (demo_term 7) 3 0 demo_input 100 eq_refl _ _ _); [done|done|]. apply (bool_decide_unpack _). by vm_compute.
Defined.

Lemma demo_stdout uid : stdout (demo_term uid) 4 [].
Proof. done. Qed.

Lemma owners_need_superuser_witness :
  let refused := fun (_ : unit) w' => exists t, texts refusal t /\ w' = out_view (demo_term 7) 4 ([] ++ t) in
  wp (chown_main demo_junk 0 demo_heap 500 [str "root:"; str "/f"]) refused (demo_term 7) /\
  wp (chgrp_main demo_junk 0 demo_heap 500 [str "root:"; str "/f"]) refused (demo_term 7).
Proof. refine (owners_need_superuser demo_junk 0 demo_heap 500 (demo_term 7) (demo_term 7) 4 [] _ eq_refl (demo_stdout 7) _). done. Defined.

Definition demo_args : list uopt := [OUid (str "1003"); OName (str "Bob")].

Lemma demo_can_describe : can_add 500 (demo_term 0) 1 2 demo_users demo_groups (described demo_args (str "bob") 1003).
Proof.
  constructor; try done.
  - split; [apply demo_users_ok|done].
  - split; [apply demo_groups_ok|done].
  - split_and!; try done; [|split_and!; [field|field|done]]. constructor; try field; try done; unfold int_ok; cbn; lia.
  - split_and!; [|apply (bool_decide_unpack _); by vm_compute..].
    split; [exists [str "home"; str "bob"]; split_and!; [done|done|]; apply (bool_decide_unpack _); by vm_compute|done|by vm_compute| |by vm_compute].
    eexists (str "/home"), (str "bob"), _. split_and!; [done|apply (bool_decide_unpack _); by vm_compute|by vm_compute|by vm_compute].
  - apply (bool_decide_unpack _). by vm_compute.
  - apply (bool_decide_unpack _). by vm_compute.
  - split_and!; apply Nat.leb_le; by vm_compute.
Qed.

Lemma useradd_correct_witness :
  wp (useradd_main demo_junk 0 demo_heap 500 [str "-u"; str "1003"; str "-c"; str "Bob"; str "bob"]) (fun _ w' => exists v' t,
    w' = out_view v' 4 ([] ++ t) /\ texts (user_added (str "bob")) t /\
    added (demo_term 0) 1 2 demo_users demo_groups (described demo_args (str "bob") 1003) v') (demo_term 0).
Proof.
  refine (useradd_correct demo_junk 0 demo_heap 500 (demo_term 0) (demo_term 0) 1 2 4 [] demo_users demo_groups demo_args (str "bob") 1003
            eq_refl _ _ eq_refl (demo_stdout 0) _ _ _ _ demo_can_describe _); try done.
  - repeat constructor. by vm_compute.
  - apply (bool_decide_unpack _). by vm_compute.
  - split; [by vm_compute|]. apply (bool_decide_unpack _). by vm_compute.
Defined.

(** ** A tree given away

    A file system in memory with a home directory, and [permsapplyr] on it. *)

Definition dv_fresh (v : dview) : Z :=
  Z.of_nat (fresh (list_to_set (Z.to_nat <$> (map_to_list (dv_fd v)).*1) : gset nat)).
Lemma dv_fresh_free v : dv_fd v !! dv_fresh v = None.
Proof.
  destruct (dv_fd v !! dv_fresh v) as [x|] eqn:E; [|done].
  destruct (is_fresh (list_to_set (Z.to_nat <$> (map_to_list (dv_fd v)).*1) : gset nat)).
  apply elem_of_list_to_set, list_elem_of_fmap. exists (dv_fresh v). split; [unfold dv_fresh; by rewrite Nat2Z.id|].
  apply list_elem_of_fmap. exists (dv_fresh v, x). split; [done|]. by apply elem_of_map_to_list.
Qed.

(** Opening fails where the tables of open files are full; the owner changes for
    the superuser. *)
#[export] Instance tree_sys : UserSys dview := {|
  us_open path mode :=
    let* v := get in
    match dv_node v !! path, dv_room v with
    | Some n, S _ => do* modify (dv_open (dv_fresh v) n) in ret (dv_fresh v)
    | _, _ => ret (-1)
    end;
  us_close fd := do* modify (dv_close fd) in ret 0;
  us_read _ _ := ret (-1, []);
  us_write _ l := ret (Z.of_nat (length l));
  us_lseek _ _ _ := ret (-1);
  us_trim _ := ret (-1);
  us_unlink _ := ret (-1);
  us_chdir _ := ret (-1);
  us_mkdir _ := ret (-1);
  us_chown path uid gid :=
    let* v := get in
    match dv_node v !! path with
    | Some n => if dv_euid v =? 0 then do* modify (dv_chown (ninode n) (uid, gid)) in ret 0 else ret (-1)
    | None => ret (-1)
    end;
  us_getuid := ret 0 |}.
#[export] Instance tree_dir : UserDir dview := {|
  ud_type fd := gets (fun v => (fun x : dnode * list (Z * list Z) => ntype x.1) <$> dv_fd v !! fd);
  ud_read fd :=
    let* v := get in
    match dv_fd v !! fd with
    | Some (n, es) => do* modify (dv_set_fd fd n (tail es)) in ret (head es)
    | None => ret None
    end;
  ud_stat path := gets (fun v => match dv_node v !! path, dv_room v with Some _, S _ => 0 | _, _ => -1 end);
  ud_link _ _ := ret (-1) |}.

#[export] Instance tree_spec : UserDirSpec dview.
Proof.
  refine {| ud_rep := eq |}; cbn [us_open us_close us_chown ud_type ud_read ud_stat tree_sys tree_dir].
  - intros w v path n -> Hn _ _ Hr. wp_step. wp_step. rewrite Hn. destruct (dv_room v); [lia|].
    repeat wp_step. split_and!; [unfold dv_fresh; lia|apply dv_fresh_free|done].
  - intros w v fd x -> _. by repeat wp_step.
  - intros w v fd n es -> Hfd. wp_step. by rewrite Hfd.
  - intros w v fd n es -> Hfd _. wp_step. wp_step. rewrite Hfd. by repeat wp_step.
  - intros w v path n -> Hn _ _ Hr. wp_step. rewrite Hn. destruct (dv_room v); [lia|done].
  - intros w v path n uid gid -> Hn _ He. wp_step. wp_step. rewrite Hn, He. change (0 =? 0) with true. cbv iota. by repeat wp_step.
Defined.

(** [/h] with the file [a], a free entry, and the directory [d] with [b]; [a] is
    also [/etc]. *)
Definition demo_home : gmap (list Z) dnode :=
  {[ [] := NDir 1 0x1ed [(1, padded (str ".")); (1, padded (str "..")); (5, padded (str "h")); (6, padded (str "etc"))];
     str "/etc" := NFile 6;
     str "/h" := NDir 5 0x1ed [(5, padded (str ".")); (1, padded (str "..")); (6, padded (str "a")); (0, padded (str "x")); (7, padded (str "d"))];
     str "/h/a" := NFile 6;
     str "/h/d" := NDir 7 0x1ed [(7, padded (str ".")); (5, padded (str "..")); (8, padded (str "b"))];
     str "/h/d/b" := NFile 8 ]}.
Definition demo_tree : ftree := TDir 5 (FCons (str "a") (TFile 6) (FCons (str "d") (TDir 7 (FCons (str "b") (TFile 8) FNil)) FNil)).
Definition demo_dview : dview := DView demo_home ∅ {[ 1 := (0, 0); 6 := (0, 0) ]} 4 0.

Lemma demo_name c : 0 < c < 256 -> c <> 47 -> dirname_ok [c].
Proof. intros H1 H2. split_and!; [done|cbn; unfold DIRSIZ; lia|by apply Forall_singleton]. Qed.

Lemma demo_tree_at : tree_at 9 (dv_node demo_dview) (str "/h") demo_tree.
Proof.
  eexists _, _, _, _, _. split_and!; [by vm_compute|by vm_compute|by vm_compute|cbn; lia|by vm_compute|].
  eexists _, _. split_and!; [done|by apply demo_name|by vm_compute|].
  eexists _, _. split_and!; [done|by apply demo_name| |done].
  eexists _, _, _, _, _. split_and!; [by vm_compute|by vm_compute|by vm_compute|cbn; lia|by vm_compute|].
  eexists _, _. split_and!; [done|by apply demo_name|by vm_compute|done].
Qed.

Lemma demo_reached : reached (dv_node demo_dview) (str "/h").
Proof.
  intros q r E. destruct q as [|c [|c' q]]; [eexists _, _, _; split; by vm_compute| |].
  - by injection E.
  - injection E as _ _ E. symmetry in E. by apply app_nil in E as [_ ?].
Qed.

Lemma permsapplyr_correct_witness :
  wp (permsapplyr 9 3 (str "/h") 7 7) (fun _ w' => exists v', w' = v' /\
    dv_node v' = demo_home /\ dv_fd v' = ∅ /\ dv_room v' = 4%nat /\
    forall i, dv_own v' !! i = if decide (i ∈ inodes demo_tree) then Some (7, 7) else dv_own demo_dview !! i) demo_dview.
Proof.
  refine (permsapplyr_correct 9 3 (str "/h") 7 7 demo_tree demo_dview demo_dview demo_tree_at demo_reached _ _ _ _);
    [cbn; lia|cbn; lia|reflexivity|reflexivity].
Defined.
