(* ===== verification/DemoShell.v ===== *)
(** * A script run by the shell

    A schedule computed for a script with a pipe, a redirection, a list and a
    background command, and the theorems on the shell applied to it. *)

From S2P Require Import Prelude CString Sh ShRound ShRun ShRunSpec.

(** The first process that can make a step makes it. *)
Definition try_step (K : kern) (p : process) (rest : list process) (tr : list event) : option (list process * list event) :=
  match advance K p with
  | Some (p', new, ev) => Some (p' :: new ++ rest, tr ++ [ev])
  | None =>
      match p_code p with
      | Run (DoWait k) =>
          let x := p_ctx p in
          match list_find (fun c => child_of (x_name x) c /\ match p_code c with Gone => true | _ => false end = true) rest with
          | Some (i, _) => Some (Proc (reaped x) (Run k) :: delete i rest, tr ++ [Other (x_name x)])
          | None => if bool_decide (Forall (fun c => ~ child_of (x_name x) c) rest)
                    then Some (Proc x (Run k) :: rest, tr ++ [Other (x_name x)]) else None
          end
      | _ => None
      end
  end.
Fixpoint try_all (K : kern) (done todo : list process) (tr : list event) : option (list process * list event) :=
  match todo with
  | [] => None
  | p :: todo =>
      match try_step K p (done ++ todo) tr with
      | Some st => Some st
      | None => try_all K (done ++ [p]) todo tr
      end
  end.
Fixpoint schedule (K : kern) (steps : nat) (st : list process * list event) : list process * list event :=
  match steps with
  | O => st
  | S steps => match try_all K [] st.1 st.2 with Some st => schedule K steps st | None => st end
  end.

Lemma try_step_sound K p rest tr pool st :
  pool ≡ₚ p :: rest -> try_step K p rest tr = Some st -> shstep K (pool, tr) st.
Proof.
  intros E. unfold try_step. destruct (advance K p) as [[[p' new] ev]|] eqn:Ha.
  { intros [= <-]. by eapply step_call. }
  destruct p as [x [[]| |]]; try done. cbn. destruct (list_find _ rest) as [[i c]|] eqn:Ef.
  - intros [= <-]. apply list_find_Some in Ef as (Hi & (Hk & Hg) & _).
    eapply (step_wait K pool x k c); [|done|by destruct (p_code c)].
    rewrite E. apply perm_skip. by apply delete_Permutation.
  - case_bool_decide as Hno; [|done]. intros [= <-]. by eapply step_nochild.
Qed.
Lemma try_all_sound K todo : forall dn tr st, try_all K dn todo tr = Some st -> shstep K (dn ++ todo, tr) st.
Proof.
  induction todo as [|p todo IH]; intros dn tr st; cbn; [done|]. destruct (try_step K p (dn ++ todo) tr) eqn:E.
  - intros [= <-]. eapply try_step_sound; [|exact E]. by rewrite Permutation_middle.
  - intros H. apply IH in H. by rewrite <- app_assoc in H.
Qed.
Lemma schedule_sound K steps : forall st, rtc (shstep K) st (schedule K steps st).
Proof.
  induction steps as [|steps IH]; intros [pool tr]; cbn; [done|]. destruct (try_all K [] pool tr) as [st|] eqn:E; [|done].
  apply try_all_sound in E. by eapply rtc_l.
Qed.

(** [cat x | wc > y], then [echo a & ; ls]. *)
Definition demo_script : list acmd :=
  [APipe (AExec [str "cat"; str "x"]) (ARedir (AExec [str "wc"]) how_out (str "y"));
   AList (ABack (AExec [str "echo"; str "a"])) (AExec [str "ls"])].
Definition demo_kern : kern :=
  Kern (fun _ _ => true) (fun _ => true) (fun _ => true) (fun _ _ => true) (fun _ => Some 7%positive)
    (fun n => match n with [] => concat (line <$> demo_script) | _ => [] end).
Definition demo_io : stdio := (Inherited 0, Inherited 1, Inherited 2).

#[local] Instance word_char_dec c : Decision (ShSpec.word_char c).
Proof. unfold ShSpec.word_char. apply _. Defined.
#[local] Instance word_ok_dec w : Decision (word_ok w).
Proof. unfold word_ok. apply _. Defined.

Lemma demo_script_ok : Forall line_ok demo_script.
Proof.
  repeat (apply Forall_cons; split); [..|by constructor].
  all: split_and!; [|by apply (bool_decide_unpack _); vm_compute|by vm_compute; lia].
  all: cbn [acmd_ok]; split_and!; try (apply (bool_decide_unpack _); by vm_compute); by right.
Defined.

(** Nothing happens once all processes have ended. *)
Lemma gone_nf K pool tr : forallb (fun p => match p_code p with Gone => true | _ => false end) pool = true -> nf (shstep K) (pool, tr).
Proof.
  intros H [st Hs]. assert (Hg : forall p rest, pool ≡ₚ p :: rest -> p_code p = Gone).
  { intros p rest E. rewrite forallb_forall in H. specialize (H p). destruct (p_code p); try done.
    all: assert (Hp : p ∈ pool) by (rewrite E; by left); apply list_elem_of_In in Hp; by apply H in Hp. }
  inversion Hs as [? ? ? ? ? ? ? E Ha|? ? ? ? ? ? E|? ? ? ? ? E]; subst; pose proof (Hg _ _ E) as Ec; [|done|done].
  unfold advance in Ha. by rewrite Ec in Ha.
Qed.

Lemma shell_safe_witness :
  exists pool tr, rtc (shstep demo_kern) (shell demo_kern 3 demo_io) (pool, tr) /\ length (launched tr) = 2%nat /\
    launched tr ⊆+ wired_lines demo_kern demo_script 0 [] demo_io /\ ordered tr.
Proof.
  set (st := schedule demo_kern 60 (shell demo_kern 3 demo_io)). exists st.1, st.2.
  assert (Hr : rtc (shstep demo_kern) (shell demo_kern 3 demo_io) (st.1, st.2)).
  { rewrite <- surjective_pairing. apply schedule_sound. }
  split; [exact Hr|]. split; [by vm_compute|].
  exact (shell_safe demo_kern demo_script 3 demo_io st.1 st.2 demo_script_ok eq_refl ltac:(by vm_compute; lia) Hr).
Defined.

Lemma shell_complete_witness :
  exists pool tr, rtc (shstep demo_kern) (shell demo_kern 3 demo_io) (pool, tr) /\ nf (shstep demo_kern) (pool, tr) /\
    launched tr ≡ₚ wired_lines demo_kern demo_script 0 [] demo_io.
Proof.
  destruct (shell_complete demo_kern demo_script 3 demo_io demo_script_ok eq_refl ltac:(by vm_compute; lia)) as [_ H].
  { by split. }
  set (st := schedule demo_kern 70 (shell demo_kern 3 demo_io)). exists st.1, st.2.
  assert (Hr : rtc (shstep demo_kern) (shell demo_kern 3 demo_io) (st.1, st.2)).
  { rewrite <- surjective_pairing. apply schedule_sound. }
  assert (Hnf : nf (shstep demo_kern) (st.1, st.2)) by (apply gone_nf; by vm_compute).
  split_and!; [exact Hr|exact Hnf|]. by apply (H _ _ Hr Hnf).
Defined.
