(* ===== verification/DemoMkfs.v ===== *)
(** * An image with two files

    Concrete input for the theorem on [mkfs]. *)

From S2P Require Import Prelude SleepLock Bio Layout Log CString Fs FsAlloc FsInode FsFile Mkfs MkfsSpec MkfsImage.

(** ** The image with a program and a configuration file: [user/_cat] and [cfg/passwd] *)

Definition demo_sources : list source :=
  [Source [117; 115; 101; 114; 47; 95; 99; 97; 116] (Some [[127; 69; 76; 70]; [1; 1]]);
   Source [99; 102; 103; 47; 112; 97; 115; 115; 119; 100] (Some [[114; 111; 111; 116; 58; 48; 10]])].

Lemma demo_sources_ok : Forall source_ok demo_sources.
Proof.
  repeat constructor; cbn; try lia; try (apply (bool_decide_unpack _); by vm_compute); eexists; (split; [reflexivity|by repeat constructor]).
Qed.

Lemma mkfs_correct_witness :
  fits_disk (layout demo_sources) /\ wp (mkfs demo_sources) (fun _ s => image (mk_img s) (layout demo_sources)) mk_start.
Proof.
  assert (Hf : fits_disk (layout demo_sources)) by (apply small_fits; vm_compute; reflexivity).
  split; [exact Hf|]. apply mkfs_correct; [apply demo_sources_ok|exact Hf].
Defined.
