(* ===== verification/DemoBoot.v ===== *)
(** * Devices, and the start of the machine

    Concrete inputs for the theorems on the disk driver, the boot loader, the
    tables of the machine, the interrupt controllers, the clock and the
    descriptors: the simplest devices that behave as documented. *)

From S2P Require Import Prelude CString SleepLock Spinlock Bio ProcDefs Kalloc Proc Syscall Ide IdeSpec Boot BootSpec Mp Apic Segments.

(** ** A controller, and requests on it

    The simplest controller that behaves as documented, always ready, with its
    state as the view itself; and an execution with two requests. *)

Definition sim_outb (p x : Z) (v : aview) : aview :=
  match av_phase v with
  | Idle | Failed =>
      if p =? 0x1f7 then
        if x =? IDE_CMD_READ then with_phase (Reading (drive_of v) (lba_of v)) v
        else if x =? IDE_CMD_WRITE then with_phase (Taking (drive_of v) (lba_of v)) v
        else v
      else set_reg p x v
  | _ => v
  end.
Definition sim_insl (p : Z) (n : nat) (v : aview) : list Z * aview :=
  match av_phase v with
  | Ready dr l => (av_sect v dr l, with_phase Idle v)
  | _ => (replicate n 0, v)
  end.
Definition sim_outsl (p : Z) (data : list Z) (v : aview) : aview :=
  match av_phase v with
  | Taking dr l => with_phase (Writing dr l data) v
  | _ => v
  end.

(** A read that is polled ends. *)
Definition sim_inb (p : Z) (v : aview) : Z * aview :=
  (if failed v then Z.lor IDE_DRDY IDE_ERR else IDE_DRDY, match av_phase v with Reading dr l => with_phase (Ready dr l) v | _ => v end).

#[export] Instance sim_dev : AtaDev aview := {
  ata_inb := sim_inb;
  ata_outb := sim_outb;
  ata_insl := sim_insl;
  ata_outsl := sim_outsl }.

Definition sim_ok (d v : aview) : Prop :=
  d = v /\ (forall dr l, length (av_sect v dr l) = 512%nat) /\ (forall dr l x, av_phase v = Writing dr l x -> length x = 512%nat).

#[export] Instance sim_spec : AtaSpec aview.
Proof.
  refine {| ata_rep := sim_ok; ata_finish := finished; ata_polls := 0 |}.
  - by intros d v dr l (_ & Hl & _).
  - intros d v p x (-> & Hl & Hw) Hi Hp. unfold ata_outb; cbn -[set_reg]; unfold sim_outb, at_rest in *.
    destruct (Z.eqb_spec p 0x1f7) as [->|]; [rewrite !elem_of_cons, elem_of_nil in Hp; lia|].
    destruct (av_phase v) eqn:Ep; try done; repeat split; try done; cbn; intros ? ? ?; by rewrite Ep.
  - intros d v (-> & Hl & Hw) Hi _ _. cbn. unfold sim_outb, at_rest in *. destruct (av_phase v); try done; cbn; by repeat split.
  - intros d v (-> & Hl & Hw) Hi _ _. cbn. unfold sim_outb, at_rest in *. destruct (av_phase v); try done; cbn; by repeat split.
  - intros d v dr l data (-> & Hl & Hw) Hi Hd. cbn. unfold sim_outsl. rewrite Hi. repeat split; [done|]. by intros ? ? ? [= <- <- <-].
  - intros d v dr l (-> & Hl & Hw) Hi. cbn. unfold sim_insl. rewrite Hi. by repeat split.
  - intros d v (-> & Hl & Hw) Hi. exists 0%nat. cbn. unfold failed, at_rest in *.
    split; [done|]. split; [lia|]. destruct (av_phase v) eqn:Ep; try (by destruct Hi as [?|(? & ? & ?)]);
      split_and!; try done; (split; [done|]); (split; [done|]); intros ? ? ?; by rewrite Ep.
  - intros d d' v (-> & Hl & Hw) Hf. exists d'. split; [done|]. inversion Hf as [dr l E|dr l x E|dr l E|dr l x y E Hy]; subst; repeat split; try done;
      intros dr' l'; cbn; destruct (_ && _); try done; by eapply Hw.
  - intros d v v' (-> & _) Hf. by exists v'.
Defined.

Lemma sim_polls : (ata_polls (D := aview) <= 0)%nat.
Proof. done. Qed.

(** A disk of zeroes, and two buffers of process 7: one to read, one to write. *)
Definition demo_ctl : aview := AView (fun _ => 0) (fun _ _ => zero_block) Idle.
Definition demo_reading : buf := Buf 0 1 33 (SleepLock true 7) 1 zero_block.
Definition demo_writing : buf := Buf (Z.lor B_VALID B_DIRTY) 1 34 (SleepLock true 7) 1 (replicate 512 1).
Definition demo_ide : isys (D := aview) := ISys (Ide [demo_reading; demo_writing] ∅ None true demo_ctl) false ∅ ∅.

Lemma demo_istart : istart demo_ide demo_ctl.
Proof.
  constructor; try done.
  intros [|[|i]] b; cbn; [intros [= <-]; by vm_compute..|done].
Qed.

(** Both requests are queued, the first is ended, well or with an error, and
    its interrupt pending. *)
Lemma demo_irun (bad : bool) :
  exists t, irun 0 [Submit 0; Submit 1; Finish] demo_ide t /\ is_irq t = true /\ ata_rep (id_dev (is_ide t)) (id_dev (is_ide t)) /\
    failed (id_dev (is_ide t)) = bad.
Proof.
  destruct (submit_spec 0 sim_polls demo_ide [] demo_ctl 0 7 demo_reading (istart_inv _ _ demo_istart)) as (s1 & v1 & E1 & Hv1 & Eb1 & _);
    [set_solver|done|done|done|done|by right|].
  destruct (submit_spec 0 sim_polls _ _ v1 1 7 demo_writing Hv1) as (s2 & v2 & E2 & Hv2 & Eb2 & _);
    [cbn; set_solver|cbn; by rewrite Eb1|done|done|done| |].
  { right. revert E1. vm_compute. by intros [= <-]. }
  pose proof (ii_head _ _ _ Hv2 demo_reading ltac:(cbn; by rewrite Eb2; cbn; rewrite Eb1)) as Hw. cbn in Hw.
  assert (Hf : exists v3, finished v2 v3 /\ failed v3 = bad).
  { destruct bad; [exists (with_phase Failed v2)|exists (with_phase (Ready 1 33) v2)];
      (split; [|done]); [exact (fin_read_error _ _ _ Hw)|exact (fin_read _ _ _ Hw)]. }
  destruct Hf as (v3 & Hf & Hbad). pose proof (ii_dev _ _ _ Hv2) as (Ed & Hl & Hx). cbn [is_ide] in Ed.
  destruct (ata_finish_ok (id_dev s2) v3 v2) as (v4 & _ & Hr4); [done|by rewrite Ed|].
  eexists. split.
  - eapply irun_cons; [eapply (i_submit 0 demo_ide 0 7 demo_reading); [set_solver|done|done|exact E1]|].
    eapply irun_cons; [eapply (i_submit 0 _ 1 7 demo_writing); [cbn; set_solver|cbn; by rewrite Eb1|done|exact E2]|].
    eapply irun_cons; [|apply irun_nil]. eapply i_finish. cbn [is_ide]. rewrite Ed. exact Hf.
  - destruct Hr4 as (<- & Hl4 & Hx4). by repeat split.
Qed.

Lemma ide_liveness_witness :
  exists t q, irun 0 [Submit 0; Submit 1; Finish] demo_ide t /\ chain (id_qnext (is_ide t)) (id_queue (is_ide t)) q /\
    (q <> [] -> exists e t', (e = Finish \/ e = Intr) /\ istep 0 e t t') /\
    forall k i tr t', q !! k = Some i -> irun 0 tr t t' -> Return i ∉ tr -> (k < intrs tr)%nat ->
      is_asleep t' !! i = None /\ exists t'', istep 0 (Return i) t' t''.
Proof.
  destruct (demo_irun true) as (t & Hr & _). exists t.
  destruct (ide_liveness 0 sim_polls demo_ide demo_ctl _ t demo_istart Hr) as (q & Hq). by exists q.
Defined.

Lemma ide_request_done_witness :
  exists t, irun 0 [Submit 0; Submit 1; Finish] demo_ide t /\
  exists i b s' v v', id_queue (is_ide t) = Some i /\ id_buf (is_ide t) !! i = Some b /\
    ideintr 0 (is_ide t) = Ok tt s' [ChBuf i] /\ ata_rep (id_dev (is_ide t)) v /\ ata_rep (id_dev s') v' /\ av_sect v' = av_sect v /\
    exists b', id_buf s' = <[i := b']> (id_buf (is_ide t)) /\ clean b' = true /\
      b_dev b' = b_dev b /\ b_blockno b' = b_blockno b /\ b_lock b' = b_lock b /\
      (failed v = false -> b_data b' = av_sect v' (unit_of b) (b_blockno b)) /\
      (failed v = true \/ dirty b = true -> b_data b' = b_data b).
Proof.
  destruct (demo_irun false) as (t & Hr & Hirq & _). exists t. split; [exact Hr|].
  apply (ide_request_done 0 sim_polls demo_ide demo_ctl _ t demo_istart Hr Hirq).
Defined.

(** The same buffers over the synchronous driver. *)
Definition demo_mem : bio :=
  Bio [demo_reading; demo_writing] [0%nat; 1%nat] FSSIZE (list_to_map ((fun x => (x, zero_block)) <$> seqZ 0 FSSIZE)) [].

Lemma demo_mem_blocks x : 0 <= x < FSSIZE -> dk_blocks demo_mem !! x = Some zero_block.
Proof.
  intros Hx. apply elem_of_list_to_map.
  - rewrite <- list_fmap_compose, list_fmap_id. apply NoDup_seqZ.
  - apply list_elem_of_fmap. exists x. split; [done|]. apply elem_of_seqZ. lia.
Qed.

Lemma ide_memide_witness :
  exists t q v, istep 0 (Submit 0) demo_ide t /\ simulates demo_ide [] demo_ctl demo_mem /\ simulates t q v demo_mem.
Proof.
  destruct (submit_spec 0 sim_polls demo_ide [] demo_ctl 0 7 demo_reading (istart_inv _ _ demo_istart)) as (s1 & v1 & E1 & _);
    [set_solver|done|done|done|done|by right|].
  destruct (ide_memide 0 sim_polls) as [Hstart Hstep].
  pose proof (Hstart demo_ide demo_ctl demo_mem demo_istart eq_refl eq_refl demo_mem_blocks) as H0.
  pose proof (i_submit 0 demo_ide 0 7 demo_reading _ _ _ ltac:(set_solver) eq_refl eq_refl E1) as H1.
  destruct (Hstep _ _ _ _ _ _ H0 H1) as (q & v & H2). eauto 10.
Defined.

(** ** A kernel file, loaded

    A disk with a file of two segments, the second with a cleared tail. *)

#[export] Instance sim_polled : AtaPolled aview.
Proof.
  constructor. intros d v dr l (-> & Hl & Hw) Hi. exists 0%nat. cbn. unfold failed. rewrite Hi.
  split_and!; [done|lia|done|]. by repeat split.
Defined.

Definition demo_segs : list seg := [Seg 512 0x100000 600 600; Seg 1536 0x101000 16 100].
Definition demo_elf : list Z :=
  le_bytes 4 BOOT_MAGIC ++ replicate 20 0 ++ le_bytes 4 0x80100000 ++ le_bytes 4 52 ++ replicate 12 0 ++ le_bytes 2 2 ++ replicate 6 0 ++
  concat ((fun g => replicate 4 0 ++ le_bytes 4 (sg_off g) ++ replicate 4 0 ++ le_bytes 4 (sg_pa g) ++
    le_bytes 4 (sg_filesz g) ++ le_bytes 4 (sg_memsz g) ++ replicate 8 0) <$> demo_segs).
Definition demo_sect (k : Z) : list Z :=
  if k =? 1 then demo_elf ++ replicate 396 0 else replicate 512 (k mod 256).
Definition demo_boot : boot aview := Boot (fun _ => 0) (AView (fun _ => 0) (fun _ => demo_sect) Idle).

Lemma demo_sect_ok : sect_ok demo_sect.
Proof.
  intros k. unfold demo_sect. destruct (k =? 1).
  - split; [|by vm_compute]. apply (bool_decide_unpack _). by vm_compute.
  - split; [|by rewrite length_replicate]. apply Forall_replicate, Z.mod_pos_bound. lia.
Qed.

Lemma demo_image : elf_image demo_sect demo_segs 0x80100000.
Proof.
  split.
  - by vm_compute.
  - by vm_compute.
  - by vm_compute.
  - intros [|[|i]] g; cbn; [intros [= <-]; by vm_compute..|done].
  - by vm_compute.
Qed.

Lemma bootmain_correct_witness :
  wp (bootmain (D := aview) 0) (fun r s' => r = Some 0x100000 /\ Forall (loaded demo_sect (bt_mem s')) demo_segs) demo_boot.
Proof.
  refine (wp_mono _ _ _ _ (bootmain_correct 0 sim_polls demo_sect demo_segs 0x80100000 demo_boot _ demo_sect_ok (fun _ => demo_image)) _).
  - exists (bt_dev demo_boot). split_and!; [|done|done|done]. split_and!; [done| |done]. intros dr l. apply demo_sect_ok.
  - assert (E : (load32 (disk_byte demo_sect) 0 =? BOOT_MAGIC) = true) by by vm_compute.
    intros r s'. rewrite E. intros [-> Hl]. by split.
Defined.

(** Memory with a table of two processors, a bus, an I/O APIC and an
    interrupt, and one with an entry of type 200. *)
Definition demo_entries : list mpentry := [Cpu 0; Cpu 1; Skip 1; IoApic 2; Skip 3].
Definition entry_bytes (x : mpentry) : list Z :=
  match x with
  | Cpu id => [0; id] ++ replicate 18 0
  | IoApic id => [2; id] ++ replicate 6 0
  | Skip t => t :: replicate 7 0
  end.
Definition demo_conf (l : list mpentry) : list Z :=
  let body := concat (entry_bytes <$> l) in
  let head sum := [80; 67; 77; 80] ++ le_bytes 2 (Z.of_nat (44 + length body)) ++ [1; sum] ++ replicate 28 0 ++
                  le_bytes 4 0xFEE00000 ++ replicate 4 0 in
  head (u8 (- foldl Z.add 0 (head 0 ++ body))) ++ body.
Definition demo_fps : list Z :=
  let head sum := [95; 77; 80; 95] ++ le_bytes 4 0x9000 ++ [1; 4; sum] ++ replicate 5 0 in
  head (u8 (- foldl Z.add 0 (head 0))).
Definition demo_bios (l : list mpentry) : memory :=
  let c := demo_conf l in
  fun x =>
    let at_ (a : Z) (b : list Z) := if (P2V a <=? x) && (x <? P2V a + Z.of_nat (length b)) then Some (nth (Z.to_nat (x - P2V a)) b 0) else None in
    match at_ 0x9000 c with
    | Some b => b
    | None => match at_ 0xF0000 demo_fps with Some b => b | None => 0 end
    end.
Definition demo_mp (l : list mpentry) : mpst := MpSt (demo_bios l) (replicate 8 0) 0 0 0 [].

Lemma mpinit_correct_witness :
  wp (mpinit 5 0) (fun _ s' => found [0; 1] s' /\ mp_ioapicid s' = 2 /\ mp_lapic s' = 0xFEE00000 /\
    mp_mem s' = demo_bios demo_entries) (demo_mp demo_entries).
Proof.
  assert (H1 : mpconfig (mp_mem (demo_mp demo_entries)) = Some (P2V 0xF0000, P2V 0x9000)) by by vm_compute.
  assert (H2 : table_at (mp_mem (demo_mp demo_entries)) (P2V 0x9000 + MPCONF_SIZE) demo_entries
    (P2V 0x9000 + le_val (load_bytes (mp_mem (demo_mp demo_entries)) (P2V 0x9000 + 4) 2))) by (vm_compute; repeat split; auto).
  refine (wp_mono _ _ _ _ (mpinit_correct 5 0 (demo_mp demo_entries) (P2V 0xF0000) (P2V 0x9000) demo_entries H1 H2 _ _ _) _);
    [done|done|vm_compute; lia|].
  intros _ s' (Hf & Hi & Hl & Hm). split_and!; [exact Hf|rewrite Hi; by vm_compute|rewrite Hl; by vm_compute|exact Hm].
Defined.

Lemma mpinit_unknown_hangs_witness : mpinit 1000 0 (demo_mp [Skip 200]) = Fault "fuel".
Proof. by apply (mpinit_unknown_hangs 1000 0 (demo_mp [Skip 200]) (P2V 0xF0000) (P2V 0x9000) 200); vm_compute. Defined.

(** ** Interrupt controllers and a clock

    The simplest controllers that behave as documented, a clock that goes on
    while it is read, and a CPU: concrete inputs for the theorems of [Apic],
    [Cmos] and [Segments]. *)

(** Registers that keep what is written; a command takes two reads. *)
Record lsim := LSim { ls_regs : Z -> Z; ls_busy : nat }.

#[export] Instance lsim_apic : LocalApic lsim := {|
  la_read := fun r =>
    let* s := get in
    if r =? ICRLO then
      do* modify (fun s => LSim (ls_regs s) (pred (ls_busy s))) in
      ret (match ls_busy s with O => 0 | S _ => DELIVS end)
    else ret (ls_regs s r);
  la_write := fun r x => modify (fun s => LSim (fun i => if i =? r then x else ls_regs s i) (if r =? ICRLO then 2%nat else ls_busy s));
  la_outb := fun _ _ => ret tt;
  la_store16 := fun _ _ => ret tt |}.

#[export] Program Instance lsim_spec : LocalApicSpec lsim :=
  {| la_rep := fun w f busy => w = LSim f busy; la_slow := 2 |}.
Next Obligation. intros w f busy r x ->. exists 2%nat. split; [lia|]. cbn. by destruct (r =? ICRLO). Qed.
Next Obligation. intros w f busy r -> Hr. unfold wp. cbn. by rewrite (proj2 (Z.eqb_neq r ICRLO)). Qed.
Next Obligation. intros w f busy ->. unfold wp. cbn. split; [done|]. by intros ->. Qed.

Lemma lapicinit_correct_witness :
  wp (lapicinit 0xFEE00000 3) (fun _ w' => exists f' busy', w' = LSim f' busy' /\
    Forall (fun rx => f' rx.1 = rx.2) lapic_set /\
    forall r, r ∉ lapic_set.*1 -> r ∉ lapic_other -> f' r = 0) (LSim (fun _ => 0) 0).
Proof. refine (lapicinit_correct 0xFEE00000 3 (LSim (fun _ => 0) 0) (fun _ => 0) 0 _ _ _); [done|done|cbn; lia]. Defined.

(** The selected register, and the registers. *)
Record iosim := IoSim { is_sel : Z; is_regs : Z -> Z }.

#[export] Instance iosim_apic : IoCtl iosim := {|
  io_reg := fun r => modify (fun s => IoSim r (is_regs s));
  io_data := gets (fun s => is_regs s (is_sel s));
  io_set_data := fun x => modify (fun s => IoSim (is_sel s) (fun i => if i =? is_sel s then x else is_regs s i));
  io_cprintf := fun _ => ret tt |}.

#[export] Instance iosim_spec : IoCtlSpec iosim.
Proof. refine {| io_rep := fun w sel f => w = IoSim sel f |}; intros; subst; done. Defined.

(** 24 entries; the drivers of the keyboard, the serial port and the disk. *)
Definition demo_ioregs (r : Z) : Z := if r =? REG_VER then 0x170011 else 0.

Lemma ioapic_routing_witness :
  wp (do* ioapicinit 0 in enable_all [(IRQ_KBD, 0); (IRQ_COM1, 0); (IRQ_IDE, 1)]) (fun _ w' => exists sel' f', w' = IoSim sel' f' /\
    forall k, 0 <= k <= Z.land (Z.shiftr (demo_ioregs REG_VER) 16) 0xFF ->
      io_entry f' k = foldl route (fun _ => (None, 0)) [(IRQ_KBD, 0); (IRQ_COM1, 0); (IRQ_IDE, 1)] k) (IoSim 0 demo_ioregs).
Proof.
  refine (ioapic_routing 0 [(IRQ_KBD, 0); (IRQ_COM1, 0); (IRQ_IDE, 1)] (IoSim 0 demo_ioregs) 0 demo_ioregs _ _); [done|].
  apply (bool_decide_unpack _). by vm_compute.
Defined.

(** ** A clock *)

(** One minute before ten, and ten, from the eighth access on: in the middle of
    the first reading.  The update takes three accesses, in which all registers
    read as 255. *)
Definition demo_updating (i : nat) : bool := (6 <=? i)%nat && (i <? 9)%nat.
Definition demo_clock (i : nat) : rtcdate := if (i <? 8)%nat then Rtc 59 59 9 15 11 26 else Rtc 0 0 10 15 11 26.
Definition demo_cmos (i : nat) (r : Z) : Z :=
  let t := if demo_updating i then Rtc 255 255 255 255 255 255 else rtc_map BCD (demo_clock i) in
  if r =? CMOS_STATA then if (i <? 9)%nat then CMOS_UIP else 0
  else if r =? SECS then second t else if r =? MINS then minute t else if r =? HOURS then hour t
  else if r =? DAY then day t else if r =? MONTH then month t else if r =? YEAR then year t else 0.

Lemma demo_chip : rtc_chip demo_cmos BCD demo_clock demo_updating.
Proof.
  split.
  - intros i Hi. unfold shows, demo_cmos. rewrite Hi. by destruct (rtc_map BCD (demo_clock i)).
  - intros i Hi Hs. unfold demo_clock, demo_updating in *.
    destruct (Nat.leb_spec 6 i), (Nat.ltb_spec i 9), (Nat.leb_spec 6 (S i)), (Nat.ltb_spec (S i) 9), (Nat.ltb_spec (S i) 8), (Nat.ltb_spec i 8);
      cbn in *; done || lia.
  - intros i j Hi Hj. unfold uip, demo_cmos in Hi. cbn [CMOS_STATA Z.eqb Pos.eqb] in Hi. unfold demo_updating.
    destruct (Nat.ltb_spec i 9); [by vm_compute in Hi|]. rewrite (proj2 (Nat.ltb_ge j 9)) by lia. apply andb_false_r.
Qed.

Lemma cmostime_correct_witness :
  wp (cmostime demo_cmos 100) (fun t s' => (0 < c_now s')%nat /\
    let now := demo_clock (c_now s' - 1)%nat in
    t = Rtc (second now) (minute now) (hour now) (day now) (month now) (year now + 2000)) (Cmos 0 0).
Proof.
  refine (cmostime_correct demo_cmos demo_clock demo_updating 0 9 100 0 _ demo_chip _ _ _).
  - intros i. unfold demo_clock. destruct (i <? 8)%nat; repeat constructor; cbn; lia.
  - intros i Hi. unfold uip, demo_cmos. rewrite (proj2 (Nat.ltb_ge i 9)) by lia. done.
  - lia.
  - lia.
Defined.

(** ** A CPU *)

Lemma idt_gates_witness :
  exists g, tvinit (fun i => 0x80105000 + 10 * Z.of_nat i mod 1000) !! 64%nat = Some g /\
    gate_fields g = GateInfo (Z.shiftl SEG_KCODE 3) (0x80105000 + 10 * 64 mod 1000) (bool_decide (64 = T_SYSCALL))
      (if bool_decide (64 = T_SYSCALL) then DPL_USER else 0) true.
Proof.
  refine (idt_gates (fun i => 0x80105000 + 10 * Z.of_nat i mod 1000) 64 _ _); [|lia].
  intros i. pose proof (Z.mod_pos_bound (10 * Z.of_nat i) 1000). lia.
Defined.

(** A process with its kernel stack and page directory, on a CPU with
    interrupts on. *)
Definition demo_running : proc := p_with_pgdir 0x80401000 (Proc 4096 0 0x80400000 RUNNABLE 1 None zero_tf None false [] None [] 0 0 0 []).
Definition demo_mcpu : mcpu := MCpu (Spinlock.Cpu 0 false true) (replicate NSEGS 0) 0 0 0 (0, 0) (0, 0) 0 0.

Lemma switchuvm_correct_witness :
  wp (switchuvm 0x80112800 (Some demo_running)) (fun _ s' =>
    mc_ss0 s' = Z.shiftl SEG_KDATA 3 /\ mc_esp0 s' = u32 (p_kstack demo_running + KSTACKSIZE) /\ TS_SIZE - 1 < mc_iomb s' /\
    mc_cr3 s' = V2P (p_pgdir demo_running) /\ mc_tr s' = Z.shiftl SEG_TSS 3 /\
    seg_fields <$> mc_gdt s' !! Z.to_nat SEG_TSS = Some (SegInfo 0x80112800 (TS_SIZE - 1) STS_T32A true 0 true) /\
    (forall i, i <> Z.to_nat SEG_TSS -> mc_gdt s' !! i = mc_gdt demo_mcpu !! i) /\
    c_if (mc_cli s') = c_if (mc_cli demo_mcpu) /\ c_ncli (mc_cli s') = c_ncli (mc_cli demo_mcpu)) demo_mcpu.
Proof.
  refine (switchuvm_correct 0x80112800 demo_running demo_mcpu _ _ _ _ _ _); try done.
Defined.
