(* ===== verification/Demo.v ===== *)
(** * A small file system

    A disk of 64 blocks with a log, 16 inodes, a free map and a directory with
    three entries, as a freshly mounted state of the buffer cache and the log.
    It shows that the assumptions of the file system theorems can be met. *)

From S2P Require Import Prelude SleepLock Bio Layout Log Recovery BlockLayer CString ProcDefs.
From S2P Require Import Fs FsAlloc FsInode FsFile FsCache FsTrunc FsDir.

Definition demo_sb : superblock := SuperBlock 64 22 16 30 2 32 41.

Definition demo_name (l : list Z) : list Z := l ++ replicate (DIRSIZ - length l) 0.
Definition demo_dirents : list dirent :=
  [DirEnt 1 (demo_name [46]); DirEnt 1 (demo_name [46; 46]); DirEnt 2 (demo_name [97])].

Definition pad (l : list Z) : list Z := l ++ replicate (Z.to_nat BSIZE - length l) 0.

(** A directory with one block, and an empty file. *)
Definition demo_dir : dinode :=
  DInode T_DIR 0 0 1 48 (42 :: replicate NDIRECT 0) 0 0 493.
Definition demo_file : dinode := DInode T_FILE 0 0 1 0 (replicate (S NDIRECT) 0) 0 0 420.

(** Superblock, inode 1, free map (blocks 0..42 in use), directory content, zeroes. *)
Definition demo_block (x : Z) : list Z :=
  if x =? 1 then pad (concat (le_bytes 4 <$> [64; 22; 16; 30; 2; 32; 41]))
  else if x =? 32 then put_dinode 1 demo_dir zero_block
  else if x =? 41 then pad [255; 255; 255; 255; 255; 7]
  else if x =? 42 then pad (concat (enc_dirent <$> demo_dirents))
  else zero_block.

Definition tab (l : list Z) : gmap Z (list Z) :=
  list_to_map ((fun x => (x, demo_block x)) <$> l).

(** The disk, and the part of it that is not the log. *)
Definition demo_all : list Z := seqZ 0 64.
Definition demo_home : list Z := seqZ 0 2 ++ seqZ 32 32.
Definition demo_disk : gmap Z (list Z) := tab demo_all.
Definition demo_bl : gmap Z (list Z) := tab demo_home.

Lemma tab_lookup l x d : NoDup l -> tab l !! x = Some d <-> x ∈ l /\ d = demo_block x.
Proof.
  intros Hn. unfold tab. rewrite <- elem_of_list_to_map.
  - rewrite list_elem_of_fmap. split; [intros (y & [= -> ->] & Hy); done|].
    intros [Hx ->]. by exists x.
  - rewrite <- list_fmap_compose. by rewrite list_fmap_id.
Qed.

Lemma demo_all_nodup : NoDup demo_all.
Proof. apply NoDup_seqZ. Qed.
Lemma demo_home_nodup : NoDup demo_home.
Proof. apply (bool_decide_unpack _). vm_compute. exact I. Qed.

Lemma elem_demo_home x : x ∈ demo_home <-> 0 <= x < 64 /\ ~ 2 <= x < 32.
Proof. unfold demo_home. rewrite elem_of_app, !elem_of_seqZ. lia. Qed.
Lemma elem_demo_all x : x ∈ demo_all <-> 0 <= x < 64.
Proof. unfold demo_all. rewrite elem_of_seqZ. lia. Qed.

Lemma demo_block_ok x : block_ok (demo_block x).
Proof.
  unfold demo_block. repeat case_match; try apply zero_block_ok;
    (split; [reflexivity|]; apply (bool_decide_unpack _); vm_compute; exact I).
Qed.

(** The log state after boot, and inside a transaction. *)
Definition demo_log (out : Z) : logst :=
  LogSt (binit 64 demo_disk) 2 30 out false ROOTDEV 0 (replicate (Z.to_nat LOGSIZE) 0).

Lemma demo_has_log : disk_has_log 64 demo_disk 2 30.
Proof.
  constructor.
  - intros x. rewrite <- elem_demo_all. split.
    + intros [d Hd]. by apply tab_lookup in Hd as [? _]; [|apply demo_all_nodup].
    + intros Hx. exists (demo_block x). by apply tab_lookup; [apply demo_all_nodup|].
  - intros x d [_ ->]%tab_lookup; [apply demo_block_ok|apply demo_all_nodup].
  - lia.
  - exists (demo_block 1). split; [|by vm_compute]. apply tab_lookup; [apply demo_all_nodup|].
    split; [by apply elem_demo_all|done].
Qed.

Lemma demo_log_rep pid out : log_rep pid (demo_log out) (clean_view demo_disk []).
Proof.
  destruct demo_has_log as [Hr Hb _ _].
  assert (Hg : log_geo (demo_log out)) by (constructor; simpl; [done|lia|done]).
  eapply (empty_log_rep pid (demo_log out) (replicate (Z.to_nat LOGSIZE) 0) demo_disk [] zero_block).
  - unfold only_bio. split; [done|]. split; [|done]. by apply (binit_rep pid 64 demo_disk).
  - done.
  - done.
  - apply tab_lookup; [apply demo_all_nodup|]. split; [by apply elem_demo_all|done].
  - unfold head_is. split; [|done]. by vm_compute.
Qed.

Lemma demo_lookup x d : demo_bl !! x = Some d <-> (0 <= x < 64 /\ ~ 2 <= x < 32) /\ d = demo_block x.
Proof. unfold demo_bl. rewrite tab_lookup by apply demo_home_nodup. by rewrite elem_demo_home. Qed.

Lemma demo_some x : 0 <= x < 64 /\ ~ 2 <= x < 32 -> is_Some (demo_bl !! x).
Proof. intros Hx. exists (demo_block x). by apply demo_lookup. Qed.

Lemma demo_lrep pid : lrep (BlockLayer := log_block_layer) pid (demo_log 1) (start_view demo_bl).
Proof.
  exists (clean_view demo_disk []). split; [apply demo_log_rep|].
  constructor; cbn [lv_blocks lv_held lv_pend lv_logged lv_room lv_op start_view clean_view]; try done.
  - intros x d. rewrite demo_lookup. cbn [v_blocks]. unfold home_block, in_log. cbn.
    unfold demo_disk. rewrite tab_lookup by apply demo_all_nodup. rewrite elem_demo_all.
    split; [intros [? ->]; split; [lia|split; [lia|done]]|intros [? [_ ->]]; split; [lia|done]].
  - rewrite size_empty. split; [apply Nat.leb_le; by vm_compute|by vm_compute].
Qed.

Lemma demo_bmset x : x ∈ bmset demo_sb <-> x = 41.
Proof.
  rewrite elem_of_bmset. cbn [sb_bmapstart sb_size demo_sb]. change (64 / BPB) with 0. lia.
Qed.
Lemma demo_iset x : x ∈ iset demo_sb <-> 32 <= x < 41.
Proof.
  unfold iset. rewrite elem_of_list_to_set, elem_of_seqZ.
  cbn [sb_inodestart sb_ninodes demo_sb]. change (16 / IPB) with 8. lia.
Qed.

Lemma demo_used b : 0 <= b < 64 -> used demo_sb demo_bl b = (b <? 43).
Proof.
  intros Hb. assert (Hall : Forall (fun b => used demo_sb demo_bl b = (b <? 43)) (seqZ 0 64)).
  { apply (bool_decide_unpack _). vm_compute. exact I. }
  rewrite Forall_forall in Hall. apply Hall, elem_of_seqZ. lia.
Qed.

Lemma demo_alloc_wf : alloc_wf demo_sb demo_bl.
Proof.
  constructor; cbn [sb_size sb_bmapstart sb_inodestart sb_ninodes demo_sb]; try lia.
  - intros x ->%demo_bmset. apply demo_some. lia.
  - intros x Hx%demo_iset. split; [apply demo_some; lia|]. rewrite demo_bmset. lia.
  - intros x d [_ ->]%demo_lookup. apply demo_block_ok.
  - intros b Hb Hu. rewrite demo_used in Hu by done. apply Z.ltb_ge in Hu.
    rewrite demo_bmset, demo_iset. split_and!; [apply demo_some; lia|lia|lia|lia].
Qed.

Definition demo_inode (inum : Z) (d : dinode) : inode :=
  Inode ROOTDEV inum 1 (SleepLock true 0) true d.
Definition demo_fs : fs logst unit :=
  Fs (demo_log 1) demo_sb
     (demo_inode 1 demo_dir :: demo_inode 2 demo_file :: replicate 48 zero_inode) tt.
Definition demo_dev : Z -> devfns (fs logst unit) := fun _ => DevFns None None.

Lemma dinode_ok_demo d : In d [demo_dir; demo_file] -> dinode_ok d.
Proof.
  intros [<-|[<-|[]]]; constructor; cbn [d_type d_major d_minor d_nlink d_size d_addrs d_uid d_gid d_mode demo_dir demo_file];
    try (unfold T_DIR, T_FILE; lia); try done; apply (bool_decide_unpack _); vm_compute; exact I.
Qed.

Lemma demo_dir_addr bn : addr_of demo_bl demo_dir bn = if decide (bn = 0%nat) then 42 else 0.
Proof.
  unfold addr_of, ind_of, demo_dir. cbn [d_addrs]. destruct bn as [|bn]; [done|].
  rewrite decide_False by lia. destruct (S bn <? NDIRECT)%nat eqn:E; [|done].
  apply Nat.ltb_lt in E. change ((42 :: replicate NDIRECT 0) !! S bn) with (replicate NDIRECT 0 !! bn).
  by rewrite lookup_replicate_2 by lia.
Qed.

Lemma demo_file_addr bn : addr_of demo_bl demo_file bn = 0.
Proof.
  unfold addr_of, ind_of, demo_file. cbn [d_addrs]. destruct (bn <? NDIRECT)%nat eqn:E; [|done].
  apply Nat.ltb_lt in E. by rewrite lookup_replicate_2 by lia.
Qed.

Lemma demo_dir_wf : inode_wf demo_sb demo_bl demo_dir.
Proof.
  constructor; [done| | |].
  - intros a (Hne & [->|(bn & _ & <-)]); [done|]. rewrite demo_dir_addr in *. case_decide; [|done].
    constructor; rewrite ?demo_bmset, ?demo_iset; try lia; [cbn; lia|by rewrite demo_used|apply demo_some; lia].
  - intros bn bn' _ _. rewrite !demo_dir_addr. repeat case_decide; congruence.
  - intros bn _. rewrite demo_dir_addr. by case_decide.
Qed.

Lemma demo_file_wf : inode_wf demo_sb demo_bl demo_file.
Proof.
  constructor; [done| | |].
  - intros a (Hne & [->|(bn & _ & <-)]); [done|]. by rewrite demo_file_addr in Hne.
  - intros bn bn' _ _. by rewrite !demo_file_addr.
  - intros bn _. by rewrite demo_file_addr.
Qed.

Lemma demo_ready_dir : file_ready zero_proc demo_fs (start_view demo_bl) 0 (demo_inode 1 demo_dir).
Proof.
  constructor; cbn [fs_sb demo_fs lv_blocks start_view i_d demo_inode]; try done.
  - apply demo_lrep. - apply demo_alloc_wf. - apply demo_dir_wf.
  - apply dinode_ok_demo. by left.
Qed.

Lemma demo_ready_file : file_ready zero_proc demo_fs (start_view demo_bl) 1 (demo_inode 2 demo_file).
Proof.
  constructor; cbn [fs_sb demo_fs lv_blocks start_view i_d demo_inode]; try done.
  - apply demo_lrep. - apply demo_alloc_wf. - apply demo_file_wf.
  - apply dinode_ok_demo. right. by left.
Qed.

Lemma demo_avail n : (n <= 9)%nat -> avail demo_sb (start_view demo_bl) n.
Proof.
  intros Hn. split; [done|]. cbn [lv_logged lv_room start_view].
  replace (bmset demo_sb ∖ ∅) with ({[41]} : gset Z).
  - rewrite size_singleton. unfold MAXOPBLOCKS. lia.
  - apply set_eq. intros x. rewrite elem_of_difference, demo_bmset, elem_of_singleton. set_solver.
Qed.

Lemma demo_free : (20 <= size (free_set demo_sb demo_bl))%nat.
Proof. apply Nat.leb_le. vm_compute. reflexivity. Qed.

(** ** Instances of the theorems *)

Lemma demo_dir_ok : dir_ok demo_bl demo_dir.
Proof.
  constructor; try done. intros bn _ Hb _. rewrite demo_dir_addr. rewrite decide_True; [done|].
  unfold BSZ in Hb. cbn [d_size demo_dir] in Hb. lia.
Qed.

Lemma demo_icache : icache_ok (fs_inode demo_fs).
Proof.
  assert (Hall : forall j i, fs_inode demo_fs !! j = Some i ->
            0 <= i_ref i /\ (0 < i_ref i -> i_inum i = Z.of_nat j + 1)).
  { intros [|[|j]] i Hi; [injection Hi as <-; done..|].
    change (replicate 48 zero_inode !! j = Some i) in Hi. apply lookup_replicate in Hi as [-> _]. done. }
  split.
  - intros j i Hi. by apply (Hall j).
  - intros j k i i' dev inum Hj Hk (H1 & _ & H2) (H3 & _ & H4).
    destruct (Hall _ _ Hj) as [_ Ej]. destruct (Hall _ _ Hk) as [_ Ek]. specialize (Ej H1). specialize (Ek H3). lia.
Qed.

Lemma demo_room dev inum : icache_room dev inum (fs_inode demo_fs).
Proof. exists 2%nat, zero_inode. split; [done|by right]. Qed.

Lemma writei_correct_witness :
  wp (writei demo_dev zero_proc 1 [104; 105] 0 2) (fun r s' => r = 2 /\ exists v' i',
    file_ready zero_proc s' v' 1 i' /\
    file_written demo_sb demo_bl (demo_inode 2 demo_file) 0 [104; 105] (lv_blocks v') i' /\
    fs_sb s' = demo_sb /\ forall jp, jp <> 1%nat -> fs_inode s' !! jp = fs_inode demo_fs !! jp) demo_fs.
Proof.
  apply (writei_correct demo_dev zero_proc demo_fs (start_view demo_bl) 1 (demo_inode 2 demo_file) [104; 105] 0).
  - apply demo_ready_file.
  - repeat constructor; lia.
  - done.
  - apply Nat.leb_le. reflexivity.
  - apply demo_avail. apply Nat.leb_le. reflexivity.
  - etransitivity; [|apply demo_free]. apply Nat.leb_le. reflexivity.
Defined.

Lemma writei_readi_witness :
  wp (let* r := writei demo_dev zero_proc 1 [104; 105] 0 2 in
      let* l := readi demo_dev zero_proc 1 0 2 in
      ret (r, l)) (fun res _ => res = (2, (2, [104; 105]))) demo_fs.
Proof.
  apply (writei_readi demo_dev zero_proc demo_fs (start_view demo_bl) 1 (demo_inode 2 demo_file) [104; 105] 0).
  - apply demo_ready_file.
  - repeat constructor; lia.
  - done.
  - apply Nat.leb_le. reflexivity.
  - apply demo_avail. apply Nat.leb_le. reflexivity.
  - etransitivity; [|apply demo_free]. apply Nat.leb_le. reflexivity.
Defined.

Lemma writei_rejects_witness : writei demo_dev zero_proc 1 [104] 5 1 demo_fs = Ok (-1) demo_fs [].
Proof. apply (writei_rejects demo_dev zero_proc demo_fs 1 (demo_inode 2 demo_file)); [done|done|by left]. Defined.

Lemma iget_correct_witness :
  wp (iget ROOTDEV 2) (fun ip s' => icache_ok (fs_inode s') /\ fs_blk s' = fs_blk demo_fs /\
    (forall jp, jp <> ip -> fs_inode s' !! jp = fs_inode demo_fs !! jp) /\
    exists i i', fs_inode demo_fs !! ip = Some i /\ fs_inode s' !! ip = Some i' /\
      is_ino ROOTDEV 2 i' /\ i_ref i' = i_ref i + 1 /\
      (is_ino ROOTDEV 2 i -> i_valid i' = i_valid i /\ i_d i' = i_d i) /\
      (i_ref i = 0 -> i_valid i' = false)) demo_fs.
Proof. apply (iget_correct demo_fs ROOTDEV 2); [apply demo_icache|apply demo_room]. Defined.

(** The directory in an unlocked entry, read from disk or not. *)
Definition demo_cold (valid : bool) (d : dinode) : inode := Inode ROOTDEV 1 1 initsleeplock valid d.
Definition demo_fs_cold (valid : bool) (d : dinode) : fs logst unit :=
  Fs (demo_log 1) demo_sb (demo_cold valid d :: replicate 49 zero_inode) tt.

Lemma ilock_correct_witness :
  wp (ilock zero_proc 0) (fun _ s' => fsrep zero_proc s' (start_view demo_bl) /\
    fs_inode s' = <[0%nat := locked_inode zero_proc (dino demo_sb demo_bl 1) (demo_cold false zero_dinode)]>
                    (fs_inode (demo_fs_cold false zero_dinode))) (demo_fs_cold false zero_dinode).
Proof.
  apply (ilock_correct zero_proc (demo_fs_cold false zero_dinode) (start_view demo_bl) 0
           (demo_cold false zero_dinode)); try done; try (cbn; lia).
  - apply demo_lrep. - apply demo_alloc_wf.
Defined.

Lemma itrunc_correct_witness :
  wp (itrunc zero_proc 0) (fun _ s' => exists v', fsrep zero_proc s' v' /\
    truncated demo_sb (demo_inode 1 demo_dir) (empty_d demo_dir) (start_view demo_bl) v' /\
    fs_inode s' = <[0%nat := i_with_d (empty_d demo_dir) (demo_inode 1 demo_dir)]> (fs_inode demo_fs)) demo_fs.
Proof.
  apply (itrunc_correct zero_proc demo_fs (start_view demo_bl) 0 (demo_inode 1 demo_dir)); try done; try (cbn; lia).
  - apply demo_lrep. - apply demo_alloc_wf. - apply demo_dir_wf. - apply dinode_ok_demo. by left.
  - apply demo_avail. lia.
Defined.

Definition demo_unlinked : dinode := d_with_nlink 0 demo_dir.

Lemma iput_last_witness :
  wp (iput zero_proc 0) (fun _ s' => exists v', fsrep zero_proc s' v' /\
    truncated demo_sb (demo_cold true demo_unlinked) (d_with_type 0 (empty_d demo_unlinked)) (start_view demo_bl) v' /\
    fs_inode s' = <[0%nat := dead_inode (d_with_type 0 (empty_d demo_unlinked)) (demo_cold true demo_unlinked)]>
                    (fs_inode (demo_fs_cold true demo_unlinked))) (demo_fs_cold true demo_unlinked).
Proof.
  apply (iput_last zero_proc (demo_fs_cold true demo_unlinked) (start_view demo_bl) 0 (demo_cold true demo_unlinked));
    try done; try (cbn; lia).
  - apply demo_lrep. - apply demo_alloc_wf. - destruct demo_dir_wf. by constructor.
  - destruct (dinode_ok_demo demo_dir ltac:(by left)). by constructor.
  - apply demo_avail. lia.
Defined.

Lemma dirlookup_correct_witness :
  wp (dirlookup demo_dev zero_proc 0 [97; 0]) (fun r s' => fsrep zero_proc s' (start_view demo_bl) /\
    icache_ok (fs_inode s') /\ exists ip i', r = Some (ip, 32) /\
      fs_inode s' = <[ip := i']> (fs_inode demo_fs) /\ is_ino ROOTDEV 2 i') demo_fs.
Proof.
  apply (dirlookup_correct demo_dev zero_proc demo_fs (start_view demo_bl) 0 (demo_inode 1 demo_dir) [97; 0]).
  - apply demo_ready_dir. - apply demo_dir_ok. - apply demo_icache. - apply demo_room.
Defined.

Lemma dirlink_correct_witness :
  let l := dir_entries demo_bl demo_dir in
  wp (dirlink demo_dev zero_proc 0 [98; 0] 2) (fun r s' => r = 0 /\
    (exists v' i', file_ready zero_proc s' v' 0 i' /\ dir_ok (lv_blocks v') (i_d i') /\
      dir_entries (lv_blocks v') (i_d i') =
        take 3 l ++ DirEnt 2 (strncpy [98; 0] DIRSIZ) :: drop 4 l) /\
    forall nm, wp (dirlookup demo_dev zero_proc 0 nm) (fun r s'' => finds r s''
      (if exec_denied zero_proc demo_dir then None
       else if same_name nm [98; 0] then Some (3%nat, 2)
       else (fun j => (j, de_inum (dir_entry demo_bl demo_dir j))) <$> dir_find demo_bl demo_dir nm)) s') demo_fs.
Proof.
  intros l. assert (E : free_slot demo_bl demo_dir = 3%nat) by (by vm_compute).
  pose proof (dirlink_correct demo_dev zero_proc demo_fs (start_view demo_bl) 0 (demo_inode 1 demo_dir) [98; 0] 2) as Hx.
  cbn [lv_blocks start_view i_d demo_inode] in Hx. rewrite E in Hx. apply Hx.
  - apply demo_ready_dir. - apply demo_dir_ok. - repeat constructor; lia. - done.
  - apply demo_icache. - intros n. apply demo_room.
  - by vm_compute. - apply Nat.leb_le. reflexivity. - apply demo_avail. lia.
  - etransitivity; [|apply demo_free]. lia.
Defined.

Lemma iget_full_witness : iget ROOTDEV 7 (Fs (demo_log 1) demo_sb [demo_inode 1 demo_dir] tt) = Panic "iget: no inodes".
Proof.
  apply (iget_full (Fs (demo_log 1) demo_sb [demo_inode 1 demo_dir] tt) ROOTDEV 7).
  intros ([|j] & i & Hi & Hc); [|done]. injection Hi as <-. destruct Hc as [(_ & _ & ?)|?]; done.
Defined.
