(* ===== verification/DemoKernel.v ===== *)
(** * Small states of the other components

    A log with a pending block, a few pages of memory, a page directory, two
    processes, two CPUs: concrete inputs at which the assumptions of the
    theorems on the log, memory, locks, pipes and processes hold. *)

From S2P Require Import Prelude CString SleepLock Spinlock Bio Layout Log Recovery BlockLayer.
From S2P Require Import ProcDefs ProcTable Kalloc Vm Pipe Demo.

(** ** The log *)

(** The new content of block 42 in the example. *)
Definition demo_new : list Z := replicate (Z.to_nat BSIZE) 7.

Definition demo_update : M logst unit :=
  let* i := on_bio (bread 0 ROOTDEV 42) in
  do* on_bio (bput i demo_new) in
  do* log_write i in
  on_bio (brelse 0 i).

Definition demo_pending (i : nat) : bview :=
  v_drop 42 (v_mark 42 (v_put 42 demo_new (v_take 42 i (clean_view demo_disk [])))).

Lemma demo_update_pending :
  wp demo_update (fun _ s => exists i, log_rep 0 s (demo_pending i) /\ lg_start s = 2 /\
    lg_size s = 30 /\ dk_size (lg_bio s) = 64 /\ lh_n s = 1) (demo_log 1).
Proof.
  pose proof (demo_log_rep 0 1) as H0. unfold demo_update. apply wp_bind.
  eapply wp_on_bio; [apply (bread_spec 0 _ _ 42 (lr_bio _ _ _ H0)); [done|done|right]|].
  { apply Nat.ltb_lt. by vm_compute. }
  intros i b1 [Hb1 Hs1]. apply wp_bind.
  eapply wp_on_bio; [apply (bput_spec 0 _ _ 42 i demo_new Hb1)|].
  { apply lookup_insert_eq. }
  { split; [done|]. apply Forall_replicate. lia. }
  intros [] b2 [Hb2 Hs2]. cbn [lg_bio set_bio] in Hs2. apply wp_bind.
  assert (H2 : log_rep 0 (set_bio b2 (set_bio b1 (demo_log 1)))
                 (v_put 42 demo_new (v_take 42 i (clean_view demo_disk [])))).
  { change (set_bio b2 (set_bio b1 (demo_log 1))) with (set_bio b2 (demo_log 1)).
    apply (log_rep_cong 0 _ _ _ b2 H0); try done. by rewrite Hs2, Hs1. }
  eapply wp_mono; [apply (log_write_spec 0 _ _ 42 i H2)|]; try done.
  { split; cbn; [rewrite Hs2, Hs1; cbn; lia|unfold in_log; cbn; lia]. }
  intros [] s3 (H3 & E1 & E2 & _ & _ & E3).
  eapply wp_on_bio; [apply (brelse_spec 0 _ _ 42 i (lr_bio _ _ _ H3))|].
  { apply lookup_insert_eq. }
  { cbn. set_solver. }
  intros [] b4 [Hb4 Hs4]. exists i.
  assert (H4 : log_rep 0 (set_bio b4 s3) (demo_pending i)) by (by apply (log_rep_cong 0 _ _ _ b4 H3)).
  cbn [lg_start lg_size lg_bio set_bio lh_n]. rewrite Hs4, E3. split_and!; try done.
  { cbn [lg_bio set_bio]. by rewrite Hs2, Hs1. }
  change (lh_n s3) with (lh_n (set_bio b4 s3)). rewrite (lr_n _ _ _ H4).
  rewrite (Permutation_length (l' := [42])); [done|].
  apply NoDup_Permutation; [apply H4|apply NoDup_singleton|].
  intros x. rewrite <- (lr_dirty _ _ _ H4). cbn. set_solver.
Qed.

Lemma commit_crash_atomic_witness :
  exists s i, log_rep 0 s (demo_pending i) /\ lh_n s = 1 /\
  wp (commit 0)
     (fun _ s' => exists ws, writes_between s s' ws /\
        dk_blocks (lg_bio s') = apply_writes ws (v_disk (demo_pending i)) /\
        all_done s (demo_pending i) (dk_blocks (lg_bio s')) /\
        forall ws', ws' `prefix_of` ws -> recovers 0 s (demo_pending i) ws') s.
Proof.
  pose proof demo_update_pending as Hp. unfold wp in Hp.
  destruct (demo_update (demo_log 1)) as [[] s w|?|? ? ?|?]; try done.
  destruct Hp as (i & H & E1 & E2 & E3 & E4). exists s, i. split; [done|]. split; [done|].
  apply (commit_crash_atomic 0 s (demo_pending i)).
  - done.
  - split; [|cbn; set_solver]. by vm_compute.
  - rewrite E4. by vm_compute.
  - rewrite E1, E2, E3. apply demo_has_log.
  - cbn. set_solver.
Defined.

(** ** Memory *)

Lemma memset_correct_witness : memset (fun _ => 0) 3 65 9 5 = 65.
Proof. apply (memset_correct (fun _ => 0) 3 65 9 5). lia. Defined.

(** The image ends at 2 MB; the page after it is free, the next one is not. *)
Definition demo_kend : Z := KERNBASE + 0x200000.
Definition demo_page (i : Z) : Z := demo_kend + i * PGSIZE.
Definition demo_kmem : kmem := Kmem (fun _ => 0) (demo_page 0).

Lemma demo_kmem_rep : kmem_rep demo_kend demo_kmem [demo_page 0].
Proof. constructor; cbn; repeat constructor; try done; try lia. apply not_elem_of_nil. Qed.

Lemma kalloc_correct_witness :
  wp kalloc (fun r k' => km_mem k' = km_mem demo_kmem /\ r = hd 0 [demo_page 0] /\
               (r = 0 <-> [demo_page 0] = []) /\ kmem_rep demo_kend k' (tail [demo_page 0])) demo_kmem.
Proof. apply (kalloc_correct demo_kend demo_kmem [demo_page 0]). apply demo_kmem_rep. Defined.

Lemma kfree_kalloc_witness :
  wp (do* kfree demo_kend (demo_page 1) in kalloc) (fun r k' => r = demo_page 1 /\
    kmem_rep demo_kend k' [demo_page 0] /\
    forall x, ~ in_page (demo_page 1) x -> km_mem k' x = km_mem demo_kmem x) demo_kmem.
Proof.
  apply (kfree_kalloc demo_kend demo_kmem [demo_page 0] (demo_page 1)).
  - apply demo_kmem_rep.
  - done.
  - done.
  - by rewrite list_elem_of_singleton.
Defined.

Lemma kfree_bad_witness : kfree demo_kend 12 demo_kmem = Panic "kfree".
Proof. apply (kfree_bad demo_kend demo_kmem 12). by intros [? _]. Defined.

Lemma freerange_correct_witness :
  wp (freerange demo_kend (demo_page 1 - 1) (demo_page 3)) (fun _ k' =>
    kmem_rep demo_kend k' (rev (pages (demo_page 1) 2) ++ [demo_page 0]) /\
    forall x, ~ demo_page 1 <= x < demo_page 3 -> km_mem k' x = km_mem demo_kmem x) demo_kmem.
Proof.
  apply (freerange_correct demo_kend demo_kmem [demo_page 0] (demo_page 1 - 1) (demo_page 3)).
  - apply demo_kmem_rep.
  - done.
  - by vm_compute.
  - by vm_compute.
  - intros q ->%list_elem_of_singleton. left. done.
Defined.

(** ** Page tables *)

Definition demo_dir_page : Z := demo_page 5.
Definition demo_table : Z := demo_page 6.

Lemma demo_in_use i : 1 <= i < 1000 -> in_use demo_kend [demo_page 0] (demo_page i).
Proof.
  intros Hi. unfold in_use, page_ok, demo_page, demo_kend, KERNBASE, PGSIZE, V2P, PHYSTOP, KERNBASE.
  rewrite u32_small by lia. split_and!; try lia.
  - replace (2147483648 + 2097152 + i * 4096) with ((524800 + i) * 4096) by lia. apply Z_mod_mult.
  - rewrite list_elem_of_singleton. lia.
Qed.

(** An empty directory, and one that maps page 0 with one table. *)
Definition demo_mapped : kmem :=
  Kmem (store32 (store32 (fun _ => 0) demo_dir_page (Z.lor (V2P demo_table) PTE_P))
          demo_table (Z.lor 0x300000 PTE_P)) (demo_page 0).

Lemma demo_pgdir_rep : pgdir_rep demo_kend demo_kmem demo_dir_page [demo_page 0].
Proof.
  constructor; [apply demo_kmem_rep|apply demo_in_use; lia| |]; intros ? *; done.
Qed.

Lemma demo_pde i : 0 <= i < 1024 -> present (pde (km_mem demo_mapped) demo_dir_page i) = true -> i = 0.
Proof.
  intros Hi. assert (Hall : Forall (fun i => i = 0 \/ present (pde (km_mem demo_mapped) demo_dir_page i) = false)
    (seqZ 0 1024)).
  { apply (bool_decide_unpack _). vm_compute. exact I. }
  rewrite Forall_forall in Hall. destruct (Hall i); [apply elem_of_seqZ; lia|done|congruence].
Qed.

Lemma demo_mapped_rep : pgdir_rep demo_kend demo_mapped demo_dir_page [demo_page 0].
Proof.
  constructor.
  - apply (kmem_rep_frame demo_kend (fun _ => 0)); [|apply demo_kmem_rep].
    intros q x ->%list_elem_of_singleton Hx. unfold in_page in Hx.
    cbn [km_mem demo_mapped]. rewrite !store32_other; [done|..];
      unfold demo_dir_page, demo_table, demo_page, PGSIZE in *; lia.
  - apply demo_in_use. lia.
  - intros i Hi ->%demo_pde; [|done].
    replace (ptable_of _ _ _) with demo_table by (by vm_compute).
    split; [apply demo_in_use; lia|done].
  - intros i j Hi Hj ->%demo_pde ->%demo_pde; done.
Qed.

Lemma mappages_correct_witness :
  wp (mappages demo_dir_page 0x1000 5 (u32 0x400000) PTE_W) (fun r k' => r = 0 /\ exists l',
    pgdir_rep demo_kend k' demo_dir_page l' /\ (forall x, x ∈ l' -> x ∈ [demo_page 0]) /\
    forall va', 0 <= va' < 2 ^ 32 -> pt (km_mem k') demo_dir_page va' =
      if decide (0x1000 <= va' < 0x1000 + PGSIZE * ((5 - 1) / PGSIZE + 1))
      then u32 (Z.lor (Z.lor (u32 (0x400000 + (PGROUNDDOWN va' - 0x1000))) PTE_W) PTE_P)
      else pt (km_mem demo_kmem) demo_dir_page va') demo_kmem.
Proof.
  apply (mappages_correct demo_kend demo_kmem demo_dir_page [demo_page 0] 0x1000 5 0x400000 PTE_W).
  - apply demo_pgdir_rep. - done. - lia. - lia. - lia. - done. - done.
Defined.

Lemma mappages_remap_witness : mappages demo_dir_page 0 10 0x400000 PTE_W demo_mapped = Panic "remap".
Proof.
  apply (mappages_remap demo_kend demo_mapped demo_dir_page [demo_page 0] 0 10 0x400000 PTE_W).
  - apply demo_mapped_rep. - done. - lia. - by vm_compute.
Defined.

(** ** Locks *)

Lemma pushcli_popcli_witness :
  wp (times 3 pushcli) (fun _ c1 => c_if c1 = false /\
     wp (times 3 popcli) (fun _ c2 => c_if c2 = true /\ c_ncli c2 = 0) c1) (Cpu 0 false true).
Proof. apply (pushcli_popcli 2 (Cpu 0 false true)); [split; cbn; [lia|lia]|cbn; lia]. Defined.

Lemma popcli_unmatched_witness : popcli (Cpu 0 true false) = Panic "popcli".
Proof. by apply (popcli_unmatched (Cpu 0 true false)). Defined.

(** CPU 0 is inside and CPU 1 spins. *)
Definition demo_contended : spinsys := SpinSys (SpinLock true (Some 0%nat)) [In; Spin].

Lemma demo_contended_reachable : rtc sstep (spin_init 2) demo_contended.
Proof.
  eapply rtc_l; [by apply (ss_enter _ 0)|]. eapply rtc_l; [by apply (ss_enter _ 1)|].
  eapply rtc_l; [by apply (ss_xchg _ 0)|]. eapply rtc_l; [by apply (ss_xchg _ 1)|].
  eapply rtc_l; [by apply (ss_record _ 0)|]. apply rtc_refl.
Qed.

Lemma spinlock_mutex_witness :
  rtc sstep (spin_init 2) demo_contended /\
  (forall c d, ss_pc demo_contended !! c = Some In -> ss_pc demo_contended !! d = Some In -> c = d) /\
  (forall c, ss_pc demo_contended !! c = Some In -> holding (ss_lock demo_contended) c = true) /\
  (forall c, ss_pc demo_contended !! c = Some Out -> holding (ss_lock demo_contended) c = false).
Proof.
  split; [apply demo_contended_reachable|].
  apply (spinlock_mutex 2 demo_contended). apply demo_contended_reachable.
Defined.

(** ** Pipes *)

(** Two bytes written, one read, and the reader of more asleep. *)
Definition demo_piped : psys :=
  let p1 := fst (pipewrite_pass new_pipe false [65; 66]) in
  let p2 := fst (piperead_pass p1 false 2) in
  PSys 4096 {[ 4096 := p2 ]} [Thr JIdle None false; Thr (JRead 1) (Some (ChPipeRead 4096)) false] [65; 66] [65; 66].

Lemma demo_piped_reachable : preachable false 2 demo_piped.
Proof.
  set (p1 := fst (pipewrite_pass new_pipe false [65; 66])). set (idle := Thr JIdle None false). set (ps := sy_pipes demo_piped). exists 4096.
  eapply rtc_l; [by apply (ps_start false 4096 _ _ _ _ 0 idle new_pipe (JWrite [65; 66] 2))|].
  eapply rtc_l; [by apply (ps_write false 4096 _ _ _ _ 0 [65; 66] 2 false new_pipe 2 {[ 4096 := p1 ]} [ChPipeRead 4096] p1)|].
  eapply rtc_l; [by apply (ps_start false 4096 _ _ _ _ 1 idle p1 (JRead 2))|].
  eapply rtc_l; [by apply (ps_read false 4096 _ _ _ _ 1 2 false 2 [65; 66] ps [ChPipeWrite 4096])|].
  eapply rtc_l; [by apply (ps_start false 4096 _ _ _ _ 1 idle (fst (piperead_pass p1 false 2)) (JRead 1))|].
  eapply rtc_l; [by apply (ps_read_sleep false 4096 _ _ _ _ 1 1 false (ChPipeRead 4096) ps [])|].
  apply rtc_refl.
Qed.

Lemma pipe_fifo_witness :
  exists q, sy_in demo_piped = sy_out demo_piped ++ q /\ Z.of_nat (length q) <= PIPESIZE.
Proof. apply (pipe_fifo false 2 demo_piped). apply demo_piped_reachable. Defined.

Lemma pipe_no_lost_wakeup_witness :
  exists p, sy_pipes demo_piped !! 4096 = Some p /\ pipe_empty p = true /\ pp_writeopen p = true.
Proof.
  destruct (pipe_no_lost_wakeup false 2 demo_piped demo_piped_reachable) as [_ H].
  by apply (H eq_refl 1%nat 1 (ChPipeRead 4096) false).
Defined.

(** ** Processes *)

(** The first process forks and waits; its child runs and exits. *)
Definition demo_boot : tsys := tsys_init 2 2.
Definition demo_child : proc :=
  p_with_state RUNNABLE (p_with_parent (Some 0%nat) (p_with_pid 2 (p_with_state EMBRYO zero_proc))).
Definition demo_parent : proc := p_with_pid 1 (p_with_state RUNNING zero_proc).
Definition demo_ts (parent child : proc) (cpu : list (option nat)) : tsys :=
  TSys (PTab [parent; child; zero_proc] 3 (Some 0%nat)) cpu.
Definition demo_zombie : tsys :=
  demo_ts (p_with_state RUNNABLE (sleep_proc (Some (ChProc 0)) demo_parent))
    (p_with_state ZOMBIE (p_with_state RUNNING demo_child)) [None; None].

Lemma demo_zombie_reachable : rtc tstep (tsys_init 2 2) demo_zombie.
Proof.
  eapply rtc_l; [by eapply (t_run _ 0 0)|].
  eapply rtc_l; [by eapply (t_alloc _ 0 0 1)|].
  eapply rtc_l; [by eapply (t_fork _ 0 0 1)|].
  eapply rtc_l; [by eapply (t_wait_sleep _ 0 0)|].
  eapply rtc_l; [by eapply (t_run _ 1 1)|].
  eapply rtc_l; [by eapply (t_exit _ 1 1)|].
  apply rtc_refl.
Qed.

Lemma running_exclusive_witness :
  (forall c d i, runs demo_zombie c i -> runs demo_zombie d i -> c = d) /\
  (forall i p, procs demo_zombie !! i = Some p -> p_state p = RUNNING <-> exists c, runs demo_zombie c i).
Proof. apply (running_exclusive 2 2 demo_zombie). apply demo_zombie_reachable. Defined.

Lemma wait_no_lost_wakeup_witness :
  exists pq, procs demo_zombie !! 0%nat = Some pq /\
    ~ (p_state pq = SLEEPING /\ p_chan pq = Some (ChProc 0)).
Proof.
  eexists. split; [done|].
  eapply (wait_no_lost_wakeup 2 2 demo_zombie 1); [apply demo_zombie_reachable|done..].
Defined.

Lemma zombie_has_live_parent_witness :
  exists q pq, p_parent (p_with_state ZOMBIE demo_child) = Some q /\
    procs demo_zombie !! q = Some pq /\ live pq.
Proof.
  apply (zombie_has_live_parent 2 2 demo_zombie 1); [apply demo_zombie_reachable|done..].
Defined.

Lemma kill_pid_0_hits_unused_witness :
  wp (kill 0) (fun r t' => r = 0 /\ exists p', pt_proc t' !! 1%nat = Some p' /\
                 p_state p' = UNUSED /\ p_killed p' = true) (ts_tab demo_boot).
Proof.
  eapply (kill_pid_0_hits_unused (ts_tab demo_boot) 1); [done|done|done|].
  intros [|j] q Hj; [by intros [= <-]|lia].
Defined.
