(* ===== verification/DemoTrap.v ===== *)
(** * A small running kernel

    The file system of [Demo] under a kernel with one unprivileged process
    that has a page of memory, and a console: concrete inputs for the theorems
    on the console, the keyboard, system calls and traps. *)

From S2P Require Import Prelude Triple CString SleepLock Bio Layout Log BlockLayer.
From S2P Require Import ProcDefs ProcTable Kalloc Vm Pipe Kbd Fs Console ConsoleSpec Kernel File SysArg SysArgSpec.
From S2P Require Import Proc Exec Sysfile Sysproc Syscall KFrame FileRefs FileCalls OpenSpec Identity Demo DemoKernel.

(** A run that returns a value that passes a test. *)
Lemma run_test {S A} (o : outcome S A) (f : A -> bool) :
  match o with Ok a _ _ => f a | _ => false end = true -> exists a s w, o = Ok a s w /\ f a = true.
Proof. destruct o as [a s w| | |]; try done. intros E. by exists a, s, w. Qed.

(** ** Keyboard *)

Lemma kbdgetc_range_witness :
  let '(shift', c) := kbdgetc SHIFT (Some 0x1e) in
  (0 <= shift' < 128 /\ 0 <= c < 256) /\ length (charcode (Z.land shift' (Z.lor CTL SHIFT))) = 256%nat.
Proof. apply (kbdgetc_range SHIFT 0x1e); by vm_compute. Defined.

Lemma kbd_press_release_witness :
  fst (kbd_chars 0 [0x3a; Z.lor 0x3a 0x80]) =
    Z.lxor (Z.land 0 (Z.lnot (tget shiftcode 0x3a))) (tget togglecode 0x3a).
Proof. apply (kbd_press_release 0 0x3a); by vm_compute. Defined.

Lemma kbd_letters_witness :
  kbdgetc 8 (Some 0x1e) = (8, if Z.testbit 8 1 then 97 - 96
    else if xorb (Z.testbit 8 0) (Z.testbit 8 3) then 97 - 32 else 97).
Proof.
  apply (kbd_letters 8 0x1e 97); [by vm_compute|]. apply (bool_decide_unpack _). vm_compute. exact Logic.I.
Defined.

(** ** Console *)

Definition demo_console : console := Cons false 1 (replicate 2048 0x720) 0 true [] no_input 0.
Definition demo_hidden : console := Cons false 0 (replicate 2048 0x720) 0 true [] no_input 0.

Lemma demo_screen_ok v : screen_ok (Cons false v (replicate 2048 0x720) 0 true [] no_input 0).
Proof. constructor; cbn [cn_panicked cn_crt cn_pos]; [done|rewrite length_replicate; apply Nat.ltb_lt; by vm_compute|lia]. Qed.

Lemma console_output_safe_witness :
  wp (putchars [104; 105; 10] true)
    (fun _ s' => screen_ok s' /\ printed [104; 105; 10] true demo_console s') demo_console.
Proof. apply (console_output_safe [104; 105; 10] true demo_console), demo_screen_ok. Defined.

Lemma printint_decimal_witness :
  (length (printint_buf (-42) 10 true) <= 11)%nat /\ exists ds,
    rev (printint_buf (-42) 10 true) = (if -42 <? 0 then [45] else []) ++ ds /\
    Forall (fun c => is_digit c = true) ds /\ ds <> [] /\ dec_val ds = Z.abs (-42).
Proof. apply (printint_decimal (-42)). lia. Defined.

Lemma printint_binary_overrun_witness :
  printint 0x12345 2 false demo_console = Fault "printint: buf".
Proof. apply (printint_binary_overrun 0x12345 demo_console). by vm_compute. Defined.

Lemma console_edit_refines_witness :
  let '(i', _, ready) := edit_key no_input 97 in
  let '(q', ed') := abs_key [] [] 97 in
  in_rep i' q' ed' /\ (ready = true <-> q' <> []).
Proof. apply (console_edit_refines no_input [] [] 97 no_input_rep). lia. Defined.

Lemma console_read_refines_witness :
  let '(i', e) := consoleread_pass 5 no_input false [] in
  let '(q', e') := abs_read 5 [] false [] in
  e = e' /\ in_rep i' q' [].
Proof. apply (console_read_refines 5 no_input [] [] false []), no_input_rep. Defined.

Lemma console_line_roundtrip_witness :
  let '(i', e) := consoleread_pass 100 (edit_keys no_input ([108; 115] ++ [13])) false [] in
  e = CDone ([108; 115] ++ [10]) /\ in_rep i' [] [].
Proof.
  apply (console_line_roundtrip no_input [108; 115] 100 false); [apply no_input_rep| |by vm_compute|cbn; lia].
  repeat constructor; by vm_compute.
Defined.

Lemma hidden_input_on_serial_witness :
  wp (consoleintr [112; 119]) (fun _ s' =>
    cn_crt s' = cn_crt demo_hidden /\ cn_pos s' = cn_pos demo_hidden /\
    cn_serial s' = cn_serial demo_hidden ++ [112; 119] /\
    in_rep (cn_input s') [] ([] ++ [112; 119])) demo_hidden.
Proof.
  apply (hidden_input_on_serial demo_hidden [] [112; 119]);
    [apply demo_screen_ok|done|done|apply no_input_rep| |by vm_compute].
  repeat constructor; by vm_compute.
Defined.

(** ** The kernel *)

(** The disk of [Demo] with the inode of the file. *)
Definition demo_disk' : gmap Z (list Z) := <[33 := put_dinode 0 demo_file zero_block]> demo_disk.
Definition demo_kfs : fs logst console :=
  Fs (LogSt (binit 64 demo_disk') 2 30 0 false ROOTDEV 0 (replicate (Z.to_nat LOGSIZE) 0)) demo_sb
     (replicate NINODE zero_inode) demo_console.

(** One page of user memory: the string /a at 100, a stack at 200 with the
    arguments 100 and [O_RDONLY]. *)
Definition demo_frame : Z := demo_page 7.
Definition demo_umem : memory :=
  store_bytes (store_bytes
    (store32 (store32 (fun _ => 0) demo_dir_page (Z.lor (V2P demo_table) (Z.lor PTE_P PTE_W)))
       demo_table (Z.lor (V2P demo_frame) (Z.lor PTE_P PTE_W)))
    (demo_frame + 100) [47; 97; 0])
    (demo_frame + 204) [100; 0; 0; 0; 4; 0; 0; 0].

Definition demo_tf (num : Z) : trapframe :=
  TrapFrame 0 0 0 0 0 0 num 35 35 T_SYSCALL 0 0 27 FL_IF 200 35.
Definition demo_user : proc :=
  Proc PGSIZE demo_dir_page 0 RUNNING 7 None (demo_tf 0) None false (replicate NOFILE None) None
       (replicate 16 0) 1000 1000 1 (1000 :: replicate (MAXGROUPS - 1) 0).
Definition demo_k : kstate logst console :=
  KState demo_kfs (replicate NFILE zero_file) ∅ (Kmem demo_umem (demo_page 0))
         (PTab [demo_user; zero_proc] 8 (Some 9%nat)) 0 0.

Lemma demo_user_cur : pt_proc (k_ptab demo_k) !! k_cur demo_k = Some demo_user.
Proof. done. Qed.

Lemma demo_user_mapped : user_mapped demo_k demo_user.
Proof.
  split; [by vm_compute|]. intros va Hva.
  assert (Hall : Forall (fun va => uaddr demo_umem demo_dir_page va false <> None) (seqZ 0 PGSIZE)).
  { apply (bool_decide_unpack _). vm_compute. exact Logic.I. }
  rewrite Forall_forall in Hall. apply (Hall va). apply elem_of_seqZ. exact Hva.
Qed.

Lemma argptr_bounds_witness :
  exists r, argptr 0 8 demo_k = Ok r demo_k [] /\
    match r with
    | Some a => 0 <= 8 /\ 0 <= a < p_sz demo_user /\ a + 8 <= p_sz demo_user /\
                exists l, user_bytes demo_k demo_user a (Z.to_nat 8) = Some l /\ length l = Z.to_nat 8
    | None => True
    end.
Proof. apply (argptr_bounds demo_k demo_user 0 8 demo_user_cur demo_user_mapped). lia. Defined.

Lemma argstr_bounds_witness :
  exists r, argstr 0 demo_k = Ok r demo_k [] /\
    match r with
    | Some l => exists a str, (l = str ++ [0]) /\ (0 ∉ str) /\ 0 <= a /\
                  a + Z.of_nat (length l) <= p_sz demo_user /\ user_bytes demo_k demo_user a (length l) = Some l
    | None => True
    end.
Proof. apply (argstr_bounds demo_k demo_user 0 demo_user_cur demo_user_mapped). Defined.

Lemma demo_open_runs :
  exists fd s' w, sys_open console_devsw demo_kend demo_k = Ok fd s' w /\ (fd =? 0) = true.
Proof. apply run_test. vm_compute. reflexivity. Qed.

Lemma open_authorized_witness :
  exists fd s' w, sys_open console_devsw demo_kend demo_k = Ok fd s' w /\
  exists p f x ip d, pt_proc (k_ptab s') !! k_cur s' = Some p /\ p_ofile p !! Z.to_nat fd = Some (Some f) /\
    k_file s' !! f = Some x /\ f_ip x = Some ip /\ data_of ip s' = Some d /\
    (f_readable x <> 0 -> granted p d 2) /\ (f_writable x <> 0 -> granted p d 1).
Proof.
  destruct demo_open_runs as (fd & s' & w & E & Hfd). exists fd, s', w. split; [exact E|].
  apply (open_authorized console_devsw demo_kend demo_k 4 fd s' w); [by vm_compute|by vm_compute|exact E|lia].
Defined.

Lemma demo_files_ok : files_ok (fun _ => 0) demo_k.
Proof.
  assert (Hp : forall i p, pt_proc (k_ptab demo_k) !! i = Some p -> p_ofile p = replicate NOFILE None).
  { intros [|[|i]] p; [by intros [= <-]..|done]. }
  assert (Hno : forall i p fd f, pt_proc (k_ptab demo_k) !! i = Some p -> p_ofile p !! fd <> Some (Some f)).
  { intros i p fd f Hi. rewrite (Hp i p Hi). intros Hf. by apply lookup_replicate in Hf as [? _]. }
  constructor.
  - apply length_replicate.
  - intros f x [-> _]%lookup_replicate. done.
  - intros i p fd f Hi Hf. by destruct (Hno i p fd f).
  - intros i p Hi _ fd f. by apply (Hno i).
  - intros i p Hi. rewrite (Hp i p Hi). apply length_replicate.
Qed.

(** [open] as a trap of the process. *)
Lemma demo_trap_runs :
  exists a s' w, trap demo_kend demo_kend (demo_tf 15) 0 [] demo_k = Ok a s' w /\
    match a with Resumed => true | _ => false end = true.
Proof. apply run_test. vm_compute. reflexivity. Qed.

Lemma trap_files_inv_witness :
  exists a s' w, trap demo_kend demo_kend (demo_tf 15) 0 [] demo_k = Ok a s' w /\ files_ok (fun _ => 0) s'.
Proof.
  destruct demo_trap_runs as (a & s' & w & E & _). exists a, s', w. split; [exact E|].
  assert (Hc : cur_live demo_k) by (exists demo_user; split; [done|]; by intros [?|?]).
  pose proof (trap_files_inv demo_kend demo_kend (fun _ => 0) (demo_tf 15) 0 [] demo_k demo_files_ok Hc) as Ht.
  rewrite E in Ht. exact Ht.
Defined.

Lemma trap_identity_witness :
  exists a s' w, trap demo_kend demo_kend (demo_tf 15) 0 [] demo_k = Ok a s' w /\
  forall q', pt_proc (k_ptab s') !! 1%nat = Some q' ->
    same_id zero_proc q' \/ (p_state zero_proc = UNUSED /\ same_id demo_user q') \/
    (tf_trapno (demo_tf 15) = T_SYSCALL /\ s32 (tf_eax (demo_tf 15)) = 7 /\ 1%nat = k_cur demo_k /\ exec_id zero_proc q').
Proof.
  destruct demo_trap_runs as (a & s' & w & E & _). exists a, s', w. split; [exact E|]. intros q' Hq'.
  exact (trap_identity demo_kend demo_kend (demo_tf 15) 0 [] demo_k a s' w demo_user 1 zero_proc q'
           eq_refl eq_refl ltac:(done) E eq_refl Hq').
Defined.

(** ** Opening with [O_CREATE] *)

(** The same process asks for [O_WRONLY|O_CREATE] of the file, which belongs to
    the superuser and which nobody else may write. *)
Definition demo_create_mem : memory := store_bytes demo_umem (demo_frame + 208) [58; 0; 0; 0].
Definition demo_create_k : kstate logst console :=
  KState demo_kfs (replicate NFILE zero_file) ∅ (Kmem demo_create_mem (demo_page 0))
         (PTab [demo_user; zero_proc] 8 (Some 9%nat)) 0 0.

(** What [open] needs of the state in which [create] has found the file. *)
Definition can_open (ip : nat) (s : kstate logst console) : bool :=
  match data_of ip s, pt_proc (k_ptab s) !! k_cur s with
  | Some d, Some p => (d_type d =? T_FILE) && (d_uid d =? 0) && (d_mode d =? 420) && negb (p_euid p =? 0) &&
                      match free_fd (p_ofile p) 0, free_file (k_file s) 0 with Some _, Some _ => true | _, _ => false end
  | _, _ => false
  end.

Lemma can_open_spec ip s : can_open ip s = true -> exists d p, data_of ip s = Some d /\
  pt_proc (k_ptab s) !! k_cur s = Some p /\ d_type d = T_FILE /\ d_uid d = 0 /\ d_mode d = 420 /\
  is_Some (free_fd (p_ofile p) 0) /\ is_Some (free_file (k_file s) 0).
Proof.
  unfold can_open. destruct (data_of ip s) as [d|]; [|done]. destruct (pt_proc (k_ptab s) !! k_cur s) as [p|]; [|done].
  intros [Hc Hfree]%andb_true_iff. repeat (apply andb_true_iff in Hc as [Hc ?]). exists d, p.
  split_and!; [done|done|lia|lia|lia|by destruct (free_fd (p_ofile p) 0)|].
  by destruct (free_fd (p_ofile p) 0), (free_file (k_file s) 0).
Qed.

Lemma demo_create_mode : argint 1 demo_create_k = Ok (Some 58) demo_create_k [].
Proof. by vm_compute. Qed.

Lemma demo_create_arg : argstr 0 demo_create_k = Ok (Some [47; 97; 0]) demo_create_k [].
Proof.
  assert (E : forall o : outcome (kstate logst console) (option (list Z)),
    match o with Ok (Some l) s1 [] => bool_decide (l = [47; 97; 0]) | _ => false end = true ->
    match o with Ok _ s1 _ => s1 = demo_create_k | _ => True end -> o = Ok (Some [47; 97; 0]) demo_create_k []).
  { intros [[l|] s1 [|]| | |]; try done. by intros ->%bool_decide_eq_true ->. }
  apply E; [vm_compute; reflexivity|]. pose proof (pure_argstr 0 demo_create_k) as Hp. by destruct (argstr 0 demo_create_k).
Qed.

Lemma demo_create_finds : exists ip s1 w1,
  (do* kbegin_op in names_inode console_devsw [47; 97; 0]) demo_create_k = Ok (Some ip) s1 w1 /\ can_open ip s1 = true.
Proof.
  assert (E : forall o : outcome (kstate logst console) (option nat),
    match o with Ok (Some ip) s1 _ => can_open ip s1 | _ => false end = true ->
    exists ip s1 w1, o = Ok (Some ip) s1 w1 /\ can_open ip s1 = true).
  { intros [[ip|] s1 w1| | |]; try done. intros Hc. by exists ip, s1, w1. }
  apply E. vm_compute. reflexivity.
Qed.

Lemma demo_create_runs :
  exists fd s' w, sys_open console_devsw demo_kend demo_create_k = Ok fd s' w /\ (fd =? 0) = true.
Proof. apply run_test. vm_compute. reflexivity. Qed.

(** A process of an ordinary user opens a file of the superuser with the
    permission bits [rw-r--r--] for writing. *)
Lemma open_create_unchecked_witness :
  exists fd s' w ip d, sys_open console_devsw demo_kend demo_create_k = Ok fd s' w /\
    d_uid d = 0 /\ d_mode d = 420 /\ has_access 58 ip d fd s'.
Proof.
  destruct demo_create_finds as (ip & s1 & w1 & E1 & Hc). destruct demo_create_runs as (fd & s' & w & E & _).
  apply can_open_spec in Hc as (d & p & Hd & Hp & Ht & Hu & Hm & Hfd & Hf). exists fd, s', w, ip, d.
  split; [exact E|]. split; [exact Hu|]. split; [exact Hm|].
  exact (open_create_unchecked console_devsw demo_kend demo_create_k [47; 97; 0] 58 ip d p s1 w1 fd s' w
           demo_create_arg demo_create_mode ltac:(by vm_compute) E1 Hd Ht Hp Hfd Hf E).
Defined.
